(* ===== verification/_CoqProject ===== *)
-Q . S2P
Prelude.v
Sqlite.v
PyDecimal.v
DecUnits.v
PyValue.v
Hash.v
Money.v
MoneyText.v
DecText.v
Allocation.v
Settlement.v
SplitCalculator.v
SplitProps.v
ServiceCharge.v
PyFloat.v
PyDate.v
PyDateTime.v
Json.v
JsonParse.v
JsonRoundtrip.v
Snapshot.v
SnapshotProps.v
SlotState.v
ReconModels.v
ReconDecision.v
ReconMatcher.v
ReconDecisionHash.v
ReconBatch.v
ReviewModels.v
BoundCodec.v
ReviewQueue.v
QueueProps.v
ApplyRuntime.v
Resolution.v
SourceBinding.v
ReviewPersistence.v
Integrity.v
FinalMutation.v
ApplyPlan.v
ApplyProps.v
BatchApply.v
ApplyStore.v
GuardedExec.v
ExecStore.v
GuardedRuntime.v
ResolutionStore.v
ApplyResultStore.v
AuditChain.v
Relationships.v
Eligibility.v
PyDateTimeProps.v
CodecProps.v
BindingProps.v
IntegrityProps.v
FinalMutationProps.v
ApplyPlanProps.v
ApplyStoreProps.v
ApplyStoreRefinement.v
GuardedProps.v
ExecStoreProps.v
GuardedRuntimeProps.v
ResolutionStoreProps.v
ResolutionEvidence.v
ResolutionReplay.v
ApplyResultProps.v
CorrectionProps.v
RelationshipProps.v
ApplyResultReplay.v
AuditProps.v
AuditTable.v
AuditLog.v
Lifecycle.v
