(* ===== verification/Prelude.v ===== *)
(** * Finance Core: a verification development

    Finance Core keeps the books of a small group: receipts become proposals,
    a calculator splits them, a settlement says who owes whom, statements of
    a bank are reconciled with the recorded transactions, a reviewer decides
    what the machine cannot, and every authoritative calculation leaves a
    snapshot and an event in an append-only audit chain.  Storage is SQLite
    and the front ends are command lines and a chat bridge.  The rules about
    money, identity and authority are pure Python under
    [src/finance_core/], and those are what this library models.

    ** How the program's parts interact

<<
  Money Contract --> allocation --> split calculator --> settlement runtime
        |                                 |                    |
        |                          authoritative snapshot <----+
        |                                 |
        |                          financial audit chain
        v
  statement rows + candidates --> gates --> matcher --> batch report
                                              |              |
                                       decision record   review queue
                                                             |
                                            decisions --> apply runtime
                                                             |
                                            batch state control
                                                             |
                            stored decisions, outcomes and results
                                                             |
                                       eligibility of a correction
  parser proposals (life cycle)      synthetic authority: slot history
>>

    ** Files, and the sources they model (under src/finance_core/)

    Foundations: what the sources use of Python and its standard library.
    - [Prelude]: exceptions with their hierarchy, the error monad [result],
      loops that may raise, sums, and the lists and orders shared by all.
    - [PyDecimal], [DecUnits], [PyFloat]: [decimal] with contexts, precision
      and exponent limits; whole units; quotients of integers in binary64
      and their [repr].
    - [PyValue], [PyDate], [PyDateTime], [PyDateTimeProps]: dynamic values
      and dictionaries, calendar dates, [datetime.fromisoformat].
    - [Hash]: SHA-1, SHA-256 and [uuid5], on lists of bytes.
    - [Json], [JsonParse], [JsonRoundtrip]: [json.dumps] with sorted keys,
      [json.loads], and that the second inverts the first.

    Components.
    - [Money], [MoneyText]: money.py.  Currencies, the Decimal boundary,
      scale and sign checks, quantisation, canonical text, the value object.
    - [Allocation], [ServiceCharge], [SplitCalculator], [SplitProps]:
      calculators/receipt_split_calculator.py, from the nested dictionaries
      of a case to shares, payments and obligations.
    - [Settlement]: settlement/runtime.py, the greedy matching of debtors
      with creditors.
    - [Snapshot], [SnapshotProps]: calculation/authoritative_snapshot.py.
    - [AuditChain], [AuditProps], [AuditTable], [AuditLog]:
      financial_audit/chain.py over a table of rows.
    - [ReconModels], [ReviewModels]: reconciliation/models.py.
    - [ReconDecision], [ReconDecisionHash]: reconciliation/decision.py.
    - [ReconMatcher]: reconciliation/matcher.py.
    - [ReconBatch]: reconciliation/matching.py.
    - [ReviewQueue], [QueueProps]: reconciliation/review_queue.py, the
      in-memory generator with its summaries and structured evidence.
    - [Resolution]: reconciliation/resolution.py.
    - [BoundCodec], [CodecProps], [SourceBinding], [BindingProps]:
      reconciliation/source_binding.py, the encoder and decoder of frozen
      review items, and what a stored row must satisfy to be loaded.
    - [ReviewPersistence]: reconciliation/review_persistence.py.
    - [Integrity], [IntegrityProps]: reconciliation/resolution_integrity.py.
    - [FinalMutation], [FinalMutationProps]: reconciliation/final_mutation.py
      and final_mutation_money.py.
    - [ApplyPlan], [ApplyPlanProps]: reconciliation/apply_plan.py.
    - [Sqlite]: what the repositories use of a connection: transactions,
      what is durable, and what a process that dies leaves behind.
    - [ApplyStore], [ApplyStoreProps], [ApplyStoreRefinement]:
      reconciliation/apply_state_persistence.py.
    - [GuardedExec], [ExecStore], [GuardedRuntime], [GuardedProps],
      [ExecStoreProps], [GuardedRuntimeProps]: reconciliation/apply_runtime.py,
      apply_runtime_persistence.py, apply_execution_review.py,
      apply_orchestrator.py and final_transaction_adapter.py.
    - [ResolutionStore], [ResolutionStoreProps], [ResolutionEvidence],
      [ResolutionReplay]: reconciliation/resolution_persistence.py, and the
      correction history it asks application/correction_schema.py for.
    - [ApplyResultStore], [ApplyResultProps], [ApplyResultReplay]:
      reconciliation/apply_persistence.py, beside the tables of resolutions.
    - [Relationships], [Eligibility], [RelationshipProps], [CorrectionProps]:
      application/correction_relationships.py, the relations that bar the
      correction of a transaction, and the histories in which resolutions,
      results and corrections are committed in any order.
    - [ApplyRuntime], [ApplyProps], [BatchApply]: reconciliation/apply.py.
    - [SlotState]: synthetic_native_authority/state.py.
    - [Lifecycle]: parser_proposals/lifecycle.py.

    ** Conventions

    Code that may raise returns [result]: a value, or the class of the
    exception with a tag that names the [raise].  Where a result carries the
    text of a message (the apply runtime), the text is modelled too.  A
    method that changes its object takes the state and returns it; one that
    raises before its first mutation returns only the exception, one that
    also changes the state when it raises returns both.  Clocks are
    arguments.  Python integers are [Z]; Decimals are the triples of
    [decimal] and every operation goes through its context, so an amount of
    more than 28 digits fails here as it does there.  Texts are lists of
    UTF-8 bytes.  Operations that depend on the case or the class of a
    character ([strip], [upper], [casefold], [repr]) are those of ASCII, and
    the files that use them say so.

    ** Parameters

    Unicode normalisation comes from [unicodedata] and is a parameter, an
    instance of [UnicodeNormalizer] (idempotent, the identity on ASCII texts);
    the identity on ASCII is the instance the examples use.  The admission of
    a database connection is an argument of the audit chain, which refuses
    unadmitted ones.  Its table has the uniqueness constraints of migration
    025.  The store of resolutions is given the state of the corrections: the
    outcome of verifying their schema, and the committed ones.  The command
    that commits a correction is not modelled: it enters the histories as a
    change of that state, possible when the eligibility check accepts its
    target, that corrects this one transaction.  The rest of the books (links,
    obligations, mutations) changes there in any way.  Nothing is
    assumed of SHA-256: statements that need collision
    freedom have "or two of the hashed texts collide" as an alternative,
    and name the texts.

    ** Fuel

    Structural recursion is used wherever the source's loop allows it.
    Where it does not: the settlement loop has the fuel
    creditors + debtors, and every round retires one ([match_loop_refines]);
    the JSON reader has twice the length of the text plus one, and reads
    every text in it ([json_loads_total]); decimal digits have the binary
    logarithm ([digits_fuel]); the shortest text of a float tries at most
    seventeen digits, as many as tell all floats apart; blocks of a digest
    have the length of the message; months have the twelve of a year.

    ** What the theorems show

    - Money is neither created nor lost: a returned split is conserved per
      receipt, per participant and in total, an allocation adds up to its
      total and follows its published tie-breaking, the obligations clear
      every balance, and none of it depends on the order of its inputs.
    - Amounts are exact or refused: the scale check accepts exactly the
      amounts on the currency's grid, quantisation is nearest and
      idempotent, canonical texts identify values and are read back.
    - Reconciliation never guesses: a row is matched exactly when one
      candidate, and no other, passes every gate; its status names the gate
      the best candidates fail; no transaction is matched twice in a batch;
      the recorded decision does not depend on the candidates' order, and the
      check that guards stored decisions accepts it.
    - Decisions are applied once: repeats return the first result,
      contradictions are refused, the registry only grows, and an applied
      batch stays applied.
    - Review is bound to its source: a queue that is registered is read back,
      a row that loads is well formed, repeats its frozen item and carries
      the source this item encodes to, and the classifications the runtimes
      report for the first time conform to it.
    - Nothing passes the guard: a proposal is approved exactly when it is
      complete and sound, a plan reports the verdicts of the decisions its
      inputs carry, a first execution runs exactly the operations that the
      guard decisions passed by the caller clear, and the adapter asks for a
      human confirmation exactly when they clear all of them.
    - Stored state is final: the stored batch manager simulates the one in
      memory, a batch that was applied or whose process died is never run
      again, its audit rows retrace its life; a stored execution answers
      every later call under its key, across resets and restarts.
    - Stored resolutions are final: no operation changes a stored decision
      or outcome; every stored success has its decision, and a classification
      the evidence of its row; submitting it again sets the status of its
      item to its own and writes nothing else, other contents under its
      identifier are refused, and once its transaction is corrected it raises.
    - So are stored results: they are append-only, one per decision, and a
      call is all or nothing; whatever the apply runtime reports of a
      registered item is saved, once, and its repetitions are recognised.
    - Corrections and classifications exclude each other: the eligibility
      check understands every classification the stores wrote, refuses exactly
      the transactions it names, and in no history is a classified
      transaction corrected, or a corrected one classified.
    - Evidence is bound: snapshots verify and their hash binds every field,
      audit chains verify after any history, and chains that end alike are
      alike.
    - State machines: the transitions of the slot history are its steps and
      the reserved capacity suffices; proposals have finite lives.

    ** Findings

    Recorded in the manifest with their lines.
    - money.py: an amount on the grid with more than 28 digits raises
      [InvalidOperation] instead of the module's own error; the texts "1.e5"
      and "1_e5" pass a filter meant for scientific notation; a negative zero
      has a canonical text of its own.
    - matcher.py: the tolerance on dates is documented and never applied.
    - review_queue.py: summaries write every amount as SGD.
    - apply.py: some exceptions escape the controlled error result, as they
      escape the guard of final_mutation_money.py on large amounts.
    - source_binding.py: a queue the generator produced can be refused.
    - models.py: the state APPLYING is documented as never stored, and is.
    - apply_runtime.py: an execution whose save failed is remembered, and
      reported as persisted by the next call ([unsaved_execution_reported]).
    - resolution_persistence.py: repeating an older decision puts its status
      back over that of a later one.
    - apply_plan.py: an operation the plan blocks is documented never to
      proceed, but the execution only asks the caller's guard decisions
      ([blocked_input_eligible]).

    ** Not modelled, and why

    - The SQL itself: migrations, triggers and views, and the commands whose
      rules live in them (posting, finalization, the commands that correct,
      drafts).  The
      repositories that are modelled work on lists of rows, with the
      constraints of their tables; times of creation and update are left out.
    - Files, processes and networks: intake, OCR, Telegram, the chat bridge,
      managed snapshots, locks.  These are effects with little logic of their own.
    - Language models and third-party packages (PDF, encryption).
    - The parsers of receipts and texts, which are regular expressions over
      Unicode.
    - Python's limits on recursion depth and memory.  The limit on the length
      of the text of an integer is modelled where such a text is read.

    ** Plan

    Foundations, money, calculators, settlement, snapshots, audit chain and
    the chain of reconciliation from a statement row to a guarded execution
    are modelled as far as they are Python.  What would come next, in this
    order: the receipt calculator's input mapping, the audit of stored
    calculations, and the readers of statement files.
*)

From Stdlib Require Import ZArith Lia.
From stdpp Require Import base sets strings sorting numbers list.

Set Default Proof Using "Type".
Open Scope Z_scope.

(** ** Exceptions and the error monad

    Fallible Python code returns [result A]: a value, or the class of the
    exception with a short tag naming the [raise] site; the text of a message
    is modelled only where the code puts it into a result. *)

Inductive exn_class :=
  | ValueError | TypeError | KeyError | AttributeError | IndexError
  | MoneyValidationError | CurrencyMismatchError | CreateMoneyValidationError
  | InvalidOperation | DivisionByZero | DecimalOverflow
  | StateError | FormatError
  | JSONDecodeError | CanonicalSerializationError | SnapshotVerificationError
  | UnsupportedSnapshotVersionError | SnapshotConflictError | LegacySnapshotUnverifiedError
  | OverflowError | ApplyInstructionError | ApplyConflictError
  | AuditVerificationError | UnsupportedAuditVersionError | AuditChainConflictError | AuditChainTransactionError
  | IntegrityError | SQLiteBatchApplyStateError | GuardedApplyExecutionConflictError
  | RuntimeError | CorrectionSchemaError | DuplicateResolutionPersistenceError | ApplyPersistenceConflictError
  | CorrectionRelationshipError.

Record exn := Exn { exn_cls : exn_class; exn_site : string }.

Inductive result (A : Type) :=
  | Ok (a : A)
  | Raise (e : exn).
Arguments Ok {A} a.
Arguments Raise {A} e.

Definition raise {A} (c : exn_class) (site : string) : result A :=
  Raise (Exn c site).

#[global] Instance exn_class_eq_dec : EqDecision exn_class.
Proof. solve_decision. Defined.

(** [exn_isinstance c d]: an exception of class [c] is caught by
    [except d].  The hierarchy is the one the sources declare, on top of
    Python's own classes. *)
Definition exn_parents (c : exn_class) : list exn_class :=
  match c with
  | MoneyValidationError => [MoneyValidationError; ValueError]
  | CurrencyMismatchError =>
      [CurrencyMismatchError; MoneyValidationError; ValueError]
  | CreateMoneyValidationError =>
      [CreateMoneyValidationError; MoneyValidationError; ValueError]
  | StateError => [StateError; ValueError]
  | FormatError => [FormatError; ValueError]
  | JSONDecodeError => [JSONDecodeError; ValueError]
  | CanonicalSerializationError => [CanonicalSerializationError; ValueError]
  | SnapshotVerificationError => [SnapshotVerificationError; ValueError]
  | UnsupportedSnapshotVersionError =>
      [UnsupportedSnapshotVersionError; SnapshotVerificationError; ValueError]
  | SnapshotConflictError => [SnapshotConflictError; SnapshotVerificationError; ValueError]
  | LegacySnapshotUnverifiedError =>
      [LegacySnapshotUnverifiedError; SnapshotVerificationError; ValueError]
  | AuditVerificationError => [AuditVerificationError; ValueError]
  | UnsupportedAuditVersionError => [UnsupportedAuditVersionError; AuditVerificationError; ValueError]
  | AuditChainConflictError => [AuditChainConflictError; AuditVerificationError; ValueError]
  | CorrectionSchemaError => [CorrectionSchemaError; RuntimeError]
  | CorrectionRelationshipError => [CorrectionRelationshipError; ValueError]
  | c => [c]
  end.

Definition exn_isinstance (c d : exn_class) : bool :=
  bool_decide (d ∈ exn_parents c).

#[global] Instance result_ret : MRet result := @Ok.
#[global] Instance result_bind : MBind result := λ A B f m,
  match m with Ok a => f a | Raise e => Raise e end.
#[global] Instance result_fmap : FMap result := λ A B f m,
  match m with Ok a => Ok (f a) | Raise e => Raise e end.

Definition raise_when (b : bool) (c : exn_class) (site : string) : result unit :=
  if b then raise c site else Ok tt.

(** [try: m except d: h e]. *)
Definition catch {A} (m : result A) (d : exn_class) (h : exn → result A) : result A :=
  match m with
  | Ok a => Ok a
  | Raise e => if exn_isinstance (exn_cls e) d then h e else Raise e
  end.

Definition is_ok {A} (m : result A) : bool :=
  match m with Ok _ => true | Raise _ => false end.

(** A [for] loop whose body may raise. *)
Fixpoint foldM {A B} (f : B → A → result B) (b : B) (l : list A) : result B :=
  match l with
  | [] => Ok b
  | x :: l => b' ← f b x; foldM f b' l
  end.

(** A loop that only checks. *)
Definition forM_ {A} (l : list A) (f : A → result unit) : result unit :=
  foldM (λ _ x, f x) tt l.

Lemma bind_Ok {A B} (m : result A) (f : A → result B) b :
  m ≫= f = Ok b ↔ ∃ a, m = Ok a ∧ f a = Ok b.
Proof.
  destruct m as [a|e]; cbn; split.
  - eauto.
  - by intros (?&[= ->]&?).
  - done.
  - by intros (?&?&?).
Qed.

Lemma raise_when_Ok b c s u : raise_when b c s = Ok u ↔ b = false.
Proof. destruct b, u; cbn; split; done. Qed.

Lemma foldM_app {A B} (f : B → A → result B) b l k :
  foldM f b (l ++ k) = (b' ← foldM f b l; foldM f b' k).
Proof.
  revert b; induction l as [|x l IH]; intros b; cbn; [done|].
  destruct (f b x); cbn; auto.
Qed.

(** Invariants of loops. *)
Lemma foldM_inv {A B} (P : B → Prop) (f : B → A → result B) b l b' :
  P b →
  (∀ b x b', P b → x ∈ l → f b x = Ok b' → P b') →
  foldM f b l = Ok b' → P b'.
Proof.
  revert b; induction l as [|x l IH]; cbn; intros b Hb Hf; [by intros [= <-]|].
  intros (b1&H1&H2)%bind_Ok.
  apply (IH b1); [|intros ??? Hp Hx; apply Hf; [done|by right]|done].
  apply (Hf b x); [done|left|done].
Qed.

Lemma forM_Ok {A} (l : list A) (f : A → result unit) u :
  forM_ l f = Ok u ↔ Forall (λ x, f x = Ok tt) l.
Proof.
  destruct u; unfold forM_.
  induction l as [|x l IH]; cbn; [by split; [constructor|]|].
  rewrite Forall_cons; split.
  - intros ([]&Hx&Hl)%bind_Ok. by rewrite <- IH.
  - intros [-> Hl]. by apply IH.
Qed.

Lemma mapM_Ok {A B} (f : A → result B) l k :
  mapM f l = Ok k ↔ Forall2 (λ x y, f x = Ok y) l k.
Proof.
  revert k; induction l as [|x l IH]; intros k; cbn.
  - split; [intros [= <-]; constructor|]. by inversion 1.
  - split.
    + intros (y&Hy&(ys&Hys&[= <-])%bind_Ok)%bind_Ok. constructor; [done|by apply IH].
    + inversion 1 as [|? y ? k' Hy Hk]; subst. apply IH in Hk.
      rewrite Hy. cbn. by rewrite Hk.
Qed.

(** [inv_ok] decomposes hypotheses saying that a monadic computation
    returned normally. *)
Ltac inv_ok_step :=
  match goal with
  | H : Raise _ = Ok _ |- _ => discriminate H
  | H : raise _ _ = Ok _ |- _ => discriminate H
  | H : Ok _ = Ok _ |- _ => injection H as H; try subst
  | H : mret _ = Ok _ |- _ => injection H as H; try subst
  | H : raise_when _ _ _ = Ok _ |- _ => apply raise_when_Ok in H
  | H : (_ ≫= _) = Ok _ |- _ =>
      apply bind_Ok in H; let x := fresh "x" in let E := fresh "E" in
      destruct H as (x & E & H)
  | H : unit |- _ => destruct H
  end.
Ltac inv_ok := repeat inv_ok_step.

(** [step] runs the monadic plumbing and nothing else. *)
Ltac step := cbn [mbind result_bind fmap result_fmap raise_when raise].

(** ** Python strings

    [str] values are modelled as sequences of ASCII characters. *)

Definition ascii_code (c : Ascii.ascii) : Z := Z.of_N (Ascii.N_of_ascii c).

(** [str.isspace] on ASCII: tab to carriage return, the four separators
    28..31, and the space. *)
Definition py_isspace (c : Ascii.ascii) : bool :=
  let n := ascii_code c in
  ((9 <=? n) && (n <=? 13)) || ((28 <=? n) && (n <=? 32)).

Definition py_isdigit (c : Ascii.ascii) : bool :=
  let n := ascii_code c in (48 <=? n) && (n <=? 57).

Definition py_isalpha_char (c : Ascii.ascii) : bool :=
  let n := ascii_code c in
  ((65 <=? n) && (n <=? 90)) || ((97 <=? n) && (n <=? 122)).

Definition upper_char (c : Ascii.ascii) : Ascii.ascii :=
  let n := ascii_code c in
  if (97 <=? n) && (n <=? 122) then Ascii.ascii_of_N (Z.to_N (n - 32)) else c.

Definition lower_char (c : Ascii.ascii) : Ascii.ascii :=
  let n := ascii_code c in
  if (65 <=? n) && (n <=? 90) then Ascii.ascii_of_N (Z.to_N (n + 32)) else c.

Abbreviation chars := String.list_ascii_of_string.
Abbreviation of_chars := String.string_of_list_ascii.

Fixpoint drop_while {A} (p : A → bool) (l : list A) : list A :=
  match l with
  | [] => []
  | x :: k => if p x then drop_while p k else l
  end.

Definition strip_chars (l : list Ascii.ascii) : list Ascii.ascii :=
  reverse (drop_while py_isspace (reverse (drop_while py_isspace l))).

Definition py_strip (s : string) : string := of_chars (strip_chars (chars s)).
Definition py_upper (s : string) : string := of_chars (upper_char <$> chars s).
Definition py_lower (s : string) : string := of_chars (lower_char <$> chars s).

(** [str.isalpha]: false on the empty string. *)
Definition py_isalpha (s : string) : bool :=
  negb (String.eqb s "") && forallb py_isalpha_char (chars s).

(** [str.split()] on whitespace. *)
Fixpoint split_ws_aux (cur : list Ascii.ascii) (l : list Ascii.ascii) : list (list Ascii.ascii) :=
  match l with
  | [] => match cur with [] => [] | _ => [reverse cur] end
  | c :: l =>
      if py_isspace c
      then match cur with [] => split_ws_aux [] l | _ => reverse cur :: split_ws_aux [] l end
      else split_ws_aux (c :: cur) l
  end.
Definition py_split (s : string) : list string :=
  of_chars <$> split_ws_aux [] (chars s).

Definition str_empty (s : string) : bool := String.eqb s "".

Lemma of_chars_chars s : of_chars (chars s) = s.
Proof. apply String.string_of_list_ascii_of_string. Qed.
Lemma chars_of_chars l : chars (of_chars l) = l.
Proof. apply String.list_ascii_of_string_of_list_ascii. Qed.
#[global] Instance of_chars_inj : Inj (=) (=) of_chars.
Proof. intros l k E%(f_equal chars). by rewrite !chars_of_chars in E. Qed.

Lemma drop_while_idemp {A} (p : A → bool) l :
  drop_while p (drop_while p l) = drop_while p l.
Proof.
  induction l as [|x l IH]; cbn; [done|].
  destruct (p x) eqn:E; [done|]. cbn. by rewrite E.
Qed.

Lemma drop_while_none {A} (p : A → bool) l :
  Forall (λ x, p x = false) l → drop_while p l = l.
Proof. destruct 1 as [|x l E]; cbn; [done|]. by rewrite E. Qed.

Lemma strip_chars_none l :
  Forall (λ x, py_isspace x = false) l → strip_chars l = l.
Proof.
  intros H. unfold strip_chars.
  rewrite (drop_while_none _ l) by done.
  rewrite drop_while_none by by apply Forall_reverse.
  by rewrite reverse_involutive.
Qed.

(** ** Sorting

    Python's [list.sort] and [sorted] are stable; [isort leb] is the stable
    sort for the order [leb]. *)

Section Sort.
Context {A : Type} (leb : A → A → bool).

Fixpoint insert_sorted (x : A) (l : list A) : list A :=
  match l with
  | [] => [x]
  | y :: k => if leb x y then x :: l else y :: insert_sorted x k
  end.

Definition isort (l : list A) : list A := foldr insert_sorted [] l.

Lemma insert_sorted_perm x l : insert_sorted x l ≡ₚ x :: l.
Proof.
  induction l as [|y l IH]; cbn; [done|].
  destruct (leb x y); [done|]. rewrite IH. by constructor.
Qed.

Lemma isort_perm l : isort l ≡ₚ l.
Proof.
  induction l as [|x l IH]; cbn; [done|].
  by rewrite insert_sorted_perm, IH.
Qed.

Lemma isort_length l : length (isort l) = length l.
Proof. by rewrite isort_perm. Qed.

Lemma isort_elem_of x l : x ∈ isort l ↔ x ∈ l.
Proof. by rewrite isort_perm. Qed.

Context (leb_total : ∀ x y, leb x y = true ∨ leb y x = true).
Context (leb_trans : ∀ x y z, leb x y = true → leb y z = true → leb x z = true).

Lemma insert_sorted_ssorted x l :
  StronglySorted leb l → StronglySorted leb (insert_sorted x l).
Proof using leb_total leb_trans.
  induction 1 as [|y l Hl IH Hy]; cbn; [repeat constructor|].
  destruct (leb x y) eqn:E.
  - constructor; [by constructor|]. constructor; [by rewrite E|].
    eapply Forall_impl; [done|]. intros z Hz%Is_true_true.
    apply Is_true_true. by eapply leb_trans.
  - constructor; [done|]. rewrite insert_sorted_perm.
    constructor; [|done]. destruct (leb_total x y) as [?|Hyx]; [congruence|by rewrite Hyx].
Qed.

Lemma isort_ssorted l : StronglySorted leb (isort l).
Proof using leb_total leb_trans.
  induction l as [|x l IH]; cbn; [constructor|].
  by apply insert_sorted_ssorted.
Qed.

(** The sorted order is unique when equivalent elements of the list are
    equal. *)
Lemma ssorted_unique l k :
  (∀ x y, x ∈ l → y ∈ l → leb x y = true → leb y x = true → x = y) →
  StronglySorted leb l → StronglySorted leb k → l ≡ₚ k → l = k.
Proof using Type.
  intros Hanti Hl; revert k; induction Hl as [|x l Hl IH Hx]; intros k Hk Hp.
  - symmetry. by apply Permutation_nil.
  - destruct Hk as [|y k Hk Hy]; [symmetry in Hp; by apply Permutation_nil_cons in Hp|].
    assert (x = y) as ->.
    { assert (Hxy : x ∈ y :: k) by (rewrite <- Hp; left).
      assert (Hyx : y ∈ x :: l) by (rewrite Hp; left).
      apply elem_of_cons in Hxy as [->|Hxk]; [done|].
      apply elem_of_cons in Hyx as [->|Hyl]; [done|].
      rewrite Forall_forall in Hx, Hy.
      apply Hanti; [left|by right| |].
      - by apply Is_true_true, Hx.
      - by apply Is_true_true, Hy. }
    f_equal. apply IH; [|done|by eapply Permutation_cons_inv].
    intros u v Hu Hv. apply Hanti; by right.
Qed.

Lemma isort_unique l k :
  (∀ x y, x ∈ l → y ∈ l → leb x y = true → leb y x = true → x = y) →
  l ≡ₚ k → isort l = isort k.
Proof using leb_total leb_trans.
  intros Hanti Hp. apply ssorted_unique.
  - intros x y. rewrite !isort_elem_of. apply Hanti.
  - apply isort_ssorted.
  - apply isort_ssorted.
  - by rewrite !isort_perm.
Qed.
End Sort.

(** Sorting commutes with an order embedding. *)
Lemma insert_sorted_fmap {A B} (le1 : B → B → bool) (le2 : A → A → bool) (g : A → B) x l :
  (∀ y, y ∈ l → le1 (g x) (g y) = le2 x y) →
  insert_sorted le1 (g x) (g <$> l) = g <$> insert_sorted le2 x l.
Proof.
  intros Hle. induction l as [|y l IH]; cbn; [done|].
  rewrite Hle by left. destruct (le2 x y); cbn; [done|]. f_equal. apply IH. intros z Hz. apply Hle. by right.
Qed.

Lemma isort_fmap {A B} (le1 : B → B → bool) (le2 : A → A → bool) (g : A → B) l :
  (∀ x y, x ∈ l → y ∈ l → le1 (g x) (g y) = le2 x y) →
  isort le1 (g <$> l) = g <$> isort le2 l.
Proof.
  intros Hle. induction l as [|x l IH]; [done|].
  change (insert_sorted le1 (g x) (isort le1 (g <$> l)) = g <$> insert_sorted le2 x (isort le2 l)).
  rewrite IH by (intros y z Hy Hz; apply Hle; by right).
  apply insert_sorted_fmap. intros y Hy. apply Hle; [left|right; by rewrite <- (isort_elem_of le2)].
Qed.

Lemma filter_none {A} (P : A → Prop) `{!∀ x, Decision (P x)} l : Forall (λ x, ¬ P x) l → filter P l = [].
Proof. induction 1 as [|x l Hx _ IH]; [done|]. by rewrite filter_cons_False. Qed.

Lemma filter_all {A} (P : A → Prop) `{!∀ x, Decision (P x)} l : Forall P l → filter P l = l.
Proof. induction 1 as [|x l Hx _ IH]; [done|]. by rewrite filter_cons_True, IH. Qed.

(** ** Python dictionaries

    A [dict] with string keys is an association list in insertion order;
    assignment updates in place or appends. *)

Abbreviation pydict V := (list (string * V)).

Section Dict.
Context {V : Type}.
Implicit Types (d : pydict V) (k : string).

Fixpoint dict_get k d : option V :=
  match d with
  | [] => None
  | (k', v) :: d => if String.eqb k k' then Some v else dict_get k d
  end.

Fixpoint dict_set k (v : V) d : pydict V :=
  match d with
  | [] => [(k, v)]
  | (k', v') :: d =>
      if String.eqb k k' then (k', v) :: d else (k', v') :: dict_set k v d
  end.

Definition dict_mem k d : bool :=
  match dict_get k d with Some _ => true | None => false end.

Definition dict_keys d : list string := d.*1.
Definition dict_values d : list V := d.*2.

(** [d[k]]. *)
Definition dict_index k d : result V :=
  match dict_get k d with Some v => Ok v | None => raise KeyError k end.

Lemma dict_get_None k d : dict_get k d = None ↔ k ∉ dict_keys d.
Proof.
  induction d as [|[k' v] d IH]; cbn; [set_solver|].
  destruct (String.eqb_spec k k') as [->|Hne]; [set_solver|].
  rewrite IH. set_solver.
Qed.

Lemma dict_get_Some_mem k v d : dict_get k d = Some v → (k, v) ∈ d.
Proof.
  induction d as [|[k' v'] d IH]; cbn; [done|].
  destruct (String.eqb_spec k k') as [->|Hne].
  - intros [= ->]. left.
  - intros. right. auto.
Qed.

Lemma dict_get_mem k v d :
  NoDup (dict_keys d) → (k, v) ∈ d → dict_get k d = Some v.
Proof.
  induction d as [|[k' v'] d IH]; cbn; [by intros _ ?%elem_of_nil|].
  intros [Hk' Hd]%NoDup_cons [[= -> ->]|Hin]%elem_of_cons.
  - by rewrite String.eqb_refl.
  - destruct (String.eqb_spec k k') as [->|]; [|auto].
    exfalso. apply Hk'. apply list_elem_of_fmap. by exists (k', v).
Qed.

Lemma dict_mem_true k d : dict_mem k d = true ↔ k ∈ dict_keys d.
Proof.
  unfold dict_mem. destruct (dict_get k d) eqn:E.
  - split; [|done]. intros _. apply dict_get_Some_mem in E.
    apply list_elem_of_fmap. by exists (k, v).
  - apply dict_get_None in E. by split.
Qed.

Lemma dict_set_keys_mem k v d :
  k ∈ dict_keys d → dict_keys (dict_set k v d) = dict_keys d.
Proof.
  induction d as [|[k' v'] d IH]; cbn; [by intros ?%elem_of_nil|].
  intros Hk. destruct (String.eqb_spec k k') as [->|Hne]; cbn; [done|].
  f_equal. apply IH. set_solver.
Qed.

Lemma dict_set_keys_new k v d :
  k ∉ dict_keys d → dict_set k v d = d ++ [(k, v)].
Proof.
  induction d as [|[k' v'] d IH]; cbn; [done|]. intros Hk.
  destruct (String.eqb_spec k k') as [->|Hne]; [set_solver|].
  f_equal. apply IH. set_solver.
Qed.

Lemma dict_get_set_eq k v d : dict_get k (dict_set k v d) = Some v.
Proof.
  induction d as [|[k' v'] d IH]; cbn; [by rewrite String.eqb_refl|].
  destruct (String.eqb_spec k k') as [->|Hne]; cbn; [by rewrite String.eqb_refl|].
  by apply String.eqb_neq in Hne as ->.
Qed.

Lemma dict_get_set_ne k k' v d :
  k ≠ k' → dict_get k (dict_set k' v d) = dict_get k d.
Proof.
  intros Hne. apply String.eqb_neq in Hne as Hb.
  induction d as [|[k1 v1] d IH]; cbn; [by rewrite Hb|].
  destruct (String.eqb_spec k' k1) as [->|Hne1]; cbn; [by rewrite Hb|].
  by rewrite IH.
Qed.

Lemma dict_get_set k k' v d :
  dict_get k (dict_set k' v d) = if String.eqb k k' then Some v else dict_get k d.
Proof.
  destruct (String.eqb_spec k k') as [->|].
  - apply dict_get_set_eq.
  - by apply dict_get_set_ne.
Qed.

(** [{k: f(k) for k in keys}]. *)
Definition dict_build (f : string → V) (ks : list string) : pydict V :=
  foldl (λ d k, dict_set k (f k) d) [] ks.

Lemma dict_build_aux f ks d :
  NoDup ks → (∀ k, k ∈ ks → k ∉ dict_keys d) →
  foldl (λ d k, dict_set k (f k) d) d ks = d ++ ((λ k, (k, f k)) <$> ks).
Proof.
  revert d; induction ks as [|k ks IH]; intros d Hnd Hd; cbn; [by rewrite app_nil_r|].
  apply NoDup_cons in Hnd as [Hk Hnd].
  rewrite dict_set_keys_new by (apply Hd; left).
  rewrite IH; [by rewrite <- app_assoc|done|].
  intros k' Hk'. unfold dict_keys. rewrite fmap_app. cbn.
  specialize (Hd k'). set_solver.
Qed.

Lemma dict_build_NoDup f ks :
  NoDup ks → dict_build f ks = (λ k, (k, f k)) <$> ks.
Proof. intros. unfold dict_build. by rewrite dict_build_aux by set_solver. Qed.
(** A dictionary given by a function on a list of keys. *)
Definition dict_tab (f : string → V) (ks : list string) : pydict V :=
  (λ k, (k, f k)) <$> ks.

Lemma dict_tab_keys f ks : dict_keys (dict_tab f ks) = ks.
Proof. unfold dict_keys, dict_tab. rewrite <- list_fmap_compose. apply list_fmap_id. Qed.

Lemma dict_tab_values f ks : dict_values (dict_tab f ks) = f <$> ks.
Proof. unfold dict_values, dict_tab. by rewrite <- list_fmap_compose. Qed.

Lemma dict_tab_get f ks k : k ∈ ks → dict_get k (dict_tab f ks) = Some (f k).
Proof.
  induction ks as [|k' ks IH]; cbn; [by intros ?%elem_of_nil|].
  destruct (String.eqb_spec k k') as [->|Hne]; [done|].
  intros [->|?]%elem_of_cons; [done|auto].
Qed.

Lemma dict_tab_index f ks k : k ∈ ks → dict_index k (dict_tab f ks) = Ok (f k).
Proof. intros Hk. unfold dict_index. by rewrite dict_tab_get. Qed.

Lemma dict_tab_ext f g ks : (∀ k, k ∈ ks → f k = g k) → dict_tab f ks = dict_tab g ks.
Proof.
  intros Hfg. unfold dict_tab. apply list_fmap_ext. intros i k Hk.
  rewrite Hfg; [done|]. by eapply list_elem_of_lookup_2.
Qed.

Lemma dict_tab_set f ks k v :
  NoDup ks → k ∈ ks →
  dict_set k v (dict_tab f ks) = dict_tab (λ k', if String.eqb k' k then v else f k') ks.
Proof.
  induction ks as [|k' ks IH]; [by intros _ ?%elem_of_nil|].
  intros [Hk' Hnd]%NoDup_cons [->|Hk]%elem_of_cons; cbn.
  - rewrite String.eqb_refl. f_equal. apply (dict_tab_ext f). intros k Hk.
    destruct (String.eqb_spec k k') as [->|]; [by destruct Hk'|done].
  - destruct (String.eqb_spec k k') as [->|Hne]; [by destruct Hk'|].
    destruct (String.eqb_spec k' k) as [->|_]; [done|].
    f_equal. by apply IH.
Qed.

Lemma dict_tab_snoc f ks k :
  k ∉ ks → dict_set k (f k) (dict_tab f ks) = dict_tab f (ks ++ [k]).
Proof.
  intros Hk. rewrite dict_set_keys_new by by rewrite dict_tab_keys.
  unfold dict_tab. by rewrite fmap_app.
Qed.

(** A loop that fills a dictionary, one key at a time. *)
Lemma foldM_fill (m : string → result V) (f : string → V) ks :
  NoDup ks → (∀ k, k ∈ ks → m k = Ok (f k)) →
  foldM (λ d k, v ← m k; Ok (dict_set k v d)) [] ks = Ok (dict_tab f ks).
Proof.
  intros Hnd Hm. induction ks as [|k ks IH] using rev_ind; [done|].
  apply NoDup_app in Hnd as (Hnd&Hdisj&_). rewrite foldM_app, IH; [|done|set_solver].
  cbn. rewrite Hm by set_solver. cbn. rewrite dict_tab_snoc; [done|].
  intros Hk. apply (Hdisj k Hk). left.
Qed.

Lemma foldM_fill_Ok (m : string → result V) ks d r k :
  foldM (λ d k, v ← m k; Ok (dict_set k v d)) d ks = Ok r → k ∈ ks → ∃ v, m k = Ok v.
Proof.
  revert d; induction ks as [|k' ks IH]; intros d; cbn; [by intros _ ?%elem_of_nil|].
  intros (d'&(v&Hv&_)%bind_Ok&Hr)%bind_Ok [->|Hk]%elem_of_cons; [by eauto|by eapply IH].
Qed.
End Dict.

(** Elements with distinct keys are told apart by them. *)
Lemma same_id_eq {A} (f : A → string) l x y :
  NoDup (f <$> l) → x ∈ l → y ∈ l → f x = f y → x = y.
Proof.
  induction l as [|z l IH]; [by intros _ ?%elem_of_nil|].
  rewrite fmap_cons. intros [Hz Hnd]%NoDup_cons [->|Hx]%elem_of_cons [->|Hy]%elem_of_cons E; [done| | |auto].
  - destruct Hz. rewrite E. by apply list_elem_of_fmap_2.
  - destruct Hz. rewrite <- E. by apply list_elem_of_fmap_2.
Qed.

(** [len(set(l)) != len(l)]: the list has a repeated element. *)
Definition has_duplicates (l : list string) : bool := negb (bool_decide (NoDup l)).
Definition str_in (s : string) (l : list string) : bool := bool_decide (s ∈ l).

Lemma has_duplicates_false l : has_duplicates l = false ↔ NoDup l.
Proof.
  unfold has_duplicates. rewrite negb_false_iff. apply bool_decide_eq_true.
Qed.

(** The order of Python strings is the lexicographic order of code points. *)
Lemma str_leb_total s t : String.leb s t = true ∨ String.leb t s = true.
Proof.
  destruct (total String.le s t) as [H|H]; unfold String.le in H;
    apply Is_true_true in H; auto.
Qed.
Lemma str_leb_trans s t u :
  String.leb s t = true → String.leb t u = true → String.leb s u = true.
Proof.
  rewrite <- !Is_true_true. change (String.le s t → String.le t u → String.le s u).
  apply transitivity.
Qed.
Lemma str_leb_antisym s t :
  String.leb s t = true → String.leb t s = true → s = t.
Proof.
  rewrite <- !Is_true_true. change (String.le s t → String.le t s → s = t).
  apply (anti_symm String.le).
Qed.

(** Tuples compare component by component. *)
Section Lex.
Context {A B : Type} (leA : A → A → bool) (leB : B → B → bool).

Definition lex_leb (x y : A * B) : bool :=
  leA x.1 y.1 && (negb (leA y.1 x.1) || leB x.2 y.2).

Context (totalA : ∀ x y, leA x y = true ∨ leA y x = true).
Context (transA : ∀ x y z, leA x y = true → leA y z = true → leA x z = true).

Lemma lex_leb_total :
  (∀ x y, leB x y = true ∨ leB y x = true) → ∀ x y, lex_leb x y = true ∨ lex_leb y x = true.
Proof using totalA.
  intros HB [a b] [a' b']. unfold lex_leb; cbn [fst snd].
  destruct (totalA a a') as [H|H]; rewrite H.
  - destruct (leA a' a); cbn; [|by left]. apply HB.
  - destruct (leA a a'); cbn; [|by right]. apply HB.
Qed.

Lemma lex_leb_trans :
  (∀ x y z, leB x y = true → leB y z = true → leB x z = true) →
  ∀ x y z, lex_leb x y = true → lex_leb y z = true → lex_leb x z = true.
Proof using transA.
  intros HB [a b] [a' b'] [a'' b'']. unfold lex_leb; cbn [fst snd].
  intros [H1 H2]%andb_true_iff [H3 H4]%andb_true_iff.
  rewrite (transA _ _ _ H1 H3). cbn.
  destruct (leA a'' a) eqn:E; [|done]. cbn.
  rewrite (transA _ _ _ H3 E) in H2. rewrite (transA _ _ _ E H1) in H4. cbn in H2, H4. eauto.
Qed.

Lemma lex_leb_antisym :
  (∀ x y, leA x y = true → leA y x = true → x = y) →
  (∀ x y, leB x y = true → leB y x = true → x = y) →
  ∀ x y, lex_leb x y = true → lex_leb y x = true → x = y.
Proof using Type.
  intros HA HB [a b] [a' b']. unfold lex_leb; cbn [fst snd].
  intros [H1 H2]%andb_true_iff [H3 H4]%andb_true_iff.
  rewrite H3 in H2. rewrite H1 in H4. f_equal; auto.
Qed.
End Lex.

(** ** Sums of integers *)

Fixpoint zsum (l : list Z) : Z :=
  match l with [] => 0 | x :: l => x + zsum l end.

Lemma zsum_app l k : zsum (l ++ k) = zsum l + zsum k.
Proof. induction l as [|x l IH]; cbn; [done|]. rewrite IH. lia. Qed.

#[global] Instance zsum_perm : Proper ((≡ₚ) ==> (=)) zsum.
Proof. induction 1; cbn; lia. Qed.

Lemma zsum_nonneg l : Forall (λ x, 0 <= x) l → 0 <= zsum l.
Proof. induction 1; cbn; lia. Qed.

Lemma zsum_le_mem x l : Forall (λ x, 0 <= x) l → x ∈ l → x <= zsum l.
Proof.
  induction 1 as [|y l Hy Hl IH]; [by intros ?%elem_of_nil|].
  intros [->|Hx]%elem_of_cons; cbn.
  - pose proof (zsum_nonneg _ Hl). lia.
  - specialize (IH Hx). lia.
Qed.

Lemma zsum_fmap_add {A} (f g : A → Z) l :
  zsum ((λ x, f x + g x) <$> l) = zsum (f <$> l) + zsum (g <$> l).
Proof. induction l as [|x l IH]; cbn; [done|]. rewrite IH. lia. Qed.

Lemma zsum_fmap_const {A} (c : Z) (l : list A) : zsum ((λ _, c) <$> l) = c * Z.of_nat (length l).
Proof. induction l as [|x l IH]; cbn [fmap list_fmap zsum length]; [lia|]. rewrite IH. lia. Qed.

Lemma zsum_fmap_le {A} (f g : A → Z) l :
  (∀ x, x ∈ l → f x <= g x) → zsum (f <$> l) <= zsum (g <$> l).
Proof.
  intros H. induction l as [|x l IH]; cbn; [done|].
  specialize (IH ltac:(set_solver)). specialize (H x ltac:(set_solver)). lia.
Qed.

Lemma zsum_fmap_ext {A} (f g : A → Z) l :
  (∀ x, x ∈ l → f x = g x) → zsum (f <$> l) = zsum (g <$> l).
Proof. intros H. apply Z.le_antisymm; apply zsum_fmap_le; intros x Hx; by rewrite H. Qed.

(** Counting the members of a duplicate-free sublist. *)
Definition indicator (T : list string) (p : string) : Z := if bool_decide (p ∈ T) then 1 else 0.

Lemma indicator_cons t T p :
  t ∉ T → indicator (t :: T) p = indicator T p + if String.eqb p t then 1 else 0.
Proof.
  intros Ht. unfold indicator. destruct (String.eqb_spec p t) as [->|Hne].
  - rewrite bool_decide_true by left. by rewrite bool_decide_false.
  - rewrite Z.add_0_r, (bool_decide_ext _ (p ∈ T)); [done|]. set_solver.
Qed.

Lemma zsum_point t k ps :
  NoDup ps → t ∈ ps → zsum ((λ p, if String.eqb p t then k else 0) <$> ps) = k.
Proof.
  induction 1 as [|p ps Hp Hps IH]; [by intros ?%elem_of_nil|].
  intros [->|Ht]%elem_of_cons; cbn.
  - rewrite String.eqb_refl. rewrite (zsum_fmap_ext _ (λ _, 0)), zsum_fmap_const; [lia|].
    intros q Hq. destruct (String.eqb_spec q p) as [->|]; [by destruct Hp|done].
  - destruct (String.eqb_spec p t) as [->|]; [by destruct Hp|]. by rewrite IH.
Qed.

Lemma zsum_indicator T ps :
  NoDup ps → NoDup T → T ⊆ ps → zsum (indicator T <$> ps) = Z.of_nat (length T).
Proof.
  intros Hps HT. induction HT as [|t T Ht HT IH]; intros Hsub.
  - rewrite (zsum_fmap_ext _ (λ _, 0)), zsum_fmap_const; [done|].
    intros p _. unfold indicator. by rewrite bool_decide_false by set_solver.
  - rewrite (zsum_fmap_ext _ (λ p, indicator T p + if String.eqb p t then 1 else 0))
      by (intros; by apply indicator_cons).
    rewrite zsum_fmap_add, IH, zsum_point by set_solver. cbn. lia.
Qed.

(** ** Automation *)

Create HintDb fincore.
#[export] Hint Resolve dict_get_set_eq dict_get_set_ne str_leb_antisym : fincore.
#[export] Hint Resolve isort_perm zsum_nonneg : fincore.
