(* ===== verification/Sqlite.v ===== *)
(** * Connections to a database

    What the repositories use of [sqlite3]: a connection reads and writes the
    tables as its own open transaction sees them, [commit] makes them durable,
    [rollback] returns to the last commit, and a process that dies leaves what
    was committed.  The tables are any type [T]; an operation that may raise
    also says what it leaves behind when it does.  Statements that a
    constraint refuses change nothing. *)

From Stdlib Require Import ZArith Lia.
From stdpp Require Import base sets strings list.
From S2P Require Import Prelude.

Section Connections.
Context {T : Type}.

Record Connection := MkConn {
  cn_tables : T;
  cn_committed : T;
}.

Definition DB (A : Type) : Type := Connection → result A * Connection.

Definition lift {A} (m : result A) : DB A := λ c, (m, c).
Definition read {A} (f : T → A) : DB A := λ c, (Ok (f (cn_tables c)), c).
(** A statement: the new tables, or an exception. *)
Definition execute (f : T → result T) : DB unit := λ c,
  match f (cn_tables c) with
  | Ok t => (Ok tt, MkConn t (cn_committed c))
  | Raise e => (Raise e, c)
  end.
Definition commit : DB unit := λ c, (Ok tt, MkConn (cn_tables c) (cn_tables c)).
Definition rollback : DB unit := λ c, (Ok tt, MkConn (cn_committed c) (cn_committed c)).

(** Work within a savepoint, undone when it raises; both ways what remains is
    committed. *)
Definition savepoint {A} (m : DB A) : DB A := λ c,
  match m c with
  | (Ok a, c') => (Ok a, MkConn (cn_tables c') (cn_tables c'))
  | (Raise e, _) => (Raise e, MkConn (cn_tables c) (cn_tables c))
  end.

(** A connection without an open transaction. *)
Definition at_rest (t : T) : Connection := MkConn t t.

(** The connection of a new process to the same database. *)
Definition reopened (c : Connection) : Connection := MkConn (cn_committed c) (cn_committed c).
(** No transaction is open. *)
Definition settled_conn (c : Connection) : Prop := cn_tables c = cn_committed c.
End Connections.
Arguments Connection : clear implicits.
Arguments DB : clear implicits.

#[global] Instance db_ret {T} : MRet (DB T) := λ A a c, (Ok a, c).
#[global] Instance db_bind {T} : MBind (DB T) := λ A B f m c,
  match m c with
  | (Ok a, c') => f a c'
  | (Raise e, c') => (Raise e, c')
  end.

Section Laws.
Context {T : Type}.
Implicit Type c : Connection T.

Lemma db_bind_Ok {A B} (m : DB T A) (f : A → DB T B) c a c' :
  m c = (Ok a, c') → (m ≫= f) c = f a c'.
Proof. intros H. unfold mbind, db_bind. by rewrite H. Qed.

Lemma db_bind_Raise {A B} (m : DB T A) (f : A → DB T B) c e c' :
  m c = (Raise e, c') → (m ≫= f) c = (Raise e, c').
Proof. intros H. unfold mbind, db_bind. by rewrite H. Qed.

Lemma db_bind_inv {A B} (m : DB T A) (f : A → DB T B) c b c' :
  (m ≫= f) c = (Ok b, c') → ∃ a c1, m c = (Ok a, c1) ∧ f a c1 = (Ok b, c').
Proof. unfold mbind, db_bind. destruct (m c) as [[a|e] c1]; [by exists a, c1|done]. Qed.

Lemma db_bind_assoc {A B C} (m : DB T A) (f : A → DB T B) (g : B → DB T C) c :
  ((m ≫= f) ≫= g) c = (m ≫= λ a, f a ≫= g) c.
Proof. unfold mbind, db_bind. by destruct (m c) as [[a|e] c1]. Qed.

Lemma reopened_settled c : settled_conn (reopened c).
Proof. done. Qed.
End Laws.
