(* ===== verification/PyDecimal.v ===== *)
(** * Python's [decimal] module

    The arithmetic the sources use: the triple representation (sign,
    coefficient, exponent), contexts with their precision and exponent
    limits, correctly rounded addition, subtraction, multiplication and
    division, [quantize], [to_integral_value], [int], comparison, and the
    conversions from and to strings.  The default context is the one CPython
    starts with (28 digits, ROUND_HALF_EVEN, traps on InvalidOperation,
    DivisionByZero and Overflow).  The second half relates every operation to
    exact rational arithmetic. *)

From Stdlib Require Import Ascii ZArith QArith Qabs Qminmax Qpower Lqa Lia.
From stdpp Require Import base sets strings sorting numbers list.
From S2P Require Import Prelude.

Open Scope Z_scope.

(** ** Representation *)

Record fdec := FDec { fsign : bool; fcoef : N; fexp : Z }.

Inductive decimal :=
  | DFin (d : fdec)
  | DInf (s : bool)
  | DNaN (s : bool) (signaling : bool).

#[global] Instance fdec_eq_dec : EqDecision fdec.
Proof. solve_decision. Defined.

Definition zcoef (d : fdec) : Z := Z.of_N (fcoef d).
Definition mkdec (s : bool) (c e : Z) : fdec := FDec s (Z.to_N c) e.

(** The signed coefficient. *)
Definition zint (d : fdec) : Z := if fsign d then - zcoef d else zcoef d.

Definition is_zero (d : fdec) : bool := zcoef d =? 0.

(** [Decimal(n)] for an [int]. *)
Definition dec_of_Z (n : Z) : fdec := mkdec (n <? 0) (Z.abs n) 0.

(** *** Decimal digits of a coefficient, most significant first *)

Fixpoint digits_aux (fuel : nat) (n : Z) (acc : list Z) : list Z :=
  match fuel with
  | O => acc
  | S f => if n <? 10 then n :: acc else digits_aux f (n / 10) (n mod 10 :: acc)
  end.

Definition digits_of (n : Z) : list Z :=
  digits_aux (S (Z.to_nat (Z.log2 n))) n [].

Definition ndigits (n : Z) : Z := Z.of_nat (length (digits_of n)).

Definition of_digits (l : list Z) : Z := foldl (λ a d, 10 * a + d) 0 l.

(** [Decimal.adjusted()]. *)
Definition adjusted (d : fdec) : Z := fexp d + ndigits (zcoef d) - 1.

(** ** Rounding *)

Inductive rounding :=
  | ROUND_DOWN | ROUND_UP | ROUND_FLOOR | ROUND_CEILING
  | ROUND_HALF_UP | ROUND_HALF_DOWN | ROUND_HALF_EVEN | ROUND_05UP.

(** The quotient [c / p] of a coefficient rounded to an integer. *)
Definition round_quot (m : rounding) (s : bool) (c p : Z) : Z :=
  let q := c / p in
  let r := c mod p in
  let up :=
    match m with
    | ROUND_DOWN => false
    | ROUND_UP => negb (r =? 0)
    | ROUND_FLOOR => s && negb (r =? 0)
    | ROUND_CEILING => negb s && negb (r =? 0)
    | ROUND_HALF_UP => p <=? 2 * r
    | ROUND_HALF_DOWN => p <? 2 * r
    | ROUND_HALF_EVEN => (p <? 2 * r) || ((2 * r =? p) && Z.odd q)
    | ROUND_05UP => negb (r =? 0) && ((q mod 10 =? 0) || (q mod 10 =? 5))
    end in
  if up then q + 1 else q.

(** [_rescale]: the same number at exponent [e], rounded if digits are
    dropped. *)
Definition rescale (m : rounding) (d : fdec) (e : Z) : fdec :=
  if is_zero d then mkdec (fsign d) 0 e
  else if e <=? fexp d then mkdec (fsign d) (zcoef d * 10 ^ (fexp d - e)) e
  else mkdec (fsign d) (round_quot m (fsign d) (zcoef d) (10 ^ (e - fexp d))) e.

(** ** Contexts *)

Record context := Context {
  c_prec : Z;
  c_rounding : rounding;
  c_emin : Z;
  c_emax : Z;
}.

Definition default_context : context :=
  {| c_prec := 28; c_rounding := ROUND_HALF_EVEN; c_emin := -999999; c_emax := 999999 |}.

(** [Context(prec=p)]. *)
Definition context_with_prec (p : Z) : context :=
  {| c_prec := p; c_rounding := ROUND_HALF_EVEN; c_emin := -999999; c_emax := 999999 |}.

Definition etiny (ctx : context) : Z := c_emin ctx - c_prec ctx + 1.
Definition etop (ctx : context) : Z := c_emax ctx - c_prec ctx + 1.

(** [_fix]: round an exact result to the context. *)
Definition fix_dec (ctx : context) (d : fdec) : result fdec :=
  if is_zero d then
    Ok (mkdec (fsign d) 0 (Z.min (Z.max (fexp d) (etiny ctx)) (c_emax ctx)))
  else
    let exp_min := ndigits (zcoef d) + fexp d - c_prec ctx in
    if etop ctx <? exp_min then raise DecimalOverflow "above Emax"
    else
      let exp_min := Z.max exp_min (etiny ctx) in
      if fexp d <? exp_min then
        let c := round_quot (c_rounding ctx) (fsign d) (zcoef d) (10 ^ (exp_min - fexp d)) in
        let '(c, exp_min) :=
          if c_prec ctx <? ndigits c then (c / 10, exp_min + 1) else (c, exp_min) in
        if etop ctx <? exp_min then raise DecimalOverflow "above Emax"
        else Ok (mkdec (fsign d) c exp_min)
      else Ok d.

(** ** Arithmetic *)

Definition exact_add (a b : fdec) : fdec :=
  let e := Z.min (fexp a) (fexp b) in
  let i := zint a * 10 ^ (fexp a - e) + zint b * 10 ^ (fexp b - e) in
  mkdec (if i =? 0 then fsign a && fsign b else i <? 0) (Z.abs i) e.

Definition copy_negate (d : fdec) : fdec := FDec (negb (fsign d)) (fcoef d) (fexp d).
Definition copy_abs (d : fdec) : fdec := FDec false (fcoef d) (fexp d).

Definition exact_mul (a b : fdec) : fdec :=
  mkdec (xorb (fsign a) (fsign b)) (zcoef a * zcoef b) (fexp a + fexp b).

Definition dec_add_ctx (ctx : context) (a b : fdec) : result fdec := fix_dec ctx (exact_add a b).
Definition dec_mul_ctx (ctx : context) (a b : fdec) : result fdec := fix_dec ctx (exact_mul a b).

Definition dec_add := dec_add_ctx default_context.
Definition dec_sub (a b : fdec) : result fdec := dec_add a (copy_negate b).
Definition dec_mul := dec_mul_ctx default_context.

(** [-d] (a zero loses its sign) and [abs(d)]. *)
Definition dec_neg (d : fdec) : result fdec :=
  fix_dec default_context (if is_zero d then copy_abs d else copy_negate d).
Definition dec_abs (d : fdec) : result fdec := fix_dec default_context (copy_abs d).

(** [while exp < ideal and coeff % 10 == 0]. *)
Fixpoint strip_zeros (fuel : nat) (c e ideal : Z) : Z * Z :=
  match fuel with
  | O => (c, e)
  | S f => if (e <? ideal) && (c mod 10 =? 0) then strip_zeros f (c / 10) (e + 1) ideal
           else (c, e)
  end.

Definition dec_div (a b : fdec) : result fdec :=
  let ctx := default_context in
  let s := xorb (fsign a) (fsign b) in
  if is_zero b then
    if is_zero a then raise InvalidOperation "0 / 0" else raise DivisionByZero "x / 0"
  else if is_zero a then fix_dec ctx (mkdec s 0 (fexp a - fexp b))
  else
    let shift := ndigits (zcoef b) - ndigits (zcoef a) + c_prec ctx + 1 in
    let e := fexp a - fexp b - shift in
    let '(n, m) :=
      if 0 <=? shift then (zcoef a * 10 ^ shift, zcoef b)
      else (zcoef a, zcoef b * 10 ^ (- shift)) in
    let q := n / m in
    let r := n mod m in
    if negb (r =? 0) then
      fix_dec ctx (mkdec s (if q mod 5 =? 0 then q + 1 else q) e)
    else
      let '(q, e) := strip_zeros (Z.to_nat (fexp a - fexp b - e)) q e (fexp a - fexp b) in
      fix_dec ctx (mkdec s q e).

(** [d ** n] for a non-negative [int] exponent, by repeated multiplication. *)
Fixpoint dec_pow (d : fdec) (n : nat) : result fdec :=
  match n with
  | O => Ok (dec_of_Z 1)
  | S n => p ← dec_pow d n; dec_mul p d
  end.

(** [d.quantize(exp, rounding=m)]. *)
Definition quantize_ctx (ctx : context) (m : rounding) (d q : fdec) : result fdec :=
  if negb ((etiny ctx <=? fexp q) && (fexp q <=? c_emax ctx)) then
    raise InvalidOperation "quantize: target exponent"
  else if is_zero d then fix_dec ctx (mkdec (fsign d) 0 (fexp q))
  else if c_emax ctx <? adjusted d then raise InvalidOperation "quantize: exponent too large"
  else if c_prec ctx <? adjusted d - fexp q + 1 then
    raise InvalidOperation "quantize: too many digits"
  else
    let ans := rescale m d (fexp q) in
    if c_emax ctx <? adjusted ans then raise InvalidOperation "quantize: exponent too large"
    else if c_prec ctx <? ndigits (zcoef ans) then
      raise InvalidOperation "quantize: too many digits"
    else fix_dec ctx ans.

Definition quantize := quantize_ctx default_context.

(** [d.to_integral_value(rounding=m)]. *)
Definition to_integral_value (m : rounding) (d : fdec) : fdec :=
  if 0 <=? fexp d then d else rescale m d 0.

(** [int(d)]: truncation towards zero. *)
Definition int_of_dec (d : fdec) : Z :=
  let c := if 0 <=? fexp d then zcoef d * 10 ^ fexp d else zcoef d / 10 ^ (- fexp d) in
  if fsign d then - c else c.

(** ** Comparison (exact, independent of the context) *)

Definition dec_compare (a b : fdec) : comparison :=
  let e := Z.min (fexp a) (fexp b) in
  Z.compare (zint a * 10 ^ (fexp a - e)) (zint b * 10 ^ (fexp b - e)).

Definition dec_eqb (a b : fdec) : bool := match dec_compare a b with Eq => true | _ => false end.
Definition dec_ltb (a b : fdec) : bool := match dec_compare a b with Lt => true | _ => false end.
Definition dec_leb (a b : fdec) : bool := match dec_compare a b with Gt => false | _ => true end.

(** [min(a, b)] and [max(a, b)] return the first argument on ties. *)
Definition dec_min (a b : fdec) : fdec := if dec_ltb b a then b else a.
Definition dec_max (a b : fdec) : fdec := if dec_ltb a b then b else a.

(** [sum(values, start)]. *)
Definition dec_sum (start : fdec) (l : list fdec) : result fdec := foldM dec_add start l.

(** ** Strings *)

Definition digit_char (d : Z) : Ascii.ascii := Ascii.ascii_of_N (Z.to_N (d + 48)).
Definition char_digit (c : Ascii.ascii) : Z := ascii_code c - 48.

Definition coef_chars (c : Z) : list Ascii.ascii := digit_char <$> digits_of c.

(** [str(n)] for an [int]. *)
Definition int_chars (n : Z) : list Ascii.ascii :=
  if n <? 0 then "-"%char :: coef_chars (- n) else coef_chars n.

(** [str(d)] for a finite Decimal. *)
Definition dec_chars (d : fdec) : list Ascii.ascii :=
  let body := coef_chars (zcoef d) in
  let len := Z.of_nat (length body) in
  let leftdigits := fexp d + len in
  let dotplace := if (fexp d <=? 0) && (-6 <? leftdigits) then leftdigits else 1 in
  let mant :=
    if dotplace <=? 0 then "0"%char :: "."%char :: replicate (Z.to_nat (- dotplace)) "0"%char ++ body
    else if len <=? dotplace then body ++ replicate (Z.to_nat (dotplace - len)) "0"%char
    else take (Z.to_nat dotplace) body ++ "."%char :: drop (Z.to_nat dotplace) body in
  let ex :=
    if leftdigits =? dotplace then []
    else "E"%char :: (if leftdigits - dotplace <? 0 then [] else ["+"%char])
                  ++ int_chars (leftdigits - dotplace) in
  (if fsign d then ["-"%char] else []) ++ mant ++ ex.

Definition dec_str (d : fdec) : string := of_chars (dec_chars d).

(** The constructor [Decimal(s)] on a string: surrounding whitespace and all
    underscores are removed, then the numeric-string grammar is matched. *)

Fixpoint span_digits (l : list Ascii.ascii) : list Z * list Ascii.ascii :=
  match l with
  | c :: k => if py_isdigit c then let '(ds, rest) := span_digits k in (char_digit c :: ds, rest)
              else ([], l)
  | [] => ([], [])
  end.

Definition take_sign (l : list Ascii.ascii) : bool * list Ascii.ascii :=
  match l with
  | "-"%char :: k => (true, k)
  | "+"%char :: k => (false, k)
  | _ => (false, l)
  end.

(** The exponent part [E[+-]digits], or nothing; [None] when malformed. *)
Definition parse_exponent (l : list Ascii.ascii) : option Z :=
  match l with
  | [] => Some 0
  | c :: k =>
      if Ascii.eqb (lower_char c) "e"%char then
        let '(s, k) := take_sign k in
        let '(ds, rest) := span_digits k in
        match ds, rest with
        | _ :: _, [] => Some (if s then - of_digits ds else of_digits ds)
        | _, _ => None
        end
      else None
  end.

(** Exact conversions are limited to the maximal exponents of the library. *)
Definition max_emax : Z := 999999999999999999.
Definition min_etiny : Z := -1999999999999999997.

Definition parse_finite (s : bool) (l : list Ascii.ascii) : option decimal :=
  let '(int, l) := span_digits l in
  let '(frac, l) := match l with "."%char :: k => span_digits k | _ => ([], l) end in
  match int ++ frac with
  | [] => None
  | ds =>
      match parse_exponent l with
      | None => None
      | Some x =>
          let d := mkdec s (of_digits ds) (x - Z.of_nat (length frac)) in
          if (min_etiny <=? fexp d) && (adjusted d <=? max_emax) then Some (DFin d) else None
      end
  end.

Definition parse_special (s : bool) (l : list Ascii.ascii) : option decimal :=
  let w := of_chars (lower_char <$> l) in
  if String.eqb w "inf" || String.eqb w "infinity" then Some (DInf s)
  else
    let tail := match w with
                | String "n" (String "a" (String "n" t)) => Some (false, t)
                | String "s" (String "n" (String "a" (String "n" t))) => Some (true, t)
                | _ => None
                end in
    match tail with
    | Some (sig, t) => if forallb py_isdigit (chars t) then Some (DNaN s sig) else None
    | None => None
    end.

Definition decimal_of_string (str : string) : option decimal :=
  let l := filter (λ c, c ≠ "_"%char) (strip_chars (chars str)) in
  let '(s, l) := take_sign l in
  match parse_finite s l with
  | Some d => Some d
  | None => parse_special s l
  end.

(** * Correctness of the arithmetic

    The value of a finite Decimal is the rational [dval]; every operation is
    related to exact rational arithmetic. *)

Lemma zcoef_nonneg d : 0 <= zcoef d.
Proof. unfold zcoef. lia. Qed.

Lemma zcoef_mkdec s c e : 0 <= c → zcoef (mkdec s c e) = c.
Proof. intros. unfold zcoef, mkdec; cbn. lia. Qed.

Lemma zint_mkdec s c e : 0 <= c → zint (mkdec s c e) = if s then - c else c.
Proof. intros. unfold zint. rewrite zcoef_mkdec by done. done. Qed.

Lemma zint_abs d : Z.abs (zint d) = zcoef d.
Proof. pose proof (zcoef_nonneg d). unfold zint. destruct (fsign d); lia. Qed.

Lemma pow10_pos k : 0 < 10 ^ k ∨ k < 0.
Proof. destruct (Z.lt_ge_cases k 0); [by right|left]. apply Z.pow_pos_nonneg; lia. Qed.

Lemma pow10_gt0 k : 0 <= k → 0 < 10 ^ k.
Proof. intros. apply Z.pow_pos_nonneg; lia. Qed.

#[export] Hint Resolve zcoef_nonneg pow10_gt0 : fincore.

(** ** Digits *)

Lemma digits_aux_spec fuel n acc :
  0 <= n < 2 ^ Z.of_nat fuel →
  ∃ ds, digits_aux fuel n acc = ds ++ acc ∧ of_digits ds = n ∧
    Forall (λ d, 0 <= d < 10) ds ∧
    (n = 0 → ds = [] ∨ ds = [0]) ∧ (0 < n → 10 ^ (Z.of_nat (length ds) - 1) <= n < 10 ^ Z.of_nat (length ds))
    ∧ (fuel ≠ O → ds ≠ []) ∧ (n ≠ 0 → ∃ d ds', ds = d :: ds' ∧ d ≠ 0).
Proof.
  revert n acc; induction fuel as [|fuel IH]; intros n acc Hn.
  - replace n with 0 by (cbn in Hn; lia). exists []. cbn.
    split_and!; [done|done|constructor|auto|lia|done|done].
  - cbn [digits_aux]. destruct (Z.ltb_spec n 10) as [Hlt|Hge].
    + exists [n]. split_and!; [done|cbn; lia|repeat constructor; lia|intros ->; auto|cbn; lia|done|].
      intros. by eexists _, _.
    + destruct (IH (n / 10) (n mod 10 :: acc)) as (ds&Heq&Hval&Hds&_&Hb&_&Hhd).
      { split; [apply Z.div_pos; lia|].
        rewrite Nat2Z.inj_succ, Z.pow_succ_r in Hn by lia.
        apply Z.div_lt_upper_bound; lia. }
      assert (0 < n / 10) as Hpos by (apply Z.div_str_pos; lia).
      exists (ds ++ [n mod 10]). rewrite Heq, <- app_assoc.
      pose proof (Z.mod_pos_bound n 10). pose proof (Z.div_mod n 10).
      split_and!; [done| | |lia| |by destruct ds|].
      * unfold of_digits in *. rewrite foldl_app, Hval. cbn. lia.
      * apply Forall_app; split; [done|]. repeat constructor; lia.
      * intros _. specialize (Hb Hpos). rewrite length_app. cbn.
        replace (Z.of_nat (length ds + 1)) with (Z.succ (Z.of_nat (length ds))) by lia.
        rewrite Z.pow_succ_r by lia.
        replace (Z.succ (Z.of_nat (length ds)) - 1) with (Z.succ (Z.of_nat (length ds) - 1)) by lia.
        destruct ds as [|d0 ds]; [cbn in Hb; lia|].
        rewrite Z.pow_succ_r by (cbn; lia). lia.
      * intros _. destruct Hhd as (d&ds'&->&Hd); [lia|]. by exists d, (ds' ++ [n mod 10]).
Qed.

Lemma digits_fuel n : 0 <= n → n < 2 ^ Z.of_nat (S (Z.to_nat (Z.log2 n))).
Proof.
  intros Hn. pose proof (Z.log2_nonneg n).
  rewrite Nat2Z.inj_succ, Z2Nat.id by done.
  destruct (Z.eq_dec n 0) as [->|]; [cbn; lia|].
  apply Z.log2_spec. lia.
Qed.

Lemma digits_of_spec n :
  0 <= n →
  of_digits (digits_of n) = n ∧ Forall (λ d, 0 <= d < 10) (digits_of n) ∧
  digits_of n ≠ [] ∧ (n ≠ 0 → ∃ d ds, digits_of n = d :: ds ∧ d ≠ 0) ∧
  (0 < n → 10 ^ (ndigits n - 1) <= n < 10 ^ ndigits n).
Proof.
  intros Hn. unfold ndigits, digits_of.
  destruct (digits_aux_spec (S (Z.to_nat (Z.log2 n))) n [])
    as (ds&->&Hv&Hf&Hz&Hb&Hne&Hhd); [split; [done|by apply digits_fuel]|].
  rewrite app_nil_r. split_and!; auto.
Qed.

Lemma ndigits_pos n : 0 <= n → 1 <= ndigits n.
Proof.
  intros Hn. destruct (digits_of_spec n Hn) as (_&_&Hne&_).
  unfold ndigits. destruct (digits_of n); [done|]. cbn. lia.
Qed.

Lemma ndigits_0 : ndigits 0 = 1.
Proof. done. Qed.

Lemma ndigits_bounds n : 0 < n → 10 ^ (ndigits n - 1) <= n < 10 ^ ndigits n.
Proof. intros. by apply digits_of_spec; [lia|]. Qed.

(** The number of digits is at most [k] exactly when the number is below
    [10 ^ k]. *)
Lemma ndigits_le n k : 0 <= n → 1 <= k → ndigits n <= k ↔ n < 10 ^ k.
Proof.
  intros Hn Hk. destruct (Z.eq_dec n 0) as [->|Hne].
  { rewrite ndigits_0. pose proof (pow10_gt0 k). lia. }
  pose proof (ndigits_bounds n ltac:(lia)) as [Hlo Hhi]. split.
  - intros Hle. eapply Z.lt_le_trans; [done|]. apply Z.pow_le_mono_r; lia.
  - intros Hlt. destruct (Z.le_gt_cases (ndigits n) k); [done|exfalso].
    assert (10 ^ k <= 10 ^ (ndigits n - 1)) by (apply Z.pow_le_mono_r; lia). lia.
Qed.

(** ** Powers of ten in Q *)

Definition q10 (e : Z) : Q := Qpower (10 # 1) e.

Lemma q10_pos e : (0 < q10 e)%Q.
Proof. apply Qpower_0_lt. done. Qed.

Lemma q10_nz e : ¬ (q10 e == 0)%Q.
Proof. pose proof (q10_pos e). lra. Qed.

Lemma q10_add a b : (q10 (a + b) == q10 a * q10 b)%Q.
Proof. apply Qpower_plus. done. Qed.

Lemma q10_Z k : 0 <= k → (q10 k == inject_Z (10 ^ k))%Q.
Proof.
  intros Hk. unfold q10. change (10 # 1)%Q with (inject_Z 10).
  by rewrite Zpower_Qpower.
Qed.

Lemma q10_shift z a b :
  0 <= a → (inject_Z (z * 10 ^ a) * q10 b == inject_Z z * q10 (a + b))%Q.
Proof.
  intros Ha. rewrite q10_add, (q10_Z a), inject_Z_mult by done. ring.
Qed.

Lemma q10_le a b : a <= b → (q10 a <= q10 b)%Q.
Proof.
  intros H. replace b with ((b - a) + a) by lia.
  rewrite q10_add, (q10_Z (b - a)) by lia.
  pose proof (q10_pos a). pose proof (pow10_gt0 (b - a) ltac:(lia)).
  assert (1 <= inject_Z (10 ^ (b - a)))%Q by (rewrite <- (Zle_Qle 1); lia).
  nra.
Qed.

Lemma scaled_eq z1 e1 z2 e2 :
  e1 <= e2 → (inject_Z z1 * q10 e1 == inject_Z z2 * q10 e2)%Q ↔ z1 = z2 * 10 ^ (e2 - e1).
Proof.
  intros He. replace e2 with ((e2 - e1) + e1) at 1 by lia.
  rewrite <- q10_shift by lia. split.
  - intros H. apply Qmult_inj_r in H; [|apply q10_nz]. by apply (proj1 (inject_Z_injective _ _)).
  - by intros ->.
Qed.

Lemma scaled_compare z1 z2 e :
  (inject_Z z1 * q10 e ?= inject_Z z2 * q10 e)%Q = Z.compare z1 z2.
Proof.
  pose proof (q10_pos e).
  destruct (Z.compare_spec z1 z2) as [->|Hlt|Hgt].
  - by apply Qeq_alt.
  - apply Qlt_alt. apply Qmult_lt_compat_r; [done|]. by rewrite <- Zlt_Qlt.
  - apply Qgt_alt. apply Qmult_lt_compat_r; [done|]. by rewrite <- Zlt_Qlt.
Qed.

(** ** Values *)

Definition dval (d : fdec) : Q := inject_Z (zint d) * q10 (fexp d).

Lemma dval_mkdec s c e :
  0 <= c → dval (mkdec s c e) = (inject_Z (if s then - c else c) * q10 e)%Q.
Proof. intros. unfold dval. by rewrite zint_mkdec. Qed.

Lemma dval_at d e :
  e <= fexp d → (dval d == inject_Z (zint d * 10 ^ (fexp d - e)) * q10 e)%Q.
Proof.
  intros. rewrite q10_shift by lia. unfold dval.
  by replace (fexp d - e + e) with (fexp d) by lia.
Qed.

Lemma is_zero_true d : is_zero d = true ↔ (dval d == 0)%Q.
Proof.
  unfold is_zero, dval. rewrite Z.eqb_eq, <- zint_abs.
  pose proof (q10_nz (fexp d)) as Hq. split.
  - intros H. replace (zint d) with 0 by lia. ring.
  - intros H. destruct (Qmult_integral _ _ H) as [Hz|]; [|done].
    change 0%Q with (inject_Z 0) in Hz. apply (proj1 (inject_Z_injective _ _)) in Hz. by rewrite Hz.
Qed.

Lemma is_zero_zcoef d : is_zero d = false ↔ 0 < zcoef d.
Proof. unfold is_zero. rewrite Z.eqb_neq. pose proof (zcoef_nonneg d). lia. Qed.

Lemma dval_exact_add a b : (dval (exact_add a b) == dval a + dval b)%Q.
Proof.
  unfold exact_add. set (e := Z.min (fexp a) (fexp b)).
  rewrite (dval_at a e), (dval_at b e) by lia.
  set (x := zint a * _). set (y := zint b * _).
  rewrite dval_mkdec by lia. rewrite <- Qmult_plus_distr_l, <- inject_Z_plus.
  apply Qmult_comp; [|done].
  replace (if if x + y =? 0 then fsign a && fsign b else x + y <? 0
           then - Z.abs (x + y) else Z.abs (x + y)) with (x + y); [done|].
  destruct (Z.eqb_spec (x + y) 0) as [E|].
  - destruct (fsign a && fsign b); lia.
  - destruct (Z.ltb_spec (x + y) 0); lia.
Qed.

Lemma dval_exact_mul a b : (dval (exact_mul a b) == dval a * dval b)%Q.
Proof.
  unfold exact_mul. rewrite dval_mkdec by (apply Z.mul_nonneg_nonneg; auto with fincore).
  unfold dval. rewrite q10_add.
  replace (if xorb (fsign a) (fsign b) then - (zcoef a * zcoef b) else zcoef a * zcoef b)
    with (zint a * zint b).
  - rewrite inject_Z_mult. ring.
  - unfold zint. destruct (fsign a), (fsign b); cbn; lia.
Qed.

Lemma dval_copy_negate d : (dval (copy_negate d) == - dval d)%Q.
Proof.
  unfold dval, zint, copy_negate, zcoef; cbn [fsign fcoef fexp].
  destruct (fsign d); cbn [negb]; rewrite ?inject_Z_opp; ring.
Qed.

Lemma dval_copy_abs d : (dval (copy_abs d) == Qabs (dval d))%Q.
Proof.
  unfold dval. rewrite Qabs_Qmult, (Qabs_pos (q10 _)) by (apply Qlt_le_weak, q10_pos).
  unfold copy_abs, zint, zcoef; cbn [fsign fcoef fexp].
  apply Qmult_comp; [|done].
  assert (0 <= inject_Z (Z.of_N (fcoef d)))%Q by (rewrite <- (Zle_Qle 0); lia).
  destruct (fsign d).
  - by rewrite inject_Z_opp, Qabs_opp, Qabs_pos.
  - by rewrite Qabs_pos.
Qed.

Lemma dec_compare_spec a b : dec_compare a b = (dval a ?= dval b)%Q.
Proof.
  unfold dec_compare. set (e := Z.min (fexp a) (fexp b)).
  rewrite <- (scaled_compare _ _ e).
  apply Qcompare_comp; symmetry; apply dval_at; lia.
Qed.

Lemma dec_eqb_eq a b : dec_eqb a b = true ↔ (dval a == dval b)%Q.
Proof. unfold dec_eqb. rewrite dec_compare_spec, Qeq_alt. by destruct (_ ?= _)%Q. Qed.
Lemma dec_ltb_lt a b : dec_ltb a b = true ↔ (dval a < dval b)%Q.
Proof. unfold dec_ltb. rewrite dec_compare_spec, Qlt_alt. by destruct (_ ?= _)%Q. Qed.
Lemma dec_leb_le a b : dec_leb a b = true ↔ (dval a <= dval b)%Q.
Proof. unfold dec_leb. rewrite dec_compare_spec, Qle_alt. by destruct (_ ?= _)%Q. Qed.
Lemma dec_eqb_ne a b : dec_eqb a b = false ↔ ¬ (dval a == dval b)%Q.
Proof. rewrite <- dec_eqb_eq. by destruct (dec_eqb a b). Qed.
Lemma dec_ltb_ge a b : dec_ltb a b = false ↔ (dval b <= dval a)%Q.
Proof. rewrite <- not_true_iff_false, dec_ltb_lt. split; [apply Qnot_lt_le|apply Qle_not_lt]. Qed.
Lemma dec_leb_gt a b : dec_leb a b = false ↔ (dval b < dval a)%Q.
Proof. rewrite <- not_true_iff_false, dec_leb_le. split; [apply Qnot_le_lt|apply Qlt_not_le]. Qed.

(** Turn boolean comparisons in the context into inequalities on values. *)
Ltac dec_cmp :=
  repeat match goal with
  | H : dec_eqb _ _ = true |- _ => apply dec_eqb_eq in H
  | H : dec_eqb _ _ = false |- _ => apply dec_eqb_ne in H
  | H : dec_ltb _ _ = true |- _ => apply dec_ltb_lt in H
  | H : dec_ltb _ _ = false |- _ => apply dec_ltb_ge in H
  | H : dec_leb _ _ = true |- _ => apply dec_leb_le in H
  | H : dec_leb _ _ = false |- _ => apply dec_leb_gt in H
  | H : negb _ = false |- _ => apply negb_false_iff in H
  | H : negb _ = true |- _ => apply negb_true_iff in H
  end.

Lemma dval_dec_of_Z n : (dval (dec_of_Z n) == inject_Z n)%Q.
Proof.
  unfold dec_of_Z. rewrite dval_mkdec by lia.
  replace (if n <? 0 then - Z.abs n else Z.abs n) with n
    by (destruct (Z.ltb_spec n 0); lia).
  unfold q10. cbn. ring.
Qed.

(** ** Rounding to an integer quotient *)

Lemma round_quot_exact m s q p : 0 < p → round_quot m s (q * p) p = q.
Proof.
  intros Hp. unfold round_quot. rewrite Z.div_mul, Z.mod_mul by lia.
  replace (p <=? 2 * 0) with false by (symmetry; apply Z.leb_gt; lia).
  replace (p <? 2 * 0) with false by (symmetry; apply Z.ltb_ge; lia).
  replace (2 * 0 =? p) with false by (symmetry; apply Z.eqb_neq; lia).
  destruct m, s; done.
Qed.

(** Every mode returns one of the two neighbours. *)
Lemma round_quot_near m s c p :
  0 < p → round_quot m s c p = c / p ∨ round_quot m s c p = c / p + 1.
Proof. intros. unfold round_quot. case_match; auto. Qed.

(** Half-up rounding is within half a unit, ties away from zero. *)
Lemma round_quot_half_up s c p :
  0 < p → - p < 2 * (c - round_quot ROUND_HALF_UP s c p * p) < p
        ∨ 2 * (c - round_quot ROUND_HALF_UP s c p * p) = - p.
Proof.
  intros Hp. unfold round_quot.
  pose proof (Z.div_mod c p ltac:(lia)) as Hdm. pose proof (Z.mod_pos_bound c p Hp).
  destruct (Z.leb_spec p (2 * (c mod p))).
  - replace (c - (c / p + 1) * p) with (c mod p - p) by lia. lia.
  - replace (c - c / p * p) with (c mod p) by lia. lia.
Qed.

(** ** Rounding to a context *)

Definition wf_context (ctx : context) : Prop :=
  1 <= c_prec ctx ∧ c_emin ctx <= 0 ∧ c_prec ctx <= c_emax ctx.

Lemma wf_default : wf_context default_context.
Proof. repeat split; cbn; lia. Qed.
#[export] Hint Resolve wf_default : fincore.

(** A rational that the context holds exactly. *)
Definition representable (ctx : context) (q : Q) : Prop :=
  ∃ z k, (q == inject_Z z * q10 k)%Q ∧ Z.abs z < 10 ^ c_prec ctx ∧
         etiny ctx <= k <= etop ctx.

#[global] Instance representable_proper ctx : Proper (Qeq ==> iff) (representable ctx).
Proof.
  intros q q' Hq. unfold representable.
  split; intros (z&k&He&Hz); exists z, k; (split; [|done]); by rewrite <- He.
Qed.

(** The position of the leading digit is determined by the value. *)
Lemma leading_digit_le d z k p :
  0 < zcoef d → 0 <= p → (dval d == inject_Z z * q10 k)%Q → Z.abs z < 10 ^ p →
  ndigits (zcoef d) + fexp d - p <= k.
Proof.
  intros Hc Hp Hv Hz. pose proof (ndigits_bounds _ Hc) as [Hlo _].
  pose proof (ndigits_pos (zcoef d) ltac:(lia)) as Hnd1.
  set (nd := ndigits (zcoef d)) in *. set (e := fexp d) in *.
  unfold dval in Hv; fold e in Hv. destruct (Z.le_gt_cases e k) as [Hek|Hek].
  - apply scaled_eq in Hv; [|done].
    rewrite <- zint_abs, Hv, Z.abs_mul, (Z.abs_eq (10 ^ _)) in Hlo by auto with fincore lia.
    assert (10 ^ (nd - 1) < 10 ^ (p + (k - e))).
    { rewrite Z.pow_add_r by lia. pose proof (pow10_gt0 (k - e) ltac:(lia)). nia. }
    assert (nd - 1 < p + (k - e)) by (apply (Z.pow_lt_mono_r_iff 10); lia). lia.
  - symmetry in Hv. apply scaled_eq in Hv; [|lia].
    rewrite Hv, Z.abs_mul, zint_abs, (Z.abs_eq (10 ^ _)) in Hz by auto with fincore lia.
    assert (10 ^ (nd - 1 + (e - k)) < 10 ^ p).
    { rewrite Z.pow_add_r by lia. pose proof (pow10_gt0 (e - k) ltac:(lia)). nia. }
    assert (nd - 1 + (e - k) < p) by (apply (Z.pow_lt_mono_r_iff 10); lia). lia.
Qed.

(** Exactness: a result the context can hold is not changed by rounding. *)
Lemma fix_dec_exact ctx d :
  wf_context ctx → representable ctx (dval d) →
  ∃ r, fix_dec ctx d = Ok r ∧ (dval r == dval d)%Q ∧ fsign r = fsign d.
Proof.
  intros (Hp&Hemin&Hemax) (z&k&Hv&Hz&Hk). unfold fix_dec.
  destruct (is_zero d) eqn:Ez.
  { eexists; split; [done|]. split; [|done]. apply is_zero_true in Ez.
    rewrite Ez, dval_mkdec by lia. destruct (fsign d); apply Qmult_0_l. }
  apply is_zero_zcoef in Ez as Hc.
  assert (Hp0 : 0 <= c_prec ctx) by lia.
  pose proof (leading_digit_le d z k _ Hc Hp0 Hv Hz) as Hlead.
  pose proof (ndigits_bounds _ Hc) as [_ Hhi].
  pose proof (ndigits_pos (zcoef d) ltac:(lia)) as Hnd1.
  set (nd := ndigits (zcoef d)) in *. set (e := fexp d) in *. set (p := c_prec ctx) in *.
  replace (etop ctx <? nd + e - p) with false by (symmetry; apply Z.ltb_ge; lia).
  set (m := Z.max (nd + e - p) (etiny ctx)).
  destruct (Z.ltb_spec e m) as [Hem|Hem]; [|by exists d].
  unfold dval in Hv. fold e in Hv. apply scaled_eq in Hv; [|lia].
  assert (Hcz : zcoef d = Z.abs z * 10 ^ (k - m) * 10 ^ (m - e)).
  { rewrite <- Z.mul_assoc, <- Z.pow_add_r by lia.
    replace (k - m + (m - e)) with (k - e) by lia.
    rewrite <- zint_abs, Hv, Z.abs_mul, (Z.abs_eq (10 ^ _)) by auto with fincore lia. done. }
  rewrite Hcz, round_quot_exact by auto with fincore lia.
  set (c' := Z.abs z * 10 ^ (k - m)) in *.
  assert (Hc' : 0 <= c') by (apply Z.mul_nonneg_nonneg; auto with lia).
  assert (ndigits c' <= p) as Hndc.
  { apply ndigits_le; [done..|].
    apply (Z.mul_lt_mono_pos_r (10 ^ (m - e))); [auto with fincore lia|].
    rewrite <- Hcz, <- Z.pow_add_r by lia.
    eapply Z.lt_le_trans; [done|]. apply Z.pow_le_mono_r; lia. }
  replace (p <? ndigits c') with false by (symmetry; apply Z.ltb_ge; lia).
  replace (etop ctx <? m) with false by (symmetry; apply Z.ltb_ge; lia).
  eexists; split; [done|]. split; [|done].
  rewrite dval_mkdec by done. unfold dval. symmetry. apply scaled_eq; [lia|].
  fold e. unfold zint. rewrite Hcz. destruct (fsign d); lia.
Qed.

(** The shape of a successful rounding: sign kept, and either unchanged, or
    a coefficient with the full precision at a larger exponent. *)
Lemma fix_dec_sign ctx d r : fix_dec ctx d = Ok r → fsign r = fsign d.
Proof.
  unfold fix_dec. intros H. repeat case_match; inv_ok; simplify_eq; done.
Qed.

Lemma sign_nonneg d : fsign d = false → (0 <= dval d)%Q.
Proof.
  intros Hs. unfold dval, zint. rewrite Hs. pose proof (q10_pos (fexp d)).
  apply Qmult_le_0_compat; [|lra]. rewrite <- (Zle_Qle 0). auto with fincore.
Qed.

Lemma sign_nonpos d : fsign d = true → (dval d <= 0)%Q.
Proof.
  intros Hs. unfold dval, zint. rewrite Hs, inject_Z_opp. pose proof (q10_pos (fexp d)).
  assert (0 <= inject_Z (zcoef d))%Q by (rewrite <- (Zle_Qle 0); auto with fincore). nra.
Qed.

Lemma round_quot_lower m s c p n :
  0 < p → n * p <= c → n <= round_quot m s c p.
Proof.
  intros Hp Hn. assert (n <= c / p) by (apply Z.div_le_lower_bound; lia).
  destruct (round_quot_near m s c p Hp); lia.
Qed.

(** Rounding up can only add a digit by reaching the next power of ten. *)
Lemma round_quot_carry m s x p k :
  0 <= k → 1 <= p → 0 <= x < 10 ^ (p + k) → p < ndigits (round_quot m s x (10 ^ k)) →
  round_quot m s x (10 ^ k) = 10 ^ (p - 1) * 10.
Proof.
  intros Hk Hp Hx Hnd. pose proof (pow10_gt0 k Hk).
  assert (x / 10 ^ k < 10 ^ p).
  { apply Z.div_lt_upper_bound; [done|]. rewrite <- Z.pow_add_r, (Z.add_comm k) by lia. lia. }
  pose proof (Z.div_pos x (10 ^ k)).
  assert (Hge : ¬ round_quot m s x (10 ^ k) < 10 ^ p).
  { rewrite <- ndigits_le; [lia| |done].
    destruct (round_quot_near m s x (10 ^ k)); lia. }
  rewrite (Z.mul_comm _ 10), <- Z.pow_succ_r by lia. replace (Z.succ (p - 1)) with p by lia.
  destruct (round_quot_near m s x (10 ^ k)); lia.
Qed.

(** A positive number at exponent [e], rounded to exponent [m], stays above
    every power of ten it reaches that the new exponent can express. *)
Lemma round_quot_pow_lower mode x e m j :
  e <= m → (q10 j <= inject_Z x * q10 e)%Q → (m <= j ∨ 10 ^ (m - e) <= x) →
  (q10 (Z.max j m) <= inject_Z (round_quot mode false x (10 ^ (m - e))) * q10 m ∨
   q10 j <= q10 m ∧ q10 m <= inject_Z (round_quot mode false x (10 ^ (m - e))) * q10 m)%Q.
Proof.
  intros Hem Hd Hcase. pose proof (q10_pos m). pose proof (pow10_gt0 (m - e) ltac:(lia)).
  destruct (Z.le_gt_cases m j) as [Hmj|Hmj].
  - left. rewrite Z.max_l by done. replace j with ((j - m) + m) at 1 by lia.
    rewrite q10_add, (q10_Z (j - m)) by lia.
    apply Qmult_le_compat_r; [|lra]. rewrite <- Zle_Qle.
    apply round_quot_lower; [done|].
    rewrite <- Z.pow_add_r by lia. replace (j - m + (m - e)) with (j - e) by lia.
    replace j with ((j - e) + e) in Hd by lia.
    rewrite q10_add, (q10_Z (j - e)) in Hd by lia.
    apply Qmult_le_r in Hd; [|apply q10_pos]. by rewrite <- Zle_Qle in Hd.
  - right. split; [apply q10_le; lia|].
    assert (1 <= inject_Z (round_quot mode false x (10 ^ (m - e))))%Q; [|nra].
    rewrite <- (Zle_Qle 1). apply round_quot_lower; lia.
Qed.

(** Rounding does not fall below a power of ten that the value reaches. *)
Lemma fix_dec_lower ctx d r j :
  wf_context ctx → etiny ctx <= j → fix_dec ctx d = Ok r →
  (q10 j <= dval d)%Q → (q10 j <= dval r)%Q.
Proof.
  intros (Hp&_&_) Hj. unfold fix_dec. destruct (is_zero d) eqn:Ez.
  { apply is_zero_true in Ez. pose proof (q10_pos j). intros _ Hd. lra. }
  apply is_zero_zcoef in Ez as Hc. case_match; [done|].
  set (nd := ndigits (zcoef d)) in *. set (p := c_prec ctx) in *.
  set (m := Z.max (nd + fexp d - p) (etiny ctx)).
  destruct (Z.ltb_spec (fexp d) m) as [Hem|Hem]; [|by intros [= <-]].
  intros Hfix Hd.
  assert (Hs : fsign d = false).
  { destruct (fsign d) eqn:E; [|done]. pose proof (sign_nonpos d E).
    pose proof (q10_pos j). lra. }
  rewrite Hs in Hfix. unfold dval, zint in Hd. rewrite Hs in Hd.
  pose proof (ndigits_bounds _ Hc) as [Hlo Hhi]. fold nd in Hlo, Hhi.
  assert (0 <= p) by lia. pose proof (ndigits_pos (zcoef d) ltac:(lia)) as Hnd1. fold nd in Hnd1.
  assert (Hcm : (q10 j <= inject_Z (round_quot (c_rounding ctx) false (zcoef d)
                                     (10 ^ (m - fexp d))) * q10 m)%Q).
  { destruct (round_quot_pow_lower (c_rounding ctx) (zcoef d) (fexp d) m j)
      as [Hle|[Hle1 Hle2]]; [lia|done| | |lra].
    - destruct (Z.le_gt_cases m j); [by left|right].
      transitivity (10 ^ (nd - 1)); [|done]. apply Z.pow_le_mono_r; lia.
    - eapply Qle_trans; [|done]. apply q10_le. lia. }
  set (c := round_quot _ _ _ _) in *.
  assert (Hc0 : 0 <= c).
  { destruct (round_quot_near (c_rounding ctx) false (zcoef d) (10 ^ (m - fexp d)));
      [auto with fincore lia|..]; pose proof (Z.div_pos (zcoef d) (10 ^ (m - fexp d)));
      pose proof (pow10_gt0 (m - fexp d)); subst c; lia. }
  destruct (Z.ltb_spec p (ndigits c)) as [Hnp|Hnp]; case_match; try done;
    injection Hfix as <-; [|by rewrite dval_mkdec].
  assert (c = 10 ^ (p - 1) * 10) as Hcp.
  { apply round_quot_carry; [lia..| |done]. split; [lia|].
    eapply Z.lt_le_trans; [done|]. apply Z.pow_le_mono_r; lia. }
  rewrite Hcp, Z.div_mul, dval_mkdec, Z.add_comm, <- (q10_shift _ 1) by auto with fincore lia.
  by replace (10 ^ (p - 1) * 10 ^ 1) with c by lia.
Qed.

(** ** Exactness of the operations *)

Lemma dec_add_exact a b :
  representable default_context (dval a + dval b) →
  ∃ r, dec_add a b = Ok r ∧ (dval r == dval a + dval b)%Q.
Proof.
  intros H. rewrite <- dval_exact_add in H.
  destruct (fix_dec_exact _ _ wf_default H) as (r&Hr&Hv&_).
  exists r. by rewrite Hv, dval_exact_add.
Qed.

Lemma dec_sub_exact a b :
  representable default_context (dval a - dval b) →
  ∃ r, dec_sub a b = Ok r ∧ (dval r == dval a - dval b)%Q.
Proof.
  intros H. unfold dec_sub.
  destruct (dec_add_exact a (copy_negate b)) as (r&Hr&Hv).
  - by rewrite dval_copy_negate.
  - exists r. by rewrite Hv, dval_copy_negate.
Qed.

Lemma dec_mul_exact a b :
  representable default_context (dval a * dval b) →
  ∃ r, dec_mul a b = Ok r ∧ (dval r == dval a * dval b)%Q.
Proof.
  intros H. rewrite <- dval_exact_mul in H.
  destruct (fix_dec_exact _ _ wf_default H) as (r&Hr&Hv&_).
  exists r. by rewrite Hv, dval_exact_mul.
Qed.

Lemma dec_neg_exact a :
  representable default_context (dval a) →
  ∃ r, dec_neg a = Ok r ∧ (dval r == - dval a)%Q.
Proof.
  intros (z&k&Hv&Hz). unfold dec_neg.
  assert (Hneg : (dval (if is_zero a then copy_abs a else copy_negate a) == - dval a)%Q).
  { destruct (is_zero a) eqn:E; [|apply dval_copy_negate].
    apply is_zero_true in E. rewrite dval_copy_abs, E. done. }
  edestruct (fix_dec_exact default_context (if is_zero a then copy_abs a else copy_negate a))
    as (r&Hr&Hvr&_); [auto with fincore| |].
  - exists (- z), k. split; [|by rewrite Z.abs_opp]. rewrite Hneg, Hv, inject_Z_opp. ring.
  - exists r. by rewrite Hvr.
Qed.

Lemma dec_min_spec a b :
  (dval (dec_min a b) == Qmin (dval a) (dval b))%Q.
Proof.
  unfold dec_min. destruct (dec_ltb b a) eqn:E; dec_cmp.
  - rewrite Q.min_r; [done|lra].
  - by rewrite Q.min_l.
Qed.

(** ** Amounts in minor units

    [at_scale u d z]: the value of [d] is exactly [z] units of [10 ^ -u].
    Currency scales are small, so the bounds on [u] below are generous. *)

Definition at_scale (u : Z) (d : fdec) (z : Z) : Prop :=
  (dval d == inject_Z z * q10 (- u))%Q.

Definition sane_scale (u : Z) : Prop := 0 <= u <= 1000.

(** The canonical representation of [z] minor units. *)
Definition scaled (u z : Z) : fdec := mkdec (z <? 0) (Z.abs z) (- u).

Abbreviation fits z := (Z.abs z < 10 ^ 28).

#[global] Instance at_scale_proper u : Proper ((λ a b, dval a == dval b)%Q ==> (=) ==> iff) (at_scale u).
Proof. intros a b Hab z ? <-. unfold at_scale. by rewrite Hab. Qed.

Lemma at_scale_scaled u z : at_scale u (scaled u z) z.
Proof.
  unfold at_scale, scaled. rewrite dval_mkdec by lia.
  replace (if z <? 0 then - Z.abs z else Z.abs z) with z; [done|].
  destruct (Z.ltb_spec z 0); lia.
Qed.

Lemma at_scale_inj u d z z' : at_scale u d z → at_scale u d z' → z = z'.
Proof.
  unfold at_scale. intros Hz Hz'. rewrite Hz in Hz'.
  apply scaled_eq in Hz'; [|lia]. rewrite Hz', Z.sub_diag. lia.
Qed.

Lemma at_scale_representable u d z :
  sane_scale u → fits z → at_scale u d z → representable default_context (dval d).
Proof.
  intros Hu Hz Hd. exists z, (- u). split; [done|].
  unfold sane_scale in Hu. cbn. split; [done|]. unfold etiny, etop; cbn. lia.
Qed.

Section AtScale.
Context (u : Z) (Hu : sane_scale u).

Lemma units_representable q z :
  (q == inject_Z z * q10 (- u))%Q → fits z → representable default_context q.
Proof using Hu.
  intros Hq Hz. pose proof (at_scale_scaled u z) as Hs.
  pose proof (at_scale_representable u _ z Hu Hz Hs) as Hr.
  unfold at_scale in Hs. by rewrite Hq, <- Hs.
Qed.

Lemma dec_add_scale a b x y :
  at_scale u a x → at_scale u b y → fits (x + y) →
  ∃ r, dec_add a b = Ok r ∧ at_scale u r (x + y).
Proof using Hu.
  unfold at_scale. intros Ha Hb Hf.
  assert (Hs : (dval a + dval b == inject_Z (x + y) * q10 (- u))%Q)
    by (rewrite Ha, Hb, inject_Z_plus; ring).
  destruct (dec_add_exact a b) as (r&Hr&Hv); [by eapply units_representable|].
  exists r. by rewrite Hv.
Qed.

Lemma dec_sub_scale a b x y :
  at_scale u a x → at_scale u b y → fits (x - y) →
  ∃ r, dec_sub a b = Ok r ∧ at_scale u r (x - y).
Proof using Hu.
  unfold at_scale. intros Ha Hb Hf.
  assert (Hs : (dval a - dval b == inject_Z (x - y) * q10 (- u))%Q)
    by (rewrite Ha, Hb; unfold Z.sub; rewrite inject_Z_plus, inject_Z_opp; ring).
  destruct (dec_sub_exact a b) as (r&Hr&Hv); [by eapply units_representable|].
  exists r. by rewrite Hv.
Qed.

Lemma dec_neg_scale a x :
  at_scale u a x → fits x → ∃ r, dec_neg a = Ok r ∧ at_scale u r (- x).
Proof using Hu.
  intros Ha Hf. destruct (dec_neg_exact a) as (r&Hr&Hv).
  - by eapply at_scale_representable.
  - exists r. split; [done|]. unfold at_scale in *. rewrite Hv, Ha, inject_Z_opp. ring.
Qed.

Lemma dec_compare_scale a b x y :
  at_scale u a x → at_scale u b y → dec_compare a b = Z.compare x y.
Proof using Type.
  unfold at_scale. intros Ha Hb. rewrite dec_compare_spec, Ha, Hb. apply scaled_compare.
Qed.

Lemma dec_ltb_scale a b x y :
  at_scale u a x → at_scale u b y → dec_ltb a b = (x <? y).
Proof using Type. intros Ha Hb. unfold dec_ltb. by rewrite (dec_compare_scale a b x y). Qed.
Lemma dec_leb_scale a b x y :
  at_scale u a x → at_scale u b y → dec_leb a b = (x <=? y).
Proof using Type. intros Ha Hb. unfold dec_leb. by rewrite (dec_compare_scale a b x y). Qed.
Lemma dec_eqb_scale a b x y :
  at_scale u a x → at_scale u b y → dec_eqb a b = (x =? y).
Proof using Type.
  intros Ha Hb. unfold dec_eqb. rewrite (dec_compare_scale a b x y) by done.
  by rewrite Z.eqb_compare.
Qed.
Lemma dec_min_scale a b x y :
  at_scale u a x → at_scale u b y → at_scale u (dec_min a b) (Z.min x y).
Proof using Type.
  intros Ha Hb. unfold dec_min. rewrite (dec_ltb_scale b a y x) by done.
  destruct (Z.ltb_spec y x); [by rewrite Z.min_r by lia|by rewrite Z.min_l by lia].
Qed.
End AtScale.

(** ** [quantize] *)

Lemma rescale_zcoef m d e :
  e <= fexp d → zcoef (rescale m d e) = zcoef d * 10 ^ (fexp d - e).
Proof.
  intros He. pose proof (zcoef_nonneg d). unfold rescale. destruct (is_zero d) eqn:E.
  - unfold is_zero in E. apply Z.eqb_eq in E. rewrite E. by rewrite zcoef_mkdec.
  - rewrite (proj2 (Z.leb_le _ _) He), zcoef_mkdec; [done|].
    apply Z.mul_nonneg_nonneg; auto with fincore lia.
Qed.

Lemma rescale_exp m d e : fexp (rescale m d e) = e.
Proof. unfold rescale. by repeat case_match. Qed.
Lemma rescale_sign m d e : fsign (rescale m d e) = fsign d.
Proof. unfold rescale. by repeat case_match. Qed.

(** An exact multiple of [10 ^ e] is rescaled exactly, in every mode. *)
Lemma rescale_exact m d e z :
  (dval d == inject_Z z * q10 e)%Q → rescale m d e = mkdec (fsign d) (Z.abs z) e.
Proof.
  intros Hv. unfold rescale. destruct (is_zero d) eqn:E.
  { apply is_zero_true in E. rewrite E in Hv. symmetry in Hv.
    apply Qmult_integral in Hv as [Hz|]; [|by apply q10_nz in H].
    change 0%Q with (inject_Z 0) in Hz. apply (proj1 (inject_Z_injective _ _)) in Hz. by subst z. }
  unfold dval in Hv. destruct (Z.leb_spec e (fexp d)) as [He|He].
  - symmetry in Hv. apply scaled_eq in Hv; [|done]. f_equal.
    rewrite Hv, Z.abs_mul, zint_abs, (Z.abs_eq (10 ^ _)) by auto with fincore lia. done.
  - apply scaled_eq in Hv; [|lia]. f_equal.
    rewrite <- zint_abs, Hv, Z.abs_mul, (Z.abs_eq (10 ^ _)) by auto with fincore lia.
    apply round_quot_exact. auto with fincore lia.
Qed.

(** A coefficient of at most 28 digits at a sane exponent is kept as is. *)
Lemma fix_dec_id d :
  zcoef d < 10 ^ 28 → -1000 <= fexp d <= 0 → fix_dec default_context d = Ok d.
Proof.
  intros Hc He. unfold fix_dec. destruct (is_zero d) eqn:E.
  - unfold is_zero, zcoef in E. apply Z.eqb_eq in E. unfold mkdec, etiny; cbn.
    rewrite Z.min_l, Z.max_l by lia. destruct d as [s c e]; cbn in *.
    by replace c with 0%N by lia.
  - pose proof (zcoef_nonneg d).
    pose proof (proj2 (ndigits_le (zcoef d) 28 ltac:(lia) ltac:(lia)) Hc).
    pose proof (ndigits_pos (zcoef d) ltac:(lia)).
    unfold etop, etiny; cbn.
    rewrite (proj2 (Z.ltb_ge _ _)), (proj2 (Z.ltb_ge _ _)) by lia. done.
Qed.

Lemma quantize_Ok m d q r :
  -1000 <= fexp q <= 0 → quantize m d q = Ok r →
  r = rescale m d (fexp q) ∧ zcoef r < 10 ^ 28.
Proof.
  intros Hq. unfold quantize, quantize_ctx.
  case_match; [done|]. destruct (is_zero d) eqn:Ez.
  { rewrite fix_dec_id by (rewrite ?zcoef_mkdec; cbn; lia).
    intros [= <-]. unfold rescale. rewrite Ez. split; [done|]. by rewrite zcoef_mkdec. }
  do 3 (case_match; [done|]). case_match eqn:Hnd; [done|].
  apply Z.ltb_ge in Hnd. cbn in Hnd.
  apply ndigits_le in Hnd; [|auto with fincore|lia].
  rewrite fix_dec_id by (rewrite ?rescale_exp; done). by intros [= <-].
Qed.

(** Quantizing an amount that already is a multiple of the quantum succeeds
    and only normalizes the representation. *)
Lemma quantize_scale m u d q z :
  sane_scale u → fexp q = - u → at_scale u d z → fits z →
  quantize m d q = Ok (mkdec (fsign d) (Z.abs z) (- u)).
Proof.
  unfold sane_scale. intros Hu Hq Hd Hz. unfold quantize, quantize_ctx. rewrite Hq.
  change (etiny default_context) with (-1000026).
  change (c_emax default_context) with 999999. change (c_prec default_context) with 28.
  rewrite (proj2 (Z.leb_le _ _)), (proj2 (Z.leb_le _ _)) by lia. cbn [negb andb].
  destruct (is_zero d) eqn:Ez.
  { rewrite fix_dec_id by (rewrite ?zcoef_mkdec; cbn; lia).
    pose proof (rescale_exact m d (- u) z Hd) as Hr. unfold rescale in Hr. rewrite Ez in Hr.
    by rewrite Hr. }
  apply is_zero_zcoef in Ez as Hc.
  pose proof (leading_digit_le d z (- u) 28 Hc ltac:(lia) Hd Hz) as Hlead.
  unfold adjusted. rewrite (proj2 (Z.ltb_ge _ _)), (proj2 (Z.ltb_ge _ _)) by lia.
  rewrite (rescale_exact _ _ _ _ Hd), zcoef_mkdec by lia.
  change (fexp (mkdec (fsign d) (Z.abs z) (- u))) with (- u).
  assert (ndigits (Z.abs z) <= 28) by (by apply ndigits_le; lia).
  rewrite (proj2 (Z.ltb_ge _ _)), (proj2 (Z.ltb_ge _ _)) by lia.
  apply fix_dec_id; [by rewrite zcoef_mkdec by lia|cbn; lia].
Qed.

Lemma at_scale_quantized u (s : bool) z :
  0 <= (if s then - z else z) ∨ z = 0 → at_scale u (mkdec s (Z.abs z) (- u)) z.
Proof.
  intros Hs. unfold at_scale. rewrite dval_mkdec by lia.
  replace (if s then - Z.abs z else Z.abs z) with z; [done|]. destruct s; lia.
Qed.

(** The sign of a number agrees with its value. *)
Lemma at_scale_sign u d z :
  at_scale u d z → 0 <= (if fsign d then - z else z).
Proof.
  unfold at_scale. intros Hd. pose proof (q10_pos (- u)) as Hq.
  destruct (fsign d) eqn:E.
  - apply sign_nonpos in E. rewrite Hd in E.
    destruct (Z.le_gt_cases z 0) as [|Hz]; [lia|].
    assert (0 < inject_Z z)%Q by (by rewrite <- (Zlt_Qlt 0)). nra.
  - apply sign_nonneg in E. rewrite Hd in E.
    destruct (Z.le_gt_cases 0 z) as [|Hz]; [lia|].
    assert (inject_Z z < 0)%Q by (by rewrite <- (Zlt_Qlt _ 0)). nra.
Qed.

Lemma quantize_scale_val m u d q z :
  sane_scale u → fexp q = - u → at_scale u d z → fits z →
  ∃ r, quantize m d q = Ok r ∧ at_scale u r z.
Proof.
  intros Hu Hq Hd Hz. eexists; split; [by eapply quantize_scale|].
  apply at_scale_quantized. left. by eapply at_scale_sign.
Qed.

(** A quantized result lies on the grid of the quantum. *)
Lemma quantize_on_grid m u d q r :
  sane_scale u → fexp q = - u → quantize m d q = Ok r → at_scale u r (zint r) ∧ fits (zint r).
Proof.
  unfold sane_scale. intros Hu Hq Hr. apply quantize_Ok in Hr as [-> Hc]; [|lia].
  split; [|by rewrite zint_abs]. unfold at_scale, dval. by rewrite rescale_exp, Hq.
Qed.

(** ** Overflowing the precision is visible

    A result on the grid of a currency that was rounded by the context has
    more than 28 digits: a result that fits was not rounded. *)

Lemma fix_dec_negate d :
  fix_dec default_context (copy_negate d) = copy_negate <$> fix_dec default_context d.
Proof.
  unfold fix_dec. change (is_zero (copy_negate d)) with (is_zero d).
  change (zcoef (copy_negate d)) with (zcoef d). change (fexp (copy_negate d)) with (fexp d).
  destruct (is_zero d); [done|].
  change (round_quot (c_rounding default_context) (fsign (copy_negate d)))
    with (round_quot (c_rounding default_context) (fsign d)).
  cbv zeta. repeat case_match; simplify_eq; done.
Qed.

Lemma fix_dec_scale_fits u d r z z' :
  sane_scale u → at_scale u d z → fix_dec default_context d = Ok r →
  at_scale u r z' → fits z' → z' = z.
Proof.
  assert (Hpos : ∀ d r z z', sane_scale u → at_scale u d z → 0 <= z →
    fix_dec default_context d = Ok r → at_scale u r z' → fits z' → z' = z).
  { clear. intros d r z z' Hu Hd Hz Hr Hr' Hf. destruct (Z.lt_ge_cases (Z.abs z) (10 ^ 28)) as [Hlt|Hge].
    - destruct (fix_dec_exact default_context d) as (r1&Hr1&Hv&_);
        [auto with fincore|by eapply at_scale_representable|].
      rewrite Hr in Hr1. injection Hr1 as <-.
      eapply at_scale_inj; [done|]. unfold at_scale in *. by rewrite Hv.
    - exfalso. assert (H28 : ∀ n, (q10 28 <= inject_Z n)%Q ↔ 10 ^ 28 <= n)
        by (intros n; rewrite q10_Z, <- Zle_Qle by lia; done).
      assert (Hlow : (q10 (28 + - u) <= dval r)%Q).
      { unfold sane_scale in Hu.
        apply (fix_dec_lower default_context d); [auto with fincore|unfold etiny; cbn; lia|done|].
        unfold at_scale in Hd. rewrite Hd, q10_add. pose proof (q10_pos (- u)).
        apply Qmult_le_compat_r; [apply H28; lia|lra]. }
      unfold at_scale in Hr'. rewrite Hr', q10_add in Hlow. pose proof (q10_pos (- u)).
      apply Qmult_le_r in Hlow; [|done]. rewrite H28 in Hlow. lia. }
  intros Hu Hd Hr Hr' Hf. destruct (Z.le_gt_cases 0 z) as [Hz|Hz]; [by eapply Hpos|].
  enough (- z' = - z) by lia.
  apply (Hpos (copy_negate d) (copy_negate r)); [done|..|lia| | |lia].
  - unfold at_scale in *. rewrite dval_copy_negate, Hd, inject_Z_opp. ring.
  - by rewrite fix_dec_negate, Hr.
  - unfold at_scale in *. rewrite dval_copy_negate, Hr', inject_Z_opp. ring.
Qed.

Lemma dec_add_fits u a b r x y z :
  sane_scale u → at_scale u a x → at_scale u b y → dec_add a b = Ok r →
  at_scale u r z → fits z → z = x + y.
Proof.
  intros Hu Ha Hb Hr. eapply fix_dec_scale_fits; [done| |done].
  unfold at_scale in *. rewrite dval_exact_add, Ha, Hb, inject_Z_plus. ring.
Qed.

Lemma dec_sub_fits u a b r x y z :
  sane_scale u → at_scale u a x → at_scale u b y → dec_sub a b = Ok r →
  at_scale u r z → fits z → z = x - y.
Proof.
  intros Hu Ha Hb Hr Hz Hf. apply (dec_add_fits u a (copy_negate b) r x (- y) z); try done.
  unfold at_scale in *. rewrite dval_copy_negate, Hb, inject_Z_opp. ring.
Qed.
