(* ===== verification/DecUnits.v ===== *)
(** * Decimals and whole units

    Conversions between Decimals and whole numbers of minor units: [int],
    [to_integral_value], multiplication and division by a power of ten, and
    sums on the grid of a currency. *)

From Stdlib Require Import ZArith QArith Qabs Qround Qpower Lqa Lia.
From stdpp Require Import base sets strings sorting numbers list.
From S2P Require Import Prelude PyDecimal.

Open Scope Z_scope.

(** ** Floors *)

Lemma Qfloor_unique q n : (inject_Z n <= q)%Q → (q < inject_Z (n + 1))%Q → Qfloor q = n.
Proof.
  intros Hlo Hhi. pose proof (Qfloor_le q). pose proof (Qlt_floor q).
  assert (inject_Z n < inject_Z (Qfloor q + 1))%Q as H1 by lra.
  assert (inject_Z (Qfloor q) < inject_Z (n + 1))%Q as H2 by lra.
  rewrite <- Zlt_Qlt in H1, H2. lia.
Qed.

Lemma q10_opp_mul e : (q10 e * q10 (- e) == 1)%Q.
Proof. rewrite <- q10_add. replace (e + - e) with 0 by lia. done. Qed.

(** A coefficient over a power of ten, as quotient and fraction. *)
Lemma scaled_div_mod z e :
  0 <= e → let p := 10 ^ e in
  (inject_Z z * q10 (- e) == inject_Z (z / p) + inject_Z (z mod p) * q10 (- e))%Q ∧
  (0 <= inject_Z (z mod p) * q10 (- e) < 1)%Q ∧ (inject_Z p * q10 (- e) == 1)%Q.
Proof.
  intros He p. pose proof (pow10_gt0 e He : 0 < p) as Hp. pose proof (q10_pos (- e)) as Hq.
  pose proof (q10_opp_mul e) as Hm. rewrite (q10_Z e He) in Hm. fold p in Hm.
  pose proof (Z.div_mod z p ltac:(lia)) as Hdm. pose proof (Z.mod_pos_bound z p Hp) as Hb.
  split_and!; [| | |done].
  - rewrite Hdm at 1. rewrite inject_Z_plus, inject_Z_mult.
    transitivity (inject_Z (z / p) * (inject_Z p * q10 (- e)) + inject_Z (z mod p) * q10 (- e))%Q; [ring|].
    rewrite Hm. ring.
  - assert (0 <= inject_Z (z mod p))%Q by (rewrite <- (Zle_Qle 0); lia). nra.
  - assert (Hlt : (inject_Z (z mod p) < inject_Z p)%Q) by (rewrite <- Zlt_Qlt; lia).
    apply (Qmult_lt_compat_r _ _ _ Hq) in Hlt. lra.
Qed.

(** Division of a coefficient by a power of ten is a floor. *)
Lemma Qfloor_scaled c e : 0 <= e → Qfloor (inject_Z c * q10 (- e)) = c / 10 ^ e.
Proof.
  intros He. destruct (scaled_div_mod c e He) as (Hc&Hr&_).
  apply Qfloor_unique; rewrite ?inject_Z_plus; change (inject_Z 1) with 1%Q; lra.
Qed.

(** Rounding half up is the floor after adding one half. *)
Lemma Qfloor_half_scaled s c e :
  0 <= e → Qfloor (inject_Z c * q10 (- e) + (1 # 2)) = round_quot ROUND_HALF_UP s c (10 ^ e).
Proof.
  intros He. destruct (scaled_div_mod c e He) as (Hc&Hr&Hm). unfold round_quot.
  pose proof (q10_pos (- e)) as Hq. set (p := 10 ^ e) in *.
  destruct (Z.leb_spec p (2 * (c mod p))) as [Hle|Hle].
  - rewrite Zle_Qle, inject_Z_mult in Hle. change (inject_Z 2) with 2%Q in Hle.
    apply (Qmult_le_compat_r _ _ (q10 (- e))) in Hle; [|lra].
    apply Qfloor_unique; rewrite ?inject_Z_plus; change (inject_Z 1) with 1%Q; lra.
  - rewrite Zlt_Qlt, inject_Z_mult in Hle. change (inject_Z 2) with 2%Q in Hle.
    apply (Qmult_lt_compat_r _ _ (q10 (- e))) in Hle; [|lra].
    apply Qfloor_unique; rewrite ?inject_Z_plus; change (inject_Z 1) with 1%Q; lra.
Qed.

Lemma dval_nonneg_zcoef d : (0 <= dval d)%Q → (dval d == inject_Z (zcoef d) * q10 (fexp d))%Q.
Proof.
  intros Hd. destruct (fsign d) eqn:E; [|unfold dval, zint; by rewrite E].
  pose proof (sign_nonpos d E) as Hn. assert (dval d == 0)%Q as H0 by lra.
  rewrite H0. apply is_zero_true in H0. unfold is_zero in H0. apply Z.eqb_eq in H0.
  rewrite H0. by rewrite Qmult_0_l.
Qed.

Lemma nonneg_negative_zero d : (0 <= dval d)%Q → fsign d = true → zcoef d = 0.
Proof.
  intros Hd Hs. pose proof (sign_nonpos d Hs). apply Z.eqb_eq.
  change (is_zero d = true). apply is_zero_true. lra.
Qed.

(** [int(d)] of a non-negative Decimal is its floor. *)
Lemma int_of_dec_floor d : (0 <= dval d)%Q → int_of_dec d = Qfloor (dval d).
Proof.
  intros Hd. rewrite (dval_nonneg_zcoef d Hd). unfold int_of_dec.
  assert (Hs : ∀ x, (zcoef d = 0 → x = 0) → (if fsign d then - x else x) = x).
  { intros x Hx. destruct (fsign d) eqn:E; [|done]. rewrite Hx; [done|].
    by apply nonneg_negative_zero. }
  destruct (Z.leb_spec 0 (fexp d)) as [He|He]; rewrite Hs.
  - by rewrite q10_Z, <- inject_Z_mult, Qfloor_Z by done.
  - by intros ->.
  - rewrite <- Qfloor_scaled by lia. by rewrite Z.opp_involutive.
  - intros ->. apply Z.div_0_l, Z.pow_nonzero; lia.
Qed.

Lemma int_of_dec_Z d z : (dval d == inject_Z z)%Q → int_of_dec d = z.
Proof.
  intros Hd. unfold int_of_dec. unfold dval in Hd.
  assert (Hs : zint d = if fsign d then - zcoef d else zcoef d) by done.
  destruct (Z.leb_spec 0 (fexp d)) as [He|He].
  - rewrite q10_Z, <- inject_Z_mult in Hd by done. apply (proj1 (inject_Z_injective _ _)) in Hd.
    rewrite Hs in Hd. destruct (fsign d); lia.
  - assert (Hd' : (inject_Z (zint d) * q10 (fexp d) == inject_Z z * q10 0)%Q)
      by (rewrite Hd; change (q10 0) with 1%Q; ring).
    apply scaled_eq in Hd'; [|lia]. rewrite Z.sub_0_l, Hs in Hd'.
    set (p := 10 ^ (- fexp d)) in *. assert (0 < p) by (apply pow10_gt0; lia).
    destruct (fsign d).
    + replace (zcoef d) with (- z * p) by lia. rewrite Z.div_mul by lia. lia.
    + rewrite Hd'. by rewrite Z.div_mul by lia.
Qed.

(** Rounding half up a non-negative Decimal. *)
Lemma half_up_floor d :
  (0 <= dval d)%Q → int_of_dec (to_integral_value ROUND_HALF_UP d) = Qfloor (dval d + (1 # 2)).
Proof.
  intros Hd. unfold to_integral_value. rewrite (dval_nonneg_zcoef d Hd).
  destruct (Z.leb_spec 0 (fexp d)) as [He|He].
  - rewrite int_of_dec_floor, (dval_nonneg_zcoef d Hd), q10_Z, <- inject_Z_mult, Qfloor_Z by done.
    symmetry. apply Qfloor_unique; rewrite ?inject_Z_plus; change (inject_Z 1) with 1%Q; lra.
  - set (e := - fexp d). replace (fexp d) with (- e) by lia.
    rewrite (Qfloor_half_scaled (fsign d)) by lia. apply int_of_dec_Z. unfold rescale.
    destruct (is_zero d) eqn:Ez.
    + unfold is_zero in Ez. apply Z.eqb_eq in Ez. rewrite Ez.
      pose proof (round_quot_exact ROUND_HALF_UP (fsign d) 0 (10 ^ e)) as Hr.
      rewrite Z.mul_0_l in Hr. rewrite Hr by (apply pow10_gt0; lia).
      rewrite dval_mkdec by done. by destruct (fsign d).
    + assert (fsign d = false) as ->.
      { destruct (fsign d) eqn:E; [|done]. apply is_zero_zcoef in Ez.
        pose proof (nonneg_negative_zero d Hd E). lia. }
      rewrite (proj2 (Z.leb_gt _ _)), Z.sub_0_l by lia. fold e.
      rewrite dval_mkdec; [change (q10 0) with 1%Q; ring|].
      assert (Hp : 0 < 10 ^ e) by (apply pow10_gt0; lia).
      pose proof (Z.div_pos (zcoef d) (10 ^ e) (zcoef_nonneg d) Hp).
      destruct (round_quot_near ROUND_HALF_UP false (zcoef d) (10 ^ e) Hp); lia.
Qed.

(** ** Short Decimals

    [short K d]: the value of [d] has at most 28 significant digits and an
    exponent of magnitude at most [K]; the context computes with such numbers
    far from its exponent limits. *)

Definition short (K : Z) (d : fdec) : Prop :=
  ∃ z k, (dval d == inject_Z z * q10 k)%Q ∧ fits z ∧ - K <= k <= K.

Lemma short_representable K q z k :
  K <= 900000 → (q == inject_Z z * q10 k)%Q → fits z → - K <= k <= K →
  representable default_context q.
Proof.
  intros HK Hq Hz Hk. exists z, k. split; [done|]. cbn. split; [done|].
  unfold etiny, etop; cbn. lia.
Qed.

Lemma at_scale_short u d z : 0 <= u → at_scale u d z → fits z → short u d.
Proof. intros Hu Hd Hz. exists z, (- u). split; [done|]. split; [done|lia]. Qed.

(** Multiplication by a power of ten is exact. *)
Lemma dec_mul_pow10 K u d :
  short K d → 0 <= u → 0 <= K → K + u <= 900000 →
  ∃ r, dec_mul d (dec_of_Z (10 ^ u)) = Ok r ∧ (dval r == dval d * q10 u)%Q ∧ short (K + u) r.
Proof.
  intros (z&k&Hd&Hz&Hk) Hu HK0 HK.
  assert (Hp : (dval d * dval (dec_of_Z (10 ^ u)) == inject_Z z * q10 (k + u))%Q).
  { rewrite dval_dec_of_Z, Hd, q10_add, (q10_Z u) by done. ring. }
  destruct (dec_mul_exact d (dec_of_Z (10 ^ u))) as (r&Hr&Hv).
  - eapply (short_representable (K + u)); [lia|done|done|lia].
  - exists r. split; [done|]. split; [by rewrite Hv, dval_dec_of_Z, <- q10_Z|].
    exists z, (k + u). split; [by rewrite Hv, Hp|]. split; [done|lia].
Qed.

(** Subtracting the floor, or the half-up rounding, leaves an exact fraction. *)
Lemma dec_sub_rounded K d n :
  short K d → 0 <= K <= 900000 → (0 <= dval d)%Q →
  n = Qfloor (dval d) ∨ n = Qfloor (dval d + (1 # 2)) →
  ∃ r, dec_sub d (dec_of_Z n) = Ok r ∧ (dval r == dval d - inject_Z n)%Q ∧ short K r.
Proof.
  intros (z&k&Hd&Hz&Hk) HK Hpos Hn.
  enough (Hs : ∃ z' k', (dval d - inject_Z n == inject_Z z' * q10 k')%Q ∧ fits z' ∧ - K <= k' <= K).
  { destruct Hs as (z'&k'&Hv'&Hz'&Hk').
    assert (Hs : (dval d - dval (dec_of_Z n) == inject_Z z' * q10 k')%Q) by by rewrite dval_dec_of_Z.
    destruct (dec_sub_exact d (dec_of_Z n)) as (r&Hr&Hv); [by eapply short_representable; [|done..]; lia|].
    exists r. split; [done|]. split; [by rewrite Hv, dval_dec_of_Z|].
    exists z', k'. by rewrite Hv, Hs. }
  destruct (Z.le_gt_cases 0 k) as [Hk0|Hk0].
  - assert (HN : (dval d == inject_Z (z * 10 ^ k))%Q) by by rewrite Hd, q10_Z, inject_Z_mult.
    assert (n = z * 10 ^ k) as ->.
    { destruct Hn as [-> | ->]; rewrite HN; [apply Qfloor_Z|].
      apply Qfloor_unique; rewrite ?inject_Z_plus; change (inject_Z 1) with 1%Q; lra. }
    exists 0, 0. split; [rewrite HN; change (q10 0) with 1%Q; ring|]. split; [done|lia].
  - remember (- k) as e eqn:He. assert (k = - e) as -> by lia.
    destruct (scaled_div_mod z e ltac:(lia)) as (_&_&Hm). set (p := 10 ^ e) in *.
    assert (0 < p) as Hp by (apply pow10_gt0; lia). pose proof (q10_pos (- e)) as Hq.
    exists (z - n * p), (- e). split; [|split; [|lia]].
    { rewrite Hd. unfold Z.sub. rewrite inject_Z_plus, inject_Z_opp, inject_Z_mult.
      transitivity (inject_Z z * q10 (- e) - inject_Z n * (inject_Z p * q10 (- e)))%Q; [|ring].
      rewrite Hm. ring. }
    assert (Hz0 : 0 <= z).
    { destruct (Z.le_gt_cases 0 z) as [|Hlt]; [done|]. rewrite Zlt_Qlt in Hlt.
      change (inject_Z 0) with 0%Q in Hlt. nra. }
    pose proof (Z.div_mod z p ltac:(lia)). pose proof (Z.mod_pos_bound z p Hp).
    pose proof (Z.div_pos z p Hz0 Hp). rewrite Hd in Hn.
    rewrite Qfloor_scaled, (Qfloor_half_scaled false) in Hn by lia. fold p in Hn.
    unfold round_quot in Hn. destruct (Z.leb_spec p (2 * (z mod p))); destruct Hn as [-> | ->]; nia.
Qed.

(** ** Exact division *)

Lemma strip_zeros_val fuel c e ideal :
  0 <= c →
  let '(c', e') := strip_zeros fuel c e ideal in
  0 <= c' ∧ (inject_Z c' * q10 e' == inject_Z c * q10 e)%Q.
Proof.
  revert c e; induction fuel as [|fuel IH]; intros c e Hc; cbn [strip_zeros]; [done|].
  destruct (e <? ideal) eqn:He; cbn; [|done].
  destruct (Z.eqb_spec (c mod 10) 0) as [Hm|]; [|done].
  specialize (IH (c / 10) (e + 1) (Z.div_pos c 10 Hc ltac:(lia))).
  destruct (strip_zeros _ _ _ _) as [c' e']. destruct IH as [? ->]. split; [done|].
  rewrite Z.add_comm, <- (q10_shift _ 1) by lia.
  by replace (c / 10 * 10 ^ 1) with c by (pose proof (Z.div_mod c 10); lia).
Qed.

(** A quotient that terminates within the working precision and that the
    context can hold is exact. *)
Lemma dec_div_exact a b n :
  0 < zcoef b →
  let shift := ndigits (zcoef b) - ndigits (zcoef a) + 29 in
  0 <= shift → 0 <= n → zcoef a * 10 ^ shift = n * zcoef b →
  representable default_context (dval a / dval b) →
  ∃ r, dec_div a b = Ok r ∧ (dval r == dval a / dval b)%Q ∧ fsign r = xorb (fsign a) (fsign b).
Proof.
  intros Hb shift Hs Hn0 Hn Hrep.
  assert (Hbz : is_zero b = false) by by apply is_zero_zcoef.
  assert (Hbv : ¬ (dval b == 0)%Q) by (rewrite <- is_zero_true, Hbz; done).
  unfold dec_div. rewrite Hbz. destruct (is_zero a) eqn:Ea.
  { apply is_zero_true in Ea. assert (H0 : (dval a / dval b == 0)%Q) by (rewrite Ea; field; done).
    assert (Hz : (dval (mkdec (xorb (fsign a) (fsign b)) 0 (fexp a - fexp b)) == 0)%Q).
    { rewrite dval_mkdec by done. destruct (xorb _ _); apply Qmult_0_l. }
    destruct (fix_dec_exact default_context (mkdec (xorb (fsign a) (fsign b)) 0 (fexp a - fexp b)))
      as (r&Hr&Hv&Hsg); [auto with fincore|by rewrite Hz, <- H0|].
    exists r. split; [done|]. by rewrite Hv, H0. }
  change (c_prec default_context) with 28.
  replace (ndigits (zcoef b) - ndigits (zcoef a) + 28 + 1) with shift by lia.
  rewrite (proj2 (Z.leb_le 0 shift)) by done. rewrite Hn, Z.div_mul, Z.mod_mul by lia. cbn [negb Z.eqb].
  destruct (strip_zeros _ _ _ _) as [q e] eqn:Es.
  pose proof (strip_zeros_val (Z.to_nat (fexp a - fexp b - (fexp a - fexp b - shift))) n
    (fexp a - fexp b - shift) (fexp a - fexp b) Hn0) as Hst.
  rewrite Es in Hst. destruct Hst as [Hq Hqv].
  assert (Hval : (dval (mkdec (xorb (fsign a) (fsign b)) q e) == dval a / dval b)%Q).
  { rewrite dval_mkdec by done.
    assert (Hmul : (inject_Z q * q10 e * (inject_Z (zcoef b) * q10 (fexp b)) == inject_Z (zcoef a) * q10 (fexp a))%Q).
    { rewrite Hqv. replace (fexp a - fexp b - shift) with (- shift + (fexp a - fexp b)) by lia.
      replace (q10 (fexp a)) with (q10 (fexp a - fexp b + fexp b)) by (f_equal; lia). rewrite !q10_add.
      transitivity (inject_Z (n * zcoef b) * q10 (- shift) * (q10 (fexp a - fexp b) * q10 (fexp b)))%Q;
        [rewrite inject_Z_mult; ring|]. rewrite <- Hn, inject_Z_mult, <- q10_Z by done.
      rewrite <- (Qmult_assoc (inject_Z (zcoef a))), q10_opp_mul. ring. }
    apply (Qmult_inj_r _ _ (dval b) Hbv). transitivity (dval a); [|by field].
    unfold dval, zint. destruct (fsign a), (fsign b); cbn [xorb]; rewrite ?inject_Z_opp; lra. }
  destruct (fix_dec_exact default_context (mkdec (xorb (fsign a) (fsign b)) q e)) as (r&Hr&Hv&Hsg);
    [auto with fincore|by rewrite Hval|].
  exists r. split; [done|]. by rewrite Hv, Hval, Hsg.
Qed.

Lemma ndigits_pow10 u : 0 <= u → ndigits (10 ^ u) = u + 1.
Proof.
  intros Hu. pose proof (pow10_gt0 u Hu) as Hp. apply Z.le_antisymm.
  - apply ndigits_le; [lia..|]. apply Z.pow_lt_mono_r; lia.
  - destruct (Z.le_gt_cases (u + 1) (ndigits (10 ^ u))) as [|Hlt]; [done|].
    pose proof (ndigits_pos (10 ^ u) ltac:(lia)).
    assert (10 ^ u < 10 ^ u); [|lia]. eapply Z.lt_le_trans.
    + apply (proj1 (ndigits_le (10 ^ u) (ndigits (10 ^ u)) ltac:(lia) ltac:(lia))). lia.
    + apply Z.pow_le_mono_r; lia.
Qed.

(** [Decimal(n) / Decimal(10 ** u)]: whole units at the currency's scale. *)
Lemma dec_div_pow10 u n :
  sane_scale u → fits n → ∃ r, dec_div (dec_of_Z n) (dec_of_Z (10 ^ u)) = Ok r ∧ at_scale u r n ∧
    fsign r = (n <? 0).
Proof.
  unfold sane_scale. intros Hu Hn. pose proof (pow10_gt0 u ltac:(lia)) as Hp.
  assert (Hcn : zcoef (dec_of_Z n) = Z.abs n) by (apply zcoef_mkdec; lia).
  assert (Hcu : zcoef (dec_of_Z (10 ^ u)) = 10 ^ u) by (unfold dec_of_Z; rewrite zcoef_mkdec; lia).
  assert (Hnd : ndigits (Z.abs n) <= 28) by (apply ndigits_le; lia).
  assert (Hval : (dval (dec_of_Z n) / dval (dec_of_Z (10 ^ u)) == inject_Z n * q10 (- u))%Q).
  { rewrite !dval_dec_of_Z, <- q10_Z by lia. pose proof (q10_opp_mul u). pose proof (q10_nz u).
    apply (Qmult_inj_r _ _ (q10 u)); [done|]. transitivity (inject_Z n); [by field|].
    rewrite <- Qmult_assoc, (Qmult_comm (q10 (- u))), H. ring. }
  destruct (dec_div_exact (dec_of_Z n) (dec_of_Z (10 ^ u)) (Z.abs n * 10 ^ (29 - ndigits (Z.abs n) + 1)))
    as (r&Hr&Hv&Hsg).
  - lia.
  - rewrite Hcn, Hcu, ndigits_pow10; lia.
  - apply Z.mul_nonneg_nonneg; [lia|]. apply Z.pow_nonneg; lia.
  - rewrite Hcn, Hcu, ndigits_pow10, <- Z.mul_assoc, <- Z.pow_add_r by lia. f_equal. f_equal. lia.
  - eapply units_representable; [|done|done]. done.
  - exists r. split; [done|]. unfold at_scale. rewrite Hv, Hsg. split; [done|].
    unfold dec_of_Z. cbn [fsign mkdec]. rewrite (proj2 (Z.ltb_ge (10 ^ u) 0)) by lia.
    apply xorb_false_r.
Qed.

(** ** Sums on a currency grid *)

Section Sums.
Context (u : Z) (Hu : sane_scale u).

Lemma dec_sum_scale ds zs start x :
  Forall2 (at_scale u) ds zs → Forall (λ z, 0 <= z) zs →
  at_scale u start x → 0 <= x → fits (x + zsum zs) →
  ∃ r, dec_sum start ds = Ok r ∧ at_scale u r (x + zsum zs).
Proof using Hu.
  intros Hds; revert start x; induction Hds as [|d z ds zs Hd Hds IH]; intros start x Hzs Hx Hx0 Hf.
  - exists start. cbn. by rewrite Z.add_0_r.
  - apply Forall_cons in Hzs as [Hz Hzs]. pose proof (zsum_nonneg _ Hzs). cbn [zsum] in Hf.
    destruct (dec_add_scale u Hu start d x z Hx Hd ltac:(lia)) as (s&Hs&Hsv).
    destruct (IH s (x + z) Hzs Hsv ltac:(lia)) as (r&Hr&Hrv).
    { by rewrite <- Z.add_assoc. }
    exists r. cbn [dec_sum foldM zsum]. rewrite Z.add_assoc. split; [|done].
    unfold dec_sum. cbn [foldM]. rewrite Hs. exact Hr.
Qed.

(** Terms of either sign: no partial sum exceeds the sum of magnitudes. *)
Lemma dec_sum_abs ds zs start x :
  Forall2 (at_scale u) ds zs → at_scale u start x →
  Z.abs x + zsum (Z.abs <$> zs) < 10 ^ 28 →
  ∃ r, dec_sum start ds = Ok r ∧ at_scale u r (x + zsum zs).
Proof using Hu.
  intros Hds; revert start x; induction Hds as [|d z ds zs Hd Hds IH]; intros start x Hx Hf.
  - exists start. cbn. by rewrite Z.add_0_r.
  - cbn [fmap list_fmap zsum] in Hf.
    assert (0 <= zsum (Z.abs <$> zs)) by (apply zsum_nonneg, Forall_fmap, Forall_forall; cbn; lia).
    destruct (dec_add_scale u Hu start d x z Hx Hd ltac:(lia)) as (s&Hs&Hsv).
    destruct (IH s (x + z) Hsv ltac:(lia)) as (r&Hr&Hrv).
    exists r. cbn [zsum]. rewrite Z.add_assoc. split; [|done].
    unfold dec_sum. cbn [foldM]. rewrite Hs. exact Hr.
Qed.

(** Once a sum of non-negative terms exceeds the precision it stays there. *)
Lemma dec_sum_big ds zs start r :
  Forall2 (at_scale u) ds zs → Forall (λ z, 0 <= z) zs →
  (q10 (28 - u) <= dval start)%Q → dec_sum start ds = Ok r → (q10 (28 - u) <= dval r)%Q.
Proof using Hu.
  intros Hds; revert start; induction Hds as [|d z ds zs Hd Hds IH]; intros start Hzs Hs.
  - by intros [= <-].
  - apply Forall_cons in Hzs as [Hz Hzs]. unfold dec_sum. cbn [foldM].
    intros (s&Hs1&Hr)%bind_Ok. apply (IH s); [done| |done].
    unfold sane_scale in Hu. apply (fix_dec_lower default_context (exact_add start d));
      [auto with fincore|unfold etiny; cbn; lia|done|].
    rewrite dval_exact_add. unfold at_scale in Hd. rewrite Hd. pose proof (q10_pos (- u)).
    rewrite Zle_Qle in Hz. change (inject_Z 0) with 0%Q in Hz. nra.
Qed.

(** A sum of non-negative amounts that fits the context is exact. *)
Lemma dec_sum_fits ds zs start x r z :
  Forall2 (at_scale u) ds zs → Forall (λ z, 0 <= z) zs →
  at_scale u start x → 0 <= x → fits x →
  dec_sum start ds = Ok r → at_scale u r z → fits z → z = x + zsum zs.
Proof using Hu.
  intros Hds; revert start x; induction Hds as [|d w ds zs Hd Hds IH]; intros start x Hzs Hx Hx0 Hfx.
  - intros [= <-] Hz Hf. cbn. rewrite Z.add_0_r. by eapply at_scale_inj.
  - apply Forall_cons in Hzs as [Hw Hzs]. unfold dec_sum. cbn [foldM].
    intros (s&Hs&Hr)%bind_Ok Hz Hf. cbn [zsum]. rewrite Z.add_assoc.
    destruct (Z.lt_ge_cases (x + w) (10 ^ 28)) as [Hlt|Hge].
    + destruct (dec_add_scale u Hu start d x w Hx Hd ltac:(lia)) as (s'&Hs'&Hsv).
      rewrite Hs in Hs'. injection Hs' as <-. by apply (IH s); [| |lia|lia|..].
    + exfalso. assert (Hbig : (q10 (28 - u) <= dval r)%Q).
      { apply (dec_sum_big ds zs s); [done..| |done]. unfold sane_scale in Hu.
        apply (fix_dec_lower default_context (exact_add start d));
          [auto with fincore|unfold etiny; cbn; lia|done|].
        unfold at_scale in *. rewrite dval_exact_add, Hx, Hd.
        replace (28 - u) with (28 + - u) by lia. rewrite q10_add, q10_Z by lia.
        rewrite <- Qmult_plus_distr_l, <- inject_Z_plus. pose proof (q10_pos (- u)).
        apply Qmult_le_compat_r; [|lra]. by rewrite <- Zle_Qle. }
      unfold at_scale in Hz. replace (28 - u) with (28 + - u) in Hbig by lia.
      rewrite Hz, q10_add, q10_Z in Hbig by lia. apply Qmult_le_r in Hbig; [|apply q10_pos].
      rewrite <- Zle_Qle in Hbig. lia.
Qed.
End Sums.

(** ** Sums of rationals *)

Fixpoint qsum (l : list Q) : Q := match l with [] => 0 | q :: l => q + qsum l end.

#[global] Instance qsum_perm : Proper ((≡ₚ) ==> Qeq) qsum.
Proof.
  induction 1 as [|x l k Hl IH|x y l|l k m _ IH1 _ IH2]; cbn; [done|by rewrite IH|ring|by rewrite IH1].
Qed.

Lemma qsum_floor_le {A} (v : A → Q) l :
  (inject_Z (zsum ((λ x, Qfloor (v x)) <$> l)) <= qsum (v <$> l))%Q.
Proof.
  induction l as [|x l IH]; cbn; [done|]. rewrite inject_Z_plus. pose proof (Qfloor_le (v x)). lra.
Qed.

Lemma qsum_floor_gt {A} (v : A → Q) l :
  (qsum (v <$> l) <= inject_Z (zsum ((λ x, Qfloor (v x)) <$> l) + Z.of_nat (length l)))%Q.
Proof.
  induction l as [|x l IH]; cbn [fmap list_fmap qsum zsum length]; [done|].
  replace (Qfloor (v x) + _ + _) with (Qfloor (v x) + 1 + (zsum ((λ x, Qfloor (v x)) <$> l) + Z.of_nat (length l))) by lia.
  rewrite inject_Z_plus. pose proof (Qlt_floor (v x)). lra.
Qed.

Lemma qsum_half_up {A} (v : A → Q) l :
  (Qabs (qsum (v <$> l) - inject_Z (zsum ((λ x, Qfloor (v x + (1 # 2))) <$> l)))
   <= inject_Z (Z.of_nat (length l)) * (1 # 2))%Q.
Proof.
  induction l as [|x l IH]; cbn [fmap list_fmap qsum zsum length]; [done|].
  apply Qabs_Qle_condition in IH. apply Qabs_Qle_condition.
  rewrite Nat2Z.inj_succ. unfold Z.succ. rewrite !inject_Z_plus. change (inject_Z 1) with 1%Q.
  pose proof (Qfloor_le (v x + (1 # 2))). pose proof (Qlt_floor (v x + (1 # 2))) as Hlt.
  rewrite inject_Z_plus in Hlt. change (inject_Z 1) with 1%Q in Hlt. lra.
Qed.

(** ** Signs *)

Lemma fix_dec_nonneg ctx d r : (0 <= dval d)%Q → fix_dec ctx d = Ok r → (0 <= dval r)%Q.
Proof.
  intros Hd Hr. destruct (fsign d) eqn:E.
  - pose proof (nonneg_negative_zero d Hd E) as Hz. unfold fix_dec in Hr.
    unfold is_zero in Hr. rewrite Hz in Hr. injection Hr as <-.
    rewrite dval_mkdec by done. rewrite E. cbn. by rewrite Qmult_0_l.
  - apply fix_dec_sign in Hr. apply sign_nonneg. congruence.
Qed.

Lemma int_of_dec_nonneg d : (0 <= dval d)%Q → 0 <= int_of_dec d.
Proof.
  intros Hd. rewrite int_of_dec_floor by done. change 0 with (Qfloor (inject_Z 0)).
  by apply Qfloor_resp_le.
Qed.

Lemma half_up_nonneg d :
  (0 <= dval d)%Q → 0 <= int_of_dec (to_integral_value ROUND_HALF_UP d).
Proof.
  intros Hd. rewrite half_up_floor by done. change 0 with (Qfloor (inject_Z 0)).
  apply Qfloor_resp_le. change (inject_Z 0) with 0%Q. lra.
Qed.
