(* ===== verification/PyValue.v ===== *)
(** * Dynamic Python values

    The calculators take their input as nested dictionaries of arbitrary
    values.  [pyval] is the part of Python's value domain these sources
    inspect; dictionaries have string keys and keep their insertion order. *)

From Stdlib Require Import Ascii ZArith SpecFloat Lia.
From stdpp Require Import base sets strings sorting numbers list.
From S2P Require Import Prelude PyDecimal.

Open Scope Z_scope.

Inductive pyval :=
  | VNone
  | VBool (b : bool)
  | VInt (n : Z)
  | VFloat (f : spec_float)
  | VDec (d : decimal)
  | VStr (s : string)
  | VList (l : list pyval)
  | VDict (d : list (string * pyval)).

(** Truth value of an object. *)
Definition py_truth (v : pyval) : bool :=
  match v with
  | VNone => false
  | VBool b => b
  | VInt n => negb (n =? 0)
  | VFloat f => match f with S754_zero _ => false | _ => true end
  | VDec (DFin d) => negb (is_zero d)
  | VDec _ => true
  | VStr s => negb (str_empty s)
  | VList l => match l with [] => false | _ => true end
  | VDict d => match d with [] => false | _ => true end
  end.

Definition is_none (v : pyval) : bool := match v with VNone => true | _ => false end.
Definition is_float (v : pyval) : bool := match v with VFloat _ => true | _ => false end.

(** [a or b]. *)
Definition py_or (a b : pyval) : pyval := if py_truth a then a else b.

(** [d.get(k, default)], [k in d] and [d[k]] for an object that must be a
    dictionary. *)
Definition py_items (v : pyval) : result (list (string * pyval)) :=
  match v with VDict d => Ok d | _ => raise AttributeError "not a dict" end.

Definition get_default (d : pydict pyval) (k : string) (default : pyval) : pyval :=
  match dict_get k d with Some v => v | None => default end.
Definition get (d : pydict pyval) (k : string) : pyval := get_default d k VNone.

(** Iteration over an object. *)
Definition py_iter (v : pyval) : result (list pyval) :=
  match v with
  | VList l => Ok l
  | VDict d => Ok (VStr <$> dict_keys d)
  | VStr s => Ok ((λ c, VStr (of_chars [c])) <$> chars s)
  | _ => raise TypeError "not iterable"
  end.

(** Membership in a set of strings hashes the object first. *)
Definition py_hashable (v : pyval) : bool :=
  match v with VList _ | VDict _ => false | _ => true end.
Definition py_in_strs (v : pyval) (l : list string) : result bool :=
  if py_hashable v
  then Ok (match v with VStr s => str_in s l | _ => false end)
  else raise TypeError "unhashable".

(** [v == "..."]. *)
Definition py_eq_str (v : pyval) (s : string) : bool :=
  match v with VStr t => String.eqb t s | _ => false end.

(** Participant identifiers are strings, as the sources annotate them. *)
Definition py_str (v : pyval) : result string :=
  match v with VStr s => Ok s | _ => raise TypeError "identifier is not a str" end.
