(* ===== verification/Hash.v ===== *)
(** * Digests of the standard library

    [hashlib.sha1], [hashlib.sha256] and [uuid.uuid5], which the sources use
    to derive deterministic identifiers.  Words are integers modulo [2 ^ 32];
    messages are lists of bytes. *)

From Stdlib Require Import Ascii ZArith Lia.
From stdpp Require Import base sets strings sorting numbers list.
From S2P Require Import Prelude.

Open Scope Z_scope.

Definition w32 (n : Z) : Z := Z.land n 4294967295.
Definition rotl (n : Z) (x : Z) : Z := w32 (Z.lor (Z.shiftl x n) (Z.shiftr x (32 - n))).
Definition rotr (n : Z) (x : Z) : Z := rotl (32 - n) x.
Definition not32 (x : Z) : Z := 4294967295 - x.

(** [n] as [k] bytes, most significant first. *)
Fixpoint be_bytes (k : nat) (n : Z) : list Z :=
  match k with
  | O => []
  | S k' => Z.land (Z.shiftr n (8 * Z.of_nat k')) 255 :: be_bytes k' n
  end.

Definition of_be_bytes (l : list Z) : Z := foldl (λ a b, 256 * a + b) 0 l.

(** Padding to a multiple of 64 bytes, and the 16 words of each block. *)
Definition pad (msg : list Z) : list Z :=
  let len := Z.of_nat (length msg) in
  msg ++ 128 :: replicate (Z.to_nat ((55 - len) mod 64)) 0 ++ be_bytes 8 (8 * len).

Fixpoint words (l : list Z) : list Z :=
  match l with
  | a :: b :: c :: d :: l => of_be_bytes [a; b; c; d] :: words l
  | _ => []
  end.

Fixpoint chunks (fuel : nat) (k : nat) (l : list Z) : list (list Z) :=
  match fuel, l with
  | S f, _ :: _ => take k l :: chunks f k (drop k l)
  | _, _ => []
  end.

Definition blocks (msg : list Z) : list (list Z) :=
  let ws := words (pad msg) in chunks (length ws) 16 ws.

(** The message schedule: [step] computes the next word from the previous
    ones, given most recent first. *)
Fixpoint extend (n : nat) (step : list Z → Z) (rev_ws : list Z) : list Z :=
  match n with
  | O => reverse rev_ws
  | S n => extend n step (step rev_ws :: rev_ws)
  end.

Definition word_at (rev_ws : list Z) (i : nat) : Z := nth (i - 1) rev_ws 0.

(** ** SHA-1 *)

Definition sha1_schedule (block : list Z) : list Z :=
  extend 64 (λ r, rotl 1 (Z.lxor (Z.lxor (word_at r 3) (word_at r 8))
                                 (Z.lxor (word_at r 14) (word_at r 16)))) (reverse block).

Definition sha1_f (t : nat) (b c d : Z) : Z * Z :=
  if (t <? 20)%nat then (Z.lor (Z.land b c) (Z.land (not32 b) d), 1518500249)
  else if (t <? 40)%nat then (Z.lxor b (Z.lxor c d), 1859775393)
  else if (t <? 60)%nat then
    (Z.lor (Z.land b c) (Z.lor (Z.land b d) (Z.land c d)), 2400959708)
  else (Z.lxor b (Z.lxor c d), 3395469782).

Definition sha1_round (st : Z * Z * Z * Z * Z) (tw : nat * Z) : Z * Z * Z * Z * Z :=
  let '(a, b, c, d, e) := st in
  let '(t, w) := tw in
  let '(f, k) := sha1_f t b c d in
  (w32 (rotl 5 a + f + e + k + w), a, rotl 30 b, c, d).

Definition sha1_block (h : Z * Z * Z * Z * Z) (block : list Z) : Z * Z * Z * Z * Z :=
  let ws := sha1_schedule block in
  let '(a, b, c, d, e) := foldl sha1_round h (zip (seq 0 80) ws) in
  let '(h0, h1, h2, h3, h4) := h in
  (w32 (h0 + a), w32 (h1 + b), w32 (h2 + c), w32 (h3 + d), w32 (h4 + e)).

Definition sha1 (msg : list Z) : list Z :=
  let '(a, b, c, d, e) :=
    foldl sha1_block (1732584193, 4023233417, 2562383102, 271733878, 3285377520) (blocks msg) in
  mjoin (be_bytes 4 <$> [a; b; c; d; e]).

(** ** SHA-256 *)

Definition sha256_k : list Z :=
  [1116352408; 1899447441; 3049323471; 3921009573; 961987163; 1508970993; 2453635748; 2870763221;
   3624381080; 310598401; 607225278; 1426881987; 1925078388; 2162078206; 2614888103; 3248222580;
   3835390401; 4022224774; 264347078; 604807628; 770255983; 1249150122; 1555081692; 1996064986;
   2554220882; 2821834349; 2952996808; 3210313671; 3336571891; 3584528711; 113926993; 338241895;
   666307205; 773529912; 1294757372; 1396182291; 1695183700; 1986661051; 2177026350; 2456956037;
   2730485921; 2820302411; 3259730800; 3345764771; 3516065817; 3600352804; 4094571909; 275423344;
   430227734; 506948616; 659060556; 883997877; 958139571; 1322822218; 1537002063; 1747873779;
   1955562222; 2024104815; 2227730452; 2361852424; 2428436474; 2756734187; 3204031479; 3329325298].

Definition sha256_schedule (block : list Z) : list Z :=
  extend 48 (λ r,
    let w15 := word_at r 15 in let w2 := word_at r 2 in
    let s0 := Z.lxor (rotr 7 w15) (Z.lxor (rotr 18 w15) (Z.shiftr w15 3)) in
    let s1 := Z.lxor (rotr 17 w2) (Z.lxor (rotr 19 w2) (Z.shiftr w2 10)) in
    w32 (word_at r 16 + s0 + word_at r 7 + s1)) (reverse block).

Definition sha256_round (st : list Z) (kw : Z * Z) : list Z :=
  match st with
  | [a; b; c; d; e; f; g; h] =>
      let s1 := Z.lxor (rotr 6 e) (Z.lxor (rotr 11 e) (rotr 25 e)) in
      let ch := Z.lxor (Z.land e f) (Z.land (not32 e) g) in
      let t1 := h + s1 + ch + kw.1 + kw.2 in
      let s0 := Z.lxor (rotr 2 a) (Z.lxor (rotr 13 a) (rotr 22 a)) in
      let maj := Z.lxor (Z.land a b) (Z.lxor (Z.land a c) (Z.land b c)) in
      [w32 (t1 + s0 + maj); a; b; c; w32 (d + t1); e; f; g]
  | _ => st
  end.

Definition sha256_block (h : list Z) (block : list Z) : list Z :=
  zip_with (λ x y, w32 (x + y)) h
    (foldl sha256_round h (zip sha256_k (sha256_schedule block))).

Definition sha256 (msg : list Z) : list Z :=
  mjoin (be_bytes 4 <$> foldl sha256_block
    [1779033703; 3144134277; 1013904242; 2773480762; 1359893119; 2600822924; 528734635; 1541459225]
    (blocks msg)).

(** ** Text *)

Definition hex_digit (n : Z) : Ascii.ascii :=
  ascii_of_N (Z.to_N (if n <? 10 then n + 48 else n + 87)).
Definition hex_byte (b : Z) : list Ascii.ascii := [hex_digit (b / 16); hex_digit (b mod 16)].
Definition hexdigest (l : list Z) : string := of_chars (mjoin (hex_byte <$> l)).

(** [s.encode("utf-8")] of an ASCII string. *)
Definition encode (s : string) : list Z := ascii_code <$> chars s.

(** ** [str(uuid.uuid5(namespace, name))] *)

(** Positions 6 and 8 of the digest carry the version and the variant. *)
Definition set_version (l : list Z) : list Z :=
  imap (λ i b, if (i =? 6)%nat then Z.lor (Z.land b 15) 80
               else if (i =? 8)%nat then Z.lor (Z.land b 63) 128 else b) l.

Definition uuid_str (l : list Z) : string :=
  let h := mjoin (hex_byte <$> l) in
  of_chars (take 8 h ++ "-"%char :: take 4 (drop 8 h) ++ "-"%char :: take 4 (drop 12 h) ++
            "-"%char :: take 4 (drop 16 h) ++ "-"%char :: drop 20 h).

Definition uuid5 (namespace : list Z) (name : string) : string :=
  uuid_str (set_version (take 16 (sha1 (namespace ++ encode name)))).

(** UUID 6ba7b810-9dad-11d1-80b4-00c04fd430c8. *)
Definition NAMESPACE_DNS : list Z :=
  [107; 167; 184; 16; 157; 173; 17; 209; 128; 180; 0; 192; 79; 212; 48; 200].

Lemma uuid5_nonempty ns name : str_empty (uuid5 ns name) = false.
Proof.
  unfold uuid5, uuid_str, str_empty. apply String.eqb_neq. intros H.
  apply (f_equal chars) in H. rewrite chars_of_chars in H. by destruct (take 8 _).
Qed.

(** ** The shape of a digest *)

Definition is_hex (c : Ascii.ascii) : bool :=
  str_in (of_chars [c]) ((λ c, of_chars [c]) <$> chars "0123456789abcdef").

(** [_is_sha256]. *)
Definition is_sha256 (value : string) : bool :=
  (length (chars value) =? 64)%nat && forallb is_hex (chars value).

Definition byte (b : Z) : Prop := 0 <= b < 256.

Lemma be_bytes_spec k n : length (be_bytes k n) = k ∧ Forall byte (be_bytes k n).
Proof.
  induction k as [|k [IHl IHb]]; cbn [be_bytes length]; [by split; [|constructor]|].
  split; [by rewrite IHl|]. constructor; [|done]. change 255 with (Z.ones 8). rewrite Z.land_ones by lia.
  apply Z.mod_pos_bound. lia.
Qed.

Lemma mjoin_be_bytes k l :
  length (mjoin (be_bytes k <$> l)) = (k * length l)%nat ∧ Forall byte (mjoin (be_bytes k <$> l)).
Proof.
  induction l as [|x l [IHl IHb]]; [split; [cbn; lia|constructor]|].
  change (mjoin (be_bytes k <$> x :: l)) with (be_bytes k x ++ mjoin (be_bytes k <$> l)).
  destruct (be_bytes_spec k x) as [Hl Hb]. rewrite length_app, Hl, IHl. cbn. split; [lia|by apply Forall_app].
Qed.

Lemma sha256_rounds_length st kws : length st = 8%nat → length (foldl sha256_round st kws) = 8%nat.
Proof.
  revert st; induction kws as [|kw kws IH]; intros st Hst; cbn; [done|]. apply IH.
  unfold sha256_round. do 8 (destruct st as [|? st]; [done|]). by destruct st.
Qed.

Lemma sha256_shape msg : length (sha256 msg) = 32%nat ∧ Forall byte (sha256 msg).
Proof.
  unfold sha256. set (h0 := [_; _; _; _; _; _; _; _]).
  assert (Hl : ∀ bs h, length h = 8%nat → length (foldl sha256_block h bs) = 8%nat).
  { induction bs as [|b bs IH]; intros h Hh; cbn; [done|]. apply IH. unfold sha256_block.
    rewrite length_zip_with, sha256_rounds_length, Hh by done. done. }
  destruct (mjoin_be_bytes 4 (foldl sha256_block h0 (blocks msg))) as [H1 H2].
  split; [|done]. by rewrite H1, Hl.
Qed.

Lemma hex_digit_is_hex n : 0 <= n < 16 → is_hex (hex_digit n) = true.
Proof.
  intros Hn. assert (Hc : Forall (λ n, is_hex (hex_digit n) = true) (seqZ 0 16)).
  { by repeat constructor. }
  rewrite Forall_forall in Hc. apply Hc, elem_of_seqZ. lia.
Qed.

Lemma hexdigest_shape l :
  Forall byte l →
  length (chars (hexdigest l)) = (2 * length l)%nat ∧ forallb is_hex (chars (hexdigest l)) = true.
Proof.
  unfold hexdigest. rewrite chars_of_chars. induction 1 as [|b l Hb _ [IHl IHh]]; [done|].
  change (mjoin (hex_byte <$> b :: l)) with (hex_byte b ++ mjoin (hex_byte <$> l)).
  rewrite length_app, IHl, List.forallb_app, IHh. split; [cbn; lia|]. unfold byte in Hb.
  cbn [hex_byte forallb]. rewrite !hex_digit_is_hex by (Z.to_euclidean_division_equations; lia). done.
Qed.

(** A digest in hexadecimal passes [_is_sha256]. *)
Lemma sha256_is_sha256 msg : is_sha256 (hexdigest (sha256 msg)) = true.
Proof.
  destruct (sha256_shape msg) as [Hl Hb]. destruct (hexdigest_shape _ Hb) as [H1 H2].
  unfold is_sha256. by rewrite H1, Hl, H2.
Qed.

Example sha1_abc : hexdigest (sha1 (encode "abc")) = "a9993e364706816aba3e25717850c26c9cd0d89d".
Proof. by vm_compute. Qed.
Example sha256_abc :
  hexdigest (sha256 (encode "abc")) =
  "ba7816bf8f01cfea414140de5dae2223b00361a396177a9cb410ff61f20015ad".
Proof. by vm_compute. Qed.
Example sha256_long :
  hexdigest (sha256 (encode (of_chars (replicate 200 "x"%char)))) =
  "aa20c23e3201834050679e1d88941b9a6fed0557c9a705cb2c315e2e63fd486d".
Proof. by vm_compute. Qed.
Example uuid5_obligation :
  uuid5 NAMESPACE_DNS "receipt_split:calc_001:0" = "ab21462e-e40f-5721-b4f0-4626ae48d0ad".
Proof. by vm_compute. Qed.
