(* ===== verification/Money.v ===== *)
(** * The Money Contract ([finance_core/money.py])

    Currency normalization, the authoritative Decimal conversion, the
    minor-unit scale check, explicit quantization, sign policies, canonical
    serialization, and the [Money] value object. *)

From Stdlib Require Import Ascii ZArith QArith Qabs Qpower Lqa Lia.
From stdpp Require Import base sets strings sorting numbers list.
From S2P Require Import Prelude PyDecimal PyValue.

Open Scope Z_scope.

(** ** Constants *)

Definition MONEY_QUANTUM : fdec := mkdec false 1 (-2).
Definition ZERO : fdec := mkdec false 0 (-2).

(** ** The currency registry *)

Definition SUPPORTED_CURRENCY_MINOR_UNITS : pydict Z :=
  [("SGD", 2); ("USD", 2); ("EUR", 2); ("GBP", 2); ("AUD", 2); ("CNY", 2); ("HKD", 2); ("JPY", 0)].

Definition SUPPORTED_CURRENCIES : list string := dict_keys SUPPORTED_CURRENCY_MINOR_UNITS.

Definition normalize_currency (raw : pyval) : result string :=
  match raw with
  | VStr s =>
      let normalized := py_upper (py_strip s) in
      raise_when (str_empty normalized) MoneyValidationError "empty currency";;
      raise_when (negb (String.length normalized =? 3)%nat) MoneyValidationError "currency length";;
      raise_when (negb (py_isalpha normalized)) MoneyValidationError "currency letters";;
      raise_when (negb (str_in normalized SUPPORTED_CURRENCIES)) MoneyValidationError
        "unsupported currency";;
      Ok normalized
  | _ => raise MoneyValidationError "currency is not a string"
  end.

Definition minor_units (currency : string) : result Z :=
  normalized ← normalize_currency (VStr currency);
  dict_index normalized SUPPORTED_CURRENCY_MINOR_UNITS.

(** ** Authoritative Decimal conversion *)

(** [_SCIENTIFIC_RE.search]: a digit, an [e] or [E], an optional sign, a digit. *)
Definition scientific_at (l : list Ascii.ascii) : bool :=
  match l with
  | d :: e :: rest =>
      py_isdigit d && Ascii.eqb (lower_char e) "e"%char &&
      match rest with
      | c :: rest' =>
          py_isdigit c ||
          ((Ascii.eqb c "+"%char || Ascii.eqb c "-"%char) &&
           match rest' with c' :: _ => py_isdigit c' | [] => false end)
      | [] => false
      end
  | _ => false
  end.

Fixpoint scientific_search (l : list Ascii.ascii) : bool :=
  scientific_at l || match l with [] => false | _ :: l => scientific_search l end.

Definition looks_like_scientific (s : string) : bool := scientific_search (chars s).

Definition require_finite (d : decimal) : result fdec :=
  match d with
  | DFin d => Ok d
  | _ => raise MoneyValidationError "not finite"
  end.

Definition money_decimal (value : pyval) : result fdec :=
  match value with
  | VBool _ => raise MoneyValidationError "boolean"
  | VFloat _ => raise MoneyValidationError "float"
  | VNone => raise MoneyValidationError "None"
  | VDec d => require_finite d
  | VInt n => require_finite (DFin (dec_of_Z n))
  | VStr s =>
      let stripped := py_strip s in
      raise_when (str_empty stripped) MoneyValidationError "empty string";;
      raise_when (looks_like_scientific stripped) MoneyValidationError "scientific notation";;
      match decimal_of_string stripped with
      | Some d => require_finite d
      | None => raise MoneyValidationError "not a Decimal string"
      end
  | VList _ | VDict _ => raise MoneyValidationError "unsupported type"
  end.

(** ** Scale validation and quantization *)

Definition quantum_for_units (units : Z) : result fdec :=
  dec_pow (mkdec false 1 (-1)) (Z.to_nat units).

Definition validate_amount_for_currency (amount : fdec) (currency : string) : result fdec :=
  units ← minor_units currency;
  quantum ← quantum_for_units units;
  q ← quantize ROUND_HALF_EVEN amount quantum;
  if dec_eqb amount q then Ok amount
  else raise MoneyValidationError "precision beyond minor units".

Definition quantize_for_currency_with (rounding : rounding) (amount : fdec) (currency : string) :
    result fdec :=
  units ← minor_units currency;
  quantum ← quantum_for_units units;
  quantize rounding amount quantum.

(** The default rounding of [quantize_for_currency]. *)
Definition quantize_for_currency := quantize_for_currency_with ROUND_HALF_UP.

Definition quantum_for_currency (currency : string) : result fdec :=
  units ← minor_units currency;
  quantum_for_units units.

(** ** Sign policies *)

Inductive SignPolicy := ANY | NON_NEGATIVE | STRICTLY_POSITIVE.

Definition enforce (p : SignPolicy) (amount : fdec) : result fdec :=
  match p with
  | ANY => Ok amount
  | NON_NEGATIVE =>
      raise_when (dec_ltb amount ZERO) MoneyValidationError "must be non-negative";; Ok amount
  | STRICTLY_POSITIVE =>
      raise_when (dec_leb amount ZERO) MoneyValidationError "must be strictly positive";; Ok amount
  end.

(** ** Same-currency assertion *)

Definition require_same_currency (a b : pyval) : result unit :=
  a ← normalize_currency a;
  b ← normalize_currency b;
  raise_when (negb (String.eqb a b)) CurrencyMismatchError "currencies differ".

(** ** Canonical serialization *)

Definition MAX_CANONICAL_DECIMAL_CHARS : Z := 1048576.

(** Length of the zero run at the end of the coefficient. *)
Fixpoint leading_zeros (l : list Z) : nat :=
  match l with
  | d :: l => if d =? 0 then S (leading_zeros l) else O
  | [] => O
  end.
Definition trailing_zeros (digits : list Z) : nat := leading_zeros (reverse digits).

(** The length of the plain notation, computed before it is built. *)
Definition plain_length (negative : bool) (digits : list Z) (exp : Z) : Z :=
  let sign := if negative then 1 else 0 in
  let len := Z.of_nat (length digits) in
  if 0 <=? exp then sign + len + exp
  else if len <=? - exp then sign + 2 - exp
  else sign + len + 1.

(** The plain notation of [digits * 10 ** exp]. *)
Definition plain_chars (negative : bool) (digits : list Z) (exp : Z) : list Ascii.ascii :=
  let len := Z.of_nat (length digits) in
  let body := digit_char <$> digits in
  let body :=
    if 0 <? exp then body ++ replicate (Z.to_nat exp) "0"%char
    else if exp <? 0 then
      if len <=? - exp
      then "0"%char :: "."%char :: replicate (Z.to_nat (- exp - len)) "0"%char ++ body
      else take (Z.to_nat (len + exp)) body ++ "."%char :: drop (Z.to_nat (len + exp)) body
    else body in
  if negative then "-"%char :: body else body.

Definition canonical_decimal_chars (negative : bool) (digits : list Z) (exp : Z) :
    result (list Ascii.ascii) :=
  if forallb (λ d, d =? 0) digits then Ok ["0"%char]
  else
    let tz := trailing_zeros digits in
    let digits := take (length digits - tz) digits in
    let exp := exp + Z.of_nat tz in
    if MAX_CANONICAL_DECIMAL_CHARS <? plain_length negative digits exp then
      raise MoneyValidationError "exceeds maximum plain-decimal length"
    else Ok (plain_chars negative digits exp).

Definition canonical_decimal_str (amount : pyval) : result string :=
  match amount with
  | VDec (DFin d) => of_chars <$> canonical_decimal_chars (fsign d) (digits_of (zcoef d)) (fexp d)
  | VDec _ => raise MoneyValidationError "canonical_decimal_str: not finite"
  | _ => raise MoneyValidationError "canonical_decimal_str: not a Decimal"
  end.

Definition canonical_money_str (amount : pyval) (currency : string) : result string :=
  match amount with
  | VDec (DFin d) => dec_str <$> quantize_for_currency d currency
  | VDec _ => raise MoneyValidationError "canonical_money_str: not finite"
  | _ => raise MoneyValidationError "canonical_money_str: not a Decimal"
  end.

(** ** The [Money] value object *)

Record Money := MkMoney { amount : fdec; currency : string }.

(** The constructor runs [__post_init__]. *)
Definition Money_new (a c : pyval) : result Money :=
  a ← money_decimal a;
  c ← normalize_currency c;
  validate_amount_for_currency a c;;
  Ok (MkMoney a c).

Definition dec_val (d : fdec) : pyval := VDec (DFin d).

Definition Money_from_string (amount_str : string) (c : pyval) : result Money :=
  a ← money_decimal (VStr amount_str);
  Money_new (dec_val a) c.

Definition Money_zero (c : pyval) : result Money := Money_new (dec_val ZERO) c.

Definition Money_require_same_currency (self other : Money) : result unit :=
  raise_when (negb (String.eqb (currency self) (currency other))) CurrencyMismatchError
    "cross-currency operation".

Definition Money_eq (self other : Money) : bool :=
  dec_eqb (amount self) (amount other) && String.eqb (currency self) (currency other).

Definition Money_lt (self other : Money) : result bool :=
  Money_require_same_currency self other;; Ok (dec_ltb (amount self) (amount other)).

Definition Money_le (self other : Money) : result bool :=
  Money_require_same_currency self other;; Ok (dec_leb (amount self) (amount other)).

Definition Money_add (self other : Money) : result Money :=
  Money_require_same_currency self other;;
  s ← dec_add (amount self) (amount other);
  Money_new (dec_val s) (VStr (currency self)).

Definition Money_sub (self other : Money) : result Money :=
  Money_require_same_currency self other;;
  s ← dec_sub (amount self) (amount other);
  Money_new (dec_val s) (VStr (currency self)).

Definition Money_neg (self : Money) : result Money :=
  a ← dec_neg (amount self);
  Money_new (dec_val a) (VStr (currency self)).

Definition Money_abs (self : Money) : result Money :=
  a ← dec_abs (amount self);
  Money_new (dec_val a) (VStr (currency self)).

(** [self * scalar] for an [int] (a [bool] is one) or a [Decimal]. *)
Definition Money_mul (self : Money) (scalar : pyval) : result Money :=
  let by_fin s := (p ← dec_mul (amount self) s; Money_new (dec_val p) (VStr (currency self))) in
  match scalar with
  | VBool b => by_fin (dec_of_Z (if b then 1 else 0))
  | VInt n => by_fin (dec_of_Z n)
  | VDec (DFin s) => by_fin s
  | VDec (DInf s) =>
      if is_zero (amount self) then raise InvalidOperation "0 * Infinity"
      else Money_new (VDec (DInf (xorb s (fsign (amount self))))) (VStr (currency self))
  | VDec (DNaN s sig) =>
      if sig then raise InvalidOperation "sNaN"
      else Money_new (VDec (DNaN s false)) (VStr (currency self))
  | _ => raise TypeError "unsupported operand"
  end.

Definition Money_is_zero (self : Money) : bool := dec_eqb (amount self) ZERO.
Definition Money_is_positive (self : Money) : bool := dec_ltb ZERO (amount self).
Definition Money_is_negative (self : Money) : bool := dec_ltb (amount self) ZERO.
Definition Money_canonical_str (self : Money) : result string :=
  canonical_decimal_str (dec_val (amount self)).

(** * Properties *)

(** ** Currencies *)

Lemma normalize_currency_supported raw c :
  normalize_currency raw = Ok c → c ∈ SUPPORTED_CURRENCIES.
Proof.
  destruct raw; try done. cbn. intros H. inv_ok.
  apply negb_false_iff in E2. by apply bool_decide_eq_true in E2.
Qed.

Lemma normalize_supported_id c :
  c ∈ SUPPORTED_CURRENCIES → normalize_currency (VStr c) = Ok c.
Proof.
  cbv [SUPPORTED_CURRENCIES SUPPORTED_CURRENCY_MINOR_UNITS dict_keys fmap list_fmap fst].
  intros Hc. repeat (apply elem_of_cons in Hc as [->|Hc]; [by vm_compute|]).
  by apply elem_of_nil in Hc.
Qed.

Lemma minor_units_range c u : minor_units c = Ok u → u = 0 ∨ u = 2.
Proof.
  unfold minor_units. intros H. inv_ok. unfold dict_index in H.
  destruct (dict_get _ _) as [v|] eqn:Eg; [|done]. injection H as ->.
  apply dict_get_Some_mem in Eg.
  repeat (apply elem_of_cons in Eg as [[= _ ->]|Eg]; [by auto|]).
  by apply elem_of_nil in Eg.
Qed.

Lemma minor_units_sane c u : minor_units c = Ok u → sane_scale u.
Proof. intros [->| ->]%minor_units_range; unfold sane_scale; lia. Qed.

Lemma minor_units_normalized raw c :
  normalize_currency raw = Ok c → ∃ u, minor_units c = Ok u.
Proof.
  intros Hc%normalize_currency_supported. unfold minor_units.
  rewrite (normalize_supported_id c Hc). cbn.
  unfold dict_index. destruct (dict_get c _) eqn:E; [eauto|].
  apply dict_get_None in E. done.
Qed.

Lemma quantum_for_units_spec c u :
  minor_units c = Ok u → ∃ q, quantum_for_units u = Ok q ∧ fexp q = - u.
Proof.
  intros [->| ->]%minor_units_range; eexists; (split; [by vm_compute|done]).
Qed.

#[export] Hint Resolve minor_units_sane : fincore.

(** ** Quantization *)

Lemma quantize_for_currency_scale m c u d z :
  minor_units c = Ok u → at_scale u d z → fits z →
  quantize_for_currency_with m d c = Ok (mkdec (fsign d) (Z.abs z) (- u)).
Proof.
  intros Hu Hd Hz. unfold quantize_for_currency_with. rewrite Hu. cbn.
  destruct (quantum_for_units_spec c u Hu) as (q&->&Hq). cbn.
  by eapply quantize_scale; eauto with fincore.
Qed.

Lemma quantize_for_currency_val c u d z :
  minor_units c = Ok u → at_scale u d z → fits z →
  ∃ r, quantize_for_currency d c = Ok r ∧ at_scale u r z.
Proof.
  intros Hu Hd Hz. eexists; split; [by eapply quantize_for_currency_scale|].
  apply at_scale_quantized. left. by eapply at_scale_sign.
Qed.

Lemma quantize_for_currency_Ok m c d r :
  quantize_for_currency_with m d c = Ok r →
  ∃ u, minor_units c = Ok u ∧ r = rescale m d (- u) ∧
       at_scale u r (zint r) ∧ fits (zint r).
Proof.
  unfold quantize_for_currency_with. intros H. inv_ok.
  rename x into u, x0 into q. destruct (quantum_for_units_spec c u E) as (q'&Hq'&Hq).
  rewrite Hq' in E0. injection E0 as ->.
  pose proof (minor_units_sane _ _ E) as Hu.
  exists u. split; [done|]. split.
  - rewrite <- Hq. unfold sane_scale in Hu. eapply quantize_Ok; [lia|done].
  - by eapply quantize_on_grid.
Qed.

(** Rescaling to a smaller exponent is exact. *)
Lemma rescale_down_exact m d e : e <= fexp d → (dval (rescale m d e) == dval d)%Q.
Proof.
  intros He. rewrite (dval_at d e) by done. unfold dval.
  rewrite rescale_exp. apply Qmult_comp; [|done].
  unfold zint. rewrite rescale_sign, rescale_zcoef by done.
  destruct (fsign d); [|done]. by rewrite Z.mul_opp_l.
Qed.

(** Half-up rounding moves a number by at most half of the new unit. *)
Lemma rescale_half_up d e :
  (dval d - (1 # 2) * q10 e <= dval (rescale ROUND_HALF_UP d e) <= dval d + (1 # 2) * q10 e)%Q.
Proof.
  pose proof (q10_pos e). destruct (Z.le_gt_cases e (fexp d)) as [He|He].
  { rewrite rescale_down_exact by done. lra. }
  set (p := 10 ^ (e - fexp d)). assert (0 < p) as Hp by auto with fincore lia.
  pose proof (q10_pos (fexp d)) as Ht.
  assert (Hq : (q10 e == inject_Z p * q10 (fexp d))%Q).
  { replace e with ((e - fexp d) + fexp d) at 1 by lia. by rewrite q10_add, q10_Z by lia. }
  set (rq := round_quot ROUND_HALF_UP (fsign d) (zcoef d) p).
  assert (Hz : zint (rescale ROUND_HALF_UP d e) = if fsign d then - rq else rq).
  { unfold rescale. destruct (is_zero d) eqn:Ez.
    - unfold is_zero in Ez. apply Z.eqb_eq in Ez. rewrite zint_mkdec by lia.
      subst rq. rewrite Ez. pose proof (round_quot_exact ROUND_HALF_UP (fsign d) 0 p Hp) as Hr0.
      rewrite Z.mul_0_l in Hr0. by rewrite Hr0.
    - rewrite (proj2 (Z.leb_gt _ _)) by lia. rewrite zint_mkdec; [done|].
      pose proof (Z.div_pos (zcoef d) p (zcoef_nonneg d) Hp).
      destruct (round_quot_near ROUND_HALF_UP (fsign d) (zcoef d) p Hp); subst rq p; lia. }
  assert (Hb : (- inject_Z p * q10 (fexp d) <= 2 * (inject_Z (zcoef d) - inject_Z rq * inject_Z p) * q10 (fexp d)
                <= inject_Z p * q10 (fexp d))%Q).
  { assert (Hb : - p <= 2 * (zcoef d - rq * p) <= p)
      by (pose proof (round_quot_half_up (fsign d) (zcoef d) p Hp); subst rq; lia).
    destruct Hb as [Hb1 Hb2]. rewrite Zle_Qle in Hb1, Hb2.
    unfold Z.sub in Hb1, Hb2.
    repeat rewrite ?inject_Z_mult, ?inject_Z_plus, ?inject_Z_opp in Hb1.
    repeat rewrite ?inject_Z_mult, ?inject_Z_plus, ?inject_Z_opp in Hb2.
    change (inject_Z 2) with 2%Q in *.
    split; apply Qmult_le_compat_r; lra. }
  unfold dval. rewrite rescale_exp, Hz, Hq. unfold zint.
  destruct (fsign d); rewrite ?inject_Z_opp; lra.
Qed.

(** ** Scale validation *)

(** The amounts accepted for a currency are exactly the multiples of its
    minor unit that fit the 28 digits of the context. *)
Lemma validate_amount_iff c u d r :
  minor_units c = Ok u →
  validate_amount_for_currency d c = Ok r ↔ r = d ∧ ∃ z, at_scale u d z ∧ fits z.
Proof.
  intros Hu. unfold validate_amount_for_currency. rewrite Hu. cbn.
  destruct (quantum_for_units_spec c u Hu) as (q&->&Hq). cbn.
  pose proof (minor_units_sane _ _ Hu) as Hsane. split.
  - intros H. inv_ok. destruct (dec_eqb d x) eqn:Eq; [|done]. injection H as <-.
    split; [done|]. apply dec_eqb_eq in Eq.
    destruct (quantize_on_grid _ u d q x Hsane Hq E) as [Hgrid Hfit].
    exists (zint x). split; [|done]. unfold at_scale in *. by rewrite Eq.
  - intros [-> (z&Hz&Hfit)].
    destruct (quantize_scale_val ROUND_HALF_EVEN u d q z) as (x&->&Hx); [done..|].
    cbn. rewrite (dec_eqb_scale u d x z z Hz Hx), Z.eqb_refl. done.
Qed.

Lemma validate_amount_returns c d r :
  validate_amount_for_currency d c = Ok r →
  r = d ∧ ∃ u z, minor_units c = Ok u ∧ at_scale u d z ∧ fits z.
Proof.
  intros H. destruct (minor_units c) as [u|e] eqn:Hu;
    [|by unfold validate_amount_for_currency in H; rewrite Hu in H].
  destruct (proj1 (validate_amount_iff c u d r Hu) H) as [-> (z&Hz&Hf)]. eauto 6.
Qed.

Lemma at_scale_ZERO u : at_scale u ZERO 0.
Proof. unfold at_scale. change (dval ZERO) with (inject_Z 0 * q10 (-2))%Q. rewrite !Qmult_0_l. done. Qed.

Lemma dval_ZERO : (dval ZERO == 0)%Q.
Proof. done. Qed.

(** The only exception of [quantize] at a currency's quantum. *)
Lemma quantize_raises m d q e :
  -1000 <= fexp q <= 0 → quantize m d q = Raise e → exn_cls e = InvalidOperation.
Proof.
  intros Hq. unfold quantize, quantize_ctx. case_match; [by intros [= <-]|].
  destruct (is_zero d); [by rewrite fix_dec_id by (rewrite ?zcoef_mkdec; cbn; lia)|].
  do 3 (case_match; [by intros [= <-]|]). case_match eqn:Hnd; [by intros [= <-]|].
  apply Z.ltb_ge in Hnd. cbn in Hnd.
  apply ndigits_le in Hnd; [|auto with fincore|lia].
  by rewrite fix_dec_id by (rewrite ?rescale_exp; done).
Qed.

Lemma quantize_too_large m u d q z :
  sane_scale u → fexp q = - u → at_scale u d z → ¬ fits z →
  ∃ s, quantize m d q = Raise (Exn InvalidOperation s).
Proof.
  unfold sane_scale. intros Hu Hq Hd Hz. destruct (quantize m d q) as [r|[c s]] eqn:E.
  - destruct Hz. apply quantize_Ok in E as [-> Hc]; [|lia].
    rewrite Hq, (rescale_exact m d (- u) z Hd), zcoef_mkdec in Hc by lia. done.
  - exists s. apply quantize_raises in E; [|lia]. cbn in E. by subst c.
Qed.

(** ** Arithmetic of the value object *)

(** The invariant of [Money]: a supported currency, and an amount that is a
    multiple of its minor unit and fits the context. *)
Definition Money_wf (m : Money) : Prop :=
  currency m ∈ SUPPORTED_CURRENCIES ∧
  ∃ u z, minor_units (currency m) = Ok u ∧ at_scale u (amount m) z ∧ fits z.

Lemma Money_new_Ok a c m :
  Money_new a c = Ok m ↔
  money_decimal a = Ok (amount m) ∧ normalize_currency c = Ok (currency m) ∧ Money_wf m.
Proof.
  unfold Money_new. split.
  - intros H. inv_ok. cbn [amount currency]. split_and!; [done..|].
    destruct (validate_amount_returns _ _ _ E1) as [_ Hv].
    split; [by eapply normalize_currency_supported|done].
  - intros (Ha&Hc&_&u&z&Hu&Hz&Hf). rewrite Ha. step. rewrite Hc. step.
    rewrite (proj2 (validate_amount_iff _ u _ (amount m) Hu)) by eauto. by destruct m.
Qed.

(** A result [r] wrapped back in the operand's currency. *)
Lemma Money_rewrap self r m :
  Money_wf self → Money_new (dec_val r) (VStr (currency self)) = Ok m ↔
  m = MkMoney r (currency self) ∧ Money_wf m.
Proof.
  intros [Hc _]. rewrite Money_new_Ok, normalize_supported_id by done. cbn.
  destruct m as [a c]. cbn. split; [by intros ([= <-]&[= <-]&?)|by intros [[= -> ->] ?]].
Qed.

Lemma same_currency_Ok a b u :
  Money_require_same_currency a b = Ok u ↔ currency a = currency b.
Proof.
  unfold Money_require_same_currency. rewrite raise_when_Ok, negb_false_iff.
  apply String.eqb_eq.
Qed.

Lemma Money_add_exact a b m :
  Money_wf a → Money_wf b → Money_add a b = Ok m →
  Money_wf m ∧ currency m = currency a ∧ currency b = currency a ∧
  (dval (amount m) == dval (amount a) + dval (amount b))%Q.
Proof.
  intros Ha Hb H. unfold Money_add in H. inv_ok. rewrite same_currency_Ok in E.
  apply (Money_rewrap a x0 m Ha) in H as [-> Hm]. cbn [amount currency].
  split_and!; [done..|]. destruct Hm as (_&u&z&Hu&Hz&Hf). cbn [amount currency] in *.
  destruct Ha as (_&ua&za&Hua&Hza&_), Hb as (_&ub&zb&Hub&Hzb&_).
  rewrite <- E in Hub. assert (ua = u) as -> by congruence. assert (ub = u) as -> by congruence.
  assert (z = za + zb) as ->; [by eapply dec_add_fits; eauto with fincore|].
  unfold at_scale in *. rewrite Hz, Hza, Hzb, inject_Z_plus. ring.
Qed.

Lemma Money_sub_exact a b m :
  Money_wf a → Money_wf b → Money_sub a b = Ok m →
  Money_wf m ∧ currency m = currency a ∧ currency b = currency a ∧
  (dval (amount m) == dval (amount a) - dval (amount b))%Q.
Proof.
  intros Ha Hb H. unfold Money_sub in H. inv_ok. rewrite same_currency_Ok in E.
  apply (Money_rewrap a x0 m Ha) in H as [-> Hm]. cbn [amount currency].
  split_and!; [done..|]. destruct Hm as (_&u&z&Hu&Hz&Hf). cbn [amount currency] in *.
  destruct Ha as (_&ua&za&Hua&Hza&_), Hb as (_&ub&zb&Hub&Hzb&_).
  rewrite <- E in Hub. assert (ua = u) as -> by congruence. assert (ub = u) as -> by congruence.
  assert (z = za - zb) as ->; [by eapply dec_sub_fits; eauto with fincore|].
  unfold at_scale in *. rewrite Hz, Hza, Hzb. unfold Z.sub. rewrite inject_Z_plus, inject_Z_opp. ring.
Qed.

(** Within 28 digits the operations succeed. *)
Lemma Money_add_total a b u x y :
  Money_wf a → Money_wf b → currency a = currency b → minor_units (currency a) = Ok u →
  at_scale u (amount a) x → at_scale u (amount b) y → fits (x + y) →
  ∃ m, Money_add a b = Ok m.
Proof.
  intros Ha Hb Hc Hu Hx Hy Hf. unfold Money_add.
  rewrite (proj2 (same_currency_Ok a b tt) Hc). cbn.
  destruct (dec_add_scale u (minor_units_sane _ _ Hu) _ _ _ _ Hx Hy Hf) as (r&->&Hr). cbn.
  exists (MkMoney r (currency a)). apply Money_rewrap; [done|]. split; [done|].
  destruct Ha as [Ha _]. split; [done|]. cbn. eauto 6.
Qed.

(** * Claims *)

(** which amounts [validate_amount_for_currency] accepts.  An amount is
    returned unchanged exactly when it is a whole number of minor units with
    at most 28 digits; an on-grid amount with more digits raises
    [InvalidOperation]; and an amount off the grid is rejected. *)
Theorem validate_amount_classifies c u d :
  minor_units c = Ok u →
  (∀ z, at_scale u d z → fits z → validate_amount_for_currency d c = Ok d) ∧
  (∀ z, at_scale u d z → ¬ fits z →
     ∃ s, validate_amount_for_currency d c = Raise (Exn InvalidOperation s)) ∧
  ((∀ z, ¬ at_scale u d z) →
     ∃ e, validate_amount_for_currency d c = Raise e ∧
          (exn_cls e = MoneyValidationError ∨ exn_cls e = InvalidOperation)).
Proof.
  intros Hu. destruct (quantum_for_units_spec c u Hu) as (q&Hq&Hqe).
  pose proof (minor_units_sane _ _ Hu) as Hs. split_and!.
  - intros z Hz Hf. apply (validate_amount_iff c u); eauto.
  - intros z Hz Hf. unfold validate_amount_for_currency. rewrite Hu. cbn. rewrite Hq. cbn.
    destruct (quantize_too_large ROUND_HALF_EVEN u d q z) as (s&->); eauto.
  - intros Hoff. destruct (validate_amount_for_currency d c) as [r|e] eqn:E.
    { apply (validate_amount_iff c u) in E as (_&z&Hz&_); [|done]. by apply Hoff in Hz. }
    exists e. split; [done|]. unfold validate_amount_for_currency in E. rewrite Hu in E. cbn in E.
    rewrite Hq in E. cbn in E. destruct (quantize _ _ _) as [r|e'] eqn:Eq; cbn in E.
    + case_match; [done|]. injection E as <-. by left.
    + injection E as <-. right. unfold sane_scale in Hs. eapply quantize_raises; [|done]. lia.
Qed.

Lemma validate_amount_classifies_witness :
  minor_units "SGD" = Ok 2 ∧
  ∃ s, validate_amount_for_currency (mkdec false (10 ^ 28) (-2)) "SGD" = Raise (Exn InvalidOperation s).
Proof.
  split; [by vm_compute|].
  apply (proj1 (proj2 (validate_amount_classifies "SGD" 2 (mkdec false (10 ^ 28) (-2)) ltac:(by vm_compute)))
    (10 ^ 28)); [by vm_compute|lia].
Defined.

(** C25: explicit quantization.  A successful [quantize_for_currency] is a
    whole number of minor units at most half a minor unit away from the
    amount, quantizing it again changes nothing, and [validate_amount_for_currency]
    accepts it. *)
Theorem quantize_for_currency_nearest c d r :
  quantize_for_currency d c = Ok r →
  ∃ u, minor_units c = Ok u ∧ at_scale u r (zint r) ∧
    (Qabs (dval r - dval d) <= (1 # 2) * q10 (- u))%Q ∧
    quantize_for_currency r c = Ok r ∧ validate_amount_for_currency r c = Ok r.
Proof.
  intros H. destruct (quantize_for_currency_Ok _ _ _ _ H) as (u&Hu&Hr&Hs&Hf).
  exists u. split_and!; [done|done| | |].
  - pose proof (rescale_half_up d (- u)) as Hh. rewrite <- Hr in Hh.
    apply Qabs_Qle_condition. lra.
  - unfold quantize_for_currency. rewrite (quantize_for_currency_scale _ _ u r (zint r)) by done.
    rewrite zint_abs. f_equal. unfold mkdec, zcoef. rewrite N2Z.id.
    pose proof (rescale_exp ROUND_HALF_UP d (- u)) as He. rewrite <- Hr in He.
    rewrite <- He. by destruct r.
  - apply (validate_amount_iff c u); eauto.
Qed.

Lemma quantize_for_currency_nearest_witness :
  quantize_for_currency (mkdec false 10005 (-3)) "SGD" = Ok (mkdec false 1001 (-2)) ∧
  validate_amount_for_currency (mkdec false 1001 (-2)) "SGD" = Ok (mkdec false 1001 (-2)).
Proof.
  split; [by vm_compute|].
  destruct (quantize_for_currency_nearest "SGD" (mkdec false 10005 (-3)) (mkdec false 1001 (-2))
    ltac:(by vm_compute)) as (u&_&_&_&_&H). exact H.
Defined.

(** arithmetic on [Money] is exact and closed.  From well-formed operands
    a returned sum or difference is well-formed, in the same currency, and
    equal to the exact sum or difference: no rounding is ever hidden. *)
Theorem Money_arithmetic_exact a b m :
  Money_wf a → Money_wf b →
  (Money_add a b = Ok m →
     Money_wf m ∧ currency m = currency a ∧ currency b = currency a ∧
     (dval (amount m) == dval (amount a) + dval (amount b))%Q) ∧
  (Money_sub a b = Ok m →
     Money_wf m ∧ currency m = currency a ∧ currency b = currency a ∧
     (dval (amount m) == dval (amount a) - dval (amount b))%Q) ∧
  (currency a ≠ currency b →
     Money_add a b = raise CurrencyMismatchError "cross-currency operation" ∧
     Money_sub a b = raise CurrencyMismatchError "cross-currency operation") ∧
  (∀ u x y, currency a = currency b → minor_units (currency a) = Ok u →
     at_scale u (amount a) x → at_scale u (amount b) y → fits (x + y) →
     ∃ m, Money_add a b = Ok m).
Proof.
  intros Ha Hb. split_and!.
  - by apply Money_add_exact.
  - by apply Money_sub_exact.
  - intros Hc. unfold Money_add, Money_sub, Money_require_same_currency.
    apply String.eqb_neq in Hc as ->. done.
  - intros u x y. by apply Money_add_total.
Qed.

Lemma Money_arithmetic_exact_witness :
  let a := MkMoney (mkdec false 1234 (-2)) "SGD" in
  let b := MkMoney (mkdec false 5 (-1)) "SGD" in
  Money_add a b = Ok (MkMoney (mkdec false 1284 (-2)) "SGD") ∧
  Money_wf (MkMoney (mkdec false 1284 (-2)) "SGD").
Proof.
  cbv zeta. split; [by vm_compute|].
  refine (proj1 (proj1 (Money_arithmetic_exact (MkMoney (mkdec false 1234 (-2)) "SGD")
    (MkMoney (mkdec false 5 (-1)) "SGD") _ _ _) _)); [split|split|by vm_compute].
  - by apply (bool_decide_unpack _); vm_compute.
  - exists 2, 1234. by vm_compute.
  - by apply (bool_decide_unpack _); vm_compute.
  - exists 2, 50. by vm_compute.
Defined.
