(* ===== verification/MoneyText.v ===== *)
(** * Canonical text of amounts

    [canonical_decimal_str] depends only on the value of the Decimal, and
    [money_decimal] reads its output back to the same value: the canonical
    text is a faithful content address of a monetary value. *)

From Stdlib Require Import Ascii ZArith QArith Qabs Qpower Lqa Lia.
From stdpp Require Import base sets strings sorting numbers list.
From S2P Require Import Prelude PyDecimal PyValue Money.

Open Scope Z_scope.

Abbreviation digit d := (0 <= d < 10).

(** ** Digit lists *)

Lemma of_digits_app l k :
  of_digits (l ++ k) = of_digits l * 10 ^ Z.of_nat (length k) + of_digits k.
Proof.
  unfold of_digits. rewrite foldl_app. generalize (foldl (λ a d, 10 * a + d) 0 l) as a.
  induction k as [|d k IH] using rev_ind; intros a; cbn; [lia|].
  rewrite !foldl_app, IH, length_app. cbn.
  rewrite Nat2Z.inj_add, Z.pow_add_r by lia. lia.
Qed.

Lemma of_digits_cons d l : of_digits (d :: l) = d * 10 ^ Z.of_nat (length l) + of_digits l.
Proof. change (d :: l) with ([d] ++ l). by rewrite of_digits_app. Qed.

Lemma of_digits_zeros n : of_digits (replicate n 0) = 0.
Proof. induction n as [|n IH]; cbn [replicate]; [done|]. rewrite of_digits_cons, IH. lia. Qed.

Lemma of_digits_bound l : Forall (λ d, digit d) l → 0 <= of_digits l < 10 ^ Z.of_nat (length l).
Proof.
  induction 1 as [|d l Hd Hl IH]; [done|]. rewrite of_digits_cons. cbn [length].
  rewrite Nat2Z.inj_succ, Z.pow_succ_r by lia. nia.
Qed.

Lemma of_digits_inj_length l k :
  Forall (λ d, digit d) l → Forall (λ d, digit d) k → length l = length k →
  of_digits l = of_digits k → l = k.
Proof.
  intros Hl; revert k; induction Hl as [|d l Hd Hl IH]; intros [|d' k] Hk Hlen; try done.
  inversion Hk as [|?? Hd' Hk']; subst. injection Hlen as Hlen.
  rewrite !of_digits_cons, <- Hlen. intros Heq.
  pose proof (of_digits_bound l Hl). pose proof (of_digits_bound k Hk'). rewrite <- Hlen in *.
  assert (d = d') as -> by nia. f_equal. apply IH; [done..|lia].
Qed.

(** Without leading zeros, the value determines the digits. *)
Lemma of_digits_inj d l d' k :
  d ≠ 0 → d' ≠ 0 → Forall (λ d, digit d) (d :: l) → Forall (λ d, digit d) (d' :: k) →
  of_digits (d :: l) = of_digits (d' :: k) → d :: l = d' :: k.
Proof.
  intros Hd Hd' Hl Hk Heq. apply of_digits_inj_length; [done..| |done].
  pose proof (of_digits_bound _ Hl) as [_ Bl]. pose proof (of_digits_bound _ Hk) as [_ Bk].
  inversion Hl as [|?? Hdr Hl']; inversion Hk as [|?? Hdr' Hk']; subst.
  pose proof (of_digits_bound _ Hl') as [Cl _]. pose proof (of_digits_bound _ Hk') as [Ck _].
  pose proof (pow10_gt0 (Z.of_nat (length l)) ltac:(lia)).
  pose proof (pow10_gt0 (Z.of_nat (length k)) ltac:(lia)).
  assert (10 ^ Z.of_nat (length l) <= of_digits (d :: l)) by (rewrite of_digits_cons; nia).
  assert (10 ^ Z.of_nat (length k) <= of_digits (d' :: k)) by (rewrite of_digits_cons; nia).
  assert (Z.of_nat (length l) < Z.of_nat (length (d' :: k)))
    by (apply (Z.pow_lt_mono_r_iff 10); lia).
  assert (Z.of_nat (length k) < Z.of_nat (length (d :: l)))
    by (apply (Z.pow_lt_mono_r_iff 10); lia).
  cbn in *. lia.
Qed.

(** ** Trailing zeros *)

Lemma leading_zeros_split l :
  ∃ k, l = replicate (leading_zeros l) 0 ++ k ∧ match k with d :: _ => d ≠ 0 | [] => True end.
Proof.
  induction l as [|d l (k&Hl&Hk)]; cbn; [by exists []|].
  destruct (Z.eqb_spec d 0) as [->|Hd]; [|by exists (d :: l)].
  exists k. by rewrite Hl at 1.
Qed.

(** The stripped digits of a positive number. *)
Lemma stripped_digits c :
  0 < c →
  let ds := digits_of c in
  let ds' := take (length ds - trailing_zeros ds) ds in
  of_digits ds' * 10 ^ Z.of_nat (trailing_zeros ds) = c ∧ Forall (λ d, digit d) ds' ∧
  (∃ d k, ds' = d :: k ∧ d ≠ 0) ∧ of_digits ds' mod 10 ≠ 0.
Proof.
  intros Hc ds ds'. destruct (digits_of_spec c ltac:(lia)) as (Hv&Hf&_&Hhd&_). fold ds in Hv, Hf.
  destruct (Hhd ltac:(lia)) as (d0&k0&Hds&Hd0). fold ds in Hds. clear Hhd.
  destruct (leading_zeros_split (reverse ds)) as (k&Hrev&Hk).
  fold (trailing_zeros ds) in Hrev. set (tz := trailing_zeros ds) in *.
  assert (Hsplit : ds = reverse k ++ replicate tz 0).
  { rewrite <- (reverse_involutive ds), Hrev, reverse_app, reverse_replicate. done. }
  assert (Hds' : ds' = reverse k).
  { unfold ds'. rewrite Hsplit at 1 2. rewrite length_app, length_replicate.
    replace (length (reverse k) + tz - tz)%nat with (length (reverse k)) by lia.
    by rewrite take_app_length. }
  rewrite Hds'. rewrite Hsplit in Hv, Hf. apply Forall_app in Hf as [Hf _].
  rewrite of_digits_app, of_digits_zeros, length_replicate, Z.add_0_r in Hv.
  destruct k as [|d k]; [change (of_digits (reverse [])) with 0 in Hv; lia|].
  split_and!; [done|done| |].
  - rewrite Hsplit in Hds. destruct (reverse (d :: k)) as [|d1 k1] eqn:E.
    { apply (f_equal length) in E. by rewrite length_reverse in E. }
    exists d1, k1. split; [done|]. injection Hds. congruence.
  - rewrite reverse_cons in Hf |- *. apply Forall_app in Hf as [_ Hf].
    rewrite Forall_singleton in Hf. rewrite of_digits_app. cbn [length].
    change (10 ^ Z.of_nat 1) with 10. rewrite Z.add_comm, Z.mod_add by lia.
    change (of_digits [d]) with d. cbn beta in Hf.
    by rewrite Z.mod_small by lia.
Qed.

(** The stripped representation of a non-zero value is unique. *)
Lemma stripped_unique n1 e1 n2 e2 :
  n1 mod 10 ≠ 0 → n2 mod 10 ≠ 0 → (inject_Z n1 * q10 e1 == inject_Z n2 * q10 e2)%Q →
  n1 = n2 ∧ e1 = e2.
Proof.
  assert (Hlt : ∀ n1 e1 n2 e2, n1 mod 10 ≠ 0 →
            (inject_Z n1 * q10 e1 == inject_Z n2 * q10 e2)%Q → ¬ e1 < e2).
  { intros m1 f1 m2 f2 Hm Heq Hlt. apply Hm. apply scaled_eq in Heq; [|lia].
    replace (f2 - f1) with (Z.succ (f2 - f1 - 1)) in Heq by lia.
    rewrite Z.pow_succ_r in Heq by lia.
    replace m1 with (m2 * 10 ^ (f2 - f1 - 1) * 10) by lia. by apply Z.mod_mul. }
  intros H1 H2 Heq. pose proof (Hlt _ _ _ _ H1 Heq). symmetry in Heq.
  pose proof (Hlt _ _ _ _ H2 Heq). assert (e1 = e2) as -> by lia.
  apply scaled_eq in Heq; [|lia]. rewrite Z.sub_diag in Heq. lia.
Qed.

Lemma all_zero_digits c : 0 <= c → forallb (λ d, d =? 0) (digits_of c) = (c =? 0).
Proof.
  intros Hc. destruct (Z.eqb_spec c 0) as [->|Hne]; [done|].
  destruct (digits_of_spec c Hc) as (_&_&_&Hhd&_). destruct (Hhd Hne) as (d&k&->&Hd).
  cbn. by apply Z.eqb_neq in Hd as ->.
Qed.

Lemma same_sign a b :
  (dval a == dval b)%Q → 0 < zcoef a → fsign a = fsign b.
Proof.
  intros Heq Ha. assert (Hna : ¬ (dval a == 0)%Q).
  { rewrite <- is_zero_true. apply is_zero_zcoef in Ha. by rewrite Ha. }
  destruct (fsign a) eqn:Ea, (fsign b) eqn:Eb; try done; exfalso.
  - apply sign_nonpos in Ea. apply sign_nonneg in Eb. lra.
  - apply sign_nonneg in Ea. apply sign_nonpos in Eb. lra.
Qed.

(** Numerically equal Decimals serialize to the same text, whatever their
    exponents and trailing zeros. *)
Lemma canonical_decimal_value a b :
  (dval a == dval b)%Q →
  canonical_decimal_str (dec_val a) = canonical_decimal_str (dec_val b).
Proof.
  intros Heq. unfold canonical_decimal_str, dec_val. f_equal. unfold canonical_decimal_chars.
  rewrite !all_zero_digits by auto with fincore.
  assert (Hz : (zcoef a =? 0) = (zcoef b =? 0)).
  { change (is_zero a = is_zero b). apply eq_true_iff_eq. by rewrite !is_zero_true, Heq. }
  rewrite <- Hz. destruct (Z.eqb_spec (zcoef a) 0) as [|Hna]; [done|].
  symmetry in Hz. apply Z.eqb_neq in Hz as Hnb.
  pose proof (zcoef_nonneg a). pose proof (zcoef_nonneg b).
  destruct (stripped_digits (zcoef a) ltac:(lia)) as (Va&Fa&(da&ka&Ha&Hda)&Ma).
  destruct (stripped_digits (zcoef b) ltac:(lia)) as (Vb&Fb&(db&kb&Hb&Hdb)&Mb).
  set (dsa := take _ (digits_of (zcoef a))) in *. set (dsb := take _ (digits_of (zcoef b))) in *.
  set (ta := trailing_zeros (digits_of (zcoef a))) in *.
  set (tb := trailing_zeros (digits_of (zcoef b))) in *.
  assert (Hab : (inject_Z (of_digits dsa) * q10 (fexp a + Z.of_nat ta) ==
                 inject_Z (of_digits dsb) * q10 (fexp b + Z.of_nat tb))%Q).
  { rewrite (Z.add_comm (fexp a)), (Z.add_comm (fexp b)), <- !q10_shift, Va, Vb by lia.
    assert (Hs := same_sign a b Heq ltac:(lia)). unfold dval, zint in Heq. rewrite Hs in Heq.
    destruct (fsign b); [|done]. rewrite !inject_Z_opp in Heq. lra. }
  destruct (stripped_unique _ _ _ _ Ma Mb Hab) as [Hn He].
  rewrite (same_sign a b) by (done || lia). rewrite He.
  enough (dsa = dsb) as -> by done. rewrite Ha, Hb in *. by apply of_digits_inj.
Qed.

(** ** Reading the text back *)

Lemma digit_char_spec d :
  digit d →
  py_isdigit (digit_char d) = true ∧ char_digit (digit_char d) = d ∧
  py_isspace (digit_char d) = false ∧ Ascii.eqb (lower_char (digit_char d)) "e"%char = false ∧
  digit_char d ≠ "_"%char ∧ digit_char d ≠ "-"%char ∧ digit_char d ≠ "+"%char.
Proof.
  intros Hd.
  assert (d = 0 ∨ d = 1 ∨ d = 2 ∨ d = 3 ∨ d = 4 ∨ d = 5 ∨ d = 6 ∨ d = 7 ∨ d = 8 ∨ d = 9) as Hc by lia.
  destruct_or! Hc; subst d; by vm_compute.
Qed.

(** The characters of plain decimal notation. *)
Definition plain_char (c : Ascii.ascii) : Prop :=
  py_isspace c = false ∧ Ascii.eqb (lower_char c) "e"%char = false ∧ c ≠ "_"%char.

Lemma plain_digit d : digit d → plain_char (digit_char d).
Proof. intros Hd. destruct (digit_char_spec d Hd) as (_&_&?&?&?&_). by repeat split. Qed.

Lemma plain_digits ds : Forall (λ d, digit d) ds → Forall plain_char (digit_char <$> ds).
Proof. intros Hds. apply Forall_fmap. eapply Forall_impl; [done|]. apply plain_digit. Qed.

Lemma span_digits_app ds rest :
  Forall (λ d, digit d) ds → match rest with c :: _ => py_isdigit c = false | [] => True end →
  span_digits ((digit_char <$> ds) ++ rest) = (ds, rest).
Proof.
  intros Hds Hrest. induction Hds as [|d ds Hd Hds IH]; cbn.
  - destruct rest as [|c k]; cbn; [done|]. by rewrite Hrest.
  - destruct (digit_char_spec d Hd) as (->&->&_). by rewrite IH.
Qed.

(** Numbers of a few million digits are within the exponent limits. *)
Lemma plain_in_range s int frac :
  Forall (λ d, digit d) int → Forall (λ d, digit d) frac → int ≠ [] →
  Z.of_nat (length int + length frac) <= 3000000 →
  let d := mkdec s (of_digits (int ++ frac)) (0 - Z.of_nat (length frac)) in
  (min_etiny <=? fexp d) && (adjusted d <=? max_emax) = true.
Proof.
  intros Hi Hf Hne Hlen d.
  assert (Forall (λ d, digit d) (int ++ frac)) as Hif by by apply Forall_app.
  pose proof (of_digits_bound _ Hif) as [Hb0 Hb1]. rewrite length_app in Hb1.
  assert (ndigits (of_digits (int ++ frac)) <= Z.of_nat (length int + length frac)).
  { apply ndigits_le; [done| |done]. destruct int; [done|]. cbn. lia. }
  pose proof (ndigits_pos _ Hb0). unfold d, adjusted. rewrite zcoef_mkdec by done.
  cbn [fexp mkdec]. apply andb_true_iff; split; apply Z.leb_le; unfold min_etiny, max_emax; lia.
Qed.

(** A digit run with an optional fraction parses to its digits. *)
Lemma parse_plain s int frac dot :
  Forall (λ d, digit d) int → Forall (λ d, digit d) frac → int ≠ [] →
  (dot = true ∨ frac = []) →
  Z.of_nat (length int + length frac) <= 3000000 →
  parse_finite s ((digit_char <$> int) ++ (if dot : bool then "."%char :: (digit_char <$> frac) else [])) =
  Some (DFin (mkdec s (of_digits (int ++ frac)) (0 - Z.of_nat (length frac)))).
Proof.
  intros Hi Hf Hne Hdot Hlen. unfold parse_finite.
  rewrite span_digits_app; [|done|by destruct dot].
  assert (Hspan : span_digits (digit_char <$> frac) = (frac, [])).
  { rewrite <- (app_nil_r (digit_char <$> frac)). by apply span_digits_app. }
  pose proof (plain_in_range s int frac Hi Hf Hne Hlen) as Hr.
  assert (Hk : (if dot then (let (f, l) := span_digits (digit_char <$> frac) in (f, l))
                else ([], [])) = (frac, [])).
  { destruct dot; [by rewrite Hspan|]. by destruct Hdot as [| ->]. }
  destruct dot; [rewrite Hspan|]; [|injection Hk as <-].
  all: destruct int as [|d0 ds0]; [done|].
  all: cbn [app parse_exponent] in *; by rewrite Hr.
Qed.

Lemma take_sign_digit d l : digit d → take_sign (digit_char d :: l) = (false, digit_char d :: l).
Proof.
  intros Hd.
  assert (d = 0 ∨ d = 1 ∨ d = 2 ∨ d = 3 ∨ d = 4 ∨ d = 5 ∨ d = 6 ∨ d = 7 ∨ d = 8 ∨ d = 9) as Hc by lia.
  by destruct_or! Hc; subst d.
Qed.

Lemma scientific_search_plain l : Forall plain_char l → scientific_search l = false.
Proof.
  induction 1 as [|c l Hc Hl IH]; [done|]. cbn [scientific_search]. rewrite IH, orb_false_r.
  unfold scientific_at. destruct Hl as [|e l (_&He&_) _]; [done|].
  by rewrite He, andb_false_r.
Qed.

(** [money_decimal] on plain text reduces to the numeric grammar. *)
Lemma money_decimal_plain l d :
  Forall plain_char l → l ≠ [] →
  (let '(s, k) := take_sign l in parse_finite s k) = Some (DFin d) →
  money_decimal (VStr (of_chars l)) = Ok d.
Proof.
  intros Hl Hne Hp. unfold money_decimal.
  assert (Hstrip : py_strip (of_chars l) = of_chars l).
  { unfold py_strip. rewrite chars_of_chars, strip_chars_none; [done|].
    eapply Forall_impl; [done|]. by intros c (?&_). }
  rewrite Hstrip. unfold looks_like_scientific. rewrite chars_of_chars, scientific_search_plain by done.
  replace (str_empty (of_chars l)) with false by (by destruct l). cbn.
  unfold decimal_of_string. rewrite chars_of_chars, strip_chars_none.
  2:{ eapply Forall_impl; [done|]. by intros c (?&_). }
  rewrite filter_all by (eapply Forall_impl; [done|]; by intros c (_&_&?)).
  destruct (take_sign l) as [s k]. by rewrite Hp.
Qed.

(** The three layouts of the plain notation are digit runs with an optional
    fraction. *)
Lemma plain_chars_shape neg ds e :
  Forall (λ d, digit d) ds → ds ≠ [] →
  ∃ int frac (dot : bool),
    plain_chars neg ds e =
      (if neg then ["-"%char] else []) ++
      (digit_char <$> int) ++ (if dot then "."%char :: (digit_char <$> frac) else []) ∧
    Forall (λ d, digit d) int ∧ Forall (λ d, digit d) frac ∧ int ≠ [] ∧
    (dot = true ∨ frac = []) ∧
    Z.of_nat (length int + length frac) <= plain_length neg ds e ∧
    (inject_Z (of_digits (int ++ frac)) * q10 (0 - Z.of_nat (length frac)) ==
     inject_Z (of_digits ds) * q10 e)%Q.
Proof.
  intros Hds Hne. unfold plain_chars, plain_length.
  assert (Hz : ∀ n, Forall (λ d, digit d) (replicate n 0)) by (intros; apply Forall_replicate; lia).
  assert (Hr : ∀ n, digit_char <$> replicate n 0 = replicate n "0"%char) by (intros; by rewrite fmap_replicate).
  assert (Hsg : ∀ l, (if neg then "-"%char :: l else l) = (if neg then ["-"%char] else []) ++ l) by by destruct neg.
  assert (Hs : 0 <= (if neg then 1 else 0)) by by destruct neg.
  assert (Hl : (0 < length ds)%nat) by (destruct ds; [done|cbn; lia]).
  destruct (Z.ltb_spec 0 e) as [He|He]; [|destruct (Z.ltb_spec e 0) as [He'|He']].
  - exists (ds ++ replicate (Z.to_nat e) 0), [], false.
    rewrite (proj2 (Z.leb_le 0 e)), Hsg, fmap_app, Hr, !app_nil_r by lia. split_and!; [done|by apply Forall_app|done| |by right| |].
    + destruct ds; done.
    + rewrite length_app, length_replicate. cbn. lia.
    + rewrite of_digits_app, of_digits_zeros, length_replicate, Z.add_0_r, Z2Nat.id by lia.
      rewrite q10_shift by lia. cbn [length Z.of_nat]. by rewrite Z.sub_diag, Z.add_0_r.
  - rewrite (proj2 (Z.leb_gt 0 e)) by lia. destruct (Z.leb_spec (Z.of_nat (length ds)) (- e)) as [Hle|Hle].
    + exists [0], (replicate (Z.to_nat (- e - Z.of_nat (length ds))) 0 ++ ds), true.
      rewrite Hsg, fmap_app, Hr. split_and!; [done|repeat constructor; lia|by apply Forall_app|done|by left| |].
      * rewrite length_app, length_replicate. cbn. lia.
      * change ([0] ++ ?l) with (0 :: l). rewrite of_digits_cons, of_digits_app, of_digits_zeros.
        rewrite length_app, length_replicate, !Z.mul_0_l, !Z.add_0_l.
        by replace (0 - Z.of_nat (Z.to_nat (- e - Z.of_nat (length ds)) + length ds)) with e by lia.
    + exists (take (Z.to_nat (Z.of_nat (length ds) + e)) ds), (drop (Z.to_nat (Z.of_nat (length ds) + e)) ds), true.
      rewrite Hsg, fmap_take, fmap_drop, take_drop, length_take, length_drop.
      split_and!; [done|by apply Forall_take|by apply Forall_drop| |by left| |].
      * intros Ht. apply (f_equal length) in Ht. rewrite length_take in Ht. cbn in Ht. lia.
      * lia.
      * by replace (0 - _) with e by lia.
  - assert (e = 0) as -> by lia. exists ds, [], false.
    rewrite Hsg, !app_nil_r. split_and!; [done|done|done|done|by right|cbn; lia|done].
Qed.

Lemma plain_chars_plain neg int frac (dot : bool) :
  Forall (λ d, digit d) int → Forall (λ d, digit d) frac →
  Forall plain_char ((if neg : bool then ["-"%char] else []) ++
      (digit_char <$> int) ++ (if dot then "."%char :: (digit_char <$> frac) else [])).
Proof.
  intros Hi Hf. apply Forall_app; split; [by destruct neg; repeat constructor|].
  apply Forall_app; split; [by apply plain_digits|].
  destruct dot; [|done]. constructor; [done|by apply plain_digits].
Qed.

(** Plain notation read by [money_decimal]. *)
Lemma money_decimal_plain_chars neg ds e :
  Forall (λ d, digit d) ds → ds ≠ [] → plain_length neg ds e <= 3000000 →
  ∃ d, money_decimal (VStr (of_chars (plain_chars neg ds e))) = Ok d ∧
       (dval d == (if neg then - inject_Z (of_digits ds) else inject_Z (of_digits ds)) * q10 e)%Q.
Proof.
  intros Hds Hne Hlen.
  destruct (plain_chars_shape neg ds e Hds Hne) as (int&frac&dot&->&Hi&Hf&Hine&Hdot&Hl&Hv).
  eexists; split.
  - apply money_decimal_plain; [by apply plain_chars_plain|by destruct neg, int|].
    destruct int as [|d0 int']; [done|]. pose proof (Forall_inv Hi) as Hd0.
    destruct neg; [cbn [app take_sign]|rewrite app_nil_l; cbn [fmap list_fmap app]; rewrite take_sign_digit by done].
    all: apply (parse_plain _ (d0 :: int') frac dot); (done || lia).
  - pose proof (of_digits_bound (int ++ frac) ltac:(by apply Forall_app)) as [Hn _].
    rewrite dval_mkdec by done. destruct neg; [|done].
    rewrite inject_Z_opp. lra.
Qed.

(** ** The canonical text is a content address *)

(** Reading the canonical text back yields the same value. *)
Lemma canonical_roundtrip d s :
  canonical_decimal_str (dec_val d) = Ok s →
  ∃ d', money_decimal (VStr s) = Ok d' ∧ (dval d' == dval d)%Q.
Proof.
  unfold canonical_decimal_str, dec_val, canonical_decimal_chars.
  pose proof (zcoef_nonneg d) as Hc. rewrite all_zero_digits by done.
  destruct (Z.eqb_spec (zcoef d) 0) as [Hz|Hz].
  - intros [= <-]. exists (dec_of_Z 0). split; [done|].
    unfold dval at 2, zint. rewrite Hz, Z.opp_0. by destruct (fsign d).
  - destruct (stripped_digits (zcoef d) ltac:(lia)) as (Hv&Hf&(d0&k&Hk&_)&_).
    set (ds := take _ _) in *. set (tz := trailing_zeros _) in *.
    destruct (Z.ltb_spec MAX_CANONICAL_DECIMAL_CHARS (plain_length (fsign d) ds (fexp d + Z.of_nat tz)))
      as [|Hlen]; [done|]. intros [= <-].
    unfold MAX_CANONICAL_DECIMAL_CHARS in Hlen.
    destruct (money_decimal_plain_chars (fsign d) ds (fexp d + Z.of_nat tz)) as (d'&Hd'&Hval);
      [done|by rewrite Hk|lia|].
    exists d'. split; [done|]. rewrite Hval. unfold dval, zint.
    rewrite (Z.add_comm (fexp d)).
    pose proof (q10_shift (of_digits ds) (Z.of_nat tz) (fexp d) ltac:(lia)) as Hsh.
    rewrite Hv in Hsh. destruct (fsign d); [rewrite inject_Z_opp|]; lra.
Qed.

(** * Claims *)

(** canonical text identifies values.  Two finite Decimals with a
    canonical text have the same text exactly when they are numerically
    equal, whatever their exponents, signs of zero and trailing zeros. *)
Theorem canonical_text_identifies_value a b s t :
  canonical_decimal_str (dec_val a) = Ok s → canonical_decimal_str (dec_val b) = Ok t →
  s = t ↔ (dval a == dval b)%Q.
Proof.
  intros Ha Hb. split.
  - intros <-. destruct (canonical_roundtrip a s Ha) as (d&Hd&<-).
    destruct (canonical_roundtrip b s Hb) as (d'&Hd'&<-). congruence.
  - intros Hv. apply canonical_decimal_value in Hv. congruence.
Qed.

Lemma canonical_text_identifies_value_witness :
  canonical_decimal_str (dec_val (mkdec false 1050 (-2))) = Ok "10.5" ∧
  (dval (mkdec false 1050 (-2)) == dval (mkdec false 105 (-1)))%Q.
Proof.
  split; [by vm_compute|].
  by apply (proj1 (canonical_text_identifies_value (mkdec false 1050 (-2)) (mkdec false 105 (-1))
    "10.5" "10.5" ltac:(by vm_compute) ltac:(by vm_compute))).
Defined.

(** the canonical text reads back.  [money_decimal] accepts every text
    [canonical_decimal_str] produces, returns the same value, and
    serializing that value again gives the same text. *)
Theorem canonical_text_roundtrip d s :
  canonical_decimal_str (dec_val d) = Ok s →
  ∃ d', money_decimal (VStr s) = Ok d' ∧ (dval d' == dval d)%Q ∧
        canonical_decimal_str (dec_val d') = Ok s.
Proof.
  intros Hs. destruct (canonical_roundtrip d s Hs) as (d'&Hd'&Hv). exists d'.
  split_and!; [done..|]. by rewrite (canonical_decimal_value _ _ Hv).
Qed.

Lemma canonical_text_roundtrip_witness :
  canonical_decimal_str (dec_val (mkdec true 1200 (-5))) = Ok "-0.012" ∧
  ∃ d', money_decimal (VStr "-0.012") = Ok d' ∧ (dval d' == dval (mkdec true 1200 (-5)))%Q.
Proof.
  split; [by vm_compute|].
  destruct (canonical_text_roundtrip (mkdec true 1200 (-5)) "-0.012" ltac:(by vm_compute))
    as (d'&H1&H2&_). by exists d'.
Defined.
