(* ===== verification/DecText.v ===== *)
(** * Texts of Decimals

    [Decimal(str(d))] is [d] again, with its sign, digits and exponent, for
    every finite Decimal within the exponents of the library. *)

From Stdlib Require Import Ascii ZArith Lia.
From stdpp Require Import base strings list.
From S2P Require Import Prelude PyDecimal MoneyText.

Open Scope Z_scope.

(** The exponents Python accepts in a text. *)
Definition dec_readable (d : fdec) : bool := (min_etiny <=? fexp d) && (adjusted d <=? max_emax).

Definition exponent_chars (x : Z) : list Ascii.ascii :=
  if x =? 0 then [] else "E"%char :: (if x <? 0 then [] else ["+"%char]) ++ int_chars x.

Lemma parse_exponent_chars x : parse_exponent (exponent_chars x) = Some x.
Proof.
  unfold exponent_chars. destruct (Z.eqb_spec x 0) as [->|Hx]; [done|]. cbn [parse_exponent].
  assert (Hsp : ∀ m, 0 <= m → span_digits (coef_chars m) = (digits_of m, []) ∧
                      of_digits (digits_of m) = m ∧ digits_of m ≠ []).
  { intros m Hm. destruct (digits_of_spec m Hm) as (Hv&Hd&Hne&_). split_and!; [|done|done].
    unfold coef_chars. rewrite <- (app_nil_r (digit_char <$> _)). by apply span_digits_app. }
  unfold int_chars. destruct (Z.ltb_spec x 0).
  - destruct (Hsp (- x) ltac:(lia)) as (Hs&Hv&Hne). change (Ascii.eqb (lower_char "E") "e") with true.
    cbn [app take_sign]. rewrite Hs. destruct (digits_of (- x)) eqn:E; [done|]. f_equal. lia.
  - destruct (Hsp x ltac:(lia)) as (Hs&Hv&Hne). change (Ascii.eqb (lower_char "E") "e") with true.
    cbn [app take_sign]. rewrite Hs. destruct (digits_of x) eqn:E; [done|]. by f_equal.
Qed.

(** Every text is a run of digits with an optional fraction and exponent. *)
Lemma dec_chars_shape d :
  ∃ int frac (dot : bool) x,
    dec_chars d = (if fsign d then ["-"%char] else []) ++ (digit_char <$> int) ++
                  (if dot then "."%char :: (digit_char <$> frac) else []) ++ exponent_chars x ∧
    Forall (λ d, digit d) int ∧ Forall (λ d, digit d) frac ∧ int ≠ [] ∧ (dot = true ∨ frac = []) ∧
    of_digits (int ++ frac) = zcoef d ∧ x - Z.of_nat (length frac) = fexp d.
Proof.
  destruct (digits_of_spec (zcoef d) (zcoef_nonneg d)) as (Hv&Hd&Hne&_).
  unfold dec_chars. set (ds := digits_of (zcoef d)) in *.
  assert (Hb : coef_chars (zcoef d) = digit_char <$> ds) by done. rewrite Hb, length_fmap.
  set (left := fexp d + Z.of_nat (length ds)).
  set (place := if _ && _ then left else 1).
  assert (Hlen : (0 < length ds)%nat) by (destruct ds; [done|cbn; lia]).
  assert (Hp : place = left ∧ fexp d <= 0 ∨ place = 1).
  { unfold place. destruct (Z.leb_spec (fexp d) 0); cbn; [|by right]. destruct (_ <? left); [by left|by right]. }
  assert (Hex : (if left =? place then [] else "E"%char :: (if left - place <? 0 then [] else ["+"%char])
                  ++ int_chars (left - place)) = exponent_chars (left - place)).
  { unfold exponent_chars. destruct (Z.eqb_spec left place), (Z.eqb_spec (left - place) 0); done || lia. }
  rewrite Hex. clear Hex. assert (Hl : left = fexp d + Z.of_nat (length ds)) by done. clearbody left place.
  assert (Hz : ∀ n, Forall (λ d, digit d) (replicate n 0)) by (intros; apply Forall_replicate; lia).
  destruct (Z.leb_spec place 0) as [Hp0|Hp0]; [|destruct (Z.leb_spec (Z.of_nat (length ds)) place) as [Hpl|Hpl]].
  - exists [0], (replicate (Z.to_nat (- place)) 0 ++ ds), true, (left - place).
    rewrite fmap_app, fmap_replicate. split_and!; [done|repeat constructor; lia|by apply Forall_app|done|by left| |].
    + change ([0] ++ ?l) with (0 :: l). by rewrite of_digits_cons, of_digits_app, of_digits_zeros, Z.mul_0_l, Z.mul_0_l.
    + rewrite length_app, length_replicate. lia.
  - exists ds, [], false, (left - place). assert (place - Z.of_nat (length ds) = 0) as -> by lia.
    split_and!; [by rewrite app_nil_r|done|done|done|by right|by rewrite app_nil_r|cbn; lia].
  - exists (take (Z.to_nat place) ds), (drop (Z.to_nat place) ds), true, (left - place).
    rewrite fmap_take, fmap_drop, take_drop, length_drop.
    split_and!; [by rewrite <- app_assoc|by apply Forall_take|by apply Forall_drop| |by left|done|lia].
    intros Ht. apply (f_equal length) in Ht. rewrite length_take in Ht. change (length []) with 0%nat in Ht. lia.
Qed.

Lemma dec_chars_plain_char int frac (neg dot : bool) x :
  Forall (λ d, digit d) int → Forall (λ d, digit d) frac →
  Forall (λ c, py_isspace c = false ∧ c ≠ "_"%char)
    ((if neg then ["-"%char] else []) ++ (digit_char <$> int) ++
     (if dot then "."%char :: (digit_char <$> frac) else []) ++ exponent_chars x).
Proof.
  intros Hi Hf.
  assert (Hd : ∀ ds, Forall (λ d, digit d) ds → Forall (λ c, py_isspace c = false ∧ c ≠ "_"%char) (digit_char <$> ds)).
  { intros ds H. apply Forall_fmap. eapply Forall_impl; [done|].
    intros d (_&_&?&_&?&_)%digit_char_spec. done. }
  assert (Hc : ∀ m, 0 <= m → Forall (λ c, py_isspace c = false ∧ c ≠ "_"%char) (coef_chars m)).
  { intros m Hm. apply Hd. by destruct (digits_of_spec m Hm) as (_&?&_). }
  repeat apply Forall_app_2; [by destruct neg; repeat constructor|by apply Hd| |].
  - destruct dot; [|done]. constructor; [done|by apply Hd].
  - unfold exponent_chars. destruct (x =? 0); [done|]. constructor; [done|].
    apply Forall_app_2; [by destruct (x <? 0); repeat constructor|].
    unfold int_chars. destruct (Z.ltb_spec x 0); [constructor; [done|]|]; apply Hc; lia.
Qed.

Lemma dec_str_read d : dec_readable d = true → decimal_of_string (dec_str d) = Some (DFin d).
Proof.
  intros Hr. destruct (dec_chars_shape d) as (int&frac&dot&x&Hc&Hi&Hf&Hne&Hdot&Hv&Hx).
  unfold decimal_of_string, dec_str. rewrite chars_of_chars, Hc.
  pose proof (dec_chars_plain_char int frac (fsign d) dot x Hi Hf) as Hp.
  rewrite strip_chars_none by (eapply Forall_impl; [exact Hp|]; by intros c [? _]).
  rewrite filter_all by (eapply Forall_impl; [exact Hp|]; by intros c [_ ?]).
  assert (Hs : take_sign ((if fsign d then ["-"%char] else []) ++ (digit_char <$> int) ++
      (if dot then "."%char :: (digit_char <$> frac) else []) ++ exponent_chars x) =
      (fsign d, (digit_char <$> int) ++ (if dot then "."%char :: (digit_char <$> frac) else []) ++ exponent_chars x)).
  { destruct (fsign d); [done|]. destruct int as [|i int]; [done|]. apply Forall_cons in Hi as [Hi _].
    by apply take_sign_digit. }
  rewrite Hs. enough (Hfin : parse_finite (fsign d) ((digit_char <$> int) ++
      (if dot then "."%char :: (digit_char <$> frac) else []) ++ exponent_chars x) = Some (DFin d)) by by rewrite Hfin.
  assert (Hex : match exponent_chars x with c :: _ => c = "E"%char | [] => True end).
  { unfold exponent_chars. by destruct (x =? 0). }
  unfold parse_finite. rewrite span_digits_app; [|done|].
  2:{ destruct dot; [done|]. cbn [app]. by destruct (exponent_chars x); [|subst]. }
  assert (Hfr : (match (if dot then "."%char :: (digit_char <$> frac) else []) ++ exponent_chars x with
                 | "."%char :: k => span_digits k
                 | _ => ([], (if dot then "."%char :: (digit_char <$> frac) else []) ++ exponent_chars x)
                 end) = (frac, exponent_chars x)).
  { destruct dot; cbn [app].
    - apply span_digits_app; [done|]. by destruct (exponent_chars x); [|subst].
    - destruct Hdot as [| ->]; [done|]. destruct (exponent_chars x) as [|c k]; [done|]. by subst. }
  rewrite Hfr. destruct (int ++ frac) as [|d0 ds] eqn:E; [by destruct int|]. rewrite <- E in *.
  rewrite parse_exponent_chars, Hv, Hx.
  assert (Hd : mkdec (fsign d) (zcoef d) (fexp d) = d).
  { destruct d as [s c e]. unfold mkdec, zcoef. cbn. by rewrite N2Z.id. }
  rewrite Hd. unfold dec_readable in Hr. by rewrite Hr.
Qed.
