(* ===== verification/Allocation.v ===== *)
(** * Minor-unit allocation
      ([finance_core/calculators/receipt_split_calculator.py], stages A and B)

    Stage A checks that exact shares reconcile with the authoritative total;
    stage B converts them to whole minor units of the currency and hands out
    the remainder, to the largest fractional parts or to the payer.

    Shares and totals are finite Decimals: arithmetic on finite Decimals
    either raises or returns a finite Decimal, so the source's [is_finite]
    guards hold by typing. *)

From Stdlib Require Import Ascii ZArith QArith Qabs Qround Qpower Lqa Lia.
From stdpp Require Import base sets strings sorting numbers list.
From S2P Require Import Prelude PyDecimal DecUnits PyValue Money.

Open Scope Z_scope.

(** ** Stage A *)

Definition STAGE_A_EPSILON : fdec := mkdec false 1 (-18).

Definition validate_exact_reconciliation (exact_shares : pydict fdec) (exact_total : fdec) :
    result unit :=
  exact_sum ← dec_sum ZERO (dict_values exact_shares);
  diff ← (d ← dec_sub exact_total exact_sum; dec_abs d);
  raise_when (dec_ltb STAGE_A_EPSILON diff) ValueError "shares do not equal net paid".

(** ** Stage B *)

Definition to_minor_units (value : fdec) (factor : Z) : result fdec :=
  dec_mul value (dec_of_Z factor).

(** [exact_shares.get(p, ZERO)]. *)
Definition share_of (exact_shares : pydict fdec) (p : string) : fdec :=
  match dict_get p exact_shares with Some s => s | None => ZERO end.

Definition is_payer_policy (policy : string) : bool := String.eqb policy "payer".
Definition is_largest_remainder (policy : string) : bool := String.eqb policy "largest_remainder".

Definition validate_allocator_inputs (exact_shares : pydict fdec) (exact_total : fdec)
    (currency : string) (participants : list string) (policy : string) (payer : option string) :
    result unit :=
  raise_when (match participants with [] => true | _ => false end) ValueError
    "at least one participant";;
  raise_when (has_duplicates participants) ValueError "duplicate participants";;
  raise_when (dec_ltb exact_total ZERO) MoneyValidationError "total must be non-negative";;
  validate_amount_for_currency exact_total currency;;
  forM_ participants (λ p,
    raise_when (dec_ltb (share_of exact_shares p) ZERO) MoneyValidationError
      "share must be non-negative");;
  raise_when (negb (is_largest_remainder policy || is_payer_policy policy)) ValueError
    "unsupported remainder_policy";;
  raise_when (is_payer_policy policy && match payer with None => true | Some _ => false end)
    ValueError "payer must be provided";;
  raise_when (is_payer_policy policy &&
              match payer with None => true | Some p => negb (str_in p participants) end)
    ValueError "payer is not a participant".

Definition validate_remainder_bounds (remaining participant_count : Z) (policy : string) :
    result unit :=
  if is_payer_policy policy then
    raise_when (participant_count <? Z.abs remaining) ValueError "payer remainder out of bounds"
  else
    raise_when (remaining <? 0) ValueError "floor sum exceeds total";;
    raise_when (participant_count <? remaining) ValueError "remaining exceeds participant count".

(** The base allocation of one participant, in minor units, and the fraction
    it leaves. *)
Definition base_allocation (policy : string) (share_units : fdec) : result (Z * fdec) :=
  let base :=
    if is_payer_policy policy
    then int_of_dec (to_integral_value ROUND_HALF_UP share_units)
    else int_of_dec share_units in
  remainder ← dec_sub share_units (dec_of_Z base);
  Ok (base, remainder).

Record bases := Bases {
  floors : pydict Z;
  remainders : pydict fdec;
  sum_floors : Z;
}.

(** One iteration of the loop over the participants. *)
Definition base_of (exact_shares : pydict fdec) (factor : Z) (policy : string) (p : string) :
    result (Z * fdec) :=
  share_units ← to_minor_units (share_of exact_shares p) factor;
  base_allocation policy share_units.

Definition base_step (exact_shares : pydict fdec) (factor : Z) (policy : string)
    (st : bases) (p : string) : result bases :=
  '(base, remainder) ← base_of exact_shares factor policy p;
  Ok (Bases (dict_set p base (floors st)) (dict_set p remainder (remainders st))
        (sum_floors st + base)).

Definition compute_bases (exact_shares : pydict fdec) (factor : Z) (policy : string)
    (participants : list string) : result bases :=
  foldM (base_step exact_shares factor policy) (Bases [] [] 0) participants.

(** [sorted(remainders.items(), key=lambda item: (-item[1], item[0]))]. *)
Definition rank_leb (a b : fdec * string) : bool :=
  if dec_eqb a.1 b.1 then String.leb a.2 b.2 else dec_leb a.1 b.1.

Definition ranked (remainders : pydict fdec) : result (list string) :=
  keys ← mapM (λ '(p, r), k ← dec_neg r; Ok (k, p)) remainders;
  Ok ((isort rank_leb keys).*2).

(** [floors[p] += k]. *)
Definition add_units (k : Z) (p : string) (fl : pydict Z) : result (pydict Z) :=
  n ← dict_index p fl;
  Ok (dict_set p (n + k) fl).

Definition distribute_ranked (remaining : Z) (rank : list string) (fl : pydict Z) :
    result (pydict Z) :=
  foldM (λ fl i,
    match rank !! i with
    | Some p => add_units 1 p fl
    | None => raise IndexError "ranked"
    end) fl (seq 0 (Z.to_nat remaining)).

Definition distribute_payer (remaining : Z) (payer : option string) (fl : pydict Z) :
    result (pydict Z) :=
  match payer with
  | None => raise ValueError "payer must be provided"
  | Some payer =>
      if remaining =? 0 then Ok fl
      else
        n ← dict_index payer fl;
        raise_when (n + remaining <? 0) ValueError "payer cannot absorb the remainder";;
        Ok (dict_set payer (n + remaining) fl)
  end.

Definition distribute (policy : string) (payer : option string) (remaining : Z)
    (b : bases) : result (pydict Z) :=
  if is_payer_policy policy then distribute_payer remaining payer (floors b)
  else if is_largest_remainder policy then
    rank ← ranked (remainders b);
    distribute_ranked remaining rank (floors b)
  else raise ValueError "unsupported remainder_policy".

(** [(Decimal(floors[p]) / Decimal(factor)).quantize(quantum)] for each
    participant. *)
Definition units_to_decimal (factor : Z) (quantum : fdec) (n : Z) : result fdec :=
  q ← dec_div (dec_of_Z n) (dec_of_Z factor);
  quantize ROUND_HALF_EVEN q quantum.

Definition build_allocation (fl : pydict Z) (factor : Z) (quantum : fdec)
    (participants : list string) : result (pydict fdec) :=
  foldM (λ acc p,
    n ← dict_index p fl;
    d ← units_to_decimal factor quantum n;
    Ok (dict_set p d acc)) [] participants.

Definition allocate_minor_units (exact_shares : pydict fdec) (exact_total : fdec)
    (currency : string) (participants : list string) (policy : string) (payer : option string) :
    result (pydict fdec) :=
  validate_allocator_inputs exact_shares exact_total currency participants policy payer;;
  units ← minor_units currency;
  let factor := 10 ^ units in
  quantum ← dec_pow (mkdec false 1 (-1)) (Z.to_nat units);
  total_units ← to_minor_units exact_total factor;
  b ← compute_bases exact_shares factor policy participants;
  let remaining := int_of_dec total_units - sum_floors b in
  validate_remainder_bounds remaining (Z.of_nat (length participants)) policy;;
  fl ← distribute policy payer remaining b;
  result ← build_allocation fl factor quantum participants;
  total ← dec_sum ZERO (dict_values result);
  raise_when (negb (dec_eqb total exact_total)) ValueError "allocation did not reconcile";;
  Ok result.

Example allocate_thirds :
  let third := mkdec false 3333333333333333333333333333 (-27) in
  allocate_minor_units [("c", third); ("a", third); ("b", third)] (mkdec false 1000 (-2)) "SGD"
    ["c"; "a"; "b"] "largest_remainder" None =
  Ok [("c", mkdec false 333 (-2)); ("a", mkdec false 334 (-2)); ("b", mkdec false 333 (-2))].
Proof. by vm_compute. Qed.

(** ** The loops of the allocator *)

Lemma compute_bases_tab shares factor policy ps B R :
  NoDup ps → (∀ p, p ∈ ps → base_of shares factor policy p = Ok (B p, R p)) →
  compute_bases shares factor policy ps =
  Ok (Bases (dict_tab B ps) (dict_tab R ps) (zsum (B <$> ps))).
Proof.
  intros Hnd HB. unfold compute_bases. induction ps as [|p ps IH] using rev_ind; [done|].
  apply NoDup_app in Hnd as (Hnd&Hdisj&_). rewrite foldM_app, IH; [|done|set_solver]. step.
  cbn [foldM]. unfold base_step. rewrite HB by set_solver. step. cbn [floors remainders sum_floors].
  assert (p ∉ ps) by (intros Hp; apply (Hdisj p Hp); left).
  rewrite !dict_tab_snoc by done. rewrite fmap_app, zsum_app. cbn. by rewrite Z.add_0_r.
Qed.

Lemma compute_bases_Ok shares factor policy ps st b p :
  foldM (base_step shares factor policy) st ps = Ok b → p ∈ ps →
  ∃ x, base_of shares factor policy p = Ok x.
Proof.
  revert st; induction ps as [|q ps IH]; intros st; cbn; [by intros _ ?%elem_of_nil|].
  intros (st'&(x&Hx&_)%bind_Ok&Hb)%bind_Ok [->|Hp]%elem_of_cons; [by eauto|by eapply IH].
Qed.

Lemma add_units_tab k f ps p :
  NoDup ps → p ∈ ps →
  add_units k p (dict_tab f ps) = Ok (dict_tab (λ q, f q + if String.eqb q p then k else 0) ps).
Proof.
  intros Hnd Hp. unfold add_units. rewrite dict_tab_index by done. step.
  rewrite dict_tab_set by done. f_equal. apply dict_tab_ext. intros q _.
  destruct (String.eqb_spec q p) as [->|]; lia.
Qed.

Lemma distribute_list_tab f ps T :
  NoDup ps → NoDup T → T ⊆ ps →
  foldM (λ fl p, add_units 1 p fl) (dict_tab f ps) T =
  Ok (dict_tab (λ p, f p + indicator T p) ps).
Proof.
  intros Hps. revert f; induction T as [|t T IH]; intros f HT Hsub; cbn [foldM].
  - f_equal. apply dict_tab_ext. intros p _. unfold indicator.
    rewrite bool_decide_false by set_solver. lia.
  - apply NoDup_cons in HT as [Ht HT]. rewrite add_units_tab by set_solver. step.
    rewrite IH by set_solver. f_equal. apply dict_tab_ext. intros p _.
    rewrite indicator_cons by done. destruct (String.eqb_spec p t) as [->|]; lia.
Qed.

(** The indexed loop over the ranking visits its first elements in order. *)
Lemma foldM_seq_lookup {A B} (g : B → A → result B) b l n (e : result B) :
  (n <= length l)%nat →
  foldM (λ b i, match l !! i with Some x => g b x | None => e end) b (seq 0 n) =
  foldM g b (take n l).
Proof.
  induction n as [|n IH]; intros Hn; [by rewrite take_0|].
  rewrite seq_S, foldM_app, IH by lia. cbn [foldM].
  destruct (lookup_lt_is_Some_2 l n ltac:(lia)) as [x Hx].
  rewrite (take_S_r _ _ _ Hx), foldM_app. cbn. by rewrite Hx.
Qed.

Lemma distribute_ranked_tab f ps rank n :
  NoDup ps → rank ≡ₚ ps → 0 <= n <= Z.of_nat (length ps) →
  distribute_ranked n rank (dict_tab f ps) =
  Ok (dict_tab (λ p, f p + indicator (take (Z.to_nat n) rank) p) ps).
Proof.
  intros Hps Hrank Hn. unfold distribute_ranked.
  rewrite foldM_seq_lookup by (rewrite Hrank; lia).
  assert (NoDup rank) as Hnd by by rewrite Hrank.
  apply distribute_list_tab; [done| |].
  - rewrite <- (take_drop (Z.to_nat n) rank) in Hnd. by apply NoDup_app in Hnd as (?&_).
  - intros p Hp. rewrite <- Hrank. rewrite <- (take_drop (Z.to_nat n) rank). set_solver.
Qed.

Lemma ranked_perm R ps rank : ranked (dict_tab R ps) = Ok rank → rank ≡ₚ ps.
Proof.
  unfold ranked. intros (keys&Hk&[= <-])%bind_Ok. rewrite isort_perm.
  apply mapM_Ok in Hk. enough (keys.*2 = ps) as -> by done.
  revert keys Hk. induction ps as [|p ps IH]; intros keys Hk; inversion Hk as [|? y ? k Hy Hk']; subst; cbn; [done|].
  inv_ok. cbn. f_equal. by apply IH.
Qed.

Lemma units_to_decimal_scaled u q n :
  sane_scale u → fexp q = - u → fits n → units_to_decimal (10 ^ u) q n = Ok (scaled u n).
Proof.
  intros Hu Hq Hn. unfold units_to_decimal.
  destruct (dec_div_pow10 u n Hu Hn) as (r&->&Hr&Hs). step.
  rewrite (quantize_scale _ u r q n Hu Hq Hr Hn). by rewrite Hs.
Qed.

Lemma build_allocation_tab f ps u q :
  sane_scale u → fexp q = - u → NoDup ps → (∀ p, p ∈ ps → fits (f p)) →
  build_allocation (dict_tab f ps) (10 ^ u) q ps = Ok (dict_tab (λ p, scaled u (f p)) ps).
Proof.
  intros Hu Hq Hps Hf. unfold build_allocation.
  rewrite <- (foldM_fill (λ p, n ← dict_index p (dict_tab f ps); units_to_decimal (10 ^ u) q n));
    [|done|].
  - assert (Hext : ∀ l d, foldM (λ acc p, n ← dict_index p (dict_tab f ps);
                d ← units_to_decimal (10 ^ u) q n; Ok (dict_set p d acc)) d l =
        foldM (λ d k, v ← (n ← dict_index k (dict_tab f ps); units_to_decimal (10 ^ u) q n);
                Ok (dict_set k v d)) d l); [|by rewrite Hext].
    induction l as [|p l IH]; intros d; cbn [foldM]; [done|].
    destruct (dict_index p _) as [n|]; step; [|done].
    destruct (units_to_decimal _ _ _); step; [apply IH|done].
  - intros p Hp. rewrite dict_tab_index by done. step. apply units_to_decimal_scaled; auto.
Qed.

(** Sums of scaled amounts. *)
Lemma dec_sum_scaled u f ps z :
  sane_scale u → (∀ p, p ∈ ps → 0 <= f p) → zsum (f <$> ps) = z → fits z →
  ∃ r, dec_sum ZERO ((λ p : string, scaled u (f p)) <$> ps) = Ok r ∧ at_scale u r z.
Proof.
  intros Hu Hf <- Hz.
  destruct (dec_sum_scale u Hu ((λ p, scaled u (f p)) <$> ps) (f <$> ps) ZERO 0) as (r&Hr&Hrv).
  - apply Forall2_fmap_l, Forall2_fmap_r, Forall_Forall2_diag, Forall_forall.
    intros p _. apply at_scale_scaled.
  - apply Forall_fmap, Forall_forall. exact Hf.
  - apply at_scale_ZERO.
  - lia.
  - done.
  - exists r. by rewrite Hr.
Qed.

(** ** Specification: largest remainder on exact rationals

    [v p] is the exact share of [p] in minor units.  Everyone gets the floor;
    the units left go, one each, to the largest fractions, ties to the
    smaller identifier. *)

Section LargestRemainder.
Context (v : string → Q) (total : Z).

Definition frac_part (p : string) : Q := (v p - inject_Z (Qfloor (v p)))%Q.

Definition lr_leb (p q : string) : bool :=
  if Qeq_bool (frac_part p) (frac_part q) then String.leb p q
  else Qle_bool (frac_part q) (frac_part p).

Definition lr_rank (ps : list string) : list string := isort lr_leb ps.

Definition lr_left (ps : list string) : Z :=
  total - zsum ((λ p, Qfloor (v p)) <$> ps).

Definition lr_units (ps : list string) (p : string) : Z :=
  Qfloor (v p) + indicator (take (Z.to_nat (lr_left ps)) (lr_rank ps)) p.

Lemma lr_leb_spec p q :
  lr_leb p q = true ↔
  (frac_part q < frac_part p)%Q ∨ (frac_part p == frac_part q)%Q ∧ String.leb p q = true.
Proof using Type.
  unfold lr_leb. destruct (Qeq_bool _ _) eqn:E.
  - apply Qeq_bool_iff in E. split; [by right|intros [H|[_ H]]; [lra|done]].
  - apply Qeq_bool_neq in E. rewrite Qle_bool_iff. split.
    + intros H. left. destruct (Qle_lt_or_eq _ _ H) as [?|He]; [done|].
      symmetry in He. done.
    + intros [H|[H _]]; [lra|done].
Qed.

Lemma lr_leb_total p q : lr_leb p q = true ∨ lr_leb q p = true.
Proof using Type.
  rewrite !lr_leb_spec. destruct (Q_dec (frac_part p) (frac_part q)) as [[H|H]|H]; [by eauto..|].
  destruct (str_leb_total p q); [left|right]; right; split; (done || by symmetry).
Qed.

Lemma lr_leb_trans p q r : lr_leb p q = true → lr_leb q r = true → lr_leb p r = true.
Proof using Type.
  rewrite !lr_leb_spec. intros [H|[H Hs]] [H'|[H' Hs']].
  1-3: left; lra. right. split; [by rewrite H|by eapply str_leb_trans].
Qed.

Lemma lr_leb_antisym p q : lr_leb p q = true → lr_leb q p = true → p = q.
Proof using Type.
  rewrite !lr_leb_spec. intros [H|[H Hs]] [H'|[H' Hs']]; try lra. by apply str_leb_antisym.
Qed.

(** The units left are at most one per participant when the shares add up
    to the total within less than one unit. *)
Lemma lr_left_bounds ps :
  (Qabs (qsum (v <$> ps) - inject_Z total) < 1)%Q → 0 <= lr_left ps <= Z.of_nat (length ps).
Proof using Type.
  intros Hsum. apply Qabs_Qlt_condition in Hsum as [Hlo Hhi].
  pose proof (qsum_floor_le v ps) as Hle. pose proof (qsum_floor_gt v ps) as Hgt.
  unfold lr_left. set (s := zsum _) in *.
  assert (inject_Z s < inject_Z (total + 1))%Q as H1
    by (rewrite inject_Z_plus; change (inject_Z 1) with 1%Q; lra).
  assert (inject_Z total < inject_Z (s + Z.of_nat (length ps) + 1))%Q as H2
    by (rewrite (inject_Z_plus _ 1); change (inject_Z 1) with 1%Q; lra).
  rewrite <- Zlt_Qlt in H1, H2. lia.
Qed.

Section Bounded.
Context (ps : list string) (Hnd : NoDup ps).
Context (Hleft : 0 <= lr_left ps <= Z.of_nat (length ps)).

Lemma lr_chosen_sub : take (Z.to_nat (lr_left ps)) (lr_rank ps) ⊆ ps.
Proof using Type.
  intros p Hp. apply (isort_elem_of lr_leb). fold (lr_rank ps).
  rewrite <- (take_drop (Z.to_nat (lr_left ps)) (lr_rank ps)).
  apply elem_of_app. by left.
Qed.

Lemma lr_rank_NoDup : NoDup (lr_rank ps).
Proof using Hnd. unfold lr_rank. by rewrite isort_perm. Qed.

Lemma lr_units_sum : zsum (lr_units ps <$> ps) = total.
Proof using Hnd Hleft.
  unfold lr_units. rewrite zsum_fmap_add, zsum_indicator; [|done| |apply lr_chosen_sub].
  - rewrite length_take. unfold lr_rank. rewrite isort_length. unfold lr_left in *. lia.
  - pose proof lr_rank_NoDup as H. rewrite <- (take_drop (Z.to_nat (lr_left ps))) in H.
    by apply NoDup_app in H as (?&_).
Qed.

(** Whoever received an extra unit ranks before whoever did not. *)
Lemma lr_units_fair p q :
  p ∈ ps → q ∈ ps → lr_units ps p = Qfloor (v p) + 1 → lr_units ps q = Qfloor (v q) →
  lr_leb p q = true.
Proof using Type.
  unfold lr_units, indicator. intros Hp Hq. set (n := Z.to_nat _).
  case_bool_decide as Hpt; [|lia]. case_bool_decide as Hqt; [lia|]. intros _ _.
  apply (isort_elem_of lr_leb) in Hq. fold (lr_rank ps) in Hq.
  pose proof (isort_ssorted lr_leb lr_leb_total lr_leb_trans ps) as Hs. fold (lr_rank ps) in Hs.
  rewrite <- (take_drop n (lr_rank ps)) in Hs, Hq. apply elem_of_app in Hq as [?|Hq]; [done|].
  apply Is_true_true. revert Hpt Hq Hs. generalize (take n (lr_rank ps)) as T, (drop n (lr_rank ps)) as D.
  induction T as [|t T IH]; intros D; [by intros ?%elem_of_nil|].
  intros [->|Hpt]%elem_of_cons Hq; cbn; intros [Hs Ht]%StronglySorted_inv.
  - rewrite Forall_forall in Ht. apply Ht. apply elem_of_app. by right.
  - by apply (IH D).
Qed.
End Bounded.

(** The allocation does not depend on the order of the participants. *)
Lemma lr_units_perm ps ps' p : ps ≡ₚ ps' → lr_units ps p = lr_units ps' p.
Proof using Type.
  intros Hp. unfold lr_units, lr_left, lr_rank. rewrite Hp at 1.
  rewrite (isort_unique lr_leb lr_leb_total lr_leb_trans ps ps'); [done| |done].
  intros x y _ _. apply lr_leb_antisym.
Qed.

Lemma lr_units_near ps p : Qfloor (v p) <= lr_units ps p <= Qfloor (v p) + 1.
Proof using Type. unfold lr_units, indicator. case_bool_decide; lia. Qed.
End LargestRemainder.

(** ** The allocator implements the specification *)

(** The exact share of [p] in minor units. *)
Definition exact_units (u : Z) (shares : pydict fdec) (p : string) : Q :=
  (dval (share_of shares p) * q10 u)%Q.

(** What the calculators guarantee before stage B: distinct participants, an
    authoritative total of [z] minor units, non-negative shares of ordinary
    magnitude. *)
Record allocator_pre (shares : pydict fdec) (total : fdec) (c : string) (ps : list string)
    (u z : Z) : Prop := {
  pre_units : minor_units c = Ok u;
  pre_nodup : NoDup ps;
  pre_nonempty : ps ≠ [];
  pre_total : at_scale u total z;
  pre_total_nonneg : 0 <= z;
  pre_total_fits : fits z;
  pre_short : ∀ p, p ∈ ps → short 1000 (share_of shares p);
  pre_nonneg : ∀ p, p ∈ ps → (0 <= dval (share_of shares p))%Q;
}.

Lemma allocator_pre_perm shares total c ps ps' u z :
  ps ≡ₚ ps' → allocator_pre shares total c ps u z → allocator_pre shares total c ps' u z.
Proof.
  intros Hp []. split; [done|by rewrite <- Hp| |done..| |].
  - intros ->. by apply Permutation_nil_r in Hp.
  - intros p. rewrite <- Hp. auto.
  - intros p. rewrite <- Hp. auto.
Qed.

Lemma to_minor_units_total u d z :
  sane_scale u → at_scale u d z → fits z →
  ∃ t, to_minor_units d (10 ^ u) = Ok t ∧ int_of_dec t = z.
Proof.
  unfold sane_scale. intros Hu Hd Hz.
  destruct (dec_mul_pow10 u u d) as (t&Ht&Hv&_); [by eapply at_scale_short; [lia|..]|lia..|].
  exists t. split; [done|]. apply int_of_dec_Z. unfold at_scale in Hd.
  rewrite Hv, Hd, <- Qmult_assoc, (Qmult_comm (q10 _)), q10_opp_mul. ring.
Qed.

(** The value a computation returned. *)
Definition ok_or {A} (d : A) (m : result A) : A := match m with Ok a => a | Raise _ => d end.

Section Refinement.
Context (shares : pydict fdec) (total : fdec) (c : string) (ps : list string) (u z : Z).
Context (Hpre : allocator_pre shares total c ps u z).

Abbreviation v := (exact_units u shares).

Lemma pre_sane : sane_scale u.
Proof using Hpre. destruct Hpre. eauto with fincore. Qed.

Lemma validate_inputs_Ok policy payer :
  policy = "largest_remainder" ∨
  policy = "payer" ∧ (∃ q, payer = Some q ∧ q ∈ ps) →
  validate_allocator_inputs shares total c ps policy payer = Ok tt.
Proof using Hpre.
  intros Hpol. destruct Hpre as [Hu Hnd Hne Ht Hz0 Hz _ Hnn]. unfold validate_allocator_inputs.
  rewrite (proj2 (has_duplicates_false ps) Hnd).
  destruct ps as [|p0 ps']; [done|]. step.
  rewrite (dec_ltb_scale u total ZERO z 0), (proj2 (Z.ltb_ge z 0)) by (done || apply at_scale_ZERO).
  step. rewrite (proj2 (validate_amount_iff c u total total Hu)) by eauto. step.
  rewrite (proj2 (forM_Ok _ _ tt)).
  2:{ apply Forall_forall. intros p Hp. apply raise_when_Ok, dec_ltb_ge.
      rewrite dval_ZERO. by apply Hnn. }
  destruct Hpol as [->|[-> (q&->&Hq)]]; cbn; [done|].
  unfold str_in. by rewrite bool_decide_true.
Qed.

Lemma share_units_spec p :
  p ∈ ps → ∃ s, to_minor_units (share_of shares p) (10 ^ u) = Ok s ∧
                (dval s == v p)%Q ∧ short 2000 s ∧ (0 <= dval s)%Q.
Proof using Hpre.
  intros Hp. pose proof pre_sane as Hu. unfold sane_scale in Hu.
  pose proof (pre_nonneg _ _ _ _ _ _ Hpre p Hp) as Hnn. pose proof (q10_pos u).
  destruct (dec_mul_pow10 1000 u (share_of shares p)) as (s&Hs&Hv&(x&k&Hx&Hf&Hk));
    [by eapply pre_short|lia..|].
  exists s. split_and!; [done|done| |rewrite Hv; nra].
  exists x, k. split_and!; [done|done|lia..].
Qed.

Lemma base_of_floor p :
  p ∈ ps → ∃ r, base_of shares (10 ^ u) "largest_remainder" p = Ok (Qfloor (v p), r) ∧
                (dval r == frac_part v p)%Q ∧ short 2000 r.
Proof using Hpre.
  intros Hp. destruct (share_units_spec p Hp) as (s&Hs&Hv&Hsh&Hnn).
  unfold base_of. rewrite Hs. step. unfold base_allocation. cbn [is_payer_policy String.eqb Ascii.eqb Bool.eqb].
  rewrite int_of_dec_floor by done.
  destruct (dec_sub_rounded 2000 s (Qfloor (dval s))) as (r&->&Hr&Hrs); [done|lia|done|by left|].
  step. assert (Hfl : Qfloor (dval s) = Qfloor (v p)) by by rewrite Hv.
  rewrite Hfl in Hr |- *. exists r. split_and!; [done| |done]. by rewrite Hr, Hv.
Qed.

Lemma base_of_half_up p :
  p ∈ ps → ∃ r, base_of shares (10 ^ u) "payer" p = Ok (Qfloor (v p + (1 # 2)), r).
Proof using Hpre.
  intros Hp. destruct (share_units_spec p Hp) as (s&Hs&Hv&Hsh&Hnn).
  unfold base_of. rewrite Hs. step. unfold base_allocation. cbn [is_payer_policy String.eqb Ascii.eqb Bool.eqb].
  rewrite half_up_floor by done.
  destruct (dec_sub_rounded 2000 s (Qfloor (dval s + (1 # 2)))) as (r&->&Hr&Hrs); [done|lia|done|by right|].
  step. exists r. by rewrite Hv.
Qed.

(** The ranking of the code is the ranking of the specification. *)
Lemma ranked_refines R :
  (∀ p, p ∈ ps → (dval (R p) == frac_part v p)%Q ∧ short 2000 (R p)) →
  ranked (dict_tab R ps) = Ok (lr_rank v ps).
Proof using Type.
  intros HR. unfold ranked. set (K := λ p, ok_or ZERO (dec_neg (R p))).
  assert (HK : ∀ p, p ∈ ps → dec_neg (R p) = Ok (K p) ∧ (dval (K p) == - frac_part v p)%Q).
  { intros p Hp. destruct (HR p Hp) as [Hv (x&k&Hx&Hf&Hk)].
    destruct (dec_neg_exact (R p)) as (n&Hn&Hnv); [by eapply (short_representable 2000); [lia|..]|].
    unfold K. rewrite Hn. cbn. by rewrite Hnv, Hv. }
  assert (Hm : mapM (λ '(p, r), k ← dec_neg r; Ok (k, p)) (dict_tab R ps) =
               Ok ((λ p, (K p, p)) <$> ps)).
  { apply mapM_Ok. unfold dict_tab. apply Forall2_fmap_l, Forall2_fmap_r, Forall_Forall2_diag, Forall_forall.
    intros p Hp. destruct (HK p Hp) as [Hn _]. unfold compose. by rewrite Hn. }
  rewrite Hm. step. rewrite (isort_fmap _ (lr_leb v)).
  - f_equal. rewrite <- list_fmap_compose. apply list_fmap_id.
  - intros p q Hp Hq. destruct (HK p Hp) as [_ Hp'], (HK q Hq) as [_ Hq'].
    apply eq_true_iff_eq. rewrite lr_leb_spec. unfold rank_leb. cbn [fst snd].
    destruct (dec_eqb (K p) (K q)) eqn:E; rewrite ?dec_leb_le.
    + apply dec_eqb_eq in E. rewrite Hp', Hq' in E. split; [intros; right; split; [lra|done]|].
      intros [?|[_ ?]]; [lra|done].
    + apply dec_eqb_ne in E. rewrite Hp', Hq' in *. split.
      * intros Hle. left. destruct (Qle_lt_or_eq _ _ Hle); [lra|done].
      * intros [?|[He _]]; [lra|]. destruct E. by rewrite He.
Qed.

(** The tail of the allocator: any distribution that adds up to the total
    is converted and passes the final reconciliation. *)
Lemma finish_allocation f q :
  fexp q = - u → (∀ p, p ∈ ps → 0 <= f p) → zsum (f <$> ps) = z →
  (result ← build_allocation (dict_tab f ps) (10 ^ u) q ps;
   t ← dec_sum ZERO (dict_values result);
   raise_when (negb (dec_eqb t total)) ValueError "allocation did not reconcile";;
   Ok result) = Ok (dict_tab (λ p, scaled u (f p)) ps).
Proof using Hpre.
  intros Hq Hf Hsum. pose proof pre_sane as Hu. destruct Hpre as [_ Hnd _ Ht _ Hz _ _].
  rewrite build_allocation_tab; [|done..|].
  - step. rewrite dict_tab_values.
    destruct (dec_sum_scaled u f ps z Hu Hf Hsum Hz) as (r&->&Hr). step.
    by rewrite (dec_eqb_scale u r total z z Hr Ht), Z.eqb_refl.
  - intros p Hp. pose proof (Hf p Hp).
    assert (f p <= z); [|lia]. rewrite <- Hsum. apply zsum_le_mem.
    + by apply Forall_fmap, Forall_forall.
    + apply list_elem_of_fmap. eauto.
Qed.

Lemma exact_units_nonneg p : p ∈ ps → 0 <= Qfloor (v p).
Proof using Hpre.
  intros Hp. pose proof (pre_nonneg _ _ _ _ _ _ Hpre p Hp). pose proof (q10_pos u).
  change 0 with (Qfloor (inject_Z 0)). apply Qfloor_resp_le. unfold exact_units.
  change (inject_Z 0) with 0%Q. nra.
Qed.

Lemma quantum_spec : ∃ q, dec_pow (mkdec false 1 (-1)) (Z.to_nat u) = Ok q ∧ fexp q = - u.
Proof using Hpre. destruct Hpre. by eapply quantum_for_units_spec. Qed.

Lemma allocate_largest_remainder payer :
  (Qabs (qsum (v <$> ps) - inject_Z z) < 1)%Q →
  allocate_minor_units shares total c ps "largest_remainder" payer =
  Ok (dict_tab (λ p, scaled u (lr_units v z ps p)) ps).
Proof using Hpre.
  intros Hsum. pose proof (lr_left_bounds v z ps Hsum) as Hleft.
  pose proof pre_sane as Hu. destruct quantum_spec as (q&Hq&Hqe).
  destruct Hpre as [Hc Hnd _ Ht Hz0 Hz _ _].
  destruct (to_minor_units_total u total z Hu Ht Hz) as (t&Htu&Hti).
  unfold allocate_minor_units. rewrite validate_inputs_Ok by by left. step.
  rewrite Hc. step. rewrite Hq. step. rewrite Htu. step.
  set (R := λ p, (ok_or (0, ZERO) (base_of shares (10 ^ u) "largest_remainder" p)).2).
  rewrite (compute_bases_tab _ _ _ _ (λ p, Qfloor (v p)) R); [|done|].
  2:{ intros p Hp. destruct (base_of_floor p Hp) as (r&Hr&_). unfold R. by rewrite Hr. }
  step. cbn [sum_floors floors remainders]. rewrite Hti. fold (lr_left v z ps).
  unfold validate_remainder_bounds, distribute. cbn [is_payer_policy is_largest_remainder String.eqb Ascii.eqb Bool.eqb].
  rewrite (proj2 (Z.ltb_ge _ 0)), (proj2 (Z.ltb_ge (Z.of_nat _) _)) by lia. step.
  cbn [remainders floors]. rewrite ranked_refines.
  2:{ intros p Hp. destruct (base_of_floor p Hp) as (r&Hr&?&?). unfold R. by rewrite Hr. }
  step. rewrite distribute_ranked_tab by (done || apply isort_perm). step.
  change (λ p, Qfloor (v p) + _) with (lr_units v z ps).
  rewrite finish_allocation; [done|done| |by apply lr_units_sum].
  intros p Hp. pose proof (exact_units_nonneg p Hp). pose proof (lr_units_near v z ps p). lia.
Qed.
End Refinement.

(** ** The payer policy *)

Section PayerPolicy.
Context (shares : pydict fdec) (total : fdec) (c : string) (ps : list string) (u z : Z).
Context (Hpre : allocator_pre shares total c ps u z).
Context (payer : string) (Hpayer : payer ∈ ps).

Definition half_up_units (p : string) : Z := Qfloor (exact_units u shares p + (1 # 2)).
Definition payer_remainder : Z := z - zsum (half_up_units <$> ps).
Definition payer_units (p : string) : Z :=
  half_up_units p + if String.eqb p payer then payer_remainder else 0.

Lemma payer_units_sum : zsum (payer_units <$> ps) = z.
Proof using Hpre Hpayer.
  unfold payer_units. rewrite zsum_fmap_add.
  rewrite zsum_point; [|by eapply pre_nodup|done].
  unfold payer_remainder. lia.
Qed.

Lemma payer_remainder_bound :
  (Qabs (qsum (exact_units u shares <$> ps) - inject_Z z) < 1)%Q →
  Z.abs payer_remainder <= Z.of_nat (length ps).
Proof using Hpre.
  intros Hs. pose proof (qsum_half_up (exact_units u shares) ps) as Hh.
  apply Qabs_Qlt_condition in Hs. apply Qabs_Qle_condition in Hh.
  unfold payer_remainder, half_up_units. set (s := zsum _) in *.
  assert (1 <= Z.of_nat (length ps)) .
  { pose proof (pre_nonempty _ _ _ _ _ _ Hpre) as Hne. rewrite <- length_zero_iff_nil in Hne. lia. }
  set (n := Z.of_nat (length ps)) in *.
  assert (inject_Z (2 * (z - s)) < inject_Z (2 + n))%Q as H1.
  { unfold Z.sub. rewrite inject_Z_mult, !inject_Z_plus, inject_Z_opp. change (inject_Z 2) with 2%Q. lra. }
  assert (inject_Z (- (2 + n)) < inject_Z (2 * (z - s)))%Q as H2.
  { unfold Z.sub. rewrite inject_Z_opp, inject_Z_mult, !inject_Z_plus, inject_Z_opp. change (inject_Z 2) with 2%Q. lra. }
  rewrite <- Zlt_Qlt in H1, H2. lia.
Qed.

Lemma half_up_units_nonneg p : p ∈ ps → 0 <= half_up_units p.
Proof using Hpre.
  intros Hp. pose proof (exact_units_nonneg _ _ _ _ _ _ Hpre p Hp).
  unfold half_up_units. transitivity (Qfloor (exact_units u shares p)); [done|].
  apply Qfloor_resp_le. lra.
Qed.

Lemma distribute_payer_tab :
  distribute_payer payer_remainder (Some payer) (dict_tab half_up_units ps) =
  if half_up_units payer + payer_remainder <? 0
  then raise ValueError "payer cannot absorb the remainder"
  else Ok (dict_tab payer_units ps).
Proof using Hpre Hpayer.
  unfold distribute_payer. destruct (Z.eqb_spec payer_remainder 0) as [H0|H0].
  - rewrite H0, Z.add_0_r. rewrite (proj2 (Z.ltb_ge _ _)) by by apply half_up_units_nonneg.
    f_equal. apply dict_tab_ext. intros p _. unfold payer_units. rewrite H0.
    destruct (String.eqb p payer); lia.
  - rewrite dict_tab_index by done. step. destruct (_ <? 0); step; [done|].
    rewrite dict_tab_set; [|by eapply pre_nodup|done]. f_equal. apply dict_tab_ext.
    intros p _. unfold payer_units. destruct (String.eqb_spec p payer) as [->|]; lia.
Qed.

Lemma allocate_payer :
  (Qabs (qsum (exact_units u shares <$> ps) - inject_Z z) < 1)%Q →
  allocate_minor_units shares total c ps "payer" (Some payer) =
  if half_up_units payer + payer_remainder <? 0
  then raise ValueError "payer cannot absorb the remainder"
  else Ok (dict_tab (λ p, scaled u (payer_units p)) ps).
Proof using Hpre Hpayer.
  intros Hsum. pose proof (payer_remainder_bound Hsum) as Hb.
  pose proof (pre_sane _ _ _ _ _ _ Hpre) as Hu.
  destruct (quantum_spec _ _ _ _ _ _ Hpre) as (q&Hq&Hqe).
  destruct Hpre as [Hc Hnd _ Ht Hz0 Hz _ _].
  destruct (to_minor_units_total u total z Hu Ht Hz) as (t&Htu&Hti).
  unfold allocate_minor_units.
  rewrite (validate_inputs_Ok _ _ _ _ _ _ Hpre) by eauto. step.
  rewrite Hc. step. rewrite Hq. step. rewrite Htu. step.
  set (R := λ p, (ok_or (0, ZERO) (base_of shares (10 ^ u) "payer" p)).2).
  rewrite (compute_bases_tab _ _ _ _ half_up_units R); [|done|].
  2:{ intros p Hp. destruct (base_of_half_up _ _ _ _ _ _ Hpre p Hp) as (r&Hr). unfold R. by rewrite Hr. }
  step. cbn [sum_floors floors]. rewrite Hti. fold payer_remainder.
  unfold validate_remainder_bounds, distribute. cbn [is_payer_policy String.eqb Ascii.eqb Bool.eqb].
  rewrite (proj2 (Z.ltb_ge (Z.of_nat _) _)) by lia. step. cbn [floors].
  rewrite distribute_payer_tab. destruct (Z.ltb_spec (half_up_units payer + payer_remainder) 0) as [|Hge];
    step; [done|].
  rewrite (finish_allocation _ _ _ _ _ _ Hpre); [done|done| |by apply payer_units_sum].
  intros p Hp. pose proof (half_up_units_nonneg p Hp). unfold payer_units.
  destruct (String.eqb_spec p payer) as [->|]; lia.
Qed.
End PayerPolicy.

(** ** Conservation, for every successful allocation *)

Lemma base_of_nonneg shares u policy p b r :
  0 <= u → (0 <= dval (share_of shares p))%Q →
  base_of shares (10 ^ u) policy p = Ok (b, r) → 0 <= b.
Proof.
  intros Hu Hs. unfold base_of, base_allocation.
  intros (x&E&(rm&_&[= <- _])%bind_Ok)%bind_Ok.
  assert (Hx : (0 <= dval x)%Q).
  { eapply fix_dec_nonneg; [|exact E]. rewrite dval_exact_mul, dval_dec_of_Z.
    pose proof (pow10_gt0 u Hu) as Hp. rewrite Zlt_Qlt in Hp. change (inject_Z 0) with 0%Q in Hp. nra. }
  destruct (is_payer_policy policy).
  - by apply half_up_nonneg.
  - by apply int_of_dec_nonneg.
Qed.

(** What a distribution step may produce from non-negative bases: the same
    participants, still non-negative, with exactly [remaining] units more. *)
Lemma distribute_sum policy payer n B R s ps fl :
  NoDup ps → (∀ p, p ∈ ps → 0 <= B p) →
  validate_remainder_bounds n (Z.of_nat (length ps)) policy = Ok tt →
  (∀ q, payer = Some q → is_payer_policy policy = true → q ∈ ps) →
  distribute policy payer n (Bases (dict_tab B ps) (dict_tab R ps) s) = Ok fl →
  ∃ f, fl = dict_tab f ps ∧ (∀ p, p ∈ ps → 0 <= f p) ∧ zsum (f <$> ps) = zsum (B <$> ps) + n.
Proof.
  intros Hnd HB Hv Hp H. unfold distribute in H. cbn [floors remainders] in H.
  unfold validate_remainder_bounds in Hv. destruct (is_payer_policy policy).
  - unfold distribute_payer in H. destruct payer as [q|]; [|done].
    assert (Hq : q ∈ ps) by auto. destruct (Z.eqb_spec n 0) as [->|Hn].
    + injection H as <-. exists B. split_and!; [done..|lia].
    + rewrite dict_tab_index in H by done. cbn in H.
      apply bind_Ok in H as ([]&E0%raise_when_Ok&[= <-]). apply Z.ltb_ge in E0.
      pose proof (add_units_tab n B ps q Hnd Hq) as Ha. unfold add_units in Ha.
      rewrite dict_tab_index in Ha by done. cbn in Ha. injection Ha as ->.
      eexists; split; [done|]. split.
      * intros p Hpp. specialize (HB p Hpp). destruct (String.eqb_spec p q) as [->|]; lia.
      * by rewrite zsum_fmap_add, zsum_point.
  - destruct (is_largest_remainder policy); [|done]. inv_ok. apply ranked_perm in E as Hperm.
    apply Z.ltb_ge in E0, Hv.
    rewrite distribute_ranked_tab in H by (done || lia). injection H as <-.
    eexists; split; [done|]. split.
    + intros p Hpp. specialize (HB p Hpp). unfold indicator. case_bool_decide; lia.
    + rewrite zsum_fmap_add, zsum_indicator, length_take, Hperm; [lia|done| |].
      * assert (Hr : NoDup x) by by rewrite Hperm.
        rewrite <- (take_drop (Z.to_nat n) x) in Hr. by apply NoDup_app in Hr as (?&_).
      * intros p Hpp. rewrite <- Hperm, <- (take_drop (Z.to_nat n) x). apply elem_of_app. by left.
Qed.

Lemma validate_inputs_inv shares total c ps policy payer :
  validate_allocator_inputs shares total c ps policy payer = Ok tt →
  NoDup ps ∧ ps ≠ [] ∧ (0 <= dval total)%Q ∧
  (∃ u z, minor_units c = Ok u ∧ at_scale u total z ∧ fits z) ∧
  (∀ p, p ∈ ps → (0 <= dval (share_of shares p))%Q) ∧
  (∀ q, payer = Some q → is_payer_policy policy = true → q ∈ ps).
Proof.
  unfold validate_allocator_inputs. intros H. inv_ok.
  apply has_duplicates_false in E0. apply dec_ltb_ge in E1. rewrite dval_ZERO in E1.
  apply validate_amount_returns in E2 as [_ Hv]. rewrite forM_Ok, Forall_forall in E3.
  split_and!; [done|by destruct ps|done|done| |].
  - intros p Hp. specialize (E3 p Hp). apply raise_when_Ok, dec_ltb_ge in E3. by rewrite dval_ZERO in E3.
  - intros q -> Hpol. rewrite Hpol in H. cbn in H. apply negb_false_iff in H.
    unfold str_in in H. by apply bool_decide_eq_true in H.
Qed.

Lemma allocation_conserved shares total c ps policy payer r :
  allocate_minor_units shares total c ps policy payer = Ok r →
  ∃ u z f, minor_units c = Ok u ∧ at_scale u total z ∧ fits z ∧ NoDup ps ∧
    r = dict_tab (λ p, scaled u (f p)) ps ∧ (∀ p, p ∈ ps → 0 <= f p) ∧ zsum (f <$> ps) = z.
Proof.
  unfold allocate_minor_units. intros ([]&Hv&H)%bind_Ok.
  apply validate_inputs_inv in Hv as (Hnd&_&_&(u&z&Hu&Hz&Hf)&Hnn&Hpay).
  rewrite Hu in H. cbn [mbind result_bind] in H. pose proof (minor_units_sane _ _ Hu) as Hs.
  destruct (quantum_for_units_spec c u Hu) as (q&Hq&Hqe). unfold quantum_for_units in Hq.
  rewrite Hq in H. cbn [mbind result_bind] in H.
  destruct (to_minor_units_total u total z Hs Hz Hf) as (t&Ht&Hti).
  rewrite Ht in H. cbn [mbind result_bind] in H.
  apply bind_Ok in H as (b&Hb&([]&Hvb&(fl&Hfl&(res&Hres&(s&_&([]&_&[= <-])%bind_Ok)%bind_Ok)%bind_Ok)%bind_Ok)%bind_Ok).
  set (X := λ p, ok_or (0, ZERO) (base_of shares (10 ^ u) policy p)).
  assert (HX : ∀ p, p ∈ ps → base_of shares (10 ^ u) policy p = Ok (X p)).
  { intros p Hp. destruct (compute_bases_Ok _ _ _ _ _ _ _ Hb Hp) as (x&Hx). unfold X. by rewrite Hx. }
  rewrite (compute_bases_tab _ _ _ _ (λ p, (X p).1) (λ p, (X p).2)) in Hb;
    [|done|intros p Hp; rewrite HX by done; by destruct (X p)].
  injection Hb as <-. cbn [sum_floors] in *. rewrite Hti in Hvb, Hfl.
  apply distribute_sum in Hfl as (f&->&Hf0&Hsum); [|done| |done|done].
  - exists u, z, f.
    assert (zsum (f <$> ps) = z) as Hfz by lia. split_and!; [done..| |done|done].
    rewrite build_allocation_tab in Hres; [by injection Hres as <-|done..|].
    intros p Hp. pose proof (Hf0 p Hp). assert (f p <= z); [|lia]. rewrite <- Hfz.
    apply zsum_le_mem; [by apply Forall_fmap, Forall_forall|].
    apply list_elem_of_fmap. eauto.
  - intros p Hp. unfold sane_scale in Hs. 
    apply (base_of_nonneg shares u policy p _ (X p).2); [lia|by apply Hnn|].
    rewrite HX by done. by destruct (X p).
Qed.

(** * Claims *)

(** C6: conservation of the minor-unit allocator.  Whatever the shares and
    the policy, a returned allocation lists exactly the participants, each
    with a non-negative whole number of minor units, and adds up exactly to
    the authoritative total. *)
Theorem allocate_conserves_total shares total c ps policy payer r :
  allocate_minor_units shares total c ps policy payer = Ok r →
  dict_keys r = ps ∧ NoDup ps ∧
  ∃ u z units, minor_units c = Ok u ∧ at_scale u total z ∧
    Forall2 (at_scale u) (dict_values r) units ∧ Forall (λ n, 0 <= n) units ∧ zsum units = z.
Proof.
  intros (u&z&f&Hu&Hz&_&Hnd&->&Hf&Hs)%allocation_conserved.
  rewrite dict_tab_keys, dict_tab_values. split_and!; [done..|].
  exists u, z, (f <$> ps). split_and!; [done..| | |done].
  - apply Forall2_fmap_l, Forall2_fmap_r, Forall_Forall2_diag, Forall_forall.
    intros p _. apply at_scale_scaled.
  - by apply Forall_fmap, Forall_forall.
Qed.

Definition thirds : pydict fdec :=
  let third := mkdec false 3333333333333333333333333333 (-27) in
  [("c", third); ("a", third); ("b", third)].

Lemma allocate_conserves_total_witness :
  let r := [("c", mkdec false 333 (-2)); ("a", mkdec false 334 (-2)); ("b", mkdec false 333 (-2))] in
  allocate_minor_units thirds (mkdec false 1000 (-2)) "SGD" ["c"; "a"; "b"] "largest_remainder" None = Ok r
  ∧ dict_keys r = ["c"; "a"; "b"].
Proof.
  cbv zeta. split; [by vm_compute|].
  exact (proj1 (allocate_conserves_total thirds (mkdec false 1000 (-2)) "SGD" ["c"; "a"; "b"]
    "largest_remainder" None _ ltac:(by vm_compute))).
Defined.

(** C10: the largest-remainder policy.  When the exact shares add up to the
    total within less than one minor unit, the allocator succeeds; everyone
    gets the floor of the exact share or one unit more, the units add up to
    the total, and whoever got the extra unit has a strictly larger fraction
    than whoever did not, or an equal one and the smaller identifier. *)
Theorem largest_remainder_policy shares total c ps payer u z :
  allocator_pre shares total c ps u z →
  (Qabs (qsum (exact_units u shares <$> ps) - inject_Z z) < 1)%Q →
  ∃ units : string → Z,
    allocate_minor_units shares total c ps "largest_remainder" payer =
      Ok (dict_tab (λ p, scaled u (units p)) ps) ∧
    zsum (units <$> ps) = z ∧
    (∀ p, p ∈ ps → Qfloor (exact_units u shares p) <= units p <= Qfloor (exact_units u shares p) + 1) ∧
    (∀ p q, p ∈ ps → q ∈ ps →
       units p = Qfloor (exact_units u shares p) + 1 → units q = Qfloor (exact_units u shares q) →
       (frac_part (exact_units u shares) q < frac_part (exact_units u shares) p)%Q ∨
       (frac_part (exact_units u shares) p == frac_part (exact_units u shares) q)%Q ∧
       String.leb p q = true).
Proof.
  intros Hpre Hsum. exists (lr_units (exact_units u shares) z ps). split_and!.
  - by apply allocate_largest_remainder.
  - apply lr_units_sum; [by eapply pre_nodup|by apply lr_left_bounds].
  - intros p _. apply lr_units_near.
  - intros p q Hp Hq Hup Huq. rewrite <- lr_leb_spec. by eapply lr_units_fair.
Qed.

Lemma thirds_pre : allocator_pre thirds (mkdec false 1000 (-2)) "SGD" ["c"; "a"; "b"] 2 1000.
Proof.
  split; [by vm_compute| |done|by vm_compute|lia|lia|..].
  - by apply (bool_decide_unpack _); vm_compute.
  - intros p Hp. exists 3333333333333333333333333333, (-27).
    repeat (apply elem_of_cons in Hp as [->|Hp]; [split; [by vm_compute|lia]|]).
    by apply elem_of_nil in Hp.
  - intros p Hp. repeat (apply elem_of_cons in Hp as [->|Hp]; [by vm_compute|]).
    by apply elem_of_nil in Hp.
Defined.

Lemma largest_remainder_policy_witness :
  ∃ units : string → Z,
    allocate_minor_units thirds (mkdec false 1000 (-2)) "SGD" ["c"; "a"; "b"] "largest_remainder" None =
      Ok (dict_tab (λ p, scaled 2 (units p)) ["c"; "a"; "b"]).
Proof.
  destruct (largest_remainder_policy thirds (mkdec false 1000 (-2)) "SGD" ["c"; "a"; "b"] None 2 1000
    thirds_pre ltac:(by vm_compute)) as (units&H&_).
  exists units. exact H.
Defined.

(** the order of the participants does not matter.  Listing the same
    participants in another order gives every one of them the same amount. *)
Theorem largest_remainder_order_independent shares total c ps ps' payer u z p :
  allocator_pre shares total c ps u z → ps ≡ₚ ps' →
  (Qabs (qsum (exact_units u shares <$> ps) - inject_Z z) < 1)%Q → p ∈ ps →
  ∃ r r' d, allocate_minor_units shares total c ps "largest_remainder" payer = Ok r ∧
    allocate_minor_units shares total c ps' "largest_remainder" payer = Ok r' ∧
    dict_get p r = Some d ∧ dict_get p r' = Some d.
Proof.
  intros Hpre Hp Hs Hin. pose proof (allocator_pre_perm _ _ _ _ ps' _ _ Hp Hpre) as Hpre'.
  eexists _, _, _. split_and!.
  - by apply allocate_largest_remainder.
  - apply allocate_largest_remainder; [done|]. by rewrite <- Hp.
  - by apply dict_tab_get.
  - rewrite dict_tab_get by by rewrite <- Hp. by rewrite (lr_units_perm _ _ ps ps').
Qed.

Lemma largest_remainder_order_independent_witness :
  ∃ r r' d,
    allocate_minor_units thirds (mkdec false 1000 (-2)) "SGD" ["c"; "a"; "b"] "largest_remainder" None = Ok r ∧
    allocate_minor_units thirds (mkdec false 1000 (-2)) "SGD" ["a"; "b"; "c"] "largest_remainder" None = Ok r' ∧
    dict_get "a" r = Some d ∧ dict_get "a" r' = Some d.
Proof.
  apply (largest_remainder_order_independent thirds (mkdec false 1000 (-2)) "SGD" ["c"; "a"; "b"]
    ["a"; "b"; "c"] None 2 1000 "a" thirds_pre).
  - apply (bool_decide_unpack _). by vm_compute.
  - by vm_compute.
  - right. left.
Defined.

(** the payer policy.  When the exact shares add up to the total within
    less than one minor unit, every participant but the payer gets the exact
    share rounded half up and the payer gets what is left of the total;
    the allocator fails exactly when that would be negative. *)
Theorem payer_policy shares total c ps u z payer :
  allocator_pre shares total c ps u z → payer ∈ ps →
  (Qabs (qsum (exact_units u shares <$> ps) - inject_Z z) < 1)%Q →
  let rounded p := Qfloor (exact_units u shares p + (1 # 2)) in
  let left := z - zsum (rounded <$> ps) in
  allocate_minor_units shares total c ps "payer" (Some payer) =
    if rounded payer + left <? 0
    then raise ValueError "payer cannot absorb the remainder"
    else Ok (dict_tab (λ p, scaled u (rounded p + if String.eqb p payer then left else 0)) ps).
Proof. intros Hpre Hp Hs. exact (allocate_payer shares total c ps u z Hpre payer Hp Hs). Qed.

Lemma payer_policy_witness :
  allocate_minor_units thirds (mkdec false 1000 (-2)) "SGD" ["c"; "a"; "b"] "payer" (Some "b") =
  Ok [("c", mkdec false 333 (-2)); ("a", mkdec false 333 (-2)); ("b", mkdec false 334 (-2))].
Proof.
  rewrite (payer_policy thirds (mkdec false 1000 (-2)) "SGD" ["c"; "a"; "b"] 2 1000 "b"
    thirds_pre); [by vm_compute| |by vm_compute].
  right. right. left.
Defined.
