(* ===== verification/Settlement.v ===== *)
(** * Settlement obligations ([finance_core/settlement/runtime.py])

    Deterministic greedy matching of debtors with creditors, from net
    balances to a list of obligations. *)

From Stdlib Require Import Ascii ZArith QArith Qabs Lqa Lia.
From stdpp Require Import base sets strings sorting numbers list.
From S2P Require Import Prelude PyDecimal DecUnits PyValue Hash Money.

Open Scope Z_scope.

Record SettlementObligation := MkObligation {
  obligation_id : string;
  creditor_id : string;
  debtor_id : string;
  ob_amount : fdec;
  ob_currency : string;
  source_type : string;
  source_id : string;
}.

(** The constructor runs [__post_init__]; the amount is a finite Decimal, so
    the [isinstance] test holds by typing. *)
Definition SettlementObligation_new (oid creditor debtor : string) (amount : fdec)
    (currency stype sid : string) : result SettlementObligation :=
  raise_when (str_empty oid) ValueError "obligation_id is required";;
  raise_when (str_empty creditor) ValueError "creditor_id is required";;
  raise_when (str_empty debtor) ValueError "debtor_id is required";;
  raise_when (String.eqb creditor debtor) ValueError "self-obligation";;
  raise_when (dec_leb amount ZERO) ValueError "obligation amount must be positive";;
  validate_amount_for_currency amount currency;;
  raise_when (str_empty currency) ValueError "currency is required";;
  raise_when (str_empty stype) ValueError "source_type is required";;
  raise_when (str_empty sid) ValueError "source_id is required";;
  Ok (MkObligation oid creditor debtor amount currency stype sid).

(** [_BalanceEntry]: participant and remaining non-negative amount. *)
Abbreviation BalanceEntry := (string * fdec)%type.

(** The keys [(-e.amount, e.participant_id)] compare as tuples. *)
Definition key_leb (a b : fdec * string) : bool :=
  if dec_eqb a.1 b.1 then String.leb a.2 b.2 else dec_leb a.1 b.1.

Definition sort_entries (l : list BalanceEntry) : result (list BalanceEntry) :=
  keyed ← mapM (λ e, k ← dec_neg e.2; Ok ((k, e.1), e)) l;
  Ok ((isort (λ a b, key_leb a.1 b.1) keyed).*2).

Definition balance_of (balances : pydict fdec) (p : string) : fdec :=
  match dict_get p balances with Some b => b | None => ZERO end.

Definition classify (balances : pydict fdec)
    (acc : list BalanceEntry * list BalanceEntry) (p : string) :
    result (list BalanceEntry * list BalanceEntry) :=
  let '(creditors, debtors) := acc in
  let balance := balance_of balances p in
  if dec_ltb ZERO balance then Ok (creditors ++ [(p, balance)], debtors)
  else if dec_ltb balance ZERO then
    n ← dec_neg balance;
    Ok (creditors, debtors ++ [(p, n)])
  else Ok (creditors, debtors).

Definition build_balance_entries (participants : list string) (balances : pydict fdec) :
    result (list BalanceEntry * list BalanceEntry) :=
  '(creditors, debtors) ← foldM (classify balances) ([], []) participants;
  creditors ← sort_entries creditors;
  debtors ← sort_entries debtors;
  Ok (creditors, debtors).

Definition make_obligation_id (stype sid : string) (index : nat) : string :=
  uuid5 NAMESPACE_DNS
    (stype +:+ ":" +:+ sid +:+ ":" +:+ of_chars (int_chars (Z.of_nat index))).

(** ** The matching loop

    The state holds the entries from the current creditor and debtor indices
    on (the head of each list is the entry the loop mutates) and the
    obligations made so far. *)

Record match_state := MatchState {
  ms_creditors : list BalanceEntry;
  ms_debtors : list BalanceEntry;
  ms_obligations : list SettlementObligation;
}.

Section Loop.
Context (currency stype sid : string).

(** One iteration; [None] when the loop condition is false. *)
Definition match_step (st : match_state) : result (option match_state) :=
  match ms_creditors st, ms_debtors st with
  | (creditor, camount) :: cs, (debtor, damount) :: ds =>
      matched ← quantize_for_currency (dec_min camount damount) currency;
      obligations ←
        (if dec_ltb ZERO matched then
           let oid := make_obligation_id stype sid (length (ms_obligations st)) in
           o ← SettlementObligation_new oid creditor debtor matched currency stype sid;
           Ok (ms_obligations st ++ [o])
         else Ok (ms_obligations st));
      remaining_creditor ← (d ← dec_sub camount matched; quantize_for_currency d currency);
      remaining_debtor ← (d ← dec_sub damount matched; quantize_for_currency d currency);
      Ok (Some (MatchState
        (if dec_eqb remaining_creditor ZERO then cs else (creditor, remaining_creditor) :: cs)
        (if dec_eqb remaining_debtor ZERO then ds else (debtor, remaining_debtor) :: ds)
        obligations))
  | _, _ => Ok None
  end.

(** [None]: the bound on the number of iterations was reached. *)
Fixpoint match_loop (fuel : nat) (st : match_state) : result (option (list SettlementObligation)) :=
  next ← match_step st;
  match next, fuel with
  | None, _ => Ok (Some (ms_obligations st))
  | Some st', S fuel => match_loop fuel st'
  | Some _, O => Ok None
  end.
End Loop.

Definition ob_leb (a b : SettlementObligation) : bool :=
  if String.eqb (creditor_id a) (creditor_id b) then String.leb (debtor_id a) (debtor_id b)
  else String.leb (creditor_id a) (creditor_id b).

(** ** Input validation *)

(** The loop over [balances.items()]; the balances that pass are finite
    Decimals and are returned as such. *)
Definition validate_balance (participants : list string) (currency : string)
    (item : string * pyval) : result (string * fdec) :=
  let '(p, balance) := item in
  raise_when (negb (str_in p participants)) ValueError "balance key is not a participant";;
  match balance with
  | VDec _ =>
      catch (b ← money_decimal balance;
             validate_amount_for_currency b currency;;
             Ok (p, b))
        MoneyValidationError (λ e, raise ValueError (exn_site e))
  | _ => raise ValueError "balance must be Decimal"
  end.

Definition validate_inputs (participants : list string) (balances : pydict pyval)
    (currency stype sid : string) : result (pydict fdec) :=
  raise_when (match participants with [] => true | _ => false end) ValueError
    "participants must be a non-empty list";;
  raise_when (has_duplicates participants) ValueError "duplicate participants";;
  raise_when (str_empty currency) ValueError "currency is required";;
  raise_when (str_empty stype) ValueError "source_type is required";;
  raise_when (str_empty sid) ValueError "source_id is required";;
  forM_ participants (λ p,
    raise_when (negb (dict_mem p balances)) ValueError "participant is missing from balances");;
  mapM (validate_balance participants currency) balances.

Definition validate_balance_zero_sum (balances : pydict fdec) (currency : string) : result unit :=
  s ← dec_sum ZERO (dict_values balances);
  total ← quantize_for_currency s currency;
  raise_when (negb (dec_eqb total ZERO)) ValueError "balances must sum to zero".

(** [None] only when the iteration bound is reached: each iteration finishes
    a creditor or a debtor, so their number is a sufficient bound. *)
Definition generate_obligations (participants : list string) (balances : pydict pyval)
    (currency stype sid : string) : result (option (list SettlementObligation)) :=
  balances ← validate_inputs participants balances currency stype sid;
  validate_balance_zero_sum balances currency;;
  '(creditors, debtors) ← build_balance_entries participants balances;
  obligations ← match_loop currency stype sid (length creditors + length debtors)
                  (MatchState creditors debtors []);
  Ok (fmap (M:=option) (isort ob_leb) obligations).

Definition dec_cents (z : Z) : pyval := VDec (DFin (mkdec (z <? 0) (Z.abs z) (-2))).

Example settle_three :
  match generate_obligations ["o"; "a"; "b"]
          [("o", dec_cents 6000); ("a", dec_cents (-3500)); ("b", dec_cents (-2500))]
          "SGD" "receipt_split" "calc_001" with
  | Ok (Some l) => map (λ o, (creditor_id o, debtor_id o, ob_amount o)) l
  | _ => []
  end = [("o", "a", mkdec false 3500 (-2)); ("o", "b", mkdec false 2500 (-2))].
Proof. by vm_compute. Qed.

(** ** Specification: greedy matching in minor units *)

Abbreviation flow := (string * string * Z)%type.

Fixpoint greedy (fuel : nat) (cs ds : list (string * Z)) : list flow :=
  match fuel, cs, ds with
  | S fuel, (c, x) :: cs', (d, y) :: ds' =>
      let m := Z.min x y in
      (c, d, m) :: greedy fuel (if x - m =? 0 then cs' else (c, x - m) :: cs')
                               (if y - m =? 0 then ds' else (d, y - m) :: ds')
  | _, _, _ => []
  end.

(** Total of the entries of [p], and what [p] receives and pays. *)
Definition entry_total (p : string) (l : list (string * Z)) : Z :=
  zsum ((λ e, if String.eqb e.1 p then e.2 else 0) <$> l).
Definition received (p : string) (l : list flow) : Z :=
  zsum ((λ f, if String.eqb f.1.1 p then f.2 else 0) <$> l).
Definition paid (p : string) (l : list flow) : Z :=
  zsum ((λ f, if String.eqb f.1.2 p then f.2 else 0) <$> l).

Abbreviation positive := (Forall (λ e : string * Z, 0 < e.2)).

Lemma positive_sum_pos l : positive l → l ≠ [] → 0 < zsum l.*2.
Proof.
  intros Hl. destruct Hl as [|e l He Hl]; [done|]. intros _. cbn.
  enough (0 <= zsum l.*2) by lia. apply zsum_nonneg, Forall_fmap.
  eapply Forall_impl; [done|]. cbn. lia.
Qed.

(** One step keeps the entries positive and the two totals equal. *)
Lemma greedy_rest_positive (c : string) x m cs :
  0 < x → m <= x → positive cs → positive (if x - m =? 0 then cs else (c, x - m) :: cs).
Proof. intros. destruct (Z.eqb_spec (x - m) 0); [done|]. constructor; cbn; [lia|done]. Qed.

Lemma greedy_rest_sum (c : string) x m cs :
  zsum (if x - m =? 0 then cs else (c, x - m) :: cs).*2 = zsum cs.*2 + x - m.
Proof. destruct (Z.eqb_spec (x - m) 0); cbn; lia. Qed.

Lemma greedy_rest_total p (c : string) x m cs :
  entry_total p (if x - m =? 0 then cs else (c, x - m) :: cs) =
  entry_total p cs + if String.eqb c p then x - m else 0.
Proof.
  unfold entry_total. destruct (Z.eqb_spec (x - m) 0) as [->|]; cbn; destruct (String.eqb c p); lia.
Qed.

Lemma greedy_flows n cs ds :
  positive cs → positive ds → zsum cs.*2 = zsum ds.*2 → (length cs + length ds <= n)%nat →
  (∀ p, received p (greedy n cs ds) = entry_total p cs) ∧
  (∀ p, paid p (greedy n cs ds) = entry_total p ds).
Proof.
  revert cs ds; induction n as [|n IH]; intros cs ds Hcs Hds Hsum Hn.
  { destruct cs, ds; cbn in Hn; try lia. done. }
  destruct cs as [|[c x] cs], ds as [|[d y] ds].
  - done.
  - pose proof (positive_sum_pos _ Hds ltac:(done)) as H. cbn in *. lia.
  - pose proof (positive_sum_pos _ Hcs ltac:(done)) as H. cbn in *. lia.
  - apply Forall_cons in Hcs as [Hx Hcs], Hds as [Hy Hds]. cbn in Hx, Hy, Hsum, Hn.
    set (m := Z.min x y). cbn [greedy]. fold m.
    destruct (IH (if x - m =? 0 then cs else (c, x - m) :: cs)
                 (if y - m =? 0 then ds else (d, y - m) :: ds)) as [IHc IHd].
    + apply greedy_rest_positive; [lia..|done].
    + apply greedy_rest_positive; [lia..|done].
    + rewrite !greedy_rest_sum. lia.
    + destruct (Z.eqb_spec (x - m) 0), (Z.eqb_spec (y - m) 0); cbn; lia.
    + split; intros p.
      * unfold received in *. cbn. rewrite IHc, greedy_rest_total.
        unfold entry_total. cbn. destruct (String.eqb c p); lia.
      * unfold paid in *. cbn. rewrite IHd, greedy_rest_total.
        unfold entry_total. cbn. destruct (String.eqb d p); lia.
Qed.

(** Every obligation is positive and goes from a debtor to a creditor. *)
Lemma greedy_members n cs ds f :
  positive cs → positive ds → f ∈ greedy n cs ds →
  f.1.1 ∈ cs.*1 ∧ f.1.2 ∈ ds.*1 ∧ 0 < f.2 ∧ f.2 <= zsum cs.*2.
Proof.
  revert cs ds; induction n as [|n IH]; intros cs ds Hcs Hds; [by intros ?%elem_of_nil|].
  destruct cs as [|[c x] cs], ds as [|[d y] ds]; try by intros ?%elem_of_nil.
  apply Forall_cons in Hcs as [Hx Hcs], Hds as [Hy Hds]. cbn in Hx, Hy.
  assert (0 <= zsum cs.*2).
  { apply zsum_nonneg, Forall_fmap. eapply Forall_impl; [done|]. cbn. lia. }
  set (m := Z.min x y). cbn [greedy]. fold m.
  intros [->|Hf]%elem_of_cons; cbn [fst snd fmap list_fmap zsum].
  - split_and!; [left|left|lia|lia].
  - apply IH in Hf as (Hc&Hd&Hpos&Hle); [|apply greedy_rest_positive; [lia..|done]..].
    rewrite greedy_rest_sum in Hle. split_and!; [| |done|lia].
    + destruct (x - m =? 0); set_solver.
    + destruct (y - m =? 0); set_solver.
Qed.

(** At least one of the two entries is finished in each step. *)
Lemma greedy_length n cs ds :
  (length (greedy n cs ds) <= length cs + length ds - 1)%nat.
Proof.
  revert cs ds; induction n as [|n IH]; intros cs ds; [cbn; lia|].
  destruct cs as [|[c x] cs], ds as [|[d y] ds]; cbn [greedy length]; try lia.
  set (m := Z.min x y).
  specialize (IH (if x - m =? 0 then cs else (c, x - m) :: cs) (if y - m =? 0 then ds else (d, y - m) :: ds)).
  destruct (Z.eqb_spec (x - m) 0), (Z.eqb_spec (y - m) 0); cbn [length] in IH; lia.
Qed.

(** ** The loop implements the specification *)

Section LoopRefines.
Context (currency stype sid : string) (u : Z).
Context (Hu : minor_units currency = Ok u).
Context (Hcur : str_empty currency = false) (Hst : str_empty stype = false)
        (Hsid : str_empty sid = false).

Definition entry_at (e : BalanceEntry) (a : string * Z) : Prop :=
  e.1 = a.1 ∧ at_scale u e.2 a.2.

(** The obligation of the [i]-th flow. *)
Definition flow_obligation (i : nat) (f : flow) : SettlementObligation :=
  MkObligation (make_obligation_id stype sid i) f.1.1 f.1.2 (scaled u f.2) currency stype sid.

Lemma settlement_obligation_ok i c d m :
  0 < m → fits m → str_empty c = false → str_empty d = false → c ≠ d →
  SettlementObligation_new (make_obligation_id stype sid i) c d (scaled u m) currency stype sid =
  Ok (flow_obligation i (c, d, m)).
Proof using Hu Hcur Hst Hsid.
  intros Hm Hf Hc Hd Hne. unfold SettlementObligation_new, make_obligation_id.
  rewrite uuid5_nonempty, Hc, Hd, Hcur, Hst, Hsid. apply String.eqb_neq in Hne as ->. step.
  rewrite (dec_leb_scale u _ ZERO m 0), (proj2 (Z.leb_gt m 0))
    by (apply at_scale_scaled || apply at_scale_ZERO || done). step.
  rewrite (proj2 (validate_amount_iff currency u (scaled u m) (scaled u m) Hu)); [done|].
  split; [done|]. exists m. split; [apply at_scale_scaled|done].
Qed.

Lemma quantize_positive d m :
  at_scale u d m → 0 < m → fits m → quantize_for_currency d currency = Ok (scaled u m).
Proof using Hu.
  intros Hd Hm Hf. unfold quantize_for_currency.
  rewrite (quantize_for_currency_scale _ _ u d m) by done.
  pose proof (at_scale_sign u d m Hd). unfold scaled.
  rewrite (proj2 (Z.ltb_ge m 0)) by lia. destruct (fsign d); [lia|done].
Qed.

(** What is left of an entry after subtracting the matched amount. *)
Lemma remaining_at a x m :
  at_scale u a x → 0 <= x - m → fits (x - m) →
  ∃ r, (d ← dec_sub a (scaled u m); quantize_for_currency d currency) = Ok r ∧
       at_scale u r (x - m) ∧ dec_eqb r ZERO = (x - m =? 0).
Proof using Hu.
  intros Ha H0 Hf. pose proof (minor_units_sane _ _ Hu) as Hs.
  destruct (dec_sub_scale u Hs a (scaled u m) x m Ha (at_scale_scaled u m) Hf) as (d&->&Hd). step.
  destruct (quantize_for_currency_val currency u d (x - m) Hu Hd Hf) as (r&->&Hr).
  exists r. split_and!; [done..|]. by rewrite (dec_eqb_scale u r ZERO (x - m) 0 Hr (at_scale_ZERO u)).
Qed.

Lemma match_step_refines c a x cs d b y ds obs :
  at_scale u a x → at_scale u b y → 0 < x → 0 < y → fits x → fits y →
  str_empty c = false → str_empty d = false → c ≠ d →
  let m := Z.min x y in
  ∃ a' b', at_scale u a' (x - m) ∧ at_scale u b' (y - m) ∧
    match_step currency stype sid (MatchState ((c, a) :: cs) ((d, b) :: ds) obs) =
    Ok (Some (MatchState (if x - m =? 0 then cs else (c, a') :: cs)
                         (if y - m =? 0 then ds else (d, b') :: ds)
                         (obs ++ [flow_obligation (length obs) (c, d, m)]))).
Proof using Hu Hcur Hst Hsid.
  intros Ha Hb Hx Hy Hfx Hfy Hc Hd Hne m. unfold match_step. cbn [ms_creditors ms_debtors ms_obligations].
  rewrite (quantize_positive _ m (dec_min_scale u a b x y Ha Hb)) by lia. step.
  rewrite (dec_ltb_scale u ZERO _ 0 m), (proj2 (Z.ltb_lt 0 m))
    by (apply at_scale_scaled || apply at_scale_ZERO || lia). step.
  rewrite settlement_obligation_ok by (done || lia). step.
  destruct (remaining_at a x m Ha) as (a'&->&Ha'&Hza); [lia..|]. step.
  destruct (remaining_at b y m Hb) as (b'&->&Hb'&Hzb); [lia..|]. step.
  exists a', b'. by rewrite Hza, Hzb.
Qed.

Lemma match_loop_refines fuel cs ds csZ dsZ obs :
  Forall2 entry_at cs csZ → Forall2 entry_at ds dsZ → positive csZ → positive dsZ →
  fits (zsum csZ.*2) → fits (zsum dsZ.*2) →
  (∀ c, c ∈ csZ.*1 → str_empty c = false ∧ c ∉ dsZ.*1) →
  (∀ d, d ∈ dsZ.*1 → str_empty d = false) →
  (length cs + length ds <= fuel)%nat →
  match_loop currency stype sid fuel (MatchState cs ds obs) =
  Ok (Some (obs ++ imap (λ i f, flow_obligation (length obs + i) f) (greedy fuel csZ dsZ))).
Proof using Hu Hcur Hst Hsid.
  revert cs ds csZ dsZ obs.
  induction fuel as [|fuel IH]; intros cs ds csZ dsZ obs Hcs Hds Hpc Hpd Hfc Hfd Hidc Hidd Hlen.
  { destruct cs; [|cbn in Hlen; lia]. cbn. by rewrite app_nil_r. }
  destruct Hcs as [|[c a] [c' x] cs csZ [Hc Ha] Hcs]; [cbn; by rewrite app_nil_r|].
  destruct Hds as [|[d b] [d' y] ds dsZ [Hd Hb] Hds]; [cbn; by rewrite app_nil_r|].
  cbn in Hc, Hd, Ha, Hb. subst c' d'.
  apply Forall_cons in Hpc as [Hx Hpc], Hpd as [Hy Hpd]. cbn in Hx, Hy, Hfc, Hfd, Hlen.
  assert (0 <= zsum csZ.*2).
  { apply zsum_nonneg, Forall_fmap. eapply Forall_impl; [done|]. cbn. lia. }
  assert (0 <= zsum dsZ.*2).
  { apply zsum_nonneg, Forall_fmap. eapply Forall_impl; [done|]. cbn. lia. }
  destruct (Hidc c ltac:(left)) as [Hcne Hcd].
  destruct (match_step_refines c a x cs d b y ds obs) as (a'&b'&Ha'&Hb'&Hstep);
    [done..|lia|lia|done|apply Hidd; left|set_solver|].
  set (m := Z.min x y) in *. cbn [match_loop greedy]. rewrite Hstep. step. fold m.
  rewrite (IH _ _ (if x - m =? 0 then csZ else (c, x - m) :: csZ)
             (if y - m =? 0 then dsZ else (d, y - m) :: dsZ)).
  - rewrite imap_cons, <- app_assoc. cbn [app]. do 3 f_equal.
    rewrite Nat.add_0_r. f_equal. apply imap_ext. intros i f _. unfold compose.
    f_equal. rewrite length_app. cbn. lia.
  - destruct (x - m =? 0); [done|]. constructor; [by split|done].
  - destruct (y - m =? 0); [done|]. constructor; [by split|done].
  - apply greedy_rest_positive; [lia..|done].
  - apply greedy_rest_positive; [lia..|done].
  - rewrite greedy_rest_sum. lia.
  - rewrite greedy_rest_sum. lia.
  - intros p Hp. destruct (Hidc p) as [Hp1 Hp2]; [destruct (x - m =? 0); set_solver|].
    split; [done|]. destruct (y - m =? 0); set_solver.
  - intros p Hp. apply Hidd. destruct (y - m =? 0); set_solver.
  - destruct (Z.eqb_spec (x - m) 0), (Z.eqb_spec (y - m) 0); cbn; lia.
Qed.
End LoopRefines.

(** ** Sorting the entries *)

Lemma insert_sorted_Forall2 {A B} (R : A → B → Prop) (le1 : A → A → bool) (le2 : B → B → bool) a b l k :
  (∀ a b x y, R a x → R b y → le1 a b = le2 x y) → R a b → Forall2 R l k →
  Forall2 R (insert_sorted le1 a l) (insert_sorted le2 b k).
Proof.
  intros Hle Hab. induction 1 as [|x y l k Hxy Hl IH]; cbn; [by repeat constructor|].
  rewrite (Hle a x b y) by done. destruct (le2 b y); [by repeat constructor|by constructor].
Qed.

Lemma isort_Forall2 {A B} (R : A → B → Prop) (le1 : A → A → bool) (le2 : B → B → bool) l k :
  (∀ a b x y, R a x → R b y → le1 a b = le2 x y) → Forall2 R l k →
  Forall2 R (isort le1 l) (isort le2 k).
Proof.
  intros Hle. induction 1 as [|x y l k Hxy Hl IH]; [constructor|].
  by apply insert_sorted_Forall2.
Qed.

(** Larger amounts first, then smaller identifiers. *)
Definition amount_leb (a b : string * Z) : bool :=
  if a.2 =? b.2 then String.leb a.1 b.1 else b.2 <=? a.2.

Lemma amount_leb_spec a b :
  amount_leb a b = true ↔ b.2 < a.2 ∨ a.2 = b.2 ∧ String.leb a.1 b.1 = true.
Proof.
  unfold amount_leb. destruct (Z.eqb_spec a.2 b.2); [|rewrite Z.leb_le]; split; try lia.
  - by right.
  - intros [?|[_ ?]]; [lia|done].
Qed.
Lemma amount_leb_total a b : amount_leb a b = true ∨ amount_leb b a = true.
Proof.
  rewrite !amount_leb_spec. destruct (Z.lt_trichotomy a.2 b.2) as [|[He|]]; [by eauto| |by eauto].
  destruct (str_leb_total a.1 b.1); eauto.
Qed.
Lemma amount_leb_trans a b c :
  amount_leb a b = true → amount_leb b c = true → amount_leb a c = true.
Proof.
  rewrite !amount_leb_spec. intros [?|[? Hs]] [?|[? Hs']]; [left; lia..|right].
  split; [lia|by eapply str_leb_trans].
Qed.
Lemma amount_leb_antisym a b : amount_leb a b = true → amount_leb b a = true → a = b.
Proof.
  rewrite !amount_leb_spec. intros [?|[? Hs]] [?|[? Hs']]; [lia..|].
  destruct a, b; cbn in *. f_equal; [by apply str_leb_antisym|lia].
Qed.

Lemma sort_entries_refines u l lZ :
  sane_scale u → Forall2 (entry_at u) l lZ → Forall (λ a, fits a.2) lZ →
  ∃ l', sort_entries l = Ok l' ∧ Forall2 (entry_at u) l' (isort amount_leb lZ).
Proof.
  intros Hu Hl Hf. unfold sort_entries.
  set (R := λ (k : fdec * string * BalanceEntry) (a : string * Z),
         k.1.2 = a.1 ∧ at_scale u k.1.1 (- a.2) ∧ entry_at u k.2 a).
  assert (∃ keyed, mapM (λ e, k ← dec_neg e.2; Ok ((k, e.1), e)) l = Ok keyed ∧ Forall2 R keyed lZ)
    as (keyed&->&Hk).
  { induction Hl as [|[p d] [q z] l lZ [Hp Hd] Hl IH]; [exists []; by constructor|].
    apply Forall_cons in Hf as [Hfz Hf]. cbn in Hp, Hd, Hfz. subst q.
    destruct (IH Hf) as (keyed&Hm&HR). destruct (dec_neg_scale u Hu d z Hd Hfz) as (n&Hn&Hnv).
    exists (((n, p), (p, d)) :: keyed). cbn. rewrite Hn. cbn. rewrite Hm. split; [done|].
    constructor; [|done]. by repeat split. }
  step. eexists; split; [done|].
  assert (Hs : Forall2 R (isort (λ a b, key_leb a.1 b.1) keyed) (isort amount_leb lZ)).
  { apply isort_Forall2; [|done]. intros a b x y (Ha1&Ha2&_) (Hb1&Hb2&_).
    unfold key_leb, amount_leb. rewrite (dec_eqb_scale u _ _ _ _ Ha2 Hb2), (dec_leb_scale u _ _ _ _ Ha2 Hb2).
    rewrite Ha1, Hb1. replace (- x.2 =? - y.2) with (x.2 =? y.2) by (apply eq_true_iff_eq; rewrite !Z.eqb_eq; lia).
    replace (- x.2 <=? - y.2) with (y.2 <=? x.2) by (apply eq_true_iff_eq; rewrite !Z.leb_le; lia).
    done. }
  apply Forall2_fmap_l. eapply Forall2_impl; [done|]. by intros a x (_&_&?).
Qed.

(** ** Building the entries *)

Section Entries.
Context (b : string → Z).

Definition creditorsZ (ps : list string) : list (string * Z) :=
  (λ p, (p, b p)) <$> filter (λ p, 0 < b p) ps.
Definition debtorsZ (ps : list string) : list (string * Z) :=
  (λ p, (p, - b p)) <$> filter (λ p, b p < 0) ps.

Lemma classify_refines u balances ps :
  sane_scale u →
  (∀ p, p ∈ ps → at_scale u (balance_of balances p) (b p) ∧ fits (b p)) →
  ∃ cs ds, foldM (classify balances) ([], []) ps = Ok (cs, ds) ∧
    Forall2 (entry_at u) cs (creditorsZ ps) ∧ Forall2 (entry_at u) ds (debtorsZ ps).
Proof using Type.
  intros Hu. unfold creditorsZ, debtorsZ.
  induction ps as [|p ps IH] using rev_ind; intros Hb; [by exists [], []|].
  destruct IH as (cs&ds&Hf&Hcs&Hds); [intros q Hq; apply Hb; set_solver|].
  destruct (Hb p ltac:(set_solver)) as [Hp Hfit].
  rewrite foldM_app, Hf. step. cbn [foldM]. unfold classify.
  rewrite (dec_ltb_scale u ZERO _ 0 (b p)), (dec_ltb_scale u _ ZERO (b p) 0) by (done || apply at_scale_ZERO).
  rewrite !filter_app, !fmap_app.
  destruct (Z.ltb_spec 0 (b p)) as [Hgt|Hle].
  - rewrite filter_cons_True, filter_cons_False by lia. step.
    eexists _, _. split; [done|]. split; [|by rewrite app_nil_r].
    apply Forall2_app; [done|]. by repeat constructor.
  - rewrite filter_cons_False by lia. destruct (Z.ltb_spec (b p) 0) as [Hlt|Hge].
    + destruct (dec_neg_scale u Hu _ _ Hp Hfit) as (n&->&Hn). step.
      rewrite filter_cons_True by lia. eexists _, _. split; [done|].
      split; [by rewrite app_nil_r|]. apply Forall2_app; [done|]. by repeat constructor.
    + step. rewrite filter_cons_False by lia. eexists _, _. split; [done|]. cbn.
      by rewrite !app_nil_r.
Qed.

Lemma creditorsZ_positive ps : positive (creditorsZ ps).
Proof using Type.
  unfold creditorsZ. apply Forall_fmap, Forall_forall. intros p Hp.
  by apply list_elem_of_filter in Hp as [? _].
Qed.
Lemma debtorsZ_positive ps : positive (debtorsZ ps).
Proof using Type.
  unfold debtorsZ. apply Forall_fmap, Forall_forall. intros p Hp.
  apply list_elem_of_filter in Hp as [? _]. cbn. lia.
Qed.

Lemma creditorsZ_total ps p :
  NoDup ps → entry_total p (creditorsZ ps) = if bool_decide (p ∈ ps) then Z.max 0 (b p) else 0.
Proof using Type.
  unfold creditorsZ, entry_total. induction 1 as [|q ps Hq Hps IH]; [done|].
  rewrite filter_cons. destruct (decide (0 < b q)) as [Hpos|Hneg]; cbn [fmap list_fmap zsum fst snd].
  - rewrite IH. destruct (String.eqb_spec q p) as [->|Hne].
    + rewrite bool_decide_false by done. rewrite bool_decide_true by left. lia.
    + rewrite (bool_decide_ext (p ∈ q :: ps) (p ∈ ps)) by set_solver. lia.
  - rewrite IH. destruct (decide (q = p)) as [->|Hne].
    + rewrite bool_decide_false by done. rewrite bool_decide_true by left. lia.
    + by rewrite (bool_decide_ext (p ∈ q :: ps) (p ∈ ps)) by set_solver.
Qed.
Lemma debtorsZ_total ps p :
  NoDup ps → entry_total p (debtorsZ ps) = if bool_decide (p ∈ ps) then Z.max 0 (- b p) else 0.
Proof using Type.
  unfold debtorsZ, entry_total. induction 1 as [|q ps Hq Hps IH]; [done|].
  rewrite filter_cons. destruct (decide (b q < 0)) as [Hpos|Hneg]; cbn [fmap list_fmap zsum fst snd].
  - rewrite IH. destruct (String.eqb_spec q p) as [->|Hne].
    + rewrite bool_decide_false by done. rewrite bool_decide_true by left. lia.
    + rewrite (bool_decide_ext (p ∈ q :: ps) (p ∈ ps)) by set_solver. lia.
  - rewrite IH. destruct (decide (q = p)) as [->|Hne].
    + rewrite bool_decide_false by done. rewrite bool_decide_true by left. lia.
    + by rewrite (bool_decide_ext (p ∈ q :: ps) (p ∈ ps)) by set_solver.
Qed.

Lemma creditorsZ_id ps p : p ∈ (creditorsZ ps).*1 ↔ 0 < b p ∧ p ∈ ps.
Proof using Type.
  unfold creditorsZ. rewrite <- list_fmap_compose. rewrite (list_fmap_ext _ id), list_fmap_id by done.
  by rewrite list_elem_of_filter.
Qed.
Lemma debtorsZ_id ps p : p ∈ (debtorsZ ps).*1 ↔ b p < 0 ∧ p ∈ ps.
Proof using Type.
  unfold debtorsZ. rewrite <- list_fmap_compose. rewrite (list_fmap_ext _ id), list_fmap_id by done.
  by rewrite list_elem_of_filter.
Qed.

Lemma entries_fit ps :
  (∀ p, p ∈ ps → fits (b p)) →
  Forall (λ a, fits a.2) (creditorsZ ps) ∧ Forall (λ a, fits a.2) (debtorsZ ps).
Proof using Type.
  intros Hfit. unfold creditorsZ, debtorsZ. split; apply Forall_fmap, Forall_forall;
    intros p [_ Hp]%list_elem_of_filter; cbn; rewrite ?Z.abs_opp; by apply Hfit.
Qed.

(** Both sides weigh half of the absolute balances. *)
Lemma entries_sums ps :
  zsum (creditorsZ ps).*2 - zsum (debtorsZ ps).*2 = zsum (b <$> ps) ∧
  zsum (creditorsZ ps).*2 + zsum (debtorsZ ps).*2 = zsum ((λ p, Z.abs (b p)) <$> ps).
Proof using Type.
  unfold creditorsZ, debtorsZ. induction ps as [|p ps IH]; [done|]. rewrite !filter_cons.
  destruct (decide (0 < b p)), (decide (b p < 0)); cbn in *; lia.
Qed.
End Entries.

(** ** The runtime on valid inputs *)

(** Valid inputs: distinct named participants, one on-grid balance of [b p]
    minor units each, of total magnitude within the precision. *)
Record settlement_input (ps : list string) (balances : pydict pyval) (currency stype sid : string)
    (u : Z) (b : string → Z) : Prop := {
  si_units : minor_units currency = Ok u;
  si_stype : str_empty stype = false;
  si_sid : str_empty sid = false;
  si_nonempty : ps ≠ [];
  si_nodup : NoDup ps;
  si_named : ∀ p, p ∈ ps → str_empty p = false;
  si_keys : dict_keys balances ≡ₚ ps;
  si_balances : ∀ p v, (p, v) ∈ balances → ∃ d, v = VDec (DFin d) ∧ at_scale u d (b p);
  si_fits : zsum ((λ p, Z.abs (b p)) <$> ps) < 10 ^ 28;
}.

(** The flows computed by the specification. *)
Definition settle_spec (b : string → Z) (ps : list string) : list flow :=
  greedy (length (creditorsZ b ps) + length (debtorsZ b ps))
    (isort amount_leb (creditorsZ b ps)) (isort amount_leb (debtorsZ b ps)).

Section Runtime.
Context (ps : list string) (balances : pydict pyval) (currency stype sid : string)
        (u : Z) (b : string → Z).
Context (Hin : settlement_input ps balances currency stype sid u b).

Lemma si_currency_nonempty : str_empty currency = false.
Proof using Hin.
  destruct (str_empty currency) eqn:E; [|done]. apply String.eqb_eq in E.
  pose proof (si_units _ _ _ _ _ _ _ Hin) as H. by rewrite E in H.
Qed.

Lemma si_fits_one p : p ∈ ps → fits (b p).
Proof using Hin.
  intros Hp. pose proof (si_fits _ _ _ _ _ _ _ Hin).
  assert (Z.abs (b p) <= zsum ((λ p, Z.abs (b p)) <$> ps)); [|lia].
  apply zsum_le_mem; [apply Forall_fmap, Forall_forall; cbn; lia|].
  apply list_elem_of_fmap. eauto.
Qed.

Lemma validate_balance_Ok p v :
  (p, v) ∈ balances → ∃ d, validate_balance ps currency (p, v) = Ok (p, d) ∧ at_scale u d (b p).
Proof using Hin.
  intros Hp. destruct (si_balances _ _ _ _ _ _ _ Hin p v Hp) as (d&->&Hd). exists d. split; [|done].
  assert (p ∈ ps) as Hps.
  { rewrite <- (si_keys _ _ _ _ _ _ _ Hin). apply list_elem_of_fmap. by exists (p, VDec (DFin d)). }
  unfold validate_balance, str_in. rewrite bool_decide_true by done. step. cbn [negb].
  cbn [money_decimal require_finite]. step.
  rewrite (proj2 (validate_amount_iff currency u d d (si_units _ _ _ _ _ _ _ Hin))); [done|].
  split; [done|]. exists (b p). split; [done|by apply si_fits_one].
Qed.

Lemma validate_inputs_refines :
  ∃ bals, validate_inputs ps balances currency stype sid = Ok bals ∧
    dict_keys bals = dict_keys balances ∧ Forall (λ e, at_scale u e.2 (b e.1)) bals.
Proof using Hin.
  unfold validate_inputs. pose proof si_currency_nonempty as Hcur.
  assert (Hm : ∃ bals, mapM (validate_balance ps currency) balances = Ok bals ∧
    dict_keys bals = dict_keys balances ∧ Forall (λ e, at_scale u e.2 (b e.1)) bals).
  { pose proof validate_balance_Ok as Hb. clear Hin. induction balances as [|[p v] l IH]; [by exists []|].
    destruct (Hb p v ltac:(left)) as (d&Hd&Hdv).
    destruct IH as (bals&Hm&Hk&Hf); [intros q w Hq; apply Hb; by right|].
    exists ((p, d) :: bals). cbn [mapM]. rewrite Hd. step. rewrite Hm. step.
    split_and!; [done|cbn; by f_equal|by constructor]. }
  destruct Hin as [Hu Hst Hsid Hne Hnd Hname Hkeys Hbal Hfits].
  rewrite Hst, Hsid, Hcur, (proj2 (has_duplicates_false ps) Hnd).
  destruct ps as [|p0 ps']; [done|]. step.
  rewrite (proj2 (forM_Ok _ _ tt)); [exact Hm|].
  apply Forall_forall. intros p Hp. rewrite raise_when_Ok, negb_false_iff, dict_mem_true. by rewrite Hkeys.
Qed.

Lemma zero_sum_refines bals :
  dict_keys bals = dict_keys balances → Forall (λ e, at_scale u e.2 (b e.1)) bals →
  zsum (b <$> ps) = 0 → validate_balance_zero_sum bals currency = Ok tt.
Proof using Hin.
  intros Hk Hb Hzero. destruct Hin as [Hu _ _ _ _ _ Hkeys _ Hfits].
  pose proof (minor_units_sane _ _ Hu) as Hs.
  assert (Hperm : (λ e : string * fdec, b e.1) <$> bals ≡ₚ b <$> ps).
  { rewrite <- Hkeys, <- Hk. unfold dict_keys. by rewrite <- list_fmap_compose. }
  unfold validate_balance_zero_sum.
  destruct (dec_sum_abs u Hs (dict_values bals) ((λ e, b e.1) <$> bals) ZERO 0) as (r&->&Hr).
  { unfold dict_values. by apply Forall2_fmap_l, Forall2_fmap_r, Forall_Forall2_diag. }
  { apply at_scale_ZERO. }
  { rewrite Hperm, <- list_fmap_compose. exact Hfits. }
  step. rewrite Hperm, Hzero in Hr.
  destruct (quantize_for_currency_val currency u r 0 Hu Hr) as (t&->&Ht); [done|]. step.
  by rewrite (dec_eqb_scale u t ZERO 0 0 Ht (at_scale_ZERO u)).
Qed.

Lemma balance_of_at bals p :
  dict_keys bals = dict_keys balances → Forall (λ e, at_scale u e.2 (b e.1)) bals →
  p ∈ ps → at_scale u (balance_of bals p) (b p).
Proof using Hin.
  intros Hk Hb Hp. unfold balance_of. rewrite <- (si_keys _ _ _ _ _ _ _ Hin), <- Hk in Hp.
  apply dict_mem_true in Hp. unfold dict_mem in Hp. destruct (dict_get p bals) as [d|] eqn:E; [|done].
  apply dict_get_Some_mem in E. rewrite Forall_forall in Hb. by apply (Hb (p, d)).
Qed.

Lemma generate_refines :
  zsum (b <$> ps) = 0 →
  generate_obligations ps balances currency stype sid =
  Ok (Some (isort ob_leb (imap (flow_obligation currency stype sid u) (settle_spec b ps)))).
Proof using Hin.
  intros Hzero. destruct validate_inputs_refines as (bals&Hv&Hk&Hb).
  pose proof si_currency_nonempty as Hcur. pose proof si_fits_one as Hfit.
  unfold generate_obligations. rewrite Hv. step. rewrite zero_sum_refines by done. step.
  pose proof (λ p, balance_of_at bals p Hk Hb) as Hget.
  destruct Hin as [Hu Hst Hsid Hne Hnd Hname Hkeys _ Hfits].
  pose proof (minor_units_sane _ _ Hu) as Hs. unfold build_balance_entries.
  destruct (classify_refines b u bals ps Hs) as (cs&ds&->&Hcs&Hds); [by eauto|]. step.
  destruct (entries_sums b ps) as [Hdiff Hsum], (entries_fit b ps Hfit) as [Hfc Hfd].
  assert (0 <= zsum ((λ p, Z.abs (b p)) <$> ps))
    by (apply zsum_nonneg, Forall_fmap, Forall_forall; cbn; lia).
  destruct (sort_entries_refines u cs _ Hs Hcs Hfc) as (cs'&->&Hcs'). step.
  destruct (sort_entries_refines u ds _ Hs Hds Hfd) as (ds'&->&Hds'). step.
  pose proof (Forall2_length _ _ _ Hcs') as Hlc. pose proof (Forall2_length _ _ _ Hds') as Hld.
  rewrite isort_length in Hlc, Hld.
  rewrite (match_loop_refines currency stype sid u Hu Hcur Hst Hsid _ cs' ds' _ _ [] Hcs' Hds').
  - step. cbn [app length]. unfold settle_spec. rewrite Hlc, Hld. done.
  - rewrite isort_perm. apply creditorsZ_positive.
  - rewrite isort_perm. apply debtorsZ_positive.
  - rewrite isort_perm. lia.
  - rewrite isort_perm. lia.
  - intros c. rewrite !isort_perm, creditorsZ_id, debtorsZ_id. intros [Hc Hcp].
    split; [by apply Hname|]. lia.
  - intros d. rewrite isort_perm, debtorsZ_id. intros [_ Hd]. by apply Hname.
  - lia.
Qed.
End Runtime.

Lemma generate_unbalanced ps balances currency stype sid u b :
  settlement_input ps balances currency stype sid u b → zsum (b <$> ps) ≠ 0 →
  generate_obligations ps balances currency stype sid =
  raise ValueError "balances must sum to zero".
Proof.
  intros Hin Hnz. destruct (validate_inputs_refines _ _ _ _ _ _ _ Hin) as (bals&Hv&Hk&Hb).
  destruct Hin as [Hu _ _ _ _ _ Hkeys _ Hfits]. pose proof (minor_units_sane _ _ Hu) as Hs.
  unfold generate_obligations. rewrite Hv. step. unfold validate_balance_zero_sum.
  assert (Hperm : (λ e : string * fdec, b e.1) <$> bals ≡ₚ b <$> ps).
  { rewrite <- Hkeys, <- Hk. unfold dict_keys. by rewrite <- list_fmap_compose. }
  destruct (dec_sum_abs u Hs (dict_values bals) ((λ e, b e.1) <$> bals) ZERO 0) as (r&->&Hr).
  { unfold dict_values. by apply Forall2_fmap_l, Forall2_fmap_r, Forall_Forall2_diag. }
  { apply at_scale_ZERO. }
  { rewrite Hperm, <- list_fmap_compose. exact Hfits. }
  step. rewrite Hperm, Z.add_0_l in Hr.
  assert (Hfs : fits (zsum (b <$> ps))).
  { enough (Habs : ∀ l : list string, Z.abs (zsum (b <$> l)) <= zsum ((λ p, Z.abs (b p)) <$> l)).
    { specialize (Habs ps). lia. }
    induction l as [|p l IH]; cbn; lia. }
  destruct (quantize_for_currency_val currency u r _ Hu Hr Hfs) as (t&->&Ht). step.
  rewrite (dec_eqb_scale u t ZERO _ 0 Ht (at_scale_ZERO u)).
  by rewrite (proj2 (Z.eqb_neq _ _) Hnz).
Qed.

(** ** Properties of the generated obligations *)

(** Total amount of the obligations in which [p] plays the given role. *)
Definition obligation_total (role : SettlementObligation → string) (p : string)
    (obs : list SettlementObligation) : Q :=
  qsum ((λ o, if String.eqb (role o) p then dval (ob_amount o) else 0%Q) <$> obs).

Lemma qsum_scaled {A} u (sel : A → bool) (n : A → Z) (l : list A) :
  (qsum ((λ x, if sel x then dval (scaled u (n x)) else 0%Q) <$> l) ==
   inject_Z (zsum ((λ x, if sel x then n x else 0%Z) <$> l)) * q10 (- u))%Q.
Proof.
  induction l as [|x l IH]; cbn; [by rewrite Qmult_0_l|]. rewrite IH, inject_Z_plus.
  pose proof (at_scale_scaled u (n x)) as Hs. unfold at_scale in Hs.
  destruct (sel x); [rewrite Hs; ring|]. change (inject_Z 0) with 0%Q. ring.
Qed.

Lemma obligations_totals currency stype sid u fs p :
  let obs := isort ob_leb (imap (flow_obligation currency stype sid u) fs) in
  (obligation_total creditor_id p obs == inject_Z (received p fs) * q10 (- u))%Q ∧
  (obligation_total debtor_id p obs == inject_Z (paid p fs) * q10 (- u))%Q.
Proof.
  cbv zeta. unfold obligation_total. rewrite !isort_perm, !fmap_imap.
  split; (etransitivity; [|apply (qsum_scaled u _ snd)]).
  all: rewrite <- imap_const; apply (eq_subrelation _); f_equal; by apply imap_ext.
Qed.

Lemma settle_spec_net b ps p :
  NoDup ps → zsum (b <$> ps) = 0 → p ∈ ps →
  received p (settle_spec b ps) - paid p (settle_spec b ps) = b p.
Proof.
  intros Hnd Hz Hp. unfold settle_spec. destruct (entries_sums b ps) as [Hd _].
  destruct (greedy_flows (length (creditorsZ b ps) + length (debtorsZ b ps))
    (isort amount_leb (creditorsZ b ps)) (isort amount_leb (debtorsZ b ps))) as [Hr Hpd].
  - rewrite isort_perm. apply creditorsZ_positive.
  - rewrite isort_perm. apply debtorsZ_positive.
  - rewrite !isort_perm. lia.
  - by rewrite !isort_length.
  - rewrite Hr, Hpd. unfold entry_total. rewrite !isort_perm.
    change (entry_total p (creditorsZ b ps) - entry_total p (debtorsZ b ps) = b p).
    rewrite creditorsZ_total, debtorsZ_total, bool_decide_true by done. lia.
Qed.

Lemma settle_spec_perm b ps ps' : ps ≡ₚ ps' → settle_spec b ps = settle_spec b ps'.
Proof.
  intros Hp. unfold settle_spec.
  assert (Hc : creditorsZ b ps ≡ₚ creditorsZ b ps') by (unfold creditorsZ; by rewrite Hp).
  assert (Hd : debtorsZ b ps ≡ₚ debtorsZ b ps') by (unfold debtorsZ; by rewrite Hp).
  rewrite (isort_unique _ amount_leb_total amount_leb_trans _ _ (λ x y _ _, amount_leb_antisym x y) Hc).
  rewrite (isort_unique _ amount_leb_total amount_leb_trans _ _ (λ x y _ _, amount_leb_antisym x y) Hd).
  by rewrite Hc, Hd.
Qed.

(** An obligation comes from a flow between a creditor and a debtor. *)
Lemma obligations_valid currency stype sid u b ps o :
  o ∈ isort ob_leb (imap (flow_obligation currency stype sid u) (settle_spec b ps)) →
  ∃ n, ob_amount o = scaled u n ∧ 0 < n ∧
    0 < b (creditor_id o) ∧ b (debtor_id o) < 0 ∧ creditor_id o ∈ ps ∧ debtor_id o ∈ ps.
Proof.
  rewrite isort_elem_of. intros (i&f&->&Hf%list_elem_of_lookup_2)%elem_of_lookup_imap_1.
  unfold settle_spec in Hf. apply greedy_members in Hf as (Hc&Hd&Hpos&_);
    [|rewrite isort_perm; apply creditorsZ_positive|rewrite isort_perm; apply debtorsZ_positive].
  rewrite isort_perm, creditorsZ_id in Hc. rewrite isort_perm, debtorsZ_id in Hd.
  exists f.2. cbn. tauto.
Qed.

Lemma ob_leb_total a b : ob_leb a b = true ∨ ob_leb b a = true.
Proof.
  unfold ob_leb. rewrite (String.eqb_sym (creditor_id b)).
  destruct (String.eqb _ _); apply str_leb_total.
Qed.
Lemma ob_leb_trans a b c : ob_leb a b = true → ob_leb b c = true → ob_leb a c = true.
Proof.
  unfold ob_leb. destruct (String.eqb_spec (creditor_id a) (creditor_id b)) as [Hab|Hab],
    (String.eqb_spec (creditor_id b) (creditor_id c)) as [Hbc|Hbc].
  - rewrite Hab, Hbc, String.eqb_refl. apply str_leb_trans.
  - rewrite Hab. by apply String.eqb_neq in Hbc as ->.
  - rewrite <- Hbc. by apply String.eqb_neq in Hab as ->.
  - intros H1 H2. destruct (String.eqb_spec (creditor_id a) (creditor_id c)) as [Hac|Hac].
    + destruct Hab. apply str_leb_antisym; [done|]. by rewrite Hac.
    + by eapply str_leb_trans.
Qed.

(** * Claims *)

(** C2: settlement clears every balance.  On valid inputs whose balances sum
    to zero the runtime returns (the loop terminates within its bound and no
    constructor rejects an obligation), and for every participant the amounts
    received minus the amounts paid equal the participant's balance. *)
Theorem settlement_clears_balances ps balances currency stype sid u b :
  settlement_input ps balances currency stype sid u b → zsum (b <$> ps) = 0 →
  ∃ obs, generate_obligations ps balances currency stype sid = Ok (Some obs) ∧
    ∀ p, p ∈ ps →
      (obligation_total creditor_id p obs - obligation_total debtor_id p obs ==
       inject_Z (b p) * q10 (- u))%Q.
Proof.
  intros Hin Hz. eexists. split; [by eapply generate_refines|]. intros p Hp.
  destruct (obligations_totals currency stype sid u (settle_spec b ps) p) as [-> ->].
  pose proof (settle_spec_net b ps p (si_nodup _ _ _ _ _ _ _ Hin) Hz Hp) as <-.
  unfold Z.sub. rewrite inject_Z_plus, inject_Z_opp. ring.
Qed.

Definition demo_balances : pydict pyval :=
  [("o", dec_cents 6000); ("a", dec_cents (-3500)); ("b", dec_cents (-2500))].
Definition demo_units (p : string) : Z :=
  if String.eqb p "o" then 6000 else if String.eqb p "a" then -3500 else -2500.

Lemma demo_settlement_input ps :
  ps = ["o"; "a"; "b"] ∨ ps = ["b"; "o"; "a"] →
  settlement_input ps demo_balances "SGD" "receipt_split" "calc_001" 2 demo_units.
Proof.
  intros Hps. split; [by vm_compute|done|done|by destruct Hps as [-> | ->]| | | | |].
  - destruct Hps as [-> | ->]; by apply (bool_decide_unpack _); vm_compute.
  - intros p. destruct Hps as [-> | ->]; intros Hp;
      repeat (apply elem_of_cons in Hp as [->|Hp]; [done|]); by apply elem_of_nil in Hp.
  - destruct Hps as [-> | ->]; apply (bool_decide_unpack _); by vm_compute.
  - intros p v Hp. repeat (apply elem_of_cons in Hp as [[= -> ->]|Hp];
      [eexists; split; [done|by vm_compute]|]). by apply elem_of_nil in Hp.
  - destruct Hps as [-> | ->]; by vm_compute.
Defined.

Lemma settlement_clears_balances_witness :
  ∃ obs, generate_obligations ["o"; "a"; "b"] demo_balances "SGD" "receipt_split" "calc_001" = Ok (Some obs).
Proof.
  destruct (settlement_clears_balances ["o"; "a"; "b"] demo_balances "SGD" "receipt_split" "calc_001"
    2 demo_units (demo_settlement_input _ (or_introl eq_refl)) ltac:(by vm_compute)) as (obs&H&_).
  exists obs. exact H.
Defined.

(** every obligation is sound.  Each one carries a positive whole number
    of minor units from a participant with a negative balance to one with a
    positive balance (never to the debtor itself), the list is ordered by
    creditor and debtor, and there are fewer obligations than participants. *)
Theorem settlement_obligations_sound ps balances currency stype sid u b :
  settlement_input ps balances currency stype sid u b → zsum (b <$> ps) = 0 →
  ∃ obs, generate_obligations ps balances currency stype sid = Ok (Some obs) ∧
    (∀ o, o ∈ obs → ∃ n, ob_amount o = scaled u n ∧ 0 < n ∧
       0 < b (creditor_id o) ∧ b (debtor_id o) < 0 ∧ creditor_id o ≠ debtor_id o ∧
       creditor_id o ∈ ps ∧ debtor_id o ∈ ps) ∧
    StronglySorted ob_leb obs ∧
    (length obs <= length ps - 1)%nat.
Proof.
  intros Hin Hz. eexists. split; [by eapply generate_refines|]. split_and!.
  - intros o (n&Ha&Hn&Hc&Hd&Hcp&Hdp)%obligations_valid. exists n. split_and!; try done.
    intros Heq. rewrite Heq in Hc. lia.
  - apply isort_ssorted; [apply ob_leb_total|apply ob_leb_trans].
  - rewrite isort_length, length_imap. unfold settle_spec.
    etransitivity; [apply greedy_length|]. rewrite !isort_length.
    unfold creditorsZ, debtorsZ. rewrite !length_fmap. clear Hin Hz.
    enough (length (filter (λ p, (0 < b p)%Z) ps) + length (filter (λ p, (b p < 0)%Z) ps) <= length ps)%nat by lia.
    induction ps as [|p l IH]; [done|]. rewrite !filter_cons.
    destruct (decide (0 < b p)), (decide (b p < 0)); cbn [length]; lia.
Qed.

Lemma settlement_obligations_sound_witness :
  ∃ obs, generate_obligations ["o"; "a"; "b"] demo_balances "SGD" "receipt_split" "calc_001" = Ok (Some obs)
    ∧ (length obs <= 2)%nat.
Proof.
  destruct (settlement_obligations_sound ["o"; "a"; "b"] demo_balances "SGD" "receipt_split" "calc_001"
    2 demo_units (demo_settlement_input _ (or_introl eq_refl)) ltac:(by vm_compute)) as (obs&H&_&_&Hl).
  exists obs. split; [exact H|exact Hl].
Defined.

(** C20: settlement is deterministic.  Listing the same participants and
    balances in another order produces exactly the same obligations, down to
    their identifiers. *)
Theorem settlement_order_independent ps ps' balances balances' currency stype sid u b :
  settlement_input ps balances currency stype sid u b →
  settlement_input ps' balances' currency stype sid u b → ps ≡ₚ ps' →
  generate_obligations ps balances currency stype sid =
  generate_obligations ps' balances' currency stype sid.
Proof.
  intros Hin Hin' Hp. destruct (Z.eq_dec (zsum (b <$> ps)) 0) as [Hz|Hz].
  - rewrite (generate_refines _ _ _ _ _ _ _ Hin Hz), (settle_spec_perm b ps ps' Hp).
    rewrite Hp in Hz. by rewrite (generate_refines _ _ _ _ _ _ _ Hin' Hz).
  - rewrite (generate_unbalanced _ _ _ _ _ _ _ Hin Hz).
    rewrite Hp in Hz. by rewrite (generate_unbalanced _ _ _ _ _ _ _ Hin' Hz).
Qed.

Lemma settlement_order_independent_witness :
  generate_obligations ["o"; "a"; "b"] demo_balances "SGD" "receipt_split" "calc_001" =
  generate_obligations ["b"; "o"; "a"] demo_balances "SGD" "receipt_split" "calc_001".
Proof.
  apply (settlement_order_independent _ _ _ _ _ _ _ 2 demo_units
    (demo_settlement_input _ (or_introl eq_refl)) (demo_settlement_input _ (or_intror eq_refl))).
  apply (bool_decide_unpack _). by vm_compute.
Defined.

(** Unbalanced input is refused.  Valid balances that do not sum to zero
    raise [ValueError] and produce no obligation. *)
Theorem settlement_rejects_unbalanced ps balances currency stype sid u b :
  settlement_input ps balances currency stype sid u b → zsum (b <$> ps) ≠ 0 →
  generate_obligations ps balances currency stype sid =
  raise ValueError "balances must sum to zero".
Proof. intros. by eapply generate_unbalanced. Qed.

Lemma settlement_rejects_unbalanced_witness :
  generate_obligations ["o"] [("o", dec_cents 6000)] "SGD" "t" "s" =
  raise ValueError "balances must sum to zero".
Proof.
  apply (settlement_rejects_unbalanced ["o"] [("o", dec_cents 6000)] "SGD" "t" "s" 2 (λ _, 6000)).
  - split; [by vm_compute|done|done|done| | | | |].
    + apply (bool_decide_unpack _). by vm_compute.
    + by intros p [->|?%elem_of_nil]%elem_of_cons.
    + done.
    + intros p v [[= -> ->]|?%elem_of_nil]%elem_of_cons; [|done]. eexists; split; [done|by vm_compute].
    + by vm_compute.
  - done.
Defined.
