(* ===== verification/SplitCalculator.v ===== *)
(** * Receipt split calculator
      ([finance_core/calculators/receipt_split_calculator.py], the main calculator)

    From a case (nested dictionaries of Python values) to participant shares,
    paid amounts and settlement obligations.  Participant identifiers are
    strings, as the source annotates them; texts that only appear in messages
    are left out. *)

From Stdlib Require Import Ascii ZArith QArith Qabs Lqa Lia.
From stdpp Require Import base sets strings sorting numbers list.
From S2P Require Import Prelude PyDecimal DecUnits PyValue Money Allocation Settlement.

Open Scope Z_scope.

Definition ADD_DIRECTIONS : list string := ["add"; "charge"].
Definition SUBTRACT_DIRECTIONS : list string := ["subtract"; "discount"].

(** ** Authoritative monetary input *)

(** The [except MoneyValidationError] clauses: [TypeError] for a float,
    [ValueError] otherwise. *)
Definition reraise_as_value_error {A} (value : pyval) (m : result A) : result A :=
  catch m MoneyValidationError (λ e,
    if is_float value then raise TypeError "currency values must not be floats"
    else raise ValueError (exn_site e)).

Definition authoritative_money (value : pyval) (currency : string) (sign_policy : SignPolicy) :
    result fdec :=
  amount ← reraise_as_value_error value (money_decimal value);
  validate_amount_for_currency amount currency;;
  enforce sign_policy amount;;
  Ok amount.

Definition authoritative_service_charge_rate (value : pyval) : result fdec :=
  rate ← reraise_as_value_error value (money_decimal value);
  raise_when (dec_ltb rate ZERO) MoneyValidationError "rate must be non-negative";;
  raise_when (dec_leb (mkdec false 100 (-2)) rate) MoneyValidationError "rate must be less than 1.00";;
  Ok rate.

(** The product is computed in a context wide enough to be exact, then
    quantized once.  The powers of 0.1 are exact in every context. *)
Definition quantized_service_charge_from_rate (item_total rate : fdec) (currency : string) :
    result fdec :=
  let multiplication_precision :=
    Z.max 1 (ndigits (zcoef item_total) + ndigits (zcoef rate)) in
  exact_product ← dec_mul_ctx (context_with_prec multiplication_precision) item_total rate;
  units ← minor_units currency;
  let quantized_precision := Z.max 1 (adjusted exact_product + units + 2) in
  let ctx := context_with_prec (Z.max multiplication_precision quantized_precision) in
  quantum ← quantum_for_units units;
  quantize_ctx ctx ROUND_HALF_UP exact_product quantum.

Definition round_for_currency (value : fdec) (currency : string) : result fdec :=
  quantize_for_currency value currency.

(** ** Participants *)

Definition empty_shares (participants : list string) : pydict fdec :=
  dict_build (λ _, ZERO) participants.

Definition rounded_share_map (shares : pydict fdec) (currency : string) : result (pydict fdec) :=
  mapM (λ '(p, a), r ← round_for_currency a currency; Ok (p, r)) shares.

Definition require_participant (p : string) (shares : pydict fdec) : result unit :=
  raise_when (negb (dict_mem p shares)) ValueError "unknown participant".

Definition require_no_duplicates_in_list (values : list string) : result unit :=
  raise_when (has_duplicates values) ValueError "duplicates are not allowed".

(** [list(v)] of identifiers. *)
Definition str_list (v : pyval) : result (list string) :=
  l ← py_iter v;
  mapM py_str l.

Definition item_participants (item : pydict pyval) : result (list string) :=
  str_list (py_or (get item "participants")
             (py_or (get item "consumers") (py_or (get item "owners") (VList [])))).

Definition append_unique (values : list string) (value : pyval) : result (list string) :=
  if is_none value then Ok values
  else
    v ← py_str value;
    Ok (if str_in v values then values else values ++ [v]).

(** [(d.get(key) or {}).keys()]. *)
Definition allocation_keys (d : pydict pyval) (key : string) : result (list string) :=
  a ← py_items (py_or (get d key) (VDict []));
  Ok (dict_keys a).

Definition append_all (values : list string) (l : list string) : result (list string) :=
  foldM (λ vs s, append_unique vs (VStr s)) values l.

(** The participants a receipt mentions, in order of appearance. *)
Definition receipt_participants (case_payer : pyval) (participants : list string)
    (receipt : pyval) : result (list string) :=
  receipt ← py_items receipt;
  participants ← append_unique participants (get_default receipt "paid_by" case_payer);
  items ← py_iter (get_default receipt "items" (VList []));
  participants ← foldM (λ ps item,
    item ← py_items item;
    l ← item_participants item;
    ps ← append_all ps l;
    ks ← allocation_keys item "allocations";
    append_all ps ks) participants items;
  adjustments ← py_iter (get_default receipt "adjustments" (VList []));
  participants ← foldM (λ ps adjustment,
    adjustment ← py_items adjustment;
    ks ← allocation_keys adjustment "allocations";
    append_all ps ks) participants adjustments;
  ks ← allocation_keys receipt "discount_allocations";
  append_all participants ks.

(** [d[k]]. *)
Definition index (d : pydict pyval) (k : string) : result pyval := dict_index k d.

Definition case_participants (case_data : pydict pyval) : result (list string) :=
  participants ← str_list (get_default case_data "participants" (VList []));
  participants ←
    match participants with
    | [] =>
        rs ← index case_data "receipts";
        receipts ← py_iter rs;
        foldM (receipt_participants (get case_data "payer")) [] receipts
    | _ => Ok participants
    end;
  raise_when (match participants with [] => true | _ => false end) ValueError
    "at least one participant is required";;
  Ok participants.

Definition validate_primary_payer (primary_payer : pyval) (participants actual_payers : list string) :
    result string :=
  match primary_payer with
  | VStr p =>
      raise_when (str_empty p) ValueError "payer must be non-empty";;
      raise_when (negb (str_in p participants)) ValueError "payer is not in the participant set";;
      raise_when (negb (str_in p actual_payers)) ValueError "payer did not pay any receipt";;
      raise_when (match actual_payers with [q] => negb (String.eqb p q) | _ => false end) ValueError
        "payer is not the sole actual payer";;
      Ok p
  | _ => raise ValueError "payer must be a participant public ID"
  end.

Definition resolve_authoritative_currency (case_data : pydict pyval) : result string :=
  let raw := get case_data "currency" in
  raise_when (is_none raw) MoneyValidationError "top-level currency is required";;
  normalize_currency raw.

(** ** Item shares *)

(** [shares[p] += amount]. *)
Definition add_share (p : string) (amount : fdec) (shares : pydict fdec) : result (pydict fdec) :=
  s ← dict_index p shares;
  s' ← dec_add s amount;
  Ok (dict_set p s' shares).

Definition sub_share (p : string) (amount : fdec) (shares : pydict fdec) : result (pydict fdec) :=
  s ← dict_index p shares;
  s' ← dec_sub s amount;
  Ok (dict_set p s' shares).

(** The manual branch shared by items and adjustments. *)
Definition manual_allocations (manual : pyval) (amount : fdec) (currency : string)
    (allocations : pydict fdec) : result (pydict fdec) :=
  raise_when (negb (py_truth manual)) ValueError "manual allocation is missing allocations";;
  entries ← py_items manual;
  allocations ← foldM (λ acc '(p, v),
    require_participant p acc;;
    a ← authoritative_money v currency NON_NEGATIVE;
    Ok (dict_set p a acc)) allocations entries;
  total ← dec_sum ZERO (dict_values allocations);
  raise_when (negb (dec_eqb total amount)) ValueError "manual allocations do not sum to amount";;
  Ok allocations.

Definition item_allocations (item : pydict pyval) (amount : fdec) (allocation_method : pyval)
    (all_participants : list string) (currency : string) : result (pydict fdec) :=
  let allocations := empty_shares all_participants in
  equal ← py_in_strs allocation_method ["equal"; "equal_among_consumers"];
  if equal : bool then
    ps ← item_participants item;
    raise_when (match ps with [] => true | _ => false end) ValueError "item has no participants";;
    require_no_duplicates_in_list ps;;
    split_amount ← dec_div amount (dec_of_Z (Z.of_nat (length ps)));
    foldM (λ acc p,
      require_participant p acc;;
      add_share p split_amount acc) allocations ps
  else if py_eq_str allocation_method "manual" then
    manual_allocations (get item "allocations") amount currency allocations
  else raise ValueError "unsupported item allocation method".

Record item_detail := ItemDetail {
  id_description : pyval;
  id_amount : fdec;
  id_allocation_method : pyval;
  id_participant_allocations : pydict fdec;
}.

Definition item_step (all_participants : list string) (currency : string)
    (st : pydict fdec * list item_detail) (item : pyval) :
    result (pydict fdec * list item_detail) :=
  let '(shares, details) := st in
  item ← py_items item;
  amount ← authoritative_money (get_default item "amount" (get item "line_amount")) currency
             NON_NEGATIVE;
  let allocation_method := get_default item "allocation_method" (VStr "equal") in
  allocations ← item_allocations item amount allocation_method all_participants currency;
  shares ← foldM (λ sh '(p, a), add_share p a sh) shares allocations;
  Ok (shares, details ++ [ItemDetail
        (py_or (get item "description") (py_or (get item "name") (get item "item_name")))
        amount allocation_method allocations]).

Definition item_shares (receipt : pydict pyval) (all_participants : list string)
    (currency : string) : result (pydict fdec * list item_detail) :=
  items ← index receipt "items";
  items ← py_iter items;
  foldM (item_step all_participants currency) (empty_shares all_participants, []) items.

(** ** Adjustments *)

Record adjustment := Adjustment {
  adj_type : pyval;
  adj_direction : pyval;
  adj_method : pyval;
  adj_amount : fdec;
  adj_allocations : pyval;
  adj_participants : pyval;
}.

Definition service_charge_amount (receipt : pydict pyval) (item_total : fdec) (currency : string) :
    result fdec :=
  if dict_mem "service_charge_amount" receipt then
    authoritative_money (get receipt "service_charge_amount") currency NON_NEGATIVE
  else if dict_mem "service_charge_rate" receipt then
    v ← index receipt "service_charge_rate";
    rate ← authoritative_service_charge_rate v;
    quantized_service_charge_from_rate item_total rate currency
  else Ok ZERO.

Definition normalize_adjustment (adj : pyval) (currency : string) : result adjustment :=
  adj ← py_items adj;
  let adjustment_type := py_or (get adj "type") (get adj "adjustment_type") in
  raise_when (is_none adjustment_type) ValueError "adjustment type is required";;
  direction ←
    (if is_none (get adj "direction") then
       b ← py_in_strs adjustment_type ["discount"; "voucher"; "promotion"];
       Ok (VStr (if b : bool then "subtract" else "add"))
     else Ok (get adj "direction"));
  raise_when (is_none (get adj "allocation_method")) ValueError "allocation method is required";;
  v ← index adj "amount";
  amount ← authoritative_money v currency NON_NEGATIVE;
  Ok (Adjustment adjustment_type direction (get adj "allocation_method") amount
        (get adj "allocations") (get adj "participants")).

Definition receipt_adjustments (receipt : pydict pyval) (item_total : fdec) (currency : string) :
    result (list adjustment) :=
  service_amount ← service_charge_amount receipt item_total currency;
  let service_method :=
    get_default receipt "service_charge_allocation_method" (VStr "proportional_by_item_amount") in
  let service :=
    if negb (dec_eqb service_amount ZERO) || py_eq_str service_method "manual"
    then [Adjustment (VStr "service_charge") (VStr "add") service_method service_amount
            (get receipt "service_charge_allocations") (get receipt "service_charge_participants")]
    else [] in
  raw ← py_iter (get_default receipt "adjustments" (VList []));
  listed ← mapM (λ a, normalize_adjustment a currency) raw;
  discount ← authoritative_money (get_default receipt "discount" (dec_val ZERO)) currency
               NON_NEGATIVE;
  let discount_method := get receipt "discount_allocation_method" in
  let discounts :=
    if negb (dec_eqb discount ZERO) || py_eq_str discount_method "manual"
    then [Adjustment (VStr "discount") (VStr "subtract") discount_method discount
            (get receipt "discount_allocations") (get receipt "discount_participants")]
    else [] in
  Ok (service ++ listed ++ discounts).

(** [amount * share / base_total] for every non-zero share. *)
Definition proportional_allocations (amount : fdec) (base_shares : pydict fdec) :
    result (pydict fdec) :=
  base_total ← dec_sum ZERO (dict_values base_shares);
  raise_when (dec_eqb base_total ZERO) ValueError "proportional allocation needs a non-zero base";;
  foldM (λ acc '(p, share),
    if dec_eqb share ZERO then Ok acc
    else
      x ← dec_mul amount share;
      a ← dec_div x base_total;
      Ok (dict_set p a acc)) (empty_shares (dict_keys base_shares)) base_shares.

Definition active_adjustment_participants (adj : adjustment) (current_shares : pydict fdec)
    (participants : list string) : result (list string) :=
  if py_truth (adj_participants adj) then
    ps ← str_list (adj_participants adj);
    forM_ ps (λ p, require_participant p current_shares);;
    Ok ps
  else
    active ← foldM (λ acc p,
      s ← dict_index p current_shares;
      Ok (if dec_eqb s ZERO then acc else acc ++ [p])) [] participants;
    raise_when (match active with [] => true | _ => false end) ValueError
      "equal allocation requires an active participant";;
    Ok active.

Definition adjustment_allocations (adj : adjustment) (receipt : pydict pyval)
    (item_shares current_shares : pydict fdec) (participants : list string) (currency : string) :
    result (pydict fdec) :=
  let allocations := empty_shares participants in
  let amount := adj_amount adj in
  let method := adj_method adj in
  if py_eq_str method "manual" then
    manual_allocations (adj_allocations adj) amount currency allocations
  else if dec_eqb amount ZERO then Ok allocations
  else if is_none method then raise ValueError "allocation method is required"
  else if py_eq_str method "payer_only" then
    v ← index receipt "paid_by";
    p ← py_str v;
    Ok (dict_set p amount allocations)
  else if py_eq_str method "equal_per_participant" then
    active ← active_adjustment_participants adj current_shares participants;
    require_no_duplicates_in_list active;;
    per_participant ← dec_div amount (dec_of_Z (Z.of_nat (length active)));
    Ok (foldl (λ acc p, dict_set p per_participant acc) allocations active)
  else if py_eq_str method "proportional_by_item_amount" then
    proportional_allocations amount item_shares
  else if py_eq_str method "proportional_by_net_amount" then
    proportional_allocations amount current_shares
  else raise ValueError "unsupported adjustment allocation method".

Record adjustment_detail := AdjustmentDetail {
  ad_type : pyval;
  ad_direction : pyval;
  ad_method : pyval;
  ad_amount : fdec;
  ad_participant_allocations : pydict fdec;
}.

(** [running_shares[participant] += amount] or [-=], by direction. *)
Definition apply_allocation (direction : pyval) (shares : pydict fdec) (entry : string * fdec) :
    result (pydict fdec) :=
  let '(p, amount) := entry in
  add ← py_in_strs direction ADD_DIRECTIONS;
  if add : bool then add_share p amount shares
  else
    sub ← py_in_strs direction SUBTRACT_DIRECTIONS;
    if sub : bool then sub_share p amount shares
    else raise ValueError "unsupported adjustment direction".

Definition adjustment_step (receipt : pydict pyval) (item_shares : pydict fdec)
    (all_participants : list string) (currency : string)
    (st : pydict fdec * list adjustment_detail) (adj : adjustment) :
    result (pydict fdec * list adjustment_detail) :=
  let '(running_shares, details) := st in
  allocations ← adjustment_allocations adj receipt item_shares running_shares all_participants
                  currency;
  running_shares ← foldM (apply_allocation (adj_direction adj)) running_shares allocations;
  Ok (running_shares,
      details ++ [AdjustmentDetail (adj_type adj) (adj_direction adj) (adj_method adj)
                    (adj_amount adj) allocations]).

Definition receipt_net_paid (receipt : pydict pyval) (item_total : fdec)
    (adjustments : list adjustment) (currency : string) : result fdec :=
  if dict_mem "net_paid" receipt then
    v ← index receipt "net_paid";
    authoritative_money v currency NON_NEGATIVE
  else
    net_paid ← foldM (λ acc adj,
      add ← py_in_strs (adj_direction adj) ADD_DIRECTIONS;
      if add : bool then dec_add acc (adj_amount adj)
      else
        sub ← py_in_strs (adj_direction adj) SUBTRACT_DIRECTIONS;
        if sub : bool then dec_sub acc (adj_amount adj) else Ok acc) item_total adjustments;
    round_for_currency net_paid currency.

(** ** One receipt *)

Record ExactReceiptShares := MkExactReceiptShares {
  ex_item_total : fdec;
  ex_net_paid : fdec;
  ex_participant_shares : pydict fdec;
  ex_adjustments : list adjustment;
  ex_adjustment_details : list adjustment_detail;
}.

Definition require_non_negative_exact_shares (exact_shares : pydict fdec)
    (all_participants : list string) : result unit :=
  forM_ all_participants (λ p,
    raise_when (dec_ltb (share_of exact_shares p) ZERO) MoneyValidationError
      "exact share must be non-negative").

Definition compute_exact_receipt_shares (receipt : pydict pyval) (all_participants : list string)
    (currency : string) : result ExactReceiptShares :=
  '(item_sh, _) ← item_shares receipt all_participants currency;
  item_total ← dec_sum ZERO (dict_values item_sh);
  item_total ←
    (if dict_mem "subtotal" receipt then
       v ← index receipt "subtotal";
       expected_subtotal ← authoritative_money v currency NON_NEGATIVE;
       raise_when (negb (dec_eqb item_total expected_subtotal)) ValueError
         "item total does not match subtotal";;
       Ok item_total
     else round_for_currency item_total currency);
  adjustments ← receipt_adjustments receipt item_total currency;
  '(running_shares, details) ←
    foldM (adjustment_step receipt item_sh all_participants currency) (item_sh, []) adjustments;
  net_paid ← receipt_net_paid receipt item_total adjustments currency;
  validate_exact_reconciliation running_shares net_paid;;
  require_non_negative_exact_shares running_shares all_participants;;
  Ok (MkExactReceiptShares item_total net_paid running_shares adjustments details).

Definition nested_currencies (key : string) (receipt : pydict pyval) (currency : string) :
    result unit :=
  l ← py_iter (get_default receipt key (VList []));
  forM_ l (λ entry,
    entry ← py_items entry;
    if is_none (get entry "currency") then Ok tt
    else require_same_currency (VStr currency) (get entry "currency")).

Definition validate_nested_currency_consistency (receipt : pydict pyval) (currency : string) :
    result unit :=
  nested_currencies "items" receipt currency;;
  nested_currencies "adjustments" receipt currency.

(** A rounding policy that is not a string behaves like any unsupported one. *)
Definition policy_name (v : pyval) : string := match v with VStr s => s | _ => "" end.

Record rounding_adjustment := RoundingAdjustment {
  ra_participant : string;
  ra_amount : fdec;
  ra_policy : string;
}.

Record receipt_result := ReceiptResult {
  rr_receipt_id : pyval;
  rr_label : pyval;
  rr_merchant : pyval;
  rr_currency : string;
  rr_paid_by : string;
  rr_net_paid : fdec;
  rr_item_shares : pydict fdec;
  rr_items : list item_detail;
  rr_adjustments : list adjustment_detail;
  rr_participant_shares : pydict fdec;
  rr_rounding_adjustments : list rounding_adjustment;
  rr_rounding_adjustment : fdec;
  rr_rounding_adjustment_participant : option string;
}.

Definition rounding_adjustments (final_shares running_shares : pydict fdec) (policy : string)
    (all_participants : list string) (currency : string) : result (list rounding_adjustment) :=
  foldM (λ acc p,
    f ← dict_index p final_shares;
    r ← dict_index p running_shares;
    diff ← dec_sub f r;
    quantized_diff ← round_for_currency diff currency;
    Ok (if dec_eqb quantized_diff ZERO then acc
        else acc ++ [RoundingAdjustment p quantized_diff policy])) [] all_participants.

Definition calculate_receipt (receipt : pydict pyval) (all_participants : list string)
    (currency : string) : result receipt_result :=
  payer ←
    match get receipt "paid_by" with
    | VNone => raise ValueError "receipt payer is required"
    | VStr p => raise_when (negb (str_in p all_participants)) ValueError "unknown payer";; Ok p
    | _ => raise ValueError "unknown payer"
    end;
  require_same_currency (VStr currency) (get_default receipt "currency" (VStr currency));;
  validate_nested_currency_consistency receipt currency;;
  '(item_sh, item_details) ← item_shares receipt all_participants currency;
  exact ← compute_exact_receipt_shares receipt all_participants currency;
  let running_shares := ex_participant_shares exact in
  let net_paid := ex_net_paid exact in
  let policy := policy_name (get_default receipt "rounding_policy" (VStr "largest_remainder")) in
  final_shares ← allocate_minor_units running_shares net_paid currency all_participants policy
                   (if is_payer_policy policy then Some payer else None);
  adjustments ← rounding_adjustments final_shares running_shares policy all_participants currency;
  rounded_items ← rounded_share_map item_sh currency;
  total ← dec_sum ZERO (ra_amount <$> adjustments);
  rounding ← round_for_currency total currency;
  Ok {| rr_receipt_id := py_or (get receipt "receipt_id") (get receipt "id");
        rr_label := py_or (get receipt "label") (get receipt "merchant");
        rr_merchant := py_or (get receipt "merchant") (get receipt "label");
        rr_currency := currency;
        rr_paid_by := payer;
        rr_net_paid := net_paid;
        rr_item_shares := rounded_items;
        rr_items := item_details;
        rr_adjustments := ex_adjustment_details exact;
        rr_participant_shares := final_shares;
        rr_rounding_adjustments := adjustments;
        rr_rounding_adjustment := rounding;
        rr_rounding_adjustment_participant :=
          match adjustments with [] => None | _ => Some payer end |}.

(** ** Settlement of the whole case *)

Record obligation := Obligation {
  o_debtor : string;
  o_creditor : string;
  o_amount : fdec;
  o_currency : string;
}.

Definition classify_balance (shares paid : pydict fdec) (currency : string)
    (acc : list BalanceEntry * list BalanceEntry) (p : string) :
    result (list BalanceEntry * list BalanceEntry) :=
  let '(debtors, creditors) := acc in
  x ← dict_index p paid;
  y ← dict_index p shares;
  d ← dec_sub x y;
  balance ← round_for_currency d currency;
  if dec_ltb balance ZERO then
    n ← dec_neg balance;
    Ok (debtors ++ [(p, n)], creditors)
  else if dec_ltb ZERO balance then Ok (debtors, creditors ++ [(p, balance)])
  else Ok (debtors, creditors).

(** The entries from the current indices on, and the obligations so far. *)
Record settle_state := SettleState {
  ss_debtors : list BalanceEntry;
  ss_creditors : list BalanceEntry;
  ss_obligations : list obligation;
}.

Definition settle_step (currency : string) (st : settle_state) : result (option settle_state) :=
  match ss_debtors st, ss_creditors st with
  | (debtor, damount) :: ds, (creditor, camount) :: cs =>
      let amount := dec_min damount camount in
      obligations ←
        (if dec_eqb amount ZERO then Ok (ss_obligations st)
         else
           r ← round_for_currency amount currency;
           Ok (ss_obligations st ++ [Obligation debtor creditor r currency]));
      d ← (x ← dec_sub damount amount; round_for_currency x currency);
      c ← (x ← dec_sub camount amount; round_for_currency x currency);
      Ok (Some (SettleState (if dec_eqb d ZERO then ds else (debtor, d) :: ds)
                            (if dec_eqb c ZERO then cs else (creditor, c) :: cs)
                            obligations))
  | _, _ => Ok None
  end.

(** [None]: the bound on the number of iterations was reached. *)
Fixpoint settle_loop (currency : string) (fuel : nat) (st : settle_state) :
    result (option settle_state) :=
  next ← settle_step currency st;
  match next, fuel with
  | None, _ => Ok (Some st)
  | Some st', S fuel => settle_loop currency fuel st'
  | Some _, O => Ok None
  end.

Definition settlement_obligations (participants : list string) (shares paid : pydict fdec)
    (currency : string) : result (option (list obligation)) :=
  '(debtors, creditors) ← foldM (classify_balance shares paid currency) ([], []) participants;
  debtors ← sort_entries debtors;
  creditors ← sort_entries creditors;
  final ← settle_loop currency (length debtors + length creditors)
            (SettleState debtors creditors []);
  match final with
  | None => Ok None
  | Some st =>
      raise_when (negb (match ss_debtors st, ss_creditors st with [], [] => true | _, _ => false end))
        ValueError "settlement obligations do not balance";;
      forM_ (ss_obligations st) (λ o,
        raise_when (negb (String.eqb (o_currency o) currency)) CurrencyMismatchError
          "obligation currency");;
      Ok (Some (ss_obligations st))
  end.

(** ** The calculator *)

Inductive case_obligations :=
  | PayerObligations (by_debtor : pydict fdec)
  | AllObligations (l : list obligation).

(** The fields that exist only when there is a primary payer. *)
Record payer_view := PayerView {
  pv_payer_own_share : fdec;
  pv_total_to_collect : fdec;
  pv_total_paid_by_payer : fdec;
}.

Record split_result := SplitResult {
  sr_case_id : pyval;
  sr_currency : string;
  sr_status : pyval;
  sr_participants : list string;
  sr_payer : option string;
  sr_participant_shares : pydict fdec;
  sr_payer_paid_amounts : pydict fdec;
  sr_payer_own_shares : pydict fdec;
  sr_settlement_obligations : list obligation;
  sr_total_paid : fdec;
  sr_receipts : list receipt_result;
  sr_participant_display_names : option (pydict pyval);
  sr_obligations : case_obligations;
  sr_payer_view : option payer_view;
}.

(** The accumulators of the loop over the receipts. *)
Record totals := Totals {
  t_shares : pydict fdec;
  t_paid : pydict fdec;
  t_results : list receipt_result;
}.

Definition receipt_step (participants : list string) (currency : string) (st : totals)
    (receipt : pyval) : result totals :=
  receipt ← py_items receipt;
  let receipt_currency := get_default receipt "currency" (VStr currency) in
  raise_when (is_none receipt_currency) ValueError "receipt currency is required";;
  require_same_currency (VStr currency) receipt_currency;;
  rr ← calculate_receipt receipt participants currency;
  paid ← add_share (rr_paid_by rr) (rr_net_paid rr) (t_paid st);
  shares ← foldM (λ sh '(p, a), add_share p a sh) (t_shares st) (rr_participant_shares rr);
  Ok (Totals shares paid (t_results st ++ [rr])).

Definition payer_obligations (payer : string) (l : list obligation) : pydict fdec :=
  foldl (λ acc o, if String.eqb (o_creditor o) payer then dict_set (o_debtor o) (o_amount o) acc
                  else acc) [] l.

Definition payer_fields (payer : string) (shares paid : pydict fdec) (obligations : list obligation)
    (currency : string) : result payer_view :=
  own ← dict_index payer shares;
  total ← dec_sum ZERO (dict_values (payer_obligations payer obligations));
  to_collect ← round_for_currency total currency;
  by_payer ← dict_index payer paid;
  Ok (PayerView own to_collect by_payer).

(** [None] only if the settlement loop reaches its bound. *)
Definition calculate_receipt_split (case_data : pydict pyval) : result (option split_result) :=
  raise_when (negb (py_truth (get case_data "receipts"))) ValueError
    "at least one receipt is required";;
  participants ← case_participants case_data;
  require_no_duplicates_in_list participants;;
  currency ← resolve_authoritative_currency case_data;
  receipts ← py_iter (get case_data "receipts");
  st ← foldM (receipt_step participants currency)
         (Totals (empty_shares participants) (empty_shares participants) []) receipts;
  participant_shares ← rounded_share_map (t_shares st) currency;
  payer_paid_amounts ← rounded_share_map (t_paid st) currency;
  let payers := (filter (λ e, dec_eqb e.2 ZERO = false) payer_paid_amounts).*1 in
  primary_payer ←
    (if is_none (get case_data "payer")
     then Ok (match payers with [p] => Some p | _ => None end)
     else p ← validate_primary_payer (get case_data "payer") participants payers; Ok (Some p));
  settled ← settlement_obligations participants participant_shares payer_paid_amounts currency;
  match settled with
  | None => Ok None
  | Some obligations =>
      total_paid ← (s ← dec_sum ZERO (dict_values payer_paid_amounts); round_for_currency s currency);
      total_shares ← (s ← dec_sum ZERO (dict_values participant_shares); round_for_currency s currency);
      raise_when (negb (dec_eqb total_shares total_paid)) ValueError
        "total participant shares do not equal total paid amount";;
      own_shares ← mapM (λ p, s ← dict_index p participant_shares; Ok (p, s)) payers;
      names ← (let names := get case_data "participant_display_names" in
               if py_truth names then d ← py_items names; Ok (Some d) else Ok None);
      view ← match primary_payer with
             | Some p => v ← payer_fields p participant_shares payer_paid_amounts obligations currency;
                         Ok (Some v)
             | None => Ok None
             end;
      Ok (Some {|
        sr_case_id := get case_data "case_id";
        sr_currency := currency;
        sr_status := get_default case_data "status" (VStr "calculated_pending_confirmation");
        sr_participants := participants;
        sr_payer := primary_payer;
        sr_participant_shares := participant_shares;
        sr_payer_paid_amounts := payer_paid_amounts;
        sr_payer_own_shares := own_shares;
        sr_settlement_obligations := obligations;
        sr_total_paid := total_paid;
        sr_receipts := st.(t_results);
        sr_participant_display_names := names;
        sr_obligations := match primary_payer with
                          | Some p => PayerObligations (payer_obligations p obligations)
                          | None => AllObligations obligations
                          end;
        sr_payer_view := view |})
  end.

(** A dinner: three items, a service charge and a discount; one payer. *)
Definition demo_case : pydict pyval :=
  let item a ps := VDict [("amount", VStr a); ("participants", VList (VStr <$> ps))] in
  [("currency", VStr "SGD");
   ("participants", VList [VStr "alice"; VStr "bob"; VStr "carol"]);
   ("receipts", VList [VDict [
      ("paid_by", VStr "alice");
      ("items", VList [item "10.00" ["alice"; "bob"; "carol"]; item "7.50" ["bob"]; item "3.20" ["carol"; "alice"]]);
      ("service_charge_rate", VStr "0.10");
      ("discount", VStr "1.00"); ("discount_allocation_method", VStr "equal_per_participant")]])].

Definition demo_result : option split_result :=
  match calculate_receipt_split demo_case with Ok r => r | Raise _ => None end.

Example demo_shares :
  (dict_values ∘ sr_participant_shares <$> demo_result) =
  Some [mkdec false 510 (-2); mkdec false 1158 (-2); mkdec false 509 (-2)].
Proof. by vm_compute. Qed.

Example demo_obligations :
  (sr_settlement_obligations <$> demo_result) =
  Some [Obligation "bob" "alice" (mkdec false 1158 (-2)) "SGD";
        Obligation "carol" "alice" (mkdec false 509 (-2)) "SGD"].
Proof. by vm_compute. Qed.
