(* ===== verification/SplitProps.v ===== *)
(** * Conservation in the receipt split calculator

    A result the calculator returns is exact: every receipt's shares add up
    to what was paid for it, the totals are the exact sums over the receipts,
    and the obligations settle the difference. *)

From Stdlib Require Import Ascii ZArith QArith Qabs Lqa Lia.
From stdpp Require Import base sets strings sorting numbers list.
From S2P Require Import Prelude PyDecimal DecUnits PyValue Money Allocation Settlement SplitCalculator.

Open Scope Z_scope.

(** ** Accumulators

    [accum u d n]: [d] accumulated non-negative amounts of [n] minor units in
    all; it is exact as long as the sum fits the precision, and visibly too
    large from then on. *)

Definition accum (u : Z) (d : fdec) (n : Z) : Prop :=
  0 <= n ∧ ((at_scale u d n ∧ fits n) ∨ (q10 (28 - u) <= dval d)%Q).

Lemma q10_units u : (q10 (28 - u) == inject_Z (10 ^ 28) * q10 (- u))%Q.
Proof. replace (28 - u) with (28 + - u) by lia. by rewrite q10_add, q10_Z by lia. Qed.

Lemma accum_add u d n a m r :
  sane_scale u → accum u d n → at_scale u a m → 0 <= m → dec_add d a = Ok r → accum u r (n + m).
Proof.
  intros Hu [Hn Hd] Ha Hm Hr. split; [lia|].
  assert (Hbig : (q10 (28 - u) <= dval d + dval a)%Q → (q10 (28 - u) <= dval r)%Q).
  { intros Hb. unfold sane_scale in Hu. apply (fix_dec_lower default_context (exact_add d a));
      [auto with fincore|unfold etiny; cbn; lia|done|]. by rewrite dval_exact_add. }
  pose proof (q10_pos (- u)) as Hq.
  assert (Ha0 : (0 <= dval a)%Q).
  { unfold at_scale in Ha. rewrite Ha. rewrite Zle_Qle in Hm. change (inject_Z 0) with 0%Q in Hm. nra. }
  destruct Hd as [[Hd Hf]|Hd]; [|right; apply Hbig; lra].
  destruct (Z.lt_ge_cases (n + m) (10 ^ 28)) as [Hlt|Hge].
  - left. destruct (dec_add_scale u Hu d a n m Hd Ha ltac:(lia)) as (r'&Hr'&Hv).
    rewrite Hr in Hr'. injection Hr' as <-. split; [done|lia].
  - right. apply Hbig. unfold at_scale in *. rewrite Hd, Ha, q10_units.
    rewrite <- Qmult_plus_distr_l, <- inject_Z_plus. apply Qmult_le_compat_r; [|lra].
    by rewrite <- Zle_Qle.
Qed.

(** Only an exact accumulator can be rounded to the currency. *)
Lemma accum_round u c d n r :
  minor_units c = Ok u → accum u d n → round_for_currency d c = Ok r → at_scale u r n ∧ fits n.
Proof.
  intros Hu [Hn [[Hd Hf]|Hd]] Hr.
  - destruct (quantize_for_currency_val c u d n Hu Hd Hf) as (r'&Hr'&Hv).
    unfold round_for_currency in Hr. rewrite Hr in Hr'. by injection Hr' as <-.
  - exfalso. destruct (quantize_for_currency_Ok _ _ _ _ Hr) as (u'&Hu'&Hr'&Hs&Hf).
    assert (u' = u) as -> by congruence. pose proof (rescale_half_up d (- u)) as [Hlo _].
    rewrite <- Hr' in Hlo. unfold at_scale in Hs. rewrite Hs in Hlo. rewrite q10_units in Hd.
    pose proof (q10_pos (- u)) as Hq.
    assert (Hle : (inject_Z (10 ^ 28 * 2 - 1) * q10 (- u) <= inject_Z (zint r * 2) * q10 (- u))%Q).
    { unfold Z.sub. rewrite inject_Z_plus, !inject_Z_mult. change (inject_Z 2) with 2%Q.
      rewrite inject_Z_opp. change (inject_Z 1) with 1%Q. lra. }
    apply Qmult_le_r in Hle; [|done]. rewrite <- Zle_Qle in Hle. lia.
Qed.

Lemma accum_zero u : accum u ZERO 0.
Proof. split; [done|]. left. split; [apply at_scale_ZERO|done]. Qed.

(** ** One receipt *)

(** A receipt result in minor units: payer, share of each participant, and
    the amount paid. *)
Record receipt_units := ReceiptUnits {
  ru_payer : string;
  ru_shares : string → Z;
  ru_paid : Z;
}.

Record receipt_at (u : Z) (ps : list string) (rr : receipt_result) (a : receipt_units) : Prop := {
  ra_payer : rr_paid_by rr = ru_payer a;
  ra_payer_in : ru_payer a ∈ ps;
  ra_shares : rr_participant_shares rr = dict_tab (λ p, scaled u (ru_shares a p)) ps;
  ra_nonneg : ∀ p, p ∈ ps → 0 <= ru_shares a p;
  ra_paid : at_scale u (rr_net_paid rr) (ru_paid a);
  ra_sum : zsum (ru_shares a <$> ps) = ru_paid a;
}.

Lemma calculate_receipt_units receipt ps c u rr :
  minor_units c = Ok u → calculate_receipt receipt ps c = Ok rr → ∃ a, receipt_at u ps rr a.
Proof.
  intros Hu. unfold calculate_receipt. intros (payer&Hp&H)%bind_Ok.
  apply bind_Ok in H as ([]&_&H). apply bind_Ok in H as ([]&_&H).
  apply bind_Ok in H as ([item_sh details]&_&H). apply bind_Ok in H as (exact&_&H).
  apply bind_Ok in H as (final&Hf&H). apply bind_Ok in H as (adjs&_&H).
  apply bind_Ok in H as (ri&_&H). apply bind_Ok in H as (t&_&H). apply bind_Ok in H as (rd&_&[= <-]).
  destruct (allocation_conserved _ _ _ _ _ _ _ Hf) as (u'&z&f&Hu'&Hz&_&_&Hfin&Hnn&Hs).
  assert (u' = u) as -> by congruence. exists (ReceiptUnits payer f z).
  split; cbn; [done| |done..].
  destruct (get receipt "paid_by"); try done. apply bind_Ok in Hp as ([]&Hp%raise_when_Ok&[= <-]).
  apply negb_false_iff in Hp. by apply bool_decide_eq_true in Hp.
Qed.

Lemma ra_paid_nonneg u ps rr a : receipt_at u ps rr a → 0 <= ru_paid a.
Proof.
  intros []. rewrite <- ra_sum0. apply zsum_nonneg, Forall_fmap, Forall_forall. done.
Qed.

(** ** The loop over the receipts *)

Definition shares_units (abs : list receipt_units) (p : string) : Z :=
  zsum ((λ a, ru_shares a p) <$> abs).
Definition paid_units (abs : list receipt_units) (p : string) : Z :=
  zsum ((λ a, if String.eqb p (ru_payer a) then ru_paid a else 0) <$> abs).

(** A dictionary of accumulators. *)
Definition accum_dict (u : Z) (ps : list string) (n : string → Z) (d : pydict fdec) : Prop :=
  ∃ g, d = dict_tab g ps ∧ ∀ p, p ∈ ps → accum u (g p) (n p).

Lemma add_share_accum u ps n d p a m r :
  sane_scale u → NoDup ps → accum_dict u ps n d → at_scale u a m → 0 <= m → p ∈ ps →
  add_share p a d = Ok r → accum_dict u ps (λ q, n q + if String.eqb q p then m else 0) r.
Proof.
  intros Hu Hnd (g&->&Hg) Ha Hm Hp. unfold add_share. rewrite dict_tab_index by done. step.
  intros (s&Hs&[= <-])%bind_Ok. rewrite dict_tab_set by done. eexists; split; [done|].
  intros q Hq. cbn. destruct (String.eqb_spec q p) as [->|].
  - eapply accum_add; eauto.
  - rewrite Z.add_0_r. auto.
Qed.

Lemma accum_dict_ext u ps n n' d :
  (∀ p, p ∈ ps → n p = n' p) → accum_dict u ps n d → accum_dict u ps n' d.
Proof. intros Hn (g&->&Hg). exists g. split; [done|]. intros p Hp. rewrite <- Hn by done. auto. Qed.

Lemma add_shares_accum u ps f n d r :
  sane_scale u → NoDup ps → (∀ p, p ∈ ps → 0 <= f p) → accum_dict u ps n d →
  foldM (λ sh '(p, a), add_share p a sh) d (dict_tab (λ p, scaled u (f p)) ps) = Ok r →
  accum_dict u ps (λ p, n p + f p) r.
Proof.
  intros Hu Hnd Hf.
  assert (Hgen : ∀ qs n d, NoDup qs → qs ⊆ ps → accum_dict u ps n d →
    foldM (λ sh '(p, a), add_share p a sh) d (dict_tab (λ p, scaled u (f p)) qs) = Ok r →
    accum_dict u ps (λ p, n p + if bool_decide (p ∈ qs) then f p else 0) r).
  { clear n d. induction qs as [|q qs IH]; intros n d Hq Hsub Hd.
    - intros [= <-]. eapply accum_dict_ext; [|done]. intros p _.
      rewrite bool_decide_false by set_solver. cbn. lia.
    - apply NoDup_cons in Hq as [Hq Hqs]. cbn [dict_tab fmap list_fmap foldM].
      intros (d'&Hd'&Hr)%bind_Ok.
      apply (add_share_accum u ps n d q _ (f q) d' Hu Hnd Hd (at_scale_scaled u (f q))) in Hd';
        [|apply Hf; set_solver|set_solver].
      apply (IH _ _ Hqs ltac:(set_solver) Hd') in Hr. eapply accum_dict_ext; [|done].
      intros p _. cbn. destruct (String.eqb_spec p q) as [->|Hne].
      + rewrite bool_decide_false, bool_decide_true by set_solver. lia.
      + rewrite (bool_decide_ext (p ∈ q :: qs) (p ∈ qs)) by set_solver. lia. }
  intros Hd Hr. eapply accum_dict_ext; [|by eapply (Hgen ps)].
  intros p Hp. cbn. by rewrite bool_decide_true.
Qed.

(** The invariant of the loop. *)
Definition totals_at (u : Z) (ps : list string) (st : totals) (abs : list receipt_units) : Prop :=
  Forall2 (receipt_at u ps) (t_results st) abs ∧
  accum_dict u ps (shares_units abs) (t_shares st) ∧
  accum_dict u ps (paid_units abs) (t_paid st).

Lemma receipt_step_totals u c ps st receipt st' abs :
  minor_units c = Ok u → NoDup ps → totals_at u ps st abs →
  receipt_step ps c st receipt = Ok st' → ∃ a, totals_at u ps st' (abs ++ [a]).
Proof.
  intros Hu Hnd (Hres&Hsh&Hpd). unfold receipt_step. intros (rc&_&H)%bind_Ok.
  apply bind_Ok in H as ([]&_&H). apply bind_Ok in H as ([]&_&H).
  apply bind_Ok in H as (rr&Hrr&H). apply bind_Ok in H as (pd&Hpaid&H).
  apply bind_Ok in H as (sh&Hshr&[= <-]).
  destruct (calculate_receipt_units _ _ _ _ _ Hu Hrr) as (a&Ha).
  pose proof (minor_units_sane _ _ Hu) as Hs. pose proof (ra_paid_nonneg _ _ _ _ Ha).
  destruct Ha as [Hpay Hin Hshares Hnn Hp Hsum] eqn:E. exists a. split_and!; cbn.
  - apply Forall2_app; [done|]. by repeat constructor.
  - rewrite Hshares in Hshr. eapply add_shares_accum in Hshr; [|done..].
    eapply accum_dict_ext; [|done]. intros p _. unfold shares_units. rewrite fmap_app, zsum_app. cbn. lia.
  - rewrite Hpay in Hpaid. eapply add_share_accum in Hpaid; [|done..].
    eapply accum_dict_ext; [|done]. intros p _. unfold paid_units. rewrite fmap_app, zsum_app. cbn. lia.
Qed.

Lemma receipt_loop_totals u c ps receipts st st' abs :
  minor_units c = Ok u → NoDup ps → totals_at u ps st abs →
  foldM (receipt_step ps c) st receipts = Ok st' → ∃ abs', totals_at u ps st' abs'.
Proof.
  intros Hu Hnd. revert st abs. induction receipts as [|r rs IH]; intros st abs Hst; cbn.
  - intros [= <-]. by exists abs.
  - intros (st1&H1&H2)%bind_Ok. destruct (receipt_step_totals _ _ _ _ _ _ _ Hu Hnd Hst H1) as (a&Ha).
    by eapply IH.
Qed.

Lemma empty_shares_accum u ps : NoDup ps → accum_dict u ps (λ _, 0) (empty_shares ps).
Proof.
  intros Hnd. exists (λ _, ZERO). split; [by apply dict_build_NoDup|]. intros. apply accum_zero.
Qed.

(** Rounding a dictionary of accumulators yields the exact amounts. *)
Lemma rounded_share_map_units u c ps n d r :
  minor_units c = Ok u → accum_dict u ps n d → rounded_share_map d c = Ok r →
  ∃ g, r = dict_tab g ps ∧ ∀ p, p ∈ ps → at_scale u (g p) (n p) ∧ fits (n p) ∧ 0 <= n p.
Proof.
  intros Hu (g&->&Hg) Hr. unfold rounded_share_map in Hr. apply mapM_Ok in Hr.
  exists (λ p, ok_or ZERO (round_for_currency (g p) c)). split.
  - revert r Hr. clear Hg. induction ps as [|p ps IH]; intros r Hr; inversion Hr as [|? y ? k Hy Hk]; subst; [done|].
    apply bind_Ok in Hy as (x&Hx&[= <-]). cbn [dict_tab fmap list_fmap]. rewrite Hx.
    cbn [ok_or]. f_equal. by apply IH.
  - intros p Hp. apply list_elem_of_lookup in Hp as [i Hi].
    assert (Hl : dict_tab g ps !! i = Some (p, g p)) by (unfold dict_tab; by rewrite list_lookup_fmap, Hi).
    destruct (Forall2_lookup_l _ _ _ _ _ Hr Hl) as (y&_&(x&Hx&_)%bind_Ok).
    rewrite Hx. cbn. apply list_elem_of_lookup_2 in Hi. specialize (Hg p Hi).
    destruct (accum_round _ _ _ _ _ Hu Hg Hx). destruct Hg. done.
Qed.

(** Both ways of summing the case give the same total. *)
Lemma totals_agree u ps rrs abs :
  NoDup ps → Forall2 (receipt_at u ps) rrs abs →
  zsum (shares_units abs <$> ps) = zsum (ru_paid <$> abs) ∧
  zsum (paid_units abs <$> ps) = zsum (ru_paid <$> abs).
Proof.
  intros Hnd. induction 1 as [|rr a rrs abs Ha Hrs [IH1 IH2]].
  - unfold shares_units, paid_units. cbn. rewrite zsum_fmap_const. lia.
  - unfold shares_units, paid_units in *. cbn. rewrite !zsum_fmap_add, IH1, IH2.
    rewrite (ra_sum _ _ _ _ Ha), zsum_point; [done|done|by eapply ra_payer_in].
Qed.

(** Sums of exact amounts are accumulators. *)
Lemma accum_sum u ds zs start x r :
  sane_scale u → Forall2 (at_scale u) ds zs → Forall (λ z, 0 <= z) zs → accum u start x →
  dec_sum start ds = Ok r → accum u r (x + zsum zs).
Proof.
  intros Hu Hds. revert start x. induction Hds as [|d z ds zs Hd Hds IH]; intros start x Hzs Hx.
  - intros [= <-]. cbn. by rewrite Z.add_0_r.
  - apply Forall_cons in Hzs as [Hz Hzs]. unfold dec_sum. cbn [foldM zsum].
    intros (s&Hs&Hr)%bind_Ok. rewrite Z.add_assoc. apply (IH s); [done| |done].
    by eapply accum_add.
Qed.

(** ** Settlement of the case *)

Section Settle.
Context (currency : string) (u : Z) (Hu : minor_units currency = Ok u).

Definition flow_debt (f : flow) : obligation :=
  Obligation f.1.2 f.1.1 (scaled u f.2) currency.

Lemma settle_step_refines c a x cs d b y ds obs :
  at_scale u a x → at_scale u b y → 0 < x → 0 < y → fits x → fits y →
  let m := Z.min x y in
  ∃ a' b', at_scale u a' (x - m) ∧ at_scale u b' (y - m) ∧
    settle_step currency (SettleState ((d, b) :: ds) ((c, a) :: cs) obs) =
    Ok (Some (SettleState (if y - m =? 0 then ds else (d, b') :: ds)
                          (if x - m =? 0 then cs else (c, a') :: cs)
                          (obs ++ [flow_debt (c, d, m)]))).
Proof using Hu.
  intros Ha Hb Hx Hy Hfx Hfy m. pose proof (minor_units_sane _ _ Hu) as Hs.
  unfold settle_step. cbn [ss_debtors ss_creditors ss_obligations].
  pose proof (dec_min_scale u b a y x Hb Ha) as Hmin. rewrite Z.min_comm in Hmin. fold m in Hmin.
  rewrite (dec_eqb_scale u _ ZERO m 0 Hmin (at_scale_ZERO u)), (proj2 (Z.eqb_neq m 0)) by lia.
  unfold round_for_currency. rewrite (quantize_positive currency u Hu _ m Hmin) by lia. step.
  destruct (dec_sub_scale u Hs b _ y m Hb Hmin ltac:(lia)) as (b1&->&Hb1). step.
  destruct (quantize_for_currency_val currency u b1 (y - m) Hu Hb1 ltac:(lia)) as (b'&->&Hb'). step.
  destruct (dec_sub_scale u Hs a _ x m Ha Hmin ltac:(lia)) as (a1&->&Ha1). step.
  destruct (quantize_for_currency_val currency u a1 (x - m) Hu Ha1 ltac:(lia)) as (a'&->&Ha'). step.
  exists a', b'. by rewrite (dec_eqb_scale u b' ZERO _ 0 Hb' (at_scale_ZERO u)),
    (dec_eqb_scale u a' ZERO _ 0 Ha' (at_scale_ZERO u)).
Qed.

Lemma rest_fits (c : string) x m (cs : list (string * Z)) :
  fits x → 0 <= m <= x → Forall (λ a, fits a.2) cs →
  Forall (λ a, fits a.2) (if x - m =? 0 then cs else (c, x - m) :: cs).
Proof using Type. intros. destruct (x - m =? 0); [done|]. constructor; [cbn; lia|done]. Qed.

Lemma settle_loop_refines fuel cs ds csZ dsZ obs :
  Forall2 (entry_at u) cs csZ → Forall2 (entry_at u) ds dsZ → positive csZ → positive dsZ →
  Forall (λ a, fits a.2) csZ → Forall (λ a, fits a.2) dsZ → zsum csZ.*2 = zsum dsZ.*2 →
  (length cs + length ds <= fuel)%nat →
  settle_loop currency fuel (SettleState ds cs obs) =
  Ok (Some (SettleState [] [] (obs ++ (flow_debt <$> greedy fuel csZ dsZ)))).
Proof using Hu.
  revert cs ds csZ dsZ obs.
  induction fuel as [|fuel IH]; intros cs ds csZ dsZ obs Hcs Hds Hpc Hpd Hfc Hfd Hsum Hlen.
  { destruct cs, ds; cbn in Hlen; try lia. cbn. by rewrite app_nil_r. }
  destruct Hcs as [|[c a] [c' x] cs csZ [Hc Ha] Hcs].
  { destruct Hds; [cbn; by rewrite app_nil_r|]. pose proof (positive_sum_pos _ Hpd ltac:(done)). cbn in *. lia. }
  destruct Hds as [|[d b] [d' y] ds dsZ [Hd Hb] Hds].
  { pose proof (positive_sum_pos _ Hpc ltac:(done)). cbn in *. lia. }
  cbn in Hc, Hd, Ha, Hb. subst c' d'.
  apply Forall_cons in Hpc as [Hx Hpc], Hpd as [Hy Hpd], Hfc as [Hfx Hfc], Hfd as [Hfy Hfd].
  cbn in Hx, Hy, Hfx, Hfy, Hsum, Hlen.
  destruct (settle_step_refines c a x cs d b y ds obs Ha Hb Hx Hy Hfx Hfy) as (a'&b'&Ha'&Hb'&Hstep).
  set (m := Z.min x y) in *. cbn [settle_loop greedy]. rewrite Hstep. step. fold m.
  rewrite (IH _ _ (if x - m =? 0 then csZ else (c, x - m) :: csZ)
             (if y - m =? 0 then dsZ else (d, y - m) :: dsZ)).
  - cbn [fmap list_fmap]. by rewrite <- app_assoc.
  - destruct (x - m =? 0); [done|]. constructor; [by split|done].
  - destruct (y - m =? 0); [done|]. constructor; [by split|done].
  - apply greedy_rest_positive; [lia..|done].
  - apply greedy_rest_positive; [lia..|done].
  - apply rest_fits; [done|lia|done].
  - apply rest_fits; [done|lia|done].
  - rewrite !greedy_rest_sum. lia.
  - destruct (Z.eqb_spec (x - m) 0), (Z.eqb_spec (y - m) 0); cbn; lia.
Qed.

(** [b p] minor units are owed to [p]. *)
Lemma classify_balance_refines (b : string → Z) g h ps qs :
  (∀ p, p ∈ qs → ∃ x y, at_scale u (h p) x ∧ at_scale u (g p) y ∧ b p = x - y ∧ fits (b p)) →
  qs ⊆ ps →
  ∃ cs ds, foldM (classify_balance (dict_tab g ps) (dict_tab h ps) currency) ([], []) qs = Ok (ds, cs) ∧
    Forall2 (entry_at u) cs (creditorsZ b qs) ∧ Forall2 (entry_at u) ds (debtorsZ b qs).
Proof using Hu.
  pose proof (minor_units_sane _ _ Hu) as Hs. unfold creditorsZ, debtorsZ.
  induction qs as [|p qs IH] using rev_ind; intros Hb Hsub; [by exists [], []|].
  destruct IH as (cs&ds&Hf&Hcs&Hds); [intros q Hq; apply Hb; set_solver|set_solver|].
  destruct (Hb p ltac:(set_solver)) as (x&y&Hx&Hy&Hbp&Hfit).
  rewrite foldM_app, Hf. step. cbn [foldM]. unfold classify_balance.
  rewrite !dict_tab_index by set_solver. step.
  destruct (dec_sub_scale u Hs _ _ x y Hx Hy ltac:(rewrite <- Hbp; done)) as (d&->&Hd). step.
  rewrite <- Hbp in Hd. unfold round_for_currency.
  destruct (quantize_for_currency_val currency u d (b p) Hu Hd Hfit) as (e&->&He). step.
  rewrite (dec_ltb_scale u e ZERO (b p) 0 He (at_scale_ZERO u)), (dec_ltb_scale u ZERO e 0 (b p) (at_scale_ZERO u) He).
  rewrite !filter_app, !fmap_app. destruct (Z.ltb_spec (b p) 0) as [Hlt|Hge].
  - destruct (dec_neg_scale u Hs _ _ He Hfit) as (n&->&Hn). step.
    rewrite filter_cons_False, filter_cons_True by lia. eexists _, _. split; [done|].
    split; [by rewrite app_nil_r|]. apply Forall2_app; [done|]. by repeat constructor.
  - destruct (Z.ltb_spec 0 (b p)) as [Hgt|Hle]; step.
    + rewrite filter_cons_True, filter_cons_False by lia. eexists _, _. split; [done|].
      split; [|by rewrite app_nil_r]. apply Forall2_app; [done|]. by repeat constructor.
    + rewrite !filter_cons_False by lia. eexists _, _. split; [done|]. cbn. by rewrite !app_nil_r.
Qed.

Lemma settlement_obligations_refines (b : string → Z) g h ps :
  (∀ p, p ∈ ps → ∃ x y, at_scale u (h p) x ∧ at_scale u (g p) y ∧ b p = x - y ∧ fits (b p)) →
  zsum (b <$> ps) = 0 →
  settlement_obligations ps (dict_tab g ps) (dict_tab h ps) currency =
  Ok (Some (flow_debt <$> settle_spec b ps)).
Proof using Hu.
  intros Hb Hz. pose proof (minor_units_sane _ _ Hu) as Hs. unfold settlement_obligations.
  destruct (classify_balance_refines b g h ps ps Hb ltac:(done)) as (cs&ds&->&Hcs&Hds). step.
  destruct (entries_sums b ps) as [Hdiff _].
  destruct (entries_fit b ps) as [Hfc Hfd]; [intros p Hp; by destruct (Hb p Hp) as (?&?&_&_&_&?)|].
  destruct (sort_entries_refines u ds _ Hs Hds Hfd) as (ds'&->&Hds'). step.
  destruct (sort_entries_refines u cs _ Hs Hcs Hfc) as (cs'&->&Hcs'). step.
  pose proof (Forall2_length _ _ _ Hcs') as Hlc. pose proof (Forall2_length _ _ _ Hds') as Hld.
  rewrite isort_length in Hlc, Hld.
  rewrite (settle_loop_refines _ cs' ds' _ _ [] Hcs' Hds').
  - step. cbn [ss_debtors ss_creditors ss_obligations negb app].
    rewrite (proj2 (forM_Ok _ _ tt)).
    + step. do 3 f_equal. unfold settle_spec. rewrite Hlc, Hld. f_equal. lia.
    + apply Forall_forall. intros o (f&->&_)%list_elem_of_fmap. cbn. by rewrite String.eqb_refl.
  - rewrite isort_perm. apply creditorsZ_positive.
  - rewrite isort_perm. apply debtorsZ_positive.
  - by rewrite isort_perm.
  - by rewrite isort_perm.
  - rewrite !isort_perm. lia.
  - lia.
Qed.
End Settle.

(** ** The whole calculator *)

(** What a returned result looks like in minor units. *)
Record split_exact (r : split_result) (u : Z) (abs : list receipt_units) : Prop := {
  se_units : minor_units (sr_currency r) = Ok u;
  se_nodup : NoDup (sr_participants r);
  se_receipts : Forall2 (receipt_at u (sr_participants r)) (sr_receipts r) abs;
  se_shares : ∃ g, sr_participant_shares r = dict_tab g (sr_participants r) ∧
    ∀ p, p ∈ sr_participants r → at_scale u (g p) (shares_units abs p);
  se_paid : ∃ h, sr_payer_paid_amounts r = dict_tab h (sr_participants r) ∧
    ∀ p, p ∈ sr_participants r → at_scale u (h p) (paid_units abs p);
  se_total : at_scale u (sr_total_paid r) (zsum (ru_paid <$> abs));
  se_obligations : sr_settlement_obligations r =
    flow_debt (sr_currency r) u <$>
      settle_spec (λ p, paid_units abs p - shares_units abs p) (sr_participants r);
}.

Lemma zsum_fmap_sub {A} (f g : A → Z) l :
  zsum ((λ x, f x - g x) <$> l) = zsum (f <$> l) - zsum (g <$> l).
Proof. induction l as [|x l IH]; cbn; [done|]. rewrite IH. lia. Qed.

(** The total of a dictionary of exact amounts, rounded. *)
Lemma total_of_dict u c ps g n s r :
  minor_units c = Ok u → (∀ p, p ∈ ps → at_scale u (g p) (n p) ∧ 0 <= n p) →
  dec_sum ZERO (dict_values (dict_tab g ps)) = Ok s → round_for_currency s c = Ok r →
  at_scale u r (zsum (n <$> ps)).
Proof.
  intros Hu Hg Hs Hr. rewrite dict_tab_values in Hs.
  assert (Ha : accum u s (0 + zsum (n <$> ps))).
  { eapply (accum_sum u (g <$> ps)); [eauto with fincore| | |apply accum_zero|done].
    - apply Forall2_fmap_l, Forall2_fmap_r, Forall_Forall2_diag, Forall_forall. intros p Hp. by apply Hg.
    - apply Forall_fmap, Forall_forall. intros p Hp. by apply Hg. }
  by apply (accum_round u c s _ r Hu Ha Hr).
Qed.

Lemma resolve_currency_supported case c :
  resolve_authoritative_currency case = Ok c → ∃ u, minor_units c = Ok u.
Proof.
  unfold resolve_authoritative_currency. intros ([]&_&H)%bind_Ok. by eapply minor_units_normalized.
Qed.

Lemma split_result_exact case r :
  calculate_receipt_split case = Ok r → ∃ sr u abs, r = Some sr ∧ split_exact sr u abs.
Proof.
  unfold calculate_receipt_split. intros ([]&_&H)%bind_Ok.
  apply bind_Ok in H as (ps&_&H). apply bind_Ok in H as ([]&Hnd&H).
  apply bind_Ok in H as (c&Hc&H). apply bind_Ok in H as (rs&_&H). apply bind_Ok in H as (st&Hst&H).
  apply bind_Ok in H as (sh&Hsh&H). apply bind_Ok in H as (pd&Hpd&H).
  unfold require_no_duplicates_in_list in Hnd. apply raise_when_Ok, has_duplicates_false in Hnd.
  destruct (resolve_currency_supported _ _ Hc) as (u&Hu).
  assert (Hstart : totals_at u ps (Totals (empty_shares ps) (empty_shares ps) []) []).
  { split_and!; [constructor|by apply empty_shares_accum..]. }
  destruct (receipt_loop_totals _ _ _ _ _ _ _ Hu Hnd Hstart Hst) as (abs&Hres&Has&Hap).
  destruct (rounded_share_map_units _ _ _ _ _ _ Hu Has Hsh) as (g&->&Hg).
  destruct (rounded_share_map_units _ _ _ _ _ _ Hu Hap Hpd) as (h&->&Hh).
  destruct (totals_agree u ps _ _ Hnd Hres) as [Hts Htp].
  apply bind_Ok in H as (pp&_&H).
  rewrite (settlement_obligations_refines c u Hu (λ p, paid_units abs p - shares_units abs p)) in H.
  - cbn [mbind result_bind] in H.
    apply bind_Ok in H as (tp&(sp&Hsp&Hrp)%bind_Ok&H). apply bind_Ok in H as (ts&_&H).
    apply bind_Ok in H as ([]&_&H). apply bind_Ok in H as (os&_&H).
    apply bind_Ok in H as (nm&_&H). apply bind_Ok in H as (vw&_&[= <-]).
    eexists _, u, abs. split; [done|]. split; cbn; [done..|exists g|exists h| |done].
    + split; [done|]. intros p Hp. by apply Hg.
    + split; [done|]. intros p Hp. by apply Hh.
    + rewrite <- Htp. eapply (total_of_dict u c ps h); [done| |exact Hsp|exact Hrp].
      intros p Hp. by destruct (Hh p Hp) as (?&_&?).
  - intros p Hp. destruct (Hg p Hp) as (Hgs&Hgf&Hg0), (Hh p Hp) as (Hhs&Hhf&Hh0).
    eexists _, _. split_and!; [done..|lia].
  - rewrite zsum_fmap_sub. lia.
Qed.

(** ** From minor units back to amounts *)

(** The amount of [p] in the shares of a receipt. *)
Definition share_in (rr : receipt_result) (p : string) : Q :=
  dval (share_of (rr_participant_shares rr) p).

Lemma qsum_units {A} u (f : A → Q) (n : A → Z) (l : list A) :
  (∀ x, x ∈ l → (f x == inject_Z (n x) * q10 (- u))%Q) →
  (qsum (f <$> l) == inject_Z (zsum (n <$> l)) * q10 (- u))%Q.
Proof.
  intros H. induction l as [|x l IH]; cbn; [by rewrite Qmult_0_l|].
  rewrite H by left. rewrite IH by (intros y Hy; apply H; by right). rewrite inject_Z_plus. ring.
Qed.

Lemma qsum_units2 {A B} u (R : A → B → Prop) (f : A → Q) (n : B → Z) l k :
  Forall2 R l k → (∀ x y, R x y → (f x == inject_Z (n y) * q10 (- u))%Q) →
  (qsum (f <$> l) == inject_Z (zsum (n <$> k)) * q10 (- u))%Q.
Proof.
  intros Hl H. induction Hl as [|x y l k Hxy Hl IH]; cbn; [by rewrite Qmult_0_l|].
  rewrite (H x y Hxy), IH, inject_Z_plus. ring.
Qed.

Lemma share_of_tab f ps p : p ∈ ps → share_of (dict_tab f ps) p = f p.
Proof. intros Hp. unfold share_of. by rewrite dict_tab_get. Qed.

Lemma share_in_units u ps rr a p :
  receipt_at u ps rr a → p ∈ ps → (share_in rr p == inject_Z (ru_shares a p) * q10 (- u))%Q.
Proof.
  intros Ha Hp. unfold share_in. rewrite (ra_shares _ _ _ _ Ha), share_of_tab by done.
  apply at_scale_scaled.
Qed.

Lemma receipt_balanced u ps rr a :
  receipt_at u ps rr a → dict_keys (rr_participant_shares rr) = ps ∧
  (qsum (dval <$> dict_values (rr_participant_shares rr)) == dval (rr_net_paid rr))%Q.
Proof.
  intros []. rewrite ra_shares0, dict_tab_keys, dict_tab_values, <- list_fmap_compose. split; [done|].
  rewrite (qsum_units u _ (ru_shares a)); [|intros; apply at_scale_scaled].
  by rewrite ra_sum0.
Qed.

(** * Claims *)

(** C1: the calculator conserves money.  A returned result accounts for every
    minor unit: each receipt's participant shares add up exactly to what was
    paid for it; a participant's total share is the exact sum of the shares in
    the receipts, and the paid amount the exact sum of the receipts the
    participant paid; and total shares, total paid amounts and the reported
    total paid are equal. *)
Theorem receipt_split_conserves case r :
  calculate_receipt_split case = Ok r →
  ∃ sr, r = Some sr ∧
    Forall (λ rr, dict_keys (rr_participant_shares rr) = sr_participants sr ∧
      (qsum (dval <$> dict_values (rr_participant_shares rr)) == dval (rr_net_paid rr))%Q)
      (sr_receipts sr) ∧
    (∀ p, p ∈ sr_participants sr →
      (dval (share_of (sr_participant_shares sr) p) ==
         qsum ((λ rr, share_in rr p) <$> sr_receipts sr))%Q ∧
      (dval (share_of (sr_payer_paid_amounts sr) p) ==
         qsum ((λ rr, if String.eqb p (rr_paid_by rr) then dval (rr_net_paid rr) else 0%Q)
                 <$> sr_receipts sr))%Q) ∧
    (qsum (dval <$> dict_values (sr_participant_shares sr)) == dval (sr_total_paid sr))%Q ∧
    (qsum (dval <$> dict_values (sr_payer_paid_amounts sr)) == dval (sr_total_paid sr))%Q.
Proof.
  intros H. destruct (split_result_exact case r H) as (sr&u&abs&->&[Hu Hnd Hrs (g&Hg&Hgv) (h&Hh&Hhv) Ht _]).
  exists sr. split; [done|]. destruct (totals_agree u _ _ _ Hnd Hrs) as [Hts Htp]. split_and!.
  - apply Forall_forall. intros rr Hrr. apply list_elem_of_lookup in Hrr as [i Hi].
    destruct (Forall2_lookup_l _ _ _ _ _ Hrs Hi) as (a&_&Ha). by eapply receipt_balanced.
  - intros p Hp. rewrite Hg, Hh, !share_of_tab by done. split.
    + rewrite (qsum_units2 u _ _ (λ a, ru_shares a p) _ _ Hrs); [by apply Hgv|].
      intros rr a Ha. by eapply share_in_units.
    + rewrite (qsum_units2 u _ _ (λ a, if String.eqb p (ru_payer a) then ru_paid a else 0) _ _ Hrs);
        [by apply Hhv|].
      intros rr a Ha. rewrite (ra_payer _ _ _ _ Ha). destruct (String.eqb p (ru_payer a)).
      * by eapply ra_paid.
      * change (inject_Z 0) with 0%Q. ring.
  - rewrite Hg, dict_tab_values, <- list_fmap_compose, (qsum_units u _ (shares_units abs)) by done.
    rewrite Hts. by symmetry.
  - rewrite Hh, dict_tab_values, <- list_fmap_compose, (qsum_units u _ (paid_units abs)) by done.
    rewrite Htp. by symmetry.
Qed.

Lemma receipt_split_conserves_witness :
  ∃ sr, demo_result = Some sr ∧
    (qsum (dval <$> dict_values (sr_participant_shares sr)) == dval (sr_total_paid sr))%Q.
Proof.
  destruct (receipt_split_conserves demo_case demo_result ltac:(by vm_compute)) as (sr&Hsr&_&_&Ht&_).
  exists sr. split; [exact Hsr|exact Ht].
Defined.

(** Total amount of the obligations in which [p] plays the given role. *)
Definition debt_total (role : obligation → string) (p : string) (obs : list obligation) : Q :=
  qsum ((λ o, if String.eqb (role o) p then dval (o_amount o) else 0%Q) <$> obs).

(** C9: the obligations settle the case.  In a returned result the amounts
    owed to a participant minus the amounts the participant owes equal what
    the participant paid minus the participant's share; and every obligation
    is a positive amount in the case's currency, from a participant who paid
    too little to one who paid too much. *)
Theorem receipt_split_settles case r :
  calculate_receipt_split case = Ok r →
  ∃ sr, r = Some sr ∧
    (∀ p, p ∈ sr_participants sr →
      (debt_total o_creditor p (sr_settlement_obligations sr) -
       debt_total o_debtor p (sr_settlement_obligations sr) ==
       dval (share_of (sr_payer_paid_amounts sr) p) -
       dval (share_of (sr_participant_shares sr) p))%Q) ∧
    (∀ o, o ∈ sr_settlement_obligations sr →
      o_currency o = sr_currency sr ∧ (0 < dval (o_amount o))%Q ∧ o_debtor o ≠ o_creditor o ∧
      (dval (share_of (sr_payer_paid_amounts sr) (o_debtor o)) <
       dval (share_of (sr_participant_shares sr) (o_debtor o)))%Q ∧
      (dval (share_of (sr_participant_shares sr) (o_creditor o)) <
       dval (share_of (sr_payer_paid_amounts sr) (o_creditor o)))%Q).
Proof.
  intros H. destruct (split_result_exact case r H) as (sr&u&abs&->&[Hu Hnd Hrs (g&Hg&Hgv) (h&Hh&Hhv) Ht Hob]).
  exists sr. split; [done|]. destruct (totals_agree u _ _ _ Hnd Hrs) as [Hts Htp].
  set (b := λ p, paid_units abs p - shares_units abs p) in *.
  assert (Hz : zsum (b <$> sr_participants sr) = 0) by (unfold b; rewrite zsum_fmap_sub; lia).
  pose proof (q10_pos (- u)) as Hq. rewrite Hob, Hg, Hh. split.
  - intros p Hp. rewrite !share_of_tab by done.
    pose proof (Hgv p Hp) as Hgp. pose proof (Hhv p Hp) as Hhp. unfold at_scale in Hgp, Hhp. rewrite Hgp, Hhp.
    unfold debt_total. rewrite <- !list_fmap_compose.
    rewrite (qsum_scaled u (λ f : flow, String.eqb f.1.1 p) snd).
    rewrite (qsum_scaled u (λ f : flow, String.eqb f.1.2 p) snd).
    fold (received p (settle_spec b (sr_participants sr))) (paid p (settle_spec b (sr_participants sr))).
    pose proof (settle_spec_net b _ p Hnd Hz Hp) as Hnet. unfold b in Hnet at 3.
    assert (Hn : (inject_Z (received p (settle_spec b (sr_participants sr))) - inject_Z (paid p (settle_spec b (sr_participants sr)))
             == inject_Z (paid_units abs p) - inject_Z (shares_units abs p))%Q).
    { unfold Qminus. rewrite <- !inject_Z_opp, <- !inject_Z_plus. apply inject_Z_injective. lia. }
    transitivity ((inject_Z (received p (settle_spec b (sr_participants sr))) -
                   inject_Z (paid p (settle_spec b (sr_participants sr)))) * q10 (- u))%Q; [ring|].
    rewrite Hn. ring.
  - intros o (f&->&Hf)%list_elem_of_fmap. unfold settle_spec in Hf.
    apply greedy_members in Hf as (Hc&Hd&Hpos&_);
      [|rewrite isort_perm; apply creditorsZ_positive|rewrite isort_perm; apply debtorsZ_positive].
    rewrite isort_perm, creditorsZ_id in Hc. rewrite isort_perm, debtorsZ_id in Hd.
    destruct Hc as [Hcb Hcp], Hd as [Hdb Hdp]. cbn [o_currency o_amount o_debtor o_creditor flow_debt].
    rewrite !share_of_tab by done. split_and!; [done| |intros Heq; rewrite Heq in Hdb; lia|..].
    + pose proof (at_scale_scaled u f.2) as Hs. unfold at_scale in Hs. rewrite Hs.
      rewrite Zlt_Qlt in Hpos. change (inject_Z 0) with 0%Q in Hpos. nra.
    + pose proof (Hgv _ Hdp) as H1. pose proof (Hhv _ Hdp) as H2. unfold at_scale in H1, H2. rewrite H1, H2.
      apply Qmult_lt_compat_r; [done|]. rewrite <- Zlt_Qlt. unfold b in Hdb. lia.
    + pose proof (Hgv _ Hcp) as H1. pose proof (Hhv _ Hcp) as H2. unfold at_scale in H1, H2. rewrite H1, H2.
      apply Qmult_lt_compat_r; [done|]. rewrite <- Zlt_Qlt. unfold b in Hcb. lia.
Qed.

Lemma receipt_split_settles_witness :
  ∃ sr, demo_result = Some sr ∧
    (debt_total o_creditor "alice" (sr_settlement_obligations sr) -
     debt_total o_debtor "alice" (sr_settlement_obligations sr) ==
     dval (share_of (sr_payer_paid_amounts sr) "alice") -
     dval (share_of (sr_participant_shares sr) "alice"))%Q.
Proof.
  destruct (receipt_split_settles demo_case demo_result ltac:(by vm_compute)) as (sr&Hsr&Hp&_).
  exists sr. split; [exact Hsr|]. apply Hp.
  assert (sr_participants <$> demo_result = Some ["alice"; "bob"; "carol"]) as Hs by (by vm_compute).
  rewrite Hsr in Hs. injection Hs as ->. left.
Defined.
