(* ===== verification/ServiceCharge.v ===== *)
(** * Service charges from a rate

    [_quantized_service_charge_from_rate] multiplies exactly and rounds once:
    the charge is the exact product rounded half up to the currency. *)

From Stdlib Require Import Ascii ZArith QArith Qabs Qround Lqa Lia.
From stdpp Require Import base sets strings sorting numbers list.
From S2P Require Import Prelude PyDecimal DecUnits PyValue Money Allocation SplitCalculator.

Open Scope Z_scope.

(** Rounding half up to exponent [-u], as a number of units. *)
Lemma rescale_half_up_floor u d :
  (0 <= dval d)%Q →
  (dval (rescale ROUND_HALF_UP d (- u)) ==
   inject_Z (Qfloor (dval d * q10 u + (1 # 2))) * q10 (- u))%Q.
Proof.
  intros Hd. rewrite (dval_nonneg_zcoef d Hd).
  assert (Hq : (inject_Z (zcoef d) * q10 (fexp d) * q10 u == inject_Z (zcoef d) * q10 (fexp d + u))%Q)
    by (rewrite q10_add; ring). rewrite Hq.
  destruct (Z.le_gt_cases (- u) (fexp d)) as [He|He].
  - rewrite rescale_down_exact by done. rewrite (dval_nonneg_zcoef d Hd).
    rewrite (q10_Z (fexp d + u)), <- inject_Z_mult by lia.
    assert (Hf : Qfloor (inject_Z (zcoef d * 10 ^ (fexp d + u)) + (1 # 2)) = zcoef d * 10 ^ (fexp d + u)).
    { apply Qfloor_unique; rewrite ?inject_Z_plus; change (inject_Z 1) with 1%Q; lra. }
    rewrite Hf, inject_Z_mult, <- q10_Z by lia.
    rewrite <- Qmult_assoc, <- q10_add. by replace (fexp d + u + - u) with (fexp d) by lia.
  - replace (fexp d + u) with (- (- u - fexp d)) by lia.
    rewrite (Qfloor_half_scaled (fsign d)) by lia. unfold rescale. destruct (is_zero d) eqn:Ez.
    + unfold is_zero in Ez. apply Z.eqb_eq in Ez. rewrite Ez.
      assert (Hr : round_quot ROUND_HALF_UP (fsign d) 0 (10 ^ (- u - fexp d)) = 0).
      { pose proof (round_quot_exact ROUND_HALF_UP (fsign d) 0 (10 ^ (- u - fexp d))) as Hr.
        rewrite Z.mul_0_l in Hr. apply Hr. auto with fincore lia. }
      rewrite Hr, dval_mkdec by done. by destruct (fsign d).
    + assert (Hs : fsign d = false).
      { destruct (fsign d) eqn:E; [|done]. apply is_zero_zcoef in Ez.
        pose proof (nonneg_negative_zero d Hd E). lia. }
      rewrite (proj2 (Z.leb_gt _ _)) by lia. rewrite Hs, dval_mkdec; [done|].
      assert (Hp : 0 < 10 ^ (- u - fexp d)) by (apply pow10_gt0; lia).
      pose proof (Z.div_pos (zcoef d) _ (zcoef_nonneg d) Hp).
      destruct (round_quot_near ROUND_HALF_UP false (zcoef d) _ Hp); lia.
Qed.

(** A non-negative number is below the power of ten after its first digit. *)
Lemma adjusted_upper d : (0 <= dval d)%Q → (dval d <= q10 (adjusted d + 1))%Q.
Proof.
  intros Hd. rewrite (dval_nonneg_zcoef d Hd). unfold adjusted.
  replace (fexp d + ndigits (zcoef d) - 1 + 1) with (ndigits (zcoef d) + fexp d) by lia.
  pose proof (ndigits_pos (zcoef d) (zcoef_nonneg d)).
  rewrite q10_add, (q10_Z (ndigits (zcoef d))) by lia. apply Qmult_le_compat_r; [|apply Qlt_le_weak, q10_pos].
  rewrite <- Zle_Qle. destruct (Z.eq_dec (zcoef d) 0) as [->|]; [by apply Z.pow_nonneg|].
  pose proof (zcoef_nonneg d). pose proof (ndigits_bounds (zcoef d) ltac:(lia)). lia.
Qed.

(** Rounding does not add more than one digit. *)
Lemma half_up_units_upper u d :
  0 <= u → (0 <= dval d)%Q →
  0 <= Qfloor (dval d * q10 u + (1 # 2)) <= 10 ^ Z.max 0 (adjusted d + u + 1).
Proof.
  intros Hu Hd. pose proof (q10_pos u) as Hq. pose proof (adjusted_upper d Hd) as Hup.
  assert (Hm : (dval d * q10 u <= q10 (Z.max 0 (adjusted d + u + 1)))%Q).
  { apply Qle_trans with (q10 (adjusted d + 1 + u)).
    - rewrite q10_add. apply Qmult_le_compat_r; lra.
    - apply q10_le. lia. }
  rewrite (q10_Z (Z.max _ _)) in Hm by lia. set (n := 10 ^ Z.max 0 (adjusted d + u + 1)) in *. split.
  - change 0 with (Qfloor (inject_Z 0)). apply Qfloor_resp_le. change (inject_Z 0) with 0%Q.
    assert (0 <= dval d * q10 u)%Q by (apply Qmult_le_0_compat; lra). lra.
  - assert (Hn : Qfloor (inject_Z n + (1 # 2)) = n)
      by (apply Qfloor_unique; rewrite ?inject_Z_plus; change (inject_Z 1) with 1%Q; lra).
    apply Z.le_trans with (Qfloor (inject_Z n + (1 # 2))); [apply Qfloor_resp_le; lra|lia].
Qed.

(** One explicit quantization in a context that is wide enough. *)
Lemma quantize_wide ctx u d q :
  c_emin ctx = -999999 → c_emax ctx = 999999 → 1 <= c_prec ctx <= 5000 →
  0 <= u <= 1000 → fexp q = - u → (0 <= dval d)%Q → adjusted d + u + 2 <= c_prec ctx →
  ∃ r, quantize_ctx ctx ROUND_HALF_UP d q = Ok r ∧
       at_scale u r (Qfloor (dval d * q10 u + (1 # 2))).
Proof.
  intros Hemin Hemax Hp Hu Hq Hd Hadj.
  assert (Hwf : wf_context ctx) by (unfold wf_context; lia).
  assert (Het : etiny ctx <= - 1000) by (unfold etiny; lia).
  assert (Hetop : 0 <= etop ctx) by (unfold etop; lia).
  pose proof (half_up_units_upper u d ltac:(lia) Hd) as [Hn0 Hn1].
  pose proof (rescale_half_up_floor u d Hd) as Hval. set (n := Qfloor _) in *.
  assert (Hn : n < 10 ^ c_prec ctx).
  { eapply Z.le_lt_trans; [done|]. apply Z.pow_lt_mono_r; lia. }
  assert (Hrep : ∀ x, (dval x == inject_Z n * q10 (- u))%Q → ∃ r, fix_dec ctx x = Ok r ∧ at_scale u r n).
  { intros x Hx. destruct (fix_dec_exact ctx x Hwf) as (r&Hr&Hv&_).
    - exists n, (- u). split; [done|]. split; [lia|lia].
    - exists r. split; [done|]. unfold at_scale. by rewrite Hv. }
  unfold quantize_ctx. rewrite Hq, (proj2 (Z.leb_le (etiny ctx) _)), (proj2 (Z.leb_le _ (c_emax ctx))) by lia.
  cbn [negb andb]. destruct (is_zero d) eqn:Ez.
  { apply Hrep. rewrite <- Hval. unfold rescale. by rewrite Ez. }
  rewrite (proj2 (Z.ltb_ge (c_emax ctx) _)), (proj2 (Z.ltb_ge (c_prec ctx) _)) by lia.
  set (ans := rescale _ _ _) in *.
  assert (Hz : zcoef ans = n).
  { rewrite <- zint_abs. unfold dval in Hval. unfold ans in *. rewrite rescale_exp in Hval.
    apply scaled_eq in Hval; [|lia]. rewrite Z.sub_diag in Hval. lia. }
  assert (Hnd : ndigits n <= c_prec ctx) by (by apply ndigits_le; lia).
  pose proof (ndigits_pos n Hn0). unfold adjusted. rewrite Hz. unfold ans at 1. rewrite rescale_exp.
  rewrite (proj2 (Z.ltb_ge (c_emax ctx) _)), (proj2 (Z.ltb_ge (c_prec ctx) _)) by lia.
  apply Hrep. by rewrite Hval.
Qed.

(** The digits of a product. *)
Lemma ndigits_mul a b : 0 <= a → 0 <= b → a * b < 10 ^ (ndigits a + ndigits b).
Proof.
  intros Ha Hb. pose proof (ndigits_pos a Ha). pose proof (ndigits_pos b Hb).
  rewrite Z.pow_add_r by lia.
  assert (Hlt : ∀ n, 0 <= n → n < 10 ^ ndigits n).
  { intros n Hn. apply (ndigits_le n (ndigits n) Hn); [by apply ndigits_pos|lia]. }
  pose proof (Hlt a Ha). pose proof (Hlt b Hb). nia.
Qed.

(** A Decimal with at most 1000 digits and an exponent of ordinary size. *)
Definition ordinary (d : fdec) : Prop := ndigits (zcoef d) <= 1000 ∧ -1000 <= fexp d <= 1000.

Lemma exact_product a b :
  ordinary a → ordinary b →
  let prec := Z.max 1 (ndigits (zcoef a) + ndigits (zcoef b)) in
  ∃ p, dec_mul_ctx (context_with_prec prec) a b = Ok p ∧ (dval p == dval a * dval b)%Q ∧ adjusted p <= 3999.
Proof.
  intros [Ha Hae] [Hb Hbe] prec.
  pose proof (ndigits_pos _ (zcoef_nonneg a)) as Hna. pose proof (ndigits_pos _ (zcoef_nonneg b)) as Hnb.
  assert (Hm : zcoef (exact_mul a b) = zcoef a * zcoef b).
  { unfold exact_mul. apply zcoef_mkdec. apply Z.mul_nonneg_nonneg; auto with fincore. }
  pose proof (ndigits_mul _ _ (zcoef_nonneg a) (zcoef_nonneg b)) as Hlt. rewrite <- Hm in Hlt.
  assert (Hnd : ndigits (zcoef (exact_mul a b)) <= prec).
  { apply ndigits_le; [auto with fincore|lia|]. eapply Z.lt_le_trans; [done|]. apply Z.pow_le_mono_r; lia. }
  assert (Hid : fix_dec (context_with_prec prec) (exact_mul a b) =
                Ok (if is_zero (exact_mul a b) then mkdec (fsign (exact_mul a b)) 0 (fexp (exact_mul a b)) else exact_mul a b)).
  { unfold fix_dec. change (fexp (exact_mul a b)) with (fexp a + fexp b).
    unfold context_with_prec, etiny, etop. cbn [c_emin c_emax c_prec].
    destruct (is_zero (exact_mul a b)) eqn:E; [do 3 f_equal; lia|].
    rewrite (proj2 (Z.ltb_ge (999999 - prec + 1) _)), (proj2 (Z.ltb_ge (fexp a + fexp b) _)) by lia. done. }
  unfold dec_mul_ctx. rewrite Hid. eexists; split; [done|].
  destruct (is_zero (exact_mul a b)) eqn:E.
  - split.
    + apply is_zero_true in E. rewrite <- dval_exact_mul, E, dval_mkdec by done.
      destruct (fsign _); apply Qmult_0_l.
    + unfold adjusted. rewrite zcoef_mkdec, ndigits_0 by done. cbn [fexp mkdec exact_mul]. lia.
  - split; [apply dval_exact_mul|]. unfold adjusted. cbn [fexp mkdec exact_mul]. fold (exact_mul a b). lia.
Qed.

Lemma service_charge_exact t rate c u :
  minor_units c = Ok u → ordinary t → ordinary rate → (0 <= dval t)%Q → (0 <= dval rate)%Q →
  ∃ r, quantized_service_charge_from_rate t rate c = Ok r ∧
       at_scale u r (Qfloor (dval t * dval rate * q10 u + (1 # 2))).
Proof.
  intros Hu Ht Hr Ht0 Hr0. unfold quantized_service_charge_from_rate.
  destruct (exact_product t rate Ht Hr) as (p&->&Hp&Hadj). step.
  pose proof (minor_units_sane _ _ Hu) as Hs. unfold sane_scale in Hs. pose proof Hu as Hu'.
  apply minor_units_range in Hu'. rewrite Hu. step.
  destruct (quantum_for_units_spec c u Hu) as (q&->&Hq). step.
  destruct Ht as [Ht1 _], Hr as [Hr1 _].
  pose proof (ndigits_pos _ (zcoef_nonneg t)). pose proof (ndigits_pos _ (zcoef_nonneg rate)).
  assert (Hp0 : (0 <= dval p)%Q) by (rewrite Hp; by apply Qmult_le_0_compat).
  assert (Hprod : Qfloor (dval t * dval rate * q10 u + (1 # 2)) = Qfloor (dval p * q10 u + (1 # 2)))
    by by rewrite Hp.
  rewrite Hprod. apply quantize_wide; try done; cbn [c_prec context_with_prec]; lia.
Qed.

(** * Claims *)

(** A service charge computed from a rate is rounded once.  For an item
    total and a rate of ordinary size the charge exists and is the exact
    product rounded half up to whole minor units: the working precision
    introduces no hidden first rounding. *)
Theorem service_charge_rounded_once t rate c u :
  minor_units c = Ok u → ordinary t → ordinary rate → (0 <= dval t)%Q → (0 <= dval rate)%Q →
  ∃ r, quantized_service_charge_from_rate t rate c = Ok r ∧
       at_scale u r (Qfloor (dval t * dval rate * q10 u + (1 # 2))).
Proof. apply service_charge_exact. Qed.

Lemma service_charge_rounded_once_witness :
  ∃ r, quantized_service_charge_from_rate (mkdec false 2070 (-2)) (mkdec false 10 (-2)) "SGD" = Ok r ∧
       at_scale 2 r 207.
Proof.
  apply (service_charge_rounded_once (mkdec false 2070 (-2)) (mkdec false 10 (-2)) "SGD" 2).
  - by vm_compute.
  - split; [by vm_compute|cbn; lia].
  - split; [by vm_compute|cbn; lia].
  - by vm_compute.
  - by vm_compute.
Defined.
