(* ===== verification/PyFloat.v ===== *)
(** * Binary64 quotients and their texts

    The reconciliation matcher divides two token counts, which gives a
    binary64 float, and turns the float into a decimal through its [repr].
    [float_of_ratio] is the correctly rounded quotient of two integers and
    [float_repr] the shortest text that reads back as the float. *)

From Stdlib Require Import Ascii ZArith SpecFloat QArith Qpower Lia.
From stdpp Require Import base sets strings sorting numbers list.
From S2P Require Import Prelude PyDecimal DecUnits.

Open Scope Z_scope.

(** [n / d] rounded to the nearest integer, ties to even. *)
Definition round_half_even (n d : Z) : Z :=
  let q := n / d in
  let r := n mod d in
  if (2 * r <? d) || ((2 * r =? d) && Z.even q) then q else q + 1.

Definition pow2 (e : Z) : Z := 2 ^ Z.max 0 e.

(** [⌊log2 (p / q)⌋] for positive [p] and [q]. *)
Definition log2_ratio (p q : Z) : Z :=
  let k := Z.log2 p - Z.log2 q in
  if p * pow2 (- k) <? q * pow2 k then k - 1 else k.

Definition float_of_ratio (p q : Z) : spec_float :=
  if p =? 0 then S754_zero false
  else
    let e := Z.max (log2_ratio p q - 52) (-1074) in
    let m := round_half_even (p * pow2 (- e)) (q * pow2 e) in
    let '(m, e) := if m =? 2 ^ 53 then (2 ^ 52, e + 1) else (m, e) in
    if m =? 0 then S754_zero false
    else if 971 <? e then S754_infinity false
    else S754_finite false (Z.to_pos m) e.

(** The value of a finite float as a quotient of integers. *)
Definition float_num (f : spec_float) : Z :=
  match f with S754_finite s m e => (if s then - Z.pos m else Z.pos m) * pow2 e | _ => 0 end.
Definition float_den (f : spec_float) : Z :=
  match f with S754_finite _ _ e => pow2 (- e) | _ => 1 end.

Definition float_eqb (f g : spec_float) : bool :=
  match f, g with
  | S754_zero _, S754_zero _ => true
  | S754_finite s m e, S754_finite s' m' e' =>
      Bool.eqb s s' && (m =? m')%positive && (e =? e')
  | S754_infinity s, S754_infinity s' => Bool.eqb s s'
  | _, _ => false
  end.

(** ** [repr] *)

(** The [p] with [10 ^ (p - 1) <= n / d < 10 ^ p]. *)
Definition decimal_point (n d : Z) : Z :=
  if d <=? n then ndigits (n / d)
  else
    let c := (d + n - 1) / n in
    1 - (if c <=? 1 then 0 else ndigits (c - 1)).

Definition pow10 (e : Z) : Z := 10 ^ Z.max 0 e.

(** [c * 10 ^ s] read as a float. *)
Definition float_of_scaled (c s : Z) : spec_float := float_of_ratio (c * pow10 s) (pow10 (- s)).

(** The neighbours of [n / d] on the grid [10 ^ s], the nearer one first. *)
Definition scaled_neighbours (n d s : Z) : list Z :=
  let lo := (n * pow10 (- s)) / (d * pow10 s) in
  let r := (n * pow10 (- s)) mod (d * pow10 s) in
  if (2 * r <? d * pow10 s) || ((2 * r =? d * pow10 s) && Z.even lo) then [lo; lo + 1]
  else [lo + 1; lo].

(** Fewest digits, up to [fuel + k] of them, that read back as [f]; seventeen
    digits always do. *)
Fixpoint shortest (fuel : nat) (k : Z) (f : spec_float) : Z * Z :=
  let n := Z.abs (float_num f) in
  let s := decimal_point n (float_den f) - k in
  let cs := scaled_neighbours n (float_den f) s in
  match fuel with
  | O => (hd 0 cs, s)
  | S fuel =>
      match list_find (λ c, Is_true (float_eqb (float_of_scaled c s) f)) cs with
      | Some (_, c) => (c, s)
      | None => shortest fuel (k + 1) f
      end
  end.

(** Removes trailing zeros. *)
Fixpoint strip_scaled (fuel : nat) (c s : Z) : Z * Z :=
  match fuel with
  | O => (c, s)
  | S fuel => if (c mod 10 =? 0) && negb (c =? 0) then strip_scaled fuel (c / 10) (s + 1) else (c, s)
  end.

(** The digits [c] and exponent [s] of [repr f]. *)
Definition repr_digits (f : spec_float) : Z * Z :=
  let '(c, s) := shortest 16 1 f in strip_scaled 20 c s.

Definition repr_chars (c s : Z) : list Ascii.ascii :=
  let ds := coef_chars c in
  let n := Z.of_nat (length ds) in
  let point := n + s in
  if (-4 <? point) && (point <=? 16) then
    if point <=? 0 then "0"%char :: "."%char :: replicate (Z.to_nat (- point)) "0"%char ++ ds
    else if n <=? point then ds ++ replicate (Z.to_nat (point - n)) "0"%char ++ ["."%char; "0"%char]
    else take (Z.to_nat point) ds ++ "."%char :: drop (Z.to_nat point) ds
  else
    let x := point - 1 in
    let ex := int_chars (Z.abs x) in
    take 1 ds ++ (if n =? 1 then [] else "."%char :: drop 1 ds) ++
    "e"%char :: (if x <? 0 then "-"%char else "+"%char) ::
    (if (length ex <? 2)%nat then "0"%char :: ex else ex).

Definition float_repr (f : spec_float) : string :=
  match f with
  | S754_zero s => if s then "-0.0" else "0.0"
  | S754_infinity s => if s then "-inf" else "inf"
  | S754_nan => "nan"
  | S754_finite sg m e =>
      let '(c, s) := repr_digits f in
      of_chars ((if sg then ["-"%char] else []) ++ repr_chars c s)
  end.

(** [float(d)] of a finite non-negative decimal. *)
Definition float_of_dec (d : fdec) : spec_float := float_of_scaled (zcoef d) (fexp d).

Example repr_tests :
  map (λ '(p, q), float_repr (float_of_ratio p q))
    [(1, 3); (1, 2); (2, 3); (1, 1); (5, 1); (1, 10); (3, 10); (1, 7); (1, 4000); (1, 30000);
     (22, 7); (10 ^ 22, 1); (123456789, 1); (0, 5)] =
  ["0.3333333333333333"; "0.5"; "0.6666666666666666"; "1.0"; "5.0"; "0.1"; "0.3";
   "0.14285714285714285"; "0.00025"; "3.3333333333333335e-05"; "3.142857142857143"; "1e+22";
   "123456789.0"; "0.0"].
Proof. by vm_compute. Qed.
