(* ===== verification/PyDate.v ===== *)
(** * Calendar dates

    [datetime.date] as far as the reconciliation code uses it: equality,
    the day count of a difference and [isoformat]. *)

From Stdlib Require Import Ascii ZArith Lia.
From stdpp Require Import base sets strings sorting numbers list.
From S2P Require Import Prelude PyDecimal.

Open Scope Z_scope.

Record date := Date { year : Z; month : Z; day : Z }.

#[global] Instance date_eq_dec : EqDecision date.
Proof. solve_decision. Defined.

Definition is_leap (y : Z) : bool :=
  (y mod 4 =? 0) && (negb (y mod 100 =? 0) || (y mod 400 =? 0)).

Definition days_before_year (y : Z) : Z :=
  let y := y - 1 in y * 365 + y / 4 - y / 100 + y / 400.

Definition days_in_month (y m : Z) : Z :=
  if (m =? 2) && is_leap y then 29
  else nth (Z.to_nat m) [0; 31; 28; 31; 30; 31; 30; 31; 31; 30; 31; 30; 31] 0.

(** Days of the year before month [m] of a year that is not leap. *)
Definition month_offset (m : Z) : Z :=
  nth (Z.to_nat m) [0; 0; 31; 59; 90; 120; 151; 181; 212; 243; 273; 304; 334] 0.

Definition days_before_month (y m : Z) : Z :=
  month_offset m + (if (2 <? m) && is_leap y then 1 else 0).

Definition toordinal (d : date) : Z :=
  days_before_year (year d) + days_before_month (year d) (month d) + day d.

(** [(a - b).days]. *)
Definition days_between (a b : date) : Z := toordinal a - toordinal b.

Definition pad_left (n : nat) (l : list Ascii.ascii) : list Ascii.ascii :=
  replicate (n - length l) "0"%char ++ l.

Definition date_isoformat (d : date) : string :=
  of_chars (pad_left 4 (int_chars (year d)) ++ "-"%char :: pad_left 2 (int_chars (month d)) ++
            "-"%char :: pad_left 2 (int_chars (day d))).

Definition date_wf (d : date) : bool :=
  (1 <=? year d) && (year d <=? 9999) && (1 <=? month d) && (month d <=? 12) &&
  (1 <=? day d) && (day d <=? days_in_month (year d) (month d)).

Example date_tests :
  toordinal (Date 1970 1 1) = 719163 ∧ toordinal (Date 2024 3 1) = 738946 ∧
  days_between (Date 2024 3 1) (Date 2024 2 28) = 2 ∧
  date_isoformat (Date 987 6 5) = "0987-06-05" ∧ date_wf (Date 2023 2 29) = false.
Proof. by vm_compute. Qed.

Lemma year_step y : days_before_year (y + 1) = days_before_year y + (if is_leap y then 366 else 365).
Proof.
  unfold days_before_year, is_leap. replace (y + 1 - 1) with y by lia.
  destruct (Z.eqb_spec (y mod 4) 0), (Z.eqb_spec (y mod 100) 0), (Z.eqb_spec (y mod 400) 0);
    cbn; Z.to_euclidean_division_equations; lia.
Qed.

Lemma year_lt x y : 0 <= x → x < y → days_before_year x + (if is_leap x then 366 else 365) <= days_before_year y.
Proof.
  intros Hx Hxy. rewrite <- year_step.
  unfold days_before_year. Z.to_euclidean_division_equations. lia.
Qed.

(** Evaluates the month tables at a concrete month. *)
Ltac month_case :=
  cbv [month_offset Z.to_nat Pos.to_nat Pos.iter_op nth Z.eqb Pos.eqb Z.ltb Z.compare Pos.compare
       Pos.compare_cont andb Init.Nat.add Nat.add] in *.

(** The day of the year stays within the year. *)
Lemma day_of_year_range d : date_wf d = true →
  1 <= days_before_month (year d) (month d) + day d <= (if is_leap (year d) then 366 else 365).
Proof.
  destruct d as [y m dd]; unfold date_wf, days_before_month, days_in_month; cbn -[Z.leb].
  rewrite !andb_true_iff, !Z.leb_le. intros [[[[[]]]]].
  assert (m ∈ [1;2;3;4;5;6;7;8;9;10;11;12]) as Hm by (rewrite !elem_of_cons; lia).
  rewrite !elem_of_cons, elem_of_nil in Hm.
  destruct_or?; subst; destruct (is_leap y); month_case; first [lia | done].
Qed.

Lemma day_of_year_inj d d' : date_wf d = true → date_wf d' = true → year d = year d' →
  days_before_month (year d) (month d) + day d = days_before_month (year d') (month d') + day d' →
  d = d'.
Proof.
  destruct d as [y m dd], d' as [y' m' dd'];
    unfold date_wf, days_before_month, days_in_month; cbn -[Z.leb].
  rewrite !andb_true_iff, !Z.leb_le. intros [[[[[]]]]] [[[[[]]]]] <-.
  assert (m ∈ [1;2;3;4;5;6;7;8;9;10;11;12]) as Hm by (rewrite !elem_of_cons; lia).
  assert (m' ∈ [1;2;3;4;5;6;7;8;9;10;11;12]) as Hm' by (rewrite !elem_of_cons; lia).
  rewrite !elem_of_cons, elem_of_nil in Hm, Hm'.
  destruct_or?; subst; destruct (is_leap y); month_case; intros; first [done | f_equal; lia | lia].
Qed.

(** Distinct dates have distinct ordinals. *)
Lemma toordinal_inj d d' : date_wf d = true → date_wf d' = true →
  toordinal d = toordinal d' → d = d'.
Proof.
  intros H H' E. apply day_of_year_inj; [done..| |].
  all: pose proof (day_of_year_range d H); pose proof (day_of_year_range d' H').
  all: assert (0 <= year d ∧ 0 <= year d') as []
    by (unfold date_wf in *; rewrite !andb_true_iff, !Z.leb_le in *; lia).
  all: pose proof (year_lt (year d) (year d')); pose proof (year_lt (year d') (year d)).
  all: unfold toordinal in E.
  - lia.
  - assert (year d = year d') by lia. replace (year d') with (year d) in * by done. lia.
Qed.
