(* ===== verification/PyDateTime.v ===== *)
(** * Points in time

    [datetime.fromisoformat] of CPython 3.12 on the bytes of a text, with the
    date forms of ISO 8601 (calendar, basic and week dates), the time forms
    and the offsets it accepts, and its liberties: any separator between date
    and time, a stray character before an offset. *)

From Stdlib Require Import Ascii ZArith Lia.
From stdpp Require Import base sets strings sorting numbers list.
From S2P Require Import Prelude PyDecimal PyDate.

Open Scope Z_scope.

(** The offset from UTC of an aware time, in microseconds. *)
Record datetime := DateTime {
  dt_date : date; hour : Z; minute : Z; second : Z; microsecond : Z; utcoffset : option Z }.

(** The character at a position; a C string ends in a zero. *)
Definition nul : Ascii.ascii := Ascii.ascii_of_N 0.
Definition head_or_nul (l : list Ascii.ascii) : Ascii.ascii := match l with c :: _ => c | [] => nul end.
Definition is_digit (c : Ascii.ascii) : bool := (48 <=? ascii_code c) && (ascii_code c <=? 57).

(** [n] digits, and what follows them. *)
Fixpoint parse_digits (n : nat) (acc : Z) (l : list Ascii.ascii) : option (Z * list Ascii.ascii) :=
  match n, l with
  | O, _ => Some (acc, l)
  | S n, c :: l => if is_digit c then parse_digits n (10 * acc + char_digit c) l else None
  | S _, [] => None
  end.

(** ** Dates *)

Definition iso_week1_monday (y : Z) : Z :=
  let first_day := toordinal (Date y 1 1) in
  let first_weekday := (first_day + 6) mod 7 in
  let week1_monday := first_day - first_weekday in
  if 3 <? first_weekday then week1_monday + 7 else week1_monday.

(** The date of an ordinal, searched from the year it can lie in. *)
Fixpoint month_of (fuel : nat) (y m rest : Z) : Z * Z :=
  match fuel with
  | O => (m, rest)
  | S fuel => if rest <=? days_in_month y m then (m, rest) else month_of fuel y (m + 1) (rest - days_in_month y m)
  end.

Definition year_of (n : Z) : Z :=
  let guess := (n - 1) / 366 + 1 in
  foldl (λ y _, if days_before_year (y + 1) <? n then y + 1 else y) guess (seq 0 30).

Definition ord2ymd (n : Z) : Z * Z * Z :=
  let y := year_of n in
  let '(m, d) := month_of 11 y 1 (n - days_before_year y) in (y, m, d).

Definition weeks_53 (y : Z) : bool :=
  let first_weekday := toordinal (Date y 1 1) mod 7 in
  (first_weekday =? 4) || ((first_weekday =? 3) && is_leap y).

Definition iso_to_ymd (y week day : Z) : option (Z * Z * Z) :=
  if negb ((1 <=? y) && (y <=? 9999)) then None
  else if negb (((1 <=? week) && (week <? 53)) || ((week =? 53) && weeks_53 y)) then None
  else if negb ((1 <=? day) && (day <? 8)) then None
  else Some (ord2ymd (iso_week1_monday y + (week - 1) * 7 + (day - 1))).

Definition parse_isoformat_date (len : nat) (l : list Ascii.ascii) : option (Z * Z * Z) :=
  '(y, p) ← parse_digits 4 0 l;
  let uses_separator := Ascii.eqb (head_or_nul p) "-" in
  let p := if uses_separator then drop 1 p else p in
  if Ascii.eqb (head_or_nul p) "W" then
    '(week, p) ← parse_digits 2 0 (drop 1 p);
    if (length l - length p <? len)%nat then
      if uses_separator && negb (Ascii.eqb (head_or_nul p) "-") then None
      else '(day, p) ← parse_digits 1 0 (if uses_separator then drop 1 p else p);
           iso_to_ymd y week day
    else iso_to_ymd y week 1
  else
    '(m, p) ← parse_digits 2 0 p;
    if uses_separator && negb (Ascii.eqb (head_or_nul p) "-") then None
    else '(d, p) ← parse_digits 2 0 (if uses_separator then drop 1 p else p); Some (y, m, d).

(** Where the date ends. *)
Definition find_separator (l : list Ascii.ascii) : option nat :=
  let len := length l in
  let at_ i := head_or_nul (drop i l) in
  if (len =? 7)%nat then Some 7%nat
  else if Ascii.eqb (at_ 4%nat) "-" then
    if Ascii.eqb (at_ 5%nat) "W" then
      if (8 <? len)%nat && Ascii.eqb (at_ 8%nat) "-" then
        if (len =? 9)%nat then None
        else if (10 <? len)%nat && is_digit (at_ 10%nat) then Some 8%nat else Some 10%nat
      else Some 8%nat
    else Some 10%nat
  else if Ascii.eqb (at_ 4%nat) "W" then
    let digits := drop_while is_digit (drop 7 l) in
    let pos := (len - length digits)%nat in
    if (pos <? 9)%nat then Some pos else if Nat.even pos then Some 7%nat else Some 8%nat
  else Some 8%nat.

(** ** Times *)

Definition fraction_correction : list Z := [100000; 10000; 1000; 100; 10; 1].

(** The outcome of reading [HH[:MM[:SS[.f+]]]] from [t], which [after]
    follows: the components, and whether unread characters remain. *)
Definition parse_fraction (comps : list Z) (t after : list Ascii.ascii) : option (list Z * bool) :=
  let to_parse := Nat.min 6 (length t) in
  '(us, rest) ← parse_digits to_parse 0 t;
  let us := us * nth (to_parse - 1) fraction_correction 1 in
  Some (comps ++ [us], negb (Ascii.eqb (head_or_nul (drop_while is_digit (rest ++ after))) nul)).

Fixpoint parse_components (todo : nat) (comps : list Z) (has_separator : bool) (t after : list Ascii.ascii) :
    option (list Z * bool) :=
  match todo with
  | O => parse_fraction comps t after
  | S todo =>
      '(v, p) ← parse_digits 2 0 t;
      let comps := comps ++ [v] in
      let pad := replicate todo 0 ++ [0] in
      match p with
      | [] => Some (comps ++ pad, negb (Ascii.eqb (head_or_nul after) nul))
      | c :: p =>
          let has_separator := match comps with [_] => Ascii.eqb c ":" | _ => has_separator end in
          match p with
          | [] => Some (comps ++ pad, negb (Ascii.eqb c nul))
          | _ =>
              if has_separator && Ascii.eqb c ":" then parse_components todo comps has_separator p after
              else if Ascii.eqb c "." || Ascii.eqb c "," then parse_fraction (comps ++ replicate todo 0) p after
              else if has_separator then None
              else parse_components todo comps has_separator (c :: p) after
          end
      end
  end.

Definition parse_hh_mm_ss_ff := parse_components 3 [] true.

(** The text up to the first sign or [Z]. *)
Fixpoint split_zone (l : list Ascii.ascii) : list Ascii.ascii * list Ascii.ascii :=
  match l with
  | [] => ([], [])
  | c :: k => if Ascii.eqb c "+" || Ascii.eqb c "-" || Ascii.eqb c "Z" then ([], l)
              else let '(t, z) := split_zone k in (c :: t, z)
  end.

(** The components of a time, and the components of its offset, if any. *)
Definition parse_isoformat_time (l : list Ascii.ascii) : option (list Z * option (bool * list Z)) :=
  let '(t, zone) := split_zone l in
  '(comps, remains) ← parse_hh_mm_ss_ff t zone;
  match zone with
  | [] => if remains : bool then None else Some (comps, None)
  | c :: z =>
      if Ascii.eqb c "Z" then
        if Ascii.eqb (head_or_nul z) nul then Some (comps, Some (false, [0; 0; 0; 0])) else None
      else
        '(offset, remains) ← parse_hh_mm_ss_ff z [];
        if remains : bool then None else Some (comps, Some (Ascii.eqb c "-", offset))
  end.

(** ** The constructor's checks *)

Definition offset_microseconds (o : bool * list Z) : Z :=
  let '(negative, l) := o in
  let us := ((nth 0 l 0 * 60 + nth 1 l 0) * 60 + nth 2 l 0) * 1000000 + nth 3 l 0 in
  if negative then - us else us.

Definition one_day : Z := 86400 * 1000000.

Definition make_datetime (ymd : Z * Z * Z) (time : list Z) (offset : option Z) : option datetime :=
  let '(y, m, d) := ymd in
  let h := nth 0 time 0 in let mi := nth 1 time 0 in let s := nth 2 time 0 in
  let offset_ok := match offset with Some o => (- one_day <? o) && (o <? one_day) | None => true end in
  if offset_ok && date_wf (Date y m d) && (h <=? 23) && (mi <=? 59) && (s <=? 59)
  then Some (DateTime (Date y m d) h mi s (nth 3 time 0) offset) else None.

(** The separator is one character, of one to four bytes. *)
Definition skip_separator (l : list Ascii.ascii) : list Ascii.ascii :=
  let n := ascii_code (head_or_nul l) in
  if n <? 128 then drop 1 l
  else if n / 16 =? 14 then drop 3 l
  else if n / 16 =? 15 then drop 4 l
  else drop 2 l.

(** [datetime.fromisoformat]: [None] where it raises [ValueError]. *)
Definition fromisoformat (text : string) : option datetime :=
  let l := chars text in
  if (length l <? 7)%nat then None
  else
    sep ← find_separator l;
    ymd ← parse_isoformat_date sep l;
    match drop sep l with
    | [] => make_datetime ymd [0; 0; 0; 0] None
    | rest =>
        '(time, zone) ← parse_isoformat_time (skip_separator rest);
        make_datetime ymd time (offset_microseconds <$> zone)
    end.

(** [parsed.tzinfo is not None and parsed.utcoffset() is not None]. *)
Definition aware (d : datetime) : bool := match utcoffset d with Some _ => true | None => false end.

(** ** Conversion to UTC *)

Definition day_microseconds : Z := 86400 * 1000000.

Definition date_of_ordinal (n : Z) : date := let '(y, m, d) := ord2ymd n in Date y m d.

(** [value.astimezone(timezone.utc)] of an aware time [o] microseconds ahead
    of UTC; the years run from 1 to 9999. *)
Definition to_utc (t : datetime) (o : Z) : result datetime :=
  let us := toordinal (dt_date t) * day_microseconds +
            ((hour t * 60 + minute t) * 60 + second t) * 1000000 + microsecond t - o in
  let n := us / day_microseconds in
  let rest := us mod day_microseconds in
  if (n <? 1) || (3652059 <? n) then raise OverflowError "date value out of range"
  else Ok (DateTime (date_of_ordinal n) (rest / 3600000000) (rest / 60000000 mod 60)
             (rest / 1000000 mod 60) (rest mod 1000000) (Some 0)).

(** [isoformat(timespec="microseconds")] with the offset [+00:00] written as
    [Z]. *)
Definition utc_isoformat (t : datetime) : string :=
  of_chars (chars (date_isoformat (dt_date t)) ++ "T"%char ::
    pad_left 2 (int_chars (hour t)) ++ ":"%char :: pad_left 2 (int_chars (minute t)) ++ ":"%char ::
    pad_left 2 (int_chars (second t)) ++ "."%char :: pad_left 6 (int_chars (microsecond t)) ++ ["Z"%char]).

Example to_utc_tests :
  utc_isoformat <$> to_utc (DateTime (Date 2024 3 1) 1 2 3 45 (Some 28800000000)) 28800000000 =
    Ok "2024-02-29T17:02:03.000045Z" ∧
  is_ok (to_utc (DateTime (Date 1 1 1) 0 0 0 0 (Some 1)) 1) = false.
Proof. by vm_compute. Qed.

Example fromisoformat_tests :
  fromisoformat "2024-02-29T12:30:05.25+08:00" =
    Some (DateTime (Date 2024 2 29) 12 30 5 250000 (Some 28800000000)) ∧
  fromisoformat "2020-W01" = Some (DateTime (Date 2019 12 30) 0 0 0 0 None) ∧
  fromisoformat "20200101 1030Z" = Some (DateTime (Date 2020 1 1) 10 30 0 0 (Some 0)) ∧
  fromisoformat "2020-01-01T12x+00:00" = Some (DateTime (Date 2020 1 1) 12 0 0 0 (Some 0)) ∧
  fromisoformat "2023-02-29" = None ∧ fromisoformat "2020-01-01T12:30+24:00" = None.
Proof. by vm_compute. Qed.
