(* ===== verification/Json.v ===== *)
(** * Canonical JSON

    The JSON values of the synthetic authority records and of the
    reconciliation decisions, and the texts [json.dumps] gives them with
    sorted keys and without spaces.  Floats never occur in the records; a
    [JNum] is a float some foreign text may contain, known by the text
    [json.dumps] gives it. *)

From Stdlib Require Import Ascii ZArith Lia.
From stdpp Require Import base sets strings sorting numbers list.
From S2P Require Import Prelude PyDecimal Hash.

Open Scope Z_scope.

Inductive json :=
  | JNull
  | JBool (b : bool)
  | JInt (n : Z)
  | JNum (text : list Ascii.ascii)
  | JStr (s : string)
  | JList (l : list json)
  | JDict (d : list (string * json)).

Definition dquote : Ascii.ascii := Ascii.ascii_of_N 34.
Definition backslash : Ascii.ascii := Ascii.ascii_of_N 92.

(** [\uXXXX]. *)
Definition unicode_escape (c : Ascii.ascii) : list Ascii.ascii :=
  backslash :: "u"%char :: "0"%char :: "0"%char :: hex_byte (ascii_code c).

Definition escape_char (c : Ascii.ascii) : list Ascii.ascii :=
  let n := ascii_code c in
  if n =? 34 then [backslash; dquote]
  else if n =? 92 then [backslash; backslash]
  else if n =? 8 then [backslash; "b"%char]
  else if n =? 9 then [backslash; "t"%char]
  else if n =? 10 then [backslash; "n"%char]
  else if n =? 12 then [backslash; "f"%char]
  else if n =? 13 then [backslash; "r"%char]
  else if (32 <=? n) && (n <=? 126) then [c]
  else unicode_escape c.

(** [ensure_ascii=False] escapes the control characters, the quote and the
    backslash only. *)
Definition escape_min (c : Ascii.ascii) : list Ascii.ascii :=
  if 126 <? ascii_code c then [c] else escape_char c.

Definition json_string_with (esc : Ascii.ascii → list Ascii.ascii) (s : string) : list Ascii.ascii :=
  dquote :: mjoin (esc <$> chars s) ++ [dquote].

(** Texts separated by commas. *)
Fixpoint comma_join (l : list (list Ascii.ascii)) : list Ascii.ascii :=
  match l with
  | [] => []
  | [x] => x
  | x :: k => x ++ ","%char :: comma_join k
  end.

(** The members of an object, sorted by key. *)
Definition sort_members (d : list (string * list Ascii.ascii)) : list (string * list Ascii.ascii) :=
  isort (λ a b, String.leb a.1 b.1) d.

Fixpoint json_chars_with (esc : Ascii.ascii → list Ascii.ascii) (v : json) : list Ascii.ascii :=
  match v with
  | JNull => chars "null"
  | JBool b => chars (if b then "true" else "false")
  | JInt n => int_chars n
  | JNum text => text
  | JStr s => json_string_with esc s
  | JList l => "["%char :: comma_join (map (json_chars_with esc) l) ++ ["]"%char]
  | JDict d =>
      let members := map (λ '(k, v), (k, json_string_with esc k ++ ":"%char :: json_chars_with esc v)) d in
      "{"%char :: comma_join (map snd (sort_members members)) ++ ["}"%char]
  end.

(** [json.dumps(v, sort_keys=True, separators=(",", ":"))], with its default
    [ensure_ascii=True]. *)
Definition json_chars (v : json) : list Ascii.ascii := json_chars_with escape_char v.

(** [canonical]. *)
Definition canonical (v : json) : string := of_chars (json_chars v).

Definition CANONICAL_JSON_CONTRACT_VERSION : string := "finance-canonical-json-v1".

(** [canonical_json_text] of calculation/authoritative_snapshot.py, on values
    built from [None], booleans, integers, ASCII strings, lists and
    dictionaries: Unicode normalisation leaves those as they are. *)
Definition canonical_json_text (v : json) : string :=
  of_chars (json_chars_with escape_min
    (JDict [("contract_version", JStr CANONICAL_JSON_CONTRACT_VERSION); ("value", v)])).

Definition opt_json {A} (f : A → json) (o : option A) : json :=
  match o with Some a => f a | None => JNull end.

Example canonical_sorted :
  canonical (JDict [("b", JInt (-5)); ("a", JList [JNull; JBool true; JDict []])]) =
  of_chars ("{"%char :: dquote :: "a"%char :: dquote :: chars ":[null,true,{}]," ++
            dquote :: "b"%char :: dquote :: chars ":-5}").
Proof. by vm_compute. Qed.
