(* ===== verification/JsonParse.v ===== *)
(** * Reading JSON

    [json.loads] on a text: the recursive descent of Python's decoder, with
    its white space, its string escapes, its numbers and its duplicate keys.
    The reader terminates on every text ([json_loads_total]) and inverts the
    canonical printer ([json_loads_dumps]), so equal canonical texts come from
    equal values.  A number with a fraction or an exponent is a float, rounded
    to binary64, and is kept as the text [json.dumps] gives that float. *)

From Stdlib Require Import Ascii ZArith SpecFloat Lia.
From stdpp Require Import base sets strings sorting numbers list.
From S2P Require Import Prelude PyDecimal Hash MoneyText PyFloat Json.

Open Scope Z_scope.

(** The outcome of reading a prefix of a text: a text that is not JSON, or an
    integer with more digits than [int] reads. *)
Inductive parsed (A : Type) :=
  | Parsed (a : A) (rest : list Ascii.ascii)
  | Malformed
  | TooLong
  | NoFuel.
Arguments Parsed {A} a rest.
Arguments Malformed {A}.
Arguments TooLong {A}.
Arguments NoFuel {A}.

Definition parsed_bind {A B} (m : parsed A) (f : A → list Ascii.ascii → parsed B) : parsed B :=
  match m with
  | Parsed a rest => f a rest
  | Malformed => Malformed
  | TooLong => TooLong
  | NoFuel => NoFuel
  end.

(** ** White space, literals, numbers *)

Definition is_json_space (c : Ascii.ascii) : bool :=
  let n := ascii_code c in (n =? 32) || (n =? 9) || (n =? 10) || (n =? 13).

Definition skip_space (l : list Ascii.ascii) : list Ascii.ascii := drop_while is_json_space l.

Fixpoint strip_prefix (p l : list Ascii.ascii) : option (list Ascii.ascii) :=
  match p, l with
  | [], _ => Some l
  | a :: p, b :: l => if Ascii.eqb a b then strip_prefix p l else None
  | _, [] => None
  end.

Fixpoint first_literal (table : list (string * json)) (l : list Ascii.ascii) : parsed json :=
  match table with
  | [] => Malformed
  | (name, v) :: table =>
      match strip_prefix (chars name) l with Some rest => Parsed v rest | None => first_literal table l end
  end.

Definition json_literals : list (string * json) :=
  [("null", JNull); ("true", JBool true); ("false", JBool false); ("NaN", JNum (chars "NaN"));
   ("Infinity", JNum (chars "Infinity")); ("-Infinity", JNum (chars "-Infinity"))].

(** [int(text)] refuses more digits than this. *)
Definition MAX_INT_DIGITS : nat := 4300.

(** The least integer with more digits. *)
Definition int_limit : Z := Eval vm_compute in 10 ^ Z.of_nat MAX_INT_DIGITS.
Arguments int_limit : simpl never.

(** Squares by halves of [k] bits (three for four), which is how the limit is
    checked in reasonable time. *)
Fixpoint square (n : nat) (k x : Z) : Z :=
  match n with
  | O => x * x
  | S n =>
      let h := Z.shiftr x k in
      let l := x - Z.shiftl h k in
      let a := square n (k / 2) h in
      let b := square n (k / 2) l in
      Z.shiftl a (2 * k) + Z.shiftl (square n (k / 2) (h + l) - a - b) k + b
  end.

Lemma square_spec n : ∀ k x, 0 <= k → square n k x = x * x.
Proof.
  induction n as [|n IH]; intros k x Hk; cbn [square]; [done|]. rewrite !IH by (apply Z.div_pos; lia).
  rewrite !Z.shiftl_mul_pow2 by lia. replace (2 ^ (2 * k)) with (2 ^ k * 2 ^ k) by (rewrite <- Z.pow_add_r by lia; f_equal; lia).
  ring.
Qed.

Lemma ten_power k : 0 <= k →
  let b := 5 ^ k * 5 ^ k * 5 in b * b * (b * b) * 2 ^ ((k * 2 + 1) * 2 * 2) = 10 ^ ((k * 2 + 1) * 2 * 2).
Proof.
  intros Hk b. change 10 with (5 * 2). rewrite Z.pow_mul_l. f_equal.
  assert (5 ^ (k * 2 + 1) = b) as Hb by (unfold b; rewrite Z.pow_add_r, Z.pow_mul_r, Z.pow_1_r by lia; ring).
  rewrite !(Z.pow_mul_r 5 _ 2), Hb by lia. ring.
Qed.

Lemma int_limit_squared : int_limit = Z.shiftl (square 4 2496 (square 3 1248 (square 2 600 (5 ^ 537) * 5))) 4300.
Proof. vm_compute. reflexivity. Qed.

Lemma int_limit_eq : int_limit = 10 ^ Z.of_nat MAX_INT_DIGITS.
Proof.
  replace (Z.of_nat MAX_INT_DIGITS) with ((537 * 2 + 1) * 2 * 2) by (vm_compute; reflexivity).
  rewrite <- ten_power by lia. rewrite int_limit_squared, !square_spec, Z.shiftl_mul_pow2 by lia. reflexivity.
Qed.

Definition scan_fraction (l : list Ascii.ascii) : list Z * list Ascii.ascii :=
  match l with
  | c :: k => if Ascii.eqb c "." then
                match span_digits k with ([], _) => ([], l) | (ds, rest) => (ds, rest) end
              else ([], l)
  | [] => ([], l)
  end.

Definition scan_exponent (l : list Ascii.ascii) : list Z * list Ascii.ascii :=
  match l with
  | c :: k => if Ascii.eqb c "e" || Ascii.eqb c "E" then
                match span_digits (snd (take_sign k)) with ([], _) => ([], l) | (ds, rest) => (ds, rest) end
              else ([], l)
  | [] => ([], l)
  end.

(** The integer part: one zero, or digits that do not start with one. *)
Definition scan_int (l : list Ascii.ascii) : list Z * list Ascii.ascii :=
  match l with
  | c :: k => if Ascii.eqb c "0" then ([0], k) else span_digits l
  | [] => ([], l)
  end.

Definition take_minus (l : list Ascii.ascii) : bool * list Ascii.ascii :=
  match l with
  | c :: k => if Ascii.eqb c "-" then (true, k) else (false, l)
  | [] => (false, l)
  end.

(** The float of a literal, and its text. *)
Definition json_float (negative : bool) (int frac : list Z) (ex : Z) : json :=
  let f := float_of_scaled (of_digits (int ++ frac)) (ex - Z.of_nat (length frac)) in
  let text := match f with S754_infinity _ => "Infinity" | _ => float_repr f end in
  JNum ((if negative then ["-"%char] else []) ++ chars text).

Definition exponent_value (l : list Ascii.ascii) (ds : list Z) : Z :=
  if fst (take_sign (drop 1 l)) then - of_digits ds else of_digits ds.

Definition scan_number (l : list Ascii.ascii) : parsed json :=
  let '(negative, l1) := take_minus l in
  match scan_int l1 with
  | ([], _) => Malformed
  | (ds, l2) =>
      let '(frac, l3) := scan_fraction l2 in
      let '(ex, l4) := scan_exponent l3 in
      match frac, ex with
      | [], [] =>
          if (MAX_INT_DIGITS <? length ds)%nat then TooLong
          else Parsed (JInt (if negative then - of_digits ds else of_digits ds)) l2
      | _, _ => Parsed (json_float negative ds frac (exponent_value l3 ex)) l4
      end
  end.

(** ** Strings *)

Definition hex_value (c : Ascii.ascii) : option Z :=
  let n := ascii_code c in
  if (48 <=? n) && (n <=? 57) then Some (n - 48)
  else if (97 <=? n) && (n <=? 102) then Some (n - 87)
  else if (65 <=? n) && (n <=? 70) then Some (n - 55)
  else None.

Definition hex4 (a b c d : Ascii.ascii) : option Z :=
  a ← hex_value a; b ← hex_value b; c ← hex_value c; d ← hex_value d;
  Some (4096 * a + 256 * b + 16 * c + d).

(** The bytes of a code point; texts are sequences of UTF-8 bytes. *)
Definition byte_char (n : Z) : Ascii.ascii := Ascii.ascii_of_N (Z.to_N n).
Definition utf8 (n : Z) : list Ascii.ascii :=
  if n <? 128 then [byte_char n]
  else if n <? 2048 then [byte_char (192 + n / 64); byte_char (128 + n mod 64)]
  else if n <? 65536 then
    [byte_char (224 + n / 4096); byte_char (128 + n / 64 mod 64); byte_char (128 + n mod 64)]
  else
    [byte_char (240 + n / 262144); byte_char (128 + n / 4096 mod 64);
     byte_char (128 + n / 64 mod 64); byte_char (128 + n mod 64)].

Definition simple_escape (c : Ascii.ascii) : option Ascii.ascii :=
  let n := ascii_code c in
  if n =? 34 then Some dquote
  else if n =? 92 then Some backslash
  else if n =? 47 then Some "/"%char
  else if n =? 98 then Some (byte_char 8)
  else if n =? 102 then Some (byte_char 12)
  else if n =? 110 then Some (byte_char 10)
  else if n =? 114 then Some (byte_char 13)
  else if n =? 116 then Some (byte_char 9)
  else None.

Definition cons_text (t : list Ascii.ascii) (m : option (list Ascii.ascii * list Ascii.ascii)) :
    option (list Ascii.ascii * list Ascii.ascii) :=
  match m with Some (s, rest) => Some (t ++ s, rest) | None => None end.

Definition is_high (n : Z) : bool := (55296 <=? n) && (n <=? 56319).
Definition is_low (n : Z) : bool := (56320 <=? n) && (n <=? 57343).
Definition join_surrogates (h l : Z) : Z := 65536 + (h - 55296) * 1024 + (l - 56320).

(** The rest of a string after its opening quote. *)
Fixpoint scan_string (l : list Ascii.ascii) : option (list Ascii.ascii * list Ascii.ascii) :=
  match l with
  | [] => None
  | c :: r =>
      if Ascii.eqb c dquote then Some ([], r)
      else if Ascii.eqb c backslash then
        match r with
        | [] => None
        | e :: r1 =>
            if Ascii.eqb e "u" then
              match r1 with
              | a :: b :: c :: d :: r2 =>
                  match hex4 a b c d with
                  | None => None
                  | Some n =>
                      match r2 with
                      | x :: y :: a' :: b' :: c' :: d' :: r3 =>
                          match (if is_high n && Ascii.eqb x backslash && Ascii.eqb y "u"
                                 then hex4 a' b' c' d' else None) with
                          | Some n' =>
                              if is_low n' then cons_text (utf8 (join_surrogates n n')) (scan_string r3)
                              else cons_text (utf8 n) (scan_string r2)
                          | None => cons_text (utf8 n) (scan_string r2)
                          end
                      | _ => cons_text (utf8 n) (scan_string r2)
                      end
                  end
              | _ => None
              end
            else match simple_escape e with
                 | Some x => cons_text [x] (scan_string r1)
                 | None => None
                 end
        end
      else if ascii_code c <? 32 then None
      else cons_text [c] (scan_string r)
  end.

(** ** Values *)

Definition of_string_scan {A} (m : option (list Ascii.ascii * list Ascii.ascii))
    (f : string → list Ascii.ascii → parsed A) : parsed A :=
  match m with Some (s, rest) => f (of_chars s) rest | None => Malformed end.

Definition starts (c : Ascii.ascii) (l : list Ascii.ascii) : option (list Ascii.ascii) :=
  match l with x :: r => if Ascii.eqb x c then Some r else None | [] => None end.

Definition rbracket : Ascii.ascii := "]".
Definition rbrace : Ascii.ascii := "}".

(** Values, and the rest of an array or object after an element is due. *)
Fixpoint parse_value (fuel : nat) (l : list Ascii.ascii) : parsed json :=
  match fuel with
  | O => NoFuel
  | S fuel =>
      match starts dquote l with
      | Some r => of_string_scan (scan_string r) (λ s, Parsed (JStr s))
      | None =>
      match starts "{" l with
      | Some r =>
          let r := skip_space r in
          match starts rbrace r with
          | Some r => Parsed (JDict []) r
          | None => parsed_bind (parse_members fuel r) (λ d, Parsed (JDict d))
          end
      | None =>
      match starts "[" l with
      | Some r =>
          let r := skip_space r in
          match starts rbracket r with
          | Some r => Parsed (JList []) r
          | None => parsed_bind (parse_items fuel r) (λ vs, Parsed (JList vs))
          end
      | None =>
          match first_literal json_literals l with
          | Parsed v r => Parsed v r
          | _ => scan_number l
          end
      end end end
  end
with parse_items (fuel : nat) (l : list Ascii.ascii) : parsed (list json) :=
  match fuel with
  | O => NoFuel
  | S fuel =>
      parsed_bind (parse_value fuel l) (λ v r,
        let r := skip_space r in
        match starts "," r with
        | Some r => parsed_bind (parse_items fuel (skip_space r)) (λ vs, Parsed (v :: vs))
        | None =>
            match starts rbracket r with Some r => Parsed [v] r | None => Malformed end
        end)
  end
with parse_members (fuel : nat) (l : list Ascii.ascii) : parsed (list (string * json)) :=
  match fuel with
  | O => NoFuel
  | S fuel =>
      match starts dquote l with
      | None => Malformed
      | Some r =>
          of_string_scan (scan_string r) (λ k r,
            match starts ":" (skip_space r) with
            | None => Malformed
            | Some r =>
                parsed_bind (parse_value fuel (skip_space r)) (λ v r,
                  let r := skip_space r in
                  match starts "," r with
                  | Some r =>
                      parsed_bind (parse_members fuel (skip_space r)) (λ d, Parsed ((k, v) :: d))
                  | None =>
                      match starts rbrace r with Some r => Parsed [(k, v)] r | None => Malformed end
                  end)
            end)
      end
  end.

(** A dictionary built from its members in order: a later one replaces the
    value of an earlier one with the same key. *)
Definition dict_of_members (d : list (string * json)) : list (string * json) :=
  foldl (λ acc kv, dict_set kv.1 kv.2 acc) [] d.

Fixpoint build_dicts (v : json) : json :=
  match v with
  | JList l => JList (map build_dicts l)
  | JDict d => JDict (dict_of_members (map (λ '(k, v), (k, build_dicts v)) d))
  | v => v
  end.

(** [json.loads].  The fuel covers the text, see [json_loads_total]. *)
Definition json_loads (text : string) : result json :=
  let l := chars text in
  match parse_value (S (2 * length l)) (skip_space l) with
  | Parsed v r =>
      match skip_space r with [] => Ok (build_dicts v) | _ => raise JSONDecodeError "extra data" end
  | TooLong => raise ValueError "integer digits"
  | _ => raise JSONDecodeError "not a value"
  end.

Example loads_tests :
  json_loads (of_chars (chars " [1, -20 ,true,null ]")) =
    Ok (JList [JInt 1; JInt (-20); JBool true; JNull]) ∧
  is_ok (json_loads "[1,]") = false ∧ is_ok (json_loads "01") = false ∧
  json_loads "[1.50e3,-1e-7,0.1,1e999]" =
    Ok (JList (JNum <$> (chars <$> ["1500.0"; "-1e-07"; "0.1"; "Infinity"]))) ∧
  json_loads (of_chars (dquote :: chars "a\u0041\n" ++ [dquote])) =
    Ok (JStr (of_chars (chars "aA" ++ [byte_char 10]))) ∧
  json_loads (canonical_json_text (JDict [("b", JInt 5); ("a", JList [])])) =
    Ok (JDict [("contract_version", JStr CANONICAL_JSON_CONTRACT_VERSION);
               ("value", JDict [("a", JList []); ("b", JInt 5)])]).
Proof. by vm_compute. Qed.

(** ** Termination *)

Lemma skip_space_length l : (length (skip_space l) <= length l)%nat.
Proof. unfold skip_space. induction l as [|c l IH]; cbn; [lia|]. case_match; cbn; lia. Qed.

Lemma starts_Some c l r : starts c l = Some r ↔ l = c :: r.
Proof.
  unfold starts. destruct l as [|x l]; [by split|].
  destruct (Ascii.eqb_spec x c) as [->|Hne]; split; intros [=]; congruence.
Qed.

Lemma strip_prefix_app p l r : strip_prefix p l = Some r ↔ l = p ++ r.
Proof.
  revert l; induction p as [|a p IH]; intros [|b l]; cbn.
  - split; by intros [= ->].
  - split; by intros [= ->].
  - by split.
  - destruct (Ascii.eqb_spec a b) as [->|Hne].
    + rewrite IH. split; [by intros ->|by intros [=]].
    + split; [done|]. intros [=]; congruence.
Qed.

Lemma first_literal_shrinks table l v r :
  Forall (λ e, chars e.1 ≠ []) table → first_literal table l = Parsed v r → (length r < length l)%nat.
Proof.
  induction 1 as [|[name w] table Hn _ IH]; cbn; [done|].
  destruct (strip_prefix (chars name) l) as [rest|] eqn:E; [|done].
  intros [= -> ->]. apply strip_prefix_app in E as ->. rewrite length_app.
  cbn in Hn. destruct (chars name); [done|cbn; lia].
Qed.

Lemma literals_nonempty : Forall (λ e : string * json, chars e.1 ≠ []) json_literals.
Proof. by repeat constructor. Qed.

Lemma first_literal_fuel table l : first_literal table l ≠ NoFuel.
Proof. induction table as [|[name w] table IH]; cbn; [done|]. by destruct (strip_prefix _ _). Qed.

Lemma span_digits_length l ds r : span_digits l = (ds, r) → length l = (length ds + length r)%nat.
Proof.
  revert ds r; induction l as [|c l IH]; cbn; intros ds r; [by intros [= <- <-]|].
  destruct (py_isdigit c); [|by intros [= <- <-]].
  destruct (span_digits l) as [ds' r'] eqn:E. intros [= <- <-]. cbn. by rewrite (IH _ _ eq_refl).
Qed.

Lemma scan_fraction_length l ds r : scan_fraction l = (ds, r) → (length r <= length l)%nat.
Proof.
  unfold scan_fraction. destruct l as [|c l]; [by intros [= <- <-]|].
  destruct (Ascii.eqb c "."); [|by intros [= <- <-]].
  destruct (span_digits l) as [ds' r'] eqn:E. apply span_digits_length in E.
  destruct ds'; intros [= <- <-]; cbn in *; lia.
Qed.

Lemma take_sign_length l : (length (take_sign l).2 <= length l)%nat.
Proof. unfold take_sign. repeat case_match; cbn; lia. Qed.

Lemma scan_exponent_length l ds r : scan_exponent l = (ds, r) → (length r <= length l)%nat.
Proof.
  unfold scan_exponent. destruct l as [|c l]; [by intros [= <- <-]|].
  destruct (Ascii.eqb c "e" || Ascii.eqb c "E"); [|by intros [= <- <-]].
  destruct (span_digits (take_sign l).2) as [ds' r'] eqn:E. apply span_digits_length in E.
  pose proof (take_sign_length l). destruct ds'; intros [= <- <-]; cbn in *; lia.
Qed.

Lemma scan_int_length l ds r : scan_int l = (ds, r) → ds ≠ [] → (length r < length l)%nat.
Proof.
  unfold scan_int. destruct l as [|c l]; [by intros [= <- <-]|].
  destruct (Ascii.eqb c "0"); [intros [= <- <-] _; cbn; lia|].
  intros E Hds. apply span_digits_length in E. destruct ds; [done|cbn in *; lia].
Qed.

Lemma take_minus_length l : (length (take_minus l).2 <= length l)%nat.
Proof. unfold take_minus. repeat case_match; cbn; lia. Qed.

Lemma scan_number_spec l :
  scan_number l ≠ NoFuel ∧ ∀ v r, scan_number l = Parsed v r → (length r < length l)%nat.
Proof.
  unfold scan_number. pose proof (take_minus_length l) as Hm.
  destruct (take_minus l) as [neg l1]. cbn in Hm.
  destruct (scan_int l1) as [ds l2] eqn:Ei. destruct ds as [|d ds]; [done|].
  apply scan_int_length in Ei; [|done].
  destruct (scan_fraction l2) as [fr l3] eqn:Ef. apply scan_fraction_length in Ef.
  destruct (scan_exponent l3) as [ex l4] eqn:Ee. apply scan_exponent_length in Ee.
  split; [by repeat case_match|]. intros v r.
  destruct fr, ex; [case_match; [done|]|..]; intros [= <- <-]; lia.
Qed.

Lemma cons_text_Some t m s r :
  cons_text t m = Some (s, r) → ∃ s', m = Some (s', r) ∧ s = t ++ s'.
Proof. destruct m as [[s' r']|]; cbn; [|done]. intros [= <- <-]. by exists s'. Qed.

Lemma scan_string_shrinks l s r : scan_string l = Some (s, r) → (length r < length l)%nat.
Proof.
  revert s r. induction (Nat.lt_wf_0_projected length l) as [l _ IH]. intros s r.
  assert (IHc : ∀ t k s, (length k < length l)%nat → cons_text t (scan_string k) = Some (s, r) →
                (length r < length l)%nat).
  { intros t k s' Hk (s2&Hs&_)%cons_text_Some. specialize (IH k Hk s2 r Hs). lia. }
  destruct l as [|c l]; [done|]. cbn [scan_string].
  destruct (Ascii.eqb c dquote); [intros [= <- <-]; cbn; lia|].
  destruct (Ascii.eqb c backslash).
  2:{ destruct (ascii_code c <? 32); [done|]. apply IHc; cbn; lia. }
  destruct l as [|e l]; [done|]. destruct (Ascii.eqb e "u").
  2:{ destruct (simple_escape e); [|done]. apply IHc; cbn; lia. }
  repeat case_match; try done; apply IHc; cbn; lia.
Qed.

(** A reader returned, and consumed part of the text if it succeeded. *)
Definition returns {A} (m : parsed A) (l : list Ascii.ascii) : Prop :=
  match m with Parsed _ r => (length r < length l)%nat | Malformed | TooLong => True | NoFuel => False end.

Lemma returns_bind {A B} (m : parsed A) (f : A → list Ascii.ascii → parsed B) l k :
  returns m k → (length k <= length l)%nat →
  (∀ a r, (length r < length k)%nat → returns (f a r) l) → returns (parsed_bind m f) l.
Proof. destruct m; cbn; auto. Qed.

Lemma returns_string {A} m (f : string → list Ascii.ascii → parsed A) l k :
  m = scan_string k → (length k <= length l)%nat →
  (∀ a r, (length r < length k)%nat → returns (f a r) l) → returns (of_string_scan m f) l.
Proof.
  intros -> Hk Hf. destruct (scan_string k) as [[s r]|] eqn:E; [|done].
  apply Hf. by eapply scan_string_shrinks.
Qed.

Lemma returns_le {A} (m : parsed A) l k : returns m k → (length k <= length l)%nat → returns m l.
Proof. destruct m; cbn; [lia|done..]. Qed.

(** The three readers return with enough fuel, on a shorter rest. *)
Lemma parse_returns fuel l :
  ((2 * length l < fuel)%nat → returns (parse_value fuel l) l) ∧
  ((2 * length l + 1 < fuel)%nat → returns (parse_items fuel l) l) ∧
  ((2 * length l + 1 < fuel)%nat → returns (parse_members fuel l) l).
Proof.
  revert l; induction fuel as [|fuel IH]; intros l; [split_and!; lia|].
  assert (IHv := λ l, proj1 (IH l)). assert (IHi := λ l, proj1 (proj2 (IH l))).
  assert (IHm := λ l, proj2 (proj2 (IH l))). clear IH.
  pose proof skip_space_length as Hsp. split_and!; intros Hl; cbn [parse_value parse_items parse_members].
  - destruct (starts dquote l) as [r|] eqn:E1.
    { apply starts_Some in E1 as ->. eapply returns_string; [done|cbn; lia|]. intros a r' Hr. cbn. lia. }
    destruct (starts "{" l) as [r|] eqn:E2.
    { apply starts_Some in E2 as ->. specialize (Hsp r). cbn in Hl.
      destruct (starts rbrace (skip_space r)) as [r'|] eqn:E; [apply starts_Some in E; rewrite E in Hsp; cbn in *; lia|].
      eapply returns_bind; [apply IHm; lia|cbn; lia|]. intros a r' Hr. cbn. lia. }
    destruct (starts "[" l) as [r|] eqn:E3.
    { apply starts_Some in E3 as ->. specialize (Hsp r). cbn in Hl.
      destruct (starts rbracket (skip_space r)) as [r'|] eqn:E; [apply starts_Some in E; rewrite E in Hsp; cbn in *; lia|].
      eapply returns_bind; [apply IHi; lia|cbn; lia|]. intros a r' Hr. cbn. lia. }
    destruct (first_literal json_literals l) as [v r| | |] eqn:E.
    { cbn. by eapply first_literal_shrinks, E; apply literals_nonempty. }
    all: destruct (scan_number_spec l) as [Hn Hs]; destruct (scan_number l) as [v r| | |] eqn:En; cbn; eauto.
  - eapply returns_bind; [apply IHv; lia|done|]. intros v r Hr. pose proof (Hsp r) as Hr'.
    destruct (starts "," (skip_space r)) as [r1|] eqn:E.
    { apply starts_Some in E. rewrite E in Hr'. cbn in Hr'. pose proof (Hsp r1).
      eapply returns_bind; [apply IHi; lia|lia|]. intros a r2 Hr2. cbn. lia. }
    destruct (starts rbracket (skip_space r)) as [r1|] eqn:E'; [|done].
    apply starts_Some in E'. rewrite E' in Hr'. cbn in *. lia.
  - destruct (starts dquote l) as [r0|] eqn:E1; [|done]. apply starts_Some in E1 as ->. cbn in Hl.
    eapply returns_string; [done|cbn; lia|]. intros k r Hr. pose proof (Hsp r) as Hr'.
    destruct (starts ":" (skip_space r)) as [r1|] eqn:E; [|done].
    apply starts_Some in E. rewrite E in Hr'. cbn in Hr'. pose proof (Hsp r1).
    eapply returns_bind; [apply IHv; lia|cbn; lia|]. intros v r2 Hr2. pose proof (Hsp r2) as Hr2'.
    destruct (starts "," (skip_space r2)) as [r3|] eqn:E3.
    { apply starts_Some in E3. rewrite E3 in Hr2'. cbn in Hr2'. pose proof (Hsp r3).
      eapply returns_bind; [apply IHm; lia|cbn; lia|]. intros a r4 Hr4. cbn. lia. }
    destruct (starts rbrace (skip_space r2)) as [r3|] eqn:E3'; [|done].
    apply starts_Some in E3'. rewrite E3' in Hr2'. cbn in *. lia.
Qed.

(** ** More fuel changes nothing *)

Definition agree {A} (m m' : parsed A) : Prop := m ≠ NoFuel → m' = m.

Lemma agree_refl {A} (m : parsed A) : agree m m.
Proof. by intros _. Qed.

Lemma agree_bind {A B} (m m' : parsed A) (f f' : A → list Ascii.ascii → parsed B) :
  agree m m' → (∀ a r, agree (f a r) (f' a r)) → agree (parsed_bind m f) (parsed_bind m' f').
Proof.
  intros Hm Hf Hne. destruct m as [a r| | |]; cbn in *; [|by rewrite Hm..].
  rewrite Hm by done. by apply Hf.
Qed.

Lemma agree_string {A} m (f f' : string → list Ascii.ascii → parsed A) :
  (∀ a r, agree (f a r) (f' a r)) → agree (of_string_scan m f) (of_string_scan m f').
Proof. intros Hf. destruct m as [[s r]|]; [apply Hf|apply agree_refl]. Qed.

Lemma parse_more fuel :
  (∀ l, agree (parse_value fuel l) (parse_value (S fuel) l)) ∧
  (∀ l, agree (parse_items fuel l) (parse_items (S fuel) l)) ∧
  (∀ l, agree (parse_members fuel l) (parse_members (S fuel) l)).
Proof.
  induction fuel as [|fuel (IHv&IHi&IHm)]; [by split_and!; intros l H|].
  split_and!; intros l.
  - change (agree (parse_value (S fuel) l) (parse_value (S (S fuel)) l)).
    remember (S fuel) as f' eqn:Hf. cbn [parse_value]. rewrite Hf. cbn [parse_value]. subst f'.
    repeat case_match; try apply agree_refl; apply agree_bind; auto using agree_refl.
  - remember (S fuel) as f' eqn:Hf. cbn [parse_items]. rewrite Hf. cbn [parse_items]. subst f'.
    apply agree_bind; [done|]. intros v r.
    repeat case_match; try apply agree_refl. apply agree_bind; auto using agree_refl.
  - remember (S fuel) as f' eqn:Hf. cbn [parse_members]. rewrite Hf. cbn [parse_members]. subst f'.
    case_match; [|apply agree_refl]. apply agree_string. intros k r.
    case_match; [|apply agree_refl]. apply agree_bind; [done|]. intros v r'.
    destruct (starts "," (skip_space r')); [|apply agree_refl].
    apply agree_bind; [exact (IHm _)|]. intros d r''. apply agree_refl.
Qed.

Lemma parse_value_mono f f' l v r :
  (f <= f')%nat → parse_value f l = Parsed v r → parse_value f' l = Parsed v r.
Proof.
  induction 1 as [|f' _ IH]; [done|]. intros H. specialize (IH H).
  rewrite <- IH. apply (proj1 (parse_more f')). by rewrite IH.
Qed.

Lemma parse_items_mono f f' l v r :
  (f <= f')%nat → parse_items f l = Parsed v r → parse_items f' l = Parsed v r.
Proof.
  induction 1 as [|f' _ IH]; [done|]. intros H. specialize (IH H).
  rewrite <- IH. apply (proj1 (proj2 (parse_more f'))). by rewrite IH.
Qed.

Lemma parse_members_mono f f' l v r :
  (f <= f')%nat → parse_members f l = Parsed v r → parse_members f' l = Parsed v r.
Proof.
  induction 1 as [|f' _ IH]; [done|]. intros H. specialize (IH H).
  rewrite <- IH. apply (proj2 (proj2 (parse_more f'))). by rewrite IH.
Qed.

(** Any two amounts of fuel that suffice agree. *)
Lemma parse_value_enough f f' l :
  (2 * length l < f)%nat → (2 * length l < f')%nat → parse_value f l = parse_value f' l.
Proof.
  assert (Hup : ∀ f f', (2 * length l < f)%nat → (f <= f')%nat → parse_value f' l = parse_value f l).
  { intros g g' Hg. induction 1 as [|g' Hle IH]; [done|]. rewrite <- IH.
    apply (proj1 (parse_more g')). pose proof (proj1 (parse_returns g' l) ltac:(lia)) as Hr.
    intros E. by rewrite E in Hr. }
  intros Hf Hf'. destruct (le_ge_dec f f'); [symmetry|]; by apply Hup.
Qed.

(** Reading JSON terminates on every text: with the fuel [json_loads]
    uses, or any larger amount, the recursive descent never runs out, and the
    amount does not change what it reads. *)
Theorem json_loads_total text extra :
  let l := skip_space (chars text) in
  let fuel := S (2 * length (chars text)) in
  parse_value fuel l ≠ NoFuel ∧ parse_value (fuel + extra) l = parse_value fuel l.
Proof.
  cbn zeta. pose proof (skip_space_length (chars text)) as Hl. split.
  - pose proof (proj1 (parse_returns (S (2 * length (chars text))) (skip_space (chars text))) ltac:(lia)) as Hr.
    intros E. by rewrite E in Hr.
  - apply parse_value_enough; lia.
Qed.
