(* ===== verification/JsonRoundtrip.v ===== *)
(** * Canonical JSON is read back

    Every value the records carry is read back from its canonical text with
    the members of its objects sorted by key ([json_loads_dumps]); so two
    values with one text are equal up to the order of their members, and a
    digest of the text is a digest of the value. *)

From Stdlib Require Import Ascii ZArith Lia.
From stdpp Require Import base sets strings sorting numbers list.
From S2P Require Import Prelude PyDecimal Hash MoneyText Json JsonParse.

Open Scope Z_scope.

(** Induction over the values inside arrays and objects. *)
Fixpoint json_nested_ind (P : json → Prop)
    (Hnull : P JNull) (Hbool : ∀ b, P (JBool b)) (Hint : ∀ n, P (JInt n)) (Hnum : ∀ t, P (JNum t))
    (Hstr : ∀ s, P (JStr s)) (Hlist : ∀ l, Forall P l → P (JList l))
    (Hdict : ∀ d, Forall (λ kv, P kv.2) d → P (JDict d)) (v : json) : P v :=
  let rec := json_nested_ind P Hnull Hbool Hint Hnum Hstr Hlist Hdict in
  match v with
  | JNull => Hnull
  | JBool b => Hbool b
  | JInt n => Hint n
  | JNum t => Hnum t
  | JStr s => Hstr s
  | JList l => Hlist l (list_ind (Forall P) (List.Forall_nil P) (λ x k H, List.Forall_cons P x k (rec x) H) l)
  | JDict d => Hdict d
      (list_ind (Forall (λ kv, P kv.2)) (List.Forall_nil _)
         (λ x k H, List.Forall_cons (λ kv, P kv.2) x k (rec x.2) H) d)
  end.

(** The value with its members sorted by key, all the way down. *)
Definition sort_dict (d : list (string * json)) : list (string * json) :=
  isort (λ a b, String.leb a.1 b.1) d.
Fixpoint sort_json (v : json) : json :=
  match v with
  | JList l => JList (map sort_json l)
  | JDict d => JDict (sort_dict (map (λ '(k, v), (k, sort_json v)) d))
  | v => v
  end.

(** A float's text that is read back as itself. *)
Definition float_text (t : list Ascii.ascii) : bool :=
  match scan_number t with Parsed (JNum t') [] => bool_decide (t' = t) | _ => false end.

(** What the encoder and the decoder agree on: floats whose texts are read
    back, integers Python reads from text, keys that occur once, and texts the
    escaping covers. *)
Fixpoint json_ok (ok : Ascii.ascii → bool) (v : json) : bool :=
  match v with
  | JNull | JBool _ => true
  | JInt n => Z.abs n <? int_limit
  | JNum t => float_text t
  | JStr s => forallb ok (chars s)
  | JList l => forallb (json_ok ok) l
  | JDict d => bool_decide (NoDup (dict_keys d)) &&
               forallb (λ '(k, v), forallb ok (chars k) && json_ok ok v) d
  end.

(** ** Strings *)

(** The decoder undoes what the encoder does to a character. *)
Definition undoes (esc : Ascii.ascii → list Ascii.ascii) (c : Ascii.ascii) : Prop :=
  ∀ rest, scan_string (esc c ++ rest) = cons_text [c] (scan_string rest).

Lemma scan_unicode a b c d n rest :
  hex4 a b c d = Some n → is_high n = false →
  scan_string (backslash :: "u"%char :: a :: b :: c :: d :: rest) = cons_text (utf8 n) (scan_string rest).
Proof.
  intros Hn Hh. cbn [scan_string]. rewrite Hn, Hh. cbn.
  by destruct rest as [|? [|? [|? [|? [|? [|? ?]]]]]].
Qed.

Definition is_ascii (c : Ascii.ascii) : bool := ascii_code c <? 128.
Definition any_char (c : Ascii.ascii) : bool := true.

Lemma unicode_undoes c :
  is_ascii c = true → ∀ rest, scan_string (unicode_escape c ++ rest) = cons_text [c] (scan_string rest).
Proof.
  intros Hc rest. unfold unicode_escape.
  assert (∃ n h l, hex_byte (ascii_code c) = [h; l] ∧ hex4 "0" "0" h l = Some n ∧ is_high n = false ∧
                   utf8 n = [c]) as (n&h&l&Eh&E1&E2&E3).
  { destruct c as [[] [] [] [] [] [] [] []]; try done; do 3 eexists; split_and!; reflexivity. }
  rewrite Eh. cbn [app]. rewrite (scan_unicode _ _ _ _ _ _ E1 E2). by rewrite E3.
Qed.

Lemma plain_undoes c rest :
  (ascii_code c =? 34) = false → (ascii_code c =? 92) = false → (ascii_code c <? 32) = false →
  scan_string (c :: rest) = cons_text [c] (scan_string rest).
Proof.
  intros H1 H2 H3. cbn [scan_string].
  destruct (Ascii.eqb_spec c dquote) as [->|_]; [done|].
  destruct (Ascii.eqb_spec c backslash) as [->|_]; [done|]. by rewrite H3.
Qed.

Lemma byte_char_code c : byte_char (ascii_code c) = c.
Proof. unfold byte_char, ascii_code. by rewrite N2Z.id, Ascii.ascii_N_embedding. Qed.

(** A character whose code a test has just revealed. *)
Ltac reveal_code :=
  match goal with
  | |- context [if ascii_code ?c =? ?n then _ else _] =>
      let E := fresh "E" in
      destruct (ascii_code c =? n) eqn:E;
        [apply Z.eqb_eq in E; rewrite <- (byte_char_code c), E; reflexivity|]
  end.

Lemma escape_char_undoes c : is_ascii c = true → undoes escape_char c.
Proof.
  intros Hc rest. unfold escape_char. repeat reveal_code.
  destruct ((32 <=? ascii_code c) && (ascii_code c <=? 126)) eqn:E'.
  - apply plain_undoes; [done..|]. lia.
  - by apply unicode_undoes.
Qed.

Lemma escape_min_undoes c : undoes escape_min c.
Proof.
  intros rest. unfold escape_min. destruct (126 <? ascii_code c) eqn:E.
  - apply plain_undoes; lia.
  - apply escape_char_undoes. unfold is_ascii. lia.
Qed.

Lemma scan_escaped esc l rest :
  Forall (undoes esc) l → scan_string (mjoin (esc <$> l) ++ dquote :: rest) = Some (l, rest).
Proof.
  induction 1 as [|c l Hc _ IH]; [done|].
  change (mjoin (esc <$> c :: l)) with (esc c ++ mjoin (esc <$> l)). by rewrite <- app_assoc, Hc, IH.
Qed.

Lemma scan_json_string esc s rest :
  Forall (undoes esc) (chars s) →
  ∃ r, json_string_with esc s ++ rest = dquote :: r ∧ scan_string r = Some (chars s, rest).
Proof.
  intros Hs. exists (mjoin (esc <$> chars s) ++ dquote :: rest). split; [|by apply scan_escaped].
  unfold json_string_with. cbn [app]. by rewrite <- app_assoc.
Qed.

(** ** Integers *)

(** What may follow a value inside canonical JSON. *)
Definition ends (rest : list Ascii.ascii) : Prop :=
  match rest with [] => True | c :: _ => c = ","%char ∨ c = "]"%char ∨ c = "}"%char end.

Lemma digits_of_length m k : 0 <= m < 10 ^ Z.of_nat k → (1 <= k)%nat → (length (digits_of m) <= k)%nat.
Proof.
  intros [Hm Hk] H1. destruct (Z.eq_dec m 0) as [->|Hne]; [cbn; lia|].
  destruct (digits_of_spec m Hm) as (_&_&_&_&Hb). destruct (Hb ltac:(lia)) as [Hlo _]. unfold ndigits in Hlo.
  assert (Z.of_nat (length (digits_of m)) - 1 < Z.of_nat k); [|lia].
  apply (Z.pow_lt_mono_r_iff 10); lia.
Qed.

Lemma nothing_follows rest :
  ends rest → scan_fraction rest = ([], rest) ∧ scan_exponent rest = ([], rest).
Proof. intros Hr. destruct rest as [|c rest]; [done|]. by destruct Hr as [->|[->| ->]]. Qed.

Lemma scan_int_coef m rest :
  0 <= m → ends rest → scan_int (coef_chars m ++ rest) = (digits_of m, rest).
Proof.
  intros Hm Hr. unfold coef_chars. destruct (Z.eq_dec m 0) as [->|Hne]; [done|].
  destruct (digits_of_spec m Hm) as (_&Hd&_&Hhd&_). destruct (Hhd Hne) as (d&ds&Heq&Hd0).
  assert (Hs : span_digits ((digit_char <$> digits_of m) ++ rest) = (digits_of m, rest)).
  { apply span_digits_app; [done|]. destruct rest as [|c rest]; [done|]. by destruct Hr as [->|[->| ->]]. }
  rewrite Heq in Hs, Hd |- *. unfold scan_int. cbn [fmap list_fmap app] in *.
  destruct (Ascii.eqb_spec (digit_char d) "0") as [E|_]; [|done].
  apply Forall_cons in Hd as [Hd _]. assert (d = 1 ∨ d = 2 ∨ d = 3 ∨ d = 4 ∨ d = 5 ∨ d = 6 ∨ d = 7 ∨ d = 8 ∨ d = 9) as Hc by lia.
  destruct_or! Hc; subst d; by vm_compute in E.
Qed.

(** A coefficient starts with a digit. *)
Lemma coef_head m : 0 <= m → ∃ d l, digit d ∧ coef_chars m = digit_char d :: l.
Proof.
  intros Hm. destruct (digits_of_spec m Hm) as (_&Hd&Hne&_). unfold coef_chars.
  destruct (digits_of m) as [|d ds]; [done|]. apply Forall_cons in Hd as [Hd _]. by exists d, (digit_char <$> ds).
Qed.

Lemma digit_dispatch fuel d l :
  digit d → parse_value (S fuel) (digit_char d :: l) = scan_number (digit_char d :: l) ∧
  parse_value (S fuel) ("-"%char :: digit_char d :: l) = scan_number ("-"%char :: digit_char d :: l) ∧
  take_minus (digit_char d :: l) = (false, digit_char d :: l).
Proof.
  intros Hd. assert (d = 0 ∨ d = 1 ∨ d = 2 ∨ d = 3 ∨ d = 4 ∨ d = 5 ∨ d = 6 ∨ d = 7 ∨ d = 8 ∨ d = 9) as Hc by lia.
  destruct_or! Hc; subst d; by split_and!.
Qed.

(** A number whose integer part is all there is. *)
Lemma scan_number_int l neg l1 ds rest :
  take_minus l = (neg, l1) → scan_int l1 = (ds, rest) → ds ≠ [] →
  (length ds <= MAX_INT_DIGITS)%nat → ends rest →
  scan_number l = Parsed (JInt (if neg then - of_digits ds else of_digits ds)) rest.
Proof.
  intros Hm Hs Hne Hlen Hr. unfold scan_number. rewrite Hm, Hs.
  destruct ds as [|d ds]; [done|]. destruct (nothing_follows rest Hr) as [-> ->].
  apply Nat.ltb_ge in Hlen. by rewrite Hlen.
Qed.

Lemma parse_int fuel n rest :
  Z.abs n < 10 ^ Z.of_nat MAX_INT_DIGITS → ends rest →
  parse_value (S fuel) (int_chars n ++ rest) = Parsed (JInt n) rest.
Proof.
  intros Hn Hr.
  destruct (coef_head (Z.abs n)) as (d&l&Hd&Hl); [lia|].
  assert (Hsc := scan_int_coef (Z.abs n) rest ltac:(lia) Hr).
  destruct (digits_of_spec (Z.abs n)) as (Hv&_&Hne&_); [lia|].
  assert (Hlen : (length (digits_of (Z.abs n)) <= MAX_INT_DIGITS)%nat).
  { apply digits_of_length; [lia|]. unfold MAX_INT_DIGITS. lia. }
  destruct (digit_dispatch fuel d (l ++ rest) Hd) as (Hp&Hm&Ht). rewrite Hl in Hsc.
  unfold int_chars. destruct (Z.ltb_spec n 0) as [Hneg|Hpos].
  - replace (- n) with (Z.abs n) by lia. rewrite Hl. cbn [app]. rewrite Hm.
    erewrite scan_number_int; [|by cbn [take_minus]|exact Hsc|done..]. rewrite Hv. do 2 f_equal. lia.
  - replace n with (Z.abs n) at 1 by lia. rewrite Hl. cbn [app]. rewrite Hp.
    erewrite scan_number_int; [|exact Ht|exact Hsc|done..]. rewrite Hv. do 2 f_equal. lia.
Qed.

(** ** Floats *)

Section Follow.
Context (rest : list Ascii.ascii) (Hrest : ends rest).

Lemma span_digits_follow l ds r : span_digits l = (ds, r) → span_digits (l ++ rest) = (ds, r ++ rest).
Proof using Hrest.
  revert ds r; induction l as [|c l IH]; intros ds r; cbn [span_digits app].
  - intros [= <- <-]. destruct rest as [|c k]; [done|]. by destruct Hrest as [->|[->| ->]].
  - destruct (py_isdigit c); [|by intros [= <- <-]].
    destruct (span_digits l) as [ds' r'] eqn:E. intros [= <- <-]. by rewrite (IH _ _ eq_refl).
Qed.

Lemma scan_int_follow l ds r : scan_int l = (ds, r) → ds ≠ [] → scan_int (l ++ rest) = (ds, r ++ rest).
Proof using Hrest.
  destruct l as [|c l]; [by intros [= <- <-]|]. cbn [scan_int app].
  destruct (Ascii.eqb c "0"); [by intros [= <- <-]|]. intros H _. by apply (span_digits_follow (c :: l)).
Qed.

Lemma scan_fraction_follow l ds r : scan_fraction l = (ds, r) → scan_fraction (l ++ rest) = (ds, r ++ rest).
Proof using Hrest.
  destruct l as [|c l]; [intros [= <- <-]; by apply nothing_follows|]. cbn [scan_fraction app].
  destruct (Ascii.eqb c "."); [|by intros [= <- <-]].
  destruct (span_digits l) as [ds' r'] eqn:E. rewrite (span_digits_follow _ _ _ E).
  by destruct ds'; intros [= <- <-].
Qed.

Lemma take_sign_follow l : take_sign (l ++ rest) = ((take_sign l).1, (take_sign l).2 ++ rest).
Proof using Hrest.
  destruct l as [|c l]; cbn [app].
  - destruct rest as [|c k]; [done|]. by destruct Hrest as [->|[->| ->]].
  - by destruct c as [[] [] [] [] [] [] [] []].
Qed.

Lemma scan_exponent_follow l ds r : scan_exponent l = (ds, r) → scan_exponent (l ++ rest) = (ds, r ++ rest).
Proof using Hrest.
  destruct l as [|c l]; [intros [= <- <-]; by apply nothing_follows|]. cbn [scan_exponent app].
  destruct (_ || _); [|by intros [= <- <-]]. rewrite take_sign_follow. cbn [snd].
  destruct (span_digits (take_sign l).2) as [ds' r'] eqn:E. rewrite (span_digits_follow _ _ _ E).
  by destruct ds'; intros [= <- <-].
Qed.

Lemma exponent_value_follow l ds r : scan_exponent l = (ds, r) → exponent_value (l ++ rest) ds = exponent_value l ds.
Proof using Hrest.
  destruct l as [|c l]; [intros [= <- <-]|intros _].
  - unfold exponent_value. by repeat case_match.
  - unfold exponent_value. cbn [app drop]. rewrite !drop_0, take_sign_follow. done.
Qed.

Lemma scan_number_follow l v :
  scan_number l = Parsed v [] → scan_number (l ++ rest) = Parsed v rest.
Proof using Hrest.
  unfold scan_number. destruct (take_minus l) as [neg l1] eqn:Em.
  destruct (scan_int l1) as [ds l2] eqn:Ei. destruct ds as [|d ds]; [done|].
  assert (take_minus (l ++ rest) = (neg, l1 ++ rest)) as ->.
  { destruct l as [|c l]; [by injection Em as <- <-|]. cbn [take_minus app] in *.
    by destruct (Ascii.eqb c "-"); injection Em as <- <-. }
  rewrite (scan_int_follow _ _ _ Ei) by done.
  destruct (scan_fraction l2) as [frac l3] eqn:Ef. rewrite (scan_fraction_follow _ _ _ Ef).
  destruct (scan_exponent l3) as [ex l4] eqn:Ee. rewrite (scan_exponent_follow _ _ _ Ee).
  rewrite (exponent_value_follow _ _ _ Ee).
  destruct frac, ex; [destruct (_ <? _)%nat; [done|]|..]; intros [= <- ->]; done.
Qed.
End Follow.

(** A number starts with a digit, after its sign. *)
Lemma span_digits_head l : (span_digits l).1 ≠ [] → ∃ d k, digit d ∧ l = digit_char d :: k.
Proof.
  destruct l as [|c l]; [done|]. cbn [span_digits]. destruct (py_isdigit c) eqn:E; [|done]. intros _.
  exists (char_digit c), l. unfold py_isdigit in E. split; [unfold char_digit; lia|].
  f_equal. unfold digit_char, char_digit. rewrite Z.sub_add. symmetry. apply byte_char_code.
Qed.

Lemma scan_number_head l v r :
  scan_number l = Parsed v r →
  ∃ d k, digit d ∧ (l = digit_char d :: k ∨ l = "-"%char :: digit_char d :: k).
Proof.
  unfold scan_number. destruct (take_minus l) as [neg l1] eqn:Em.
  destruct (scan_int l1) as [ds l2] eqn:Ei. destruct ds as [|d ds]; [done|]. intros _.
  assert (∃ d k, digit d ∧ l1 = digit_char d :: k) as (d'&k&Hd&->).
  { destruct l1 as [|c l1]; [done|]. cbn [scan_int] in Ei.
    destruct (Ascii.eqb_spec c "0") as [->|_]; [by exists 0, l1|].
    apply span_digits_head. by rewrite Ei. }
  exists d', k. split; [done|]. destruct l as [|c l]; [done|]. cbn [take_minus] in Em.
  destruct (Ascii.eqb_spec c "-") as [->|_]; [injection Em as <- E; right; by rewrite E|injection Em as <- -> ->; by left].
Qed.

(** ** Arrays and objects *)

(** A text is read as a value wherever values end. *)
Definition reads (v : json) (t : list Ascii.ascii) : Prop :=
  (∃ c k, t = c :: k ∧ is_json_space c = false ∧ c ≠ "]"%char) ∧
  ∀ rest, ends rest → ∃ fuel, parse_value fuel (t ++ rest) = Parsed v rest.

Lemma reads_skip v t rest : reads v t → skip_space (t ++ rest) = t ++ rest.
Proof. intros [(c&k&->&Hc&_) _]. unfold skip_space. cbn. by rewrite Hc. Qed.

Lemma parse_items_reads v t vs ts rest :
  reads v t → Forall2 reads vs ts →
  ∃ fuel, parse_items fuel (comma_join (t :: ts) ++ "]"%char :: rest) = Parsed (v :: vs) rest.
Proof.
  intros Hv Hvs. revert v t Hv. induction Hvs as [|v' t' vs ts Hv' Hvs IH]; intros v t Hv.
  - destruct (proj2 Hv ("]"%char :: rest)) as [f Hf]; [by right; left|].
    exists (S f). cbn [parse_items comma_join]. rewrite Hf. reflexivity.
  - destruct (IH v' t' Hv') as [f1 H1].
    set (tail := comma_join (t' :: ts) ++ "]"%char :: rest) in *.
    destruct (proj2 Hv (","%char :: tail)) as [f2 H2]; [by left|].
    exists (S (f1 + f2)). change (comma_join (t :: t' :: ts)) with (t ++ ","%char :: comma_join (t' :: ts)).
    rewrite <- app_assoc. cbn [app]. fold tail. cbn [parse_items].
    rewrite (parse_value_mono f2 (f1 + f2) _ _ _ ltac:(lia) H2). cbn [parsed_bind].
    change (skip_space (","%char :: tail)) with (","%char :: tail). cbn [starts]. rewrite Ascii.eqb_refl.
    assert (skip_space tail = tail) as ->.
    { unfold tail. destruct ts; cbn [comma_join]; rewrite <- ?app_assoc; by eapply reads_skip. }
    by rewrite (parse_items_mono f1 (f1 + f2) _ _ _ ltac:(lia) H1).
Qed.

Lemma reads_list vs ts :
  Forall2 reads vs ts → reads (JList vs) ("["%char :: comma_join ts ++ ["]"%char]).
Proof.
  intros Hvs. split; [by do 2 eexists|]. intros rest _. cbn [app]. rewrite <- app_assoc. cbn [app].
  destruct Hvs as [|v t vs ts Hv Hvs]; [by exists 1%nat|].
  destruct (parse_items_reads v t vs ts rest Hv Hvs) as [f Hf]. exists (S f). cbn [parse_value].
  set (tail := comma_join (t :: ts) ++ "]"%char :: rest) in *.
  assert (skip_space tail = tail ∧ starts rbracket tail = None) as [Hsk Hst].
  { unfold tail. destruct Hv as [(c&k&->&Hc&Hne) _].
    destruct ts; cbn [comma_join app]; unfold skip_space; cbn; rewrite Hc;
      (split; [done|]); by destruct (Ascii.eqb_spec c rbracket). }
  change (starts dquote ("["%char :: tail)) with (@None (list Ascii.ascii)).
  change (starts "{" ("["%char :: tail)) with (@None (list Ascii.ascii)).
  change (starts "[" ("["%char :: tail)) with (Some tail). cbv beta iota zeta.
  by rewrite Hsk, Hst, Hf.
Qed.

(** A member: its key, a colon, its value. *)
Definition member_text (esc : Ascii.ascii → list Ascii.ascii) (k : string) (t : list Ascii.ascii) :
    list Ascii.ascii := json_string_with esc k ++ ":"%char :: t.

Definition reads_member esc (kv : string * json) (t : list Ascii.ascii) : Prop :=
  Forall (undoes esc) (chars kv.1) ∧ ∃ u, t = member_text esc kv.1 u ∧ reads kv.2 u.

(** A member is read up to the end of its value. *)
Lemma parse_member_head esc kv t rest :
  reads_member esc kv t → ends rest →
  ∃ r fuel u, t ++ rest = dquote :: r ∧ scan_string r = Some (chars kv.1, ":"%char :: u) ∧
    skip_space u = u ∧ parse_value fuel u = Parsed kv.2 rest.
Proof.
  intros [Hk (u&->&Hu)] Hr. unfold member_text. rewrite <- app_assoc. cbn [app].
  destruct (scan_json_string esc kv.1 (":"%char :: u ++ rest) Hk) as (r&Hr1&Hr2).
  destruct (proj2 Hu rest Hr) as [fuel Hf]. exists r, fuel, (u ++ rest).
  split_and!; [done..| |done]. by eapply reads_skip.
Qed.

Lemma parse_members_reads esc kv t d ts rest :
  reads_member esc kv t → Forall2 (reads_member esc) d ts →
  ∃ fuel, parse_members fuel (comma_join (t :: ts) ++ rbrace :: rest) = Parsed (kv :: d) rest.
Proof.
  intros Hv Hvs. revert kv t Hv. induction Hvs as [|kv' t' d ts Hv' Hvs IH]; intros kv t Hv.
  - destruct (parse_member_head _ _ _ (rbrace :: rest) Hv) as (r&f&u&Ht&Hs&Hu&Hf); [by right; right|].
    exists (S f). cbn [parse_members comma_join]. rewrite Ht. cbn [starts]. rewrite Ascii.eqb_refl, Hs.
    cbn [of_string_scan]. change (skip_space (":"%char :: u)) with (":"%char :: u). cbn [starts].
    rewrite Ascii.eqb_refl, Hu, Hf, of_chars_chars. by destruct kv.
  - destruct (IH kv' t' Hv') as [f1 H1].
    set (tail := comma_join (t' :: ts) ++ rbrace :: rest) in *.
    destruct (parse_member_head _ _ _ (","%char :: tail) Hv) as (r&f2&u&Ht&Hs&Hu&H2); [by left|].
    exists (S (f1 + f2)). change (comma_join (t :: t' :: ts)) with (t ++ ","%char :: comma_join (t' :: ts)).
    rewrite <- app_assoc. cbn [app]. fold tail. cbn [parse_members].
    rewrite Ht. cbn [starts]. rewrite Ascii.eqb_refl, Hs.
    cbn [of_string_scan]. change (skip_space (":"%char :: u)) with (":"%char :: u). cbn [starts].
    rewrite Ascii.eqb_refl, Hu, of_chars_chars, (parse_value_mono f2 (f1 + f2) _ _ _ ltac:(lia) H2).
    cbn [parsed_bind]. change (skip_space (","%char :: tail)) with (","%char :: tail).
    cbn [starts]. rewrite Ascii.eqb_refl.
    assert (skip_space tail = tail) as ->.
    { unfold tail. destruct Hv' as [_ (w&->&_)]. by destruct ts. }
    rewrite (parse_members_mono f1 (f1 + f2) _ _ _ ltac:(lia) H1). by destruct kv.
Qed.

Lemma reads_dict esc d ts :
  Forall2 (reads_member esc) d ts → reads (JDict d) ("{"%char :: comma_join ts ++ [rbrace]).
Proof.
  intros Hvs. split; [by do 2 eexists|]. intros rest _. cbn [app]. rewrite <- app_assoc. cbn [app].
  destruct Hvs as [|kv t d ts Hv Hvs]; [by exists 1%nat|].
  destruct (parse_members_reads esc kv t d ts rest Hv Hvs) as [f Hf]. exists (S f). cbn [parse_value].
  set (tail := comma_join (t :: ts) ++ rbrace :: rest) in *.
  assert (skip_space tail = tail ∧ starts rbrace tail = None) as [Hsk Hst].
  { unfold tail. destruct Hv as [_ (w&->&_)]. by destruct ts. }
  change (starts dquote ("{"%char :: tail)) with (@None (list Ascii.ascii)).
  change (starts "{" ("{"%char :: tail)) with (Some tail). cbv beta iota zeta.
  by rewrite Hsk, Hst, Hf.
Qed.

Lemma reads_string esc s : Forall (undoes esc) (chars s) → reads (JStr s) (json_string_with esc s).
Proof.
  intros Hs. split; [by do 2 eexists|]. intros rest _.
  destruct (scan_json_string esc s rest Hs) as (r&->&Hr). exists 1%nat. cbn [parse_value starts].
  rewrite Ascii.eqb_refl, Hr. cbn. by rewrite of_chars_chars.
Qed.

Lemma reads_int n : Z.abs n < int_limit → reads (JInt n) (int_chars n).
Proof.
  intros Hn. split.
  - unfold int_chars. destruct (Z.ltb_spec n 0); [by do 2 eexists|].
    destruct (coef_head n) as (d&l&Hd&->); [lia|]. exists (digit_char d), l. split; [done|].
    assert (d = 0 ∨ d = 1 ∨ d = 2 ∨ d = 3 ∨ d = 4 ∨ d = 5 ∨ d = 6 ∨ d = 7 ∨ d = 8 ∨ d = 9) as Hc by lia.
    destruct_or! Hc; subst d; done.
  - intros rest Hr. exists 1%nat. rewrite int_limit_eq in Hn. exact (parse_int 0 n rest Hn Hr).
Qed.

Lemma reads_float t : float_text t = true → reads (JNum t) t.
Proof.
  unfold float_text. destruct (scan_number t) as [v r| | |] eqn:E; [|done..].
  destruct v as [| | |t'| | |]; try done. destruct r; [|done]. intros Ht%bool_decide_eq_true. subst t'.
  destruct (scan_number_head _ _ _ E) as (d&k&Hd&Hk). split.
  - assert (d = 0 ∨ d = 1 ∨ d = 2 ∨ d = 3 ∨ d = 4 ∨ d = 5 ∨ d = 6 ∨ d = 7 ∨ d = 8 ∨ d = 9) as Hc by lia.
    destruct Hk as [->| ->]; [|by do 2 eexists]. exists (digit_char d), k. by destruct_or! Hc; subst d.
  - intros rest Hr. exists 1%nat. pose proof (scan_number_follow rest Hr _ _ E) as Hs.
    destruct (digit_dispatch 0 d (k ++ rest) Hd) as (Hp&Hm&_).
    destruct Hk as [->| ->]; cbn [app] in *; [by rewrite Hp|by rewrite Hm].
Qed.

(** ** The value of a text *)

Lemma sort_dict_map {A} (f : string * json → A) (g : A → A → bool) d :
  (∀ a b, g (f a) (f b) = String.leb a.1 b.1) → isort g (map f d) = map f (sort_dict d).
Proof. intros Hg. apply isort_fmap. auto. Qed.

Lemma sort_dict_comm (f : json → json) d :
  sort_dict (map (λ '(k, v), (k, f v)) d) = map (λ '(k, v), (k, f v)) (sort_dict d).
Proof. apply (sort_dict_map _ (λ a b, String.leb a.1 b.1)). by intros [] []. Qed.

Lemma json_reads esc ok v :
  (∀ c, ok c = true → undoes esc c) → json_ok ok v = true → reads (sort_json v) (json_chars_with esc v).
Proof.
  intros Hesc. assert (Hs : ∀ s, forallb ok (chars s) = true → Forall (undoes esc) (chars s)).
  { intros s Hs. apply Forall_forall. intros c Hc. apply Hesc.
    rewrite List.forallb_forall in Hs. by apply Hs, list_elem_of_In. }
  induction v as [|b|n|t|s|l IH|d IH] using json_nested_ind; cbn [json_ok sort_json json_chars_with].
  - intros _. split; [by do 2 eexists|]. intros rest _. by exists 1%nat.
  - intros _. destruct b; (split; [by do 2 eexists|]); intros rest _; by exists 1%nat.
  - intros Hn%Z.ltb_lt. by apply reads_int.
  - apply reads_float.
  - intros Hok. by apply reads_string, Hs.
  - intros Hok. apply reads_list. induction IH as [|v l Hv _ IH]; cbn; [constructor|].
    cbn in Hok. apply andb_prop in Hok as [H1 H2]. constructor; auto.
  - intros [_ Hok]%andb_prop. rewrite sort_dict_comm. unfold sort_members. rewrite (sort_dict_map _ (λ a b, String.leb a.1 b.1)) by by intros [] [].
    rewrite List.map_map. apply reads_dict with esc.
    assert (Hall : Forall (λ kv, Forall (undoes esc) (chars kv.1) ∧ reads (sort_json kv.2) (json_chars_with esc kv.2))
                     (sort_dict d)).
    { unfold sort_dict. rewrite isort_perm. rewrite List.forallb_forall in Hok. rewrite Forall_forall in IH.
      apply Forall_forall. intros [k v] Hkv. specialize (IH _ Hkv). apply list_elem_of_In, Hok in Hkv.
      apply andb_prop in Hkv as [H1 H2]. split; [by apply Hs|by apply IH]. }
    induction Hall as [|[k v] l [H1 H2] _ IHl]; cbn; constructor; [|done].
    split; [done|]. by exists (json_chars_with esc v).
Qed.

Lemma dict_of_members_NoDup d : NoDup (dict_keys d) → dict_of_members d = d.
Proof.
  unfold dict_of_members. intros Hd.
  assert (Hgen : ∀ acc, NoDup (dict_keys (acc ++ d)) →
    foldl (λ acc kv, dict_set kv.1 kv.2 acc) acc d = acc ++ d); [|by apply (Hgen [])].
  clear Hd. induction d as [|[k v] d IH]; intros acc Hacc; cbn [foldl]; [by rewrite app_nil_r|].
  assert (Hk : k ∉ dict_keys acc).
  { unfold dict_keys in *. rewrite fmap_app in Hacc. apply NoDup_app in Hacc as (_&Hdis&_).
    intros Hin. apply (Hdis k Hin). by left. }
  cbn [fst snd]. rewrite dict_set_keys_new by done. rewrite IH; rewrite <- app_assoc; done.
Qed.

Lemma dict_keys_map (f : json → json) d : dict_keys (map (λ '(k, v), (k, f v)) d) = dict_keys d.
Proof. unfold dict_keys. induction d as [|[k v] d IH]; cbn; [done|]. by f_equal. Qed.

Lemma build_sorted ok v : json_ok ok v = true → build_dicts (sort_json v) = sort_json v.
Proof.
  induction v as [|b|n|t|s|l IH|d IH] using json_nested_ind; cbn [json_ok sort_json build_dicts]; try done.
  - intros Hok. f_equal. rewrite List.map_map. induction IH as [|v l Hv _ IH]; cbn; [done|].
    cbn in Hok. apply andb_prop in Hok as [H1 H2]. f_equal; auto.
  - intros [Hnd Hok]%andb_prop. apply bool_decide_eq_true in Hnd. f_equal.
    rewrite sort_dict_comm, List.map_map. rewrite List.forallb_forall in Hok. rewrite Forall_forall in IH.
    assert (Hperm : sort_dict d ≡ₚ d) by apply isort_perm.
    transitivity (dict_of_members (map (λ '(k, v), (k, sort_json v)) (sort_dict d))).
    + f_equal. apply List.map_ext_in. intros [k v] Hkv.
      f_equal. rewrite <- list_elem_of_In, Hperm in Hkv. apply (IH _ Hkv).
      apply list_elem_of_In, Hok in Hkv. by apply andb_prop in Hkv as [_ ?].
    + apply dict_of_members_NoDup. rewrite dict_keys_map. unfold dict_keys. by rewrite Hperm.
Qed.

(** The reader inverts the printer, for either escaping. *)
Lemma loads_canonical esc ok v :
  (∀ c, ok c = true → undoes esc c) → json_ok ok v = true →
  json_loads (of_chars (json_chars_with esc v)) = Ok (sort_json v).
Proof.
  intros Hesc Hok. pose proof (json_reads esc ok v Hesc Hok) as Hr.
  unfold json_loads. rewrite chars_of_chars. set (l := json_chars_with esc v) in *.
  pose proof (reads_skip _ _ [] Hr) as Hsk. rewrite !app_nil_r in Hsk. rewrite Hsk.
  destruct (proj2 Hr [] I) as [f Hf]. rewrite app_nil_r in Hf.
  rewrite (parse_value_enough _ (S (2 * length l) + f)) by lia.
  rewrite (parse_value_mono f (S (2 * length l) + f) _ _ _ ltac:(lia) Hf). cbn.
  by rewrite (build_sorted ok).
Qed.

(** Reading back the canonical text of a record ([json.dumps] with sorted
    keys and no spaces) gives the record again, its objects' members in key
    order, for every value with ASCII texts, distinct keys, floats whose texts
    are read back, and integers within Python's limit on digits. *)
Theorem json_loads_dumps v :
  json_ok is_ascii v = true → json_loads (canonical v) = Ok (sort_json v).
Proof. apply loads_canonical, escape_char_undoes. Qed.

Definition sample_json : json :=
  JDict [("b", JList [JInt (-20); JNull; JBool true]); ("a", JStr (of_chars [dquote; backslash; byte_char 10]));
         ("c", JDict [("d", JNum (chars "-1.5e-07"))])].

Lemma json_loads_dumps_witness : json_loads (canonical sample_json) = Ok (sort_json sample_json).
Proof. exact (json_loads_dumps sample_json eq_refl). Defined.

(** Two values have the same canonical text only if they are equal up to
    the order of their objects' members, so a digest of the text identifies
    the value. *)
Theorem canonical_json_injective v w :
  json_ok any_char v = true → json_ok any_char w = true →
  canonical_json_text v = canonical_json_text w → sort_json v = sort_json w.
Proof.
  intros Hv Hw Heq.
  assert (H : ∀ x, json_ok any_char x = true →
    json_loads (canonical_json_text x) =
    Ok (sort_json (JDict [("contract_version", JStr CANONICAL_JSON_CONTRACT_VERSION); ("value", x)]))).
  { intros x Hx. apply (loads_canonical escape_min any_char); [auto using escape_min_undoes|].
    cbn [json_ok forallb]. rewrite Hx. by vm_compute. }
  pose proof (H v Hv) as E. rewrite Heq, (H w Hw) in E. by injection E.
Qed.
