(* ===== verification/Snapshot.v ===== *)
(** * Authoritative calculation snapshots

    calculation/authoritative_snapshot.py: the canonical JSON contract for
    Python values, the snapshots of calculations that carry the hashes of
    their canonical payloads, and their verification.  Unicode normalisation
    is a parameter, idempotent and the identity on ASCII; the repository of
    snapshots in SQLite is not modelled. *)

From Stdlib Require Import Ascii ZArith Lia.
From stdpp Require Import base sets strings sorting numbers list.
From S2P Require Import Prelude PyDecimal PyValue Hash Money PyDate PyDateTime Json JsonParse JsonRoundtrip.

Open Scope Z_scope.

Definition SNAPSHOT_SCHEMA_VERSION : string := "v1".
Definition SUPPORTED_SNAPSHOT_SCHEMA_VERSIONS : list string := [SNAPSHOT_SCHEMA_VERSION].
Definition VALID_FINALIZATION_STATUSES : list string := ["draft"; "finalized"; "invalidated"].

(** [_domain_hash]. *)
Definition hashed_bytes (domain payload : string) : list Z := encode domain ++ 0 :: encode payload.
Definition snapshot_domain_hash (domain payload : string) : string :=
  hexdigest (sha256 (hashed_bytes domain payload)).

(** ** Printing *)

(** Every integer has few enough digits to be printed, and no float is
    infinite or not a number. *)
Fixpoint printable (v : json) : bool :=
  match v with
  | JInt n => Z.abs n <? int_limit
  | JNum t => negb (bool_decide (t ∈ [chars "NaN"; chars "Infinity"; chars "-Infinity"]))
  | JList l => forallb printable l
  | JDict d => forallb (λ kv, printable kv.2) d
  | _ => true
  end.

(** [json.dumps(v, sort_keys=True, separators=(",", ":"), ensure_ascii=False,
    allow_nan=False)]. *)
Definition json_dumps (v : json) : result string :=
  if printable v then Ok (of_chars (json_chars_with escape_min v)) else raise ValueError "json.dumps".

Definition envelope (v : json) : json :=
  JDict [("contract_version", JStr CANONICAL_JSON_CONTRACT_VERSION); ("value", v)].

Definition is_envelope (v : json) : option json :=
  match v with
  | JDict d =>
      match dict_get "contract_version" d, dict_get "value" d with
      | Some (JStr version), Some value =>
          if forallb (λ k, str_in k ["contract_version"; "value"]) (dict_keys d) &&
             String.eqb version CANONICAL_JSON_CONTRACT_VERSION
          then Some value else None
      | _, _ => None
      end
  | _ => None
  end.

(** [_verified_canonical_bytes]. *)
Definition verified_canonical_bytes (value label : string) : result string :=
  parsed ← catch (json_loads value) JSONDecodeError (λ _, raise SnapshotVerificationError "invalid JSON");
  canonical ← json_dumps parsed;
  if negb (String.eqb canonical value) then raise SnapshotVerificationError "not canonical JSON"
  else match is_envelope parsed with
       | Some _ => Ok value
       | None => raise SnapshotVerificationError "unsupported contract"
       end.

Definition canonical_json_value (payload_json label : string) : result json :=
  text ← verified_canonical_bytes payload_json label;
  parsed ← json_loads text;
  match parsed with JDict d => dict_index "value" d | _ => raise TypeError "not a dict" end.

(** The Python objects [_normalize] tells apart; the keys of a mapping need
    not be strings. *)
Inductive payload_key := KStr (s : string) | KOther.

Inductive payload :=
  | PNone
  | PBool (b : bool)
  | PStr (s : string)
  | PDec (d : decimal)
  | PFloat (f : SpecFloat.spec_float)
  | PInt (n : Z)
  | PDatetime (t : datetime)
  | PDate (d : date)
  | PMap (d : list (payload_key * payload))
  | PList (l : list payload)
  | POther.

(** What [json.loads] returned, as a Python object.  The float itself does not
    matter: no float is accepted below. *)
Fixpoint payload_of_json (v : json) : payload :=
  match v with
  | JNull => PNone
  | JBool b => PBool b
  | JInt n => PInt n
  | JNum _ => PFloat SpecFloat.S754_nan
  | JStr s => PStr s
  | JList l => PList (map payload_of_json l)
  | JDict d => PMap (map (λ '(k, v), (KStr k, payload_of_json v)) d)
  end.

(** What the code relies on of [unicodedata.normalize("NFC", s)]: normalising
    again changes nothing, and ASCII is normal. *)
Class UnicodeNormalizer (nfc : string → string) : Prop := {
  nfc_idem s : nfc (nfc s) = nfc s;
  nfc_ascii s : forallb is_ascii (chars s) = true → nfc s = s;
}.

#[export] Instance id_normalizer : UnicodeNormalizer id.
Proof. done. Qed.

Section Snapshot.
(** [unicodedata.normalize("NFC", s)]. *)
Variable nfc : string → string.

(** [_normalize]. *)
Fixpoint normalize (v : payload) : result json :=
  match v with
  | PNone => Ok JNull
  | PBool b => Ok (JBool b)
  | PStr s => Ok (JStr (nfc s))
  | PDec (DFin d) =>
      text ← canonical_decimal_str (VDec (DFin d)); Ok (JDict [("$decimal", JStr text)])
  | PDec _ => raise CanonicalSerializationError "Decimal must be finite"
  | PFloat _ => raise CanonicalSerializationError "float is not supported"
  | PInt n => Ok (JInt n)
  | PDatetime t =>
      match utcoffset t with
      | None => raise CanonicalSerializationError "datetime must be timezone-aware"
      | Some o => utc_value ← to_utc t o; Ok (JDict [("$datetime", JStr (utc_isoformat utc_value))])
      end
  | PDate d => Ok (JDict [("$date", JStr (date_isoformat d))])
  | PMap d =>
      JDict <$> foldM (λ result '(raw_key, raw_value),
        match raw_key with
        | KOther => raise CanonicalSerializationError "mapping keys must be strings"
        | KStr raw_key =>
            let key := nfc raw_key in
            if dict_mem key result then raise CanonicalSerializationError "duplicate keys"
            else value ← normalize raw_value; Ok (dict_set key value result)
        end) [] d
  | PList l => JList <$> mapM normalize l
  | POther => raise CanonicalSerializationError "unsupported authoritative JSON value"
  end.

(** [canonical_json_bytes], and [canonical_json_text], which decodes it. *)
Definition canonical_json_bytes (value : payload) : result string :=
  normalized ← normalize value; json_dumps (envelope normalized).

(** ** Snapshots *)

Record AuthoritativeCalculationSnapshot := MkSnapshot {
  snapshot_public_id : string;
  snapshot_schema_version : string;
  calculation_type : string;
  aggregate_public_id : string;
  input_payload_json : string;
  output_payload_json : string;
  rules_payload_json : string;
  input_hash : string;
  output_hash : string;
  rules_hash : string;
  combined_snapshot_hash : string;
  money_contract_version : string;
  currency_contract_version : string;
  algorithm_version : string;
  source_references : list string;
  previous_snapshot_public_id : option string;
  actor_type : string;
  actor_public_id : option string;
  authorization_reference : option string;
  finalization_status : string;
  created_at : string;
}.

Definition blank (s : string) : bool := str_empty (py_strip s).

Definition canonical_references (values : list string) : result (list string) :=
  if existsb blank values then raise SnapshotVerificationError "non-empty strings"
  else
    let normalized := isort String.leb (nfc <$> values) in
    if has_duplicates normalized then raise SnapshotVerificationError "unique"
    else Ok normalized.

(** [s.replace("Z", "+00:00")]. *)
Definition replace_Z (s : string) : string :=
  of_chars (mjoin ((λ c, if Ascii.eqb c "Z" then chars "+00:00" else [c]) <$> chars s)).

Definition validate_required_fields (s : AuthoritativeCalculationSnapshot) : result unit :=
  raise_when (existsb blank
    [snapshot_public_id s; calculation_type s; aggregate_public_id s; money_contract_version s;
     currency_contract_version s; algorithm_version s; actor_type s; created_at s])
    SnapshotVerificationError "missing fields";;
  raise_when (negb (str_in (finalization_status s) VALID_FINALIZATION_STATUSES))
    SnapshotVerificationError "finalization status";;
  match fromisoformat (replace_Z (created_at s)) with
  | None => raise SnapshotVerificationError "created_at must be ISO 8601"
  | Some t => raise_when (negb (aware t)) SnapshotVerificationError "created_at must be timezone-aware"
  end;;
  raise_when (bool_decide (previous_snapshot_public_id s = Some (snapshot_public_id s)))
    SnapshotVerificationError "references itself";;
  references ← canonical_references (source_references s);
  raise_when (negb (bool_decide (references = source_references s)))
    SnapshotVerificationError "references are not canonical".

Definition opt_str (o : option string) : payload := match o with Some s => PStr s | None => PNone end.
Definition record (d : list (string * payload)) : payload := PMap ((λ kv, (KStr kv.1, kv.2)) <$> d).

(** [_combined_hash]. *)
Definition combined_material (s : AuthoritativeCalculationSnapshot) (input_hash output_hash rules_hash : string)
    : payload :=
  record
    [("snapshot_schema_version", PStr (snapshot_schema_version s));
     ("calculation_type", PStr (calculation_type s));
     ("aggregate_public_id", PStr (aggregate_public_id s));
     ("input_hash", PStr input_hash);
     ("output_hash", PStr output_hash);
     ("rules_hash", PStr rules_hash);
     ("money_contract_version", PStr (money_contract_version s));
     ("currency_contract_version", PStr (currency_contract_version s));
     ("algorithm_version", PStr (algorithm_version s));
     ("source_references", PList (PStr <$> source_references s));
     ("previous_snapshot_public_id", opt_str (previous_snapshot_public_id s));
     ("actor_type", PStr (actor_type s));
     ("actor_public_id", opt_str (actor_public_id s));
     ("authorization_reference", opt_str (authorization_reference s));
     ("finalization_status", PStr (finalization_status s))].

Definition combined_bytes (s : AuthoritativeCalculationSnapshot) (input_hash output_hash rules_hash : string)
    : result string :=
  canonical_json_bytes (combined_material s input_hash output_hash rules_hash).

Definition combined_hash (s : AuthoritativeCalculationSnapshot) (input_hash output_hash rules_hash : string)
    : result string :=
  material ← combined_bytes s input_hash output_hash rules_hash;
  Ok (snapshot_domain_hash "finance-combined-snapshot-v1" material).

Definition rules_binding (rules_payload : json) (algorithm money currency : string) : payload :=
  record [("rules_payload", payload_of_json rules_payload); ("algorithm_version", PStr algorithm);
         ("money_contract_version", PStr money); ("currency_contract_version", PStr currency)].

(** The hash of a rules text, bound to the versions it is applied under. *)
Definition rules_binding_bytes (rules_json algorithm money currency : string) : result string :=
  rules_payload ← json_loads rules_json;
  canonical_json_bytes (rules_binding rules_payload algorithm money currency).

Definition rules_binding_hash (rules_json algorithm money currency : string) : result string :=
  binding ← rules_binding_bytes rules_json algorithm money currency;
  Ok (snapshot_domain_hash "finance-snapshot-rules-v1" binding).

Definition verify (s : AuthoritativeCalculationSnapshot) : result unit :=
  raise_when (negb (str_in (snapshot_schema_version s) SUPPORTED_SNAPSHOT_SCHEMA_VERSIONS))
    UnsupportedSnapshotVersionError "schema version";;
  validate_required_fields s;;
  input_bytes ← verified_canonical_bytes (input_payload_json s) "input";
  output_bytes ← verified_canonical_bytes (output_payload_json s) "output";
  rules_bytes ← verified_canonical_bytes (rules_payload_json s) "rules";
  let expected_input := snapshot_domain_hash "finance-snapshot-input-v1" input_bytes in
  let expected_output := snapshot_domain_hash "finance-snapshot-output-v1" output_bytes in
  expected_rules ← rules_binding_hash rules_bytes (algorithm_version s) (money_contract_version s)
                     (currency_contract_version s);
  expected_combined ← combined_hash s expected_input expected_output expected_rules;
  raise_when (negb (bool_decide
    ((input_hash s, output_hash s, rules_hash s, combined_snapshot_hash s) =
     (expected_input, expected_output, expected_rules, expected_combined))))
    SnapshotVerificationError "hash mismatch".

(** The keyword arguments of [build_authoritative_snapshot]. *)
Record SnapshotRequest := MkRequest {
  rq_public_id : string;
  rq_calculation_type : string;
  rq_aggregate_public_id : string;
  rq_input_payload : payload;
  rq_output_payload : payload;
  rq_rules_payload : payload;
  rq_money : string;
  rq_currency : string;
  rq_algorithm : string;
  rq_source_references : list string;
  rq_previous : option string;
  rq_actor_type : string;
  rq_actor : option string;
  rq_authorization : option string;
  rq_status : string;
  rq_created_at : string;
  rq_schema_version : string;
}.

Definition provisional (r : SnapshotRequest) (references : list string)
    (input_json output_json rules_json input_hash output_hash rules_hash combined : string) :=
  MkSnapshot (rq_public_id r) (rq_schema_version r) (rq_calculation_type r) (rq_aggregate_public_id r)
    input_json output_json rules_json input_hash output_hash rules_hash combined
    (rq_money r) (rq_currency r) (rq_algorithm r) references (rq_previous r) (rq_actor_type r)
    (rq_actor r) (rq_authorization r) (rq_status r) (rq_created_at r).

Definition build_authoritative_snapshot (r : SnapshotRequest) : result AuthoritativeCalculationSnapshot :=
  references ← canonical_references (rq_source_references r);
  input_json ← canonical_json_bytes (rq_input_payload r);
  output_json ← canonical_json_bytes (rq_output_payload r);
  rules_json ← canonical_json_bytes (rq_rules_payload r);
  let input_hash := snapshot_domain_hash "finance-snapshot-input-v1" input_json in
  let output_hash := snapshot_domain_hash "finance-snapshot-output-v1" output_json in
  rules_hash ← rules_binding_hash rules_json (rq_algorithm r) (rq_money r) (rq_currency r);
  let build := provisional r references input_json output_json rules_json
                 input_hash output_hash rules_hash in
  combined ← combined_hash (build (of_chars (replicate 64 "0"%char))) input_hash output_hash rules_hash;
  let snapshot := build combined in
  verify snapshot;; Ok snapshot.
End Snapshot.
