(* ===== verification/SnapshotProps.v ===== *)
(** * Snapshots verify, and their hashes bind them

    A snapshot whose payloads serialise is built and verifies, and reads its
    payloads back; two verified snapshots with one combined hash agree in
    every bound field unless SHA-256 collided on the texts at hand. *)

From Stdlib Require Import Ascii ZArith Lia.
From stdpp Require Import base sets strings sorting numbers list.
From S2P Require Import Prelude PyDecimal PyValue Hash Money MoneyText PyDate PyDateTime Json JsonParse JsonRoundtrip Snapshot.

Open Scope Z_scope.

(** ** Printing and sorting *)

Lemma isort_sorted_id {A} (leb : A → A → bool) l : StronglySorted leb l → isort leb l = l.
Proof.
  induction 1 as [|x l _ IH Hx]; [done|]. cbn. unfold isort in IH. rewrite IH.
  destruct Hx as [|y l Hxy _]; cbn; [done|]. by apply Is_true_eq_true in Hxy as ->.
Qed.

Lemma isort_idemp {A} (leb : A → A → bool) l :
  (∀ x y, leb x y = true ∨ leb y x = true) →
  (∀ x y z, leb x y = true → leb y z = true → leb x z = true) → isort leb (isort leb l) = isort leb l.
Proof. intros. apply isort_sorted_id, isort_ssorted; eauto. Qed.

Lemma sort_dict_idemp d : sort_dict (sort_dict d) = sort_dict d.
Proof. apply isort_idemp; intros; [apply str_leb_total|eapply str_leb_trans; eauto]. Qed.

(** Sorting members does not change the text. *)
Lemma json_chars_sort esc v : json_chars_with esc (sort_json v) = json_chars_with esc v.
Proof.
  induction v as [|b|n|t|s|l IH|d IH] using json_nested_ind; cbn [sort_json json_chars_with]; try done.
  - do 3 f_equal. rewrite List.map_map. induction IH as [|v l Hv _ IH]; cbn; [done|]. by f_equal.
  - do 4 f_equal. unfold sort_members.
    rewrite sort_dict_comm, List.map_map, !(sort_dict_map _ (λ a b, String.leb a.1 b.1)) by by intros [] [].
    rewrite sort_dict_idemp. apply List.map_ext_in. intros [k v] Hkv.
    rewrite Forall_forall in IH. rewrite <- list_elem_of_In in Hkv.
    unfold sort_dict in Hkv. rewrite isort_elem_of in Hkv. specialize (IH _ Hkv). cbn in IH |- *. by rewrite IH.
Qed.

Lemma printable_sort v : printable (sort_json v) = printable v.
Proof.
  induction v as [|b|n|t|s|l IH|d IH] using json_nested_ind; cbn [sort_json printable]; try done.
  - induction IH as [|v l Hv _ IH]; cbn; [done|]. by rewrite Hv, IH.
  - assert (Hp : sort_dict (map (λ '(k, v), (k, sort_json v)) d) ≡ₚ map (λ '(k, v), (k, sort_json v)) d)
      by apply isort_perm.
    apply eq_true_iff_eq. rewrite !List.forallb_forall. setoid_rewrite <- list_elem_of_In. setoid_rewrite Hp.
    rewrite Forall_forall in IH. split; intros H [k v] Hkv.
    + rewrite <- (IH _ Hkv). apply (H (k, sort_json v)). apply list_elem_of_fmap. by exists (k, v).
    + apply list_elem_of_fmap in Hkv as ([k' v']&[= -> ->]&Hkv). cbn. specialize (IH _ Hkv). cbn in IH.
      rewrite IH. apply (H _ Hkv).
Qed.

Lemma json_dumps_sort v : json_dumps (sort_json v) = json_dumps v.
Proof. unfold json_dumps. by rewrite printable_sort, json_chars_sort. Qed.

(** Values without floats and with distinct keys. *)
Fixpoint plain_json (v : json) : Prop :=
  match v with
  | JNum _ => False
  | JList l => foldr (λ v P, plain_json v ∧ P) True l
  | JDict d => NoDup (dict_keys d) ∧ foldr (λ kv P, plain_json kv.2 ∧ P) True d
  | _ => True
  end.

Lemma foldr_and {A} (P : A → Prop) l : foldr (λ x Q, P x ∧ Q) True l ↔ Forall P l.
Proof. induction l as [|x l IH]; cbn; [by split; [constructor|]|]. by rewrite Forall_cons, IH. Qed.

Lemma any_char_all s : forallb any_char (chars s) = true.
Proof. by apply List.forallb_forall. Qed.

Lemma plain_json_ok v : plain_json v → printable v = true → json_ok any_char v = true.
Proof.
  induction v as [|b|n|t|s|l IH|d IH] using json_nested_ind; cbn [plain_json printable json_ok]; try done.
  - intros _ _. apply any_char_all.
  - rewrite foldr_and. intros Hp Hv. rewrite List.forallb_forall in *. setoid_rewrite <- list_elem_of_In.
    setoid_rewrite <- list_elem_of_In in Hv. rewrite Forall_forall in *. auto.
  - rewrite foldr_and. intros [Hnd Hp] Hv. rewrite bool_decide_true by done. cbn.
    rewrite List.forallb_forall in *. setoid_rewrite <- list_elem_of_In in Hv.
    rewrite Forall_forall in *. intros [k v] Hkv%list_elem_of_In. rewrite any_char_all. cbn.
    apply (IH (k, v) Hkv); [apply (Hp (k, v) Hkv)|apply (Hv (k, v) Hkv)].
Qed.

(** ** Verified payload texts *)

Lemma envelope_sorted v : sort_json (envelope v) = envelope (sort_json v).
Proof. reflexivity. Qed.

Lemma envelope_plain v : plain_json v → plain_json (envelope v).
Proof.
  intros Hv. cbn. split; [|done]. unfold dict_keys. cbn.
  apply NoDup_cons. split; [by intros ?%list_elem_of_singleton|apply NoDup_singleton].
Qed.

Lemma json_dumps_Ok v t : json_dumps v = Ok t ↔ printable v = true ∧ t = of_chars (json_chars_with escape_min v).
Proof. unfold json_dumps. destruct (printable v); split; [intros [= <-]|intros [_ ->]|done|]; by try intros []. Qed.

Lemma loads_dumped v t : plain_json v → json_dumps v = Ok t → json_loads t = Ok (sort_json v).
Proof.
  intros Hv [Hp ->]%json_dumps_Ok. apply loads_canonical with any_char; [auto using escape_min_undoes|].
  by apply plain_json_ok.
Qed.

Lemma dumped_verifies v t label :
  plain_json v → json_dumps (envelope v) = Ok t → verified_canonical_bytes t label = Ok t.
Proof.
  intros Hv Ht. unfold verified_canonical_bytes.
  rewrite (loads_dumped _ _ (envelope_plain v Hv) Ht). cbn [catch mbind result_bind].
  rewrite json_dumps_sort, Ht. cbn [mbind result_bind]. rewrite String.eqb_refl. reflexivity.
Qed.

Lemma verified_Ok t label t' :
  verified_canonical_bytes t label = Ok t' →
  t' = t ∧ ∃ v, json_loads t = Ok v ∧ json_dumps v = Ok t.
Proof.
  unfold verified_canonical_bytes. intros (v&Hv&Hd)%bind_Ok. apply bind_Ok in Hd as (c&Hd&Hc).
  destruct (String.eqb_spec c t) as [->|]; [|done]. cbn [negb] in Hc.
  destruct (is_envelope v); [|done]. injection Hc as [= <-]. split; [done|]. exists v. split; [|done].
  destruct (json_loads t) as [w|e]; cbn in Hv; [done|]. by destruct (exn_isinstance _ _).
Qed.

(** A dumped text determines its value up to the order of members. *)
Lemma dumps_inj v w t :
  plain_json v → plain_json w → json_dumps v = Ok t → json_dumps w = Ok t → sort_json v = sort_json w.
Proof.
  intros Hv Hw H1 H2. apply loads_dumped in H1; [|done]. apply loads_dumped in H2; [|done].
  rewrite H1 in H2. by injection H2.
Qed.

(** ** Normalised values *)

Fixpoint payload_nested_ind (P : payload → Prop)
    (Hnone : P PNone) (Hbool : ∀ b, P (PBool b)) (Hstr : ∀ s, P (PStr s)) (Hdec : ∀ d, P (PDec d))
    (Hfloat : ∀ f, P (PFloat f)) (Hint : ∀ n, P (PInt n)) (Htime : ∀ t, P (PDatetime t))
    (Hdate : ∀ d, P (PDate d)) (Hmap : ∀ d, Forall (λ kv, P kv.2) d → P (PMap d))
    (Hlist : ∀ l, Forall P l → P (PList l)) (Hother : P POther) (v : payload) : P v :=
  let rec := payload_nested_ind P Hnone Hbool Hstr Hdec Hfloat Hint Htime Hdate Hmap Hlist Hother in
  match v with
  | PNone => Hnone
  | PBool b => Hbool b
  | PStr s => Hstr s
  | PDec d => Hdec d
  | PFloat f => Hfloat f
  | PInt n => Hint n
  | PDatetime t => Htime t
  | PDate d => Hdate d
  | PMap d => Hmap d
      (list_ind (Forall (λ kv, P kv.2)) (List.Forall_nil _)
         (λ x k H, List.Forall_cons (λ kv, P kv.2) x k (rec x.2) H) d)
  | PList l => Hlist l (list_ind (Forall P) (List.Forall_nil P) (λ x k H, List.Forall_cons P x k (rec x) H) l)
  | POther => Hother
  end.

Lemma digits_ascii l : Forall (λ d, digit d) l → forallb is_ascii (digit_char <$> l) = true.
Proof.
  induction 1 as [|y l Hy _ IH]; [done|]. rewrite fmap_cons. cbn [forallb]. rewrite IH, andb_true_r.
  assert (y = 0 ∨ y = 1 ∨ y = 2 ∨ y = 3 ∨ y = 4 ∨ y = 5 ∨ y = 6 ∨ y = 7 ∨ y = 8 ∨ y = 9) as Hc by lia.
  destruct_or! Hc; by subst y.
Qed.

Lemma int_chars_ascii n : forallb is_ascii (int_chars n) = true.
Proof.
  unfold int_chars, coef_chars. destruct (Z.ltb_spec n 0).
  - cbn [forallb]. apply digits_ascii. by destruct (digits_of_spec (- n)) as (_&?&_); [lia|].
  - apply digits_ascii. by destruct (digits_of_spec n) as (_&?&_); [lia|].
Qed.

Lemma pad_left_ascii n l : forallb is_ascii l = true → forallb is_ascii (pad_left n l) = true.
Proof.
  intros Hl. unfold pad_left. rewrite List.forallb_app, Hl, andb_true_r.
  generalize (n - length l)%nat as k. induction k; cbn; auto.
Qed.

#[local] Hint Resolve int_chars_ascii pad_left_ascii : core.

Lemma date_isoformat_ascii d : forallb is_ascii (chars (date_isoformat d)) = true.
Proof.
  unfold date_isoformat. rewrite chars_of_chars.
  repeat (rewrite List.forallb_app || (rewrite pad_left_ascii by apply int_chars_ascii) || cbn [forallb]).
  done.
Qed.

Lemma utc_isoformat_ascii t : forallb is_ascii (chars (utc_isoformat t)) = true.
Proof.
  unfold utc_isoformat. rewrite chars_of_chars.
  repeat (rewrite List.forallb_app || rewrite date_isoformat_ascii || (rewrite pad_left_ascii by apply int_chars_ascii) ||
          cbn [forallb]). done.
Qed.

Lemma canonical_decimal_ascii d s :
  canonical_decimal_str (VDec (DFin d)) = Ok s → forallb is_ascii (chars s) = true.
Proof.
  cbn [canonical_decimal_str]. unfold canonical_decimal_chars. cbv zeta.
  destruct (forallb _ _) eqn:Ez; [by intros [= <-]|].
  set (ds := take _ _). set (e := fexp d + _). destruct (_ <? _); cbn [fmap result_fmap]; [done|]. intros [= <-].
  rewrite chars_of_chars. destruct (digits_of_spec (zcoef d)) as (_&Hd&_); [apply zcoef_nonneg|].
  assert (Hne : ds ≠ []).
  { rewrite all_zero_digits in Ez by apply zcoef_nonneg. pose proof (zcoef_nonneg d).
    destruct (stripped_digits (zcoef d)) as (_&_&(y&k&Hy&_)&_); [lia|]. unfold ds. by rewrite Hy. }
  destruct (plain_chars_shape (fsign d) ds e) as (int&frac&dot&->&Hi&Hf&_); [by apply Forall_take|done|].
  rewrite !List.forallb_app, digits_ascii by done. destruct (fsign d), dot; cbn [forallb app]; by rewrite ?digits_ascii by done.
Qed.

(** Literal keys are ASCII. *)
Ltac literal_keys :=
  repeat (apply List.Forall_cons; [apply nfc_ascii; reflexivity|]); apply List.Forall_nil.

Section Normal.
Context (nfc : string → string) `{Hnfc : !UnicodeNormalizer nfc}.

(** Values normalisation leaves alone. *)
Fixpoint settled (v : json) : Prop :=
  match v with
  | JNum _ => False
  | JStr s => nfc s = s
  | JList l => foldr (λ v P, settled v ∧ P) True l
  | JDict d => NoDup (dict_keys d) ∧ foldr (λ kv P, (nfc kv.1 = kv.1 ∧ settled kv.2) ∧ P) True d
  | _ => True
  end.

Lemma settled_plain v : settled v → plain_json v.
Proof using Type.
  induction v as [|b|n|t|s|l IH|d IH] using json_nested_ind; cbn [settled plain_json]; try done.
  - rewrite !foldr_and, !Forall_forall in *. auto.
  - rewrite !foldr_and, !Forall_forall in *. intros [Hnd Hd]. split; [done|]. intros kv Hkv. apply IH; [done|]. by apply Hd.
Qed.

Lemma settled_dict d :
  settled (JDict d) ↔ NoDup (dict_keys d) ∧ Forall (λ kv, nfc kv.1 = kv.1 ∧ settled kv.2) d.
Proof using Type. cbn. by rewrite foldr_and. Qed.

Lemma settled_sort v : settled v → settled (sort_json v).
Proof using Type.
  induction v as [|b|n|t|s|l IH|d IH] using json_nested_ind; try done.
  - cbn [settled sort_json]. rewrite !foldr_and. intros Hl. apply List.Forall_map.
    rewrite List.Forall_forall in *. auto.
  - cbn [sort_json]. rewrite sort_dict_comm, !settled_dict. intros [Hnd Hd].
    assert (Hp : sort_dict d ≡ₚ d) by apply isort_perm. split.
    + rewrite dict_keys_map. unfold dict_keys. by rewrite Hp.
    + apply List.Forall_map. rewrite <- Hp in Hd. rewrite Forall_forall in IH.
      rewrite List.Forall_forall in *. intros [k v] Hkv. destruct (Hd _ Hkv) as [H1 H2]. split; [done|].
      rewrite <- list_elem_of_In, Hp in Hkv. by apply (IH _ Hkv).
Qed.

(** A dictionary whose keys are settled is normalised member by member. *)
Lemma normalize_record d js :
  Forall (λ kv, nfc kv.1 = kv.1) d → NoDup d.*1 →
  Forall2 (λ kv j, normalize nfc kv.2 = Ok j) d js →
  normalize nfc (record d) = Ok (JDict (zip d.*1 js)).
Proof using Type.
  intros Hk Hnd Hjs. unfold record. cbn [normalize].
  set (f := λ (result : pydict json) '(raw_key, raw_value), _).
  assert (Hgen : ∀ acc, NoDup (dict_keys acc ++ d.*1) →
    foldM f acc ((λ kv, (KStr kv.1, kv.2)) <$> d) = Ok (acc ++ zip d.*1 js)).
  { clear Hnd. induction Hjs as [|[k v] j d js Hv _ IH]; intros acc Hacc;
      rewrite ?fmap_cons in *; cbn [foldM zip zip_with].
    - by rewrite app_nil_r.
    - apply Forall_cons in Hk as [Hk1 Hk]. cbn [fst snd] in *.
      assert (Hf : f acc (KStr k, v) =
        if dict_mem (nfc k) acc then raise CanonicalSerializationError "duplicate keys"
        else value ← normalize nfc v; Ok (dict_set (nfc k) value acc)) by reflexivity.
      rewrite Hf, Hk1.
      assert (Hnew : k ∉ dict_keys acc).
      { apply NoDup_app in Hacc as (_&Hdis&_). intros Hin. apply (Hdis k Hin). by left. }
      destruct (dict_mem k acc) eqn:E; [by apply dict_mem_true in E|]. rewrite Hv.
      cbn [mbind result_bind]. rewrite dict_set_keys_new by done.
      rewrite IH; [by rewrite <- app_assoc|done|]. unfold dict_keys. rewrite fmap_app, <- app_assoc. done. }
  rewrite (Hgen []); [done|done].
Qed.

Lemma settled_str_ascii s : forallb is_ascii (chars s) = true → settled (JStr s).
Proof using Hnfc. apply nfc_ascii. Qed.

Lemma normalize_settled v j : normalize nfc v = Ok j → settled j.
Proof using Hnfc.
  assert (Hone : ∀ key t, forallb is_ascii (chars key) = true → forallb is_ascii (chars t) = true →
    settled (JDict [(key, JStr t)])).
  { intros key t Hk Ht. apply settled_dict. cbn. split; [apply NoDup_singleton|].
    repeat constructor; cbn; by apply nfc_ascii. }
  revert j; induction v as [|b|s|[d| |]|f|n|t|d|d IH|l IH|] using payload_nested_ind; intros j; cbn [normalize];
    try by intros [= <-].
  - intros [= <-]. apply nfc_idem.
  - intros (t&Ht&[= <-])%bind_Ok. apply canonical_decimal_ascii in Ht. by apply Hone.
  - destruct (utcoffset t) as [o|]; [|done]. intros (u&_&[= <-])%bind_Ok.
    apply Hone; [done|apply utc_isoformat_ascii].
  - intros [= <-]. apply Hone; [done|apply date_isoformat_ascii].
  - destruct (foldM _ [] d) as [acc|] eqn:E; [|done]. intros [= <-]. rewrite settled_dict.
    revert E. apply (foldM_inv (λ acc, NoDup (dict_keys acc) ∧ Forall (λ kv, nfc kv.1 = kv.1 ∧ settled kv.2) acc)).
    { split; constructor. }
    intros acc1 [[k|] x] acc2 [Hnd Hall] Hx; [|done]. destruct (dict_mem (nfc k) acc1) eqn:Em; [done|].
    intros (y&Hy&[= <-])%bind_Ok. assert (Hk : nfc k ∉ dict_keys acc1).
    { intros Hin. apply dict_mem_true in Hin. congruence. }
    rewrite dict_set_keys_new by done. unfold dict_keys. rewrite fmap_app. split.
    + apply NoDup_app. split_and!; [done| |apply NoDup_singleton]. intros z Hz Hz'.
      apply list_elem_of_singleton in Hz'. by subst z.
    + apply Forall_app; split; [done|]. repeat constructor; cbn; [apply nfc_idem|].
      rewrite Forall_forall in IH. by apply (IH _ Hx).
  - destruct (mapM _ l) as [js|] eqn:E; [|done]. intros [= <-]. apply mapM_Ok in E.
    cbn. apply foldr_and. induction E as [|x y l k Hxy _ IHl]; [constructor|].
    apply Forall_cons in IH as [IH1 IH2]. constructor; [by apply IH1|by apply IHl].
Qed.

Lemma normalize_fixed j : settled j → normalize nfc (payload_of_json j) = Ok j.
Proof using Type.
  induction j as [|b|n|t|s|l IH|d IH] using json_nested_ind; try done.
  - intros Hs. cbn in *. by rewrite Hs.
  - cbn [settled payload_of_json normalize]. rewrite foldr_and. intros Hl.
    enough (mapM (normalize nfc) (map payload_of_json l) = Ok l) as -> by done.
    apply mapM_Ok. induction l as [|x l IHl]; cbn; [constructor|].
    apply Forall_cons in IH as [H1 H2]. apply Forall_cons in Hl as [H3 H4]. constructor; auto.
  - rewrite settled_dict. intros [Hnd Hd]. cbn [payload_of_json].
    change (PMap _) with (PMap (map (λ '(k, v), (KStr k, payload_of_json v)) d)).
    assert (Hrec : PMap (map (λ '(k, v), (KStr k, payload_of_json v)) d) =
                   record (map (λ '(k, v), (k, payload_of_json v)) d)).
    { unfold record. f_equal. clear. induction d as [|[k v] d IH]; cbn; [done|]. by f_equal. }
    assert (Hk : (map (λ '(k, v), (k, payload_of_json v)) d).*1 = d.*1).
    { clear. induction d as [|[k v] d IH]; cbn; [done|]. by f_equal. }
    rewrite Hrec, (normalize_record _ d.*2).
    + rewrite Hk. do 2 f_equal. clear. induction d as [|[k v] d IH]; cbn; [done|]. by f_equal.
    + apply List.Forall_map. rewrite Forall_forall in Hd. apply List.Forall_forall. intros [k v] Hkv.
      apply list_elem_of_In, Hd in Hkv. by destruct Hkv.
    + by rewrite Hk.
    + clear Hnd Hk Hrec. induction d as [|[k v] d IHd]; cbn; [constructor|].
      apply Forall_cons in IH as [H1 H2]. apply Forall_cons in Hd as [[_ H3] H4]. constructor; auto.
Qed.

(** Canonical bytes come from a settled value. *)
Lemma canonical_bytes_Ok v t :
  canonical_json_bytes nfc v = Ok t →
  ∃ j, normalize nfc v = Ok j ∧ settled j ∧ json_dumps (envelope j) = Ok t.
Proof using Hnfc.
  unfold canonical_json_bytes. intros (j&Hj&Ht)%bind_Ok. exists j. split_and!; [done| |done].
  by eapply normalize_settled.
Qed.

Lemma canonical_bytes_verify v t label :
  canonical_json_bytes nfc v = Ok t → verified_canonical_bytes t label = Ok t.
Proof using Hnfc.
  intros (j&_&Hj&Ht)%canonical_bytes_Ok. by eapply dumped_verifies, Ht; apply settled_plain.
Qed.

Lemma canonical_bytes_loads v t :
  canonical_json_bytes nfc v = Ok t →
  ∃ j, normalize nfc v = Ok j ∧ settled j ∧ json_loads t = Ok (envelope (sort_json j)) ∧
       printable j = true.
Proof using Hnfc.
  intros (j&Hn&Hj&Ht)%canonical_bytes_Ok. exists j. split_and!; [done..| |].
  - rewrite <- envelope_sorted. by eapply loads_dumped, Ht; apply envelope_plain, settled_plain.
  - apply json_dumps_Ok in Ht as [Hp _]. cbn in Hp. by rewrite !andb_true_r in Hp.
Qed.

Lemma envelope_settled j : settled j → settled (envelope j).
Proof using Hnfc.
  intros Hj. apply settled_dict. split; [apply (envelope_plain JNull I)|].
  repeat constructor; cbn; try done; by apply nfc_ascii.
Qed.

(** ** Hashes *)

Definition binding_json (rules : json) (algorithm money currency : string) : json :=
  JDict [("rules_payload", rules); ("algorithm_version", JStr (nfc algorithm));
         ("money_contract_version", JStr (nfc money)); ("currency_contract_version", JStr (nfc currency))].

Lemma normalize_binding rules normal algorithm money currency :
  normalize nfc (payload_of_json rules) = Ok normal →
  normalize nfc (rules_binding rules algorithm money currency) =
    Ok (binding_json normal algorithm money currency).
Proof using Hnfc.
  intros Hr. unfold rules_binding.
  etransitivity; [apply (normalize_record _ [normal; JStr (nfc algorithm); JStr (nfc money); JStr (nfc currency)])|reflexivity].
  - literal_keys.
  - eapply bool_decide_eq_true_1. by vm_compute.
  - by repeat constructor.
Qed.

Definition opt_json_str (o : option string) : json := opt_json (λ s, JStr (nfc s)) o.

Definition combined_values (s : AuthoritativeCalculationSnapshot) (ih oh rh : string) : list json :=
  [JStr (nfc (snapshot_schema_version s)); JStr (nfc (calculation_type s));
   JStr (nfc (aggregate_public_id s)); JStr (nfc ih); JStr (nfc oh); JStr (nfc rh);
   JStr (nfc (money_contract_version s)); JStr (nfc (currency_contract_version s));
   JStr (nfc (algorithm_version s)); JList (JStr <$> (nfc <$> source_references s));
   opt_json_str (previous_snapshot_public_id s); JStr (nfc (actor_type s));
   opt_json_str (actor_public_id s); opt_json_str (authorization_reference s);
   JStr (nfc (finalization_status s))].

Definition combined_keys : list string :=
  ["snapshot_schema_version"; "calculation_type"; "aggregate_public_id"; "input_hash"; "output_hash";
   "rules_hash"; "money_contract_version"; "currency_contract_version"; "algorithm_version";
   "source_references"; "previous_snapshot_public_id"; "actor_type"; "actor_public_id";
   "authorization_reference"; "finalization_status"].

Definition combined_json s ih oh rh : json := JDict (zip combined_keys (combined_values s ih oh rh)).

Lemma normalize_combined s ih oh rh :
  normalize nfc (combined_material s ih oh rh) = Ok (combined_json s ih oh rh).
Proof using Hnfc.
  assert (Ho : ∀ o, normalize nfc (opt_str o) = Ok (opt_json_str o)) by by intros [].
  unfold combined_material.
  etransitivity; [apply (normalize_record _ (combined_values s ih oh rh))|reflexivity].
  - literal_keys.
  - eapply bool_decide_eq_true_1. by vm_compute.
  - repeat (apply List.Forall2_cons; [first [reflexivity|apply Ho|idtac]|]); [|apply List.Forall2_nil].
    cbn [normalize snd]. enough (mapM (normalize nfc) (PStr <$> source_references s) =
      Ok (JStr <$> (nfc <$> source_references s))) as -> by done.
    apply mapM_Ok. induction (source_references s); cbn; constructor; auto.
Qed.

Definition hash_text (domain : string) (v : json) : string :=
  snapshot_domain_hash domain (of_chars (json_chars_with escape_min (envelope v))).

Lemma combined_printable s ih oh rh : printable (envelope (combined_json s ih oh rh)) = true.
Proof using Type.
  assert (Ho : ∀ o, printable (opt_json_str o) = true) by by intros [].
  assert (Hl : ∀ l, forallb printable (JStr <$> l) = true) by (intros l; induction l; cbn; auto).
  unfold combined_json, combined_values, combined_keys. cbn [zip zip_with envelope printable forallb snd].
  by rewrite !Ho, Hl.
Qed.

Lemma combined_hash_Ok s ih oh rh :
  combined_hash nfc s ih oh rh = Ok (hash_text "finance-combined-snapshot-v1" (combined_json s ih oh rh)).
Proof using Hnfc.
  unfold combined_hash, combined_bytes, canonical_json_bytes. rewrite normalize_combined. cbn [mbind result_bind].
  unfold json_dumps. by rewrite combined_printable.
Qed.

Lemma rules_hash_Ok t v algorithm money currency :
  json_loads t = Ok v → settled v → printable v = true →
  rules_binding_hash nfc t algorithm money currency =
    Ok (hash_text "finance-snapshot-rules-v1" (binding_json v algorithm money currency)).
Proof using Hnfc.
  intros Ht Hv Hp. unfold rules_binding_hash, rules_binding_bytes, canonical_json_bytes. rewrite Ht. cbn [mbind result_bind].
  rewrite (normalize_binding v v) by by apply normalize_fixed. cbn [mbind result_bind]. unfold json_dumps.
  replace (printable (envelope (binding_json v algorithm money currency))) with true; [done|].
  cbn. by rewrite Hp.
Qed.

(** The rules hash of canonical text. *)
Lemma rules_hash_canonical p t algorithm money currency :
  canonical_json_bytes nfc p = Ok t →
  ∃ v, json_loads t = Ok v ∧ settled v ∧
    rules_binding_hash nfc t algorithm money currency =
      Ok (hash_text "finance-snapshot-rules-v1" (binding_json v algorithm money currency)).
Proof using Hnfc.
  intros (j&_&Hj&Hl&Hp)%canonical_bytes_loads. exists (envelope (sort_json j)).
  assert (Hs : settled (envelope (sort_json j))) by by apply envelope_settled, settled_sort.
  split_and!; [done..|]. apply rules_hash_Ok; [done..|]. cbn. by rewrite printable_sort, Hp.
Qed.

(** ** Building *)

Lemma canonical_value p t label :
  canonical_json_bytes nfc p = Ok t →
  ∃ j, normalize nfc p = Ok j ∧ canonical_json_value t label = Ok (sort_json j).
Proof using Hnfc.
  intros Ht. destruct (canonical_bytes_loads _ _ Ht) as (j&Hn&_&Hl&_). exists j. split; [done|].
  unfold canonical_json_value. rewrite (canonical_bytes_verify _ _ label Ht). cbn [mbind result_bind].
  rewrite Hl. reflexivity.
Qed.

Lemma build_verifies r refs i o u :
  canonical_references nfc (rq_source_references r) = Ok refs →
  canonical_json_bytes nfc (rq_input_payload r) = Ok i →
  canonical_json_bytes nfc (rq_output_payload r) = Ok o →
  canonical_json_bytes nfc (rq_rules_payload r) = Ok u →
  str_in (rq_schema_version r) SUPPORTED_SNAPSHOT_SCHEMA_VERSIONS = true →
  validate_required_fields nfc (provisional r refs i o u "" "" "" "") = Ok tt →
  ∃ s, build_authoritative_snapshot nfc r = Ok s ∧ verify nfc s = Ok tt ∧
    input_payload_json s = i ∧ output_payload_json s = o ∧ rules_payload_json s = u.
Proof using Hnfc.
  intros Href Hi Ho Hu Hschema Hfields.
  destruct (rules_hash_canonical _ _ (rq_algorithm r) (rq_money r) (rq_currency r) Hu) as (v&_&_&Hrh).
  set (ih := snapshot_domain_hash "finance-snapshot-input-v1" i).
  set (oh := snapshot_domain_hash "finance-snapshot-output-v1" o).
  set (rh := hash_text "finance-snapshot-rules-v1" _) in *.
  set (ch := hash_text "finance-combined-snapshot-v1" (combined_json (provisional r refs i o u ih oh rh "") ih oh rh)).
  set (s := provisional r refs i o u ih oh rh ch).
  assert (Hv : verify nfc s = Ok tt).
  { unfold verify. subst s. cbn [snapshot_schema_version provisional]. rewrite Hschema. cbn [negb raise_when mbind result_bind].
    change (validate_required_fields nfc (provisional r refs i o u ih oh rh ch))
      with (validate_required_fields nfc (provisional r refs i o u "" "" "" "")).
    rewrite Hfields. cbn [mbind result_bind provisional input_payload_json output_payload_json rules_payload_json].
    rewrite (canonical_bytes_verify _ _ _ Hi), (canonical_bytes_verify _ _ _ Ho), (canonical_bytes_verify _ _ _ Hu).
    cbn [mbind result_bind provisional algorithm_version money_contract_version currency_contract_version]. rewrite Hrh.
    cbn [mbind result_bind]. fold ih oh. rewrite combined_hash_Ok. cbn [mbind result_bind].
    apply raise_when_Ok. apply negb_false_iff, bool_decide_eq_true. reflexivity. }
  exists s. split_and!; [|done..]. unfold build_authoritative_snapshot.
  rewrite Href, Hi, Ho, Hu. cbn [mbind result_bind]. rewrite Hrh. cbn [mbind result_bind]. fold ih oh.
  rewrite combined_hash_Ok. cbn [mbind result_bind]. change (provisional r refs i o u ih oh rh (hash_text _ _)) with s.
  by rewrite Hv.
Qed.

(** ** What a verified snapshot says *)

Lemma verify_facts s :
  verify nfc s = Ok tt →
  input_hash s = snapshot_domain_hash "finance-snapshot-input-v1" (input_payload_json s) ∧
  output_hash s = snapshot_domain_hash "finance-snapshot-output-v1" (output_payload_json s) ∧
  rules_binding_hash nfc (rules_payload_json s) (algorithm_version s) (money_contract_version s)
    (currency_contract_version s) = Ok (rules_hash s) ∧
  combined_hash nfc s (input_hash s) (output_hash s) (rules_hash s) = Ok (combined_snapshot_hash s).
Proof using Type.
  unfold verify. intros (u1&_&H)%bind_Ok. apply bind_Ok in H as (u2&_&H).
  apply bind_Ok in H as (i&[-> _]%verified_Ok&H). apply bind_Ok in H as (o&[-> _]%verified_Ok&H).
  apply bind_Ok in H as (r&[-> _]%verified_Ok&H). apply bind_Ok in H as (rh&Hrh&H).
  apply bind_Ok in H as (ch&Hch&H). apply raise_when_Ok, negb_false_iff, bool_decide_eq_true in H.
  injection H as H1 H2 H3 H4. rewrite H1, H2, H3, H4. done.
Qed.

(** The normal form of the rules a snapshot was computed under. *)
Definition normal_rules (s : AuthoritativeCalculationSnapshot) : option json :=
  match json_loads (rules_payload_json s) with
  | Ok v => match normalize nfc (payload_of_json v) with Ok j => Some (sort_json j) | Raise _ => None end
  | Raise _ => None
  end.

(** The messages whose digests a snapshot carries. *)
Definition snapshot_messages (s : AuthoritativeCalculationSnapshot) : list (list Z) :=
  [hashed_bytes "finance-snapshot-input-v1" (input_payload_json s);
   hashed_bytes "finance-snapshot-output-v1" (output_payload_json s)] ++
  match rules_binding_bytes nfc (rules_payload_json s) (algorithm_version s) (money_contract_version s)
          (currency_contract_version s) with
  | Ok t => [hashed_bytes "finance-snapshot-rules-v1" t] | Raise _ => [] end ++
  match combined_bytes nfc s (input_hash s) (output_hash s) (rules_hash s) with
  | Ok t => [hashed_bytes "finance-combined-snapshot-v1" t] | Raise _ => [] end.

(** SHA-256 tells corresponding messages apart. *)
Definition collision_free (s s' : AuthoritativeCalculationSnapshot) : Prop :=
  Forall2 (λ m m', sha256 m = sha256 m' → m = m') (snapshot_messages s) (snapshot_messages s').

Lemma encode_inj s t : encode s = encode t → s = t.
Proof using Type.
  intros H. rewrite <- (of_chars_chars s), <- (of_chars_chars t). f_equal.
  apply (f_equal (fmap byte_char)) in H. unfold encode in H. rewrite <- !list_fmap_compose in H.
  assert (Hid : ∀ l : list Ascii.ascii, byte_char ∘ ascii_code <$> l = l).
  { intros l. induction l as [|c l IH]; [done|]. rewrite fmap_cons, IH. cbn. by rewrite byte_char_code. }
  by rewrite !Hid in H.
Qed.

Lemma hashed_bytes_inj domain t t' : hashed_bytes domain t = hashed_bytes domain t' → t = t'.
Proof using Type. intros H%app_inv_head. injection H as H. by apply encode_inj. Qed.

(** Digests are told apart by their hexadecimal texts. *)
Lemma hex_digit_inj a b : 0 <= a < 16 → 0 <= b < 16 → hex_digit a = hex_digit b → a = b.
Proof using Type.
  intros Ha Hb. assert (Hc : Forall (λ a, Forall (λ b, hex_digit a = hex_digit b → a = b) (seqZ 0 16)) (seqZ 0 16)).
  { repeat constructor; by intros. }
  rewrite Forall_forall in Hc. specialize (Hc a). rewrite Forall_forall in Hc. apply Hc; apply elem_of_seqZ; lia.
Qed.

Lemma hexdigest_inj l k : Forall byte l → Forall byte k → hexdigest l = hexdigest k → l = k.
Proof using Type.
  intros Hl Hk H. apply (f_equal chars) in H. unfold hexdigest in H. rewrite !chars_of_chars in H.
  revert k Hk H. induction Hl as [|a l Ha _ IH]; intros k Hk H; destruct Hk as [|b k Hb Hk]; [done..|].
  unfold byte in *. cbn in H. injection H as H1 H2 H.
  apply hex_digit_inj in H1; [|Z.to_euclidean_division_equations; lia..].
  apply hex_digit_inj in H2; [|Z.to_euclidean_division_equations; lia..].
  f_equal; [Z.to_euclidean_division_equations; lia|by apply IH].
Qed.

Lemma same_digest domain t t' :
  (sha256 (hashed_bytes domain t) = sha256 (hashed_bytes domain t') →
   hashed_bytes domain t = hashed_bytes domain t') →
  snapshot_domain_hash domain t = snapshot_domain_hash domain t' → t = t'.
Proof using Type.
  intros Hcf H. apply (hashed_bytes_inj domain), Hcf.
  apply hexdigest_inj in H; [done|apply sha256_shape..].
Qed.

Definition bound_texts (s : AuthoritativeCalculationSnapshot) : list string :=
  nfc <$> [snapshot_schema_version s; calculation_type s; aggregate_public_id s; money_contract_version s;
           currency_contract_version s; algorithm_version s; actor_type s; finalization_status s].
Definition bound_options (s : AuthoritativeCalculationSnapshot) : list (option string) :=
  fmap (M:=option) nfc <$> [previous_snapshot_public_id s; actor_public_id s; authorization_reference s].

Lemma digest_fixed domain t : nfc (snapshot_domain_hash domain t) = snapshot_domain_hash domain t.
Proof using Hnfc.
  apply nfc_ascii. unfold snapshot_domain_hash.
  pose proof (sha256_is_sha256 (hashed_bytes domain t)) as [_ H]%andb_prop.
  apply List.forallb_forall. rewrite List.forallb_forall in H. intros c Hc%H.
  by destruct c as [[] [] [] [] [] [] [] []].
Qed.

Lemma bind_hash_Ok (m : result string) domain h :
  (t ← m; Ok (snapshot_domain_hash domain t)) = Ok h → ∃ t, m = Ok t ∧ h = snapshot_domain_hash domain t.
Proof using Type. intros (t&Ht&[= <-])%bind_Ok. by exists t. Qed.

Lemma opt_json_inj o o' : opt_json_str o = opt_json_str o' → nfc <$> o = nfc <$> o'.
Proof using Type. destruct o, o'; cbn; congruence. Qed.

Lemma strs_inj (l k : list string) : map sort_json (JStr <$> l) = map sort_json (JStr <$> k) → l = k.
Proof using Type. revert k; induction l as [|x l IH]; intros [|y k]; cbn; try done. intros [= -> H]. f_equal. auto. Qed.

(** The normalised material of the combined hash. *)
Lemma combined_settled s ih oh rh : settled (combined_json s ih oh rh).
Proof using Hnfc. eapply normalize_settled, normalize_combined. Qed.

Lemma combined_json_inj s s' ih oh rh ih' oh' rh' :
  sort_json (combined_json s ih oh rh) = sort_json (combined_json s' ih' oh' rh') →
  bound_texts s = bound_texts s' ∧ bound_options s = bound_options s' ∧
  nfc <$> source_references s = nfc <$> source_references s' ∧ nfc ih = nfc ih' ∧ nfc oh = nfc oh' ∧ nfc rh = nfc rh'.
Proof using Type.
  assert (Ho : ∀ o, sort_json (opt_json_str o) = opt_json_str o) by by intros [].
  unfold combined_json, combined_values, combined_keys. cbn [zip zip_with sort_json map].
  rewrite !Ho. intros H. cbn in H. injection H as H1 H2 H3 H4 H5 H6 H7 H8 H9 H10 H11 H12 H13 H14 H15.
  apply opt_json_inj in H1, H5, H12. apply strs_inj in H15.
  unfold bound_texts, bound_options. cbn. split_and!; congruence.
Qed.

Lemma sort_envelope_inj v w : sort_json (envelope v) = sort_json (envelope w) → sort_json v = sort_json w.
Proof using Type. rewrite !envelope_sorted. by intros [=]. Qed.

Lemma bound_by_combined s s' t :
  combined_bytes nfc s (input_hash s) (output_hash s) (rules_hash s) = Ok t →
  combined_bytes nfc s' (input_hash s') (output_hash s') (rules_hash s') = Ok t →
  sort_json (combined_json s (input_hash s) (output_hash s) (rules_hash s)) =
  sort_json (combined_json s' (input_hash s') (output_hash s') (rules_hash s')).
Proof using Hnfc.
  unfold combined_bytes, canonical_json_bytes. rewrite !normalize_combined. cbn [mbind result_bind].
  intros H1 H2. apply sort_envelope_inj. eapply dumps_inj; [..|exact H1|exact H2];
    apply envelope_plain, settled_plain, combined_settled.
Qed.

Lemma bound_rules s s' t :
  rules_binding_bytes nfc (rules_payload_json s) (algorithm_version s) (money_contract_version s)
    (currency_contract_version s) = Ok t →
  rules_binding_bytes nfc (rules_payload_json s') (algorithm_version s') (money_contract_version s')
    (currency_contract_version s') = Ok t →
  normal_rules s = normal_rules s' ∧ is_Some (normal_rules s).
Proof using Hnfc.
  assert (Hr : ∀ s, rules_binding_bytes nfc (rules_payload_json s) (algorithm_version s) (money_contract_version s)
                      (currency_contract_version s) = Ok t →
    ∃ v j, json_loads (rules_payload_json s) = Ok v ∧ normalize nfc (payload_of_json v) = Ok j ∧ settled j ∧
      json_dumps (envelope (binding_json j (algorithm_version s) (money_contract_version s)
        (currency_contract_version s))) = Ok t ∧
      settled (binding_json j (algorithm_version s) (money_contract_version s) (currency_contract_version s))).
  { clear s s'. intros s (v&Hv&H)%bind_Ok. unfold canonical_json_bytes in H.
    destruct (normalize nfc (payload_of_json v)) as [j|e] eqn:Ej.
    - pose proof (normalize_binding v j (algorithm_version s) (money_contract_version s)
        (currency_contract_version s) Ej) as Hn.
      rewrite Hn in H. cbn [mbind result_bind] in H. exists v, j. split_and!; [done..| |done|].
      + by eapply normalize_settled.
      + by eapply normalize_settled.
    - exfalso. revert H. unfold rules_binding, record. rewrite fmap_cons. cbn [normalize foldM fst snd].
      replace (nfc "rules_payload") with "rules_payload" by (symmetry; by apply nfc_ascii).
      cbn [dict_mem dict_get]. rewrite Ej. done. }
  intros (v&j&Hv&Hj&_&Hd&Hset)%Hr (v'&j'&Hv'&Hj'&_&Hd'&Hset')%Hr.
  assert (Hsort : sort_json j = sort_json j').
  { pose proof (dumps_inj _ _ t (envelope_plain _ (settled_plain _ Hset)) (envelope_plain _ (settled_plain _ Hset'))
      Hd Hd') as H. apply sort_envelope_inj in H. cbn in H. by injection H. }
  unfold normal_rules. rewrite Hv, Hv', Hj, Hj', Hsort. split; [done|by eexists].
Qed.

Lemma hash_binds s s' :
  verify nfc s = Ok tt → verify nfc s' = Ok tt → collision_free s s' →
  combined_snapshot_hash s = combined_snapshot_hash s' →
  input_payload_json s = input_payload_json s' ∧ output_payload_json s = output_payload_json s' ∧
  (normal_rules s = normal_rules s' ∧ is_Some (normal_rules s)) ∧
  bound_texts s = bound_texts s' ∧ bound_options s = bound_options s' ∧
  nfc <$> source_references s = nfc <$> source_references s'.
Proof using Hnfc.
  intros (Hi&Ho&Hr&Hc)%verify_facts (Hi'&Ho'&Hr'&Hc')%verify_facts Hcf Heq.
  apply bind_hash_Ok in Hr as (r&Hr&Hrh), Hr' as (r'&Hr'&Hrh'), Hc as (c&Hc&Hch), Hc' as (c'&Hc'&Hch').
  rewrite Hch, Hch' in Heq.
  unfold collision_free, snapshot_messages in Hcf. rewrite Hr, Hr', Hc, Hc' in Hcf. cbn [app] in Hcf.
  apply Forall2_cons in Hcf as [Cf1 Hcf]. apply Forall2_cons in Hcf as [Cf2 Hcf].
  apply Forall2_cons in Hcf as [Cf3 Hcf]. apply Forall2_cons in Hcf as [Cf4 _].
  apply (same_digest _ _ _ Cf4) in Heq as <-.
  pose proof (bound_by_combined s s' c Hc Hc') as Hb. apply combined_json_inj in Hb as (Hb1&Hb2&Hb3&Hb4&Hb5&Hb6).
  rewrite Hi, Hi', !digest_fixed in Hb4. rewrite Ho, Ho', !digest_fixed in Hb5. rewrite Hrh, Hrh', !digest_fixed in Hb6.
  apply (same_digest _ _ _ Cf1) in Hb4. apply (same_digest _ _ _ Cf2) in Hb5. apply (same_digest _ _ _ Cf3) in Hb6 as <-.
  destruct (bound_rules s s' r Hr Hr') as [Hn1 Hn2]. by split_and!.
Qed.
End Normal.

(** A snapshot request whose payloads serialise, whose source references
    are valid and whose required fields pass is always built: the internal
    verification of the freshly computed hashes never fails, the snapshot
    verifies, and its input payload is read back as the normalised input. *)
Theorem build_snapshot_verifies (nfc : string → string) (r : SnapshotRequest) refs i o u
    `{!UnicodeNormalizer nfc}
    (Hrefs : canonical_references nfc (rq_source_references r) = Ok refs)
    (Hi : canonical_json_bytes nfc (rq_input_payload r) = Ok i)
    (Ho : canonical_json_bytes nfc (rq_output_payload r) = Ok o)
    (Hu : canonical_json_bytes nfc (rq_rules_payload r) = Ok u)
    (Hschema : str_in (rq_schema_version r) SUPPORTED_SNAPSHOT_SCHEMA_VERSIONS = true)
    (Hfields : validate_required_fields nfc (provisional r refs i o u "" "" "" "") = Ok tt) :
  ∃ s, build_authoritative_snapshot nfc r = Ok s ∧ verify nfc s = Ok tt ∧
    ∃ j, normalize nfc (rq_input_payload r) = Ok j ∧
         canonical_json_value (input_payload_json s) "input" = Ok (sort_json j).
Proof.
  destruct (build_verifies nfc r refs i o u) as (s&Hs&Hv&His&_); [done..|].
  exists s. split_and!; [done..|]. rewrite His. by apply canonical_value.
Qed.

Definition sample_request : SnapshotRequest :=
  MkRequest "snap-1" "receipt_split" "agg-1" (record [("total", PDec (DFin (mkdec false 1050 (-2)))); ("on", PDate (Date 2024 5 1))])
    (PList [PInt 3; PNone]) (record [("rule", PStr "even")]) "money-v1" "currency-v1" "algo-v1"
    ["ref-b"; "ref-a"] None "system" None (Some "auth-1") "finalized" "2024-05-01T10:00:00Z" "v1".

Definition sample_bytes (v : payload) : string :=
  match canonical_json_bytes id v with Ok t => t | Raise _ => "" end.

Lemma build_snapshot_verifies_witness :
  ∃ s, build_authoritative_snapshot id sample_request = Ok s ∧ verify id s = Ok tt ∧
    ∃ j, normalize id (rq_input_payload sample_request) = Ok j ∧
         canonical_json_value (input_payload_json s) "input" = Ok (sort_json j).
Proof.
  exact (build_snapshot_verifies id sample_request ["ref-a"; "ref-b"]
    (sample_bytes (rq_input_payload sample_request)) (sample_bytes (rq_output_payload sample_request))
    (sample_bytes (rq_rules_payload sample_request)) ltac:(by vm_compute) ltac:(by vm_compute) ltac:(by vm_compute)
    ltac:(by vm_compute) ltac:(by vm_compute) ltac:(by vm_compute)).
Defined.

(** C13: The combined hash binds a verified snapshot: two snapshots that verify
    and carry the same combined hash have the same input and output payloads,
    the same rules up to normalisation, and the same versions, identities,
    references, authorisation and status (up to Unicode normalisation), unless
    SHA-256 gave one digest to two different corresponding messages. *)
Theorem combined_hash_binds (nfc : string → string) (s s' : AuthoritativeCalculationSnapshot)
    `{!UnicodeNormalizer nfc}
    (Hs : verify nfc s = Ok tt) (Hs' : verify nfc s' = Ok tt)
    (Hcollision : collision_free nfc s s')
    (Heq : combined_snapshot_hash s = combined_snapshot_hash s') :
  input_payload_json s = input_payload_json s' ∧ output_payload_json s = output_payload_json s' ∧
  (normal_rules nfc s = normal_rules nfc s' ∧ is_Some (normal_rules nfc s)) ∧
  bound_texts nfc s = bound_texts nfc s' ∧ bound_options nfc s = bound_options nfc s' ∧
  nfc <$> source_references s = nfc <$> source_references s'.
Proof. by apply hash_binds. Qed.

Definition build_sample (public_id : string) : AuthoritativeCalculationSnapshot :=
  match build_authoritative_snapshot id
    (MkRequest public_id "receipt_split" "agg-1" (PInt 1) PNone PNone "money-v1" "currency-v1" "algo-v1"
       ["ref-a"] None "system" None None "draft" "2024-05-01T10:00:00Z" "v1") with
  | Ok s => s
  | Raise _ => MkSnapshot "" "" "" "" "" "" "" "" "" "" "" "" "" "" [] None "" None None "" ""
  end.
Definition sample_a : AuthoritativeCalculationSnapshot := Eval vm_compute in build_sample "a".
Definition sample_b : AuthoritativeCalculationSnapshot := Eval vm_compute in build_sample "b".

Lemma sample_collision_free : collision_free id sample_a sample_b.
Proof.
  unfold collision_free. assert (snapshot_messages id sample_b = snapshot_messages id sample_a) as ->
    by by vm_compute. induction (snapshot_messages id sample_a); constructor; auto.
Qed.

(** The public identifier is not bound: it names the record, not its
    content. *)
Lemma combined_hash_binds_witness :
  input_payload_json sample_a = input_payload_json sample_b ∧
  output_payload_json sample_a = output_payload_json sample_b ∧
  (normal_rules id sample_a = normal_rules id sample_b ∧
   is_Some (normal_rules id sample_a)) ∧
  bound_texts id sample_a = bound_texts id sample_b ∧
  bound_options id sample_a = bound_options id sample_b ∧
  id <$> source_references sample_a = id <$> source_references sample_b.
Proof.
  exact (combined_hash_binds id sample_a sample_b ltac:(by vm_compute) ltac:(by vm_compute)
    sample_collision_free
    ltac:(by vm_compute)).
Defined.
