(* ===== verification/SlotState.v ===== *)
(** * Synthetic slot history
      ([finance_core/synthetic_native_authority/state.py])

    For each of the two kinds of file, JOURNAL and WAL, two slots take turns;
    a generation counter and the phases of the slots record their history.
    The records of the source are dictionaries with fixed fields; here they
    are Records, so the source's tests of field sets and types hold by
    typing, and the remaining tests are modelled. *)

From Stdlib Require Import Ascii ZArith Lia.
From stdpp Require Import base sets strings sorting numbers list.
From S2P Require Import Prelude PyDecimal Hash Json.

Open Scope Z_scope.

Inductive phase := VIRGIN | RESET_INTENT | RESET_DONE | ACTIVE | RETIRED.

#[global] Instance phase_eq_dec : EqDecision phase.
Proof. solve_decision. Defined.

Record slot := Slot { sl_generation : Z; sl_phase : phase }.
Record active_ref := ActiveRef { ac_generation : Z; ac_slot : Z }.
Record pending_ref := PendingRef {
  pe_generation : Z;
  pe_slot : Z;
  pe_phase : phase;
  pe_op_id : string;
}.
Record entry := Entry {
  last_generation : Z;
  last_slot : option Z;
  active : option active_ref;
  pending : option pending_ref;
  slots : list slot;
}.
Record state := State { JOURNAL : entry; WAL : entry }.

#[global] Instance slot_eq_dec : EqDecision slot.
Proof. solve_decision. Defined.
#[global] Instance active_ref_eq_dec : EqDecision active_ref.
Proof. solve_decision. Defined.
#[global] Instance pending_ref_eq_dec : EqDecision pending_ref.
Proof. solve_decision. Defined.
#[global] Instance entry_eq_dec : EqDecision entry.
Proof. solve_decision. Defined.
#[global] Instance state_eq_dec : EqDecision state.
Proof. solve_decision. Defined.

Definition initial_entry : entry := Entry 0 None None None (replicate 2 (Slot 0 VIRGIN)).
Definition initial_state : state := State initial_entry initial_entry.

(** [state[kind]] for a known kind. *)
Definition get_kind (s : state) (kind : string) : option entry :=
  if String.eqb kind "JOURNAL" then Some (JOURNAL s)
  else if String.eqb kind "WAL" then Some (WAL s)
  else None.

Definition set_kind (s : state) (kind : string) (e : entry) : state :=
  if String.eqb kind "JOURNAL" then State e (WAL s) else State (JOURNAL s) e.

(** ** Validation *)

Definition is_slot_index (z : Z) : bool := (z =? 0) || (z =? 1).

(** [entry["slots"][slot]] for a slot index. *)
Definition slot_at (e : entry) (i : Z) : option slot := slots e !! Z.to_nat i.

Definition match_ref (e : entry) (generation slot : Z) (ph : phase) : result unit :=
  raise_when (negb (is_slot_index slot)) StateError "reference type";;
  raise_when (negb (generation =? last_generation e) ||
              negb (bool_decide (slot_at e slot = Some (Slot generation ph))))
    StateError "reference mismatch".

Definition validate_slot (generation : Z) (s : slot) : result unit :=
  raise_when (negb ((0 <=? sl_generation s) && (sl_generation s <=? generation))) StateError
    "slot generation";;
  raise_when (bool_decide (sl_phase s = VIRGIN) && negb (sl_generation s =? 0)) StateError
    "virgin generation".

Definition validate_entry (generation_cap : Z) (e : entry) : result unit :=
  raise_when (negb ((0 <=? last_generation e) && (last_generation e <=? generation_cap)))
    StateError "last generation";;
  raise_when (match last_slot e with Some i => negb (is_slot_index i) | None => false end)
    StateError "last slot";;
  raise_when (negb (length (slots e) =? 2)%nat) StateError "slot set";;
  forM_ (slots e) (validate_slot (last_generation e));;
  raise_when (match active e, pending e with Some _, Some _ => true | _, _ => false end)
    StateError "active and pending";;
  match active e with
  | Some a => match_ref e (ac_generation a) (ac_slot a) ACTIVE
  | None => Ok tt
  end;;
  match pending e with
  | Some p =>
      raise_when (negb (bool_decide (pe_phase p = RESET_INTENT) || bool_decide (pe_phase p = RESET_DONE)))
        StateError "pending phase";;
      match_ref e (pe_generation p) (pe_slot p) (pe_phase p)
  | None => Ok tt
  end.

Definition validate_state (s : state) (generation_cap : Z) : result unit :=
  validate_entry generation_cap (JOURNAL s);;
  validate_entry generation_cap (WAL s).

(** ** Capacity *)

Record limits := Limits {
  registry_record_cap : Z;
  head_record_cap : Z;
  registry_byte_cap : Z;
  head_byte_cap : Z;
  generation_cap : Z;
}.

Definition capacity (l : limits) : Z :=
  Z.min (registry_record_cap l)
    (Z.min (head_record_cap l) (Z.min (registry_byte_cap l / 4096) (head_byte_cap l / 2048))).

(** Records still needed to retire the entry. *)
Definition entry_reservation (e : entry) : Z :=
  match active e, pending e with
  | Some _, _ => 1
  | None, Some p => if bool_decide (pe_phase p = RESET_INTENT) then 3 else 2
  | None, None => 0
  end.

Definition reservations (s : state) : pydict Z :=
  [("JOURNAL", entry_reservation (JOURNAL s)); ("WAL", entry_reservation (WAL s))].

Definition assert_reservations (s : state) (seq : Z) (l : limits) : result unit :=
  validate_state s (generation_cap l);;
  let room := capacity l - seq in
  raise_when (room <? zsum (dict_values (reservations s))) StateError
    "retirement capacity exhausted".

(** ** Slot selection *)

Definition reusable (ph : phase) : bool :=
  bool_decide (ph = VIRGIN) || bool_decide (ph = RETIRED).

Definition eligible_slots (e : entry) (kind : string) (referenced : list (string * Z * Z)) : list Z :=
  filter (λ i,
    match slot_at e i with
    | Some s => reusable (sl_phase s) &&
                negb (existsb (λ '(k, _, j), String.eqb k kind && (j =? i)) referenced)
    | None => false
    end = true) (Z.of_nat <$> seq 0 (length (slots e))).

Definition select_slot (s : state) (kind : string) (referenced : list (string * Z * Z)) : result Z :=
  match get_kind s kind with
  | None => raise StateError "kind"
  | Some e =>
      raise_when (match active e, pending e with None, None => false | _, _ => true end) StateError
        "kind occupied";;
      match eligible_slots e kind referenced with
      | [] => raise StateError "no unreferenced slot"
      | (first :: _) as eligible =>
          let other := match last_slot e with Some i => 1 - i | None => 0 end in
          Ok (if bool_decide (other ∈ eligible) then other else first)
      end
  end.

(** ** Transitions *)

(** [entry["slots"][i] = s]. *)
Definition set_slot (i : Z) (s : slot) (l : list slot) : list slot := <[Z.to_nat i := s]> l.

Definition set_slot_phase (i : Z) (ph : phase) (e : entry) : list slot :=
  match slot_at e i with
  | Some s => set_slot i (Slot (sl_generation s) ph) (slots e)
  | None => slots e
  end.

Definition entry_transition (e : entry) (event : string) (generation i : Z) (op_id : string)
    (generation_cap : Z) : result entry :=
  if String.eqb event "RESET_INTENT" then
    raise_when (match active e, pending e with None, None => false | _, _ => true end) StateError
      "occupied";;
    raise_when (negb (generation =? last_generation e + 1) || (generation_cap <? generation))
      StateError "generation increment";;
    raise_when (match slot_at e i with Some s => negb (reusable (sl_phase s)) | None => true end)
      StateError "slot not reusable";;
    Ok (Entry generation (Some i) (active e) (Some (PendingRef generation i RESET_INTENT op_id))
          (set_slot i (Slot generation RESET_INTENT) (slots e)))
  else if String.eqb event "RESET_DONE" then
    raise_when (negb (bool_decide
      (pending e = Some (PendingRef generation i RESET_INTENT op_id)))) StateError
      "pending transition";;
    Ok (Entry (last_generation e) (last_slot e) (active e)
          (Some (PendingRef generation i RESET_DONE op_id)) (set_slot_phase i RESET_DONE e))
  else if String.eqb event "ACTIVE" then
    raise_when (negb (bool_decide
      (pending e = Some (PendingRef generation i RESET_DONE op_id)))) StateError
      "pending transition";;
    Ok (Entry (last_generation e) (last_slot e) (Some (ActiveRef generation i)) None
          (set_slot_phase i ACTIVE e))
  else if String.eqb event "RETIRED" then
    raise_when (negb (bool_decide (active e = Some (ActiveRef generation i)))) StateError
      "stale retirement";;
    Ok (Entry (last_generation e) (last_slot e) None (pending e) (set_slot_phase i RETIRED e))
  else raise StateError "event".

Definition transition (s : state) (event : string) (kind : option string) (generation : Z)
    (i : option Z) (op_id : string) (generation_cap : Z) : result state :=
  validate_state s generation_cap;;
  if String.eqb event "GENESIS" then
    raise_when (negb (bool_decide (s = initial_state)) ||
                match kind, i with None, None => false | _, _ => true end ||
                negb (generation =? 0)) StateError "genesis";;
    Ok initial_state
  else
    match kind, i with
    | Some k, Some i =>
        match get_kind s k with
        | Some e =>
            raise_when (negb (is_slot_index i)) StateError "event target";;
            e' ← entry_transition e event generation i op_id generation_cap;
            validate_state (set_kind s k e') generation_cap;;
            Ok (set_kind s k e')
        | None => raise StateError "event target"
        end
    | _, _ => raise StateError "event target"
    end.

(** ** Records *)

Definition phase_str (ph : phase) : string :=
  match ph with
  | VIRGIN => "VIRGIN" | RESET_INTENT => "RESET_INTENT" | RESET_DONE => "RESET_DONE"
  | ACTIVE => "ACTIVE" | RETIRED => "RETIRED"
  end.

Definition slot_json (s : slot) : json :=
  JDict [("generation", JInt (sl_generation s)); ("phase", JStr (phase_str (sl_phase s)))].
Definition active_json (a : active_ref) : json :=
  JDict [("generation", JInt (ac_generation a)); ("slot", JInt (ac_slot a))].
Definition pending_json (p : pending_ref) : json :=
  JDict [("generation", JInt (pe_generation p)); ("slot", JInt (pe_slot p));
         ("phase", JStr (phase_str (pe_phase p))); ("op_id", JStr (pe_op_id p))].
Definition entry_json (e : entry) : json :=
  JDict [("last_generation", JInt (last_generation e)); ("last_slot", opt_json JInt (last_slot e));
         ("active", opt_json active_json (active e)); ("pending", opt_json pending_json (pending e));
         ("slots", JList (slot_json <$> slots e))].
Definition state_json (s : state) : json :=
  JDict [("JOURNAL", entry_json (JOURNAL s)); ("WAL", entry_json (WAL s))].

Definition state_digest (s : state) : string :=
  hexdigest (sha256 (encode (canonical (state_json s)))).

Definition ZERO_DIGEST : string := of_chars (replicate 64 "0"%char).

Record registry_record := RegistryRecord {
  rec_event : string;
  rec_kind : option string;
  rec_generation : Z;
  rec_slot : option Z;
  rec_op_id : string;
  rec_seq : Z;
  prior_state_digest : string;
  result_state_digest : string;
}.

Definition apply_record (s : state) (r : registry_record) (l : limits) : result state :=
  let expected := if String.eqb (rec_event r) "GENESIS" then ZERO_DIGEST else state_digest s in
  raise_when (negb (String.eqb (prior_state_digest r) expected)) FormatError "prior state digest";;
  result ← transition s (rec_event r) (rec_kind r) (rec_generation r) (rec_slot r) (rec_op_id r)
             (generation_cap l);
  raise_when (negb (String.eqb (state_digest result) (result_state_digest r))) FormatError
    "result state digest";;
  assert_reservations result (rec_seq r) l;;
  Ok result.

Example digest_of_genesis :
  state_digest initial_state = "ba3689cff08e5c003e4e22c5460e55c2f4023e0e5a9035f1fc37a5b09d18b2b3".
Proof. by vm_compute. Qed.

(** * Properties *)

(** ** What validation means *)

Definition slot_index (i : Z) : Prop := i = 0 ∨ i = 1.

Lemma is_slot_index_spec i : is_slot_index i = true ↔ slot_index i.
Proof. unfold is_slot_index. rewrite orb_true_iff, !Z.eqb_eq. done. Qed.

Record valid_entry (cap : Z) (e : entry) : Prop := {
  ve_last : 0 <= last_generation e <= cap;
  ve_last_slot : ∀ i, last_slot e = Some i → slot_index i;
  ve_slots : ∃ s0 s1, slots e = [s0; s1];
  ve_slot : Forall (λ s, 0 <= sl_generation s <= last_generation e ∧
                         (sl_phase s = VIRGIN → sl_generation s = 0)) (slots e);
  ve_exclusive : active e = None ∨ pending e = None;
  ve_active : ∀ a, active e = Some a →
    slot_index (ac_slot a) ∧ ac_generation a = last_generation e ∧
    slot_at e (ac_slot a) = Some (Slot (ac_generation a) ACTIVE);
  ve_pending : ∀ p, pending e = Some p →
    (pe_phase p = RESET_INTENT ∨ pe_phase p = RESET_DONE) ∧
    slot_index (pe_slot p) ∧ pe_generation p = last_generation e ∧
    slot_at e (pe_slot p) = Some (Slot (pe_generation p) (pe_phase p));
}.

Lemma match_ref_Ok e g i ph :
  match_ref e g i ph = Ok tt ↔
  slot_index i ∧ g = last_generation e ∧ slot_at e i = Some (Slot g ph).
Proof.
  unfold match_ref. rewrite <- is_slot_index_spec. split.
  - intros ([]&Hi%raise_when_Ok&Hm%raise_when_Ok)%bind_Ok. apply negb_false_iff in Hi.
    apply orb_false_iff in Hm as [Hg%negb_false_iff Hs%negb_false_iff].
    apply bool_decide_eq_true in Hs. by apply Z.eqb_eq in Hg.
  - intros (->&->&->). cbn. by rewrite Z.eqb_refl, bool_decide_true.
Qed.

Lemma validate_slot_Ok g s :
  validate_slot g s = Ok tt ↔
  0 <= sl_generation s <= g ∧ (sl_phase s = VIRGIN → sl_generation s = 0).
Proof.
  unfold validate_slot. split.
  - intros ([]&Hr%raise_when_Ok&Hv%raise_when_Ok)%bind_Ok.
    apply negb_false_iff, andb_true_iff in Hr as [Hlo%Z.leb_le Hhi%Z.leb_le]. split; [done|].
    intros Hp. rewrite bool_decide_true in Hv by done. cbn in Hv. apply negb_false_iff in Hv.
    by apply Z.eqb_eq in Hv.
  - intros [[Hlo Hhi] Hv]. rewrite (proj2 (Z.leb_le 0 _)), (proj2 (Z.leb_le _ g)) by done. cbn.
    case_bool_decide as Hp; [|done]. by rewrite Hv.
Qed.

Lemma validate_entry_Ok cap e : validate_entry cap e = Ok tt ↔ valid_entry cap e.
Proof.
  unfold validate_entry. split.
  - intros H. apply bind_Ok in H as ([]&Hl%raise_when_Ok&H).
    apply bind_Ok in H as ([]&Hls%raise_when_Ok&H). apply bind_Ok in H as ([]&Hlen%raise_when_Ok&H).
    apply bind_Ok in H as ([]&Hsl%forM_Ok&H). apply bind_Ok in H as ([]&Hex%raise_when_Ok&H).
    apply bind_Ok in H as ([]&Ha&Hp).
    apply negb_false_iff, andb_true_iff in Hl as [Hl1%Z.leb_le Hl2%Z.leb_le].
    apply negb_false_iff, Nat.eqb_eq in Hlen. split.
    + lia.
    + intros i Hi. rewrite Hi in Hls. apply is_slot_index_spec. by apply negb_false_iff in Hls.
    + destruct (slots e) as [|s0 [|s1 [|]]]; try done. eauto.
    + eapply Forall_impl; [done|]. intros s. apply validate_slot_Ok.
    + destruct (active e), (pending e); [done|auto..].
    + intros a Hae. rewrite Hae in Ha. by apply match_ref_Ok.
    + intros p Hpe. rewrite Hpe in Hp. apply bind_Ok in Hp as ([]&Hph%raise_when_Ok&Hp).
      apply negb_false_iff, orb_true_iff in Hph. rewrite !bool_decide_eq_true in Hph.
      split; [done|]. by apply match_ref_Ok.
  - intros [Hl Hls (s0&s1&Hsl) Hs Hex Ha Hp].
    rewrite (proj2 (Z.leb_le 0 _)), (proj2 (Z.leb_le _ cap)) by lia. step.
    assert (Hls' : match last_slot e with Some i => negb (is_slot_index i) | None => false end = false).
    { destruct (last_slot e) as [i|]; [|done]. by rewrite (proj2 (is_slot_index_spec i)) by auto. }
    rewrite Hls'. step. assert (Hlen : length (slots e) = 2%nat) by by rewrite Hsl. rewrite Hlen. step.
    cbn [negb Nat.eqb].
    rewrite (proj2 (forM_Ok _ _ tt)); [|eapply Forall_impl; [done|]; intros s; apply validate_slot_Ok]. step.
    destruct (active e) as [a|], (pending e) as [p|]; step; [by destruct Hex| | |done].
    + rewrite (proj2 (match_ref_Ok _ _ _ _)); [done|]. by apply Ha.
    + destruct (Hp p eq_refl) as ([-> | ->]&Hm); cbn; by apply match_ref_Ok.
Qed.

Lemma validate_state_Ok s cap :
  validate_state s cap = Ok tt ↔ valid_entry cap (JOURNAL s) ∧ valid_entry cap (WAL s).
Proof.
  unfold validate_state. rewrite bind_Ok, <- !validate_entry_Ok.
  split; [by intros ([]&?&?)|intros [? ?]; by exists tt].
Qed.

(** ** The state machine as a step relation

    One rule per event; [s] is the slot the event names. *)

Inductive entry_step (cap : Z) (e : entry) (g i : Z) (op : string) : string → entry → Prop :=
  | step_intent s :
      active e = None → pending e = None → g = last_generation e + 1 → g <= cap →
      slot_at e i = Some s → sl_phase s = VIRGIN ∨ sl_phase s = RETIRED →
      entry_step cap e g i op "RESET_INTENT"
        (Entry g (Some i) None (Some (PendingRef g i RESET_INTENT op))
           (set_slot i (Slot g RESET_INTENT) (slots e)))
  | step_done s :
      pending e = Some (PendingRef g i RESET_INTENT op) → slot_at e i = Some s →
      entry_step cap e g i op "RESET_DONE"
        (Entry (last_generation e) (last_slot e) (active e) (Some (PendingRef g i RESET_DONE op))
           (set_slot i (Slot (sl_generation s) RESET_DONE) (slots e)))
  | step_active s :
      pending e = Some (PendingRef g i RESET_DONE op) → slot_at e i = Some s →
      entry_step cap e g i op "ACTIVE"
        (Entry (last_generation e) (last_slot e) (Some (ActiveRef g i)) None
           (set_slot i (Slot (sl_generation s) ACTIVE) (slots e)))
  | step_retired s :
      active e = Some (ActiveRef g i) → slot_at e i = Some s →
      entry_step cap e g i op "RETIRED"
        (Entry (last_generation e) (last_slot e) None (pending e)
           (set_slot i (Slot (sl_generation s) RETIRED) (slots e))).

Lemma slot_at_index cap e i : valid_entry cap e → slot_index i → ∃ s, slot_at e i = Some s.
Proof.
  intros [_ _ (s0&s1&Hs) _ _ _ _] [-> | ->]; unfold slot_at; rewrite Hs; cbn; eauto.
Qed.

(** The code takes exactly the steps of the relation. *)
Lemma entry_transition_step cap e event g i op e' :
  valid_entry cap e → slot_index i →
  entry_transition e event g i op cap = Ok e' ↔ entry_step cap e g i op event e'.
Proof.
  intros Hv Hi. destruct (slot_at_index cap e i Hv Hi) as [s Hs].
  unfold entry_transition, set_slot_phase. rewrite Hs. split.
  - destruct (String.eqb_spec event "RESET_INTENT") as [->|_].
    { intros H. apply bind_Ok in H as ([]&Ho%raise_when_Ok&H).
      apply bind_Ok in H as ([]&Hg%raise_when_Ok&H). apply bind_Ok in H as ([]&Hr%raise_when_Ok&[= <-]).
      apply orb_false_iff in Hg as [Hg%negb_false_iff%Z.eqb_eq Hc%Z.ltb_ge].
      apply negb_false_iff in Hr. unfold reusable in Hr.
      apply orb_true_iff in Hr. rewrite !bool_decide_eq_true in Hr.
      destruct (active e) eqn:Ha; [done|]. destruct (pending e) eqn:Hp; [done|].
      by eapply step_intent. }
    destruct (String.eqb_spec event "RESET_DONE") as [->|_].
    { intros H. apply bind_Ok in H as ([]&Hp%raise_when_Ok&[= <-]).
      apply negb_false_iff, bool_decide_eq_true in Hp. by apply step_done. }
    destruct (String.eqb_spec event "ACTIVE") as [->|_].
    { intros H. apply bind_Ok in H as ([]&Hp%raise_when_Ok&[= <-]).
      apply negb_false_iff, bool_decide_eq_true in Hp. by apply step_active. }
    destruct (String.eqb_spec event "RETIRED") as [->|_]; [|done].
    intros H. apply bind_Ok in H as ([]&Hp%raise_when_Ok&[= <-]).
    apply negb_false_iff, bool_decide_eq_true in Hp. by apply step_retired.
  - intros H. inversion H as [t Ha Hp Hg Hc Ht Hph|t Hp Ht|t Hp Ht|t Ha Ht]; subst;
      rewrite Hs in Ht; injection Ht as <-; cbn [String.eqb Ascii.eqb Bool.eqb].
    + rewrite Ha, Hp, Z.eqb_refl, (proj2 (Z.ltb_ge cap _)) by done. step. cbn [negb orb].
      unfold reusable. destruct Hph as [-> | ->]; done.
    + by rewrite bool_decide_true.
    + by rewrite bool_decide_true.
    + by rewrite bool_decide_true.
Qed.

(** Every step of the relation leads to a valid entry. *)
Lemma entry_step_valid cap e g i op event e' :
  valid_entry cap e → slot_index i → entry_step cap e g i op event e' → valid_entry cap e'.
Proof.
  intros [Hl Hls (s0&s1&Hsl) Hs Hex Ha Hp] Hi Hst.
  destruct e as [lg ls ac pe sl]. cbn in *. subst sl.
  apply Forall_cons in Hs as [[Hg0 Hv0] Hs]. apply Forall_cons in Hs as [[Hg1 Hv1] _].
  destruct Hst as [s Hac Hpe Hg Hc Hat Hph|s Hpe Hat|s Hpe Hat|s Hac Hat]; cbn in *; subst.
  - split; cbn; [lia|intros ? [= <-]; done| | |by left|done|].
    + destruct Hi as [-> | ->]; cbn; eauto.
    + destruct Hi as [-> | ->]; cbn; repeat constructor; cbn; intros; (done || lia || (specialize (Hv1 ltac:(done)); lia)
        || (specialize (Hv0 ltac:(done)); lia)).
    + intros ? [= <-]. cbn. split_and!; [by left|done|done|]. destruct Hi as [-> | ->]; done.
  - destruct (Hp _ eq_refl) as (_&_&Hg&Hs). cbn in Hg, Hs. subst g.
    destruct Hex as [->|]; [|done]. rewrite Hat in Hs. injection Hs as ->.
    split; cbn; [lia|done| | |by left|done|].
    + destruct Hi as [-> | ->]; cbn; eauto.
    + destruct Hi as [-> | ->]; cbn; repeat constructor; cbn; intros; (done || lia || auto).
    + intros ? [= <-]. cbn. split_and!; [by right|done|done|]. destruct Hi as [-> | ->]; done.
  - destruct (Hp _ eq_refl) as (_&_&Hg&Hs). cbn in Hg, Hs. subst g.
    destruct Hex as [->|]; [|done]. rewrite Hat in Hs. injection Hs as ->.
    split; cbn; [lia|done| | |by right| |done].
    + destruct Hi as [-> | ->]; cbn; eauto.
    + destruct Hi as [-> | ->]; cbn; repeat constructor; cbn; intros; (done || lia || auto).
    + intros ? [= <-]. cbn. split_and!; [done|done|]. destruct Hi as [-> | ->]; done.
  - destruct (Ha _ eq_refl) as (_&Hg&Hs). cbn in Hg, Hs. subst g.
    destruct Hex as [| ->]; [done|]. rewrite Hat in Hs. injection Hs as ->.
    split; cbn; [lia|done| | |by left|done|done].
    + destruct Hi as [-> | ->]; cbn; eauto.
    + destruct Hi as [-> | ->]; cbn; repeat constructor; cbn; intros; (done || lia || auto).
Qed.

(** ** Reachable states *)

Inductive reachable (cap : Z) : state → Prop :=
  | reachable_initial : reachable cap initial_state
  | reachable_step s event kind g i op s' :
      reachable cap s → transition s event kind g i op cap = Ok s' → reachable cap s'.

(** The history of one kind: generation numbers are issued once, the last
    generation lives in the last slot, and a slot that is neither virgin nor
    retired is the one the entry refers to. *)
Record entry_history (e : entry) : Prop := {
  eh_fresh : last_slot e = None → last_generation e = 0;
  eh_used : ∀ i, last_slot e = Some i → slot_index i ∧ 0 < last_generation e ∧
    ∃ s, slot_at e i = Some s ∧ sl_generation s = last_generation e ∧ sl_phase s ≠ VIRGIN;
  eh_distinct : ∀ i j s t, slot_at e i = Some s → slot_at e j = Some t → slot_index i → slot_index j →
    sl_generation s = sl_generation t → sl_phase s ≠ VIRGIN → i = j;
  eh_positive : ∀ i s, slot_index i → slot_at e i = Some s → sl_phase s ≠ VIRGIN → 0 < sl_generation s;
  eh_busy : ∀ i s, slot_index i → slot_at e i = Some s →
    (sl_phase s = ACTIVE → active e = Some (ActiveRef (sl_generation s) i)) ∧
    (sl_phase s = RESET_INTENT ∨ sl_phase s = RESET_DONE →
     ∃ op, pending e = Some (PendingRef (sl_generation s) i (sl_phase s) op));
}.

Lemma initial_valid cap : 0 <= cap → valid_entry cap initial_entry.
Proof.
  intros. split; cbn; try done; [eauto| |by left].
  repeat constructor; cbn; (done || lia).
Qed.

Lemma initial_history : entry_history initial_entry.
Proof.
  assert (Hs : ∀ i s, slot_index i → slot_at initial_entry i = Some s → sl_phase s = VIRGIN).
  { intros i s [-> | ->] [= <-]; done. }
  split; cbn; try done.
  - intros i j s t Hi Hj Hii Hjj _ Hp. by rewrite (Hs _ _ Hii Hi) in Hp.
  - intros i s Hi His Hp. by rewrite (Hs _ _ Hi His) in Hp.
  - intros i s Hi His. rewrite (Hs _ _ Hi His). split; [done|by intros [?|?]].
Qed.

(** Slots after an update. *)
Lemma slot_at_update i j s e lg ls ac pe :
  slot_index i → slot_index j → (∃ s0 s1, slots e = [s0; s1]) →
  slot_at (Entry lg ls ac pe (set_slot i s (slots e))) j = if i =? j then Some s else slot_at e j.
Proof.
  intros Hi Hj (s0&s1&Hs). unfold slot_at, set_slot. cbn. rewrite Hs.
  destruct Hi as [-> | ->], Hj as [-> | ->]; done.
Qed.

(** Changing the phase of a used slot keeps the history, as long as the busy
    slots remain the ones the entry refers to. *)
Lemma history_rephase e i s ph ac pe :
  (∃ s0 s1, slots e = [s0; s1]) → entry_history e → slot_index i → slot_at e i = Some s →
  sl_phase s ≠ VIRGIN → ph ≠ VIRGIN →
  let e' := Entry (last_generation e) (last_slot e) ac pe
              (set_slot i (Slot (sl_generation s) ph) (slots e)) in
  (ph = ACTIVE → ac = Some (ActiveRef (sl_generation s) i)) →
  (ph = RESET_INTENT ∨ ph = RESET_DONE → ∃ op, pe = Some (PendingRef (sl_generation s) i ph op)) →
  (∀ j x, j ≠ i → slot_index j → slot_at e j = Some x →
     sl_phase x = VIRGIN ∨ sl_phase x = RETIRED) →
  entry_history e'.
Proof.
  intros Hsl [Hfr Hus Hdi Hpo Hbu] Hi Hat Hp Hph e' Hac Hpe Hoth. split; cbn; [done| | | |].
  - intros j Hj. destruct (Hus j Hj) as (Hji&Hpos&x&Hx&Hxg&Hxp). split_and!; [done..|].
    unfold e'. rewrite slot_at_update by done. destruct (Z.eqb_spec i j) as [<-|]; [|by exists x].
    eexists; split; [done|]. cbn. split; [congruence|done].
  - intros j k x y Hj Hk Hji Hki. unfold e' in *. rewrite slot_at_update in Hj, Hk by done.
    destruct (Z.eqb_spec i j) as [<-|], (Z.eqb_spec i k) as [<-|]; simplify_eq; cbn; [done|..].
    + intros Heq _. by apply (Hdi i k _ y Hat Hk).
    + intros Heq Hpx. by apply (Hdi j i x _ Hj Hat).
    + by eapply Hdi.
  - intros j x Hji Hj. unfold e' in *. rewrite slot_at_update in Hj by done.
    destruct (Z.eqb_spec i j) as [<-|]; simplify_eq; cbn; [intros _; by apply (Hpo i _ Hi Hat)|by eapply Hpo].
  - intros j x Hji Hj. unfold e' in *. rewrite slot_at_update in Hj by done.
    destruct (Z.eqb_spec i j) as [<-|Hne]; simplify_eq; cbn; [done|].
    destruct (Hoth j x ltac:(congruence) Hji Hj) as [-> | ->]; split; (done || by intros [?|?]).
Qed.

(** Only the slot of the reference is busy. *)
Lemma history_others cap e i :
  valid_entry cap e → entry_history e →
  (∃ a, active e = Some a ∧ ac_slot a = i) ∨ (∃ p, pending e = Some p ∧ pe_slot p = i) ∨
  (active e = None ∧ pending e = None) →
  ∀ j x, j ≠ i → slot_index j → slot_at e j = Some x → sl_phase x = VIRGIN ∨ sl_phase x = RETIRED.
Proof.
  intros Hv Hh Href j x Hne Hj Hx. destruct (eh_busy _ Hh j x Hj Hx) as [Ha Hp].
  pose proof (ve_exclusive _ _ Hv) as Hex.
  destruct (sl_phase x) eqn:E; auto; exfalso.
  - destruct (Hp (or_introl eq_refl)) as (op&Hop).
    destruct Href as [(a&Hae&_)|[(p&Hpe&Hpi)|[_ Hpe]]]; [destruct Hex; congruence| |congruence].
    rewrite Hop in Hpe. injection Hpe as <-. cbn in Hpi. congruence.
  - destruct (Hp (or_intror eq_refl)) as (op&Hop).
    destruct Href as [(a&Hae&_)|[(p&Hpe&Hpi)|[_ Hpe]]]; [destruct Hex; congruence| |congruence].
    rewrite Hop in Hpe. injection Hpe as <-. cbn in Hpi. congruence.
  - specialize (Ha eq_refl).
    destruct Href as [(a&Hae&Hai)|[(p&Hpe&_)|[Hae _]]]; [|destruct Hex; congruence|congruence].
    rewrite Ha in Hae. injection Hae as <-. cbn in Hai. congruence.
Qed.

(** Taking a slot for the next generation. *)
Lemma history_intent cap e i op :
  valid_entry cap e → entry_history e → slot_index i → active e = None → pending e = None →
  let g := last_generation e + 1 in
  entry_history (Entry g (Some i) None (Some (PendingRef g i RESET_INTENT op))
                   (set_slot i (Slot g RESET_INTENT) (slots e))).
Proof.
  intros Hv Hh Hi Hac Hpe g. pose proof (ve_slots _ _ Hv) as Hsl. pose proof (ve_last _ _ Hv) as Hl.
  assert (Hle : ∀ j s, slot_at e j = Some s → 0 <= sl_generation s <= last_generation e).
  { intros j s Hj. pose proof (ve_slot _ _ Hv) as Hg. rewrite Forall_lookup in Hg. by apply Hg in Hj as [? _]. }
  pose proof (history_others cap e i Hv Hh ltac:(by auto)) as Hoth. destruct Hh as [_ _ Hdi Hpo _].
  split; cbn; [done| | | |].
  - intros ? [= <-]. split; [done|]. split; [lia|]. eexists. by rewrite slot_at_update, Z.eqb_refl.
  - intros j k x y Hj Hk Hji Hki. rewrite slot_at_update in Hj, Hk by done.
    destruct (Z.eqb_spec i j) as [<-|], (Z.eqb_spec i k) as [<-|]; simplify_eq; cbn; [done|..].
    + intros Heq _. specialize (Hle _ _ Hk). lia.
    + intros Heq _. specialize (Hle _ _ Hj). lia.
    + by eapply Hdi.
  - intros j x Hji Hj. rewrite slot_at_update in Hj by done.
    destruct (Z.eqb_spec i j) as [<-|]; simplify_eq; cbn; [lia|by eapply Hpo].
  - intros j x Hji Hj. rewrite slot_at_update in Hj by done.
    destruct (Z.eqb_spec i j) as [<-|Hne]; simplify_eq; cbn; [split; [done|by eauto]|].
    destruct (Hoth j x ltac:(congruence) Hji Hj) as [-> | ->]; split; (done || by intros [?|?]).
Qed.

Lemma entry_step_history cap e g i op event e' :
  valid_entry cap e → slot_index i → entry_step cap e g i op event e' →
  entry_history e → entry_history e'.
Proof.
  intros Hv Hi Hst Hh. pose proof (ve_slots _ _ Hv) as Hsl.
  pose proof (λ H, history_others cap e i Hv Hh H) as Hoth.
  destruct Hst as [s Hac Hpe -> Hc Hat Hph|s Hpe Hat|s Hpe Hat|s Hac Hat].
  - by eapply history_intent.
  - destruct (ve_pending _ _ Hv _ Hpe) as (_&_&Hgl&Hs). cbn in Hgl, Hs. rewrite Hat in Hs. injection Hs as ->.
    apply history_rephase; cbn; try done; [by eauto|]. apply Hoth. right. left. by eexists.
  - destruct (ve_pending _ _ Hv _ Hpe) as (_&_&Hgl&Hs). cbn in Hgl, Hs. rewrite Hat in Hs. injection Hs as ->.
    apply history_rephase; cbn; try done; [by intros [?|?]|]. apply Hoth. right. left. by eexists.
  - destruct (ve_active _ _ Hv _ Hac) as (_&Hgl&Hs). cbn in Hgl, Hs. rewrite Hat in Hs. injection Hs as ->.
    apply history_rephase; cbn; try done; [by intros [?|?]|]. apply Hoth. left. by eexists.
Qed.

(** ** Transitions of the whole state *)

Definition valid_state (cap : Z) (s : state) : Prop :=
  valid_entry cap (JOURNAL s) ∧ valid_entry cap (WAL s).

Lemma get_kind_valid cap s k e : valid_state cap s → get_kind s k = Some e → valid_entry cap e.
Proof.
  intros [Hj Hw]. unfold get_kind. destruct (String.eqb k "JOURNAL"); [by intros [= <-]|].
  destruct (String.eqb k "WAL"); [by intros [= <-]|done].
Qed.

Lemma set_kind_valid cap s k e :
  valid_state cap s → valid_entry cap e → valid_state cap (set_kind s k e).
Proof. intros [Hj Hw] He. unfold set_kind. by destruct (String.eqb k "JOURNAL"). Qed.

Lemma transition_entry cap s event k g i op e :
  valid_state cap s → event ≠ "GENESIS" → get_kind s k = Some e → slot_index i →
  transition s event (Some k) g (Some i) op cap =
  (e' ← entry_transition e event g i op cap; Ok (set_kind s k e')).
Proof.
  intros Hv Hev Hk Hi. unfold transition. rewrite (proj2 (validate_state_Ok s cap) Hv). step.
  apply String.eqb_neq in Hev as ->. rewrite Hk, (proj2 (is_slot_index_spec i) Hi). step. cbn [negb].
  destruct (entry_transition e event g i op cap) as [e'|] eqn:E; step; [|done].
  pose proof (get_kind_valid cap s k e Hv Hk) as He.
  apply (entry_transition_step cap) in E; [|done..].
  pose proof (entry_step_valid _ _ _ _ _ _ _ He Hi E) as He'.
  by rewrite (proj2 (validate_state_Ok _ cap) (set_kind_valid cap s k e' Hv He')).
Qed.

Lemma transition_inv cap s event kind g i op s' :
  transition s event kind g i op cap = Ok s' →
  valid_state cap s ∧
  ((event = "GENESIS" ∧ s = initial_state ∧ s' = initial_state) ∨
   ∃ k j e e', kind = Some k ∧ i = Some j ∧ get_kind s k = Some e ∧ slot_index j ∧
     entry_step cap e g j op event e' ∧ s' = set_kind s k e').
Proof.
  intros H. assert (Hv : valid_state cap s).
  { unfold transition in H. apply bind_Ok in H as ([]&Hv&_). by apply validate_state_Ok. }
  split; [done|]. destruct (String.eqb_spec event "GENESIS") as [->|Hne].
  - left. unfold transition in H. apply bind_Ok in H as ([]&_&H). cbn [String.eqb Ascii.eqb Bool.eqb] in H.
    apply bind_Ok in H as ([]&Hg%raise_when_Ok&[= <-]).
    apply orb_false_iff in Hg as [[Hs%negb_false_iff _]%orb_false_iff _].
    by apply bool_decide_eq_true in Hs.
  - right. assert (Hc : ∃ k j e, kind = Some k ∧ i = Some j ∧ get_kind s k = Some e ∧ slot_index j).
    { unfold transition in H. apply bind_Ok in H as ([]&_&H). apply String.eqb_neq in Hne as Hne'.
      rewrite Hne' in H. destruct kind as [k|]; [|done]. destruct i as [j|]; [|done].
      destruct (get_kind s k) as [e|] eqn:Hk; [|done]. apply bind_Ok in H as ([]&Hi%raise_when_Ok&_).
      apply negb_false_iff, is_slot_index_spec in Hi. by exists k, j, e. }
    destruct Hc as (k&j&e&->&->&Hk&Hj). rewrite (transition_entry cap s event k g j op e) in H by done.
    apply bind_Ok in H as (e'&He'&[= <-]).
    apply (entry_transition_step cap) in He'; [|by eapply get_kind_valid|done].
    by exists k, j, e, e'.
Qed.

Lemma reachable_valid cap s :
  0 <= cap → reachable cap s →
  valid_state cap s ∧ entry_history (JOURNAL s) ∧ entry_history (WAL s).
Proof.
  intros Hc. induction 1 as [|s event kind g i op s' Hr (Hv&Hj&Hw) Ht].
  - split; [split; by apply initial_valid|]. split; apply initial_history.
  - apply transition_inv in Ht as (_&[(_&_&->)|(k&j&e&e'&->&->&Hk&Hji&Hst&->)]).
    { split; [split; by apply initial_valid|]. split; apply initial_history. }
    pose proof (get_kind_valid _ _ _ _ Hv Hk) as He.
    pose proof (entry_step_valid _ _ _ _ _ _ _ He Hji Hst) as He'.
    split; [by apply set_kind_valid|].
    assert (Hh : entry_history e).
    { unfold get_kind in Hk. destruct (String.eqb k "JOURNAL"); [by injection Hk as <-|].
      destruct (String.eqb k "WAL"); [by injection Hk as <-|done]. }
    pose proof (entry_step_history _ _ _ _ _ _ _ He Hji Hst Hh) as Hh'.
    unfold set_kind. by destruct (String.eqb k "JOURNAL").
Qed.

(** ** Draining the reservations *)

(** [n] accepted records in a row, from sequence number [seq] on. *)
Inductive accepted_run (l : limits) : Z → state → nat → state → Prop :=
  | run_nil seq s : accepted_run l seq s 0 s
  | run_cons seq s event kind g i op s1 n s2 :
      transition s event kind g i op (generation_cap l) = Ok s1 →
      assert_reservations s1 (seq + 1) l = Ok tt →
      accepted_run l (seq + 1) s1 n s2 → accepted_run l seq s (S n) s2.

Definition reserved (s : state) : Z := zsum (dict_values (reservations s)).

Lemma reserved_split s : reserved s = entry_reservation (JOURNAL s) + entry_reservation (WAL s).
Proof. unfold reserved, reservations. cbn. lia. Qed.

Lemma entry_reservation_nonneg e : 0 <= entry_reservation e.
Proof. unfold entry_reservation. repeat case_match; lia. Qed.

(** A busy entry has a next event, which frees one reservation. *)
Lemma entry_drain cap e :
  valid_entry cap e → 0 < entry_reservation e →
  ∃ event g i op e', event ≠ "GENESIS" ∧ slot_index i ∧ entry_transition e event g i op cap = Ok e' ∧
    entry_reservation e' = entry_reservation e - 1.
Proof.
  intros Hv. unfold entry_reservation at 1. pose proof (ve_exclusive _ _ Hv) as Hex.
  destruct (active e) as [[g i]|] eqn:Ha.
  - intros _. destruct (ve_active _ _ Hv _ Ha) as (Hi&_&Hs). cbn in Hi, Hs.
    exists "RETIRED", g, i, "". eexists. split_and!; [done|done|apply entry_transition_step; [done..|]; by eapply step_retired|].
    destruct Hex as [|Hp]; [done|]. unfold entry_reservation. cbn. by rewrite Ha, Hp.
  - destruct (pending e) as [[g i ph op]|] eqn:Hp; [|lia]. intros _.
    destruct (ve_pending _ _ Hv _ Hp) as ([Hph|Hph]&Hi&_&Hs); cbn in Hph, Hi, Hs; subst ph.
    + exists "RESET_DONE", g, i, op. eexists.
      split_and!; [done|done|apply entry_transition_step; [done..|]; by eapply step_done|].
      unfold entry_reservation. cbn. by rewrite Ha, Hp.
    + exists "ACTIVE", g, i, op. eexists.
      split_and!; [done|done|apply entry_transition_step; [done..|]; by eapply step_active|].
      unfold entry_reservation. cbn. by rewrite Ha, Hp.
Qed.

Lemma state_drain cap s :
  valid_state cap s → 0 < reserved s →
  ∃ event k g i op s', transition s event (Some k) g (Some i) op cap = Ok s' ∧
    valid_state cap s' ∧ reserved s' = reserved s - 1.
Proof.
  intros Hv Hr. rewrite reserved_split in Hr.
  assert (Hk : ∀ k e, get_kind s k = Some e → 0 < entry_reservation e →
    (∀ e', reserved (set_kind s k e') = reserved s - entry_reservation e + entry_reservation e') →
    ∃ event k g i op s', transition s event (Some k) g (Some i) op cap = Ok s' ∧
      valid_state cap s' ∧ reserved s' = reserved s - 1).
  { intros k e Hk Hpos Hset. pose proof (get_kind_valid _ _ _ _ Hv Hk) as He.
    destruct (entry_drain cap e He Hpos) as (ev&g&i&op&e'&Hne&Hi&Ht&Hres).
    exists ev, k, g, i, op, (set_kind s k e'). split_and!.
    - rewrite (transition_entry cap s ev k g i op e) by done. by rewrite Ht.
    - apply set_kind_valid; [done|]. apply (entry_transition_step cap) in Ht; [|done..].
      by eapply entry_step_valid.
    - rewrite Hset, Hres. lia. }
  pose proof (entry_reservation_nonneg (WAL s)).
  destruct (Z.lt_ge_cases 0 (entry_reservation (JOURNAL s))) as [Hj|Hj].
  - apply (Hk "JOURNAL" (JOURNAL s) eq_refl Hj). intros e'. rewrite !reserved_split. cbn. lia.
  - apply (Hk "WAL" (WAL s) eq_refl ltac:(lia)). intros e'. rewrite !reserved_split. cbn. lia.
Qed.

Lemma assert_reservations_Ok s seq l :
  assert_reservations s seq l = Ok tt ↔
  valid_state (generation_cap l) s ∧ reserved s <= capacity l - seq.
Proof.
  unfold assert_reservations. fold (reserved s). rewrite <- Z.ltb_ge, <- (raise_when_Ok _ StateError "retirement capacity exhausted" tt).
  unfold valid_state. rewrite <- validate_state_Ok, bind_Ok. split; [by intros ([]&?&?)|intros [? ?]; by exists tt].
Qed.

Lemma drain_run l n seq s :
  assert_reservations s seq l = Ok tt → reserved s = Z.of_nat n →
  ∃ s', accepted_run l seq s n s' ∧ reserved s' = 0.
Proof.
  revert seq s. induction n as [|n IH]; intros seq s H Hn; [exists s; by split; [constructor|]|].
  apply assert_reservations_Ok in H as [Hv Hr].
  destruct (state_drain _ s Hv ltac:(lia)) as (ev&k&g&i&op&s1&Ht&Hv1&Hr1).
  assert (H1 : assert_reservations s1 (seq + 1) l = Ok tt)
    by (apply assert_reservations_Ok; split; [done|lia]).
  destruct (IH (seq + 1) s1 H1 ltac:(lia)) as (s'&Hrun&Hs'). exists s'. split; [|done].
  by eapply run_cons.
Qed.

(** ** Choosing a slot *)

Lemma idle_reusable e i s :
  entry_history e → active e = None → pending e = None → slot_index i → slot_at e i = Some s →
  reusable (sl_phase s) = true.
Proof.
  intros Hh Ha Hp Hi Hs. destruct (eh_busy _ Hh i s Hi Hs) as [Hac Hpe]. unfold reusable.
  destruct (sl_phase s); try done; exfalso.
  - destruct (Hpe (or_introl eq_refl)). congruence.
  - destruct (Hpe (or_intror eq_refl)). congruence.
  - specialize (Hac eq_refl). congruence.
Qed.

Definition is_referenced (kind : string) (i : Z) (referenced : list (string * Z * Z)) : bool :=
  existsb (λ '(k, _, j), String.eqb k kind && (j =? i)) referenced.

Lemma eligible_spec cap e kind referenced i :
  valid_entry cap e → entry_history e → active e = None → pending e = None →
  i ∈ eligible_slots e kind referenced ↔ slot_index i ∧ is_referenced kind i referenced = false.
Proof.
  intros Hv Hh Ha Hp. unfold eligible_slots, is_referenced. rewrite list_elem_of_filter.
  destruct (ve_slots _ _ Hv) as (s0&s1&Hs). rewrite Hs. cbn [length seq fmap list_fmap].
  assert (Hin : i ∈ [Z.of_nat 0; Z.of_nat 1] ↔ slot_index i) by (unfold slot_index; set_solver).
  rewrite Hin. split.
  - intros [H Hi]. split; [done|]. destruct (slot_at e i); [|done].
    apply andb_true_iff in H as [_ H]. by apply negb_true_iff in H.
  - intros [Hi Hr]. split; [|done]. destruct (slot_at_index cap e i Hv Hi) as [s Hsi].
    rewrite Hsi, (idle_reusable e i s) by done. by rewrite Hr.
Qed.

(** * Claims *)

(** C8: [transition] is the state machine.  From a valid state, for an event
    other than GENESIS, the code returns exactly the states reached by one
    step of the relation on the named kind and slot: the guards decide, and
    the validation of the result never refuses. *)
Theorem transition_implements_steps cap s event k g i op e s' :
  valid_state cap s → event ≠ "GENESIS" → get_kind s k = Some e → slot_index i →
  transition s event (Some k) g (Some i) op cap = Ok s' ↔
  ∃ e', entry_step cap e g i op event e' ∧ s' = set_kind s k e'.
Proof.
  intros Hv Hev Hk Hi. rewrite (transition_entry cap s event k g i op e) by done.
  pose proof (get_kind_valid _ _ _ _ Hv Hk) as He. rewrite bind_Ok. split.
  - intros (e'&Ht&[= <-]). exists e'. split; [|done]. by apply entry_transition_step.
  - intros (e'&Hst&->). exists e'. split; [|done]. by apply entry_transition_step.
Qed.

Lemma initial_valid_state : valid_state 63 initial_state.
Proof. split; by apply initial_valid. Defined.

Lemma transition_implements_steps_witness :
  ∃ e', entry_step 63 initial_entry 1 0 "op" "RESET_INTENT" e' ∧
    transition initial_state "RESET_INTENT" (Some "WAL") 1 (Some 0) "op" 63 =
    Ok (set_kind initial_state "WAL" e').
Proof.
  destruct (proj1 (transition_implements_steps 63 initial_state "RESET_INTENT" "WAL" 1 0 "op" initial_entry
    (set_kind initial_state "WAL" (Entry 1 (Some 0) None (Some (PendingRef 1 0 RESET_INTENT "op"))
       [Slot 1 RESET_INTENT; Slot 0 VIRGIN])) initial_valid_state ltac:(done) eq_refl (or_introl eq_refl))
    ltac:(by vm_compute)) as (e'&Hst&Heq).
  exists e'. split; [exact Hst|]. rewrite <- Heq. by vm_compute.
Defined.

(** the invariant of the slot history.  In every state reachable from the
    initial one, for both kinds: the state passes validation; a kind was never
    used or its last slot carries the last generation; no two used slots share
    a generation; and a slot is resetting or active only if it is the one the
    entry's pending or active reference names. *)
Theorem reachable_history cap s :
  0 <= cap → reachable cap s →
  validate_state s cap = Ok tt ∧ entry_history (JOURNAL s) ∧ entry_history (WAL s).
Proof.
  intros Hc Hr. destruct (reachable_valid cap s Hc Hr) as (Hv&Hh). split; [|done].
  by apply validate_state_Ok.
Qed.

Definition demo_state : state :=
  match transition initial_state "RESET_INTENT" (Some "WAL") 1 (Some 0) "op" 63 with
  | Ok s => s | Raise _ => initial_state end.

Lemma demo_reachable : reachable 63 demo_state.
Proof.
  apply (reachable_step 63 initial_state "RESET_INTENT" (Some "WAL") 1 (Some 0) "op");
    [constructor|by vm_compute].
Defined.

Lemma reachable_history_witness : validate_state demo_state 63 = Ok tt ∧ entry_history (WAL demo_state).
Proof.
  destruct (reachable_history 63 demo_state ltac:(lia) demo_reachable) as (H&_&Hw).
  split; [exact H|exact Hw].
Defined.

(** C23: reserved capacity is enough to retire.  From any state that passes
    the reservation check at a sequence number, there is a run of as many
    accepted records as are reserved, each passing the check at its own
    sequence number, after which nothing is reserved: every kind is idle. *)
Theorem reservations_suffice s seq l :
  assert_reservations s seq l = Ok tt →
  ∃ s', accepted_run l seq s (Z.to_nat (zsum (dict_values (reservations s)))) s' ∧
    active (JOURNAL s') = None ∧ pending (JOURNAL s') = None ∧
    active (WAL s') = None ∧ pending (WAL s') = None.
Proof.
  intros H. fold (reserved s).
  assert (Hn : reserved s = Z.of_nat (Z.to_nat (reserved s))).
  { rewrite reserved_split. pose proof (entry_reservation_nonneg (JOURNAL s)).
    pose proof (entry_reservation_nonneg (WAL s)). lia. }
  destruct (drain_run l _ seq s H Hn) as (s'&Hrun&Hz). exists s'. split; [done|].
  rewrite reserved_split in Hz. pose proof (entry_reservation_nonneg (JOURNAL s')).
  pose proof (entry_reservation_nonneg (WAL s')).
  assert (Hidle : ∀ e, entry_reservation e = 0 → active e = None ∧ pending e = None).
  { intros e. unfold entry_reservation. by repeat case_match. }
  destruct (Hidle (JOURNAL s') ltac:(lia)), (Hidle (WAL s') ltac:(lia)). done.
Qed.

Definition demo_limits : limits := Limits 256 256 1048576 524288 63.

Lemma reservations_suffice_witness :
  ∃ s', accepted_run demo_limits 2 demo_state 3 s' ∧ pending (WAL s') = None.
Proof.
  destruct (reservations_suffice demo_state 2 demo_limits ltac:(by vm_compute)) as (s'&H&_&_&_&Hp).
  exists s'. split; [exact H|exact Hp].
Defined.

(** Slot selection alternates.  For an idle kind of a reachable state,
    [select_slot] fails exactly when both slots are referenced; otherwise it
    returns an unreferenced slot, namely the one after the last used slot
    (slot 0 for a fresh kind) unless only the other one is free; and starting
    the next generation there is accepted while the generation cap allows. *)
Theorem select_slot_alternates cap s kind e referenced op :
  0 <= cap → reachable cap s → get_kind s kind = Some e → active e = None → pending e = None →
  let preferred := match last_slot e with Some i => 1 - i | None => 0 end in
  let free i := is_referenced kind i referenced = false in
  (¬ free 0 ∧ ¬ free 1 → select_slot s kind referenced = raise StateError "no unreferenced slot") ∧
  (free preferred → select_slot s kind referenced = Ok preferred) ∧
  (¬ free preferred → free (1 - preferred) → select_slot s kind referenced = Ok (1 - preferred)) ∧
  (∀ i, select_slot s kind referenced = Ok i → last_generation e < cap →
     is_ok (transition s "RESET_INTENT" (Some kind) (last_generation e + 1) (Some i) op cap) = true).
Proof.
  intros Hc Hr Hk Ha Hp preferred free.
  destruct (reachable_valid cap s Hc Hr) as (Hv&Hhj&Hhw).
  pose proof (get_kind_valid _ _ _ _ Hv Hk) as He.
  assert (Hh : entry_history e).
  { unfold get_kind in Hk. destruct (String.eqb kind "JOURNAL"); [by injection Hk as <-|].
    destruct (String.eqb kind "WAL"); [by injection Hk as <-|done]. }
  pose proof (λ i, eligible_spec cap e kind referenced i He Hh Ha Hp) as Hel.
  assert (Hpref : slot_index preferred ∧ slot_index (1 - preferred)).
  { unfold preferred, slot_index. destruct (last_slot e) as [i|] eqn:Hi; [|lia].
    destruct (ve_last_slot _ _ He i Hi); lia. }
  assert (Hsel : select_slot s kind referenced =
    match eligible_slots e kind referenced with
    | [] => raise StateError "no unreferenced slot"
    | (first :: _) as eligible => Ok (if bool_decide (preferred ∈ eligible) then preferred else first)
    end).
  { unfold select_slot. rewrite Hk, Ha, Hp. step. by destruct (eligible_slots e kind referenced). }
  rewrite Hsel. clear Hsel. set (el := eligible_slots e kind referenced) in *. split_and!.
  - intros [H0 H1]. destruct el as [|x el'] eqn:E; [done|].
    destruct (proj1 (Hel x) ltac:(left)) as [[-> | ->] Hx]; [by destruct H0|by destruct H1].
  - intros Hf. assert (Hin : preferred ∈ el) by (apply Hel; by split; [apply Hpref|]).
    destruct el; [by apply elem_of_nil in Hin|]. by rewrite bool_decide_true.
  - intros Hnf Hf. assert (Hin : 1 - preferred ∈ el) by (apply Hel; by split; [apply Hpref|]).
    destruct el as [|x el'] eqn:E; [by apply elem_of_nil in Hin|].
    rewrite bool_decide_false by (intros Hpe; by apply Hel in Hpe as [_ ?]). f_equal.
    destruct (proj1 (Hel x) ltac:(left)) as [Hx Hxf].
    destruct Hpref as [[Hp0|Hp0] _], Hx as [-> | ->]; rewrite Hp0 in *; (done || by destruct Hnf).
  - intros i Hi Hlt. assert (Hin : i ∈ el).
    { destruct el as [|x el'] eqn:E; [done|]. case_bool_decide; injection Hi as <-; [done|left]. }
    apply Hel in Hin as [Hii _]. destruct (slot_at_index cap e i He Hii) as [sl Hsl].
    rewrite (transition_entry cap s _ kind _ i op e) by done.
    pose proof (idle_reusable e i sl Hh Ha Hp Hii Hsl) as Hreu. unfold reusable in Hreu.
    apply orb_true_iff in Hreu. rewrite !bool_decide_eq_true in Hreu.
    rewrite (proj2 (entry_transition_step cap e "RESET_INTENT" _ i op _ He Hii)
      (step_intent cap e _ i op sl Ha Hp eq_refl ltac:(lia) Hsl Hreu)). done.
Qed.

Lemma select_slot_alternates_witness :
  select_slot initial_state "JOURNAL" [("JOURNAL", 7, 0)] = Ok 1.
Proof.
  apply (proj1 (proj2 (proj2 (select_slot_alternates 63 initial_state "JOURNAL" initial_entry
    [("JOURNAL", 7, 0)] "op" ltac:(lia) (reachable_initial 63) eq_refl eq_refl eq_refl)))); by vm_compute.
Defined.
