(* ===== verification/ReconModels.v ===== *)
(** * Reconciliation: domain models

    [reconciliation/models.py]: the statuses and reason codes, the statement
    rows and the internal candidates with the validation their constructors
    run, the matching helpers (dates, amounts, currencies, merchants).
    The tables of the review queue are in the file ReviewModels.  Enumerations are Modules with the
    source's members, so [MatchStatus.MATCHED] reads as in Python. *)

From Stdlib Require Import Ascii ZArith SpecFloat QArith Lia.
From stdpp Require Import base gmap sets strings sorting numbers list.
From S2P Require Import Prelude PyDecimal PyValue Hash Json PyDate PyFloat.

Open Scope Z_scope.

(** ** Enumerations *)

Module MatchStatus.

Inductive t :=
  | MATCHED | NO_MATCH | AMOUNT_MISMATCH | CURRENCY_MISMATCH | DATE_MISMATCH | MERCHANT_MISMATCH
  | POSSIBLE_DUPLICATE | AMBIGUOUS | NEEDS_REVIEW.

#[global] Instance eq_dec : EqDecision t.
Proof. solve_decision. Defined.

Definition value (x : t) : string :=
  match x with
  | MATCHED => "matched"
  | NO_MATCH => "no_match"
  | AMOUNT_MISMATCH => "amount_mismatch"
  | CURRENCY_MISMATCH => "currency_mismatch"
  | DATE_MISMATCH => "date_mismatch"
  | MERCHANT_MISMATCH => "merchant_mismatch"
  | POSSIBLE_DUPLICATE => "possible_duplicate"
  | AMBIGUOUS => "ambiguous"
  | NEEDS_REVIEW => "needs_review"
  end.

Definition members : list t :=
  [MATCHED; NO_MATCH; AMOUNT_MISMATCH; CURRENCY_MISMATCH; DATE_MISMATCH; MERCHANT_MISMATCH;
   POSSIBLE_DUPLICATE; AMBIGUOUS; NEEDS_REVIEW].

End MatchStatus.

Module ReasonCode.

Inductive t :=
  | EXACT_AMOUNT_MATCH | SAME_CURRENCY | TRANSACTION_DATE_WITHIN_TOLERANCE
  | POSTED_DATE_WITHIN_TOLERANCE | POSTED_DATE_WINDOW_MATCH | MERCHANT_EXACT_MATCH
  | MERCHANT_NORMALIZED_MATCH | MERCHANT_SIMILARITY_MATCH | DIRECTION_TYPE_COMPATIBLE
  | AMOUNT_DIFFERS | CURRENCY_DIFFERS | OUTSIDE_DATE_TOLERANCE | NO_CANDIDATE_FOUND
  | WEAK_MERCHANT_MATCH | MISSING_STATEMENT_DATE | MISSING_INTERNAL_DATE
  | MULTIPLE_CANDIDATE_MATCHES | NEEDS_REVIEW | MISSING_DIRECTION | UNKNOWN_DIRECTION
  | DIRECTION_TYPE_INCOMPATIBLE | UNKNOWN_TRANSACTION_TYPE | AMOUNT_SIGN_CONTRADICTION
  | ZERO_AMOUNT_REQUIRES_REVIEW | INVALID_SOURCE_IDENTITY.

#[global] Instance eq_dec : EqDecision t.
Proof. solve_decision. Defined.

Definition value (x : t) : string :=
  match x with
  | EXACT_AMOUNT_MATCH => "exact_amount_match"
  | SAME_CURRENCY => "same_currency"
  | TRANSACTION_DATE_WITHIN_TOLERANCE => "transaction_date_within_tolerance"
  | POSTED_DATE_WITHIN_TOLERANCE => "posted_date_within_tolerance"
  | POSTED_DATE_WINDOW_MATCH => "posted_date_window_match"
  | MERCHANT_EXACT_MATCH => "merchant_exact_match"
  | MERCHANT_NORMALIZED_MATCH => "merchant_normalized_match"
  | MERCHANT_SIMILARITY_MATCH => "merchant_similarity_match"
  | DIRECTION_TYPE_COMPATIBLE => "direction_type_compatible"
  | AMOUNT_DIFFERS => "amount_differs"
  | CURRENCY_DIFFERS => "currency_differs"
  | OUTSIDE_DATE_TOLERANCE => "outside_date_tolerance"
  | NO_CANDIDATE_FOUND => "no_candidate_found"
  | WEAK_MERCHANT_MATCH => "weak_merchant_match"
  | MISSING_STATEMENT_DATE => "missing_statement_date"
  | MISSING_INTERNAL_DATE => "missing_internal_date"
  | MULTIPLE_CANDIDATE_MATCHES => "multiple_candidate_matches"
  | NEEDS_REVIEW => "needs_review"
  | MISSING_DIRECTION => "missing_direction"
  | UNKNOWN_DIRECTION => "unknown_direction"
  | DIRECTION_TYPE_INCOMPATIBLE => "direction_type_incompatible"
  | UNKNOWN_TRANSACTION_TYPE => "unknown_transaction_type"
  | AMOUNT_SIGN_CONTRADICTION => "amount_sign_contradiction"
  | ZERO_AMOUNT_REQUIRES_REVIEW => "zero_amount_requires_review"
  | INVALID_SOURCE_IDENTITY => "invalid_source_identity"
  end.

Definition members : list t :=
  [EXACT_AMOUNT_MATCH; SAME_CURRENCY; TRANSACTION_DATE_WITHIN_TOLERANCE;
   POSTED_DATE_WITHIN_TOLERANCE; POSTED_DATE_WINDOW_MATCH; MERCHANT_EXACT_MATCH;
   MERCHANT_NORMALIZED_MATCH; MERCHANT_SIMILARITY_MATCH; DIRECTION_TYPE_COMPATIBLE;
   AMOUNT_DIFFERS; CURRENCY_DIFFERS; OUTSIDE_DATE_TOLERANCE; NO_CANDIDATE_FOUND;
   WEAK_MERCHANT_MATCH; MISSING_STATEMENT_DATE; MISSING_INTERNAL_DATE;
   MULTIPLE_CANDIDATE_MATCHES; NEEDS_REVIEW; MISSING_DIRECTION; UNKNOWN_DIRECTION;
   DIRECTION_TYPE_INCOMPATIBLE; UNKNOWN_TRANSACTION_TYPE; AMOUNT_SIGN_CONTRADICTION;
   ZERO_AMOUNT_REQUIRES_REVIEW; INVALID_SOURCE_IDENTITY].

End ReasonCode.

Module StatementAmountDirection.

Inductive t :=
  | DEBIT | CREDIT | REFUND | REVERSAL | PAYMENT | FEE | INTEREST | CHARGEBACK | CARD_PAYMENT
  | TRANSFER_IN | TRANSFER_OUT | INTEREST_DEBIT | INTEREST_CREDIT | CASH_WITHDRAWAL
  | CASH_DEPOSIT | UNKNOWN.

#[global] Instance eq_dec : EqDecision t.
Proof. solve_decision. Defined.

Definition value (x : t) : string :=
  match x with
  | DEBIT => "debit"
  | CREDIT => "credit"
  | REFUND => "refund"
  | REVERSAL => "reversal"
  | PAYMENT => "payment"
  | FEE => "fee"
  | INTEREST => "interest"
  | CHARGEBACK => "chargeback"
  | CARD_PAYMENT => "card_payment"
  | TRANSFER_IN => "transfer_in"
  | TRANSFER_OUT => "transfer_out"
  | INTEREST_DEBIT => "interest_debit"
  | INTEREST_CREDIT => "interest_credit"
  | CASH_WITHDRAWAL => "cash_withdrawal"
  | CASH_DEPOSIT => "cash_deposit"
  | UNKNOWN => "unknown"
  end.

Definition members : list t :=
  [DEBIT; CREDIT; REFUND; REVERSAL; PAYMENT; FEE; INTEREST; CHARGEBACK; CARD_PAYMENT;
   TRANSFER_IN; TRANSFER_OUT; INTEREST_DEBIT; INTEREST_CREDIT; CASH_WITHDRAWAL; CASH_DEPOSIT;
   UNKNOWN].

(** [StatementAmountDirection(text)]; [None] where the enumeration raises [ValueError]. *)
Definition of_value (s : string) : option t :=
  snd <$> list_find (λ x, value x = s) members.

End StatementAmountDirection.

Module ReconciliationTransactionType.

Inductive t :=
  | EXPENSE | INCOME | REFUND | REVERSAL | CHARGEBACK | CARD_PAYMENT | TRANSFER_IN | TRANSFER_OUT
  | FEE | INTEREST_DEBIT | INTEREST_CREDIT | CASH_WITHDRAWAL | CASH_DEPOSIT | UNKNOWN.

#[global] Instance eq_dec : EqDecision t.
Proof. solve_decision. Defined.

Definition value (x : t) : string :=
  match x with
  | EXPENSE => "expense"
  | INCOME => "income"
  | REFUND => "refund"
  | REVERSAL => "reversal"
  | CHARGEBACK => "chargeback"
  | CARD_PAYMENT => "card_payment"
  | TRANSFER_IN => "transfer_in"
  | TRANSFER_OUT => "transfer_out"
  | FEE => "fee"
  | INTEREST_DEBIT => "interest_debit"
  | INTEREST_CREDIT => "interest_credit"
  | CASH_WITHDRAWAL => "cash_withdrawal"
  | CASH_DEPOSIT => "cash_deposit"
  | UNKNOWN => "unknown"
  end.

Definition members : list t :=
  [EXPENSE; INCOME; REFUND; REVERSAL; CHARGEBACK; CARD_PAYMENT; TRANSFER_IN; TRANSFER_OUT; FEE;
   INTEREST_DEBIT; INTEREST_CREDIT; CASH_WITHDRAWAL; CASH_DEPOSIT; UNKNOWN].

End ReconciliationTransactionType.

Module IssueType.

Inductive t :=
  | MATCHED | AMOUNT_MISMATCH | CURRENCY_MISMATCH | DATE_MISMATCH | MERCHANT_MISMATCH
  | MISSING_IN_APP | MISSING_IN_STATEMENT | DATE_WINDOW_MATCH | MERCHANT_VARIATION
  | LOW_CONFIDENCE_MATCH | POSSIBLE_DUPLICATE | NEEDS_REVIEW.

#[global] Instance eq_dec : EqDecision t.
Proof. solve_decision. Defined.

Definition value (x : t) : string :=
  match x with
  | MATCHED => "matched"
  | AMOUNT_MISMATCH => "amount_mismatch"
  | CURRENCY_MISMATCH => "currency_mismatch"
  | DATE_MISMATCH => "date_mismatch"
  | MERCHANT_MISMATCH => "merchant_mismatch"
  | MISSING_IN_APP => "missing_in_app"
  | MISSING_IN_STATEMENT => "missing_in_statement"
  | DATE_WINDOW_MATCH => "date_window_match"
  | MERCHANT_VARIATION => "merchant_variation"
  | LOW_CONFIDENCE_MATCH => "low_confidence_match"
  | POSSIBLE_DUPLICATE => "possible_duplicate"
  | NEEDS_REVIEW => "needs_review"
  end.

Definition members : list t :=
  [MATCHED; AMOUNT_MISMATCH; CURRENCY_MISMATCH; DATE_MISMATCH; MERCHANT_MISMATCH; MISSING_IN_APP;
   MISSING_IN_STATEMENT; DATE_WINDOW_MATCH; MERCHANT_VARIATION; LOW_CONFIDENCE_MATCH;
   POSSIBLE_DUPLICATE; NEEDS_REVIEW].

End IssueType.

Module SuggestedAction.

Inductive t :=
  | CONFIRM_MATCH | ADJUST_APP_TRANSACTION | CREATE_MISSING_APP_TRANSACTION | MARK_STATEMENT_ONLY
  | MARK_DUPLICATE | IGNORE | NEEDS_MORE_INFO.

#[global] Instance eq_dec : EqDecision t.
Proof. solve_decision. Defined.

Definition value (x : t) : string :=
  match x with
  | CONFIRM_MATCH => "confirm_match"
  | ADJUST_APP_TRANSACTION => "adjust_app_transaction"
  | CREATE_MISSING_APP_TRANSACTION => "create_missing_app_transaction"
  | MARK_STATEMENT_ONLY => "mark_statement_only"
  | MARK_DUPLICATE => "mark_duplicate"
  | IGNORE => "ignore"
  | NEEDS_MORE_INFO => "needs_more_info"
  end.

Definition members : list t :=
  [CONFIRM_MATCH; ADJUST_APP_TRANSACTION; CREATE_MISSING_APP_TRANSACTION; MARK_STATEMENT_ONLY;
   MARK_DUPLICATE; IGNORE; NEEDS_MORE_INFO].

End SuggestedAction.

Module ReviewPriority.

Inductive t :=
  | HIGH | MEDIUM | LOW.

#[global] Instance eq_dec : EqDecision t.
Proof. solve_decision. Defined.

Definition value (x : t) : string :=
  match x with
  | HIGH => "high"
  | MEDIUM => "medium"
  | LOW => "low"
  end.

Definition members : list t :=
  [HIGH; MEDIUM; LOW].

End ReviewPriority.

Module ResolutionAction.

Inductive t :=
  | CONFIRM_MATCH | ADJUST_APP_TRANSACTION | CREATE_MISSING_APP_TRANSACTION | MARK_STATEMENT_ONLY
  | MARK_DUPLICATE | IGNORE | NEEDS_MORE_INFO.

#[global] Instance eq_dec : EqDecision t.
Proof. solve_decision. Defined.

Definition value (x : t) : string :=
  match x with
  | CONFIRM_MATCH => "confirm_match"
  | ADJUST_APP_TRANSACTION => "adjust_app_transaction"
  | CREATE_MISSING_APP_TRANSACTION => "create_missing_app_transaction"
  | MARK_STATEMENT_ONLY => "mark_statement_only"
  | MARK_DUPLICATE => "mark_duplicate"
  | IGNORE => "ignore"
  | NEEDS_MORE_INFO => "needs_more_info"
  end.

Definition members : list t :=
  [CONFIRM_MATCH; ADJUST_APP_TRANSACTION; CREATE_MISSING_APP_TRANSACTION; MARK_STATEMENT_ONLY;
   MARK_DUPLICATE; IGNORE; NEEDS_MORE_INFO].

End ResolutionAction.

Module BatchApplyState.

Inductive t :=
  | PENDING | APPLYING | APPLIED | FAILED | REJECTED.

#[global] Instance eq_dec : EqDecision t.
Proof. solve_decision. Defined.

Definition value (x : t) : string :=
  match x with
  | PENDING => "pending"
  | APPLYING => "applying"
  | APPLIED => "applied"
  | FAILED => "failed"
  | REJECTED => "rejected"
  end.

End BatchApplyState.

(** ** Statement rows and candidates *)

Record StatementTransaction := MkStatement {
  st_transaction_date : option date;
  st_posted_date : option date;
  st_merchant_raw : string;
  st_merchant_normalized : option string;
  st_amount : option fdec;
  st_currency : option string;
  st_account_name : option string;
  st_account_id : option string;
  st_source_batch_id : option string;
  st_statement_row_reference : option string;
  st_public_id : option string;
  st_row_fingerprint : option string;
  st_source_content_hash : option string;
  st_amount_direction : option StatementAmountDirection.t;
  st_raw_amount : option string;
  st_raw_amount_type : option string;
}.

Definition dec_zero : fdec := dec_of_Z 0.

(** The amount a statement row may carry. *)
Definition check_statement_amount (amount : pyval) : result (option fdec) :=
  match amount with
  | VNone => Ok None
  | VDec (DFin d) =>
      if dec_ltb d dec_zero then raise ValueError "amount must be zero or positive" else Ok (Some d)
  | VDec _ => raise ValueError "amount must be finite"
  | _ => raise TypeError "amount must be Decimal or None"
  end.

(** A member of the enumeration is itself a [str]: its own value. *)
Definition check_statement_direction (direction : pyval) : result (option StatementAmountDirection.t) :=
  match direction with
  | VNone => Ok None
  | VStr s =>
      match StatementAmountDirection.of_value (py_lower (py_strip s)) with
      | Some d => Ok (Some d)
      | None => raise ValueError "invalid statement amount direction"
      end
  | _ => raise TypeError "amount_direction"
  end.

(** The constructor, with [__post_init__]. *)
Definition StatementTransaction_new (transaction_date posted_date : option date)
    (merchant_raw : string) (merchant_normalized : option string) (amount : pyval)
    (currency account_name account_id source_batch_id statement_row_reference public_id
     row_fingerprint source_content_hash : option string) (amount_direction : pyval)
    (raw_amount raw_amount_type : option string) : result StatementTransaction :=
  amount ← check_statement_amount amount;
  amount_direction ← check_statement_direction amount_direction;
  raise_when (match source_content_hash with Some h => negb (is_sha256 h) | None => false end)
    ValueError "source_content_hash";;
  Ok (MkStatement transaction_date posted_date merchant_raw merchant_normalized amount currency
        account_name account_id source_batch_id statement_row_reference public_id row_fingerprint
        source_content_hash amount_direction raw_amount raw_amount_type).

(** [ReconciliationTransactionType | str]. *)
Inductive type_hint :=
  | HintType (t : ReconciliationTransactionType.t)
  | HintText (s : string).

Record InternalCandidate := MkCandidate {
  ic_internal_id : string;
  ic_transaction_date : date;
  ic_merchant : string;
  ic_amount : fdec;
  ic_currency : string;
  ic_source_type : option string;
  ic_source_channel : option string;
  ic_attachment_path : option string;
  ic_evidence_reference : option string;
  ic_transaction_type : option type_hint;
  ic_posted_date : option date;
}.

Definition check_candidate_amount (amount : pyval) : result fdec :=
  match amount with
  | VDec (DFin d) =>
      if dec_leb d dec_zero then raise ValueError "candidate amount must be positive" else Ok d
  | VDec _ => raise ValueError "candidate amount must be finite"
  | _ => raise TypeError "candidate amount must be Decimal"
  end.

Definition InternalCandidate_new (internal_id : string) (transaction_date : date)
    (merchant : string) (amount : pyval) (currency : string)
    (source_type source_channel attachment_path evidence_reference : option string)
    (transaction_type : option type_hint) (posted_date : option date) : result InternalCandidate :=
  raise_when (str_empty (py_strip internal_id)) ValueError "candidate identity must not be empty";;
  amount ← check_candidate_amount amount;
  Ok (MkCandidate internal_id transaction_date merchant amount currency source_type source_channel
        attachment_path evidence_reference transaction_type posted_date).

Record MatchEvidence := MkEvidence {
  ev_statement_amount : option fdec;
  ev_candidate_amount : option fdec;
  ev_statement_currency : option string;
  ev_candidate_currency : option string;
  ev_statement_txn_date : option date;
  ev_statement_posted_date : option date;
  ev_candidate_txn_date : option date;
  ev_date_delta_days : option Z;
  ev_date_tolerance_days : Z;
  ev_statement_merchant : option string;
  ev_candidate_merchant : option string;
  ev_statement_merchant_normalized : option string;
  ev_candidate_merchant_normalized : option string;
  ev_merchant_similarity : option spec_float;
  ev_candidate_count : Z;
  ev_statement_direction : option string;
  ev_candidate_transaction_type : option string;
  ev_original_amount_text : option string;
  ev_original_amount_sign : option string;
  ev_compatibility_result : option string;
  ev_hard_gate_results : list string;
}.

Record MatchResult := MkResult {
  mr_status : MatchStatus.t;
  mr_reasons : list ReasonCode.t;
  mr_evidence : MatchEvidence;
  mr_statement : option StatementTransaction;
  mr_best_candidate : option InternalCandidate;
  mr_candidates : list InternalCandidate;
  mr_decision_hash : option string;
  mr_decision_material_json : option string;
  mr_candidate_set_fingerprint : option string;
  mr_decision_contract_version : option string;
  mr_matcher_version : option string;
  mr_compatibility_version : option string;
  mr_merchant_normalization_version : option string;
  mr_authorization_public_id : option string;
}.

(** A result before its decision hash is attached. *)
Definition MatchResult_new (status : MatchStatus.t) (reasons : list ReasonCode.t)
    (evidence : MatchEvidence) (statement : StatementTransaction)
    (best_candidate : option InternalCandidate) (candidates : list InternalCandidate) : MatchResult :=
  MkResult status reasons evidence (Some statement) best_candidate candidates
    None None None None None None None None.

Definition MatchResult_is_matched (r : MatchResult) : bool :=
  bool_decide (mr_status r = MatchStatus.MATCHED).
Definition MatchResult_needs_review (r : MatchResult) : bool :=
  bool_decide (mr_status r ∈
    [MatchStatus.NEEDS_REVIEW; MatchStatus.AMBIGUOUS; MatchStatus.POSSIBLE_DUPLICATE]).

(** ** Merchants *)

Definition MERCHANT_ALIAS_MAP : pydict string :=
  [("apple.com/bill", "apple"); ("apple", "apple"); ("google", "google");
   ("google play", "google"); ("google *youtube", "google"); ("netflix", "netflix");
   ("netflix.com", "netflix"); ("spotify", "spotify"); ("spotify usa", "spotify");
   ("uber", "uber"); ("uber trip", "uber"); ("uber eats", "uber"); ("grab", "grab");
   ("grab taxi", "grab"); ("grab food", "grab"); ("foodpanda", "foodpanda");
   ("foodpanda sg", "foodpanda"); ("shopee", "shopee"); ("shopee pay", "shopee");
   ("lazada", "lazada"); ("lazada sg", "lazada"); ("amazon", "amazon");
   ("amazon prime", "amazon"); ("amazon web services", "amazon"); ("aws", "amazon")].

Definition normalize_merchant (raw : string) : string :=
  let key := py_lower (py_strip raw) in
  match dict_get key MERCHANT_ALIAS_MAP with Some v => v | None => key end.

Definition merchant_tokens (s : string) : gset string := list_to_set (py_split (py_lower s)).

Definition merchant_similarity (a b : string) : spec_float :=
  let tokens_a := merchant_tokens a in
  let tokens_b := merchant_tokens b in
  if bool_decide (tokens_a = ∅) || bool_decide (tokens_b = ∅) then S754_zero false
  else float_of_ratio (Z.of_nat (size (tokens_a ∩ tokens_b))) (Z.of_nat (size (tokens_a ∪ tokens_b))).

(** ** Dates, amounts and currencies *)

Definition date_delta (a b : date) : Z := Z.abs (days_between a b).

Record DateMatchResult := MkDateMatch {
  dm_matched : bool;
  dm_matched_on : string;
  dm_day_delta : option Z;
}.

Definition match_date_window (app_date : date)
    (statement_transaction_date statement_posted_date : option date)
    (date_tolerance_days posted_date_window_days : Z) : DateMatchResult :=
  match statement_transaction_date with
  | Some d =>
      if bool_decide (app_date = d) then MkDateMatch true "transaction_date" (Some 0)
      else MkDateMatch false "none" (Some (Z.abs (days_between app_date d)))
  | None =>
      match statement_posted_date with
      | Some d =>
          let signed_delta := days_between d app_date in
          let abs_delta := Z.abs signed_delta in
          if signed_delta <? 0 then MkDateMatch false "none" (Some abs_delta)
          else if signed_delta =? 0 then MkDateMatch true "posted_date" (Some 0)
          else if signed_delta <=? posted_date_window_days then
            MkDateMatch true "posted_date_window" (Some abs_delta)
          else MkDateMatch false "none" (Some abs_delta)
      | None => MkDateMatch false "none" None
      end
  end.

Definition amount_exact_match (statement_amount candidate_amount : fdec) : bool :=
  dec_eqb statement_amount candidate_amount.

Definition currency_match (statement_currency candidate_currency : option string) : bool :=
  match statement_currency, candidate_currency with
  | Some s, Some c => String.eqb (py_upper (py_strip s)) (py_upper (py_strip c))
  | _, _ => false
  end.

Definition hash_result (r : MatchResult) : string :=
  match mr_decision_hash r with
  | Some h => h
  | None =>
      let payload := JDict
        [("status", JStr (MatchStatus.value (mr_status r)));
         ("reasons", JList ((λ x, JStr (ReasonCode.value x)) <$> mr_reasons r));
         ("best_candidate_id", opt_json (λ c, JStr (ic_internal_id c)) (mr_best_candidate r))] in
      hexdigest (sha256 (encode (canonical payload)))
  end.

(** ** App transactions and batch candidates *)

Record AppTransaction := MkApp {
  app_txn_id : string;
  app_transaction_date : date;
  app_merchant : string;
  app_amount : decimal;
  app_currency : string;
  app_source_type : option string;
  app_source_channel : option string;
  app_normalized_merchant : option string;
  app_posted_date : option date;
  app_transaction_type : option type_hint;
}.

(** [amount <= 0] of an arbitrary decimal; comparing a NaN is invalid. *)
Definition decimal_le_zero (d : decimal) : result bool :=
  match d with
  | DFin d => Ok (dec_leb d dec_zero)
  | DInf s => Ok s
  | DNaN _ _ => raise InvalidOperation "NaN <= 0"
  end.

Definition AppTransaction_new (id : string) (transaction_date : date) (merchant : string)
    (amount : decimal) (currency : string)
    (source_type source_channel normalized_merchant : option string) (posted_date : option date)
    (transaction_type : option type_hint) : result AppTransaction :=
  le ← decimal_le_zero amount;
  raise_when le ValueError "AppTransaction amount must be positive";;
  Ok (MkApp id transaction_date merchant amount currency source_type source_channel
        normalized_merchant posted_date transaction_type).

Record ReconciliationCandidate := MkRecon {
  rc_statement : StatementTransaction;
  rc_best_app_transaction : option AppTransaction;
  rc_all_app_transactions : list AppTransaction;
  rc_match_status : MatchStatus.t;
  rc_reason_codes : list ReasonCode.t;
  rc_issue_type : IssueType.t;
  rc_confidence_score : fdec;
  rc_evidence : option MatchEvidence;
  rc_candidate_id : string;
  rc_review_priority : ReviewPriority.t;
  rc_is_review_required : bool;
}.

(** The constructor with its default [review_priority] and
    [is_review_required]. *)
Definition ReconciliationCandidate_new statement best all status reasons issue confidence evidence
    candidate_id : ReconciliationCandidate :=
  MkRecon statement best all status reasons issue confidence evidence candidate_id
    ReviewPriority.LOW true.

Definition ReconciliationCandidate_is_matched (c : ReconciliationCandidate) : bool :=
  bool_decide (rc_match_status c = MatchStatus.MATCHED).
Definition ReconciliationCandidate_needs_review (c : ReconciliationCandidate) : bool :=
  negb (bool_decide (rc_issue_type c = IssueType.MATCHED)).

