(* ===== verification/ReconDecision.v ===== *)
(** * Reconciliation: gates and decision records

    [reconciliation/decision.py]: the direction compatibility of a statement
    row and a candidate, the hard gates a candidate passes one by one
    ([evaluate_candidate]), the checks on the row itself
    ([statement_precheck]) and the hashed record of a decision
    ([build_decision_record]). *)

From Stdlib Require Import Ascii ZArith SpecFloat QArith Lia.
From stdpp Require Import base gmap sets strings sorting numbers list.
From S2P Require Import Prelude PyDecimal PyValue Hash Money Json PyDate PyFloat ReconModels.

Open Scope Z_scope.

Definition DECISION_CONTRACT_VERSION : string := "reconciliation-decision-v1".
Definition MATCHER_VERSION : string := "reconciliation-matcher-v2".
Definition COMPATIBILITY_VERSION : string := "reconciliation-direction-compatibility-v1".
Definition MERCHANT_NORMALIZATION_VERSION : string := "merchant-normalization-v1".
Definition CANDIDATE_SET_VERSION : string := "reconciliation-candidate-set-v1".
Definition DECISION_HASH_DOMAIN : string := "finance-reconciliation-decision-v1".
Definition CANDIDATE_HASH_DOMAIN : string := "finance-reconciliation-candidate-set-v1".
Definition STATEMENT_ID_DOMAIN : string := "finance-reconciliation-statement-identity-v1".

Module CompatibilityResult.

Inductive t :=
  | COMPATIBLE | INCOMPATIBLE | REVIEW_REQUIRED.

#[global] Instance eq_dec : EqDecision t.
Proof. solve_decision. Defined.

Definition value (x : t) : string :=
  match x with
  | COMPATIBLE => "compatible"
  | INCOMPATIBLE => "incompatible"
  | REVIEW_REQUIRED => "review_required"
  end.

End CompatibilityResult.

Module OriginalAmountSign.

Inductive t :=
  | POSITIVE | NEGATIVE | ZERO | MISSING.

#[global] Instance eq_dec : EqDecision t.
Proof. solve_decision. Defined.

Definition value (x : t) : string :=
  match x with
  | POSITIVE => "positive"
  | NEGATIVE => "negative"
  | ZERO => "zero"
  | MISSING => "missing"
  end.

End OriginalAmountSign.

Record DirectionCompatibility := MkCompat {
  dc_result : CompatibilityResult.t;
  dc_reason_code : ReasonCode.t;
  dc_transaction_type : ReconciliationTransactionType.t;
}.

Record CandidateEvaluation := MkEval {
  ce_candidate : InternalCandidate;
  ce_transaction_type : ReconciliationTransactionType.t;
  ce_compatibility : CompatibilityResult.t;
  ce_compatibility_reason : ReasonCode.t;
  ce_hard_gate_results : list string;
  ce_date_result : option DateMatchResult;
  ce_statement_merchant_normalized : option string;
  ce_candidate_merchant_normalized : option string;
  ce_merchant_similarity_score : option fdec;
  ce_merchant_exact : bool;
  ce_merchant_normalized_match : bool;
  ce_eligible : bool;
}.

(** An evaluation that stopped before the merchant comparison. *)
Definition evaluation_stopped (candidate : InternalCandidate)
    (transaction_type : ReconciliationTransactionType.t) (compatibility : CompatibilityResult.t)
    (reason : ReasonCode.t) (gates : list string) (date_result : option DateMatchResult) :
    CandidateEvaluation :=
  MkEval candidate transaction_type compatibility reason gates date_result None None None
    false false false.

Record DecisionRecord := MkDecision {
  dr_decision_hash : string;
  dr_decision_material_json : string;
  dr_candidate_set_fingerprint : string;
}.

(** ** Direction compatibility *)

Definition INTENT_TYPE_MAP : pydict ReconciliationTransactionType.t :=
  [("expense", ReconciliationTransactionType.EXPENSE);
   ("personal_expense", ReconciliationTransactionType.EXPENSE);
   ("personal_expense_log", ReconciliationTransactionType.EXPENSE);
   ("simple_expense", ReconciliationTransactionType.EXPENSE);
   ("simple_expense_log", ReconciliationTransactionType.EXPENSE);
   ("shared_expense", ReconciliationTransactionType.EXPENSE);
   ("shared_expense_log", ReconciliationTransactionType.EXPENSE);
   ("income", ReconciliationTransactionType.INCOME);
   ("reimbursement_received", ReconciliationTransactionType.INCOME);
   ("dividend_income", ReconciliationTransactionType.INCOME);
   ("refund", ReconciliationTransactionType.REFUND);
   ("reversal", ReconciliationTransactionType.REVERSAL);
   ("chargeback", ReconciliationTransactionType.CHARGEBACK);
   ("card_payment", ReconciliationTransactionType.CARD_PAYMENT);
   ("payment", ReconciliationTransactionType.CARD_PAYMENT);
   ("transfer_in", ReconciliationTransactionType.TRANSFER_IN);
   ("transfer_out", ReconciliationTransactionType.TRANSFER_OUT);
   ("fee", ReconciliationTransactionType.FEE);
   ("investment_fee", ReconciliationTransactionType.FEE);
   ("interest_debit", ReconciliationTransactionType.INTEREST_DEBIT);
   ("interest_credit", ReconciliationTransactionType.INTEREST_CREDIT);
   ("cash_withdrawal", ReconciliationTransactionType.CASH_WITHDRAWAL);
   ("cash_deposit", ReconciliationTransactionType.CASH_DEPOSIT);
   ("unknown", ReconciliationTransactionType.UNKNOWN)].

Definition COMPATIBILITY_MATRIX (direction : StatementAmountDirection.t) :
    list ReconciliationTransactionType.t :=
  match direction with
  | StatementAmountDirection.DEBIT => [ReconciliationTransactionType.EXPENSE]
  | StatementAmountDirection.CREDIT => [ReconciliationTransactionType.INCOME]
  | StatementAmountDirection.REFUND => [ReconciliationTransactionType.REFUND]
  | StatementAmountDirection.REVERSAL => [ReconciliationTransactionType.REVERSAL]
  | StatementAmountDirection.CHARGEBACK => [ReconciliationTransactionType.CHARGEBACK]
  | StatementAmountDirection.PAYMENT => [ReconciliationTransactionType.CARD_PAYMENT]
  | StatementAmountDirection.CARD_PAYMENT => [ReconciliationTransactionType.CARD_PAYMENT]
  | StatementAmountDirection.TRANSFER_IN => [ReconciliationTransactionType.TRANSFER_IN]
  | StatementAmountDirection.TRANSFER_OUT => [ReconciliationTransactionType.TRANSFER_OUT]
  | StatementAmountDirection.FEE => [ReconciliationTransactionType.FEE]
  | StatementAmountDirection.INTEREST_DEBIT => [ReconciliationTransactionType.INTEREST_DEBIT]
  | StatementAmountDirection.INTEREST_CREDIT => [ReconciliationTransactionType.INTEREST_CREDIT]
  | StatementAmountDirection.CASH_WITHDRAWAL => [ReconciliationTransactionType.CASH_WITHDRAWAL]
  | StatementAmountDirection.CASH_DEPOSIT => [ReconciliationTransactionType.CASH_DEPOSIT]
  | _ => []
  end.

Definition OUTGOING_DIRECTIONS : list StatementAmountDirection.t :=
  [StatementAmountDirection.DEBIT;
   StatementAmountDirection.PAYMENT;
   StatementAmountDirection.CARD_PAYMENT;
   StatementAmountDirection.TRANSFER_OUT;
   StatementAmountDirection.FEE;
   StatementAmountDirection.INTEREST_DEBIT;
   StatementAmountDirection.CASH_WITHDRAWAL].

Definition INCOMING_DIRECTIONS : list StatementAmountDirection.t :=
  [StatementAmountDirection.CREDIT;
   StatementAmountDirection.REFUND;
   StatementAmountDirection.REVERSAL;
   StatementAmountDirection.CHARGEBACK;
   StatementAmountDirection.TRANSFER_IN;
   StatementAmountDirection.INTEREST_CREDIT;
   StatementAmountDirection.CASH_DEPOSIT].

Definition normalize_transaction_type (candidate : InternalCandidate) :
    ReconciliationTransactionType.t :=
  let raw := match ic_transaction_type candidate with
             | Some t => Some t
             | None => HintText <$> ic_source_type candidate
             end in
  match raw with
  | Some (HintType t) => t
  | None => ReconciliationTransactionType.UNKNOWN
  | Some (HintText s) =>
      if str_empty (py_strip s) then ReconciliationTransactionType.UNKNOWN
      else match dict_get (py_lower (py_strip s)) INTENT_TYPE_MAP with
           | Some t => t
           | None => ReconciliationTransactionType.UNKNOWN
           end
  end.

Definition check_direction_compatibility (direction : option StatementAmountDirection.t)
    (candidate : InternalCandidate) : DirectionCompatibility :=
  let transaction_type := normalize_transaction_type candidate in
  match direction with
  | None => MkCompat CompatibilityResult.REVIEW_REQUIRED ReasonCode.MISSING_DIRECTION transaction_type
  | Some direction =>
      if bool_decide (direction ∈ [StatementAmountDirection.UNKNOWN; StatementAmountDirection.INTEREST])
      then MkCompat CompatibilityResult.REVIEW_REQUIRED ReasonCode.UNKNOWN_DIRECTION transaction_type
      else if bool_decide (transaction_type = ReconciliationTransactionType.UNKNOWN) then
        MkCompat CompatibilityResult.REVIEW_REQUIRED ReasonCode.UNKNOWN_TRANSACTION_TYPE
          transaction_type
      else if bool_decide (transaction_type ∈ COMPATIBILITY_MATRIX direction) then
        MkCompat CompatibilityResult.COMPATIBLE ReasonCode.DIRECTION_TYPE_COMPATIBLE transaction_type
      else
        MkCompat CompatibilityResult.INCOMPATIBLE ReasonCode.DIRECTION_TYPE_INCOMPATIBLE
          transaction_type
  end.

(** ** The statement row *)

Definition amount_is_zero (amount : option fdec) : bool :=
  match amount with Some d => dec_eqb d dec_zero | None => false end.

(** [s.startswith(c)] and [s.endswith(c)]. *)
Definition starts_with (c : Ascii.ascii) (s : string) : bool :=
  bool_decide (head (chars s) = Some c).
Definition ends_with (c : Ascii.ascii) (s : string) : bool :=
  bool_decide (last (chars s) = Some c).

Definition original_amount_sign (statement : StatementTransaction) : OriginalAmountSign.t :=
  if amount_is_zero (st_amount statement) then OriginalAmountSign.ZERO
  else
    match st_raw_amount statement with
    | None => OriginalAmountSign.MISSING
    | Some raw =>
        let token := py_strip raw in
        if str_empty token then OriginalAmountSign.MISSING
        else if starts_with "(" token && ends_with ")" token then OriginalAmountSign.NEGATIVE
        else if starts_with "-" token then OriginalAmountSign.NEGATIVE
        else OriginalAmountSign.POSITIVE
    end.

(** An identity text that is present and blank. *)
Definition blank_identity (value : option string) : bool :=
  match value with Some v => str_empty (py_strip v) | None => false end.

Definition or_text (o : option string) (default : string) : string :=
  match o with Some s => if str_empty s then default else s | None => default end.

Definition statement_precheck (statement : StatementTransaction) : option ReasonCode.t :=
  if existsb blank_identity
       [st_public_id statement; st_row_fingerprint statement; st_statement_row_reference statement]
  then Some ReasonCode.INVALID_SOURCE_IDENTITY
  else
    match st_amount_direction statement with
    | None => Some ReasonCode.MISSING_DIRECTION
    | Some direction =>
        if bool_decide (direction ∈ [StatementAmountDirection.UNKNOWN; StatementAmountDirection.INTEREST])
        then Some ReasonCode.UNKNOWN_DIRECTION
        else if amount_is_zero (st_amount statement) then
          Some ReasonCode.ZERO_AMOUNT_REQUIRES_REVIEW
        else
          let raw_type := py_lower (py_strip (or_text (st_raw_amount_type statement) "")) in
          if str_in raw_type ["credit"; "cr"; "inflow"] && bool_decide (direction ∈ OUTGOING_DIRECTIONS)
          then Some ReasonCode.AMOUNT_SIGN_CONTRADICTION
          else if str_in raw_type ["debit"; "dr"; "outflow"] &&
                  bool_decide (direction ∈ INCOMING_DIRECTIONS)
          then Some ReasonCode.AMOUNT_SIGN_CONTRADICTION
          else None
    end.

(** ** The gates *)

(** [Decimal(str(x))] of a float. *)
Definition dec_of_float (x : spec_float) : decimal :=
  match decimal_of_string (float_repr x) with Some d => d | None => DNaN false false end.

(** The finite value of it; [float_repr] of a finite float is a finite
    literal. *)
Definition fdec_of_float (x : spec_float) : fdec :=
  match dec_of_float x with DFin d => d | _ => dec_zero end.

Definition evaluate_candidate (statement : StatementTransaction) (candidate : InternalCandidate)
    (date_tolerance_days posted_date_window_days : Z) (merchant_similarity_threshold : spec_float) :
    CandidateEvaluation :=
  let gates := ["source_identity_valid"] in
  let transaction_type := normalize_transaction_type candidate in
  if negb (currency_match (st_currency statement) (Some (ic_currency candidate))) then
    evaluation_stopped candidate transaction_type CompatibilityResult.INCOMPATIBLE
      ReasonCode.CURRENCY_DIFFERS (gates ++ ["currency_incompatible"]) None
  else
  let gates := gates ++ ["currency_compatible"] in
  let compatibility := check_direction_compatibility (st_amount_direction statement) candidate in
  if negb (bool_decide (dc_result compatibility = CompatibilityResult.COMPATIBLE)) then
    evaluation_stopped candidate transaction_type (dc_result compatibility)
      (dc_reason_code compatibility) (gates ++ [ReasonCode.value (dc_reason_code compatibility)]) None
  else
  let gates := gates ++ [ReasonCode.value ReasonCode.DIRECTION_TYPE_COMPATIBLE] in
  if match st_amount statement with
     | None => true
     | Some a => negb (amount_exact_match a (ic_amount candidate))
     end then
    evaluation_stopped candidate transaction_type (dc_result compatibility) ReasonCode.AMOUNT_DIFFERS
      (gates ++ [ReasonCode.value ReasonCode.AMOUNT_DIFFERS]) None
  else
  let gates := gates ++ [ReasonCode.value ReasonCode.EXACT_AMOUNT_MATCH] in
  let date_result := match_date_window (ic_transaction_date candidate)
    (st_transaction_date statement) (st_posted_date statement)
    date_tolerance_days posted_date_window_days in
  if negb (dm_matched date_result) then
    evaluation_stopped candidate transaction_type (dc_result compatibility)
      ReasonCode.OUTSIDE_DATE_TOLERANCE
      (gates ++ [ReasonCode.value ReasonCode.OUTSIDE_DATE_TOLERANCE]) (Some date_result)
  else
  let gates := gates ++ ["date_compatible:" +:+ dm_matched_on date_result] in
  let statement_normalized :=
    or_text (st_merchant_normalized statement) (normalize_merchant (st_merchant_raw statement)) in
  let candidate_normalized := normalize_merchant (ic_merchant candidate) in
  let exact := String.eqb (py_lower (py_strip (st_merchant_raw statement)))
                          (py_lower (py_strip (ic_merchant candidate))) in
  let normalized_match := String.eqb (py_lower statement_normalized) (py_lower candidate_normalized) in
  let score := fdec_of_float (merchant_similarity statement_normalized candidate_normalized) in
  let passed := exact || normalized_match ||
                dec_leb (fdec_of_float merchant_similarity_threshold) score in
  MkEval candidate transaction_type (dc_result compatibility)
    (if passed then ReasonCode.DIRECTION_TYPE_COMPATIBLE else ReasonCode.WEAK_MERCHANT_MATCH)
    (gates ++ [if passed then "merchant_compatible" else ReasonCode.value ReasonCode.WEAK_MERCHANT_MATCH])
    (Some date_result) (Some statement_normalized) (Some candidate_normalized) (Some score)
    exact normalized_match passed.

(** ** Decision records *)

Definition text_fingerprint (value : string) : string := hexdigest (sha256 (encode value)).

(** [domain], a zero byte, and the text. *)
Definition domain_hash (domain payload_text : string) : string :=
  hexdigest (sha256 (encode domain ++ 0 :: encode payload_text)).

Definition date_text (o : option date) : json := opt_json (λ d, JStr (date_isoformat d)) o.
Definition text_json (o : option string) : json := opt_json JStr o.
Definition direction_text (o : option StatementAmountDirection.t) : json :=
  opt_json (λ d, JStr (StatementAmountDirection.value d)) o.

Definition decimal_text (o : option fdec) : result json :=
  match o with
  | None => Ok JNull
  | Some d => JStr <$> canonical_decimal_str (dec_val d)
  end.

(** The first identity text that is present and not blank, stripped. *)
Fixpoint first_present (l : list (option string)) : option string :=
  match l with
  | [] => None
  | Some v :: l => if str_empty (py_strip v) then first_present l else Some (py_strip v)
  | None :: l => first_present l
  end.

Definition derive_statement_identity (statement : StatementTransaction) : result string :=
  match first_present
    [st_public_id statement; st_row_fingerprint statement; st_statement_row_reference statement] with
  | Some v => Ok v
  | None =>
      amount ← decimal_text (st_amount statement);
      let material := JDict
        [("contract_version", JStr STATEMENT_ID_DOMAIN);
         ("source_batch_id", text_json (st_source_batch_id statement));
         ("transaction_date", date_text (st_transaction_date statement));
         ("posted_date", date_text (st_posted_date statement));
         ("merchant_fingerprint", JStr (text_fingerprint (st_merchant_raw statement)));
         ("amount", amount);
         ("currency", text_json (st_currency statement));
         ("direction", direction_text (st_amount_direction statement));
         ("raw_amount", text_json (st_raw_amount statement))] in
      Ok (domain_hash STATEMENT_ID_DOMAIN (canonical_json_text material))
  end.

Definition candidate_material (evaluation : CandidateEvaluation) : result json :=
  let candidate := ce_candidate evaluation in
  amount ← canonical_decimal_str (dec_val (ic_amount candidate));
  score ← decimal_text (ce_merchant_similarity_score evaluation);
  Ok (JDict
    [("candidate_public_id", JStr (ic_internal_id candidate));
     ("transaction_type", JStr (ReconciliationTransactionType.value (ce_transaction_type evaluation)));
     ("transaction_date", JStr (date_isoformat (ic_transaction_date candidate)));
     ("posted_date", date_text (ic_posted_date candidate));
     ("amount", JStr amount);
     ("currency", JStr (ic_currency candidate));
     ("merchant_fingerprint", JStr (text_fingerprint (ic_merchant candidate)));
     ("merchant_normalized", text_json (ce_candidate_merchant_normalized evaluation));
     ("merchant_similarity_score", score);
     ("date_delta_days", opt_json JInt (ce_date_result evaluation ≫= dm_day_delta));
     ("comparison_date_source", text_json (dm_matched_on <$> ce_date_result evaluation));
     ("hard_gate_results", JList (JStr <$> ce_hard_gate_results evaluation));
     ("compatibility_result", JStr (CompatibilityResult.value (ce_compatibility evaluation)));
     ("compatibility_reason", JStr (ReasonCode.value (ce_compatibility_reason evaluation)));
     ("eligible", JBool (ce_eligible evaluation));
     ("evidence_reference", text_json (ic_evidence_reference candidate))]).

(** [sorted(..., key=candidate_public_id)] of the materials, each next to the
    identifier it is sorted by. *)
Definition material_leb (a b : string * json) : bool := String.leb a.1 b.1.

Definition sorted_candidate_material (evaluations : list CandidateEvaluation) : result (list json) :=
  keyed ← mapM (λ e, m ← candidate_material e; Ok (ic_internal_id (ce_candidate e), m)) evaluations;
  Ok (isort material_leb keyed).*2.

(** The versions and thresholds a decision is made under. *)
Record MatcherSettings := MkSettings {
  ms_date_tolerance_days : Z;
  ms_posted_date_window_days : Z;
  ms_merchant_similarity_threshold : spec_float;
  ms_matcher_version : string;
  ms_compatibility_version : string;
  ms_merchant_normalization_version : string;
  ms_authorization_public_id : option string;
}.

Definition statement_material (statement : StatementTransaction) : result json :=
  identity ← derive_statement_identity statement;
  amount ← decimal_text (st_amount statement);
  Ok (JDict
    [("derived_identity", JStr identity);
     ("public_id", text_json (st_public_id statement));
     ("row_fingerprint", text_json (st_row_fingerprint statement));
     ("source_content_hash", text_json (st_source_content_hash statement));
     ("source_batch_id", text_json (st_source_batch_id statement));
     ("row_reference", text_json (st_statement_row_reference statement));
     ("original_amount_text", text_json (st_raw_amount statement));
     ("original_amount_type", text_json (st_raw_amount_type statement));
     ("original_amount_sign", JStr (OriginalAmountSign.value (original_amount_sign statement)));
     ("normalized_amount", amount);
     ("currency", text_json (st_currency statement));
     ("direction", direction_text (st_amount_direction statement));
     ("transaction_date", date_text (st_transaction_date statement));
     ("posted_date", date_text (st_posted_date statement));
     ("merchant_fingerprint", JStr (text_fingerprint (st_merchant_raw statement)));
     ("merchant_normalized", JStr (or_text (st_merchant_normalized statement)
                                     (normalize_merchant (st_merchant_raw statement))))]).

(** The canonical candidate set and its fingerprint. *)
Definition candidate_set_hash (materials : list json) : string :=
  domain_hash CANDIDATE_HASH_DOMAIN (canonical_json_text (JDict
    [("candidate_set_version", JStr CANDIDATE_SET_VERSION); ("candidates", JList materials)])).

(** What the decision hash covers. *)
Definition decision_material (statement : StatementTransaction) (r : MatchResult)
    (evaluations : list CandidateEvaluation) (s : MatcherSettings) : result json :=
  materials ← sorted_candidate_material evaluations;
  statement_json ← statement_material statement;
  Ok (JDict
    [("decision_contract_version", JStr DECISION_CONTRACT_VERSION);
     ("matcher_version", JStr (ms_matcher_version s));
     ("compatibility_version", JStr (ms_compatibility_version s));
     ("merchant_normalization_version", JStr (ms_merchant_normalization_version s));
     ("statement", statement_json);
     ("thresholds", JDict
       [("date_tolerance_days", JInt (ms_date_tolerance_days s));
        ("posted_date_window_days", JInt (ms_posted_date_window_days s));
        ("merchant_similarity_threshold", JStr (float_repr (ms_merchant_similarity_threshold s)))]);
     ("candidate_set_fingerprint", JStr (candidate_set_hash materials));
     ("candidates", JList materials);
     ("final_decision", JDict
       [("status", JStr (MatchStatus.value (mr_status r)));
        ("reason_codes", JList ((λ x, JStr (ReasonCode.value x)) <$> mr_reasons r));
        ("best_candidate_public_id", opt_json (λ c, JStr (ic_internal_id c)) (mr_best_candidate r));
        ("authorization_public_id", text_json (ms_authorization_public_id s))])]).

Definition build_decision_record (statement : StatementTransaction) (r : MatchResult)
    (evaluations : list CandidateEvaluation) (s : MatcherSettings) : result DecisionRecord :=
  materials ← sorted_candidate_material evaluations;
  material ← decision_material statement r evaluations s;
  let material_json := canonical_json_text material in
  Ok (MkDecision (domain_hash DECISION_HASH_DOMAIN material_json) material_json
        (candidate_set_hash materials)).
