(* ===== verification/ReconMatcher.v ===== *)
(** * Reconciliation: the statement matcher

    [reconciliation/matcher.py]: one statement row against a pool of
    candidates.  The candidates are evaluated through the gates, the status
    reports how far they got, and the decision is hashed.  The theorems say
    when a row is matched, what each status means, and that the recorded
    decision does not depend on the order of the candidates. *)

From Stdlib Require Import Ascii ZArith SpecFloat QArith Lia.
From stdpp Require Import base gmap sets strings sorting numbers list.
From S2P Require Import Prelude PyDecimal PyValue Hash Money Json PyDate PyFloat ReconModels.
From S2P Require Import ReconDecision.

Open Scope Z_scope.

Definition direction_value (statement : StatementTransaction) : option string :=
  StatementAmountDirection.value <$> st_amount_direction statement.

Definition baseline_evidence (statement : StatementTransaction) (candidates : list InternalCandidate) :
    MatchEvidence := {|
  ev_statement_amount := st_amount statement;
  ev_candidate_amount := None;
  ev_statement_currency := st_currency statement;
  ev_candidate_currency := None;
  ev_statement_txn_date := st_transaction_date statement;
  ev_statement_posted_date := st_posted_date statement;
  ev_candidate_txn_date := None;
  ev_date_delta_days := None;
  ev_date_tolerance_days := 3;
  ev_statement_merchant := Some (st_merchant_raw statement);
  ev_candidate_merchant := None;
  ev_statement_merchant_normalized :=
    Some (or_text (st_merchant_normalized statement) (normalize_merchant (st_merchant_raw statement)));
  ev_candidate_merchant_normalized := None;
  ev_merchant_similarity := None;
  ev_candidate_count := Z.of_nat (length candidates);
  ev_statement_direction := direction_value statement;
  ev_candidate_transaction_type := None;
  ev_original_amount_text := st_raw_amount statement;
  ev_original_amount_sign := Some (OriginalAmountSign.value (original_amount_sign statement));
  ev_compatibility_result := None;
  ev_hard_gate_results := [];
|}.

Definition evaluation_evidence (statement : StatementTransaction) (evaluation : CandidateEvaluation)
    (date_tolerance_days : Z) : MatchEvidence := {|
  ev_statement_amount := st_amount statement;
  ev_candidate_amount := Some (ic_amount (ce_candidate evaluation));
  ev_statement_currency := st_currency statement;
  ev_candidate_currency := Some (ic_currency (ce_candidate evaluation));
  ev_statement_txn_date := st_transaction_date statement;
  ev_statement_posted_date := st_posted_date statement;
  ev_candidate_txn_date := Some (ic_transaction_date (ce_candidate evaluation));
  ev_date_delta_days := ce_date_result evaluation ≫= dm_day_delta;
  ev_date_tolerance_days := date_tolerance_days;
  ev_statement_merchant := Some (st_merchant_raw statement);
  ev_candidate_merchant := Some (ic_merchant (ce_candidate evaluation));
  ev_statement_merchant_normalized := ce_statement_merchant_normalized evaluation;
  ev_candidate_merchant_normalized := ce_candidate_merchant_normalized evaluation;
  ev_merchant_similarity := float_of_dec <$> ce_merchant_similarity_score evaluation;
  ev_candidate_count := 1;
  ev_statement_direction := direction_value statement;
  ev_candidate_transaction_type :=
    Some (ReconciliationTransactionType.value (ce_transaction_type evaluation));
  ev_original_amount_text := st_raw_amount statement;
  ev_original_amount_sign := Some (OriginalAmountSign.value (original_amount_sign statement));
  ev_compatibility_result := Some (CompatibilityResult.value (ce_compatibility evaluation));
  ev_hard_gate_results := ce_hard_gate_results evaluation;
|}.

Definition float_one : spec_float := float_of_ratio 1 1.

Definition validate_matcher_parameters (date_tolerance_days posted_date_window_days : Z)
    (merchant_similarity_threshold : spec_float) : result unit :=
  raise_when ((date_tolerance_days <? 0) || (posted_date_window_days <? 0)) ValueError
    "date tolerance values must be non-negative";;
  raise_when (negb (SFleb (S754_zero false) merchant_similarity_threshold &&
                    SFleb merchant_similarity_threshold float_one)) ValueError
    "merchant_similarity_threshold must be between 0 and 1".

(** Equal in amount, currency, date and normalized merchant. *)
Definition candidates_are_duplicates (a b : InternalCandidate) : bool :=
  dec_eqb (ic_amount a) (ic_amount b) && String.eqb (ic_currency a) (ic_currency b) &&
  bool_decide (ic_transaction_date a = ic_transaction_date b) &&
  String.eqb (normalize_merchant (ic_merchant a)) (normalize_merchant (ic_merchant b)).

(** ** From evaluations to a result *)

(** [merchant_similarity_score or Decimal("0")]. *)
Definition score_or_zero (e : CandidateEvaluation) : fdec :=
  match ce_merchant_similarity_score e with
  | Some d => if is_zero d then dec_zero else d
  | None => dec_zero
  end.

Definition evaluation_id (e : CandidateEvaluation) : string := ic_internal_id (ce_candidate e).

(** The sort key [(-score, internal_id)]: the higher score first.  A score has
    at most seventeen digits, so its negation is not rounded. *)
Definition scored_leb (a b : CandidateEvaluation) : bool :=
  dec_ltb (score_or_zero b) (score_or_zero a) ||
  (dec_eqb (score_or_zero a) (score_or_zero b) && String.leb (evaluation_id a) (evaluation_id b)).

Definition gate_passed (gate : string) (e : CandidateEvaluation) : bool :=
  str_in gate (ce_hard_gate_results e).

Definition date_passed (e : CandidateEvaluation) : bool :=
  match ce_date_result e with Some d => dm_matched d | None => false end.

Definition compatibility_is (r : CompatibilityResult.t) (e : CandidateEvaluation) : bool :=
  bool_decide (ce_compatibility e = r).

(** [list] comprehensions with a condition. *)
Definition keep {A} (p : A → bool) (l : list A) : list A := List.filter p l.

Definition matched_reasons (e : CandidateEvaluation) : list ReasonCode.t :=
  [ReasonCode.SAME_CURRENCY; ReasonCode.DIRECTION_TYPE_COMPATIBLE; ReasonCode.EXACT_AMOUNT_MATCH] ++
  (let on := match ce_date_result e with Some d => dm_matched_on d | None => EmptyString end in
   if String.eqb on "transaction_date" then [ReasonCode.TRANSACTION_DATE_WITHIN_TOLERANCE]
   else if String.eqb on "posted_date" then [ReasonCode.POSTED_DATE_WITHIN_TOLERANCE]
   else if String.eqb on "posted_date_window" then [ReasonCode.POSTED_DATE_WINDOW_MATCH]
   else []) ++
  (if ce_merchant_exact e then [ReasonCode.MERCHANT_EXACT_MATCH]
   else if ce_merchant_normalized_match e then [ReasonCode.MERCHANT_NORMALIZED_MATCH]
   else [ReasonCode.MERCHANT_SIMILARITY_MATCH]).

(** The review reason when no candidate is direction compatible: that of the
    first candidate requiring review, or else of the first candidate. *)
Definition review_evaluation (first : CandidateEvaluation) (l : list CandidateEvaluation) :
    CandidateEvaluation :=
  match keep (compatibility_is CompatibilityResult.REVIEW_REQUIRED) l with
  | e :: _ => e
  | [] => first
  end.

Definition result_from_evaluations (statement : StatementTransaction)
    (evaluations : list CandidateEvaluation) (date_tolerance_days : Z) : MatchResult :=
  let outcome status reason e l :=
    MatchResult_new status [reason] (evaluation_evidence statement e date_tolerance_days) statement
      None (ce_candidate <$> l) in
  let currency_matched := keep (gate_passed "currency_compatible") evaluations in
  match currency_matched with
  | [] =>
      MatchResult_new MatchStatus.CURRENCY_MISMATCH [ReasonCode.CURRENCY_DIFFERS]
        (baseline_evidence statement (ce_candidate <$> evaluations)) statement None
        (ce_candidate <$> evaluations)
  | first_currency :: _ =>
  let direction_matched := keep (compatibility_is CompatibilityResult.COMPATIBLE) currency_matched in
  match direction_matched with
  | [] =>
      let review := review_evaluation first_currency currency_matched in
      outcome MatchStatus.NEEDS_REVIEW (ce_compatibility_reason review) review currency_matched
  | first_direction :: _ =>
  let amount_matched :=
    keep (gate_passed (ReasonCode.value ReasonCode.EXACT_AMOUNT_MATCH)) direction_matched in
  match amount_matched with
  | [] => outcome MatchStatus.AMOUNT_MISMATCH ReasonCode.AMOUNT_DIFFERS first_direction direction_matched
  | first_amount :: _ =>
  let date_matched := keep date_passed amount_matched in
  match date_matched with
  | [] => outcome MatchStatus.DATE_MISMATCH ReasonCode.OUTSIDE_DATE_TOLERANCE first_amount amount_matched
  | first_date :: _ =>
  let scored := isort scored_leb (keep ce_eligible date_matched) in
  match scored with
  | [] => outcome MatchStatus.MERCHANT_MISMATCH ReasonCode.WEAK_MERCHANT_MATCH first_date date_matched
  | [evaluation] =>
      MatchResult_new MatchStatus.MATCHED (matched_reasons evaluation)
        (evaluation_evidence statement evaluation date_tolerance_days) statement
        (Some (ce_candidate evaluation)) [ce_candidate evaluation]
  | first :: second :: _ =>
      let status := if candidates_are_duplicates (ce_candidate first) (ce_candidate second)
                    then MatchStatus.POSSIBLE_DUPLICATE else MatchStatus.AMBIGUOUS in
      outcome status ReasonCode.MULTIPLE_CANDIDATE_MATCHES first scored
  end end end end end.

(** ** The public entry points *)

Definition attach_decision_hash (r : MatchResult) (statement : StatementTransaction)
    (evaluations : list CandidateEvaluation) (s : MatcherSettings) : result MatchResult :=
  record ← build_decision_record statement r evaluations s;
  Ok (MkResult (mr_status r) (mr_reasons r) (mr_evidence r) (mr_statement r) (mr_best_candidate r)
        (mr_candidates r) (Some (dr_decision_hash record)) (Some (dr_decision_material_json record))
        (Some (dr_candidate_set_fingerprint record)) (Some "reconciliation-decision-v1")
        (Some (ms_matcher_version s)) (Some (ms_compatibility_version s))
        (Some (ms_merchant_normalization_version s)) (ms_authorization_public_id s)).

Definition evaluate (s : MatcherSettings) (statement : StatementTransaction)
    (candidate : InternalCandidate) : CandidateEvaluation :=
  evaluate_candidate statement candidate (ms_date_tolerance_days s) (ms_posted_date_window_days s)
    (ms_merchant_similarity_threshold s).

(** The result before its decision is hashed. *)
Definition match_outcome (s : MatcherSettings) (statement : StatementTransaction)
    (candidates : list InternalCandidate) : MatchResult :=
  match statement_precheck statement with
  | Some reason =>
      MatchResult_new MatchStatus.NEEDS_REVIEW [reason] (baseline_evidence statement candidates)
        statement None candidates
  | None =>
      if bool_decide (st_transaction_date statement = None) && bool_decide (st_posted_date statement = None)
      then MatchResult_new MatchStatus.NEEDS_REVIEW [ReasonCode.MISSING_STATEMENT_DATE]
             (baseline_evidence statement candidates) statement None candidates
      else
        match candidates with
        | [] => MatchResult_new MatchStatus.NO_MATCH [ReasonCode.NO_CANDIDATE_FOUND]
                  (baseline_evidence statement candidates) statement None []
        | _ => result_from_evaluations statement (evaluate s statement <$> candidates)
                 (ms_date_tolerance_days s)
        end
  end.

Definition match_statement (s : MatcherSettings) (statement : StatementTransaction)
    (candidates : list InternalCandidate) : result MatchResult :=
  validate_matcher_parameters (ms_date_tolerance_days s) (ms_posted_date_window_days s)
    (ms_merchant_similarity_threshold s);;
  raise_when (has_duplicates (ic_internal_id <$> candidates)) ValueError
    "candidate identities must be unique";;
  attach_decision_hash (match_outcome s statement candidates) statement
    (evaluate s statement <$> candidates) s.

(** The keyword defaults. *)
Definition default_settings (date_tolerance_days posted_date_window_days : Z)
    (merchant_similarity_threshold : spec_float) : MatcherSettings :=
  MkSettings date_tolerance_days posted_date_window_days merchant_similarity_threshold
    MATCHER_VERSION COMPATIBILITY_VERSION MERCHANT_NORMALIZATION_VERSION None.

Definition float_half : spec_float := float_of_ratio 1 2.

(** ** The gates, each on its own

    What a candidate must satisfy, stated without the order in which the code
    tests it. *)

Definition currency_ok (statement : StatementTransaction) (c : InternalCandidate) : bool :=
  currency_match (st_currency statement) (Some (ic_currency c)).

Definition direction_ok (statement : StatementTransaction) (c : InternalCandidate) : bool :=
  match st_amount_direction statement with
  | Some d => bool_decide (normalize_transaction_type c ∈ COMPATIBILITY_MATRIX d)
  | None => false
  end.

Definition amount_ok (statement : StatementTransaction) (c : InternalCandidate) : bool :=
  match st_amount statement with Some a => dec_eqb a (ic_amount c) | None => false end.

(** The transaction date of the row when it has one; otherwise the candidate
    is not after the posted date and at most the window before it. *)
Definition date_ok (s : MatcherSettings) (statement : StatementTransaction) (c : InternalCandidate) : bool :=
  match st_transaction_date statement, st_posted_date statement with
  | Some d, _ => bool_decide (ic_transaction_date c = d)
  | None, Some p =>
      (toordinal (ic_transaction_date c) <=? toordinal p) &&
      (toordinal p <=? toordinal (ic_transaction_date c) + ms_posted_date_window_days s)
  | None, None => false
  end.

Definition statement_merchant (statement : StatementTransaction) : string :=
  or_text (st_merchant_normalized statement) (normalize_merchant (st_merchant_raw statement)).

Definition merchant_ok (s : MatcherSettings) (statement : StatementTransaction) (c : InternalCandidate) : bool :=
  let a := statement_merchant statement in
  let b := normalize_merchant (ic_merchant c) in
  String.eqb (py_lower (py_strip (st_merchant_raw statement))) (py_lower (py_strip (ic_merchant c))) ||
  String.eqb (py_lower a) (py_lower b) ||
  dec_leb (fdec_of_float (ms_merchant_similarity_threshold s)) (fdec_of_float (merchant_similarity a b)).

Definition acceptable (s : MatcherSettings) (statement : StatementTransaction) (c : InternalCandidate) : bool :=
  currency_ok statement c && direction_ok statement c && amount_ok statement c &&
  date_ok s statement c && merchant_ok s statement c.

(** *** The code's gates are these *)

Lemma compatible_direction statement c :
  bool_decide (dc_result (check_direction_compatibility (st_amount_direction statement) c) =
    CompatibilityResult.COMPATIBLE) = direction_ok statement c.
Proof.
  unfold check_direction_compatibility, direction_ok.
  destruct (st_amount_direction statement) as [d|]; [|done].
  generalize (normalize_transaction_type c) as t; intros t.
  by destruct d, t.
Qed.

Lemma matched_date s statement c :
  0 <= ms_posted_date_window_days s →
  dm_matched (match_date_window (ic_transaction_date c) (st_transaction_date statement)
    (st_posted_date statement) (ms_date_tolerance_days s) (ms_posted_date_window_days s)) =
  date_ok s statement c.
Proof.
  intros Hw. unfold match_date_window, date_ok, days_between.
  destruct (st_transaction_date statement) as [d|]; [by case_bool_decide|].
  destruct (st_posted_date statement) as [p|]; [|done].
  repeat case_match; cbn; symmetry; rewrite ?andb_true_iff, ?andb_false_iff, ?Z.leb_le, ?Z.leb_gt; lia.
Qed.

Section Gates.
Context (s : MatcherSettings) (statement : StatementTransaction).
Context (Hwindow : 0 <= ms_posted_date_window_days s).

Abbreviation ev := (evaluate s statement).

(** Closes the gate equations of an evaluation that has been decided. *)
Ltac gates :=
  split_and!; cbn [andb]; intros; first [discriminate | done
    | unfold gate_passed, str_in; cbn; apply bool_decide_eq_true_2; set_solver].

(** The evaluation runs through the five gates in order. *)
Lemma evaluate_gates c :
  gate_passed "currency_compatible" (ev c) = currency_ok statement c ∧
  (currency_ok statement c = true →
   compatibility_is CompatibilityResult.COMPATIBLE (ev c) = direction_ok statement c) ∧
  (currency_ok statement c && direction_ok statement c = true →
   gate_passed (ReasonCode.value ReasonCode.EXACT_AMOUNT_MATCH) (ev c) = amount_ok statement c) ∧
  (currency_ok statement c && direction_ok statement c && amount_ok statement c = true →
   date_passed (ev c) = date_ok s statement c) ∧
  (currency_ok statement c && direction_ok statement c && amount_ok statement c &&
   date_ok s statement c = true → ce_eligible (ev c) = merchant_ok s statement c).
Proof.
  pose proof (compatible_direction statement c) as Hdir.
  pose proof (matched_date s statement c Hwindow) as Hdate.
  unfold evaluate, evaluate_candidate. fold (currency_ok statement c).
  destruct (currency_ok statement c) eqn:Hc; cbn [negb andb]; [|gates].
  destruct (check_direction_compatibility (st_amount_direction statement) c) as [res rea ty] eqn:Hcd.
  cbn [dc_result dc_reason_code] in *.
  rewrite Hdir. destruct (direction_ok statement c) eqn:Hd; cbn [negb andb].
  2:{ unfold compatibility_is; cbn. rewrite Hdir.
      gates. }
  apply bool_decide_eq_true in Hdir. subst res.
  unfold amount_ok.
  destruct (st_amount statement) as [a|]; [|gates].
  unfold amount_exact_match. destruct (dec_eqb a (ic_amount c)) eqn:Ha; cbn [negb]; [|gates].
  cbn [andb]. rewrite Hdate.
  destruct (date_ok s statement c) eqn:Hdt; cbn [negb]; [|gates].
  unfold gate_passed, compatibility_is, date_passed, str_in; cbn.
  rewrite !Hdate. gates.
Qed.
End Gates.

(** ** How far a candidate gets *)

(** The number of gates a candidate passes before it fails one. *)
Definition gate_depth (s : MatcherSettings) (statement : StatementTransaction) (c : InternalCandidate) : nat :=
  if negb (currency_ok statement c) then 0
  else if negb (direction_ok statement c) then 1
  else if negb (amount_ok statement c) then 2
  else if negb (date_ok s statement c) then 3
  else if negb (merchant_ok s statement c) then 4
  else 5.

(** The candidates that pass at least [k] gates. *)
Definition survivors (s : MatcherSettings) (statement : StatementTransaction) (k : nat)
    (l : list InternalCandidate) : list InternalCandidate :=
  keep (λ c, (k <=? gate_depth s statement c)%nat) l.

Definition deepest (s : MatcherSettings) (statement : StatementTransaction)
    (l : list InternalCandidate) : nat :=
  max_list (gate_depth s statement <$> l).

Lemma keep_elem_of {A} (p : A → bool) x l : x ∈ keep p l ↔ x ∈ l ∧ p x = true.
Proof. unfold keep. by rewrite !list_elem_of_In, filter_In. Qed.

Lemma keep_perm {A} (p : A → bool) l k : l ≡ₚ k → keep p l ≡ₚ keep p k.
Proof.
  induction 1; cbn; [done| | |by etrans].
  - destruct (p x); [by constructor|done].
  - destruct (p x), (p y); done || constructor.
Qed.

Lemma keep_sublist {A} (p : A → bool) l : sublist (keep p l) l.
Proof. induction l as [|x l IH]; cbn; [done|]. destruct (p x); by constructor. Qed.

Lemma keep_all {A} (p : A → bool) l : Forall (λ x, p x = true) l → keep p l = l.
Proof. unfold keep. induction 1 as [|x l Hx _ IH]; cbn; [done|]. by rewrite Hx, IH. Qed.

Lemma keep_none {A} (p : A → bool) l : Forall (λ x, p x = false) l → keep p l = [].
Proof. unfold keep. induction 1 as [|x l Hx _ IH]; cbn; [done|]. by rewrite Hx. Qed.

Lemma keep_app {A} (p : A → bool) l k : keep p (l ++ k) = keep p l ++ keep p k.
Proof. apply List.filter_app. Qed.

Lemma acceptable_depth s statement c :
  acceptable s statement c = true ↔ gate_depth s statement c = 5%nat.
Proof.
  unfold acceptable, gate_depth.
  destruct (currency_ok _ _), (direction_ok _ _), (amount_ok _ _), (date_ok _ _ _), (merchant_ok _ _ _);
    cbn; split; done.
Qed.

Lemma keep_ext {A} (p q : A → bool) l : (∀ x, p x = q x) → keep p l = keep q l.
Proof. intros H. unfold keep. induction l as [|x l IH]; cbn; [done|]. by rewrite H, IH. Qed.

Lemma gate_depth_le s statement c : (gate_depth s statement c <= 5)%nat.
Proof. unfold gate_depth. repeat case_match; lia. Qed.

Section Survivors.
Context (s : MatcherSettings) (statement : StatementTransaction).
Context (Hwindow : 0 <= ms_posted_date_window_days s) (l : list InternalCandidate).

Abbreviation ev := (evaluate s statement).
Abbreviation surv := (survivors s statement).

Lemma survivors_0 : surv 0 l = l.
Proof using Type. unfold survivors, keep. induction l as [|x k IH]; cbn; [done|]. f_equal. exact IH. Qed.

(** A gate that tells who passes [k + 1] gates among those passing [k]. *)
Lemma keep_survivors (p : CandidateEvaluation → bool) k :
  (∀ c, (k <= gate_depth s statement c)%nat → p (ev c) = (S k <=? gate_depth s statement c)%nat) →
  keep p (ev <$> surv k l) = ev <$> surv (S k) l.
Proof using Type.
  intros Hp. unfold survivors, keep. induction l as [|c r IH]; cbn -[Nat.leb]; [done|].
  destruct (Nat.leb_spec k (gate_depth s statement c)) as [Hk|Hk]; cbn -[Nat.leb].
  - rewrite (Hp c Hk). destruct (S k <=? _)%nat; cbn -[Nat.leb]; by rewrite IH.
  - destruct (Nat.leb_spec (S k) (gate_depth s statement c)); [lia|]. apply IH.
Qed.

Ltac gate_case c :=
  pose proof (evaluate_gates s statement Hwindow c) as (G1&G2&G3&G4&G5);
  unfold gate_depth;
  destruct (currency_ok statement c), (direction_ok statement c), (amount_ok statement c),
    (date_ok s statement c), (merchant_ok s statement c);
  cbn [negb andb] in *; intros; first [lia | rewrite G1; done | rewrite G2; done
    | rewrite G3; done | rewrite G4; done | rewrite G5; done].

Lemma keep_currency : keep (gate_passed "currency_compatible") (ev <$> l) = ev <$> surv 1 l.
Proof using Hwindow.
  rewrite <- survivors_0 at 1. apply keep_survivors. intros c. gate_case c.
Qed.

Lemma keep_direction :
  keep (compatibility_is CompatibilityResult.COMPATIBLE) (ev <$> surv 1 l) = ev <$> surv 2 l.
Proof using Hwindow. apply keep_survivors. intros c. gate_case c. Qed.

Lemma keep_amount :
  keep (gate_passed (ReasonCode.value ReasonCode.EXACT_AMOUNT_MATCH)) (ev <$> surv 2 l) =
  ev <$> surv 3 l.
Proof using Hwindow. apply keep_survivors. intros c. gate_case c. Qed.

Lemma keep_date : keep date_passed (ev <$> surv 3 l) = ev <$> surv 4 l.
Proof using Hwindow. apply keep_survivors. intros c. gate_case c. Qed.

Lemma keep_merchant : keep ce_eligible (ev <$> surv 4 l) = ev <$> surv 5 l.
Proof using Hwindow. apply keep_survivors. intros c. gate_case c. Qed.

Lemma survivors_acceptable : surv 5 l = keep (acceptable s statement) l.
Proof using Type.
  apply keep_ext. intros c. pose proof (acceptable_depth s statement c).
  pose proof (gate_depth_le s statement c).
  destruct (Nat.leb_spec 5 (gate_depth s statement c)), (acceptable s statement c); try done; lia || naive_solver lia.
Qed.

Lemma survivors_nil k : (1 <= k)%nat → surv k l = [] ↔ (deepest s statement l < k)%nat.
Proof using Type.
  intros Hk. unfold survivors, deepest, keep.
  induction l as [|c r IH]; cbn -[Nat.leb]; [split; [lia|done]|].
  destruct (Nat.leb_spec k (gate_depth s statement c)); [split; [done|lia]|].
  rewrite IH. lia.
Qed.

Lemma survivors_cons k : (1 <= k)%nat → (k <= deepest s statement l)%nat → ∃ c r, surv k l = c :: r.
Proof using Type.
  intros Hk Hd. destruct (surv k l) as [|c r] eqn:E; [|eauto].
  apply survivors_nil in E; lia.
Qed.

Lemma ev_candidate c : ce_candidate (ev c) = c.
Proof using Type. unfold evaluate, evaluate_candidate. by repeat case_match. Qed.

Lemma ev_candidates (k : list InternalCandidate) : ce_candidate <$> (ev <$> k) = k.
Proof using Type.
  rewrite <- list_fmap_compose. rewrite <- (list_fmap_id k) at 2. apply list_fmap_ext.
  intros i c _. apply ev_candidate.
Qed.
End Survivors.

(** ** What a decision says

    The status, the reasons and the chosen candidate as a function of how deep
    the candidates get, whatever their order. *)

Definition rank_leb (s : MatcherSettings) (statement : StatementTransaction) (a b : InternalCandidate) : bool :=
  scored_leb (evaluate s statement a) (evaluate s statement b).

Definition untyped (statement : StatementTransaction) (c : InternalCandidate) : bool :=
  currency_ok statement c &&
  bool_decide (normalize_transaction_type c = ReconciliationTransactionType.UNKNOWN).

Definition diagnosis (s : MatcherSettings) (statement : StatementTransaction)
    (l : list InternalCandidate) :
    MatchStatus.t * list ReasonCode.t * option InternalCandidate :=
  match deepest s statement l with
  | 0%nat => (MatchStatus.CURRENCY_MISMATCH, [ReasonCode.CURRENCY_DIFFERS], None)
  | 1%nat =>
      (MatchStatus.NEEDS_REVIEW,
       [if existsb (untyped statement) l then ReasonCode.UNKNOWN_TRANSACTION_TYPE
        else ReasonCode.DIRECTION_TYPE_INCOMPATIBLE], None)
  | 2%nat => (MatchStatus.AMOUNT_MISMATCH, [ReasonCode.AMOUNT_DIFFERS], None)
  | 3%nat => (MatchStatus.DATE_MISMATCH, [ReasonCode.OUTSIDE_DATE_TOLERANCE], None)
  | 4%nat => (MatchStatus.MERCHANT_MISMATCH, [ReasonCode.WEAK_MERCHANT_MATCH], None)
  | _ =>
      match isort (rank_leb s statement) (keep (acceptable s statement) l) with
      | [c] => (MatchStatus.MATCHED, matched_reasons (evaluate s statement c), Some c)
      | a :: b :: _ =>
          (if candidates_are_duplicates a b then MatchStatus.POSSIBLE_DUPLICATE
           else MatchStatus.AMBIGUOUS, [ReasonCode.MULTIPLE_CANDIDATE_MATCHES], None)
      | [] => (MatchStatus.MERCHANT_MISMATCH, [ReasonCode.WEAK_MERCHANT_MATCH], None)
      end
  end.

(** The whole decision, with the cases settled before any candidate is
    compared. *)
Definition decide_match (s : MatcherSettings) (statement : StatementTransaction)
    (l : list InternalCandidate) :
    MatchStatus.t * list ReasonCode.t * option InternalCandidate :=
  match statement_precheck statement with
  | Some reason => (MatchStatus.NEEDS_REVIEW, [reason], None)
  | None =>
      if bool_decide (st_transaction_date statement = None) && bool_decide (st_posted_date statement = None)
      then (MatchStatus.NEEDS_REVIEW, [ReasonCode.MISSING_STATEMENT_DATE], None)
      else if bool_decide (length l = 0%nat)
      then (MatchStatus.NO_MATCH, [ReasonCode.NO_CANDIDATE_FOUND], None)
      else diagnosis s statement l
  end.

Definition decision_of (r : MatchResult) : MatchStatus.t * list ReasonCode.t * option InternalCandidate :=
  (mr_status r, mr_reasons r, mr_best_candidate r).

(** The reason of a candidate stopped at the direction gate, for a row with a
    usable direction. *)
Lemma stopped_at_direction s statement c :
  statement_precheck statement = None → currency_ok statement c = true →
  direction_ok statement c = false →
  compatibility_is CompatibilityResult.REVIEW_REQUIRED (evaluate s statement c) = untyped statement c ∧
  ce_compatibility_reason (evaluate s statement c) =
    if untyped statement c then ReasonCode.UNKNOWN_TRANSACTION_TYPE
    else ReasonCode.DIRECTION_TYPE_INCOMPATIBLE.
Proof.
  intros Hpre Hc Hd. unfold untyped. rewrite Hc. cbn [andb].
  unfold statement_precheck in Hpre. destruct (existsb _ _); [done|].
  pose proof (compatible_direction statement c) as Hdir. rewrite Hd in Hdir.
  unfold evaluate, evaluate_candidate. fold (currency_ok statement c). rewrite Hc. cbn [negb].
  rewrite Hdir. cbn [negb]. unfold compatibility_is, evaluation_stopped.
  cbn [ce_compatibility ce_compatibility_reason].
  unfold check_direction_compatibility, direction_ok in *.
  destruct (st_amount_direction statement) as [d|]; [|done].
  destruct (bool_decide (d ∈ [StatementAmountDirection.UNKNOWN; _])); [done|].
  rewrite Hd. generalize (normalize_transaction_type c) as t; intros t.
  by destruct t.
Qed.

(** Which candidate the review reason comes from. *)
Lemma review_reason s statement c k :
  statement_precheck statement = None →
  Forall (λ c, currency_ok statement c = true ∧ direction_ok statement c = false) (c :: k) →
  ce_compatibility_reason
    (review_evaluation (evaluate s statement c) (evaluate s statement <$> c :: k)) =
  if existsb (untyped statement) (c :: k) then ReasonCode.UNKNOWN_TRANSACTION_TYPE
  else ReasonCode.DIRECTION_TYPE_INCOMPATIBLE.
Proof.
  intros Hpre Hall.
  assert (Hkeep : ∀ l, Forall (λ c, currency_ok statement c = true ∧ direction_ok statement c = false) l →
    keep (compatibility_is CompatibilityResult.REVIEW_REQUIRED) (evaluate s statement <$> l) =
    evaluate s statement <$> keep (untyped statement) l).
  { unfold keep. induction 1 as [|x l [Hc Hd] _ IH]; cbn; [done|].
    rewrite (proj1 (stopped_at_direction s statement x Hpre Hc Hd)).
    destruct (untyped statement x); cbn; by rewrite IH. }
  unfold review_evaluation. rewrite (Hkeep _ Hall).
  destruct (keep (untyped statement) (c :: k)) as [|u us] eqn:E.
  - assert (existsb (untyped statement) (c :: k) = false) as Hn.
    { apply not_true_iff_false. intros (x&Hx&Hu)%existsb_exists.
      assert (x ∈ keep (untyped statement) (c :: k)) as Hin
        by (apply keep_elem_of; by rewrite list_elem_of_In).
      rewrite E in Hin. by apply elem_of_nil in Hin. }
    rewrite Hn. apply Forall_cons in Hall as [[Hc Hd] _]. cbn [fmap list_fmap].
    rewrite (proj2 (stopped_at_direction s statement c Hpre Hc Hd)).
    cbn in Hn. by destruct (untyped statement c).
  - assert (u ∈ keep (untyped statement) (c :: k)) as [Hu Hut]%keep_elem_of by (rewrite E; left).
    rewrite (proj2 (existsb_exists _ _)) by (exists u; by rewrite <- list_elem_of_In).
    rewrite Forall_forall in Hall. destruct (Hall u Hu) as [Hc Hd]. cbn [fmap list_fmap].
    by rewrite (proj2 (stopped_at_direction s statement u Hpre Hc Hd)), Hut.
Qed.

Section Decision.
Context (s : MatcherSettings) (statement : StatementTransaction).
Context (Hwindow : 0 <= ms_posted_date_window_days s).

Lemma depth_le_deepest c l : c ∈ l → (gate_depth s statement c <= deepest s statement l)%nat.
Proof using Type.
  unfold deepest. induction 1 as [|c d l _ IH]; cbn; [lia|].
  change (max_list_with id) with max_list in *. lia.
Qed.

Lemma deepest_le l : (deepest s statement l <= 5)%nat.
Proof using Type.
  unfold deepest. induction l as [|c l IH]; cbn; [lia|].
  change (max_list_with id) with max_list in *. pose proof (gate_depth_le s statement c). lia.
Qed.

Lemma survivors_untyped l :
  existsb (untyped statement) (survivors s statement 1 l) = existsb (untyped statement) l.
Proof using Type.
  apply eq_true_iff_eq. rewrite !existsb_exists.
  split; intros (x&Hx&Hu); exists x; split; try done; rewrite <- list_elem_of_In in *.
  - by apply keep_elem_of in Hx as [].
  - apply keep_elem_of. split; [done|]. unfold untyped, gate_depth in *.
    destruct (currency_ok statement x); [|done]. cbn [negb].
    by repeat case_match.
Qed.

Lemma depth_one l c :
  deepest s statement l = 1%nat → c ∈ survivors s statement 1 l →
  currency_ok statement c = true ∧ direction_ok statement c = false.
Proof using Type.
  intros Hd [Hc Hk]%keep_elem_of. apply depth_le_deepest in Hc. apply Nat.leb_le in Hk.
  unfold gate_depth in *.
  destruct (currency_ok statement c), (direction_ok statement c); cbn [negb] in *; try done; try lia.
  repeat case_match; lia.
Qed.

(** Takes the branch of a non-empty list of survivors and goes to the next
    gate. *)
Ltac next_gate k lem :=
  let c := fresh "c" in let r := fresh "r" in let E := fresh "E" in
  match goal with
  | Hcons : ∀ k, _ → _ → ∃ c r, survivors _ _ k ?l = c :: r |- _ =>
      destruct (Hcons k ltac:(lia) ltac:(lia)) as (c&r&E);
      rewrite E at 1; cbn [fmap list_fmap]; rewrite (lem _ _ Hwindow l)
  end.

Lemma outcome_diagnosis l :
  statement_precheck statement = None → l ≠ [] →
  decision_of (result_from_evaluations statement (evaluate s statement <$> l)
                 (ms_date_tolerance_days s)) = diagnosis s statement l.
Proof using Hwindow.
  intros Hpre Hl. unfold result_from_evaluations, diagnosis.
  rewrite keep_currency by done.
  pose proof (survivors_cons s statement l) as Hcons.
  pose proof (λ k Hk, proj2 (survivors_nil s statement l k Hk)) as Hnil.
  pose proof (survivors_acceptable s statement l) as Hacc.
  assert (deepest s statement l <= 5)%nat as H5   by apply deepest_le.
  destruct (deepest s statement l) as [|[|[|[|[|n]]]]] eqn:Hd.
  1: by rewrite Hnil by lia.
  all: next_gate 1%nat keep_direction.
  1: { rewrite Hnil by lia. unfold decision_of; cbn [MatchResult_new mr_status mr_reasons mr_best_candidate fmap list_fmap].
       rewrite E, review_reason; [|done|rewrite <- E; apply Forall_forall; intros x Hx; by apply (depth_one l)].
       by rewrite <- E, survivors_untyped. }
  all: next_gate 2%nat keep_amount.
  1: by rewrite Hnil by lia.
  all: next_gate 3%nat keep_date.
  1: by rewrite Hnil by lia.
  all: next_gate 4%nat keep_merchant.
  all: rewrite (isort_fmap scored_leb (rank_leb s statement)) by done.
  1: by rewrite Hnil by lia.
  rewrite Hacc.
  destruct (isort (rank_leb s statement) (keep (acceptable s statement) l)) as [|a [|b rest]] eqn:Er.
  - exfalso. destruct (Hcons 5%nat ltac:(lia) ltac:(lia)) as (c5&k5&E5).
    rewrite Hacc in E5. pose proof (isort_length (rank_leb s statement) (c5 :: k5)) as Hlen.
    by rewrite <- E5, Er, E5 in Hlen.
  - unfold decision_of; cbn. by rewrite ev_candidate.
  - unfold decision_of; cbn. by rewrite !ev_candidate.
Qed.

(** The reported candidates are those that got deepest. *)
Lemma outcome_candidates l :
  mr_candidates (result_from_evaluations statement (evaluate s statement <$> l)
                   (ms_date_tolerance_days s)) ≡ₚ
  survivors s statement (deepest s statement l) l.
Proof using Hwindow.
  unfold result_from_evaluations. rewrite keep_currency by done.
  pose proof (survivors_cons s statement l) as Hcons.
  pose proof (λ k Hk, proj2 (survivors_nil s statement l k Hk)) as Hnil.
  pose proof (deepest_le l) as H5.
  destruct (deepest s statement l) as [|[|[|[|[|n]]]]] eqn:Hd.
  1: { rewrite Hnil by lia. cbn [fmap list_fmap MatchResult_new mr_candidates].
       by rewrite ev_candidates, survivors_0. }
  all: next_gate 1%nat keep_direction.
  1: { rewrite Hnil by lia. cbn [MatchResult_new mr_candidates]. by rewrite ev_candidates. }
  all: next_gate 2%nat keep_amount.
  1: { rewrite Hnil by lia. cbn [MatchResult_new mr_candidates]. by rewrite ev_candidates. }
  all: next_gate 3%nat keep_date.
  1: { rewrite Hnil by lia. cbn [MatchResult_new mr_candidates]. by rewrite ev_candidates. }
  all: next_gate 4%nat keep_merchant.
  all: rewrite (isort_fmap scored_leb (rank_leb s statement)) by done.
  1: { rewrite Hnil by lia. cbn [MatchResult_new mr_candidates]. by rewrite ev_candidates. }
  assert (n = 0)%nat as -> by lia.
  etrans; [|apply (isort_perm (rank_leb s statement))].
  destruct (isort (rank_leb s statement) (survivors s statement 5 l)) as [|a [|b rest]] eqn:Er.
  - pose proof (isort_length (rank_leb s statement) (survivors s statement 5 l)) as Hlen.
    destruct (Hcons 5%nat ltac:(lia) ltac:(lia)) as (c5&k5&E5). by rewrite Er, E5 in Hlen.
  - cbn. by rewrite ev_candidate.
  - change (ce_candidate <$> (evaluate s statement <$> a :: b :: rest) ≡ₚ a :: b :: rest).
    by rewrite ev_candidates.
Qed.
End Decision.

(** ** Order independence *)

Lemma scored_leb_total a b : scored_leb a b = true ∨ scored_leb b a = true.
Proof.
  unfold scored_leb. rewrite !orb_true_iff, !andb_true_iff, !dec_ltb_lt, !dec_eqb_eq.
  destruct (Q_dec (dval (score_or_zero a)) (dval (score_or_zero b))) as [[H|H]|H]; [by auto..|].
  destruct (str_leb_total (evaluation_id a) (evaluation_id b)); [left|right]; right; done.
Qed.

Lemma scored_leb_trans a b c : scored_leb a b = true → scored_leb b c = true → scored_leb a c = true.
Proof.
  unfold scored_leb. rewrite !orb_true_iff, !andb_true_iff, !dec_ltb_lt, !dec_eqb_eq.
  intros [H|[H Hi]] [K|[K Ki]].
  - left. by eapply Qlt_trans.
  - left. by rewrite <- K.
  - left. by rewrite H.
  - right. split; [by rewrite H|by eapply str_leb_trans].
Qed.

Lemma scored_leb_antisym a b :
  scored_leb a b = true → scored_leb b a = true → evaluation_id a = evaluation_id b.
Proof.
  unfold scored_leb. rewrite !orb_true_iff, !andb_true_iff, !dec_ltb_lt, !dec_eqb_eq.
  intros [H|[H Hi]] [K|[K Ki]].
  - by destruct (Qlt_irrefl (dval (score_or_zero a))); eapply Qlt_trans.
  - rewrite K in H. by destruct (Qlt_irrefl (dval (score_or_zero a))).
  - rewrite H in K. by destruct (Qlt_irrefl (dval (score_or_zero b))).
  - by apply str_leb_antisym.
Qed.

Lemma evaluation_id_evaluate s statement c : evaluation_id (evaluate s statement c) = ic_internal_id c.
Proof. unfold evaluation_id. by rewrite ev_candidate. Qed.

Lemma deepest_perm s statement l k : l ≡ₚ k → deepest s statement l = deepest s statement k.
Proof.
  unfold deepest. induction 1; cbn; change (max_list_with id) with max_list in *; lia.
Qed.

Lemma existsb_perm {A} (p : A → bool) l k : l ≡ₚ k → existsb p l = existsb p k.
Proof.
  intros Hp. apply eq_true_iff_eq. rewrite !existsb_exists.
  split; intros (x&Hx&?); exists x; (split; [|done]); rewrite <- list_elem_of_In in *.
  - by rewrite <- Hp.
  - by rewrite Hp.
Qed.

Lemma ranked_candidates_perm s statement l k :
  NoDup (ic_internal_id <$> l) → l ≡ₚ k →
  isort (rank_leb s statement) (keep (acceptable s statement) l) =
  isort (rank_leb s statement) (keep (acceptable s statement) k).
Proof.
  intros Hnd Hp. apply isort_unique.
  - intros a b. apply scored_leb_total.
  - intros a b c. apply scored_leb_trans.
  - intros a b [Ha _]%keep_elem_of [Hb _]%keep_elem_of H K.
    apply (same_id_eq ic_internal_id l); [done..|].
    pose proof (scored_leb_antisym _ _ H K) as E. by rewrite !evaluation_id_evaluate in E.
  - by apply keep_perm.
Qed.

Lemma decide_match_perm s statement l k :
  NoDup (ic_internal_id <$> l) → l ≡ₚ k → decide_match s statement l = decide_match s statement k.
Proof.
  intros Hnd Hp. unfold decide_match, diagnosis.
  by rewrite (deepest_perm s statement l k Hp), (existsb_perm (untyped statement) l k Hp), (ranked_candidates_perm s statement l k Hnd Hp), (Permutation_length Hp).
Qed.

Lemma match_outcome_decision s statement l :
  0 <= ms_posted_date_window_days s →
  decision_of (match_outcome s statement l) = decide_match s statement l.
Proof.
  intros Hw. unfold match_outcome, decide_match.
  destruct (statement_precheck statement) eqn:Hpre; [done|].
  destruct (bool_decide (st_transaction_date statement = None) && _); [done|].
  destruct l as [|c l]; [done|].
  rewrite bool_decide_eq_false_2 by done. by apply outcome_diagnosis.
Qed.

(** The candidate materials are hashed in the order of the identifiers. *)
Lemma sorted_material_perm l k m :
  NoDup (evaluation_id <$> l) → l ≡ₚ k →
  sorted_candidate_material l = Ok m → sorted_candidate_material k = Ok m.
Proof.
  intros Hnd Hp. unfold sorted_candidate_material.
  intros (keyed&Hk&[= <-])%bind_Ok. apply mapM_Ok in Hk.
  assert (keyed.*1 = evaluation_id <$> l) as Hids.
  { clear -Hk. induction Hk as [|e p l ps He _ IH]; [done|]. rewrite !fmap_cons, IH. f_equal.
    apply bind_Ok in He as (x&_&[= <-]). done. }
  destruct (Permutation.Permutation_Forall2 Hp Hk) as (keyed'&Hp'&Hk').
  rewrite (proj2 (mapM_Ok _ _ _) Hk'). cbn [mbind result_bind]. f_equal. f_equal. symmetry.
  apply isort_unique; [..|done].
  - intros x y. apply str_leb_total.
  - intros x y z. apply str_leb_trans.
  - intros x y Hx Hy H K. apply (same_id_eq fst keyed); [by rewrite Hids|done..|].
    by apply str_leb_antisym.
Qed.

Lemma record_perm s statement r r' l k d :
  NoDup (evaluation_id <$> l) → l ≡ₚ k → decision_of r = decision_of r' →
  build_decision_record statement r l s = Ok d → build_decision_record statement r' k s = Ok d.
Proof.
  intros Hnd Hp [= E1 E2 E3]. unfold build_decision_record, decision_material.
  intros (m&Hm&Hd)%bind_Ok. rewrite (sorted_material_perm l k m) by done. rewrite Hm in Hd.
  cbn [mbind result_bind] in *. by rewrite <- E1, <- E2, <- E3.
Qed.

(** What a returned result consists of. *)
Lemma match_statement_Ok s statement l r :
  match_statement s statement l = Ok r →
  0 <= ms_date_tolerance_days s ∧ 0 <= ms_posted_date_window_days s ∧
  NoDup (ic_internal_id <$> l) ∧
  decision_of r = decide_match s statement l ∧
  mr_candidates r = mr_candidates (match_outcome s statement l) ∧
  ∃ d, build_decision_record statement (match_outcome s statement l) (evaluate s statement <$> l) s = Ok d ∧
    mr_decision_hash r = Some (dr_decision_hash d) ∧
    mr_decision_material_json r = Some (dr_decision_material_json d) ∧
    mr_candidate_set_fingerprint r = Some (dr_candidate_set_fingerprint d).
Proof.
  unfold match_statement, validate_matcher_parameters, attach_decision_hash.
  intros H. apply bind_Ok in H as ([]&Hv&H). apply bind_Ok in H as ([]&Hdup&H).
  apply bind_Ok in H as (d&Hd&[= <-]).
  apply bind_Ok in Hv as ([]&Hw&_). apply raise_when_Ok, orb_false_iff in Hw as [H1 H2].
  apply Z.ltb_ge in H1, H2. apply raise_when_Ok, has_duplicates_false in Hdup.
  split_and!; [done..| |done|by exists d].
  by rewrite <- match_outcome_decision.
Qed.

Lemma match_statement_perm s statement l k r :
  l ≡ₚ k → match_statement s statement l = Ok r →
  ∃ r', match_statement s statement k = Ok r' ∧ decision_of r' = decision_of r ∧
    mr_decision_hash r' = mr_decision_hash r ∧
    mr_decision_material_json r' = mr_decision_material_json r ∧
    mr_candidate_set_fingerprint r' = mr_candidate_set_fingerprint r.
Proof.
  intros Hp Hr.
  pose proof (match_statement_Ok _ _ _ _ Hr) as (H1&H2&Hnd&Hdec&_&d&Hd&E1&E2&E3).
  assert (NoDup (ic_internal_id <$> k)) as Hndk by by rewrite <- Hp.
  assert (Hd' : build_decision_record statement (match_outcome s statement k)
                  (evaluate s statement <$> k) s = Ok d).
  { apply (record_perm _ _ (match_outcome s statement l) _ (evaluate s statement <$> l)); [|by rewrite Hp| |done].
    - rewrite <- list_fmap_compose.
      rewrite (list_fmap_ext _ ic_internal_id l); [done|]. intros; apply evaluation_id_evaluate.
    - rewrite !match_outcome_decision by done. by apply decide_match_perm. }
  unfold match_statement in Hr |- *. apply bind_Ok in Hr as ([]&Hv&_).
  rewrite Hv, (proj2 (has_duplicates_false _)) by done. step.
  unfold attach_decision_hash. rewrite Hd'. step. eexists; split; [done|].
  rewrite Hdec, E1, E2, E3, (decide_match_perm s statement l k Hnd Hp), <- match_outcome_decision by done.
  done.
Qed.

Lemma ranked_elem s statement l c :
  c ∈ isort (rank_leb s statement) (keep (acceptable s statement) l) ↔
  c ∈ l ∧ acceptable s statement c = true.
Proof. by rewrite isort_elem_of, keep_elem_of. Qed.

Lemma deepest_acceptable s statement l :
  keep (acceptable s statement) l ≠ [] ↔ deepest s statement l = 5%nat.
Proof.
  rewrite <- survivors_acceptable. rewrite survivors_nil by lia.
  pose proof (deepest_le s statement l). lia.
Qed.

(** A row is compared with the candidates at all. *)
Definition comparable (statement : StatementTransaction) : Prop :=
  statement_precheck statement = None ∧
  (st_transaction_date statement ≠ None ∨ st_posted_date statement ≠ None).

Lemma diagnosis_best s statement l c :
  (diagnosis s statement l).2 = Some c ↔ keep (acceptable s statement) l = [c].
Proof.
  pose proof (deepest_acceptable s statement l) as Hacc.
  pose proof (deepest_le s statement l) as Hle. unfold diagnosis.
  pose proof (isort_perm (rank_leb s statement) (keep (acceptable s statement) l)) as Hp.
  destruct (deepest s statement l) as [|[|[|[|[|n]]]]] eqn:E; cbn [snd].
  1-5: split; [done|intros Hk; rewrite Hk in Hacc; discriminate (proj1 Hacc ltac:(done))].
  destruct (isort _ _) as [|a [|b rest]]; cbn [snd].
  - split; [done|]. intros Hk. rewrite Hk in Hp. apply Permutation_length in Hp. done.
  - symmetry in Hp. apply Permutation_singleton_r in Hp as ->. split; by intros [= ->].
  - split; [done|]. intros Hk. rewrite Hk in Hp. apply Permutation_length in Hp. done.
Qed.

Lemma decide_match_best s statement l c :
  (decide_match s statement l).2 = Some c ↔
  comparable statement ∧ keep (acceptable s statement) l = [c].
Proof.
  unfold decide_match, comparable.
  destruct (statement_precheck statement); [by split; [|intros [[]]]|].
  case_bool_decide as Hd1; cbn [andb]; [case_bool_decide as Hd2|]; cbn [snd].
  1: by split; [|intros [[_ []]]].
  all: case_bool_decide as Hl; cbn [snd].
  1, 3: apply nil_length_inv in Hl as ->; split; [done|by intros [_ ?]].
  all: rewrite diagnosis_best; split; [|by intros []]; intros Hk; split; [|done]; auto.
Qed.

(** A candidate is chosen exactly when the row is matched. *)
Lemma decide_match_status s statement l :
  (decide_match s statement l).1.1 = MatchStatus.MATCHED ↔ is_Some (decide_match s statement l).2.
Proof.
  unfold decide_match, diagnosis.
  repeat case_match; simplify_eq/=; split; intros H'; try discriminate H';
    try (by destruct H'); eauto.
Qed.

Lemma decide_match_reasons s statement l c :
  (decide_match s statement l).2 = Some c →
  (decide_match s statement l).1.2 = matched_reasons (evaluate s statement c).
Proof.
  unfold decide_match, diagnosis. repeat case_match; simplify_eq/=; intros H'; by simplify_eq.
Qed.

(** ** The contract of the matcher *)

Definition casefold (c : string) : string := py_upper (py_strip c).
Definition merchant_key (m : string) : string := py_lower (py_strip m).

(** What it takes for a candidate to explain a statement row. *)
Record Acceptable (s : MatcherSettings) (statement : StatementTransaction) (c : InternalCandidate) : Prop := {
  acc_currency : casefold <$> st_currency statement = Some (casefold (ic_currency c));
  acc_direction : ∃ d, st_amount_direction statement = Some d ∧
    normalize_transaction_type c ∈ COMPATIBILITY_MATRIX d;
  acc_amount : ∃ a, st_amount statement = Some a ∧ (dval a == dval (ic_amount c))%Q;
  acc_date :
    st_transaction_date statement = Some (ic_transaction_date c) ∨
    st_transaction_date statement = None ∧ ∃ p, st_posted_date statement = Some p ∧
      0 <= days_between p (ic_transaction_date c) <= ms_posted_date_window_days s;
  acc_merchant :
    merchant_key (st_merchant_raw statement) = merchant_key (ic_merchant c) ∨
    py_lower (statement_merchant statement) = py_lower (normalize_merchant (ic_merchant c)) ∨
    (dval (fdec_of_float (ms_merchant_similarity_threshold s)) <=
     dval (fdec_of_float (merchant_similarity (statement_merchant statement)
                            (normalize_merchant (ic_merchant c)))))%Q;
}.

Lemma acceptable_iff s statement c :
  acceptable s statement c = true ↔ Acceptable s statement c.
Proof.
  unfold acceptable. rewrite !andb_true_iff.
  assert (currency_ok statement c = true ↔
          casefold <$> st_currency statement = Some (casefold (ic_currency c))) as ->.
  { unfold currency_ok, currency_match. destruct (st_currency statement); cbn; [|by split].
    rewrite String.eqb_eq. unfold casefold. split; [congruence|]. intros [=]; congruence. }
  assert (direction_ok statement c = true ↔ ∃ d, st_amount_direction statement = Some d ∧
          normalize_transaction_type c ∈ COMPATIBILITY_MATRIX d) as ->.
  { unfold direction_ok. destruct (st_amount_direction statement) as [d|].
    - rewrite bool_decide_eq_true. split; [by eauto|by intros (?&[= <-]&?)].
    - split; [done|by intros (?&?&_)]. }
  assert (amount_ok statement c = true ↔ ∃ a, st_amount statement = Some a ∧
          (dval a == dval (ic_amount c))%Q) as ->.
  { unfold amount_ok. destruct (st_amount statement) as [a|].
    - rewrite dec_eqb_eq. split; [by eauto|by intros (?&[= <-]&?)].
    - split; [done|by intros (?&?&_)]. }
  assert (date_ok s statement c = true ↔
    st_transaction_date statement = Some (ic_transaction_date c) ∨
    st_transaction_date statement = None ∧ ∃ p, st_posted_date statement = Some p ∧
      0 <= days_between p (ic_transaction_date c) <= ms_posted_date_window_days s) as ->.
  { unfold date_ok, days_between. destruct (st_transaction_date statement) as [d|].
    - rewrite bool_decide_eq_true. split; [by intros ->; left|intros [[=]|[]]; done].
    - destruct (st_posted_date statement) as [p|].
      + rewrite andb_true_iff, !Z.leb_le. split.
        * intros []. right. split; [done|]. exists p. split; [done|lia].
        * intros [[=]|[_ (?&[= <-]&?)]]. lia.
      + split; [done|]. by intros [[=]|[_ (?&?&_)]]. }
  assert (merchant_ok s statement c = true ↔
    merchant_key (st_merchant_raw statement) = merchant_key (ic_merchant c) ∨
    py_lower (statement_merchant statement) = py_lower (normalize_merchant (ic_merchant c)) ∨
    (dval (fdec_of_float (ms_merchant_similarity_threshold s)) <=
     dval (fdec_of_float (merchant_similarity (statement_merchant statement)
                            (normalize_merchant (ic_merchant c)))))%Q) as ->.
  { unfold merchant_ok. rewrite !orb_true_iff, !String.eqb_eq, dec_leb_le. unfold merchant_key, statement_merchant. tauto. }
  split; [intros [[[[]]]]; by constructor|by intros []].
Qed.

Lemma keep_singleton s statement l c :
  NoDup (ic_internal_id <$> l) →
  keep (acceptable s statement) l = [c] ↔
  c ∈ l ∧ Acceptable s statement c ∧ ∀ c', c' ∈ l → Acceptable s statement c' → c' = c.
Proof.
  intros Hnd. setoid_rewrite <- acceptable_iff. split.
  - intros Hk. assert (∀ x, x ∈ keep (acceptable s statement) l ↔ x = c) as Hx
      by (intros x; rewrite Hk; apply list_elem_of_singleton).
    setoid_rewrite keep_elem_of in Hx. destruct (proj2 (Hx c) eq_refl) as [Hc Ha].
    split_and!; [done..|]. intros c' Hc' Ha'. by apply Hx.
  - intros (Hc&Ha&Hun). apply Permutation_singleton_r.
    apply NoDup_Permutation.
    + apply (NoDup_fmap_1 ic_internal_id). eapply sublist_NoDup; [exact Hnd|].
      apply fmap_sublist, keep_sublist.
    + apply NoDup_singleton.
    + intros x. rewrite keep_elem_of, list_elem_of_singleton. split; [intros []; auto|by intros ->].
Qed.

(** A row and candidates on which the contract is exercised. *)
Definition example_statement : StatementTransaction :=
  MkStatement None (Some (Date 2026 7 3)) "Grab Taxi " None (Some (mkdec false 1230 (-2)))
    (Some "sgd") None None None (Some "page=1,row=1") None None None
    (Some StatementAmountDirection.DEBIT) (Some "12.30") (Some "debit").

Definition example_candidate (id merchant : string) (amount : fdec) : InternalCandidate :=
  MkCandidate id (Date 2026 7 1) merchant amount "SGD" (Some "personal_expense") None None None None
    None.

Definition example_settings : MatcherSettings := default_settings 3 3 float_half.

Definition example_pool : list InternalCandidate :=
  [example_candidate "t2" "Grab" (mkdec false 1231 (-2));
   example_candidate "t1" "grab food" (mkdec false 123 (-1))].

(** Evaluates a returned result at its status and chosen candidate. *)
Definition run_match (l : list InternalCandidate) : option (MatchStatus.t * option string) :=
  match match_statement example_settings example_statement l with
  | Ok r => Some (mr_status r, ic_internal_id <$> mr_best_candidate r)
  | Raise _ => None
  end.

Example run_match_pool : run_match example_pool = Some (MatchStatus.MATCHED, Some "t1").
Proof. by vm_compute. Qed.

(** C4: a statement row is matched to a candidate exactly when the row can be
    compared, the candidate satisfies every gate (currency, direction, exact
    amount, date and merchant) and it is the only one in the pool that does;
    a candidate is chosen exactly when the status is MATCHED. *)
Theorem match_statement_matched s statement l r :
  match_statement s statement l = Ok r →
  (mr_status r = MatchStatus.MATCHED ↔ is_Some (mr_best_candidate r)) ∧
  ∀ c, mr_best_candidate r = Some c ↔
    comparable statement ∧ c ∈ l ∧ Acceptable s statement c ∧
    ∀ c', c' ∈ l → Acceptable s statement c' → c' = c.
Proof.
  intros (_&_&Hnd&Hdec&_)%match_statement_Ok. unfold decision_of in Hdec.
  pose proof (decide_match_status s statement l) as Hst.
  pose proof (λ c, decide_match_best s statement l c) as Hbest.
  rewrite <- Hdec in Hst, Hbest. cbn [fst snd] in *. split; [done|].
  intros c. by rewrite Hbest, keep_singleton.
Qed.

Lemma match_statement_matched_witness :
  ∃ r, match_statement example_settings example_statement example_pool = Ok r ∧
    ∀ c, mr_best_candidate r = Some c → Acceptable example_settings example_statement c.
Proof.
  destruct (match_statement example_settings example_statement example_pool) as [r|e] eqn:E.
  - exists r. split; [reflexivity|]. intros c Hc.
    destruct (match_statement_matched _ _ _ _ E) as [_ H]. exact (proj1 (proj2 (proj2 (proj1 (H c) Hc)))).
  - exfalso. pose proof run_match_pool as H. unfold run_match in H. rewrite E in H. discriminate H.
Defined.

(** for a row that can be compared with a non-empty pool, the status
    names the gate where the candidates that get deepest fail, and the result
    lists exactly those candidates; the row is matched, ambiguous or a
    possible duplicate only when some candidate passes every gate. *)
Theorem match_statement_reports_deepest s statement l r :
  comparable statement → l ≠ [] → match_statement s statement l = Ok r →
  mr_candidates r ≡ₚ survivors s statement (deepest s statement l) l ∧
  match deepest s statement l with
  | 0 => mr_status r = MatchStatus.CURRENCY_MISMATCH
  | 1 => mr_status r = MatchStatus.NEEDS_REVIEW
  | 2 => mr_status r = MatchStatus.AMOUNT_MISMATCH
  | 3 => mr_status r = MatchStatus.DATE_MISMATCH
  | 4 => mr_status r = MatchStatus.MERCHANT_MISMATCH
  | _ => mr_status r ∈ [MatchStatus.MATCHED; MatchStatus.AMBIGUOUS; MatchStatus.POSSIBLE_DUPLICATE]
  end%nat.
Proof.
  intros [Hpre Hdate] Hl (_&Hw&Hnd&Hdec&Hc&_)%match_statement_Ok.
  assert (bool_decide (st_transaction_date statement = None) &&
          bool_decide (st_posted_date statement = None) = false) as Hd.
  { destruct Hdate; [rewrite bool_decide_eq_false_2 by done; done|].
    rewrite (bool_decide_eq_false_2 (st_posted_date statement = None)) by done. apply andb_false_r. }
  unfold match_outcome in Hc. unfold decide_match in Hdec. rewrite Hpre, Hd in Hc, Hdec.
  destruct l as [|c0 l]; [done|]. split; [rewrite Hc; by apply outcome_candidates|].
  rewrite bool_decide_eq_false_2 in Hdec by done. unfold decision_of in Hdec.
  assert (mr_status r = (diagnosis s statement (c0 :: l)).1.1) as Hs by by rewrite <- Hdec.
  rewrite Hs. unfold diagnosis.
  pose proof (deepest_le s statement (c0 :: l)) as Hle.
  pose proof (proj2 (deepest_acceptable s statement (c0 :: l))) as Hacc.
  pose proof (isort_length (rank_leb s statement) (keep (acceptable s statement) (c0 :: l))) as Hlen.
  destruct (deepest s statement (c0 :: l)) as [|[|[|[|[|n]]]]]; [done..|].
  specialize (Hacc ltac:(lia)).
  destruct (isort _ _) as [|a [|b rest]]; cbn [fst].
  - destruct Hacc. by apply nil_length_inv.
  - set_solver.
  - destruct (candidates_are_duplicates a b); set_solver.
Qed.

Lemma match_statement_reports_deepest_witness :
  ∃ r, match_statement example_settings example_statement (take 1 example_pool) = Ok r ∧
    mr_status r = MatchStatus.AMOUNT_MISMATCH.
Proof.
  destruct (match_statement example_settings example_statement (take 1 example_pool)) as [r|e] eqn:E.
  - exists r. split; [reflexivity|].
    assert (comparable example_statement) as Hc by (split; [by vm_compute|by right]).
    assert (take 1 example_pool ≠ []) as Hne by discriminate.
    destruct (match_statement_reports_deepest _ _ _ _ Hc Hne E) as [_ H].
    assert (deepest example_settings example_statement (take 1 example_pool) = 2%nat) as Hd
      by by vm_compute.
    rewrite Hd in H. exact H.
  - exfalso.
    assert (H : run_match (take 1 example_pool) = Some (MatchStatus.AMOUNT_MISMATCH, None)) by by vm_compute.
    unfold run_match in H. rewrite E in H. discriminate H.
Defined.

(** C21: the order in which the candidates are listed changes neither the
    status, the reasons and the chosen candidate, nor the hashed decision
    record: the same material, decision hash and candidate fingerprint. *)
Theorem decision_order_independent s statement l k r :
  l ≡ₚ k → match_statement s statement l = Ok r →
  ∃ r', match_statement s statement k = Ok r' ∧ decision_of r' = decision_of r ∧
    mr_decision_hash r' = mr_decision_hash r ∧
    mr_decision_material_json r' = mr_decision_material_json r ∧
    mr_candidate_set_fingerprint r' = mr_candidate_set_fingerprint r.
Proof. apply match_statement_perm. Qed.

Lemma decision_order_independent_witness :
  ∃ r r', match_statement example_settings example_statement example_pool = Ok r ∧
    match_statement example_settings example_statement (reverse example_pool) = Ok r' ∧
    mr_decision_hash r' = mr_decision_hash r.
Proof.
  destruct (match_statement example_settings example_statement example_pool) as [r|e] eqn:E.
  - destruct (decision_order_independent _ _ _ (reverse example_pool) _
      ltac:(symmetry; apply reverse_Permutation) E) as (r'&E'&_&Hh&_).
    exists r, r'. split; [reflexivity|]. split; [exact E'|exact Hh].
  - exfalso. pose proof run_match_pool as H. unfold run_match in H. rewrite E in H. discriminate H.
Defined.
