(* ===== verification/ReconDecisionHash.v ===== *)
(** * Verification of persisted decisions

    [verify_persisted_decision_hash] of reconciliation/decision.py: the check
    every stored decision passes before it is written or used.  It accepts
    exactly the canonical texts with their own digest, and every record the
    matcher builds. *)

From Stdlib Require Import Ascii ZArith Lia.
From stdpp Require Import base sets strings sorting numbers list.
From S2P Require Import Prelude PyDecimal PyValue Hash Money PyDate PyFloat Json JsonParse JsonRoundtrip Snapshot SnapshotProps ReconModels ReconDecision ReconMatcher.

Open Scope Z_scope.

(** [unicodedata.normalize("NFC", s)] is a parameter, as for snapshots. *)
Definition verify_persisted_decision_hash (nfc : string → string)
    (decision_hash decision_material_json : string) : bool :=
  if negb (is_sha256 decision_hash) then false
  else
    match json_loads decision_material_json with
    | Ok decoded =>
        match is_envelope decoded with
        | Some value =>
            match canonical_json_bytes nfc (payload_of_json value) with
            | Ok canonical =>
                if negb (String.eqb canonical decision_material_json) then false
                else String.eqb (domain_hash DECISION_HASH_DOMAIN canonical) decision_hash
            | Raise _ => false
            end
        | None => false
        end
    | Raise _ => false
    end.

Section Verify.
Context (nfc : string → string) `{Hnfc : !UnicodeNormalizer nfc}.

Lemma canonical_bytes_sorted p t :
  canonical_json_bytes nfc p = Ok t →
  ∃ j, json_loads t = Ok (envelope (sort_json j)) ∧ canonical_json_bytes nfc (payload_of_json (sort_json j)) = Ok t.
Proof using Hnfc.
  intros Ht. destruct (canonical_bytes_Ok nfc p t Ht) as (j&_&Hj&Hd).
  exists j. split.
  - rewrite <- envelope_sorted. by eapply loads_dumped, Hd; eapply envelope_plain, settled_plain.
  - unfold canonical_json_bytes. rewrite normalize_fixed by by apply settled_sort.
    cbn [mbind result_bind]. by rewrite <- envelope_sorted, json_dumps_sort.
Qed.

Lemma verify_iff h t :
  verify_persisted_decision_hash nfc h t = true ↔
  (∃ p, canonical_json_bytes nfc p = Ok t) ∧ h = domain_hash DECISION_HASH_DOMAIN t.
Proof using Hnfc.
  unfold verify_persisted_decision_hash. split.
  - destruct (is_sha256 h); [|done]. cbn [negb]. destruct (json_loads t) as [v|]; [|done].
    destruct (is_envelope v) as [w|]; [|done]. destruct (canonical_json_bytes nfc (payload_of_json w)) as [c|] eqn:Ec; [|done].
    destruct (String.eqb_spec c t) as [->|]; [|done]. cbn [negb]. intros E%String.eqb_eq. split; [by eexists|done].
  - intros [[p Hp] ->]. unfold domain_hash. rewrite sha256_is_sha256. cbn [negb].
    destruct (canonical_bytes_sorted p t Hp) as (j&Hl&Hc). rewrite Hl.
    change (is_envelope (envelope (sort_json j))) with (Some (sort_json j)). cbn iota beta.
    by rewrite Hc, !String.eqb_refl.
Qed.

(** ** The material of a decision *)

(** The texts of an ASCII document are ASCII. *)
Lemma escape_min_ascii c : forallb is_ascii (escape_min c) = true → is_ascii c = true.
Proof using Type. by destruct c as [[] [] [] [] [] [] [] []]. Qed.

Lemma forallb_mjoin {A B} (p : B → bool) (f : A → list B) l :
  forallb p (mjoin (f <$> l)) = true ↔ Forall (λ x, forallb p (f x) = true) l.
Proof using Type.
  induction l as [|x l IH]; [by split; [constructor|]|].
  change (mjoin (f <$> x :: l)) with (f x ++ mjoin (f <$> l)).
  by rewrite List.forallb_app, andb_true_iff, IH, Forall_cons.
Qed.

Lemma string_ascii s : forallb is_ascii (json_string_with escape_min s) = true → forallb is_ascii (chars s) = true.
Proof using Type.
  unfold json_string_with. cbn [forallb]. rewrite List.forallb_app. intros (_&[H _]%andb_prop)%andb_prop.
  apply forallb_mjoin in H. apply List.forallb_forall. intros c Hc. apply escape_min_ascii.
  rewrite Forall_forall in H. by apply H, list_elem_of_In.
Qed.

Lemma comma_join_ascii l :
  forallb is_ascii (comma_join l) = true → Forall (λ t, forallb is_ascii t = true) l.
Proof using Type.
  induction l as [|x l IH]; [constructor|]. destruct l as [|y l].
  - intros H. repeat constructor. done.
  - cbn [comma_join]. rewrite List.forallb_app. cbn [forallb]. intros [H1 [_ H2]%andb_prop]%andb_prop.
    constructor; [done|by apply IH].
Qed.

Lemma ascii_text_settled v :
  plain_json v → forallb is_ascii (json_chars_with escape_min v) = true → settled nfc v.
Proof using Hnfc.
  induction v as [|b|n|t|s|l IH|d IH] using json_nested_ind; cbn [plain_json json_chars_with settled]; try done.
  - intros _ H. by apply nfc_ascii, string_ascii.
  - rewrite !foldr_and. cbn [forallb]. rewrite List.forallb_app. intros Hp (_&[H _]%andb_prop)%andb_prop.
    apply comma_join_ascii, List.Forall_map in H. rewrite Forall_forall in *.
    intros v Hv. apply IH; [done|by apply Hp|by apply H].
  - rewrite !foldr_and. cbn [forallb]. rewrite List.forallb_app. intros [Hnd Hp] (_&[H _]%andb_prop)%andb_prop.
    split; [done|]. apply comma_join_ascii, List.Forall_map in H. unfold sort_members in H.
    rewrite isort_perm in H. apply List.Forall_map in H. rewrite Forall_forall in *.
    intros [k v] Hkv. specialize (H _ Hkv). cbn [fst snd] in H |- *. rewrite List.forallb_app in H.
    cbn [forallb] in H. apply andb_prop in H as [H1 [_ H2]%andb_prop].
    split; [by apply nfc_ascii, string_ascii|]. apply (IH (k, v) Hkv); [apply (Hp (k, v) Hkv)|done].
Qed.
End Verify.

(** Evaluates the keys of a literal dictionary. *)
Ltac literal_dict :=
  split; [unfold dict_keys; rewrite ?fmap_cons, ?fmap_nil; cbn [fst];
          eapply bool_decide_eq_true_1; vm_compute; reflexivity|];
  cbn [foldr snd].

Lemma text_json_plain o : plain_json (text_json o).
Proof. by destruct o. Qed.
Lemma date_text_plain o : plain_json (date_text o).
Proof. by destruct o. Qed.
Lemma direction_text_plain o : plain_json (direction_text o).
Proof. by destruct o. Qed.
Lemma opt_int_plain o : plain_json (opt_json JInt o).
Proof. by destruct o. Qed.
Lemma decimal_text_plain o j : decimal_text o = Ok j → plain_json j.
Proof.
  destruct o as [d|]; unfold decimal_text; [|by intros [= <-]].
  destruct (canonical_decimal_str _); cbn; [|done]. by intros [= <-].
Qed.
Lemma strs_plain {A} (f : A → string) l : plain_json (JList ((λ x, JStr (f x)) <$> l)).
Proof. cbn. apply foldr_and. induction l; constructor; done. Qed.

#[local] Hint Resolve text_json_plain date_text_plain direction_text_plain opt_int_plain decimal_text_plain
  strs_plain : core.

Lemma candidate_material_plain e j : candidate_material e = Ok j → plain_json j.
Proof.
  unfold candidate_material. intros (a&_&H)%bind_Ok. apply bind_Ok in H as (sc&Hsc&[= <-]).
  literal_dict. by split_and!; eauto.
Qed.

Lemma statement_material_plain st j : statement_material st = Ok j → plain_json j.
Proof.
  unfold statement_material. intros (a&_&H)%bind_Ok. apply bind_Ok in H as (sc&Hsc&[= <-]).
  literal_dict. by split_and!; eauto.
Qed.

Lemma sorted_material_plain l ms :
  sorted_candidate_material l = Ok ms → Forall plain_json ms.
Proof.
  unfold sorted_candidate_material. intros (keyed&Hk&[= <-])%bind_Ok. apply List.Forall_map.
  rewrite isort_perm. apply mapM_Ok in Hk. induction Hk as [|e kv l k He _ IH]; constructor; [|done].
  apply bind_Ok in He as (j&Hj&[= <-]). by eapply candidate_material_plain.
Qed.

Lemma decision_material_plain st r l s m : decision_material st r l s = Ok m → plain_json m.
Proof.
  unfold decision_material. intros (ms&Hms&H)%bind_Ok. apply bind_Ok in H as (sj&Hsj&[= <-]).
  literal_dict. split_and!; eauto; try done.
  - by eapply statement_material_plain.
  - literal_dict. done.
  - cbn. apply foldr_and. by eapply sorted_material_plain.
  - literal_dict. split_and!; eauto; [done|]. by destruct (mr_best_candidate r).
Qed.

(** The check of a persisted decision accepts exactly the canonical texts
    of serialisable values under their own domain-separated SHA-256 digest: a
    text that is not canonical JSON of the contract, or a digest of anything
    else, is refused. *)
Theorem persisted_decision_accepted_iff (nfc : string → string) h t
    `{!UnicodeNormalizer nfc} :
  verify_persisted_decision_hash nfc h t = true ↔
  (∃ p, canonical_json_bytes nfc p = Ok t) ∧ h = domain_hash DECISION_HASH_DOMAIN t.
Proof. by apply verify_iff. Qed.

Lemma persisted_decision_accepted_iff_witness :
  verify_persisted_decision_hash id "" "{}" = true ↔
  (∃ p, canonical_json_bytes id p = Ok "{}") ∧ "" = domain_hash DECISION_HASH_DOMAIN "{}".
Proof. exact (persisted_decision_accepted_iff id "" "{}"). Defined.

Lemma record_verifies (nfc : string → string) statement r evaluations s d m
    `{!UnicodeNormalizer nfc} :
  build_decision_record statement r evaluations s = Ok d →
  decision_material statement r evaluations s = Ok m → printable m = true →
  forallb is_ascii (chars (dr_decision_material_json d)) = true →
  verify_persisted_decision_hash nfc (dr_decision_hash d) (dr_decision_material_json d) = true.
Proof.
  intros Hd Hm Hp Ha.
  unfold build_decision_record in Hd. apply bind_Ok in Hd as (ms&_&Hd). rewrite Hm in Hd.
  injection Hd as [= <-]. cbn [dr_decision_hash dr_decision_material_json] in *.
  apply verify_iff; [done..|]. split; [|done]. exists (payload_of_json m).
  pose proof (decision_material_plain _ _ _ _ _ Hm) as Hplain.
  unfold canonical_json_text in Ha. rewrite chars_of_chars in Ha.
  pose proof (ascii_text_settled nfc _ (envelope_plain _ Hplain) Ha) as Hs.
  apply settled_dict in Hs as [_ Hs]. rewrite !Forall_cons in Hs. destruct Hs as (_&[_ Hs]&_).
  unfold canonical_json_bytes. rewrite normalize_fixed by done. cbn [mbind result_bind].
  unfold json_dumps. cbn. by rewrite Hp.
Qed.

(** The matcher's own decisions pass the check that guards their
    persistence: whatever [match_statement] returns, its decision hash and
    material are accepted (for ASCII material, and integers within Python's
    limit on digits). *)
Theorem matched_decision_verifies (nfc : string → string) s statement l r h t m
    `{!UnicodeNormalizer nfc}
    (Hr : match_statement s statement l = Ok r)
    (Hh : mr_decision_hash r = Some h) (Ht : mr_decision_material_json r = Some t)
    (Hm : decision_material statement (match_outcome s statement l) (evaluate s statement <$> l) s = Ok m)
    (Hp : printable m = true) (Ha : forallb is_ascii (chars t) = true) :
  verify_persisted_decision_hash nfc h t = true.
Proof.
  apply match_statement_Ok in Hr as (_&_&_&_&_&d&Hd&E1&E2&_). rewrite E1 in Hh. rewrite E2 in Ht.
  injection Hh as [= <-]. injection Ht as [= <-]. by eapply record_verifies.
Qed.

Definition example_result : option MatchResult :=
  match match_statement example_settings example_statement example_pool with
  | Ok r => Some r
  | Raise _ => None
  end.
Definition example_hash : string := Eval vm_compute in default "" (example_result ≫= mr_decision_hash).
Definition example_text : string := Eval vm_compute in default "" (example_result ≫= mr_decision_material_json).

Lemma matched_decision_verifies_witness :
  verify_persisted_decision_hash id example_hash example_text = true.
Proof.
  destruct (match_statement example_settings example_statement example_pool) as [r|e] eqn:E.
  - destruct (decision_material example_statement (match_outcome example_settings example_statement example_pool)
      (evaluate example_settings example_statement <$> example_pool) example_settings) as [m|e] eqn:Em.
    + assert (Hh : mr_decision_hash r = Some example_hash ∧ mr_decision_material_json r = Some example_text).
      { assert (Hx : (λ r, (mr_decision_hash r, mr_decision_material_json r)) <$> example_result =
          Some (Some example_hash, Some example_text)) by by vm_compute.
        unfold example_result in Hx. rewrite E in Hx. injection Hx as H1 H2. split; [exact H1|exact H2]. }
      assert (Hp : printable m = true).
      { assert (Hx : match decision_material example_statement (match_outcome example_settings example_statement example_pool)
          (evaluate example_settings example_statement <$> example_pool) example_settings with
          | Ok m => printable m | Raise _ => false end = true) by by vm_compute.
        rewrite Em in Hx. exact Hx. }
      exact (matched_decision_verifies id _ _ _ r _ _ m E (proj1 Hh) (proj2 Hh)
        Em Hp ltac:(by vm_compute)).
    + exfalso. assert (Hx : is_ok (decision_material example_statement (match_outcome example_settings example_statement example_pool)
        (evaluate example_settings example_statement <$> example_pool) example_settings) = true) by by vm_compute.
      rewrite Em in Hx. discriminate Hx.
  - exfalso. pose proof run_match_pool as H. unfold run_match in H. rewrite E in H. discriminate H.
Defined.
