(* ===== verification/ReconBatch.v ===== *)
(** * Reconciliation: batches

    [reconciliation/matching.py]: every statement row is matched against the
    pool of app transactions, rows claiming the same app transaction are
    downgraded, and app transactions no row refers to are reported as missing
    in the statement.  The theorems state that no app transaction stays
    matched twice, that the report is complete, and which rows are accepted
    without review. *)

From Stdlib Require Import Ascii ZArith SpecFloat QArith Lia.
From stdpp Require Import base gmap sets strings sorting numbers list.
From S2P Require Import Prelude PyDecimal PyValue Hash Money Json PyDate PyFloat ReconModels.
From S2P Require Import ReconDecision ReconMatcher.

Open Scope Z_scope.

Definition reason_in (reason : ReasonCode.t) (reasons : list ReasonCode.t) : bool :=
  bool_decide (reason ∈ reasons).

(** [_status_to_issue_type] and the [base_mapping] of [_result_to_issue_type]. *)
Definition status_to_issue_type (status : MatchStatus.t) : IssueType.t :=
  match status with
  | MatchStatus.MATCHED => IssueType.MATCHED
  | MatchStatus.NO_MATCH => IssueType.MISSING_IN_APP
  | MatchStatus.AMOUNT_MISMATCH => IssueType.AMOUNT_MISMATCH
  | MatchStatus.CURRENCY_MISMATCH => IssueType.CURRENCY_MISMATCH
  | MatchStatus.DATE_MISMATCH => IssueType.DATE_MISMATCH
  | MatchStatus.MERCHANT_MISMATCH => IssueType.MERCHANT_MISMATCH
  | MatchStatus.POSSIBLE_DUPLICATE => IssueType.POSSIBLE_DUPLICATE
  | MatchStatus.AMBIGUOUS => IssueType.NEEDS_REVIEW
  | MatchStatus.NEEDS_REVIEW => IssueType.NEEDS_REVIEW
  end.

Definition result_to_issue_type (r : MatchResult) : IssueType.t :=
  if negb (bool_decide (mr_status r = MatchStatus.MATCHED)) then status_to_issue_type (mr_status r)
  else
    let reasons := mr_reasons r in
    let has_date_window := reason_in ReasonCode.POSTED_DATE_WINDOW_MATCH reasons in
    let has_exact_date := reason_in ReasonCode.TRANSACTION_DATE_WITHIN_TOLERANCE reasons ||
                          reason_in ReasonCode.POSTED_DATE_WITHIN_TOLERANCE reasons in
    let has_exact_merchant := reason_in ReasonCode.MERCHANT_EXACT_MATCH reasons in
    let has_norm_merchant := reason_in ReasonCode.MERCHANT_NORMALIZED_MATCH reasons in
    let has_sim_merchant := reason_in ReasonCode.MERCHANT_SIMILARITY_MATCH reasons in
    if has_date_window && negb has_exact_date then
      if has_sim_merchant then IssueType.MERCHANT_VARIATION else IssueType.DATE_WINDOW_MATCH
    else if has_sim_merchant then IssueType.MERCHANT_VARIATION
    else if has_norm_merchant && negb has_exact_merchant then
      if has_exact_date then IssueType.MATCHED
      else if has_date_window then IssueType.MERCHANT_VARIATION
      else IssueType.MATCHED
    else IssueType.MATCHED.

(** [Decimal("d.d")] from its tenths. *)
Definition tenths (n : Z) : fdec := mkdec false n (-1).

Definition compute_confidence (r : MatchResult) : result fdec :=
  match mr_status r with
  | MatchStatus.MATCHED =>
      let reasons := mr_reasons r in
      let base :=
        if reason_in ReasonCode.MERCHANT_EXACT_MATCH reasons then tenths 10
        else if reason_in ReasonCode.MERCHANT_NORMALIZED_MATCH reasons then tenths 8
        else if reason_in ReasonCode.MERCHANT_SIMILARITY_MATCH reasons then tenths 6
        else tenths 7 in
      base ← (if reason_in ReasonCode.POSTED_DATE_WINDOW_MATCH reasons
              then dec_sub base (tenths 1) else Ok base);
      Ok (dec_max base (tenths 5))
  | MatchStatus.AMBIGUOUS => Ok (tenths 3)
  | MatchStatus.POSSIBLE_DUPLICATE => Ok (tenths 4)
  | _ => Ok (tenths 0)
  end.

Definition app_to_internal (app_txns : list AppTransaction) : result (list InternalCandidate) :=
  mapM (λ a, InternalCandidate_new (app_txn_id a) (app_transaction_date a) (app_merchant a)
               (VDec (app_amount a)) (app_currency a) (app_source_type a) (app_source_channel a)
               None None (app_transaction_type a) None) app_txns.

(** The first app transaction with an identifier. *)
Definition find_app (app_txns : list AppTransaction) (id : string) : option AppTransaction :=
  List.find (λ a, String.eqb (app_txn_id a) id) app_txns.

(** ** One row *)

Definition best_app (app_txns : list AppTransaction) (r : MatchResult) : option AppTransaction :=
  match mr_best_candidate r, mr_candidates r with
  | Some c, _ => find_app app_txns (ic_internal_id c)
  | None, c :: _ => find_app app_txns (ic_internal_id c)
  | None, [] => None
  end.

Definition all_apps (app_txns : list AppTransaction) (r : MatchResult) : list AppTransaction :=
  omap (λ c, find_app app_txns (ic_internal_id c)) (mr_candidates r).

Definition row_candidate_id (i : nat) (stmt : StatementTransaction) : string :=
  "cand-" +:+ of_chars (pad_left 3 (int_chars (Z.of_nat i))) +:+ "-" +:+
  or_text (st_statement_row_reference stmt) (st_merchant_raw stmt).

Definition match_row (s : MatcherSettings) (app_txns : list AppTransaction)
    (internal_candidates : list InternalCandidate) (row : nat * StatementTransaction) :
    result ReconciliationCandidate :=
  let '(i, stmt) := row in
  r ← match_statement s stmt internal_candidates;
  confidence ← compute_confidence r;
  Ok (ReconciliationCandidate_new stmt (best_app app_txns r) (all_apps app_txns r) (mr_status r)
        (mr_reasons r) (result_to_issue_type r) confidence (Some (mr_evidence r))
        (row_candidate_id i stmt)).

(** The app transactions a row refers to. *)
Definition row_references (c : ReconciliationCandidate) : list string :=
  (match rc_best_app_transaction c with Some a => [app_txn_id a] | None => [] end) ++
  (app_txn_id <$> rc_all_app_transactions c).

(** ** Reused matches *)

(** The app transaction a row claims as its match. *)
Definition claimed_app (c : ReconciliationCandidate) : option string :=
  if bool_decide (rc_match_status c = MatchStatus.MATCHED)
  then app_txn_id <$> rc_best_app_transaction c else None.

Definition count_claims (counts : pydict Z) (c : ReconciliationCandidate) : pydict Z :=
  match claimed_app c with
  | Some id => dict_set id ((match dict_get id counts with Some n => n | None => 0 end) + 1) counts
  | None => counts
  end.

Definition reused_app_ids (candidates : list ReconciliationCandidate) : list string :=
  (keep (λ p : string * Z, 1 <? p.2) (foldl count_claims [] candidates)).*1.

Definition flag_row (reused : list string) (c : ReconciliationCandidate) : ReconciliationCandidate :=
  match claimed_app c with
  | Some id =>
      if str_in id reused then
        let reasons := rc_reason_codes c in
        let reasons := if reason_in ReasonCode.MULTIPLE_CANDIDATE_MATCHES reasons then reasons
                       else reasons ++ [ReasonCode.MULTIPLE_CANDIDATE_MATCHES] in
        ReconciliationCandidate_new (rc_statement c) (rc_best_app_transaction c)
          (rc_all_app_transactions c) MatchStatus.POSSIBLE_DUPLICATE reasons
          IssueType.POSSIBLE_DUPLICATE (tenths 4) (rc_evidence c) (rc_candidate_id c)
      else c
  | None => c
  end.

Definition flag_reused_matched_app_transactions (candidates : list ReconciliationCandidate) :
    list ReconciliationCandidate :=
  match reused_app_ids candidates with
  | [] => candidates
  | reused => flag_row reused <$> candidates
  end.

(** ** The batch *)

Definition missing_in_statement (a : AppTransaction) : result ReconciliationCandidate :=
  statement ← StatementTransaction_new (Some (app_transaction_date a)) (app_posted_date a)
    (app_merchant a) (app_normalized_merchant a) (VDec (app_amount a)) (Some (app_currency a))
    None None None None None None None
    (VStr (StatementAmountDirection.value StatementAmountDirection.UNKNOWN))
    (match app_amount a with DFin d => Some (dec_str d) | _ => None end) None;
  Ok (ReconciliationCandidate_new statement (Some a) [a] MatchStatus.NO_MATCH
        [ReasonCode.NO_CANDIDATE_FOUND] IssueType.MISSING_IN_STATEMENT (tenths 0) None
        ("cand-missing-stmt-" +:+ app_txn_id a)).

Definition match_batch (statements : list StatementTransaction) (app_transactions : list AppTransaction)
    (date_tolerance_days posted_date_window_days : Z) (merchant_similarity_threshold : spec_float) :
    result (list ReconciliationCandidate) :=
  internal_candidates ← app_to_internal app_transactions;
  let s := default_settings date_tolerance_days posted_date_window_days
             merchant_similarity_threshold in
  rows ← mapM (match_row s app_transactions internal_candidates) (imap pair statements);
  let referenced := mjoin (row_references <$> rows) in
  synthetic ← mapM missing_in_statement
    (keep (λ a, negb (str_in (app_txn_id a) referenced)) app_transactions);
  Ok (flag_reused_matched_app_transactions rows ++ synthetic).

Definition build_summary (candidates : list ReconciliationCandidate) : pydict Z :=
  foldl (λ counts c,
    let key := IssueType.value (rc_issue_type c) in
    dict_set key ((match dict_get key counts with Some n => n | None => 0 end) + 1) counts)
    [] candidates.

(** ** Claims

    Which app transaction a row claims, before and after the rows that claim
    the same one are downgraded. *)

Definition claims (l : list ReconciliationCandidate) : list string := omap claimed_app l.

Definition occurrences (id : string) (l : list string) : Z :=
  Z.of_nat (length (keep (String.eqb id) l)).

Definition claim_count (counts : pydict Z) (id : string) : Z :=
  match dict_get id counts with Some n => n | None => 0 end.

Lemma occurrences_cons id x l :
  occurrences id (x :: l) = (if String.eqb id x then 1 else 0) + occurrences id l.
Proof. unfold occurrences, keep; cbn [List.filter]. destruct (String.eqb id x); cbn [length]; lia. Qed.

Lemma occurrences_nonneg id l : 0 <= occurrences id l.
Proof. unfold occurrences. lia. Qed.

Lemma count_claims_spec l counts id :
  NoDup (dict_keys counts) →
  NoDup (dict_keys (foldl count_claims counts l)) ∧
  claim_count (foldl count_claims counts l) id = claim_count counts id + occurrences id (claims l).
Proof.
  revert counts; induction l as [|c l IH]; intros counts Hnd; cbn.
  { split; [done|]. unfold occurrences; cbn. lia. }
  unfold claims in *; cbn. unfold count_claims at 2 4.
  destruct (claimed_app c) as [k|] eqn:Hk; [|by apply IH].
  destruct (IH (dict_set k (match dict_get k counts with Some n => n | None => 0 end + 1) counts)) as [Hn Hc].
  { destruct (decide (k ∈ dict_keys counts)).
    - by rewrite dict_set_keys_mem.
    - rewrite dict_set_keys_new by done. unfold dict_keys. rewrite fmap_app. apply NoDup_app. split_and!; [done| |apply NoDup_singleton].
      intros x Hx ->%list_elem_of_singleton. done. }
  split; [done|]. rewrite Hc, occurrences_cons. unfold claim_count.
  destruct (String.eqb_spec id k) as [->|Hne].
  - rewrite dict_get_set_eq. lia.
  - rewrite dict_get_set_ne by done. lia.
Qed.

Lemma reused_spec l id : id ∈ reused_app_ids l ↔ 1 < occurrences id (claims l).
Proof.
  destruct (count_claims_spec l [] id) as [Hnd Hc]; [constructor|].
  unfold reused_app_ids. cbn in Hc. unfold claim_count in Hc.
  pose proof (occurrences_nonneg id (claims l)) as H0.
  rewrite list_elem_of_fmap. setoid_rewrite keep_elem_of. split.
  - intros ([k n]&->&Hin&Hn%Z.ltb_lt). cbn in *. by rewrite (dict_get_mem _ _ _ Hnd Hin) in Hc; lia.
  - intros H1. destruct (dict_get id (foldl count_claims [] l)) as [n|] eqn:E; [|lia].
    exists (id, n). split_and!; [done|by apply dict_get_Some_mem|apply Z.ltb_lt; cbn; lia].
Qed.

(** Every row is passed through [flag_row]. *)
Lemma flag_rows l :
  flag_reused_matched_app_transactions l = flag_row (reused_app_ids l) <$> l.
Proof.
  unfold flag_reused_matched_app_transactions.
  destruct (reused_app_ids l) as [|id ids]; [|done].
  rewrite <- (list_fmap_id l) at 1. apply list_fmap_ext. intros i c _.
  unfold flag_row. by destruct (claimed_app c).
Qed.

Lemma flag_row_claim ids c :
  claimed_app (flag_row ids c) =
  match claimed_app c with Some id => if str_in id ids then None else Some id | None => None end.
Proof.
  unfold flag_row. destruct (claimed_app c) as [id|] eqn:E; [|done].
  by destruct (str_in id ids).
Qed.

Lemma claims_flagged ids l :
  claims (flag_row ids <$> l) = keep (λ id, negb (str_in id ids)) (claims l).
Proof.
  unfold claims. induction l as [|c l IH]; [done|]. cbn. rewrite flag_row_claim.
  destruct (claimed_app c) as [id|]; cbn; [|done].
  destruct (str_in id ids); cbn; by rewrite IH.
Qed.

Lemma NoDup_occurrences l : (∀ x, x ∈ l → occurrences x l <= 1) → NoDup l.
Proof.
  induction l as [|x l IH]; intros H; constructor.
  - intros Hx. specialize (H x ltac:(left)). rewrite occurrences_cons, String.eqb_refl in H.
    assert (occurrences x l = 0) as H0 by (pose proof (occurrences_nonneg x l); lia).
    assert (x ∈ keep (String.eqb x) l) as Hk by (apply keep_elem_of; by rewrite String.eqb_refl).
    unfold occurrences in H0. destruct (keep (String.eqb x) l); [by apply elem_of_nil in Hk|done].
  - apply IH. intros y Hy. specialize (H y ltac:(by right)). rewrite occurrences_cons in H.
    destruct (String.eqb y x); lia.
Qed.

Lemma occurrences_elem x l : x ∈ l ↔ 1 <= occurrences x l.
Proof.
  induction l as [|y l IH]; [split; [by intros ?%elem_of_nil|done]|].
  rewrite elem_of_cons, occurrences_cons, IH. pose proof (occurrences_nonneg x l).
  destruct (String.eqb_spec x y); split; intros; try lia; naive_solver lia.
Qed.

Lemma occurrences_keep p x l : occurrences x (keep p l) <= occurrences x l.
Proof.
  induction l as [|y l IH]; [done|]. cbn [keep List.filter]. fold (keep p l).
  destruct (p y); rewrite !occurrences_cons; destruct (String.eqb x y); lia.
Qed.

Lemma flagged_claims_NoDup l : NoDup (claims (flag_reused_matched_app_transactions l)).
Proof.
  rewrite flag_rows, claims_flagged. apply NoDup_occurrences.
  intros x [Hx Hr]%keep_elem_of. apply negb_true_iff, bool_decide_eq_false in Hr.
  rewrite reused_spec in Hr.
  pose proof (occurrences_keep (λ id, negb (str_in id (reused_app_ids l))) x (claims l)). lia.
Qed.

(** ** Shape of a batch *)

Lemma match_batch_Ok statements apps d w t out :
  match_batch statements apps d w t = Ok out →
  ∃ ics rows missing, app_to_internal apps = Ok ics ∧
    mapM (match_row (default_settings d w t) apps ics) (imap pair statements) = Ok rows ∧
    mapM missing_in_statement
      (keep (λ a, negb (str_in (app_txn_id a) (mjoin (row_references <$> rows)))) apps) = Ok missing ∧
    out = flag_reused_matched_app_transactions rows ++ missing.
Proof.
  unfold match_batch. intros (ics&Hi&(rows&Hr&(missing&Hm&[= <-])%bind_Ok)%bind_Ok)%bind_Ok.
  by exists ics, rows, missing.
Qed.

Lemma missing_row a c :
  missing_in_statement a = Ok c →
  rc_best_app_transaction c = Some a ∧ rc_issue_type c = IssueType.MISSING_IN_STATEMENT ∧
  rc_match_status c = MatchStatus.NO_MATCH ∧ st_merchant_raw (rc_statement c) = app_merchant a ∧
  st_transaction_date (rc_statement c) = Some (app_transaction_date a).
Proof.
  intros (st&Hs&[= <-])%bind_Ok. unfold StatementTransaction_new in Hs.
  apply bind_Ok in Hs as (am&_&Hs). apply bind_Ok in Hs as (di&_&Hs).
  apply bind_Ok in Hs as ([]&_&[= <-]). done.
Qed.

Lemma missing_no_claims l ms :
  mapM missing_in_statement l = Ok ms → claims ms = [].
Proof.
  rewrite mapM_Ok. induction 1 as [|a c l ms Ha _ IH]; [done|].
  unfold claims in *; cbn. unfold claimed_app at 1.
  apply missing_row in Ha as (_&_&Hst&_). by rewrite Hst.
Qed.

Lemma match_row_Ok s apps ics p c :
  match_row s apps ics p = Ok c →
  ∃ r confidence, match_statement s p.2 ics = Ok r ∧ compute_confidence r = Ok confidence ∧
    rc_statement c = p.2 ∧ rc_match_status c = mr_status r ∧
    rc_best_app_transaction c = best_app apps r ∧ rc_all_app_transactions c = all_apps apps r ∧
    rc_issue_type c = result_to_issue_type r ∧ rc_confidence_score c = confidence.
Proof.
  destruct p as [i st]. intros (r&Hr&(cf&Hc&[= <-])%bind_Ok)%bind_Ok. by exists r, cf.
Qed.

Lemma flag_row_keeps ids c :
  rc_statement (flag_row ids c) = rc_statement c ∧ row_references (flag_row ids c) = row_references c.
Proof. unfold flag_row. by repeat case_match. Qed.

Lemma find_app_elem apps id a : find_app apps id = Some a → a ∈ apps ∧ app_txn_id a = id.
Proof.
  intros H. apply find_some in H as [H1 H2]. rewrite list_elem_of_In.
  apply String.eqb_eq in H2. done.
Qed.

Lemma row_references_known s apps ics p c id :
  match_row s apps ics p = Ok c → id ∈ row_references c → id ∈ app_txn_id <$> apps.
Proof.
  intros (r&cf&_&_&_&_&Hb&Ha&_)%match_row_Ok. unfold row_references. rewrite Hb, Ha.
  rewrite elem_of_app. intros [H|(a&->&H)%list_elem_of_fmap].
  - destruct (best_app apps r) as [a|] eqn:E; [|by apply elem_of_nil in H].
    apply list_elem_of_singleton in H as ->. apply list_elem_of_fmap_2.
    unfold best_app in E. repeat case_match; try done; by apply find_app_elem in E as [].
  - apply list_elem_of_fmap_2. unfold all_apps in H.
    apply list_elem_of_omap in H as (x&_&Hx). by apply find_app_elem in Hx as [].
Qed.

Lemma imap_pair_snd {A} (f : nat → nat) (l : list A) : (imap (λ i, pair (f i)) l).*2 = l.
Proof. revert f; induction l as [|x l IH]; intros f; cbn; [done|]. f_equal. apply (IH (f ∘ S)). Qed.

(** The rows, in the order of the statements. *)
Lemma match_rows_statements s apps ics statements rows :
  mapM (match_row s apps ics) (imap pair statements) = Ok rows → rc_statement <$> rows = statements.
Proof.
  intros H. apply mapM_Ok in H.
  rewrite <- (imap_pair_snd id statements).
  assert ((imap (λ i, pair (id i)) statements) = imap pair statements) as -> by done.
  induction H as [|p c l rows Hp _ IH]; [done|].
  apply match_row_Ok in Hp as (r&cf&_&_&Hst&_). by rewrite !fmap_cons, Hst, IH.
Qed.

(** ** Acceptance without review *)

(** Same day: the row's transaction date, or its posted date when it has no
    other. *)
Definition SameDay (statement : StatementTransaction) (c : InternalCandidate) : Prop :=
  st_transaction_date statement = Some (ic_transaction_date c) ∨
  st_transaction_date statement = None ∧ ∃ p, st_posted_date statement = Some p ∧
    days_between p (ic_transaction_date c) = 0.

(** Same merchant, as written or after alias normalisation. *)
Definition SameMerchant (statement : StatementTransaction) (c : InternalCandidate) : Prop :=
  merchant_key (st_merchant_raw statement) = merchant_key (ic_merchant c) ∨
  py_lower (statement_merchant statement) = py_lower (normalize_merchant (ic_merchant c)).

Definition SameName (statement : StatementTransaction) (c : InternalCandidate) : Prop :=
  merchant_key (st_merchant_raw statement) = merchant_key (ic_merchant c).

(** The outcome of an evaluation that passed every gate. *)
Lemma evaluate_passed s statement c :
  0 <= ms_posted_date_window_days s → acceptable s statement c = true →
  ∃ d, ce_date_result (evaluate s statement c) = Some d ∧
    (SameDay statement c ∧ (dm_matched_on d = "transaction_date" ∨ dm_matched_on d = "posted_date") ∨
     ¬ SameDay statement c ∧ dm_matched_on d = "posted_date_window") ∧
    (ce_merchant_exact (evaluate s statement c) = true ↔ SameName statement c) ∧
    (ce_merchant_exact (evaluate s statement c) || ce_merchant_normalized_match (evaluate s statement c) = true
     ↔ SameMerchant statement c).
Proof.
  intros Hw Hacc. unfold acceptable in Hacc. rewrite !andb_true_iff in Hacc.
  destruct Hacc as [[[[H1 H2] H3] H4] H5].
  pose proof (compatible_direction statement c) as Hdir. rewrite H2 in Hdir.
  pose proof (matched_date s statement c Hw) as Hdate. rewrite H4 in Hdate.
  unfold evaluate, evaluate_candidate. fold (currency_ok statement c). rewrite H1. cbn [negb].
  rewrite Hdir. cbn [negb]. unfold amount_ok in H3.
  destruct (st_amount statement) as [a|]; [|done]. unfold amount_exact_match. rewrite H3. cbn [negb].
  rewrite Hdate. cbn [negb ce_date_result ce_merchant_exact ce_merchant_normalized_match].
  eexists; split; [done|]. split_and!.
  - clear -Hdate. unfold match_date_window, SameDay in *.
    destruct (st_transaction_date statement) as [d|].
    + case_bool_decide as Hd; [left|done]. subst. split; [by left|by left].
    + destruct (st_posted_date statement) as [p|]; [|done].
      destruct (Z.ltb_spec (days_between p (ic_transaction_date c)) 0); [done|].
      destruct (Z.eqb_spec (days_between p (ic_transaction_date c)) 0) as [E|E].
      * left. split; [right; eauto|by right].
      * destruct (_ <=? _); [right|done]. split; [|done].
        intros [|[_ (?&[= <-]&?)]]; done.
  - apply String.eqb_eq.
  - rewrite orb_true_iff, !String.eqb_eq. done.
Qed.

(** The reasons of a match, read back. *)
Lemma issue_of_match s statement c r :
  0 <= ms_posted_date_window_days s → acceptable s statement c = true →
  mr_status r = MatchStatus.MATCHED → mr_reasons r = matched_reasons (evaluate s statement c) →
  (result_to_issue_type r = IssueType.MATCHED ↔ SameDay statement c ∧ SameMerchant statement c) ∧
  ∃ q, compute_confidence r = Ok q ∧ (1 # 2 <= dval q <= 1)%Q ∧
    (result_to_issue_type r = IssueType.MATCHED → (8 # 10 <= dval q)%Q) ∧
    ((dval q == 1)%Q ↔ SameDay statement c ∧ SameName statement c).
Proof.
  intros Hw Hacc Hst Hre.
  destruct (evaluate_passed s statement c Hw Hacc) as (d&Hd&Hday&Hexact&Hmer).
  assert (SameName statement c → SameMerchant statement c) as Hnm by by left.
  unfold result_to_issue_type, compute_confidence. rewrite Hst, Hre.
  unfold matched_reasons. rewrite Hd.
  destruct (ce_merchant_exact _), (ce_merchant_normalized_match _); cbn [orb] in Hmer;
    destruct Hday as [[Hday [-> | ->]]|[Hday ->]].
  all: match goal with |- (?i = _ ↔ _) ∧ _ => let v := eval vm_compute in i in change i with v end.
  all: split; [split; [intros [=]; naive_solver|intros []; naive_solver]|].
  all: eexists; split; [vm_compute; reflexivity|].
  all: split; [split; vm_compute; congruence|].
  all: split; [try discriminate; intros _; vm_compute; congruence|].
  all: split; [try (intros H; vm_compute in H; discriminate H); intros _; naive_solver
              |intros []; try naive_solver].
  all: vm_compute; reflexivity.
Qed.

Lemma unmatched_confidence r :
  mr_status r ≠ MatchStatus.MATCHED →
  result_to_issue_type r ≠ IssueType.MATCHED ∧
  ∃ q, compute_confidence r = Ok q ∧ (0 <= dval q <= 4 # 10)%Q.
Proof.
  intros H. unfold result_to_issue_type, compute_confidence.
  rewrite bool_decide_eq_false_2 by done. cbn [negb].
  destruct (mr_status r); try done; (split; [done|eexists; split; [done|]; split; vm_compute; congruence]).
Qed.

(** What a returned result says about the row. *)
Lemma result_confidence s statement l r :
  match_statement s statement l = Ok r →
  ∃ q, compute_confidence r = Ok q ∧
    (result_to_issue_type r = IssueType.MATCHED ↔
     ∃ c, mr_best_candidate r = Some c ∧ SameDay statement c ∧ SameMerchant statement c) ∧
    ((dval q == 1)%Q ↔ ∃ c, mr_best_candidate r = Some c ∧ SameDay statement c ∧ SameName statement c) ∧
    (if bool_decide (mr_status r = MatchStatus.MATCHED) then 1 # 2 <= dval q <= 1
     else 0 <= dval q <= 4 # 10)%Q.
Proof.
  intros (_&Hw&_&Hdec&_)%match_statement_Ok. unfold decision_of in Hdec.
  pose proof (decide_match_status s statement l) as Hst.
  rewrite <- Hdec in Hst. cbn [fst snd] in Hst.
  case_bool_decide as Hm.
  - destruct (proj1 Hst Hm) as [c Hc].
    pose proof (decide_match_best s statement l c) as Hb.
    pose proof (decide_match_reasons s statement l c) as Hre.
    rewrite <- Hdec in Hb, Hre. cbn [fst snd] in *.
    destruct (proj1 Hb Hc) as [_ Hk].
    assert (c ∈ keep (acceptable s statement) l) as [_ Hacc]%keep_elem_of by (rewrite Hk; left).
    destruct (issue_of_match s statement c r Hw Hacc Hm (Hre Hc)) as (Hi&q&Hq&Hr&_&H1).
    exists q. split; [done|]. rewrite Hc, Hi, H1.
    split_and!; [naive_solver|naive_solver|by destruct Hr..].
  - destruct (unmatched_confidence r Hm) as [Hi (q&Hq&Hr)]. exists q.
    assert (mr_best_candidate r = None) as -> by (apply eq_None_not_Some; by rewrite <- Hst).
    split; [done|]. split_and!; [naive_solver| |by destruct Hr..].
    split; [|naive_solver]. intros E. rewrite E in Hr. destruct Hr as [_ Hr]. vm_compute in Hr. done.
Qed.

(** ** The contract of a batch *)

Definition example_app (id merchant : string) (n : Z) : AppTransaction :=
  MkApp id (Date 2026 7 1) merchant (DFin (mkdec false n (-2))) "SGD" (Some "personal_expense") None None
    None None.

Definition example_apps : list AppTransaction :=
  [example_app "a1" "Grab" 1230; example_app "a2" "Uber" 500; example_app "a3" "Kopi" 100].

(** Two rows that claim the same app transaction and one that claims its
    own. *)
Definition example_row (merchant : string) (n : Z) : StatementTransaction :=
  MkStatement (Some (Date 2026 7 1)) None merchant None (Some (mkdec false n (-2))) (Some "SGD")
    None None None None None None None (Some StatementAmountDirection.DEBIT) None None.

Definition example_rows : list StatementTransaction :=
  [example_row "GRAB" 1230; example_row "Grab Food" 1230; example_row "uber" 500].

Definition run_batch : option (list (IssueType.t * option string)) :=
  match match_batch example_rows example_apps 3 3 float_half with
  | Ok l => Some ((λ c, (rc_issue_type c, app_txn_id <$> rc_best_app_transaction c)) <$> l)
  | Raise _ => None
  end.

Example run_batch_result :
  run_batch = Some
    [(IssueType.POSSIBLE_DUPLICATE, Some "a1"); (IssueType.POSSIBLE_DUPLICATE, Some "a1");
     (IssueType.MATCHED, Some "a2"); (IssueType.MISSING_IN_STATEMENT, Some "a3")].
Proof. by vm_compute. Qed.

(** C7: in a batch report no two rows stay matched to the same app
    transaction: those left matched are exactly the ones a single row claimed,
    and every row claiming a contested one is downgraded to a possible
    duplicate. *)
Theorem batch_never_double_matches statements apps d w t out :
  match_batch statements apps d w t = Ok out →
  NoDup (claims out) ∧
  ∃ ics rows missing, app_to_internal apps = Ok ics ∧
    mapM (match_row (default_settings d w t) apps ics) (imap pair statements) = Ok rows ∧
    out = flag_reused_matched_app_transactions rows ++ missing ∧
    (∀ id, id ∈ claims out ↔ occurrences id (claims rows) = 1) ∧
    Forall2 (λ before after,
      after = before ∨
      rc_match_status after = MatchStatus.POSSIBLE_DUPLICATE ∧
      rc_issue_type after = IssueType.POSSIBLE_DUPLICATE ∧
      ∃ id, claimed_app before = Some id ∧ 1 < occurrences id (claims rows))
      rows (flag_reused_matched_app_transactions rows).
Proof.
  intros (ics&rows&missing&Hi&Hr&Hm&->)%match_batch_Ok.
  assert (claims (flag_reused_matched_app_transactions rows ++ missing) =
          claims (flag_reused_matched_app_transactions rows)) as Hc.
  { unfold claims. rewrite omap_app. fold (claims missing).
    by rewrite (missing_no_claims _ _ Hm), app_nil_r. }
  rewrite Hc. split; [apply flagged_claims_NoDup|].
  exists ics, rows, missing. split_and!; [done..| |].
  - intros id. rewrite flag_rows, claims_flagged, keep_elem_of, negb_true_iff.
    unfold str_in. rewrite bool_decide_eq_false, reused_spec.
    rewrite (occurrences_elem id). lia.
  - rewrite flag_rows. apply Forall2_fmap_r, Forall_Forall2_diag, Forall_forall. intros c _.
    cbv beta delta [compose]. unfold flag_row. destruct (claimed_app c) as [id|] eqn:E; [|by left].
    destruct (str_in id (reused_app_ids rows)) eqn:Ei; [right|by left].
    apply bool_decide_eq_true in Ei. rewrite reused_spec in Ei.
    split; [done|]. split; [done|]. by exists id.
Qed.

(** a batch report is complete: it starts with one row per statement, in
    order; the rows refer to known app transactions only; and it ends with
    exactly one MISSING_IN_STATEMENT row, naming the app transaction, for each
    app transaction no row refers to. *)
Theorem batch_report_complete statements apps d w t out :
  match_batch statements apps d w t = Ok out →
  ∃ matched missing, out = matched ++ missing ∧
    rc_statement <$> matched = statements ∧
    Forall (λ id, id ∈ app_txn_id <$> apps) (mjoin (row_references <$> matched)) ∧
    rc_best_app_transaction <$> missing =
      Some <$> keep (λ a, negb (str_in (app_txn_id a) (mjoin (row_references <$> matched)))) apps ∧
    Forall (λ c, rc_issue_type c = IssueType.MISSING_IN_STATEMENT ∧
                 rc_match_status c = MatchStatus.NO_MATCH ∧
                 ∃ a, rc_best_app_transaction c = Some a ∧
                   st_merchant_raw (rc_statement c) = app_merchant a ∧
                   st_transaction_date (rc_statement c) = Some (app_transaction_date a)) missing.
Proof.
  intros (ics&rows&missing&Hi&Hr&Hm&->)%match_batch_Ok.
  exists (flag_reused_matched_app_transactions rows), missing. rewrite flag_rows.
  assert (row_references <$> (flag_row (reused_app_ids rows) <$> rows) = row_references <$> rows) as Href.
  { rewrite <- list_fmap_compose. apply list_fmap_ext. intros i c _. apply flag_row_keeps. }
  rewrite Href. split; [done|].
  assert (Hmiss := Hm). apply mapM_Ok in Hmiss. split_and!.
  - rewrite <- (match_rows_statements _ _ _ _ _ Hr), <- list_fmap_compose.
    apply list_fmap_ext. intros i c _. apply flag_row_keeps.
  - apply Forall_forall. intros id (ids&Hid&(c&->&Hc)%list_elem_of_fmap)%list_elem_of_join.
    apply mapM_Ok, Forall2_flip in Hr.
    apply list_elem_of_lookup in Hc as [i Hc].
    destruct (Forall2_lookup_l _ _ _ _ _ Hr Hc) as (p&_&Hp).
    by apply (row_references_known _ _ _ _ _ _ Hp).
  - clear Hm. induction Hmiss as [|a c l ms Ha _ IH]; [done|].
    apply missing_row in Ha as [Hb _]. by rewrite !fmap_cons, Hb, IH.
  - clear Hm Href. induction Hmiss as [|a c l ms Ha _ IH]; constructor; [|done].
    apply missing_row in Ha as (?&?&?&?&?). by eauto 6.
Qed.

(** the issue type and the confidence of a row say how good its match is:
    the issue type is MATCHED, needing no review, exactly when a candidate
    was chosen that has the same day and the same merchant as the row; the
    confidence always exists, is 1 exactly for the same day and the same
    written merchant, lies between 1/2 and 1 for a matched row and never
    exceeds 4/10 otherwise. *)
Theorem accepted_without_review s statement l r :
  match_statement s statement l = Ok r →
  ∃ q, compute_confidence r = Ok q ∧
    (result_to_issue_type r = IssueType.MATCHED ↔
     ∃ c, mr_best_candidate r = Some c ∧ SameDay statement c ∧ SameMerchant statement c) ∧
    ((dval q == 1)%Q ↔ ∃ c, mr_best_candidate r = Some c ∧ SameDay statement c ∧ SameName statement c) ∧
    (if bool_decide (mr_status r = MatchStatus.MATCHED) then 1 # 2 <= dval q <= 1
     else 0 <= dval q <= 4 # 10)%Q.
Proof. apply result_confidence. Qed.

Lemma batch_never_double_matches_witness :
  ∃ out, match_batch example_rows example_apps 3 3 float_half = Ok out ∧ NoDup (claims out).
Proof.
  destruct (match_batch example_rows example_apps 3 3 float_half) as [out|e] eqn:E.
  - exists out. split; [reflexivity|]. exact (proj1 (batch_never_double_matches _ _ _ _ _ _ E)).
  - exfalso. pose proof run_batch_result as H. unfold run_batch in H. rewrite E in H. discriminate H.
Defined.

Lemma batch_report_complete_witness :
  ∃ out matched missing, match_batch example_rows example_apps 3 3 float_half = Ok out ∧
    out = matched ++ missing ∧ rc_statement <$> matched = example_rows.
Proof.
  destruct (match_batch example_rows example_apps 3 3 float_half) as [out|e] eqn:E.
  - destruct (batch_report_complete _ _ _ _ _ _ E) as (matched&missing&Ho&Hs&_).
    exists out, matched, missing. split; [reflexivity|]. split; [exact Ho|exact Hs].
  - exfalso. pose proof run_batch_result as H. unfold run_batch in H. rewrite E in H. discriminate H.
Defined.

Lemma accepted_without_review_witness :
  ∃ r q, match_statement example_settings example_statement example_pool = Ok r ∧
    compute_confidence r = Ok q ∧ result_to_issue_type r ≠ IssueType.MATCHED.
Proof.
  destruct (match_statement example_settings example_statement example_pool) as [r|e] eqn:E.
  - destruct (accepted_without_review _ _ _ _ E) as (q&Hq&_).
    exists r, q. split; [reflexivity|]. split; [exact Hq|].
    assert (H : (result_to_issue_type <$> match_statement example_settings example_statement example_pool) =
                Ok IssueType.DATE_WINDOW_MATCH) by by vm_compute.
    rewrite E in H. injection H as H. rewrite H. discriminate.
  - exfalso. pose proof run_match_pool as H. unfold run_match in H. rewrite E in H. discriminate H.
Defined.
