(* ===== verification/ReviewModels.v ===== *)
(** * The records of review and apply

    The second half of reconciliation/models.py: review queue items, the
    decisions a reviewer takes on them, the instructions and results of the
    apply runtime, and the tables that tie issue types, suggested actions,
    priorities and allowed actions together.  Also the [repr] of these
    dataclasses, from which an instruction's source fingerprint is computed;
    texts are ASCII there. *)

From Stdlib Require Import Ascii ZArith SpecFloat Lia.
From stdpp Require Import base sets strings sorting numbers list.
From S2P Require Import Prelude PyDecimal PyValue Hash Json PyDate PyFloat ReconModels.

Open Scope Z_scope.

(** ** Records *)

Record ReconciliationReviewEvidence := MkReviewEvidence {
  re_statement_reference : option string;
  re_statement_transaction_date : option date;
  re_statement_posted_date : option date;
  re_statement_merchant : option string;
  re_statement_amount : option fdec;
  re_statement_currency : option string;
  re_app_transaction_id : option string;
  re_app_transaction_date : option date;
  re_app_merchant : option string;
  re_app_amount : option decimal;
  re_app_currency : option string;
  re_amount_delta : option decimal;
  re_date_delta_days : option Z;
  re_merchant_similarity : option spec_float;
  re_candidate_count : Z;
  re_reason_codes : list ReasonCode.t;
  re_issue_type : IssueType.t;
  re_review_priority : ReviewPriority.t;
  re_suggested_action : SuggestedAction.t;
  re_confidence_score : fdec;
}.

Record ReviewQueueItem := MkItem {
  qi_candidate : ReconciliationCandidate;
  qi_issue_type : IssueType.t;
  qi_suggested_action : SuggestedAction.t;
  qi_queue_item_id : string;
  qi_reason_codes : list ReasonCode.t;
  qi_evidence_summary : string;
  qi_structured_evidence : option ReconciliationReviewEvidence;
  qi_priority : Z;
}.

Record ResolutionDecision := MkResolution {
  rd_decision_id : string;
  rd_queue_item_id : string;
  rd_action : ResolutionAction.t;
  rd_note : string;
  rd_reviewer : string;
  rd_resolved_at : option string;
}.

Record ResolutionApplyResult := MkApplyResult {
  ar_apply_id : string;
  ar_decision_id : string;
  ar_queue_item_id : string;
  ar_candidate_id : string;
  ar_action : ResolutionAction.t;
  ar_success : bool;
  ar_payload : json;
  ar_error_message : option string;
  ar_audit_evidence : json;
  ar_applied_at : string;
  ar_reviewer : string;
  ar_note : string;
  ar_statement_reference : option string;
  ar_app_transaction_reference : option string;
  ar_idempotent : bool;
}.

(** [ai_item] is the field [_item], which comparisons leave out. *)
Record ApplyInstruction := MkInstruction {
  ai_instruction_id : string;
  ai_decision_id : string;
  ai_queue_item_id : string;
  ai_candidate_id : string;
  ai_action : ResolutionAction.t;
  ai_reviewer : string;
  ai_note : string;
  ai_resolved_at : option string;
  ai_issue_type : IssueType.t;
  ai_statement_ref : option string;
  ai_app_transaction_ref : option string;
  ai_evidence_refs : list string;
  ai_audit_metadata : pydict string;
  ai_item : option ReviewQueueItem;
}.

Record BatchApplyResult := MkBatchResult {
  br_batch_id : string;
  br_state : BatchApplyState.t;
  br_results : list ResolutionApplyResult;
  br_audit_metadata : json;
  br_error_message : option string;
  br_batch_applied_at : string;
  br_idempotent : bool;
}.

(** [BatchApplyState.is_terminal]. *)
Definition is_terminal (s : BatchApplyState.t) : bool :=
  match s with BatchApplyState.APPLIED | BatchApplyState.REJECTED => true | _ => false end.

Definition BatchApplyResult_success (r : BatchApplyResult) : bool :=
  bool_decide (br_state r = BatchApplyState.APPLIED) && negb (br_idempotent r).
Definition BatchApplyResult_is_terminal (r : BatchApplyResult) : bool := is_terminal (br_state r).
Definition applied_count (r : BatchApplyResult) : Z :=
  Z.of_nat (length (filter (λ x, ar_success x = true) (br_results r))).
Definition failed_count (r : BatchApplyResult) : Z :=
  Z.of_nat (length (filter (λ x, ar_success x = false) (br_results r))).

(** ** Tables *)

Definition suggested_action_for_issue (issue_type : IssueType.t) : SuggestedAction.t :=
  match issue_type with
  | IssueType.MATCHED => SuggestedAction.CONFIRM_MATCH
  | IssueType.AMOUNT_MISMATCH | IssueType.CURRENCY_MISMATCH | IssueType.DATE_MISMATCH
  | IssueType.DATE_WINDOW_MATCH => SuggestedAction.ADJUST_APP_TRANSACTION
  | IssueType.MERCHANT_MISMATCH | IssueType.MERCHANT_VARIATION => SuggestedAction.NEEDS_MORE_INFO
  | IssueType.MISSING_IN_APP => SuggestedAction.CREATE_MISSING_APP_TRANSACTION
  | IssueType.MISSING_IN_STATEMENT => SuggestedAction.MARK_STATEMENT_ONLY
  | IssueType.POSSIBLE_DUPLICATE => SuggestedAction.MARK_DUPLICATE
  | IssueType.NEEDS_REVIEW | IssueType.LOW_CONFIDENCE_MATCH => SuggestedAction.NEEDS_MORE_INFO
  end.

Definition priority_score_for_issue (issue_type : IssueType.t) : Z :=
  match issue_type with
  | IssueType.AMOUNT_MISMATCH => 0
  | IssueType.CURRENCY_MISMATCH => 1
  | IssueType.POSSIBLE_DUPLICATE => 2
  | IssueType.DATE_MISMATCH => 3
  | IssueType.MISSING_IN_APP => 4
  | IssueType.MERCHANT_MISMATCH => 5
  | IssueType.MISSING_IN_STATEMENT => 6
  | IssueType.NEEDS_REVIEW => 7
  | IssueType.DATE_WINDOW_MATCH => 8
  | IssueType.MERCHANT_VARIATION => 9
  | IssueType.LOW_CONFIDENCE_MATCH => 10
  | IssueType.MATCHED => 99
  end.

Definition priority_for_issue (issue_type : IssueType.t) : Z := priority_score_for_issue issue_type.

Definition ACTION_TO_SUPPORTED_ISSUE_TYPES (action : ResolutionAction.t) : list IssueType.t :=
  match action with
  | ResolutionAction.CONFIRM_MATCH => [IssueType.MATCHED; IssueType.NEEDS_REVIEW]
  | ResolutionAction.ADJUST_APP_TRANSACTION =>
      [IssueType.AMOUNT_MISMATCH; IssueType.CURRENCY_MISMATCH; IssueType.DATE_MISMATCH;
       IssueType.DATE_WINDOW_MATCH; IssueType.MERCHANT_MISMATCH; IssueType.MERCHANT_VARIATION]
  | ResolutionAction.CREATE_MISSING_APP_TRANSACTION => [IssueType.MISSING_IN_APP]
  | ResolutionAction.MARK_STATEMENT_ONLY => [IssueType.MISSING_IN_STATEMENT; IssueType.NEEDS_REVIEW]
  | ResolutionAction.MARK_DUPLICATE => [IssueType.POSSIBLE_DUPLICATE]
  | ResolutionAction.IGNORE | ResolutionAction.NEEDS_MORE_INFO => []
  end.

Definition review_priority_for_issue (issue_type : IssueType.t) : ReviewPriority.t :=
  match issue_type with
  | IssueType.AMOUNT_MISMATCH | IssueType.CURRENCY_MISMATCH | IssueType.MISSING_IN_APP
  | IssueType.POSSIBLE_DUPLICATE => ReviewPriority.HIGH
  | IssueType.DATE_MISMATCH | IssueType.DATE_WINDOW_MATCH | IssueType.MERCHANT_VARIATION
  | IssueType.MERCHANT_MISMATCH | IssueType.MISSING_IN_STATEMENT | IssueType.NEEDS_REVIEW
  | IssueType.LOW_CONFIDENCE_MATCH => ReviewPriority.MEDIUM
  | IssueType.MATCHED => ReviewPriority.LOW
  end.

Definition is_resolution_compatible (action : ResolutionAction.t) (issue_type : IssueType.t) : bool :=
  match ACTION_TO_SUPPORTED_ISSUE_TYPES action with
  | [] => true
  | supported => bool_decide (issue_type ∈ supported)
  end.

(** [sep.join(l)]. *)
Fixpoint py_join (sep : string) (l : list string) : string :=
  match l with
  | [] => ""
  | [x] => x
  | x :: l => x +:+ sep +:+ py_join sep l
  end.

Definition validate_resolution_decision (action : ResolutionAction.t) (issue_type : IssueType.t) :
    bool * option string :=
  if is_resolution_compatible action issue_type then (true, None)
  else (false, Some ("Action '" +:+ ResolutionAction.value action +:+ "' is not compatible with issue type '" +:+
    IssueType.value issue_type +:+ "'. Supported issue types: " +:+
    py_join ", " (IssueType.value <$> ACTION_TO_SUPPORTED_ISSUE_TYPES action))).

(** ** [str] and [repr] *)

(** [str(d)] of any decimal. *)
Definition decimal_str (d : decimal) : string :=
  match d with
  | DFin d => dec_str d
  | DInf s => if s then "-Infinity" else "Infinity"
  | DNaN _ _ => "NaN"
  end.

Definition squote : Ascii.ascii := Ascii.ascii_of_N 39.

Definition repr_char (quote c : Ascii.ascii) : list Ascii.ascii :=
  let n := ascii_code c in
  if Ascii.eqb c quote || Ascii.eqb c backslash then [backslash; c]
  else if n =? 9 then [backslash; "t"%char]
  else if n =? 10 then [backslash; "n"%char]
  else if n =? 13 then [backslash; "r"%char]
  else if (n <? 32) || (n =? 127) then backslash :: "x"%char :: hex_byte n
  else [c].

Definition repr_str (s : string) : string :=
  let l := chars s in
  let quote := if existsb (Ascii.eqb squote) l && negb (existsb (Ascii.eqb dquote) l) then dquote else squote in
  of_chars (quote :: mjoin (repr_char quote <$> l) ++ [quote]).

Definition repr_int (n : Z) : string := of_chars (int_chars n).
Definition repr_bool (b : bool) : string := if b then "True" else "False".
Definition repr_opt {A} (f : A → string) (o : option A) : string :=
  match o with Some a => f a | None => "None" end.
Definition repr_date (d : date) : string :=
  "datetime.date(" +:+ py_join ", " (repr_int <$> [year d; month d; day d]) +:+ ")".
Definition repr_decimal (d : decimal) : string := "Decimal('" +:+ decimal_str d +:+ "')".
Definition repr_tuple (l : list string) : string :=
  match l with [x] => "(" +:+ x +:+ ",)" | _ => "(" +:+ py_join ", " l +:+ ")" end.
(** The members of the enumerations are named after their values. *)
Definition repr_enum (cls value : string) : string :=
  "<" +:+ cls +:+ "." +:+ py_upper value +:+ ": " +:+ repr_str value +:+ ">".
Definition repr_record (cls : string) (fields : list (string * string)) : string :=
  cls +:+ "(" +:+ py_join ", " ((λ kv, kv.1 +:+ "=" +:+ kv.2) <$> fields) +:+ ")".

Definition repr_fdec (d : fdec) : string := repr_decimal (DFin d).
Definition repr_reason (r : ReasonCode.t) : string := repr_enum "ReasonCode" (ReasonCode.value r).
Definition repr_type_hint (h : type_hint) : string :=
  match h with
  | HintType t => repr_enum "ReconciliationTransactionType" (ReconciliationTransactionType.value t)
  | HintText s => repr_str s
  end.

Definition repr_statement (s : StatementTransaction) : string :=
  repr_record "StatementTransaction"
    [("transaction_date", repr_opt repr_date (st_transaction_date s));
     ("posted_date", repr_opt repr_date (st_posted_date s));
     ("merchant_raw", repr_str (st_merchant_raw s));
     ("merchant_normalized", repr_opt repr_str (st_merchant_normalized s));
     ("amount", repr_opt repr_fdec (st_amount s));
     ("currency", repr_opt repr_str (st_currency s));
     ("account_name", repr_opt repr_str (st_account_name s));
     ("account_id", repr_opt repr_str (st_account_id s));
     ("source_batch_id", repr_opt repr_str (st_source_batch_id s));
     ("statement_row_reference", repr_opt repr_str (st_statement_row_reference s));
     ("public_id", repr_opt repr_str (st_public_id s));
     ("row_fingerprint", repr_opt repr_str (st_row_fingerprint s));
     ("source_content_hash", repr_opt repr_str (st_source_content_hash s));
     ("amount_direction", repr_opt (λ d, repr_enum "StatementAmountDirection" (StatementAmountDirection.value d))
                            (st_amount_direction s));
     ("raw_amount", repr_opt repr_str (st_raw_amount s));
     ("raw_amount_type", repr_opt repr_str (st_raw_amount_type s))].

Definition repr_app (a : AppTransaction) : string :=
  repr_record "AppTransaction"
    [("app_txn_id", repr_str (app_txn_id a));
     ("transaction_date", repr_date (app_transaction_date a));
     ("merchant", repr_str (app_merchant a));
     ("amount", repr_decimal (app_amount a));
     ("currency", repr_str (app_currency a));
     ("source_type", repr_opt repr_str (app_source_type a));
     ("source_channel", repr_opt repr_str (app_source_channel a));
     ("normalized_merchant", repr_opt repr_str (app_normalized_merchant a));
     ("posted_date", repr_opt repr_date (app_posted_date a));
     ("transaction_type", repr_opt repr_type_hint (app_transaction_type a))].

Definition repr_evidence (e : MatchEvidence) : string :=
  repr_record "MatchEvidence"
    [("statement_amount", repr_opt repr_fdec (ev_statement_amount e));
     ("candidate_amount", repr_opt repr_fdec (ev_candidate_amount e));
     ("statement_currency", repr_opt repr_str (ev_statement_currency e));
     ("candidate_currency", repr_opt repr_str (ev_candidate_currency e));
     ("statement_txn_date", repr_opt repr_date (ev_statement_txn_date e));
     ("statement_posted_date", repr_opt repr_date (ev_statement_posted_date e));
     ("candidate_txn_date", repr_opt repr_date (ev_candidate_txn_date e));
     ("date_delta_days", repr_opt repr_int (ev_date_delta_days e));
     ("date_tolerance_days", repr_int (ev_date_tolerance_days e));
     ("statement_merchant", repr_opt repr_str (ev_statement_merchant e));
     ("candidate_merchant", repr_opt repr_str (ev_candidate_merchant e));
     ("statement_merchant_normalized", repr_opt repr_str (ev_statement_merchant_normalized e));
     ("candidate_merchant_normalized", repr_opt repr_str (ev_candidate_merchant_normalized e));
     ("merchant_similarity", repr_opt float_repr (ev_merchant_similarity e));
     ("candidate_count", repr_int (ev_candidate_count e));
     ("statement_direction", repr_opt repr_str (ev_statement_direction e));
     ("candidate_transaction_type", repr_opt repr_str (ev_candidate_transaction_type e));
     ("original_amount_text", repr_opt repr_str (ev_original_amount_text e));
     ("original_amount_sign", repr_opt repr_str (ev_original_amount_sign e));
     ("compatibility_result", repr_opt repr_str (ev_compatibility_result e));
     ("hard_gate_results", repr_tuple (repr_str <$> ev_hard_gate_results e))].

Definition repr_candidate (c : ReconciliationCandidate) : string :=
  repr_record "ReconciliationCandidate"
    [("statement", repr_statement (rc_statement c));
     ("best_app_transaction", repr_opt repr_app (rc_best_app_transaction c));
     ("all_app_transactions", repr_tuple (repr_app <$> rc_all_app_transactions c));
     ("match_status", repr_enum "MatchStatus" (MatchStatus.value (rc_match_status c)));
     ("reason_codes", repr_tuple (repr_reason <$> rc_reason_codes c));
     ("issue_type", repr_enum "IssueType" (IssueType.value (rc_issue_type c)));
     ("confidence_score", repr_fdec (rc_confidence_score c));
     ("evidence", repr_opt repr_evidence (rc_evidence c));
     ("candidate_id", repr_str (rc_candidate_id c));
     ("review_priority", repr_enum "ReviewPriority" (ReviewPriority.value (rc_review_priority c)));
     ("is_review_required", repr_bool (rc_is_review_required c))].

Definition repr_review_evidence (e : ReconciliationReviewEvidence) : string :=
  repr_record "ReconciliationReviewEvidence"
    [("statement_reference", repr_opt repr_str (re_statement_reference e));
     ("statement_transaction_date", repr_opt repr_date (re_statement_transaction_date e));
     ("statement_posted_date", repr_opt repr_date (re_statement_posted_date e));
     ("statement_merchant", repr_opt repr_str (re_statement_merchant e));
     ("statement_amount", repr_opt repr_fdec (re_statement_amount e));
     ("statement_currency", repr_opt repr_str (re_statement_currency e));
     ("app_transaction_id", repr_opt repr_str (re_app_transaction_id e));
     ("app_transaction_date", repr_opt repr_date (re_app_transaction_date e));
     ("app_merchant", repr_opt repr_str (re_app_merchant e));
     ("app_amount", repr_opt repr_decimal (re_app_amount e));
     ("app_currency", repr_opt repr_str (re_app_currency e));
     ("amount_delta", repr_opt repr_decimal (re_amount_delta e));
     ("date_delta_days", repr_opt repr_int (re_date_delta_days e));
     ("merchant_similarity", repr_opt float_repr (re_merchant_similarity e));
     ("candidate_count", repr_int (re_candidate_count e));
     ("reason_codes", repr_tuple (repr_reason <$> re_reason_codes e));
     ("issue_type", repr_enum "IssueType" (IssueType.value (re_issue_type e)));
     ("review_priority", repr_enum "ReviewPriority" (ReviewPriority.value (re_review_priority e)));
     ("suggested_action", repr_enum "SuggestedAction" (SuggestedAction.value (re_suggested_action e)));
     ("confidence_score", repr_fdec (re_confidence_score e))].

(** [repr(item)]. *)
Definition repr_item (i : ReviewQueueItem) : string :=
  repr_record "ReviewQueueItem"
    [("candidate", repr_candidate (qi_candidate i));
     ("issue_type", repr_enum "IssueType" (IssueType.value (qi_issue_type i)));
     ("suggested_action", repr_enum "SuggestedAction" (SuggestedAction.value (qi_suggested_action i)));
     ("queue_item_id", repr_str (qi_queue_item_id i));
     ("reason_codes", repr_tuple (repr_reason <$> qi_reason_codes i));
     ("evidence_summary", repr_str (qi_evidence_summary i));
     ("structured_evidence", repr_opt repr_review_evidence (qi_structured_evidence i));
     ("priority", repr_int (qi_priority i))].

Example repr_record_tests :
  repr_str "it's" = of_chars (dquote :: chars "it's" ++ [dquote]) ∧
  repr_str (of_chars [squote; dquote; backslash; Ascii.ascii_of_N 1]) =
    of_chars (squote :: backslash :: squote :: dquote :: backslash :: backslash :: backslash ::
              chars "x01" ++ [squote]) ∧
  repr_date (Date 2024 1 2) = "datetime.date(2024, 1, 2)" ∧
  repr_enum "IssueType" "missing_in_app" = "<IssueType.MISSING_IN_APP: 'missing_in_app'>" ∧
  repr_tuple ["a"] = "(a,)" ∧ repr_tuple [] = "()".
Proof. by vm_compute. Qed.
