(* ===== verification/BoundCodec.v ===== *)
(** * Snapshots of review items

    The reflective encoder and decoder of reconciliation/source_binding.py.
    The source walks the declared types of the dataclasses; here every type
    has an instance of [Snapshot], built from the instances of its fields, so
    the instances follow the declarations in reconciliation/models.py.  Values
    whose run-time type differs from the declared one do not exist in the
    model, so [_assert_runtime_type] holds by typing. *)

From Stdlib Require Import Ascii ZArith SpecFloat Lia.
From stdpp Require Import base sets strings sorting numbers list.
From S2P Require Import Prelude PyDecimal PyValue Hash Json JsonParse PyDate PyDateTime PyFloat ReconModels ReviewModels.

Open Scope Z_scope.

(** ** Equality of JSON values in Python *)

(** The float a text of [json.loads] or [json.dumps] stands for. *)
Definition text_float (t : list Ascii.ascii) : option spec_float :=
  let '(negative, l1) := take_minus t in
  let signed f := if negative then SFopp f else f in
  match scan_int l1 with
  | ([], _) =>
      if bool_decide (l1 = chars "Infinity") then Some (signed (S754_infinity false))
      else if bool_decide (t = chars "NaN") then Some S754_nan else None
  | (ds, l2) =>
      let '(frac, l3) := scan_fraction l2 in
      let '(ex, _) := scan_exponent l3 in
      Some (signed (float_of_scaled (of_digits (ds ++ frac))
                      (exponent_value l3 ex - Z.of_nat (length frac))))
  end.

Definition is_finite_float (f : spec_float) : bool :=
  match f with S754_zero _ | S754_finite _ _ _ => true | _ => false end.

(** [n == f] of an integer and a float. *)
Definition int_eq_float (n : Z) (f : spec_float) : bool :=
  is_finite_float f && (n * float_den f =? float_num f).

Definition bool_int (b : bool) : Z := if b then 1 else 0.
Definition text_eqb (eq : spec_float → bool) (t : list Ascii.ascii) : bool :=
  match text_float t with Some f => eq f | None => false end.

(** Numbers of any type are compared by value, dictionaries without regard
    to their order. *)
Fixpoint json_eqb (a b : json) {struct a} : bool :=
  match a, b with
  | JNull, JNull => true
  | JBool x, JBool y => Bool.eqb x y
  | JBool x, JInt n | JInt n, JBool x => bool_int x =? n
  | JInt n, JInt m => n =? m
  | JBool x, JNum t | JNum t, JBool x => text_eqb (int_eq_float (bool_int x)) t
  | JInt n, JNum t | JNum t, JInt n => text_eqb (int_eq_float n) t
  | JNum t, JNum u => text_eqb (λ f, text_eqb (SFeqb f) u) t
  | JStr s, JStr t => String.eqb s t
  | JList l, JList k =>
      (fix all l k :=
         match l, k with
         | [], [] => true
         | x :: l, y :: k => json_eqb x y && all l k
         | _, _ => false
         end) l k
  | JDict d, JDict e =>
      (length d =? length e)%nat &&
      (fix all d :=
         match d with
         | [] => true
         | (k, v) :: d => match dict_get k e with Some w => json_eqb v w | None => false end && all d
         end) d
  | _, _ => false
  end.

Example json_eqb_tests :
  json_eqb (JDict [("a", JInt 1); ("b", JNum (chars "0.5"))])
           (JDict [("b", JNum (chars "0.5")); ("a", JNum (chars "1.0"))]) = true ∧
  json_eqb (JInt 2) (JBool true) = false ∧ json_eqb (JNum (chars "NaN")) (JNum (chars "NaN")) = false ∧
  json_eqb (JNum (chars "-0.0")) (JInt 0) = true ∧ json_eqb (JList [JNull]) (JList []) = false.
Proof. by vm_compute. Qed.

(** [bool(v)]. *)
Definition json_truth (v : json) : bool :=
  match v with
  | JNull => false
  | JBool b => b
  | JInt n => negb (n =? 0)
  | JNum t => negb (text_eqb (SFeqb (S754_zero false)) t)
  | JStr s => negb (str_empty s)
  | JList l => match l with [] => false | _ => true end
  | JDict d => match d with [] => false | _ => true end
  end.

(** ** [_encode] and [_decode] *)

Class Snapshot (A : Type) := {
  encode_value : A → result json;
  decode_value : json → result A;
}.

Definition bad {A} (site : string) : result A := raise ValueError site.

#[export] Instance str_snapshot : Snapshot string := {
  encode_value s := Ok (JStr s);
  decode_value raw := match raw with JStr s => Ok s | _ => bad "scalar" end;
}.

#[export] Instance int_snapshot : Snapshot Z := {
  encode_value n := Ok (JInt n);
  decode_value raw := match raw with JInt n => Ok n | _ => bad "scalar" end;
}.

#[export] Instance bool_snapshot : Snapshot bool := {
  encode_value b := Ok (JBool b);
  decode_value raw := match raw with JBool b => Ok b | _ => bad "scalar" end;
}.

#[export] Instance float_snapshot : Snapshot spec_float := {
  encode_value f := if is_finite_float f then Ok (JNum (chars (float_repr f))) else bad "float must be finite";
  decode_value raw :=
    match raw with
    | JNum t => match text_float t with
                | Some f => if is_finite_float f then Ok f else bad "float must be finite"
                | None => bad "scalar"
                end
    | _ => bad "scalar"
    end;
}.

(** [date.fromisoformat]. *)
Definition date_fromisoformat (text : string) : option date :=
  let l := chars text in
  if bool_decide (length l ∈ [7; 8; 10]%nat) then
    '(y, m, d) ← parse_isoformat_date (length l) l;
    if date_wf (Date y m d) then Some (Date y m d) else None
  else None.

#[export] Instance date_snapshot : Snapshot date := {
  encode_value d := Ok (JStr (date_isoformat d));
  decode_value raw :=
    match raw with
    | JStr s =>
        match date_fromisoformat s with
        | Some d => if String.eqb (date_isoformat d) s then Ok d else bad "date is not canonical"
        | None => bad "date"
        end
    | _ => bad "date"
    end;
}.

#[export] Instance fdec_snapshot : Snapshot fdec := {
  encode_value d := Ok (JStr (dec_str d));
  decode_value raw :=
    match raw with
    | JStr s =>
        match decimal_of_string s with
        | Some (DFin d) => if String.eqb (dec_str d) s then Ok d else bad "decimal is not canonical"
        | Some _ => bad "decimal is not canonical"
        | None => bad "decimal"
        end
    | _ => bad "decimal"
    end;
}.

#[export] Instance decimal_snapshot : Snapshot decimal := {
  encode_value d := match d with DFin d => encode_value d | _ => bad "decimal must be finite" end;
  decode_value raw := DFin <$> decode_value raw;
}.

(** Enumerations, by their members and values. *)
Class PyEnum (E : Type) := {
  enum_value : E → string;
  enum_members : list E;
  enum_complete e : e ∈ enum_members;
  enum_inj e e' : enum_value e = enum_value e' → e = e';
}.

Definition enum_of_value `{PyEnum E} (s : string) : option E :=
  List.find (λ e, String.eqb (enum_value e) s) enum_members.

#[export] Instance enum_snapshot `{PyEnum E} : Snapshot E := {
  encode_value e := Ok (JStr (enum_value e));
  decode_value raw :=
    match raw with
    | JStr s => match enum_of_value s with Some e => Ok e | None => bad "enum" end
    | _ => bad "enum"
    end;
}.

(** Closes the two laws of an enumeration. *)
Ltac enumeration := first [by intros [] [] | intros e; apply (bool_decide_eq_true_1 (e ∈ _)); by destruct e].

#[export] Instance match_status_enum : PyEnum MatchStatus.t.
Proof. refine {| enum_value := MatchStatus.value; enum_members := MatchStatus.members |}; enumeration. Defined.
#[export] Instance reason_code_enum : PyEnum ReasonCode.t.
Proof. refine {| enum_value := ReasonCode.value; enum_members := ReasonCode.members |}; enumeration. Defined.
#[export] Instance direction_enum : PyEnum StatementAmountDirection.t.
Proof.
  refine {| enum_value := StatementAmountDirection.value; enum_members := StatementAmountDirection.members |};
    enumeration.
Defined.
#[export] Instance transaction_type_enum : PyEnum ReconciliationTransactionType.t.
Proof.
  refine {| enum_value := ReconciliationTransactionType.value;
            enum_members := ReconciliationTransactionType.members |}; enumeration.
Defined.
#[export] Instance issue_type_enum : PyEnum IssueType.t.
Proof. refine {| enum_value := IssueType.value; enum_members := IssueType.members |}; enumeration. Defined.
#[export] Instance suggested_action_enum : PyEnum SuggestedAction.t.
Proof. refine {| enum_value := SuggestedAction.value; enum_members := SuggestedAction.members |}; enumeration. Defined.
#[export] Instance review_priority_enum : PyEnum ReviewPriority.t.
Proof. refine {| enum_value := ReviewPriority.value; enum_members := ReviewPriority.members |}; enumeration. Defined.
#[export] Instance resolution_action_enum : PyEnum ResolutionAction.t.
Proof. refine {| enum_value := ResolutionAction.value; enum_members := ResolutionAction.members |}; enumeration. Defined.

(** *** Unions and tuples *)

(** The members of a union are tried in order; only [TypeError] and
    [ValueError] move on to the next. *)
Definition try_next {A} (m n : result A) : result A :=
  match m with
  | Ok a => Ok a
  | Raise e => if exn_isinstance (exn_cls e) TypeError || exn_isinstance (exn_cls e) ValueError then n else Raise e
  end.

Definition decode_null {A} (raw : json) : result (option A) :=
  match raw with JNull => Ok None | _ => bad "must be null" end.

#[export] Instance option_snapshot `{Snapshot A} : Snapshot (option A) := {
  encode_value o := match o with Some a => encode_value a | None => Ok JNull end;
  decode_value raw := try_next (Some <$> decode_value raw) (decode_null raw);
}.

#[export] Instance tuple_snapshot `{Snapshot A} : Snapshot (list A) := {
  encode_value l := JList <$> mapM encode_value l;
  decode_value raw := match raw with JList l => mapM decode_value l | _ => bad "tuple" end;
}.

(** [ReconciliationTransactionType | str]. *)
#[export] Instance type_hint_snapshot : Snapshot type_hint := {
  encode_value h := match h with HintType t => encode_value t | HintText s => encode_value s end;
  decode_value raw := try_next (HintType <$> decode_value raw) (HintText <$> decode_value raw);
}.

(** *** Dataclasses *)

Definition encode_fields (fields : list (string * result json)) : result json :=
  d ← mapM (λ kv : string * result json, v ← kv.2; Ok (kv.1, v)) fields; Ok (JDict d).

(** [isinstance(raw, dict) and set(raw) == names]; the keys of a dictionary
    are distinct. *)
Definition snapshot_members (names : list string) (raw : json) : result (list (string * json)) :=
  match raw with
  | JDict d =>
      raise_when (negb ((length d =? length names)%nat && forallb (λ k, str_in k names) (dict_keys d)))
        ValueError "snapshot is incomplete";; Ok d
  | _ => bad "snapshot is incomplete"
  end.

Definition decode_field {A} `{Snapshot A} (d : list (string * json)) (k : string) : result A :=
  v ← dict_index k d; decode_value v.

(** The constructor's [TypeError] and [ValueError]. *)
Definition constructed {A} (m : result A) : result A :=
  match m with
  | Ok a => Ok a
  | Raise e => if exn_isinstance (exn_cls e) TypeError || exn_isinstance (exn_cls e) ValueError
               then bad "snapshot is invalid" else Raise e
  end.

Definition check_canonical {A} (encoder : A → result json) (raw : json) (a : A) : result A :=
  j ← encoder a;
  raise_when (negb (json_eqb j raw)) ValueError "snapshot is not canonical";;
  Ok a.

Definition encode_app (a : AppTransaction) : result json :=
  encode_fields
    [("app_txn_id", encode_value (app_txn_id a)); ("transaction_date", encode_value (app_transaction_date a));
     ("merchant", encode_value (app_merchant a)); ("amount", encode_value (app_amount a));
     ("currency", encode_value (app_currency a)); ("source_type", encode_value (app_source_type a));
     ("source_channel", encode_value (app_source_channel a));
     ("normalized_merchant", encode_value (app_normalized_merchant a));
     ("posted_date", encode_value (app_posted_date a)); ("transaction_type", encode_value (app_transaction_type a))].

Definition app_field_names : list string :=
  ["app_txn_id"; "transaction_date"; "merchant"; "amount"; "currency"; "source_type"; "source_channel";
   "normalized_merchant"; "posted_date"; "transaction_type"].

Definition decode_app (raw : json) : result AppTransaction :=
  d ← snapshot_members app_field_names raw;
  id ← decode_field d "app_txn_id";
  transaction_date ← decode_field d "transaction_date";
  merchant ← decode_field d "merchant";
  amount ← decode_field d "amount";
  currency ← decode_field d "currency";
  source_type ← decode_field d "source_type";
  source_channel ← decode_field d "source_channel";
  normalized_merchant ← decode_field d "normalized_merchant";
  posted_date ← decode_field d "posted_date";
  transaction_type ← decode_field d "transaction_type";
  a ← constructed (AppTransaction_new id transaction_date merchant amount currency source_type source_channel
        normalized_merchant posted_date transaction_type);
  check_canonical encode_app raw a.

#[export] Instance app_snapshot : Snapshot AppTransaction := {
  encode_value := encode_app; decode_value := decode_app }.

Definition encode_statement (s : StatementTransaction) : result json :=
  encode_fields
    [("transaction_date", encode_value (st_transaction_date s)); ("posted_date", encode_value (st_posted_date s));
     ("merchant_raw", encode_value (st_merchant_raw s));
     ("merchant_normalized", encode_value (st_merchant_normalized s)); ("amount", encode_value (st_amount s));
     ("currency", encode_value (st_currency s)); ("account_name", encode_value (st_account_name s));
     ("account_id", encode_value (st_account_id s)); ("source_batch_id", encode_value (st_source_batch_id s));
     ("statement_row_reference", encode_value (st_statement_row_reference s));
     ("public_id", encode_value (st_public_id s)); ("row_fingerprint", encode_value (st_row_fingerprint s));
     ("source_content_hash", encode_value (st_source_content_hash s));
     ("amount_direction", encode_value (st_amount_direction s)); ("raw_amount", encode_value (st_raw_amount s));
     ("raw_amount_type", encode_value (st_raw_amount_type s))].

Definition statement_field_names : list string :=
  ["transaction_date"; "posted_date"; "merchant_raw"; "merchant_normalized"; "amount"; "currency"; "account_name";
   "account_id"; "source_batch_id"; "statement_row_reference"; "public_id"; "row_fingerprint";
   "source_content_hash"; "amount_direction"; "raw_amount"; "raw_amount_type"].

(** What the constructor is given for decoded fields. *)
Definition amount_argument (o : option fdec) : pyval := match o with Some d => VDec (DFin d) | None => VNone end.
Definition direction_argument (o : option StatementAmountDirection.t) : pyval :=
  match o with Some d => VStr (StatementAmountDirection.value d) | None => VNone end.

Definition decode_statement (raw : json) : result StatementTransaction :=
  d ← snapshot_members statement_field_names raw;
  transaction_date ← decode_field d "transaction_date";
  posted_date ← decode_field d "posted_date";
  merchant_raw ← decode_field d "merchant_raw";
  merchant_normalized ← decode_field d "merchant_normalized";
  amount ← decode_field d "amount";
  currency ← decode_field d "currency";
  account_name ← decode_field d "account_name";
  account_id ← decode_field d "account_id";
  source_batch_id ← decode_field d "source_batch_id";
  statement_row_reference ← decode_field d "statement_row_reference";
  public_id ← decode_field d "public_id";
  row_fingerprint ← decode_field d "row_fingerprint";
  source_content_hash ← decode_field d "source_content_hash";
  amount_direction ← decode_field d "amount_direction";
  raw_amount ← decode_field d "raw_amount";
  raw_amount_type ← decode_field d "raw_amount_type";
  s ← constructed (StatementTransaction_new transaction_date posted_date merchant_raw merchant_normalized
        (amount_argument amount) currency account_name account_id source_batch_id statement_row_reference
        public_id row_fingerprint source_content_hash (direction_argument amount_direction) raw_amount
        raw_amount_type);
  check_canonical encode_statement raw s.

#[export] Instance statement_snapshot : Snapshot StatementTransaction := {
  encode_value := encode_statement; decode_value := decode_statement }.

Definition encode_evidence (e : MatchEvidence) : result json :=
  encode_fields
    [("statement_amount", encode_value (ev_statement_amount e));
     ("candidate_amount", encode_value (ev_candidate_amount e));
     ("statement_currency", encode_value (ev_statement_currency e));
     ("candidate_currency", encode_value (ev_candidate_currency e));
     ("statement_txn_date", encode_value (ev_statement_txn_date e));
     ("statement_posted_date", encode_value (ev_statement_posted_date e));
     ("candidate_txn_date", encode_value (ev_candidate_txn_date e));
     ("date_delta_days", encode_value (ev_date_delta_days e));
     ("date_tolerance_days", encode_value (ev_date_tolerance_days e));
     ("statement_merchant", encode_value (ev_statement_merchant e));
     ("candidate_merchant", encode_value (ev_candidate_merchant e));
     ("statement_merchant_normalized", encode_value (ev_statement_merchant_normalized e));
     ("candidate_merchant_normalized", encode_value (ev_candidate_merchant_normalized e));
     ("merchant_similarity", encode_value (ev_merchant_similarity e));
     ("candidate_count", encode_value (ev_candidate_count e));
     ("statement_direction", encode_value (ev_statement_direction e));
     ("candidate_transaction_type", encode_value (ev_candidate_transaction_type e));
     ("original_amount_text", encode_value (ev_original_amount_text e));
     ("original_amount_sign", encode_value (ev_original_amount_sign e));
     ("compatibility_result", encode_value (ev_compatibility_result e));
     ("hard_gate_results", encode_value (ev_hard_gate_results e))].

Definition evidence_field_names : list string :=
  ["statement_amount"; "candidate_amount"; "statement_currency"; "candidate_currency"; "statement_txn_date";
   "statement_posted_date"; "candidate_txn_date"; "date_delta_days"; "date_tolerance_days";
   "statement_merchant"; "candidate_merchant"; "statement_merchant_normalized";
   "candidate_merchant_normalized"; "merchant_similarity"; "candidate_count"; "statement_direction";
   "candidate_transaction_type"; "original_amount_text"; "original_amount_sign"; "compatibility_result";
   "hard_gate_results"].

Definition decode_evidence (raw : json) : result MatchEvidence :=
  d ← snapshot_members evidence_field_names raw;
  statement_amount ← decode_field d "statement_amount";
  candidate_amount ← decode_field d "candidate_amount";
  statement_currency ← decode_field d "statement_currency";
  candidate_currency ← decode_field d "candidate_currency";
  statement_txn_date ← decode_field d "statement_txn_date";
  statement_posted_date ← decode_field d "statement_posted_date";
  candidate_txn_date ← decode_field d "candidate_txn_date";
  date_delta_days ← decode_field d "date_delta_days";
  date_tolerance_days ← decode_field d "date_tolerance_days";
  statement_merchant ← decode_field d "statement_merchant";
  candidate_merchant ← decode_field d "candidate_merchant";
  statement_merchant_normalized ← decode_field d "statement_merchant_normalized";
  candidate_merchant_normalized ← decode_field d "candidate_merchant_normalized";
  merchant_similarity ← decode_field d "merchant_similarity";
  candidate_count ← decode_field d "candidate_count";
  statement_direction ← decode_field d "statement_direction";
  candidate_transaction_type ← decode_field d "candidate_transaction_type";
  original_amount_text ← decode_field d "original_amount_text";
  original_amount_sign ← decode_field d "original_amount_sign";
  compatibility_result ← decode_field d "compatibility_result";
  hard_gate_results ← decode_field d "hard_gate_results";
  check_canonical encode_evidence raw
    (MkEvidence statement_amount candidate_amount statement_currency candidate_currency statement_txn_date
       statement_posted_date candidate_txn_date date_delta_days date_tolerance_days statement_merchant
       candidate_merchant statement_merchant_normalized candidate_merchant_normalized merchant_similarity
       candidate_count statement_direction candidate_transaction_type original_amount_text
       original_amount_sign compatibility_result hard_gate_results).

#[export] Instance evidence_snapshot : Snapshot MatchEvidence := {
  encode_value := encode_evidence; decode_value := decode_evidence }.

Definition encode_candidate (c : ReconciliationCandidate) : result json :=
  encode_fields
    [("statement", encode_value (rc_statement c));
     ("best_app_transaction", encode_value (rc_best_app_transaction c));
     ("all_app_transactions", encode_value (rc_all_app_transactions c));
     ("match_status", encode_value (rc_match_status c)); ("reason_codes", encode_value (rc_reason_codes c));
     ("issue_type", encode_value (rc_issue_type c)); ("confidence_score", encode_value (rc_confidence_score c));
     ("evidence", encode_value (rc_evidence c)); ("candidate_id", encode_value (rc_candidate_id c));
     ("review_priority", encode_value (rc_review_priority c));
     ("is_review_required", encode_value (rc_is_review_required c))].

Definition candidate_field_names : list string :=
  ["statement"; "best_app_transaction"; "all_app_transactions"; "match_status"; "reason_codes"; "issue_type";
   "confidence_score"; "evidence"; "candidate_id"; "review_priority"; "is_review_required"].

Definition decode_candidate (raw : json) : result ReconciliationCandidate :=
  d ← snapshot_members candidate_field_names raw;
  statement ← decode_field d "statement";
  best_app_transaction ← decode_field d "best_app_transaction";
  all_app_transactions ← decode_field d "all_app_transactions";
  match_status ← decode_field d "match_status";
  reason_codes ← decode_field d "reason_codes";
  issue_type ← decode_field d "issue_type";
  confidence_score ← decode_field d "confidence_score";
  evidence ← decode_field d "evidence";
  candidate_id ← decode_field d "candidate_id";
  review_priority ← decode_field d "review_priority";
  is_review_required ← decode_field d "is_review_required";
  check_canonical encode_candidate raw
    (MkRecon statement best_app_transaction all_app_transactions match_status reason_codes issue_type
       confidence_score evidence candidate_id review_priority is_review_required).

#[export] Instance candidate_snapshot : Snapshot ReconciliationCandidate := {
  encode_value := encode_candidate; decode_value := decode_candidate }.

Definition encode_review_evidence (e : ReconciliationReviewEvidence) : result json :=
  encode_fields
    [("statement_reference", encode_value (re_statement_reference e));
     ("statement_transaction_date", encode_value (re_statement_transaction_date e));
     ("statement_posted_date", encode_value (re_statement_posted_date e));
     ("statement_merchant", encode_value (re_statement_merchant e));
     ("statement_amount", encode_value (re_statement_amount e));
     ("statement_currency", encode_value (re_statement_currency e));
     ("app_transaction_id", encode_value (re_app_transaction_id e));
     ("app_transaction_date", encode_value (re_app_transaction_date e));
     ("app_merchant", encode_value (re_app_merchant e)); ("app_amount", encode_value (re_app_amount e));
     ("app_currency", encode_value (re_app_currency e)); ("amount_delta", encode_value (re_amount_delta e));
     ("date_delta_days", encode_value (re_date_delta_days e));
     ("merchant_similarity", encode_value (re_merchant_similarity e));
     ("candidate_count", encode_value (re_candidate_count e));
     ("reason_codes", encode_value (re_reason_codes e)); ("issue_type", encode_value (re_issue_type e));
     ("review_priority", encode_value (re_review_priority e));
     ("suggested_action", encode_value (re_suggested_action e));
     ("confidence_score", encode_value (re_confidence_score e))].

Definition review_evidence_field_names : list string :=
  ["statement_reference"; "statement_transaction_date"; "statement_posted_date"; "statement_merchant";
   "statement_amount"; "statement_currency"; "app_transaction_id"; "app_transaction_date"; "app_merchant";
   "app_amount"; "app_currency"; "amount_delta"; "date_delta_days"; "merchant_similarity"; "candidate_count";
   "reason_codes"; "issue_type"; "review_priority"; "suggested_action"; "confidence_score"].

Definition decode_review_evidence (raw : json) : result ReconciliationReviewEvidence :=
  d ← snapshot_members review_evidence_field_names raw;
  statement_reference ← decode_field d "statement_reference";
  statement_transaction_date ← decode_field d "statement_transaction_date";
  statement_posted_date ← decode_field d "statement_posted_date";
  statement_merchant ← decode_field d "statement_merchant";
  statement_amount ← decode_field d "statement_amount";
  statement_currency ← decode_field d "statement_currency";
  app_transaction_id ← decode_field d "app_transaction_id";
  app_transaction_date ← decode_field d "app_transaction_date";
  app_merchant ← decode_field d "app_merchant";
  app_amount ← decode_field d "app_amount";
  app_currency ← decode_field d "app_currency";
  amount_delta ← decode_field d "amount_delta";
  date_delta_days ← decode_field d "date_delta_days";
  merchant_similarity ← decode_field d "merchant_similarity";
  candidate_count ← decode_field d "candidate_count";
  reason_codes ← decode_field d "reason_codes";
  issue_type ← decode_field d "issue_type";
  review_priority ← decode_field d "review_priority";
  suggested_action ← decode_field d "suggested_action";
  confidence_score ← decode_field d "confidence_score";
  check_canonical encode_review_evidence raw
    (MkReviewEvidence statement_reference statement_transaction_date statement_posted_date statement_merchant
       statement_amount statement_currency app_transaction_id app_transaction_date app_merchant app_amount
       app_currency amount_delta date_delta_days merchant_similarity candidate_count reason_codes issue_type
       review_priority suggested_action confidence_score).

#[export] Instance review_evidence_snapshot : Snapshot ReconciliationReviewEvidence := {
  encode_value := encode_review_evidence; decode_value := decode_review_evidence }.

Definition encode_item (i : ReviewQueueItem) : result json :=
  encode_fields
    [("candidate", encode_value (qi_candidate i)); ("issue_type", encode_value (qi_issue_type i));
     ("suggested_action", encode_value (qi_suggested_action i));
     ("queue_item_id", encode_value (qi_queue_item_id i)); ("reason_codes", encode_value (qi_reason_codes i));
     ("evidence_summary", encode_value (qi_evidence_summary i));
     ("structured_evidence", encode_value (qi_structured_evidence i)); ("priority", encode_value (qi_priority i))].

Definition item_field_names : list string :=
  ["candidate"; "issue_type"; "suggested_action"; "queue_item_id"; "reason_codes"; "evidence_summary";
   "structured_evidence"; "priority"].

Definition decode_item (raw : json) : result ReviewQueueItem :=
  d ← snapshot_members item_field_names raw;
  candidate ← decode_field d "candidate";
  issue_type ← decode_field d "issue_type";
  suggested_action ← decode_field d "suggested_action";
  queue_item_id ← decode_field d "queue_item_id";
  reason_codes ← decode_field d "reason_codes";
  evidence_summary ← decode_field d "evidence_summary";
  structured_evidence ← decode_field d "structured_evidence";
  priority ← decode_field d "priority";
  check_canonical encode_item raw
    (MkItem candidate issue_type suggested_action queue_item_id reason_codes evidence_summary
       structured_evidence priority).

#[export] Instance item_snapshot : Snapshot ReviewQueueItem := {
  encode_value := encode_item; decode_value := decode_item }.
