(* ===== verification/ReviewQueue.v ===== *)
(** * Reconciliation: the review queue

    The in-memory half of reconciliation/review_queue.py: every candidate of a
    batch becomes a queue item with its suggested action, its priority, a
    summary text and structured evidence; the items are sorted; and a summary
    counts them.  Amounts are subtracted in the default context, which is the
    only way the generator can fail. *)

From Stdlib Require Import Ascii ZArith SpecFloat QArith Lia.
From stdpp Require Import base gmap sets strings sorting numbers list.
From S2P Require Import Prelude PyDecimal DecUnits PyValue Hash Json PyDate PyFloat ReconModels ReconDecision ReconMatcher ReconBatch ReviewModels.

Open Scope Z_scope.

(** ** The sort key of a review item *)

Abbreviation sort_key := (Z * (string * (string * string)))%type.

Definition key_leb : sort_key → sort_key → bool :=
  lex_leb Z.leb (lex_leb String.leb (lex_leb String.leb String.leb)).

Definition sort_key_for_review_item (item : ReviewQueueItem) : sort_key :=
  let stmt := rc_statement (qi_candidate item) in
  let date_key := match st_transaction_date stmt with Some d => date_isoformat d | None => "" end in
  let merchant_key := py_lower (st_merchant_raw stmt) in
  let amount_key := match st_amount stmt with Some a => dec_str a | None => "" end in
  (priority_score_for_issue (qi_issue_type item), (date_key, (merchant_key, amount_key))).

Definition item_leb (i j : ReviewQueueItem) : bool :=
  key_leb (sort_key_for_review_item i) (sort_key_for_review_item j).

(** ** Arithmetic on amounts *)

(** [a - b] of a finite decimal and any decimal. *)
Definition decimal_sub (a : fdec) (b : decimal) : result decimal :=
  match b with
  | DFin b => DFin <$> dec_sub a b
  | DInf s => Ok (DInf (negb s))
  | DNaN s signaling => if signaling then raise InvalidOperation "sNaN" else Ok (DNaN s false)
  end.

(** [f"{x:.2f}"]: the exact value rounded to hundredths, ties to even. *)
Definition format_2f (f : spec_float) : string :=
  match f with
  | S754_zero s => if s then "-0.00" else "0.00"
  | S754_infinity s => if s then "-inf" else "inf"
  | S754_nan => "nan"
  | S754_finite s _ _ =>
      let cents := round_half_even (100 * Z.abs (float_num f)) (float_den f) in
      of_chars ((if s then ["-"%char] else []) ++ int_chars (cents / 100) ++
                "."%char :: pad_left 2 (int_chars (cents mod 100)))
  end.

(** [x > 0] of a float. *)
Definition float_positive (f : spec_float) : bool :=
  match f with S754_finite s _ _ | S754_infinity s => negb s | _ => false end.

Example format_2f_tests :
  format_2f (float_of_ratio 1 3) = "0.33" ∧ format_2f (float_of_ratio 1 8) = "0.12" ∧
  format_2f (float_of_ratio 3 8) = "0.38" ∧ format_2f (float_of_ratio 1 1) = "1.00" ∧
  format_2f (float_of_ratio 1 200) = "0.01" ∧ format_2f (float_of_ratio 2999 2) = "1499.50".
Proof. by vm_compute. Qed.

(** ** The text of the evidence *)

Definition statement_part (e : MatchEvidence) : list string :=
  match ev_statement_amount e with
  | None => []
  | Some amount =>
      [("Stmt SGD " +:+ dec_str amount) +:+
       match ev_statement_txn_date e, ev_statement_posted_date e with
       | Some d, _ => " on " +:+ date_isoformat d
       | None, Some d => " posted " +:+ date_isoformat d
       | None, None => ""
       end]
  end.

Definition app_part (e : MatchEvidence) : list string :=
  let amount := match ev_candidate_amount e with Some a => ["SGD " +:+ dec_str a] | None => [] end in
  let date := match ev_candidate_txn_date e with Some d => ["on " +:+ date_isoformat d] | None => [] end in
  let merchant :=
    match ev_candidate_merchant e with
    | Some m => if str_empty m then [] else ["(" +:+ m +:+ ")"]
    | None => []
    end in
  match amount ++ date ++ merchant with
  | [] => []
  | parts => ["App " +:+ py_join " " parts]
  end.

Definition amount_delta_part (e : MatchEvidence) : result (list string) :=
  match ev_statement_amount e, ev_candidate_amount e with
  | Some a, Some b =>
      delta ← dec_sub a b;
      Ok (if is_zero delta then [] else ["Amount delta " +:+ dec_str delta])
  | _, _ => Ok []
  end.

Definition evidence_parts (e : MatchEvidence) : result (list string) :=
  delta ← amount_delta_part e;
  Ok (statement_part e ++ app_part e ++ delta ++
      match ev_date_delta_days e with Some n => ["Date delta " +:+ repr_int n +:+ "d"] | None => [] end ++
      match ev_merchant_similarity e with
      | Some x => if float_positive x then ["Merchant sim " +:+ format_2f x] else []
      | None => []
      end ++
      (if 1 <? ev_candidate_count e then [repr_int (ev_candidate_count e) +:+ " candidates"] else [])).

Definition evidence_summary (c : ReconciliationCandidate) : result string :=
  parts ← match rc_evidence c with Some e => evidence_parts e | None => Ok [] end;
  Ok (match parts with [] => "no evidence" | _ => py_join "; " parts end).

(** ** Structured evidence *)

(** A field of the evidence, or what to use without it. *)
Definition from_evidence {A} (e : option MatchEvidence) (f : MatchEvidence → option A)
    (otherwise : option A) : option A :=
  match e ≫= f with Some x => Some x | None => otherwise end.

Definition build_structured_evidence (candidate : ReconciliationCandidate)
    (suggested : SuggestedAction.t) : result ReconciliationReviewEvidence :=
  let e := rc_evidence candidate in
  let stmt := rc_statement candidate in
  let best := rc_best_app_transaction candidate in
  let statement_amount := from_evidence e ev_statement_amount (st_amount stmt) in
  let app_amount := from_evidence e (λ e, DFin <$> ev_candidate_amount e) (app_amount <$> best) in
  amount_delta ← match statement_amount, app_amount with
                 | Some a, Some b => Some <$> decimal_sub a b
                 | _, _ => Ok None
                 end;
  Ok (MkReviewEvidence (st_statement_row_reference stmt) (st_transaction_date stmt) (st_posted_date stmt)
        (Some (st_merchant_raw stmt)) statement_amount
        (from_evidence e ev_statement_currency (st_currency stmt))
        (app_txn_id <$> best)
        (from_evidence e ev_candidate_txn_date (app_transaction_date <$> best))
        (from_evidence e ev_candidate_merchant (app_merchant <$> best))
        app_amount
        (from_evidence e ev_candidate_currency (app_currency <$> best))
        amount_delta
        (from_evidence e ev_date_delta_days None)
        (from_evidence e ev_merchant_similarity None)
        (match e with Some e => ev_candidate_count e | None => 0 end)
        (rc_reason_codes candidate) (rc_issue_type candidate) (rc_review_priority candidate)
        suggested (rc_confidence_score candidate)).

(** ** The queue *)

Record ReconciliationSummary := MkSummary {
  rs_total_statement_transactions : Z;
  rs_total_app_transactions : Z;
  rs_matched_count : Z;
  rs_needs_review_count : Z;
  rs_review_required_count : Z;
  rs_missing_in_app_count : Z;
  rs_missing_in_statement_count : Z;
  rs_amount_mismatch_count : Z;
  rs_currency_mismatch_count : Z;
  rs_possible_duplicate_count : Z;
  rs_matched_items : list ReviewQueueItem;
  rs_review_items : list ReviewQueueItem;
  rs_priority_items : list ReviewQueueItem;
  rs_high_priority_count : Z;
  rs_medium_priority_count : Z;
  rs_low_priority_count : Z;
  rs_high_priority_items : list ReviewQueueItem;
  rs_medium_priority_items : list ReviewQueueItem;
}.

(** [dataclasses.replace] of the two derived fields, where they differ. *)
Definition reclassify (c : ReconciliationCandidate) : ReconciliationCandidate :=
  let rp := review_priority_for_issue (rc_issue_type c) in
  let is_review := negb (bool_decide (rc_issue_type c = IssueType.MATCHED)) in
  if negb (bool_decide (rc_review_priority c = rp)) || negb (Bool.eqb (rc_is_review_required c) is_review)
  then MkRecon (rc_statement c) (rc_best_app_transaction c) (rc_all_app_transactions c)
         (rc_match_status c) (rc_reason_codes c) (rc_issue_type c) (rc_confidence_score c)
         (rc_evidence c) (rc_candidate_id c) rp is_review
  else c.

Definition queue_item_id (run_label : string) (n : nat) : string :=
  (if str_empty run_label then "" else run_label +:+ "-") +:+ "q-" +:+
  of_chars (pad_left 3 (int_chars (Z.of_nat n))).

Definition queue_item (run_label : string) (n : nat) (c : ReconciliationCandidate) :
    result ReviewQueueItem :=
  let issue_type := rc_issue_type c in
  let suggested := suggested_action_for_issue issue_type in
  let c := reclassify c in
  summary ← evidence_summary c;
  structured ← build_structured_evidence c suggested;
  Ok (MkItem c issue_type suggested (queue_item_id run_label n) (rc_reason_codes c) summary
        (Some structured) (priority_for_issue issue_type)).

Definition statement_ids (candidates : list ReconciliationCandidate) : gset string :=
  foldl (λ ids c, if bool_decide (rc_issue_type c = IssueType.MISSING_IN_STATEMENT) then ids
                  else {[ rc_candidate_id c ]} ∪ ids) ∅ candidates.

Definition app_ids (candidates : list ReconciliationCandidate) : gset string :=
  foldl (λ ids c, list_to_set (row_references c) ∪ ids) ∅ candidates.

Definition get_count (counts : pydict Z) (key : string) : Z :=
  match dict_get key counts with Some n => n | None => 0 end.

Definition count_issue (counts : pydict Z) (c : ReconciliationCandidate) : pydict Z :=
  let key := IssueType.value (rc_issue_type c) in
  dict_set key (get_count counts key + 1) counts.

Definition len {A} (l : list A) : Z := Z.of_nat (length l).

Definition generate_review_queue (candidates : list ReconciliationCandidate) (run_label : string) :
    result (list ReviewQueueItem * ReconciliationSummary) :=
  items ← mapM (λ row : nat * ReconciliationCandidate, queue_item run_label row.1 row.2)
            (imap pair candidates);
  let counts := foldl count_issue [] candidates in
  let items := isort item_leb items in
  let is_matched q := bool_decide (qi_issue_type q = IssueType.MATCHED) in
  let has_priority p q := bool_decide (rc_review_priority (qi_candidate q) = p) in
  let matched_items := keep is_matched items in
  let review_items := keep (λ q, negb (is_matched q)) items in
  let high_items := keep (has_priority ReviewPriority.HIGH) items in
  let medium_items := keep (has_priority ReviewPriority.MEDIUM) items in
  let low_items := keep (has_priority ReviewPriority.LOW) items in
  Ok (items,
      MkSummary (Z.of_nat (size (statement_ids candidates))) (Z.of_nat (size (app_ids candidates)))
        (get_count counts "matched")
        (zsum (keep (λ kv : string * Z, negb (String.eqb kv.1 (IssueType.value IssueType.MATCHED))) counts).*2)
        (len (keep (λ q, rc_is_review_required (qi_candidate q)) items))
        (get_count counts "missing_in_app") (get_count counts "missing_in_statement")
        (get_count counts "amount_mismatch") (get_count counts "currency_mismatch")
        (get_count counts "possible_duplicate")
        matched_items review_items review_items
        (len high_items) (len medium_items) (len low_items) high_items medium_items).

(** [ReviewQueueGenerator(run_label).generate(candidates)]. *)
Definition ReviewQueueGenerator_generate (run_label : string)
    (candidates : list ReconciliationCandidate) :
    result (list ReviewQueueItem * ReconciliationSummary) :=
  generate_review_queue candidates run_label.
