(* ===== verification/QueueProps.v ===== *)
(** * The review queue loses nothing

    The queue holds one item per candidate, sorted and with distinct
    identifiers; its counters agree with its lists; and the queue of a batch
    accounts for every statement row and every app transaction. *)

From Stdlib Require Import Ascii ZArith SpecFloat QArith Lia.
From stdpp Require Import base gmap sets strings sorting numbers list.
From S2P Require Import Prelude PyDecimal DecUnits PyValue Hash Json PyDate PyFloat ReconModels ReconDecision ReconMatcher ReconBatch ReviewModels ReviewQueue.

Open Scope Z_scope.

(** ** The order of the items *)

Lemma key_leb_total k l : key_leb k l = true ∨ key_leb l k = true.
Proof.
  apply lex_leb_total; [lia|]. intros x y.
  apply lex_leb_total; [apply str_leb_total|]. intros u v.
  apply lex_leb_total; apply str_leb_total.
Qed.

Lemma key_leb_trans k l m : key_leb k l = true → key_leb l m = true → key_leb k m = true.
Proof.
  apply lex_leb_trans; [lia|]. intros x y z.
  apply lex_leb_trans; [apply str_leb_trans|]. intros u v w.
  apply lex_leb_trans; apply str_leb_trans.
Qed.

Lemma items_sorted l : StronglySorted item_leb (isort item_leb l).
Proof.
  apply isort_ssorted; [intros; apply key_leb_total|].
  intros x y z. apply key_leb_trans.
Qed.

(** ** Identifiers *)

(** The number a text of digits denotes; leading zeros do not count. *)
Definition digits_value (l : list Ascii.ascii) : Z := foldl (λ a c, 10 * a + char_digit c) 0 l.

Lemma char_digit_char d : 0 <= d < 10 → char_digit (digit_char d) = d.
Proof.
  intros Hd. assert (d ∈ [0; 1; 2; 3; 4; 5; 6; 7; 8; 9]) as H by (rewrite !elem_of_cons; lia).
  by repeat (apply elem_of_cons in H as [->|H]; [done|]); apply elem_of_nil in H.
Qed.

Lemma digits_value_zeros n l : digits_value (replicate n "0"%char ++ l) = digits_value l.
Proof. unfold digits_value. rewrite foldl_app. f_equal. induction n; [done|]. done. Qed.

Lemma digits_value_int n : 0 <= n → digits_value (int_chars n) = n.
Proof.
  intros Hn. unfold int_chars. replace (n <? 0) with false by (symmetry; apply Z.ltb_ge; lia).
  unfold digits_value, coef_chars.
  pose proof (digits_of_spec n Hn) as (Hv&Hds&_). rewrite <- Hv at 2. unfold of_digits. clear Hv.
  generalize 0. induction Hds as [|d ds Hd _ IH]; intros a; [done|].
  cbn [fmap list_fmap foldl]. rewrite char_digit_char by done. apply IH.
Qed.

Lemma padded_inj k n m :
  pad_left k (int_chars (Z.of_nat n)) = pad_left k (int_chars (Z.of_nat m)) → n = m.
Proof.
  intros H. apply (f_equal digits_value) in H. unfold pad_left in H.
  rewrite !digits_value_zeros, !digits_value_int in H by lia. lia.
Qed.

Lemma queue_item_id_inj run_label : Inj (=) (=) (queue_item_id run_label).
Proof.
  intros n m. unfold queue_item_id. intros H%(inj _)%(inj _)%(inj of_chars). by apply padded_inj in H.
Qed.

(** ** Counters *)

Lemma counts_step (P : string → bool) k d :
  zsum (keep (λ kv : string * Z, P kv.1) (dict_set k (get_count d k + 1) d)).*2 =
  zsum (keep (λ kv : string * Z, P kv.1) d).*2 + (if P k then 1 else 0).
Proof.
  unfold keep. induction d as [|[k' v] d IH]; [cbn; by destruct (P k)|].
  assert (get_count ((k', v) :: d) k = if String.eqb k k' then v else get_count d k) as ->.
  { unfold get_count; cbn [dict_get]. by destruct (String.eqb k k'). }
  cbn [dict_set]. destruct (String.eqb_spec k k') as [->|Hne]; cbn.
  - destruct (P k'); cbn; lia.
  - destruct (P k') eqn:E; cbn; rewrite IH; lia.
Qed.

Lemma len_keep_cons {A} (p : A → bool) x l : len (keep p (x :: l)) = (if p x then 1 else 0) + len (keep p l).
Proof. unfold len, keep. cbn [List.filter]. destruct (p x); cbn [length]; lia. Qed.

Lemma counts_sum (P : string → bool) l d :
  zsum (keep (λ kv : string * Z, P kv.1) (foldl count_issue d l)).*2 =
  zsum (keep (λ kv : string * Z, P kv.1) d).*2 +
  len (keep (λ c, P (IssueType.value (rc_issue_type c))) l).
Proof.
  revert d; induction l as [|c l IH]; intros d; [symmetry; apply Z.add_0_r|].
  cbn [foldl]. rewrite IH. unfold count_issue. rewrite counts_step, len_keep_cons. lia.
Qed.

Lemma counts_get k l d :
  get_count (foldl count_issue d l) k =
  get_count d k + len (keep (λ c, String.eqb k (IssueType.value (rc_issue_type c))) l).
Proof.
  revert d; induction l as [|c l IH]; intros d; [symmetry; apply Z.add_0_r|].
  cbn [foldl]. rewrite IH, len_keep_cons.
  assert (get_count (count_issue d c) k =
    if String.eqb k (IssueType.value (rc_issue_type c)) then get_count d k + 1 else get_count d k) as ->.
  { unfold count_issue, get_count at 1. rewrite dict_get_set.
    destruct (String.eqb_spec k (IssueType.value (rc_issue_type c))) as [->|]; done. }
  destruct (String.eqb _ _); lia.
Qed.

#[global] Instance issue_value_inj : Inj (=) (=) IssueType.value.
Proof. by intros [] []. Qed.

Lemma issue_eqb t u : String.eqb (IssueType.value t) (IssueType.value u) = bool_decide (u = t).
Proof.
  case_bool_decide as H; [subst; apply String.eqb_refl|].
  apply String.eqb_neq. intros E%(inj _). congruence.
Qed.

Lemma len_perm {A} (l k : list A) : l ≡ₚ k → len l = len k.
Proof. intros H. unfold len. by rewrite H. Qed.

Lemma keep_split {A} (p : A → bool) l : keep p l ++ keep (λ x, negb (p x)) l ≡ₚ l.
Proof.
  induction l as [|x l IH]; [done|]. cbn. destruct (p x); cbn; [by rewrite IH|].
  rewrite <- Permutation_middle. by rewrite IH.
Qed.

Lemma len_keep_fmap {A B} (f : A → B) (p : B → bool) l : len (keep p (f <$> l)) = len (keep (λ x, p (f x)) l).
Proof. induction l as [|x l IH]; [done|]. rewrite fmap_cons, !len_keep_cons. by rewrite IH. Qed.

(** ** Subtracting amounts *)

(** Amounts below [10 ^ 999998]. *)
Definition modest (d : fdec) : bool := adjusted d <? 999998.
Definition modest_decimal (d : decimal) : bool := match d with DFin d => modest d | _ => false end.

Lemma fix_dec_total d : adjusted d < 999999 → ∃ r, fix_dec default_context d = Ok r.
Proof.
  unfold adjusted, fix_dec, etop, etiny. cbn [c_prec c_emax c_emin default_context]. intros Ha.
  destruct (is_zero d); [by eexists|].
  destruct (Z.ltb_spec (999999 - 28 + 1) (ndigits (zcoef d) + fexp d - 28)); [lia|].
  destruct (fexp d <? _); [|by eexists].
  destruct (28 <? _).
  all: match goal with |- context [if ?b then raise _ _ else _] => destruct b eqn:E end; [lia|by eexists].
Qed.

Lemma coef_bound d m e :
  adjusted d < m → e <= fexp d → Z.abs (zint d * 10 ^ (fexp d - e)) < 10 ^ (m - e).
Proof.
  unfold adjusted. intros Ha He. pose proof (zcoef_nonneg d) as H0.
  pose proof (ndigits_pos (zcoef d) H0) as Hn.
  rewrite Z.abs_mul, zint_abs, (Z.abs_eq (10 ^ _)) by (apply Z.pow_nonneg; lia).
  assert (zcoef d < 10 ^ ndigits (zcoef d)) as Hc by (by apply ndigits_le).
  apply Z.lt_le_trans with (10 ^ ndigits (zcoef d) * 10 ^ (fexp d - e)).
  - apply Z.mul_lt_mono_pos_r; [apply pow10_gt0; lia|done].
  - rewrite <- Z.pow_add_r by lia. apply Z.pow_le_mono_r; lia.
Qed.

Lemma dec_sub_total a b : modest a = true → modest b = true → ∃ r, dec_sub a b = Ok r.
Proof.
  unfold modest. intros Ha%Z.ltb_lt Hb%Z.ltb_lt. apply fix_dec_total.
  pose proof (coef_bound a 999998 (Z.min (fexp a) (fexp b)) Ha ltac:(lia)) as Ba.
  pose proof (coef_bound (copy_negate b) 999998 (Z.min (fexp a) (fexp b)) Hb ltac:(cbn; lia)) as Bb.
  unfold adjusted, exact_add. cbn [fexp copy_negate] in *.
  set (e := Z.min (fexp a) (fexp b)) in *.
  assert (e <= 999998).
  { unfold adjusted in Ha. pose proof (ndigits_pos (zcoef a) (zcoef_nonneg a)). lia. }
  set (x := zint a * _) in *. set (y := zint (copy_negate b) * _) in *.
  rewrite zcoef_mkdec by lia. cbn [mkdec fexp].
  assert (ndigits (Z.abs (x + y)) <= 999998 - e + 1); [|lia].
  apply ndigits_le; [lia..|]. rewrite Z.pow_add_r by lia. lia.
Qed.

Lemma decimal_sub_total a b :
  modest a = true → modest_decimal b = true → ∃ r, decimal_sub a b = Ok r.
Proof.
  intros Ha. destruct b as [b| |]; [|done..]. intros Hb.
  destruct (dec_sub_total a b Ha Hb) as [r Hr]. exists (DFin r). cbn. by rewrite Hr.
Qed.

(** ** One item *)

Definition opt_all {A} (p : A → bool) (o : option A) : bool :=
  match o with Some a => p a | None => true end.

(** Every amount the generator may subtract is modest. *)
Definition amounts_modest (c : ReconciliationCandidate) : bool :=
  opt_all modest (st_amount (rc_statement c)) &&
  opt_all (λ a, modest_decimal (app_amount a)) (rc_best_app_transaction c) &&
  opt_all (λ e, opt_all modest (ev_statement_amount e) && opt_all modest (ev_candidate_amount e))
    (rc_evidence c).

Lemma reclassify_spec c :
  rc_review_priority (reclassify c) = review_priority_for_issue (rc_issue_type c) ∧
  rc_is_review_required (reclassify c) = negb (bool_decide (rc_issue_type c = IssueType.MATCHED)) ∧
  rc_issue_type (reclassify c) = rc_issue_type c ∧ rc_evidence (reclassify c) = rc_evidence c ∧
  rc_statement (reclassify c) = rc_statement c ∧ rc_candidate_id (reclassify c) = rc_candidate_id c ∧
  rc_best_app_transaction (reclassify c) = rc_best_app_transaction c ∧
  rc_all_app_transactions (reclassify c) = rc_all_app_transactions c ∧
  rc_reason_codes (reclassify c) = rc_reason_codes c.
Proof.
  unfold reclassify. destruct (_ || _) eqn:E; [done|]. split_and!; try done.
  all: apply orb_false_iff in E as [H1%negb_false_iff H2%negb_false_iff].
  - by apply bool_decide_eq_true in H1.
  - by apply Bool.eqb_prop in H2.
Qed.

Lemma evidence_summary_total c : amounts_modest c = true → ∃ t, evidence_summary c = Ok t.
Proof.
  unfold amounts_modest, evidence_summary. intros [_ He]%andb_true_iff.
  destruct (rc_evidence c) as [e|]; [|by eexists]. apply andb_true_iff in He as [Hs Hc].
  unfold evidence_parts, amount_delta_part.
  destruct (ev_statement_amount e) as [a|], (ev_candidate_amount e) as [b|]; try by eexists.
  destruct (dec_sub_total a b Hs Hc) as [r Hr]. cbn. rewrite Hr. by eexists.
Qed.

Lemma structured_evidence_total c g :
  amounts_modest c = true → ∃ t, build_structured_evidence c g = Ok t.
Proof.
  unfold amounts_modest, build_structured_evidence.
  intros [[Hst Hb]%andb_true_iff He]%andb_true_iff.
  set (sa := from_evidence _ ev_statement_amount _). set (aa := from_evidence _ _ (app_amount <$> _)).
  assert (opt_all modest sa = true) as Hsa.
  { subst sa. unfold from_evidence. destruct (rc_evidence c) as [e|]; [|done]. cbn.
    apply andb_true_iff in He as [He _]. by destruct (ev_statement_amount e). }
  assert (opt_all modest_decimal aa = true) as Haa.
  { subst aa. unfold from_evidence. assert (opt_all modest_decimal (app_amount <$> rc_best_app_transaction c) = true)
      as Hba by (by destruct (rc_best_app_transaction c)).
    destruct (rc_evidence c) as [e|]; [|done]. cbn.
    apply andb_true_iff in He as [_ He]. by destruct (ev_candidate_amount e). }
  destruct sa as [a|], aa as [b|]; try by eexists.
  destruct (decimal_sub_total a b Hsa Haa) as [r Hr]. rewrite Hr. by eexists.
Qed.

Lemma queue_item_total label n c : amounts_modest c = true → ∃ q, queue_item label n c = Ok q.
Proof.
  intros Hc. assert (amounts_modest (reclassify c) = true) as Hr.
  { unfold amounts_modest. by destruct (reclassify_spec c) as (_&_&_&->&->&_&->&_). }
  unfold queue_item. destruct (evidence_summary_total _ Hr) as [t ->].
  destruct (structured_evidence_total _ (suggested_action_for_issue (rc_issue_type c)) Hr) as [u Hu].
  cbn. rewrite Hu. by eexists.
Qed.

Lemma queue_item_spec label n c q :
  queue_item label n c = Ok q →
  qi_candidate q = reclassify c ∧ qi_issue_type q = rc_issue_type c ∧
  qi_suggested_action q = suggested_action_for_issue (rc_issue_type c) ∧
  qi_queue_item_id q = queue_item_id label n ∧ qi_reason_codes q = rc_reason_codes c ∧
  is_Some (qi_structured_evidence q).
Proof.
  intros (t&_&(u&_&[= <-])%bind_Ok)%bind_Ok. cbn. split_and!; try done.
  by destruct (reclassify_spec c) as (_&_&_&_&_&_&_&_&->).
Qed.

(** ** The amounts of a batch *)

Section Evidence.
Context (s : MatcherSettings) (statement : StatementTransaction) (l : list InternalCandidate).

(** The evidence of a row shows the row and one candidate of the pool. *)
Definition shows_pool (e : MatchEvidence) : Prop :=
  ev_statement_amount e = st_amount statement ∧
  ∀ a, ev_candidate_amount e = Some a → a ∈ ic_amount <$> l.

Lemma baseline_shows k : shows_pool (baseline_evidence statement k).
Proof. by split. Qed.

Lemma evaluation_shows e n :
  e ∈ evaluate s statement <$> l → shows_pool (evaluation_evidence statement e n).
Proof.
  intros (c&->&Hc)%list_elem_of_fmap. split; [done|]. intros a [= <-].
  rewrite ev_candidate. by apply list_elem_of_fmap_2.
Qed.

Lemma review_evaluation_elem first k : first ∈ k → review_evaluation first k ∈ k.
Proof.
  intros Hf. unfold review_evaluation. destruct (keep _ k) as [|e r] eqn:E; [done|].
  assert (e ∈ keep (compatibility_is CompatibilityResult.REVIEW_REQUIRED) k) as H by (rewrite E; left).
  by apply keep_elem_of in H as [H _].
Qed.

(** The members of filtered and sorted evaluations are evaluations. *)
Ltac evaluation :=
  repeat match goal with
  | H : ?x ∈ keep _ _ |- _ => apply keep_elem_of in H as [H _]
  | H : ?x ∈ isort _ _ |- _ => apply isort_elem_of in H
  | H : ?x ∈ ?c :: ?r, E : _ = ?c :: ?r |- _ => rewrite <- E in H
  end; assumption.

Ltac head c r := apply evaluation_shows; assert (c ∈ c :: r) by left; evaluation.

Lemma result_shows :
  shows_pool (mr_evidence (result_from_evaluations statement (evaluate s statement <$> l)
    (ms_date_tolerance_days s))).
Proof.
  unfold result_from_evaluations. cbv zeta.
  destruct (keep (gate_passed "currency_compatible") _) as [|c1 r1] eqn:E1; [apply baseline_shows|].
  destruct (keep (compatibility_is _) _) as [|c2 r2] eqn:E2.
  { apply evaluation_shows. pose proof (review_evaluation_elem c1 (c1 :: r1) ltac:(left)) as H. revert H.
    generalize (review_evaluation c1 (c1 :: r1)). intros e H. evaluation. }
  destruct (keep (gate_passed _) (c2 :: r2)) as [|c3 r3] eqn:E3; [head c2 r2|].
  destruct (keep date_passed _) as [|c4 r4] eqn:E4; [head c3 r3|].
  destruct (isort _ _) as [|c5 [|c6 r6]] eqn:E5; [head c4 r4|head c5 (@nil CandidateEvaluation)|head c5 (c6 :: r6)].
Qed.

Lemma match_statement_shows r : match_statement s statement l = Ok r → shows_pool (mr_evidence r).
Proof.
  intros (_&_&H)%bind_Ok. apply bind_Ok in H as (_&_&H).
  apply bind_Ok in H as (rec&_&[= <-]). cbn. unfold match_outcome.
  destruct (statement_precheck statement); [apply baseline_shows|].
  destruct (_ && _); [apply baseline_shows|].
  destruct l as [|c k] eqn:El; [apply baseline_shows|]. rewrite <- El. apply result_shows.
Qed.
End Evidence.

(** ** The candidates of a batch *)

Section Batch.
Context (statements : list StatementTransaction) (apps : list AppTransaction).
Context (d w : Z) (t : spec_float) (out : list ReconciliationCandidate).
Context (Hbatch : match_batch statements apps d w t = Ok out).

(** The amounts a batch starts from. *)
Definition batch_modest : bool :=
  forallb (λ st, opt_all modest (st_amount st)) statements &&
  forallb (λ a, modest_decimal (app_amount a)) apps.

Lemma app_to_internal_amount ics c :
  app_to_internal apps = Ok ics → c ∈ ics → ∃ a, a ∈ apps ∧ app_amount a = DFin (ic_amount c).
Proof.
  intros H%mapM_Ok Hc. apply list_elem_of_lookup in Hc as [i Hc].
  destruct (Forall2_lookup_r _ _ _ _ _ H Hc) as (a&Ha&Hn).
  exists a. split; [by eapply list_elem_of_lookup_2|].
  apply bind_Ok in Hn as (_&_&Hn). apply bind_Ok in Hn as (am&Ham&[= <-]). cbn.
  unfold check_candidate_amount in Ham. destruct (app_amount a) as [x| |]; [|discriminate Ham..].
  destruct (dec_leb x dec_zero); [discriminate Ham|]. by injection Ham as ->.
Qed.

Lemma row_modest ics p c :
  batch_modest = true → app_to_internal apps = Ok ics → p.2 ∈ statements →
  match_row (default_settings d w t) apps ics p = Ok c → amounts_modest c = true.
Proof.
  intros [Hst Ha]%andb_true_iff Hi Hp Hr.
  rewrite forallb_forall in Hst, Ha. setoid_rewrite <- list_elem_of_In in Hst.
  setoid_rewrite <- list_elem_of_In in Ha.
  destruct p as [i st]. apply bind_Ok in Hr as (r&Hr&H). apply bind_Ok in H as (q&_&[= <-]).
  apply match_statement_shows in Hr as [Hes Hec]. unfold amounts_modest. cbn. rewrite (Hst st Hp). cbn.
  rewrite Hes, (Hst st Hp). cbn [opt_all andb].
  apply andb_true_iff; split.
  - destruct (best_app apps r) as [a|] eqn:E; [|done]. apply Ha.
    unfold best_app in E. repeat case_match; try done; by apply find_app_elem in E as [].
  - destruct (ev_candidate_amount (mr_evidence r)) as [a|]; [|done].
    specialize (Hec a eq_refl). apply list_elem_of_fmap in Hec as (c&->&Hc).
    destruct (app_to_internal_amount _ _ Hi Hc) as (a&Hin&Hac). apply Ha in Hin. by rewrite Hac in Hin.
Qed.

Lemma flag_row_amounts ids c : amounts_modest (flag_row ids c) = amounts_modest c.
Proof. unfold flag_row. by repeat case_match. Qed.

Lemma missing_row_modest a c :
  modest_decimal (app_amount a) = true → missing_in_statement a = Ok c → amounts_modest c = true.
Proof.
  intros Hm (st&Hs&[= <-])%bind_Ok. unfold StatementTransaction_new in Hs.
  apply bind_Ok in Hs as (am&Ham&Hs). apply bind_Ok in Hs as (di&_&Hs).
  apply bind_Ok in Hs as ([]&_&[= <-]). unfold amounts_modest. cbn.
  destruct (app_amount a) as [x| |]; [|discriminate Hm..]. unfold check_statement_amount in Ham.
  destruct (dec_ltb x dec_zero); [discriminate Ham|]. injection Ham as <-. cbn. by rewrite andb_true_r, andb_diag.
Qed.

Lemma batch_amounts : batch_modest = true → Forall (λ c, amounts_modest c = true) out.
Proof using Hbatch.
  intros Hm. destruct (match_batch_Ok _ _ _ _ _ _ Hbatch) as (ics&rows&missing&Hi&Hr&Hmiss&->).
  apply mapM_Ok in Hr, Hmiss. rewrite flag_rows. apply Forall_app; split.
  - apply Forall_fmap, Forall_forall. intros c Hc. cbn. rewrite flag_row_amounts.
    apply list_elem_of_lookup in Hc as [i Hc].
    destruct (Forall2_lookup_r _ _ _ _ _ Hr Hc) as (p&Hp&Hrow).
    rewrite list_lookup_imap in Hp. apply fmap_Some in Hp as (st&Hst&->).
    eapply (row_modest _ _ _ Hm Hi); [|done]. by eapply list_elem_of_lookup_2.
  - apply Forall_forall. intros c Hc. apply list_elem_of_lookup in Hc as [i Hc].
    destruct (Forall2_lookup_r _ _ _ _ _ Hmiss Hc) as (a&Hp&Hrow).
    apply list_elem_of_lookup_2, keep_elem_of in Hp as [Hp _].
    apply (missing_row_modest a); [|done]. apply andb_true_iff in Hm as [_ Ha].
    rewrite forallb_forall in Ha. apply Ha. by rewrite <- list_elem_of_In.
Qed.

(** Rows are never classified as missing in the statement. *)
Lemma row_issue r : result_to_issue_type r ≠ IssueType.MISSING_IN_STATEMENT.
Proof.
  unfold result_to_issue_type. destruct (negb _); [by destruct (mr_status r)|].
  cbv zeta. by repeat case_match.
Qed.

Lemma flagged_row ids c :
  rc_candidate_id (flag_row ids c) = rc_candidate_id c ∧
  (rc_issue_type c ≠ IssueType.MISSING_IN_STATEMENT → rc_issue_type (flag_row ids c) ≠ IssueType.MISSING_IN_STATEMENT).
Proof. unfold flag_row. by repeat case_match. Qed.

Lemma digits_no_dash c l : Ascii.eqb c "-"%char = true → c ∉ (digit_char <$> l) ∨ ¬ Forall (λ x, 0 <= x < 10) l.
Proof.
  intros ->%Ascii.eqb_eq. destruct (decide (Forall (λ x, 0 <= x < 10) l)) as [Hl|]; [left|by right].
  intros (x&E&Hx)%list_elem_of_fmap. rewrite Forall_forall in Hl. apply Hl in Hx.
  assert (x ∈ [0; 1; 2; 3; 4; 5; 6; 7; 8; 9]) as H by (rewrite !elem_of_cons; lia).
  by repeat (apply elem_of_cons in H as [->|H]; [done|]); apply elem_of_nil in H.
Qed.

Lemma padded_no_dash k n : "-"%char ∉ pad_left k (int_chars (Z.of_nat n)).
Proof.
  unfold pad_left, int_chars. replace (Z.of_nat n <? 0) with false by (symmetry; apply Z.ltb_ge; lia).
  rewrite elem_of_app. intros [H|H].
  - by apply elem_of_replicate_inv in H.
  - destruct (digits_of_spec (Z.of_nat n) ltac:(lia)) as (_&Hd&_).
    by destruct (digits_no_dash "-"%char (digits_of (Z.of_nat n)) eq_refl).
Qed.

Lemma split_at_dash (a b r u : list Ascii.ascii) :
  "-"%char ∉ a → "-"%char ∉ b → a ++ "-"%char :: r = b ++ "-"%char :: u → a = b.
Proof.
  revert b; induction a as [|x a IH]; intros [|y b]; cbn; [done|..]; rewrite ?elem_of_cons.
  - intros _ Hb E. injection E as E _. destruct Hb. by left.
  - intros Ha _ E. injection E as E _. destruct Ha. by left.
  - intros Ha Hb E. injection E as -> E. f_equal. apply IH; [naive_solver..|done].
Qed.

Lemma chars_append a b : chars (a +:+ b) = chars a ++ chars b.
Proof. induction a as [|c a IH]; [done|].
  change (c :: chars (a +:+ b) = c :: (chars a ++ chars b)). by rewrite IH.
Qed.

Lemma row_candidate_id_inj i j st st' : row_candidate_id i st = row_candidate_id j st' → i = j.
Proof.
  unfold row_candidate_id. intros H%(f_equal chars).
  rewrite !chars_append, !chars_of_chars in H. cbn in H. injection H as H.
  apply split_at_dash in H; [|apply padded_no_dash..]. by apply padded_inj in H.
Qed.

Lemma row_ids s ics k l rows :
  Forall2 (λ p c, match_row s apps ics p = Ok c) (imap (λ i, pair (k + i)%nat) l) rows →
  NoDup (rc_candidate_id <$> rows) ∧
  (∀ c, c ∈ rows → ∃ i st, (k <= i)%nat ∧ rc_candidate_id c = row_candidate_id i st) ∧
  Forall (λ c, rc_issue_type c ≠ IssueType.MISSING_IN_STATEMENT) rows.
Proof.
  revert k rows; induction l as [|st l IH]; intros k rows H.
  { apply Forall2_nil_inv_l in H as ->. split_and!; [constructor| |constructor]. by intros c ?%elem_of_nil. }
  rewrite imap_cons in H. apply Forall2_cons_inv_l in H as (c&rows'&Hc&Hrows&->).
  rewrite (imap_ext _ (λ i, pair (S k + i)%nat)) in Hrows by (intros; cbn; f_equal; lia).
  destruct (IH (S k) rows' Hrows) as (Hnd&Hid&Hty).
  destruct (match_row_Ok _ _ _ _ _ Hc) as (r&q&_&_&_&_&_&_&Hissue&_).
  assert (rc_candidate_id c = row_candidate_id k st) as Hck.
  { apply bind_Ok in Hc as (r'&_&Hc). apply bind_Ok in Hc as (q'&_&[= <-]). cbn. by rewrite Nat.add_0_r. }
  rewrite fmap_cons. split_and!.
  - constructor; [|done]. intros (c'&E&(i&st'&Hi&Hc')%Hid)%list_elem_of_fmap.
    rewrite Hck, Hc' in E. apply row_candidate_id_inj in E. lia.
  - intros c' [->|Hc']%elem_of_cons; [by exists k, st|].
    destruct (Hid _ Hc') as (i&st'&Hi&E). exists i, st'. split; [lia|done].
  - constructor; [rewrite Hissue; apply row_issue|done].
Qed.
End Batch.

(** ** The sets the summary counts *)

Lemma statement_ids_spec l :
  statement_ids l = list_to_set (rc_candidate_id <$>
    keep (λ c, negb (bool_decide (rc_issue_type c = IssueType.MISSING_IN_STATEMENT))) l).
Proof.
  unfold statement_ids. rewrite <- (union_empty_r_L (list_to_set _)). generalize (∅ : gset string).
  induction l as [|c l IH]; intros ids; cbn [foldl]; [set_solver|]. rewrite IH. unfold keep. cbn [List.filter].
  destruct (bool_decide _); cbn; set_solver.
Qed.

Lemma app_ids_spec l : app_ids l = list_to_set (mjoin (row_references <$> l)).
Proof.
  unfold app_ids. rewrite <- (union_empty_r_L (list_to_set _)). generalize (∅ : gset string).
  induction l as [|c l IH]; intros ids; cbn [foldl]; [set_solver|]. rewrite IH. cbn. set_solver.
Qed.

(** ** What a generated queue satisfies *)

(** The number of candidates with an issue type. *)
Definition count_type (t : IssueType.t) (l : list ReconciliationCandidate) : Z :=
  len (keep (λ c, bool_decide (rc_issue_type c = t)) l).

Definition item_matched (q : ReviewQueueItem) : bool := bool_decide (qi_issue_type q = IssueType.MATCHED).

(** Item [q] presents candidate [c]. *)
Definition presents (c : ReconciliationCandidate) (q : ReviewQueueItem) : Prop :=
  rc_statement (qi_candidate q) = rc_statement c ∧
  rc_best_app_transaction (qi_candidate q) = rc_best_app_transaction c ∧
  rc_all_app_transactions (qi_candidate q) = rc_all_app_transactions c ∧
  rc_candidate_id (qi_candidate q) = rc_candidate_id c ∧
  qi_issue_type q = rc_issue_type c ∧ rc_issue_type (qi_candidate q) = rc_issue_type c ∧
  qi_reason_codes q = rc_reason_codes c ∧
  qi_suggested_action q = suggested_action_for_issue (rc_issue_type c) ∧
  rc_review_priority (qi_candidate q) = review_priority_for_issue (rc_issue_type c) ∧
  rc_is_review_required (qi_candidate q) = negb (item_matched q) ∧ is_Some (qi_structured_evidence q).

Lemma queue_item_presents label n c q : queue_item label n c = Ok q → presents c q.
Proof.
  intros (Hc&Hi&Hs&_&Hr&He)%queue_item_spec. unfold presents, item_matched. rewrite Hc, Hi.
  by destruct (reclassify_spec c) as (->&->&->&_&->&->&->&->&_).
Qed.

Lemma queue_items_total label l k :
  Forall (λ c, amounts_modest c = true) l →
  ∃ items, mapM (λ row : nat * ReconciliationCandidate, queue_item label row.1 row.2)
             (imap (λ i, pair (k + i)%nat) l) = Ok items.
Proof.
  intros Hl. revert k; induction Hl as [|c l Hc _ IH]; intros k; [by eexists|].
  destruct (queue_item_total label (k + 0) c Hc) as [q Hq]. destruct (IH (S k)) as [items Hitems].
  exists (q :: items). rewrite imap_cons. cbn. rewrite Hq. cbn.
  rewrite (imap_ext _ (λ i, pair (S k + i)%nat)) by (intros; cbn; f_equal; lia). by rewrite Hitems.
Qed.

Lemma generate_total label l :
  Forall (λ c, amounts_modest c = true) l → ∃ out, generate_review_queue l label = Ok out.
Proof.
  intros Hl. destruct (queue_items_total label l 0 Hl) as [items H].
  unfold generate_review_queue. change (imap pair l) with (imap (λ i, pair (0 + i)%nat) l).
  rewrite H. by eexists.
Qed.

Lemma made_items label l k made :
  Forall2 (λ row q, queue_item label row.1 row.2 = Ok q) (imap (λ i, pair (k + i)%nat) l) made →
  Forall2 presents l made ∧
  qi_queue_item_id <$> made = (λ i, queue_item_id label (k + i)) <$> seq 0 (length l).
Proof.
  revert k made; induction l as [|c l IH]; intros k made H.
  { apply Forall2_nil_inv_l in H as ->. by split; [constructor|]. }
  rewrite imap_cons in H. apply Forall2_cons_inv_l in H as (q&made'&Hq&Hmade&->).
  rewrite (imap_ext _ (λ i, pair (S k + i)%nat)) in Hmade by (intros; cbn; f_equal; lia).
  destruct (IH (S k) made' Hmade) as [Hp Hids]. split.
  - constructor; [by eapply queue_item_presents|done].
  - cbn [length seq]. rewrite !fmap_cons. f_equal; [by apply queue_item_spec in Hq as (_&_&_&->&_)|].
    rewrite Hids, <- (fmap_S_seq 0), <- list_fmap_compose. apply list_fmap_ext. intros i x _. cbn. f_equal. lia.
Qed.

Lemma presented_count l made (p : IssueType.t → bool) :
  Forall2 presents l made → len (keep (λ q, p (qi_issue_type q)) made) = len (keep (λ c, p (rc_issue_type c)) l).
Proof.
  induction 1 as [|c q l made Hq _ IH]; [done|]. rewrite !len_keep_cons, IH.
  by destruct Hq as (_&_&_&_&->&_).
Qed.

Lemma generate_made label l items s :
  generate_review_queue l label = Ok (items, s) →
  ∃ made, items = isort item_leb made ∧ Forall2 presents l made ∧
    qi_queue_item_id <$> made = (λ i, queue_item_id label (0 + i)) <$> seq 0 (length l).
Proof.
  intros (made&Hm&[= <- _])%bind_Ok. exists made. split; [done|].
  apply mapM_Ok in Hm. by apply (made_items label l 0).
Qed.

(** A priority says whether review is needed. *)
Lemma priority_low t : bool_decide (review_priority_for_issue t = ReviewPriority.LOW) = bool_decide (t = IssueType.MATCHED).
Proof. by destruct t. Qed.

Lemma priority_tiers t :
  (if bool_decide (review_priority_for_issue t = ReviewPriority.HIGH) then 1 else 0) +
  (if bool_decide (review_priority_for_issue t = ReviewPriority.MEDIUM) then 1 else 0) =
  if negb (bool_decide (t = IssueType.MATCHED)) then 1 else 0.
Proof. by destruct t. Qed.

Lemma presented_priorities l made :
  Forall2 presents l made →
  let tier p := len (keep (λ q, bool_decide (rc_review_priority (qi_candidate q) = p)) made) in
  tier ReviewPriority.HIGH + tier ReviewPriority.MEDIUM = len (keep (λ q, negb (item_matched q)) made) ∧
  tier ReviewPriority.LOW = len (keep item_matched made) ∧
  len (keep (λ q, rc_is_review_required (qi_candidate q)) made) = len (keep (λ q, negb (item_matched q)) made).
Proof.
  intros H tier. subst tier. cbv zeta beta. induction H as [|c q l made Hq _ (IH1&IH2&IH3)]; [done|].
  rewrite !len_keep_cons. destruct Hq as (_&_&_&_&Hi&_&_&_&Hp&Hr&_).
  unfold item_matched in *. rewrite Hp, Hr, Hi, priority_low.
  pose proof (priority_tiers (rc_issue_type c)). split_and!; lia.
Qed.

(** What the dictionary of counters holds. *)
Lemma counted_type l t : get_count (foldl count_issue [] l) (IssueType.value t) = count_type t l.
Proof.
  rewrite counts_get. change (get_count [] _) with 0. rewrite Z.add_0_l. unfold count_type. f_equal.
  apply keep_ext. intros c. apply issue_eqb.
Qed.

Lemma counted_reviews l :
  zsum (keep (λ kv : string * Z, negb (String.eqb kv.1 (IssueType.value IssueType.MATCHED)))
    (foldl count_issue [] l)).*2 =
  len (keep (λ c, negb (bool_decide (rc_issue_type c = IssueType.MATCHED))) l).
Proof.
  rewrite (counts_sum (λ k, negb (String.eqb k (IssueType.value IssueType.MATCHED)))).
  change (zsum (keep _ []).*2) with 0. rewrite Z.add_0_l. f_equal. apply keep_ext.
  intros c. by rewrite String.eqb_sym, issue_eqb.
Qed.

(** the queue of any candidates with modest amounts is built; it presents
    every candidate once, in one order, under distinct identifiers, and splits
    into the matched items and those to review; all counters of the summary
    are the lengths of the lists they describe, the three tiers agree with
    the review flags, and the counters by issue type count the candidates. *)
Theorem review_queue_complete label candidates :
  (Forall (λ c, amounts_modest c = true) candidates →
   ∃ out, generate_review_queue candidates label = Ok out) ∧
  ∀ items s, generate_review_queue candidates label = Ok (items, s) →
    StronglySorted item_leb items ∧ NoDup (qi_queue_item_id <$> items) ∧
    (∃ made, items ≡ₚ made ∧ Forall2 presents candidates made) ∧
    rs_matched_items s ++ rs_review_items s ≡ₚ items ∧
    Forall (λ q, item_matched q = true) (rs_matched_items s) ∧
    Forall (λ q, item_matched q = false) (rs_review_items s) ∧
    rs_matched_count s = len (rs_matched_items s) ∧ rs_needs_review_count s = len (rs_review_items s) ∧
    rs_review_required_count s = rs_needs_review_count s ∧
    rs_high_priority_count s + rs_medium_priority_count s = rs_needs_review_count s ∧
    rs_low_priority_count s = rs_matched_count s ∧
    rs_missing_in_app_count s = count_type IssueType.MISSING_IN_APP candidates ∧
    rs_missing_in_statement_count s = count_type IssueType.MISSING_IN_STATEMENT candidates ∧
    rs_amount_mismatch_count s = count_type IssueType.AMOUNT_MISMATCH candidates ∧
    rs_currency_mismatch_count s = count_type IssueType.CURRENCY_MISMATCH candidates ∧
    rs_possible_duplicate_count s = count_type IssueType.POSSIBLE_DUPLICATE candidates.
Proof.
  split; [apply generate_total|]. intros items s H.
  destruct (generate_made _ _ _ _ H) as (made&->&Hp&Hids).
  apply bind_Ok in H as (made'&Hm&[= E <-]).
  assert (made' ≡ₚ made) as Hperm by (by rewrite <- (isort_perm item_leb made'), E, isort_perm).
  set (L := isort item_leb made') in *.
  assert (L ≡ₚ made) as HL by (subst L; by rewrite isort_perm). rewrite <- E.
  assert (∀ p, len (keep p L) = len (keep p made)) as Hlen by (intros p; by apply len_perm, keep_perm).
  destruct (presented_priorities _ _ Hp) as (Hhm&Hlow&Hreq).
  pose proof (presented_count _ _ (λ t, bool_decide (t = IssueType.MATCHED)) Hp) as Hmc.
  pose proof (presented_count _ _ (λ t, negb (bool_decide (t = IssueType.MATCHED))) Hp) as Hrc.
  pose proof (counted_reviews candidates) as Hneeds. rewrite <- Hrc in Hneeds.
  cbn [rs_matched_items rs_review_items rs_matched_count rs_needs_review_count rs_review_required_count
    rs_high_priority_count rs_medium_priority_count rs_low_priority_count rs_missing_in_app_count
    rs_missing_in_statement_count rs_amount_mismatch_count rs_currency_mismatch_count rs_possible_duplicate_count].
  split_and!.
  - apply items_sorted.
  - rewrite HL, Hids. apply NoDup_fmap_2; [|apply NoDup_seq]. intros i j E'%queue_item_id_inj. lia.
  - by exists made.
  - apply keep_split.
  - apply Forall_forall. by intros q [_ Hq]%keep_elem_of.
  - apply Forall_forall. by intros q [_ Hq%negb_true_iff]%keep_elem_of.
  - etransitivity; [apply (counted_type candidates IssueType.MATCHED)|]. rewrite Hlen. unfold count_type. by rewrite <- Hmc.
  - etransitivity; [exact Hneeds|]. by rewrite Hlen.
  - etransitivity; [|symmetry; exact Hneeds]. by rewrite Hlen.
  - etransitivity; [|symmetry; exact Hneeds]. by rewrite !Hlen.
  - rewrite Hlen, Hlow. symmetry. etransitivity; [apply (counted_type candidates IssueType.MATCHED)|].
    symmetry. exact Hmc.
  - apply (counted_type candidates IssueType.MISSING_IN_APP).
  - apply (counted_type candidates IssueType.MISSING_IN_STATEMENT).
  - apply (counted_type candidates IssueType.AMOUNT_MISMATCH).
  - apply (counted_type candidates IssueType.CURRENCY_MISMATCH).
  - apply (counted_type candidates IssueType.POSSIBLE_DUPLICATE).
Qed.

(** ** The parts of a batch *)

Definition is_missing_row (c : ReconciliationCandidate) : bool :=
  bool_decide (rc_issue_type c = IssueType.MISSING_IN_STATEMENT).

Lemma missing_types l ms :
  Forall2 (λ a c, missing_in_statement a = Ok c) l ms → Forall (λ c, is_missing_row c = true) ms.
Proof.
  induction 1 as [|a c l ms Ha _ IH]; constructor; [|done].
  apply missing_row in Ha as (_&Ht&_). by apply bool_decide_eq_true_2.
Qed.

Lemma flagged_types ids l :
  Forall (λ c, rc_issue_type c ≠ IssueType.MISSING_IN_STATEMENT) l →
  Forall (λ c, is_missing_row c = false) (flag_row ids <$> l).
Proof.
  intros Hl. apply Forall_fmap. eapply Forall_impl; [done|]. intros c Hc.
  apply bool_decide_eq_false_2. by apply flagged_row.
Qed.

Lemma presented_rows rows missing made :
  Forall2 presents (rows ++ missing) made →
  Forall (λ c, is_missing_row c = false) rows → Forall (λ c, is_missing_row c = true) missing →
  (λ q, rc_statement (qi_candidate q)) <$>
    keep (λ q, negb (bool_decide (qi_issue_type q = IssueType.MISSING_IN_STATEMENT))) made =
  rc_statement <$> rows.
Proof.
  intros (m1&m2&H1&H2&->)%Forall2_app_inv_l Hr Hmiss. rewrite keep_app, keep_all, keep_none, app_nil_r.
  - clear Hr. induction H1 as [|c q rows m1 Hq _ IH]; [done|]. rewrite !fmap_cons, IH.
    by destruct Hq as (->&_).
  - clear -H2 Hmiss. induction H2 as [|c q l m Hq _ IH]; inversion Hmiss as [|?? Hc Hl]; subst; constructor; [|auto].
    destruct Hq as (_&_&_&_&->&_). apply negb_false_iff. exact Hc.
  - clear -H1 Hr. induction H1 as [|c q l m Hq _ IH]; inversion Hr as [|?? Hc Hl]; subst; constructor; [|auto].
    destruct Hq as (_&_&_&_&->&_). apply negb_true_iff. exact Hc.
Qed.

Lemma missing_references a c : missing_in_statement a = Ok c → row_references c = [app_txn_id a; app_txn_id a].
Proof. by intros (st&_&[= <-])%bind_Ok. Qed.

(** A batch refers to all app transactions and to no others. *)
Lemma batch_references statements apps s ics rows missing ids id :
  mapM (match_row s apps ics) (imap pair statements) = Ok rows →
  Forall2 (λ a c, missing_in_statement a = Ok c)
    (keep (λ a, negb (str_in (app_txn_id a) (mjoin (row_references <$> rows)))) apps) missing →
  id ∈ mjoin (row_references <$> ((flag_row ids <$> rows) ++ missing)) ↔ id ∈ app_txn_id <$> apps.
Proof.
  intros Hr Hmiss. rewrite fmap_app, join_app, elem_of_app.
  assert (row_references <$> (flag_row ids <$> rows) = row_references <$> rows) as ->.
  { rewrite <- list_fmap_compose. apply list_fmap_ext. intros i c _. apply flag_row_keeps. }
  apply mapM_Ok in Hr. split.
  - intros [(refs&Hid&(c&->&Hc)%list_elem_of_fmap)%list_elem_of_join|
            (refs&Hid&(c&->&Hc)%list_elem_of_fmap)%list_elem_of_join].
    + apply list_elem_of_lookup in Hc as [i Hc].
      destruct (Forall2_lookup_r _ _ _ _ _ Hr Hc) as (p&_&Hp). by eapply row_references_known.
    + apply list_elem_of_lookup in Hc as [i Hc].
      destruct (Forall2_lookup_r _ _ _ _ _ Hmiss Hc) as (a&Ha&Hrow).
      apply list_elem_of_lookup_2, keep_elem_of in Ha as [Ha _].
      rewrite (missing_references _ _ Hrow) in Hid. apply elem_of_cons in Hid as [->|Hid]; [by apply list_elem_of_fmap_2|].
      apply list_elem_of_singleton in Hid as ->. by apply list_elem_of_fmap_2.
  - intros (a&->&Ha)%list_elem_of_fmap.
    destruct (str_in (app_txn_id a) (mjoin (row_references <$> rows))) eqn:E; [left; by apply bool_decide_eq_true in E|].
    right. assert (a ∈ keep (λ a, negb (str_in (app_txn_id a) (mjoin (row_references <$> rows)))) apps) as Hk
      by (apply keep_elem_of; by rewrite E).
    apply list_elem_of_lookup in Hk as [i Hk]. destruct (Forall2_lookup_l _ _ _ _ _ Hmiss Hk) as (c&Hc&Hrow).
    apply list_elem_of_join. exists (row_references c). split; [rewrite (missing_references _ _ Hrow); left|].
    apply list_elem_of_fmap_2. by eapply list_elem_of_lookup_2.
Qed.

(** the queue of a batch accounts for everything in it.  From modest
    amounts it is always built; its summary counts each statement row and each
    app transaction exactly once; the items other than the MISSING_IN_STATEMENT
    ones are the statement rows, and every app transaction is named by an
    item. *)
Theorem batch_review_queue statements apps d w t out label :
  match_batch statements apps d w t = Ok out → batch_modest statements apps = true →
  ∃ items s, generate_review_queue out label = Ok (items, s) ∧
    rs_total_statement_transactions s = len statements ∧
    rs_total_app_transactions s = Z.of_nat (size (list_to_set (app_txn_id <$> apps) : gset string)) ∧
    (λ q, rc_statement (qi_candidate q)) <$>
      keep (λ q, negb (bool_decide (qi_issue_type q = IssueType.MISSING_IN_STATEMENT))) items ≡ₚ statements ∧
    ∀ a, a ∈ apps → ∃ q, q ∈ items ∧ app_txn_id a ∈ row_references (qi_candidate q).
Proof.
  intros H Hm. destruct (generate_total label out) as [[items s] Hg]; [by eapply batch_amounts|].
  exists items, s. split; [done|].
  destruct (generate_made _ _ _ _ Hg) as (made&->&Hp&_).
  apply bind_Ok in Hg as (made'&_&[= _ <-]). cbn [rs_total_statement_transactions rs_total_app_transactions].
  destruct (match_batch_Ok _ _ _ _ _ _ H) as (ics&rows&missing&_&Hr&Hmiss&->).
  apply mapM_Ok in Hmiss. pose proof Hr as Hrows. apply mapM_Ok in Hrows.
  apply (row_ids apps _ _ 0) in Hrows as (Hnd&_&Hty). rewrite flag_rows in *.
  set (ids := reused_app_ids rows) in *.
  pose proof (missing_types _ _ Hmiss) as Hmt. pose proof (flagged_types ids _ Hty) as Hft.
  split_and!.
  - rewrite statement_ids_spec, keep_app, keep_all, (keep_none _ missing), app_nil_r.
    2:{ eapply Forall_impl; [exact Hmt|]. intros c Hc. apply negb_false_iff. exact Hc. }
    2:{ eapply Forall_impl; [exact Hft|]. intros c Hc. apply negb_true_iff. exact Hc. }
    assert (rc_candidate_id <$> (flag_row ids <$> rows) = rc_candidate_id <$> rows) as ->.
    { rewrite <- list_fmap_compose. apply list_fmap_ext. intros i c _. apply flagged_row. }
    rewrite size_list_to_set by done. unfold len.
    by rewrite <- (match_rows_statements _ _ _ _ _ Hr), !length_fmap.
  - rewrite app_ids_spec. do 2 f_equal. apply set_eq. intros id. rewrite !elem_of_list_to_set.
    by eapply batch_references.
  - rewrite <- (match_rows_statements _ _ _ _ _ Hr).
    rewrite (keep_perm _ _ _ (isort_perm _ _)), (presented_rows (flag_row ids <$> rows) missing made) by done.
    rewrite <- list_fmap_compose. erewrite list_fmap_ext; [reflexivity|]. intros i c _. apply flag_row_keeps.
  - intros a Ha. apply (list_elem_of_fmap_2 app_txn_id) in Ha.
    rewrite <- (batch_references _ _ _ _ _ missing ids _ Hr Hmiss) in Ha.
    apply list_elem_of_join in Ha as (refs&Hid&(c&->&Hc)%list_elem_of_fmap).
    apply list_elem_of_lookup in Hc as [i Hc]. destruct (Forall2_lookup_l _ _ _ _ _ Hp Hc) as (q&Hq&Hpres).
    exists q. split; [apply isort_elem_of; by eapply list_elem_of_lookup_2|].
    destruct Hpres as (_&Hb&Hall&_). unfold row_references in *. by rewrite Hb, Hall.
Qed.

(** ** A queue of four items *)

Definition example_batch : list ReconciliationCandidate :=
  match match_batch example_rows example_apps 3 3 float_half with Ok l => l | Raise _ => [] end.

Definition run_queue : option (list (string * IssueType.t * string) * (Z * Z) * (Z * Z * Z)) :=
  match generate_review_queue example_batch "r" with
  | Ok (items, s) =>
      Some ((λ q, (qi_queue_item_id q, qi_issue_type q, qi_evidence_summary q)) <$> items,
            (rs_total_statement_transactions s, rs_total_app_transactions s),
            (rs_matched_count s, rs_needs_review_count s, rs_high_priority_count s))
  | Raise _ => None
  end.

Example run_queue_result :
  run_queue = Some
    ([("r-q-000", IssueType.POSSIBLE_DUPLICATE,
       "Stmt SGD 12.30 on 2026-07-01; App SGD 12.30 on 2026-07-01 (Grab); Date delta 0d; Merchant sim 1.00");
      ("r-q-001", IssueType.POSSIBLE_DUPLICATE,
       "Stmt SGD 12.30 on 2026-07-01; App SGD 12.30 on 2026-07-01 (Grab); Date delta 0d; Merchant sim 1.00");
      ("r-q-003", IssueType.MISSING_IN_STATEMENT, "no evidence");
      ("r-q-002", IssueType.MATCHED,
       "Stmt SGD 5.00 on 2026-07-01; App SGD 5.00 on 2026-07-01 (Uber); Date delta 0d; Merchant sim 1.00")],
     (3, 3), (1, 3, 2)).
Proof. by vm_compute. Qed.

Lemma review_queue_complete_witness :
  ∃ items s, generate_review_queue example_batch "r" = Ok (items, s) ∧
    NoDup (qi_queue_item_id <$> items) ∧ rs_needs_review_count s = len (rs_review_items s).
Proof.
  destruct (proj1 (review_queue_complete "r" example_batch)) as [[items s] E].
  { apply (bool_decide_eq_true_1 (Forall _ _)). vm_compute. reflexivity. }
  exists items, s. split; [exact E|].
  destruct (proj2 (review_queue_complete "r" example_batch) items s E) as (_&H1&_&_&_&_&_&H2&_).
  split; [exact H1|exact H2].
Defined.

Lemma batch_review_queue_witness :
  ∃ out items s, match_batch example_rows example_apps 3 3 float_half = Ok out ∧
    generate_review_queue out "r" = Ok (items, s) ∧ rs_total_statement_transactions s = 3 ∧
    rs_total_app_transactions s = 3.
Proof.
  destruct (match_batch example_rows example_apps 3 3 float_half) as [out|e] eqn:E; [|vm_compute in E; discriminate E].
  destruct (batch_review_queue _ _ _ _ _ _ "r" E) as (items&s&Hg&Hs&Ha&_); [vm_compute; reflexivity|].
  exists out, items, s. split; [reflexivity|]. split; [exact Hg|]. split; [exact Hs|]. exact Ha.
Defined.
