(* ===== verification/ApplyRuntime.v ===== *)
(** * The resolution apply runtime

    reconciliation/apply.py up to [apply_decisions], with the checks of
    resolution_integrity.py it uses (the file Integrity has the others): a reviewer's decision becomes a validated
    instruction, and the runtime turns instructions into results, remembering
    what it applied so that a repeat is idempotent and a contradiction is
    refused.  The runtime's registry is threaded as a state: every check comes
    before the only mutation, so an exception leaves the state as it was and
    the operations return [result (output * state)].  The clock is an
    argument.  Error messages are kept, since results carry them. *)

From Stdlib Require Import Ascii ZArith SpecFloat Lia.
From stdpp Require Import base sets strings sorting numbers list.
From S2P Require Import Prelude PyDecimal PyValue Hash Json PyDate PyDateTime ReconModels ReviewModels.

Open Scope Z_scope.

(** ** Integrity checks *)

Definition require_nonempty (value label : string) : result unit :=
  raise_when (str_empty (py_strip value)) ValueError
    ("successful reconciliation " +:+ label +:+ " must be a nonempty string").

Definition require_aware_time (value label : string) : result unit :=
  require_nonempty value label;;
  match fromisoformat value with
  | None => raise ValueError ("successful reconciliation " +:+ label +:+ " is not ISO datetime")
  | Some parsed =>
      raise_when (negb (aware parsed)) ValueError
        ("successful reconciliation " +:+ label +:+ " must be timezone aware")
  end.

Definition require_resolved_at (resolved_at : option string) : result unit :=
  match resolved_at with Some t => require_aware_time t "resolved_at" | None => Ok tt end.

(** [except ValueError as exc: raise ApplyInstructionError(str(exc))]. *)
Definition as_instruction_error (m : result unit) : result unit :=
  catch m ValueError (λ e, raise ApplyInstructionError (exn_site e)).

(** ** Building instructions *)

Inductive reference := BestApp | AllApps | Statement.

Definition ACTION_REQUIRED_REFERENCES (action : ResolutionAction.t) : list reference :=
  match action with
  | ResolutionAction.CONFIRM_MATCH => [BestApp]
  | ResolutionAction.MARK_DUPLICATE => [AllApps]
  | ResolutionAction.CREATE_MISSING_APP_TRANSACTION => [Statement]
  | ResolutionAction.ADJUST_APP_TRANSACTION => [BestApp]
  | ResolutionAction.MARK_STATEMENT_ONLY => [Statement]
  | ResolutionAction.IGNORE | ResolutionAction.NEEDS_MORE_INFO => []
  end.

Definition instruction_source_fingerprint (item : ReviewQueueItem) : string :=
  hexdigest (sha256 (encode (repr_item item))).

(** What is wrong with one required reference. *)
Definition reference_error (cand : ReconciliationCandidate) (action : ResolutionAction.t) (r : reference) :
    option string :=
  let n := Z.of_nat (length (rc_all_app_transactions cand)) in
  match r with
  | BestApp =>
      match rc_best_app_transaction cand with
      | Some _ => None
      | None => Some ("Action '" +:+ ResolutionAction.value action +:+
          "' requires candidate field 'best_app_transaction' but it is None for candidate '" +:+
          rc_candidate_id cand +:+ "'")
      end
  | AllApps =>
      if n <? 2 then Some ("Action '" +:+ ResolutionAction.value action +:+
        "' requires at least 2 app transactions for duplicate detection, but candidate '" +:+
        rc_candidate_id cand +:+ "' has " +:+ repr_int n)
      else None
  | Statement => None
  end.

Definition check_instruction_references (item : ReviewQueueItem) (decision : ResolutionDecision) :
    option string :=
  foldr (λ r rest, match reference_error (qi_candidate item) (rd_action decision) r with
                   | Some e => Some e | None => rest end)
    None (ACTION_REQUIRED_REFERENCES (rd_action decision)).

Definition check_monetary_amount (item : ReviewQueueItem) (decision : ResolutionDecision) : result unit :=
  let aware := [ResolutionAction.ADJUST_APP_TRANSACTION; ResolutionAction.CREATE_MISSING_APP_TRANSACTION] in
  raise_when (bool_decide (rd_action decision ∈ aware) &&
              bool_decide (st_amount (rc_statement (qi_candidate item)) = None))
    ApplyInstructionError ("Action '" +:+ ResolutionAction.value (rd_action decision) +:+
      "' requires a statement amount but statement amount is None for candidate '" +:+
      rc_candidate_id (qi_candidate item) +:+ "'").

(** [a or b] for texts. *)
Definition or_else (o : option string) (default : string) : string :=
  match o with Some s => if str_empty s then default else s | None => default end.

Definition statement_ref_from_item (item : ReviewQueueItem) : option string :=
  let stmt := rc_statement (qi_candidate item) in
  Some (or_else (st_statement_row_reference stmt) (st_merchant_raw stmt)).

Definition app_ref_from_item (item : ReviewQueueItem) : option string :=
  app_txn_id <$> rc_best_app_transaction (qi_candidate item).

Definition instruction_metadata (instruction_id : string) (item : ReviewQueueItem) : pydict string :=
  [("build_version", "v1"); ("source", "build_apply_instruction"); ("instruction_id", instruction_id);
   ("item_sha256", instruction_source_fingerprint item)].

Definition check_decision_metadata (decision : ResolutionDecision) : result unit :=
  require_nonempty (rd_decision_id decision) "decision_id";;
  require_nonempty (rd_queue_item_id decision) "queue_item_id";;
  require_nonempty (rd_reviewer decision) "reviewer";;
  require_resolved_at (rd_resolved_at decision).

Definition build_apply_instruction (item : ReviewQueueItem) (decision : ResolutionDecision)
    (evidence_refs : list string) (require_evidence_ref : bool) : result ApplyInstruction :=
  let cand := qi_candidate item in
  as_instruction_error (check_decision_metadata decision);;
  raise_when (negb (String.eqb (rd_queue_item_id decision) (qi_queue_item_id item))) ApplyInstructionError
    ("Decision queue_item_id '" +:+ rd_queue_item_id decision +:+ "' does not match item queue_item_id '" +:+
     qi_queue_item_id item +:+ "'");;
  raise_when (str_empty (rc_candidate_id cand)) ApplyInstructionError
    ("Candidate identity is ambiguous (empty candidate_id) for queue item '" +:+ qi_queue_item_id item +:+
     "'. Cannot build apply instruction.");;
  (let '(is_compat, compat_error) := validate_resolution_decision (rd_action decision) (qi_issue_type item) in
   raise_when (negb is_compat) ApplyInstructionError (default "" compat_error));;
  match check_instruction_references item decision with
  | Some ref_error => raise ApplyInstructionError ref_error
  | None => Ok tt
  end;;
  raise_when (require_evidence_ref && bool_decide (evidence_refs = [])) ApplyInstructionError
    ("Evidence reference is required for apply instruction on queue item '" +:+ qi_queue_item_id item +:+
     "' but none provided.");;
  check_monetary_amount item decision;;
  let instruction_id := "instr-" +:+ rd_decision_id decision in
  Ok (MkInstruction instruction_id (rd_decision_id decision) (qi_queue_item_id item) (rc_candidate_id cand)
        (rd_action decision) (rd_reviewer decision) (rd_note decision) (rd_resolved_at decision)
        (qi_issue_type item) (statement_ref_from_item item) (app_ref_from_item item) evidence_refs
        (instruction_metadata instruction_id item) (Some item)).

(** Equality of dictionaries, whatever their order. *)
Definition dict_eqb (a b : pydict string) : bool :=
  (length a =? length b)%nat && forallb (λ kv, bool_decide (dict_get kv.1 b = Some kv.2)) a.

(** [==] of instructions, which leaves out [_item]. *)
Definition instruction_eqb (a b : ApplyInstruction) : bool :=
  bool_decide
    ((ai_instruction_id a, ai_decision_id a, ai_queue_item_id a, ai_candidate_id a, ai_action a, ai_reviewer a,
      ai_note a, ai_resolved_at a, ai_issue_type a, ai_statement_ref a, ai_app_transaction_ref a,
      ai_evidence_refs a) =
     (ai_instruction_id b, ai_decision_id b, ai_queue_item_id b, ai_candidate_id b, ai_action b, ai_reviewer b,
      ai_note b, ai_resolved_at b, ai_issue_type b, ai_statement_ref b, ai_app_transaction_ref b,
      ai_evidence_refs b)) &&
  dict_eqb (ai_audit_metadata a) (ai_audit_metadata b).

(** [_validate_instruction]; it returns the item the instruction carries. *)
Definition validate_instruction (i : ApplyInstruction) : result ReviewQueueItem :=
  match ai_item i with
  | None => raise ApplyInstructionError "apply instruction has no review queue source"
  | Some item =>
      as_instruction_error
        (require_nonempty (ai_instruction_id i) "instruction_id";;
         require_nonempty (ai_decision_id i) "decision_id";;
         require_nonempty (ai_queue_item_id i) "queue_item_id";;
         require_nonempty (ai_candidate_id i) "candidate_id";;
         require_nonempty (ai_reviewer i) "reviewer";;
         require_resolved_at (ai_resolved_at i));;
      raise_when (existsb (λ ref, str_empty (py_strip ref)) (ai_evidence_refs i) ||
                  negb (dict_eqb (ai_audit_metadata i) (instruction_metadata (ai_instruction_id i) item)))
        ApplyInstructionError "apply instruction audit metadata is invalid";;
      expected ← build_apply_instruction item
        (MkResolution (ai_decision_id i) (ai_queue_item_id i) (ai_action i) (ai_note i) (ai_reviewer i)
           (ai_resolved_at i)) (ai_evidence_refs i) false;
      raise_when (negb (instruction_eqb i expected)) ApplyInstructionError
        "apply instruction differs from validated review source";;
      Ok item
  end.

(** ** Payloads *)

Definition jopt (o : option string) : json := opt_json JStr o.
Definition jdate (o : option date) : json := opt_json (λ d, JStr (date_isoformat d)) o.

(** [str(amount) if amount else None]: zero is false. *)
Definition amount_or_none (o : option fdec) : json :=
  match o with
  | Some d => if is_zero d then JNull else JStr (dec_str d)
  | None => JNull
  end.

(** A member that is only present with a value. *)
Definition member (k : string) (o : option json) : list (string * json) :=
  match o with Some v => [(k, v)] | None => [] end.

Definition app_members (app : option AppTransaction) : list (string * json) :=
  match app with
  | None => []
  | Some app =>
      [("app_txn_id", JStr (app_txn_id app)); ("app_merchant", JStr (app_merchant app));
       ("app_amount", JStr (decimal_str (app_amount app))); ("app_currency", JStr (app_currency app));
       ("app_txn_date", JStr (date_isoformat (app_transaction_date app)))]
  end.

Definition reason_values (l : list ReasonCode.t) : json := JList ((λ r, JStr (ReasonCode.value r)) <$> l).

Definition payload_confirm_match (cand : ReconciliationCandidate) : json :=
  let stmt := rc_statement cand in
  JDict ([("action_type", JStr "confirm_match");
          ("statement_merchant", JStr (st_merchant_raw stmt));
          ("statement_amount", amount_or_none (st_amount stmt));
          ("statement_currency", jopt (st_currency stmt))] ++
         member "statement_txn_date" ((λ d, JStr (date_isoformat d)) <$> st_transaction_date stmt) ++
         app_members (rc_best_app_transaction cand) ++
         [("confidence_score", JStr (dec_str (rc_confidence_score cand)));
          ("reason_codes", reason_values (rc_reason_codes cand))]).

Definition payload_mark_duplicate (cand : ReconciliationCandidate) : json :=
  let stmt := rc_statement cand in
  JDict [("action_type", JStr "mark_duplicate");
         ("duplicate_app_txn_ids", JList ((λ a, JStr (app_txn_id a)) <$> rc_all_app_transactions cand));
         ("kept_app_txn_id", jopt (app_txn_id <$> rc_best_app_transaction cand));
         ("statement_merchant", JStr (st_merchant_raw stmt));
         ("statement_amount", amount_or_none (st_amount stmt));
         ("confidence_score", JStr (dec_str (rc_confidence_score cand)));
         ("audit_only", JBool true);
         ("note", JStr "Duplicate classification recorded. No transactions deleted or merged.")].

Definition payload_mark_statement_only (cand : ReconciliationCandidate) : json :=
  let stmt := rc_statement cand in
  JDict [("action_type", JStr "mark_statement_only");
         ("statement_merchant", JStr (st_merchant_raw stmt));
         ("statement_amount", amount_or_none (st_amount stmt));
         ("statement_currency", jopt (st_currency stmt));
         ("statement_row_reference", jopt (st_statement_row_reference stmt));
         ("intent", JStr "Statement row intentionally not linked to an app transaction.")].

Definition payload_create_missing_app (cand : ReconciliationCandidate) : json :=
  let stmt := rc_statement cand in
  JDict [("action_type", JStr "proposal");
         ("proposal_type", JStr "create_missing_app_transaction");
         ("statement_merchant", JStr (st_merchant_raw stmt));
         ("suggested_amount", amount_or_none (st_amount stmt));
         ("suggested_currency", jopt (st_currency stmt));
         ("suggested_date", jdate (st_transaction_date stmt));
         ("statement_row_reference", jopt (st_statement_row_reference stmt));
         ("source_evidence", JDict
            [("statement_merchant", JStr (st_merchant_raw stmt));
             ("statement_amount", amount_or_none (st_amount stmt));
             ("statement_currency", jopt (st_currency stmt));
             ("statement_txn_date", jdate (st_transaction_date stmt))]);
         ("note", JStr "Proposal only. Actual transaction creation requires a guarded conversion step in a future version.")].

Definition field_adjustments (cand : ReconciliationCandidate) : list (string * json) :=
  let stmt := rc_statement cand in
  match rc_issue_type cand with
  | IssueType.AMOUNT_MISMATCH => member "amount" ((λ d, JStr (dec_str d)) <$> st_amount stmt)
  | IssueType.CURRENCY_MISMATCH => member "currency" (JStr <$> st_currency stmt)
  | IssueType.DATE_MISMATCH =>
      member "transaction_date" ((λ d, JStr (date_isoformat d)) <$> st_transaction_date stmt)
  | IssueType.MERCHANT_MISMATCH => [("merchant", JStr (st_merchant_raw stmt))]
  | _ => []
  end.

Definition payload_adjust_app (cand : ReconciliationCandidate) : json :=
  let stmt := rc_statement cand in
  JDict [("action_type", JStr "proposal");
         ("proposal_type", JStr "adjust_app_transaction");
         ("app_txn_id", jopt (app_txn_id <$> rc_best_app_transaction cand));
         ("field_adjustments", JDict (field_adjustments cand));
         ("statement_evidence", JDict
            [("merchant", JStr (st_merchant_raw stmt));
             ("amount", amount_or_none (st_amount stmt));
             ("currency", jopt (st_currency stmt));
             ("txn_date", jdate (st_transaction_date stmt))]);
         ("note", JStr "Proposal only. Actual transaction adjustment requires a guarded mutation step in a future version.")].

Definition reason_of_note (i : ApplyInstruction) : json :=
  JStr (or_else (Some (ai_note i)) "(no note provided)").

Definition payload_ignore (i : ApplyInstruction) : json :=
  JDict [("action_type", JStr "ignore"); ("skipped", JBool true); ("reason", reason_of_note i)].

Definition payload_needs_more_info (i : ApplyInstruction) : json :=
  JDict [("action_type", JStr "needs_more_info"); ("reason", reason_of_note i);
         ("status", JStr "pending_investigation")].

Definition build_payload_instruction (i : ApplyInstruction) : json :=
  match ai_item i with
  | None => JDict []
  | Some item =>
      let cand := qi_candidate item in
      match ai_action i with
      | ResolutionAction.CONFIRM_MATCH => payload_confirm_match cand
      | ResolutionAction.MARK_DUPLICATE => payload_mark_duplicate cand
      | ResolutionAction.MARK_STATEMENT_ONLY => payload_mark_statement_only cand
      | ResolutionAction.CREATE_MISSING_APP_TRANSACTION => payload_create_missing_app cand
      | ResolutionAction.ADJUST_APP_TRANSACTION => payload_adjust_app cand
      | ResolutionAction.IGNORE => payload_ignore i
      | ResolutionAction.NEEDS_MORE_INFO => payload_needs_more_info i
      end
  end.

Definition build_audit_evidence_instruction (i : ApplyInstruction) (now_iso : string) : json :=
  match ai_item i with
  | None =>
      JDict [("apply_runtime_version", JStr "v1");
             ("resolution_action", JStr (ResolutionAction.value (ai_action i)));
             ("instruction_id", JStr (ai_instruction_id i));
             ("error", JStr "no review queue item associated with instruction")]
  | Some item =>
      let cand := qi_candidate item in
      let stmt := rc_statement cand in
      JDict ([("apply_runtime_version", JStr "v1");
              ("instruction_id", JStr (ai_instruction_id i));
              ("resolution_action", JStr (ResolutionAction.value (ai_action i)));
              ("issue_type", JStr (IssueType.value (qi_issue_type item)));
              ("reviewer", JStr (ai_reviewer i));
              ("note", JStr (ai_note i));
              ("applied_timestamp", JStr (or_else (ai_resolved_at i) now_iso));
              ("queue_item_id", JStr (qi_queue_item_id item));
              ("decision_id", JStr (ai_decision_id i));
              ("candidate_id", JStr (rc_candidate_id cand));
              ("confidence_score", JStr (dec_str (rc_confidence_score cand)));
              ("reason_codes", reason_values (rc_reason_codes cand));
              ("evidence_summary", JStr (qi_evidence_summary item));
              ("evidence_refs", JList (JStr <$> ai_evidence_refs i));
              ("statement_merchant", JStr (st_merchant_raw stmt));
              ("statement_amount", opt_json (λ d, JStr (dec_str d)) (st_amount stmt));
              ("statement_currency", jopt (st_currency stmt))] ++
             member "statement_txn_date" ((λ d, JStr (date_isoformat d)) <$> st_transaction_date stmt) ++
             member "statement_posted_date" ((λ d, JStr (date_isoformat d)) <$> st_posted_date stmt) ++
             app_members (rc_best_app_transaction cand))
  end.

Definition fingerprint_material (i : ApplyInstruction) (payload : json) : json :=
  JDict [("decision_id", JStr (ai_decision_id i)); ("queue_item_id", JStr (ai_queue_item_id i));
         ("action", JStr (ResolutionAction.value (ai_action i))); ("note", JStr (ai_note i));
         ("reviewer", JStr (ai_reviewer i)); ("candidate_id", JStr (ai_candidate_id i)); ("payload", payload)].

Definition build_fingerprint_instruction (i : ApplyInstruction) (payload : json) : string :=
  hexdigest (sha256 (encode (canonical (fingerprint_material i payload)))).

(** ** The runtime *)

Record AppliedEntry := MkEntry {
  ae_queue_item_id : string;
  ae_action : ResolutionAction.t;
  ae_fingerprint : string;
  ae_applied_at : string;
  ae_audit_evidence : json;
}.

(** The registry: the applied decisions, and the decision of each item. *)
Record ResolutionApplyRuntime := MkRuntime {
  rt_applied : pydict AppliedEntry;
  rt_item_to_decision : pydict string;
}.

Definition new_runtime : ResolutionApplyRuntime := MkRuntime [] [].
Definition reset (rt : ResolutionApplyRuntime) : ResolutionApplyRuntime := new_runtime.
Definition is_applied (rt : ResolutionApplyRuntime) (queue_item_id : string) : bool :=
  dict_mem queue_item_id (rt_item_to_decision rt).
Definition get_applied_decision_id (rt : ResolutionApplyRuntime) (queue_item_id : string) : option string :=
  dict_get queue_item_id (rt_item_to_decision rt).

Definition apply_result (i : ApplyInstruction) (payload audit_evidence : json) (applied_at : string)
    (idempotent : bool) : ResolutionApplyResult :=
  MkApplyResult ("apply-" +:+ ai_decision_id i) (ai_decision_id i) (ai_queue_item_id i) (ai_candidate_id i)
    (ai_action i) true payload None audit_evidence applied_at (ai_reviewer i) (ai_note i)
    (ai_statement_ref i) (ai_app_transaction_ref i) idempotent.

Definition check_idempotency_instruction (rt : ResolutionApplyRuntime) (i : ApplyInstruction) :
    result (option ResolutionApplyResult) :=
  match dict_get (ai_decision_id i) (rt_applied rt) with
  | None => Ok None
  | Some prev =>
      raise_when (negb (String.eqb (ae_queue_item_id prev) (ai_queue_item_id i))) ApplyConflictError
        ("Decision '" +:+ ai_decision_id i +:+ "' was already applied to queue item '" +:+
         ae_queue_item_id prev +:+ "', cannot apply to '" +:+ ai_queue_item_id i +:+ "'");;
      let payload := build_payload_instruction i in
      raise_when (negb (bool_decide (ae_action prev = ai_action i))) ApplyConflictError
        ("Decision '" +:+ ai_decision_id i +:+ "' was applied with action '" +:+
         ResolutionAction.value (ae_action prev) +:+ "', cannot re-apply with '" +:+
         ResolutionAction.value (ai_action i) +:+ "'");;
      raise_when (negb (String.eqb (ae_fingerprint prev) (build_fingerprint_instruction i payload)))
        ApplyConflictError
        ("Decision '" +:+ ai_decision_id i +:+ "' payload/evidence changed since first application");;
      Ok (Some (apply_result i payload (ae_audit_evidence prev) (ae_applied_at prev) true))
  end.

Definition check_conflict_instruction (rt : ResolutionApplyRuntime) (i : ApplyInstruction) : result unit :=
  match dict_get (ai_queue_item_id i) (rt_item_to_decision rt) with
  | None => Ok tt
  | Some existing =>
      if String.eqb existing (ai_decision_id i) then Ok tt
      else
        entry ← dict_index existing (rt_applied rt);
        raise ApplyConflictError
          ("Queue item '" +:+ ai_queue_item_id i +:+ "' was already resolved by decision '" +:+ existing +:+
           "' (action='" +:+ ResolutionAction.value (ae_action entry) +:+ "'). Cannot apply decision '" +:+
           ai_decision_id i +:+ "' (action='" +:+ ResolutionAction.value (ai_action i) +:+ "')")
  end.

(** [apply_instruction], when the clock shows [now_iso]. *)
Definition apply_instruction (rt : ResolutionApplyRuntime) (i : ApplyInstruction) (now_iso : string) :
    result (ResolutionApplyResult * ResolutionApplyRuntime) :=
  validate_instruction i;;
  idem_result ← check_idempotency_instruction rt i;
  match idem_result with
  | Some r => Ok (r, rt)
  | None =>
      check_conflict_instruction rt i;;
      let payload := build_payload_instruction i in
      let audit_evidence := build_audit_evidence_instruction i now_iso in
      let fingerprint := build_fingerprint_instruction i payload in
      Ok (apply_result i payload audit_evidence now_iso false,
          MkRuntime
            (dict_set (ai_decision_id i)
               (MkEntry (ai_queue_item_id i) (ai_action i) fingerprint now_iso audit_evidence) (rt_applied rt))
            (dict_set (ai_queue_item_id i) (ai_decision_id i) (rt_item_to_decision rt)))
  end.

(** The result that reports a rejected decision. *)
Definition validation_failure (item : ReviewQueueItem) (decision : ResolutionDecision) (queue_item_id : string)
    (evidence_refs : list string) (require_evidence_ref : bool) (message now_iso : string) :
    ResolutionApplyResult :=
  let cand := qi_candidate item in
  MkApplyResult ("apply-" +:+ rd_decision_id decision) (rd_decision_id decision) queue_item_id
    (rc_candidate_id cand) (rd_action decision) false (JDict []) (Some message)
    (JDict [("validation_error", JStr message);
            ("action", JStr (ResolutionAction.value (rd_action decision)));
            ("issue_type", JStr (IssueType.value (qi_issue_type item)));
            ("queue_item_id", JStr (qi_queue_item_id item));
            ("decision_id", JStr (rd_decision_id decision));
            ("candidate_id", JStr (rc_candidate_id cand));
            ("evidence_refs", JList (JStr <$> evidence_refs));
            ("require_evidence_ref", JBool require_evidence_ref)])
    now_iso (rd_reviewer decision) (rd_note decision) None None false.

(** The method [apply]: only building the instruction is guarded. *)
Definition apply (rt : ResolutionApplyRuntime) (item : ReviewQueueItem) (decision : ResolutionDecision)
    (evidence_refs : list string) (require_evidence_ref : bool) (now_iso : string) :
    result (ResolutionApplyResult * ResolutionApplyRuntime) :=
  match build_apply_instruction item decision evidence_refs require_evidence_ref with
  | Ok instruction => apply_instruction rt instruction now_iso
  | Raise e =>
      if exn_isinstance (exn_cls e) ApplyInstructionError
      then Ok (validation_failure item decision (rd_queue_item_id decision) evidence_refs require_evidence_ref
                 (exn_site e) now_iso, rt)
      else Raise e
  end.

(** ** Applying a batch *)

Definition resolve_evidence_refs (queue_item_id : string) (refs : option (pydict (list string))) : list string :=
  match refs with None => [] | Some refs => default [] (dict_get queue_item_id refs) end.

Definition check_decision_targets (items : list ReviewQueueItem) (decisions : list ResolutionDecision) :
    result unit :=
  forM_ decisions (λ d, raise_when (negb (str_in (rd_queue_item_id d) (qi_queue_item_id <$> items)))
    ApplyConflictError
    ("Decision '" +:+ rd_decision_id d +:+ "' targets queue_item_id '" +:+ rd_queue_item_id d +:+
     "' which is not present in the items list. Every decision must reference a valid item.")).

Definition check_duplicate_targets (decisions : list ResolutionDecision) : result (pydict string) :=
  foldM (λ seen d,
    match dict_get (rd_queue_item_id d) seen with
    | Some existing => raise ApplyConflictError
        ("Duplicate decisions for queue_item_id '" +:+ rd_queue_item_id d +:+ "': decisions '" +:+ existing +:+
         "' and '" +:+ rd_decision_id d +:+ "' both target the same queue item.")
    | None => Ok (dict_set (rd_queue_item_id d) (rd_decision_id d) seen)
    end) [] decisions.

Definition validate_apply_decisions_batch (items : list ReviewQueueItem) (decisions : list ResolutionDecision) :
    result unit :=
  check_decision_targets items decisions;;
  check_duplicate_targets decisions;;
  Ok tt.

Section ApplyDecisions.
Variable evidence_refs_by_queue_item : option (pydict (list string)).
Variable require_evidence_ref : bool.
(** The times the clock shows, one per decided item. *)
Variable clock : nat → string.
Variable decision_map : pydict ResolutionDecision.

(** One item: built and applied inside the guard, so a rejected instruction
    becomes a result and only conflicts escape. *)
Definition apply_item (rt : ResolutionApplyRuntime) (item : ReviewQueueItem) (decision : ResolutionDecision)
    (now_iso : string) : result (ResolutionApplyResult * ResolutionApplyRuntime) :=
  let evidence_refs := resolve_evidence_refs (qi_queue_item_id item) evidence_refs_by_queue_item in
  match (instruction ← build_apply_instruction item decision evidence_refs require_evidence_ref;
         apply_instruction rt instruction now_iso) with
  | Ok out => Ok out
  | Raise e =>
      if exn_isinstance (exn_cls e) ApplyInstructionError
      then Ok (validation_failure item decision (qi_queue_item_id item) evidence_refs require_evidence_ref
                 (exn_site e) now_iso, rt)
      else Raise e
  end.

Definition apply_step (st : list ResolutionApplyResult * ResolutionApplyRuntime) (item : ReviewQueueItem) :
    result (list ResolutionApplyResult * ResolutionApplyRuntime) :=
  match dict_get (qi_queue_item_id item) decision_map with
  | None => Ok st
  | Some decision =>
      out ← apply_item st.2 item decision (clock (length st.1));
      Ok (st.1 ++ [out.1], out.2)
  end.
End ApplyDecisions.

(** [{d.queue_item_id: d for d in decisions}]. *)
Definition decision_map (decisions : list ResolutionDecision) : pydict ResolutionDecision :=
  foldl (λ m d, dict_set (rd_queue_item_id d) d m) [] decisions.

Definition apply_decisions (items : list ReviewQueueItem) (decisions : list ResolutionDecision)
    (evidence_refs_by_queue_item : option (pydict (list string))) (require_evidence_ref : bool)
    (clock : nat → string) : result (list ResolutionApplyResult) :=
  validate_apply_decisions_batch items decisions;;
  out ← foldM (apply_step evidence_refs_by_queue_item require_evidence_ref clock (decision_map decisions))
          ([], new_runtime) items;
  Ok out.1.
