(* ===== verification/Resolution.v ===== *)
(** * Resolving review items

    reconciliation/resolution.py: the stateless runtime that turns one
    reviewer's decision on one queue item into a result, successful or not,
    with the evidence that backs it.  The clock is an argument; the messages
    are kept, since results carry them. *)

From Stdlib Require Import Ascii ZArith SpecFloat Lia.
From stdpp Require Import base sets strings sorting numbers list.
From S2P Require Import Prelude PyDecimal PyValue Hash Json PyDate PyDateTime ReconModels ReconBatch ReviewModels ReviewQueue ApplyRuntime.

Open Scope Z_scope.

Record ResolutionResult := MkResolutionResult {
  rr_result_id : string;
  rr_decision : ResolutionDecision;
  rr_queue_item : ReviewQueueItem;
  rr_success : bool;
  rr_audit_evidence : json;
  rr_error_message : option string;
}.

Definition make_result_id (item : ReviewQueueItem) (decision : ResolutionDecision) : string :=
  "res-" +:+ rd_decision_id decision.

(** The checks on a decision before it may succeed; a note is a text. *)
Definition check_resolution_metadata (decision : ResolutionDecision) : result unit :=
  require_nonempty (rd_decision_id decision) "decision_id";;
  require_nonempty (rd_queue_item_id decision) "queue_item_id";;
  require_nonempty (rd_reviewer decision) "reviewer";;
  require_resolved_at (rd_resolved_at decision).

(** The evidence of a successful resolution, when the clock shows [now_iso]. *)
Definition resolution_evidence (item : ReviewQueueItem) (decision : ResolutionDecision) (now_iso : string) :
    list (string * json) :=
  let cand := qi_candidate item in
  let stmt := rc_statement cand in
  [("resolution_action", JStr (ResolutionAction.value (rd_action decision)));
   ("issue_type", JStr (IssueType.value (qi_issue_type item)));
   ("resolved_at", JStr (or_else (rd_resolved_at decision) now_iso));
   ("reviewer", JStr (rd_reviewer decision));
   ("note", JStr (rd_note decision));
   ("queue_item_id", JStr (qi_queue_item_id item));
   ("candidate_id", JStr (rc_candidate_id cand));
   ("confidence_score", JStr (dec_str (rc_confidence_score cand)));
   ("reason_codes", reason_values (qi_reason_codes item));
   ("evidence_summary", JStr (qi_evidence_summary item));
   ("statement_merchant", JStr (st_merchant_raw stmt));
   ("statement_amount", opt_json (λ d, JStr (dec_str d)) (st_amount stmt));
   ("statement_currency", jopt (st_currency stmt))] ++
  member "statement_txn_date" ((λ d, JStr (date_isoformat d)) <$> st_transaction_date stmt) ++
  member "statement_posted_date" ((λ d, JStr (date_isoformat d)) <$> st_posted_date stmt) ++
  app_members (rc_best_app_transaction cand).

Definition resolve (item : ReviewQueueItem) (decision : ResolutionDecision) (now_iso : string) :
    ResolutionResult :=
  let outcome success evidence error :=
    MkResolutionResult (make_result_id item decision) decision item success (JDict evidence) error in
  if negb (String.eqb (rd_queue_item_id decision) (qi_queue_item_id item)) then
    outcome false
      [("validation_error", JStr ("Decision queue_item_id '" +:+ rd_queue_item_id decision +:+
          "' does not match item queue_item_id '" +:+ qi_queue_item_id item +:+ "'"))]
      (Some "queue_item_id mismatch")
  else
    let '(is_compat, error) := validate_resolution_decision (rd_action decision) (qi_issue_type item) in
    if negb is_compat then
      outcome false
        [("validation_error", JStr (or_else error "incompatible resolution action"));
         ("action", JStr (ResolutionAction.value (rd_action decision)));
         ("issue_type", JStr (IssueType.value (qi_issue_type item)))]
        error
    else
      match check_resolution_metadata decision with
      | Raise e => outcome false [("validation_error", JStr (exn_site e))] (Some (exn_site e))
      | Ok _ => outcome true (resolution_evidence item decision now_iso) None
      end.

(** [resolve_item] of the default runtime. *)
Definition resolve_item (item : ReviewQueueItem) (decision : ResolutionDecision) (now_iso : string) :
    ResolutionResult := resolve item decision now_iso.

(** The clock is read once per successful resolution. *)
Fixpoint resolve_each (m : pydict ResolutionDecision) (items : list ReviewQueueItem) (clock : list string) :
    list ResolutionResult :=
  match items with
  | [] => []
  | item :: items =>
      match dict_get (qi_queue_item_id item) m with
      | None => resolve_each m items clock
      | Some decision =>
          let r := resolve_item item decision (hd "" clock) in
          r :: resolve_each m items (if rr_success r then tl clock else clock)
      end
  end.

Definition resolve_batch (items : list ReviewQueueItem) (decisions : list ResolutionDecision)
    (clock : list string) : list ResolutionResult :=
  resolve_each (decision_map decisions) items clock.
