(* ===== verification/SourceBinding.v ===== *)
(** * The source identity of a review queue item

    reconciliation/source_binding.py: the binding that freezes a queue item
    with a digest when it is first registered, and the reader that accepts a
    stored row only if everything in it agrees with the frozen item.  The row
    is a record of its columns; [load_bound_row] is what remains of
    [load_bound_queue], in the file ReviewPersistence, once the row is selected.  Every refusal is a
    [ValueError]. *)

From Stdlib Require Import Ascii ZArith SpecFloat Lia.
From stdpp Require Import base sets strings sorting numbers list.
From S2P Require Import Prelude PyDecimal PyValue Hash Json JsonParse PyDate PyFloat ReconModels ReconDecision ReconMatcher ReconBatch ReviewModels ReviewQueue ApplyRuntime BoundCodec Snapshot.

Open Scope Z_scope.

(** [_json]. *)
Definition binding_json (v : json) : result string := json_dumps v.

(** [_strict_json]: no duplicate keys and no constants.  A number that
    overflows to an infinity is refused here, and not when it is compared. *)
Fixpoint strict_value (v : json) : bool :=
  match v with
  | JNum t => negb (bool_decide (t ∈ [chars "NaN"; chars "Infinity"; chars "-Infinity"]))
  | JList l => forallb strict_value l
  | JDict d => bool_decide (NoDup (dict_keys d)) && forallb (λ kv, strict_value kv.2) d
  | _ => true
  end.

Definition strict_json (raw : string) : result json :=
  let l := chars raw in
  match parse_value (S (2 * length l)) (skip_space l) with
  | Parsed v r =>
      match skip_space r with
      | [] => if strict_value v then Ok v else bad "bound queue JSON is invalid"
      | _ => bad "bound queue JSON is invalid"
      end
  | _ => bad "bound queue JSON is invalid"
  end.

(** ** The contract of an item *)

Definition decimal_eqb (a b : decimal) : bool :=
  match a, b with
  | DFin a, DFin b => dec_eqb a b
  | DInf s, DInf t => Bool.eqb s t
  | _, _ => false
  end.

Definition opt_eqb {A} (eqb : A → A → bool) (a b : option A) : bool :=
  match a, b with Some a, Some b => eqb a b | None, None => true | _, _ => false end.

(** [recorded is not None and recorded != source]. *)
Definition conflicts {A} (eqb : A → A → bool) (recorded source : option A) : bool :=
  match recorded with Some _ => negb (opt_eqb eqb recorded source) | None => false end.

Definition date_eqb (a b : date) : bool := bool_decide (a = b).

Definition evidence_conflicts_statement (e : MatchEvidence) (s : StatementTransaction) : bool :=
  conflicts dec_eqb (ev_statement_amount e) (st_amount s) ||
  conflicts String.eqb (ev_statement_currency e) (st_currency s) ||
  conflicts date_eqb (ev_statement_txn_date e) (st_transaction_date s) ||
  conflicts date_eqb (ev_statement_posted_date e) (st_posted_date s) ||
  conflicts String.eqb (ev_statement_merchant e) (Some (st_merchant_raw s)) ||
  conflicts String.eqb (ev_statement_direction e) (StatementAmountDirection.value <$> st_amount_direction s) ||
  conflicts String.eqb (ev_original_amount_text e) (st_raw_amount s).

Definition evidence_conflicts_app (e : MatchEvidence) (a : AppTransaction) : bool :=
  conflicts decimal_eqb (DFin <$> ev_candidate_amount e) (Some (app_amount a)) ||
  conflicts String.eqb (ev_candidate_currency e) (Some (app_currency a)) ||
  conflicts date_eqb (ev_candidate_txn_date e) (Some (app_transaction_date a)) ||
  conflicts String.eqb (ev_candidate_merchant e) (Some (app_merchant a)).

Definition evidence_conflicts (c : ReconciliationCandidate) : bool :=
  match rc_evidence c with
  | None => false
  | Some e =>
      evidence_conflicts_statement e (rc_statement c) ||
      match rc_best_app_transaction c with Some a => evidence_conflicts_app e a | None => false end
  end.

(** [==] of two pieces of structured evidence. *)
Definition review_evidence_eqb (a b : ReconciliationReviewEvidence) : bool :=
  opt_eqb String.eqb (re_statement_reference a) (re_statement_reference b) &&
  opt_eqb date_eqb (re_statement_transaction_date a) (re_statement_transaction_date b) &&
  opt_eqb date_eqb (re_statement_posted_date a) (re_statement_posted_date b) &&
  opt_eqb String.eqb (re_statement_merchant a) (re_statement_merchant b) &&
  opt_eqb dec_eqb (re_statement_amount a) (re_statement_amount b) &&
  opt_eqb String.eqb (re_statement_currency a) (re_statement_currency b) &&
  opt_eqb String.eqb (re_app_transaction_id a) (re_app_transaction_id b) &&
  opt_eqb date_eqb (re_app_transaction_date a) (re_app_transaction_date b) &&
  opt_eqb String.eqb (re_app_merchant a) (re_app_merchant b) &&
  opt_eqb decimal_eqb (re_app_amount a) (re_app_amount b) &&
  opt_eqb String.eqb (re_app_currency a) (re_app_currency b) &&
  opt_eqb decimal_eqb (re_amount_delta a) (re_amount_delta b) &&
  opt_eqb Z.eqb (re_date_delta_days a) (re_date_delta_days b) &&
  opt_eqb SFeqb (re_merchant_similarity a) (re_merchant_similarity b) &&
  (re_candidate_count a =? re_candidate_count b) &&
  bool_decide (re_reason_codes a = re_reason_codes b) &&
  bool_decide (re_issue_type a = re_issue_type b) &&
  bool_decide (re_review_priority a = re_review_priority b) &&
  bool_decide (re_suggested_action a = re_suggested_action b) &&
  dec_eqb (re_confidence_score a) (re_confidence_score b).

(** [MatchEvidence()] and [MatchResult(status, reasons)]. *)
Definition default_evidence : MatchEvidence :=
  MkEvidence None None None None None None None None 3 None None None None None 0 None None None None None [].
Definition bare_result (status : MatchStatus.t) (reasons : list ReasonCode.t) : MatchResult :=
  MkResult status reasons default_evidence None None [] None None None None None None None None.

Definition dec_one : fdec := dec_of_Z 1.

(** The classification of the item is the one its matcher status implies. *)
Definition classification_ok (item : ReviewQueueItem) : bool :=
  let c := qi_candidate item in
  if bool_decide (qi_issue_type item = IssueType.MISSING_IN_STATEMENT)
  then bool_decide (rc_match_status c = MatchStatus.NO_MATCH) &&
       match rc_best_app_transaction c with Some _ => true | None => false end
  else bool_decide (qi_issue_type item = result_to_issue_type (bare_result (rc_match_status c) (rc_reason_codes c))).

(** The comparison with the item the generator makes of the candidate. *)
Definition check_generated (item : ReviewQueueItem) : result unit :=
  generated ← generate_review_queue [qi_candidate item] "";
  match generated.1 with
  | [] => raise IndexError "generated[0]"
  | expected :: _ =>
      raise_when (negb (String.eqb (qi_evidence_summary item) (qi_evidence_summary expected)))
        ValueError "summary conflicts with matcher evidence";;
      raise_when (negb (opt_eqb review_evidence_eqb (qi_structured_evidence item)
                          (qi_structured_evidence expected)))
        ValueError "structured evidence conflicts with matcher evidence"
  end.

Definition validate_item_contract (item : ReviewQueueItem) : result unit :=
  let c := qi_candidate item in
  let issue := qi_issue_type item in
  raise_when (negb (bool_decide (issue = rc_issue_type c))) ValueError "candidate issue";;
  raise_when (negb (bool_decide (qi_reason_codes item = rc_reason_codes c))) ValueError "candidate reasons";;
  raise_when (negb (bool_decide (qi_suggested_action item = suggested_action_for_issue issue)))
    ValueError "suggested action";;
  raise_when (negb (qi_priority item =? priority_for_issue issue)) ValueError "priority";;
  raise_when (negb (bool_decide (rc_review_priority c = review_priority_for_issue issue)))
    ValueError "candidate review priority";;
  raise_when (negb (Bool.eqb (rc_is_review_required c) (negb (bool_decide (issue = IssueType.MATCHED)))))
    ValueError "review-required flag";;
  raise_when (negb (dec_leb dec_zero (rc_confidence_score c) && dec_leb (rc_confidence_score c) dec_one))
    ValueError "confidence is out of range";;
  raise_when (negb (classification_ok item)) ValueError "classification";;
  raise_when (evidence_conflicts c) ValueError "match evidence";;
  check_generated item.

(** ** The material of a binding *)

(** [_app_snapshot]. *)
Definition app_snapshot_json (a : AppTransaction) : json :=
  JDict [("app_txn_id", JStr (app_txn_id a)); ("transaction_date", JStr (date_isoformat (app_transaction_date a)));
         ("merchant", JStr (app_merchant a)); ("amount", JStr (decimal_str (app_amount a)));
         ("currency", JStr (app_currency a)); ("source_type", jopt (app_source_type a));
         ("source_channel", jopt (app_source_channel a));
         ("normalized_merchant", jopt (app_normalized_merchant a)); ("posted_date", jdate (app_posted_date a));
         ("transaction_type", match app_transaction_type a with
                              | Some (HintType t) => JStr (ReconciliationTransactionType.value t)
                              | Some (HintText s) => JStr s
                              | None => JNull
                              end)].

(** The fields of a snapshot, which only holds texts and nulls. *)
Definition required_text (d : list (string * json)) (k : string) : result string :=
  match dict_get k d with
  | Some (JStr s) => if str_empty s then bad k else Ok s
  | _ => bad k
  end.
Definition optional_text (d : list (string * json)) (k : string) : result (option string) :=
  match dict_get k d with
  | Some (JStr s) => Ok (Some s)
  | Some JNull => Ok None
  | _ => bad k
  end.
Definition some_or_bad {A} (o : option A) : result A :=
  match o with Some a => Ok a | None => bad "invalid date or amount" end.

(** [_restore_app]. *)
Definition restore_app (raw : json) : result AppTransaction :=
  d ← snapshot_members app_field_names raw;
  id ← required_text d "app_txn_id";
  transaction_date ← required_text d "transaction_date";
  merchant ← required_text d "merchant";
  amount ← required_text d "amount";
  currency ← required_text d "currency";
  raise_when (str_empty (py_strip id)) ValueError "app identity is empty";;
  source_type ← optional_text d "source_type";
  source_channel ← optional_text d "source_channel";
  normalized_merchant ← optional_text d "normalized_merchant";
  transaction_type ← optional_text d "transaction_type";
  posted_date ← optional_text d "posted_date";
  txn_date ← some_or_bad (date_fromisoformat transaction_date);
  posted ← match posted_date with
           | Some p => if str_empty p then Ok None else Some <$> some_or_bad (date_fromisoformat p)
           | None => Ok None
           end;
  value ← some_or_bad (decimal_of_string amount);
  raise_when (negb (String.eqb (date_isoformat txn_date) transaction_date) ||
              match posted with
              | Some p => negb (opt_eqb String.eqb (Some (date_isoformat p)) posted_date)
              | None => false
              end ||
              match value with DFin v => dec_leb v dec_zero | _ => true end)
    ValueError "invalid date or amount";;
  AppTransaction_new id txn_date merchant value currency source_type source_channel normalized_merchant posted
    (HintText <$> transaction_type).

Definition statement_ref (item : ReviewQueueItem) : string :=
  let s := rc_statement (qi_candidate item) in or_text (st_statement_row_reference s) (st_merchant_raw s).
Definition app_ref (item : ReviewQueueItem) : option string :=
  app_txn_id <$> rc_best_app_transaction (qi_candidate item).

(** The checks on the candidate set of an item. *)
Definition check_candidate_set (item : ReviewQueueItem) : result unit :=
  let c := qi_candidate item in
  let apps := rc_all_app_transactions c in
  let best := rc_best_app_transaction c in
  raise_when (negb (bool_decide (apps = [])) && match best with None => true | Some _ => false end)
    ValueError "canonical app is missing from candidate set";;
  restored ← mapM (λ a, restore_app (app_snapshot_json a)) apps;
  raise_when (has_duplicates (app_txn_id <$> restored)) ValueError "app IDs must be unique";;
  match best with
  | None => Ok tt
  | Some best =>
      raise_when (negb (existsb (λ a, json_eqb (app_snapshot_json a) (app_snapshot_json best)) restored))
        ValueError "canonical app is absent from matcher output"
  end.

(** [_source_material]. *)
Definition source_material (item : ReviewQueueItem) : result (list (string * json)) :=
  let c := qi_candidate item in
  validate_item_contract item;;
  raise_when (str_empty (py_strip (qi_queue_item_id item)) || str_empty (py_strip (rc_candidate_id c)))
    ValueError "identity is empty";;
  raise_when (str_empty (py_strip (statement_ref item))) ValueError "statement identity is empty";;
  check_candidate_set item;;
  decision_source ← encode_item item;
  let snapshots := app_snapshot_json <$> rc_all_app_transactions c in
  Ok [("version", JInt 2); ("queue_item_id", JStr (qi_queue_item_id item));
      ("candidate_id", JStr (rc_candidate_id c)); ("issue_type", JStr (IssueType.value (qi_issue_type item)));
      ("statement_transaction_ref", JStr (statement_ref item)); ("app_transaction_ref", jopt (app_ref item));
      ("app_transaction_count", JInt (Z.of_nat (length snapshots))); ("app_transactions", JList snapshots);
      ("decision_source", decision_source)].

Definition text_sha256 (s : string) : string := hexdigest (sha256 (Hash.encode s)).

(** [build_source_binding]. *)
Definition build_source_binding (item : ReviewQueueItem) : result (list (string * json)) :=
  material ← source_material item;
  text ← binding_json (JDict material);
  Ok (material ++ [("sha256", JStr (text_sha256 text))]).

(** [_outer_source_evidence]. *)
Definition outer_source_evidence (item : ReviewQueueItem) : list (string * json) :=
  let c := qi_candidate item in
  let s := rc_statement c in
  [("candidate_id", JStr (rc_candidate_id c)); ("match_status", JStr (MatchStatus.value (rc_match_status c)));
   ("issue_type", JStr (IssueType.value (rc_issue_type c)));
   ("confidence_score", JStr (dec_str (rc_confidence_score c)));
   ("statement_merchant", JStr (st_merchant_raw s));
   ("statement_amount", opt_json (λ d, JStr (dec_str d)) (st_amount s));
   ("statement_currency", jopt (st_currency s))] ++
  member "statement_txn_date" ((λ d, JStr (date_isoformat d)) <$> st_transaction_date s) ++
  member "statement_posted_date" ((λ d, JStr (date_isoformat d)) <$> st_posted_date s) ++
  app_members (rc_best_app_transaction c) ++
  [("all_app_transactions", JList (app_snapshot_json <$> rc_all_app_transactions c))].

(** ** Reading a stored row *)

(** The columns of reconciliation_review_queue the reader selects. *)
Record QueueRow := MkRow {
  row_public_id : string;
  row_candidate_id : string;
  row_issue_type : string;
  row_suggested_action : string;
  row_priority : Z;
  row_statement_transaction_ref : option string;
  row_app_transaction_ref : option string;
  row_confidence_score : string;
  row_reason_codes_json : string;
  row_evidence_json : string;
}.

Record BoundQueue := MkBound {
  bq_queue_item_id : string;
  bq_candidate_id : string;
  bq_issue_type : IssueType.t;
  bq_statement_transaction_ref : option string;
  bq_app_transaction_ref : option string;
  bq_app_transactions : list AppTransaction;
  bq_sha256 : string;
  bq_item : ReviewQueueItem;
}.

Definition binding_keys : list string :=
  ["version"; "queue_item_id"; "candidate_id"; "issue_type"; "statement_transaction_ref"; "app_transaction_ref";
   "app_transaction_count"; "app_transactions"; "decision_source"; "sha256"].

(** [{k: v for k, v in d.items() if k != key}]. *)
Definition without (key : string) (d : list (string * json)) : list (string * json) :=
  keep (λ kv : string * json, negb (String.eqb kv.1 key)) d.

(** The binding inside the evidence of a row, with its digest checked. *)
Definition stored_binding (evidence : list (string * json)) : result (list (string * json)) :=
  raw ← match dict_get "source_binding" evidence with
        | Some (JDict d) => Ok d
        | _ => bad "source binding is missing or invalid"
        end;
  raw ← snapshot_members binding_keys (JDict raw);
  raise_when (negb match dict_get "version" raw with Some (JInt n) => n =? 2 | _ => false end)
    ValueError "source binding is missing or invalid";;
  digest ← match dict_get "sha256" raw with Some (JStr s) => Ok s | _ => bad "digest is invalid" end;
  raise_when (negb (is_sha256 digest)) ValueError "digest is invalid";;
  text ← binding_json (JDict (without "sha256" raw));
  raise_when (negb (String.eqb digest (text_sha256 text))) ValueError "digest mismatch";;
  Ok raw.

(** [_restore_decision_source]. *)
Definition restore_decision_source (raw : json) : result ReviewQueueItem :=
  item ← decode_item raw; validate_item_contract item;; Ok item.

(** The columns of the row repeat the frozen item. *)
Definition row_matches (row : QueueRow) (item : ReviewQueueItem) (codes : json) : bool :=
  let c := qi_candidate item in
  String.eqb (row_public_id row) (qi_queue_item_id item) &&
  String.eqb (row_candidate_id row) (rc_candidate_id c) &&
  String.eqb (row_issue_type row) (IssueType.value (qi_issue_type item)) &&
  String.eqb (row_suggested_action row) (SuggestedAction.value (qi_suggested_action item)) &&
  (row_priority row =? qi_priority item) &&
  bool_decide (row_statement_transaction_ref row = Some (statement_ref item)) &&
  bool_decide (row_app_transaction_ref row = app_ref item) &&
  String.eqb (row_confidence_score row) (dec_str (rc_confidence_score c)) &&
  json_eqb codes (reason_values (qi_reason_codes item)).

(** [_load_bound_row]. *)
Definition load_bound_row (row : QueueRow) : result BoundQueue :=
  parsed ← strict_json (row_evidence_json row);
  evidence ← match parsed with JDict d => Ok d | _ => bad "evidence is invalid" end;
  raw ← stored_binding evidence;
  decision_source ← dict_index "decision_source" raw;
  item ← restore_decision_source decision_source;
  material ← source_material item;
  raise_when (negb (json_eqb (JDict (without "sha256" raw)) (JDict material)))
    ValueError "source material conflicts with snapshot";;
  codes ← strict_json (row_reason_codes_json row);
  raise_when (negb (row_matches row item codes)) ValueError "canonical row conflicts with source snapshot";;
  raise_when (negb (json_eqb (JDict (without "source_binding" evidence)) (JDict (outer_source_evidence item))))
    ValueError "evidence conflicts with source snapshot";;
  digest ← decode_field raw "sha256";
  Ok (MkBound (qi_queue_item_id item) (rc_candidate_id (qi_candidate item)) (qi_issue_type item)
        (Some (statement_ref item)) (app_ref item) (rc_all_app_transactions (qi_candidate item)) digest item).

(** [bound_source_audit_projection]. *)
Definition bound_source_audit_projection (bound : BoundQueue) : list (string * json) :=
  let item := bq_item bound in
  let c := qi_candidate item in
  let s := rc_statement c in
  [("queue_item_id", JStr (qi_queue_item_id item)); ("candidate_id", JStr (rc_candidate_id c));
   ("issue_type", JStr (IssueType.value (qi_issue_type item)));
   ("confidence_score", JStr (dec_str (rc_confidence_score c)));
   ("reason_codes", reason_values (qi_reason_codes item));
   ("evidence_summary", JStr (qi_evidence_summary item)); ("statement_merchant", JStr (st_merchant_raw s));
   ("statement_amount", opt_json (λ d, JStr (dec_str d)) (st_amount s));
   ("statement_currency", jopt (st_currency s))] ++
  member "statement_txn_date" ((λ d, JStr (date_isoformat d)) <$> st_transaction_date s) ++
  member "statement_posted_date" ((λ d, JStr (date_isoformat d)) <$> st_posted_date s) ++
  app_members (rc_best_app_transaction c).

Definition assert_candidate_matches_bound (bound : BoundQueue) (item : ReviewQueueItem) : result unit :=
  proposed ← build_source_binding item;
  digest ← decode_field proposed "sha256";
  raise_when (negb (String.eqb digest (bq_sha256 bound))) ValueError "candidate differs from bound queue source".
