(* ===== verification/ReviewPersistence.v ===== *)
(** * The stored review queue

    reconciliation/review_persistence.py: registration of queue items in the
    table reconciliation_review_queue, its replay rules, and the queries.  The
    table is the list of its rows in the order of their row numbers, which is
    the order they were inserted in; the times of creation and update are left
    out.  [bound_schema] says whether migration 051 is applied; without it rows
    carry no source binding.  A savepoint makes registration all or nothing,
    so an operation returns the table only when it succeeds. *)

From Stdlib Require Import Ascii ZArith SpecFloat Lia.
From stdpp Require Import base sets strings sorting numbers list.
From S2P Require Import Prelude PyDecimal PyValue Hash Json JsonParse PyDate PyFloat ReconModels ReconDecision ReconMatcher ReconBatch ReviewModels ReviewQueue ApplyRuntime BoundCodec Snapshot SourceBinding.

Open Scope Z_scope.

(** [json.dumps(v, sort_keys=True, separators=(",", ":"), allow_nan=False)]. *)
Definition json_dumps_ascii (v : json) : result string :=
  if printable v then Ok (canonical v) else raise ValueError "json.dumps".

Definition serialize_reason_codes (item : ReviewQueueItem) : result string :=
  json_dumps_ascii (reason_values (qi_reason_codes item)).

(** An element of all_app_transactions; a transaction type that is a member
    of the enumeration, itself a [str], prints as its value. *)
Definition app_evidence (a : AppTransaction) : json :=
  JDict [("app_txn_id", JStr (app_txn_id a)); ("transaction_date", JStr (date_isoformat (app_transaction_date a)));
         ("merchant", JStr (app_merchant a)); ("amount", JStr (decimal_str (app_amount a)));
         ("currency", JStr (app_currency a)); ("source_type", jopt (app_source_type a));
         ("source_channel", jopt (app_source_channel a));
         ("normalized_merchant", jopt (app_normalized_merchant a)); ("posted_date", jdate (app_posted_date a));
         ("transaction_type", match app_transaction_type a with
                              | Some (HintType t) => JStr (ReconciliationTransactionType.value t)
                              | Some (HintText s) => JStr s
                              | None => JNull
                              end)].

Definition evidence_members (item : ReviewQueueItem) (source_binding : option (list (string * json))) :
    list (string * json) :=
  let cand := qi_candidate item in
  let stmt := rc_statement cand in
  [("candidate_id", JStr (rc_candidate_id cand)); ("match_status", JStr (MatchStatus.value (rc_match_status cand)));
   ("issue_type", JStr (IssueType.value (rc_issue_type cand)));
   ("confidence_score", JStr (dec_str (rc_confidence_score cand)));
   ("statement_merchant", JStr (st_merchant_raw stmt));
   ("statement_amount", opt_json (λ d, JStr (dec_str d)) (st_amount stmt));
   ("statement_currency", jopt (st_currency stmt))] ++
  member "statement_txn_date" ((λ d, JStr (date_isoformat d)) <$> st_transaction_date stmt) ++
  member "statement_posted_date" ((λ d, JStr (date_isoformat d)) <$> st_posted_date stmt) ++
  app_members (rc_best_app_transaction cand) ++
  [("all_app_transactions", JList (app_evidence <$> rc_all_app_transactions cand))] ++
  member "source_binding" (JDict <$> source_binding).

Definition serialize_evidence (item : ReviewQueueItem) (source_binding : option (list (string * json))) :
    result string :=
  json_dumps_ascii (JDict (evidence_members item source_binding)).

(** The row of an item, but for the run it belongs to. *)
Definition queue_row (item : ReviewQueueItem) (binding : option (list (string * json))) : result QueueRow :=
  let c := qi_candidate item in
  codes ← serialize_reason_codes item;
  evidence ← serialize_evidence item binding;
  Ok (MkRow (qi_queue_item_id item) (rc_candidate_id c) (IssueType.value (qi_issue_type item))
        (SuggestedAction.value (qi_suggested_action item)) (qi_priority item) (Some (statement_ref item))
        (app_ref item) (dec_str (rc_confidence_score c)) codes evidence).

Record StoredItem := MkStored {
  si_run_public_id : string;
  si_row : QueueRow;
  si_status : string;
}.
Notation queue_table := (list StoredItem).

#[global] Instance queue_row_eq_dec : EqDecision QueueRow.
Proof. solve_decision. Defined.

Definition get_by_public_id (table : queue_table) (public_id : string) : option StoredItem :=
  List.find (λ s, String.eqb (row_public_id (si_row s)) public_id) table.

(** [load_bound_queue]. *)
Definition load_bound_queue (bound_schema : bool) (table : queue_table) (queue_id : string) :
    result (option BoundQueue) :=
  if negb bound_schema then Ok None
  else match get_by_public_id table queue_id with
       | None => bad "bound queue row is missing"
       | Some s => Some <$> load_bound_row (si_row s)
       end.

(** The digest in the evidence of a row about to be written. *)
Definition proposed_digest (row : QueueRow) : result json :=
  v ← json_loads (row_evidence_json row);
  d ← match v with JDict d => Ok d | _ => raise TypeError "evidence" end;
  b ← dict_index "source_binding" d;
  match b with JDict b => dict_index "sha256" b | _ => raise TypeError "source_binding" end.

(** One turn of the loop over the rows. *)
Definition register_row (bound_schema : bool) (run_public_id : string) (st : queue_table * Z) (row : QueueRow) :
    result (queue_table * Z) :=
  match get_by_public_id st.1 (row_public_id row) with
  | Some existing =>
      if negb bound_schema then raise IntegrityError "review queue ID already exists"
      else
        bound ← load_bound_row (si_row existing);
        proposed ← proposed_digest row;
        raise_when (negb (json_eqb (JStr (bq_sha256 bound)) proposed) ||
                    negb (String.eqb (si_run_public_id existing) run_public_id &&
                          bool_decide (si_row existing = row)))
          ValueError "review queue replay conflicts with bound source";;
        Ok st
  | None => Ok (st.1 ++ [MkStored run_public_id row "pending"], st.2 + 1)
  end.

(** [persist_review_queue]: the new table and the number of new rows. *)
Definition persist_review_queue (bound_schema : bool) (table : queue_table) (items : list ReviewQueueItem)
    (run_public_id : string) : result (queue_table * Z) :=
  raise_when (has_duplicates (qi_queue_item_id <$> items)) ValueError "review queue IDs must be unique";;
  bindings ← mapM (λ item, if bound_schema then Some <$> build_source_binding item else Ok None) items;
  rows ← mapM (λ ib : ReviewQueueItem * option (list (string * json)), queue_row ib.1 ib.2) (zip items bindings);
  foldM (register_row bound_schema run_public_id) (table, 0) rows.

(** ** Queries *)

(** [ORDER BY priority ASC, id ASC]: the sort is stable. *)
Definition by_priority (table : queue_table) : queue_table :=
  isort (λ a b, row_priority (si_row a) <=? row_priority (si_row b)) table.

Definition list_by_status (table : queue_table) (status : string) : queue_table :=
  by_priority (keep (λ s, String.eqb (si_status s) status) table).
Definition list_pending (table : queue_table) : queue_table := list_by_status table "pending".
Definition list_by_issue_type (table : queue_table) (issue_type : string) : queue_table :=
  by_priority (keep (λ s, String.eqb (row_issue_type (si_row s)) issue_type) table).

(** The statuses the table admits. *)
Definition queue_statuses : list string := ["pending"; "resolved"; "ignored"; "needs_more_info"].

(** [update_status]; the check of the table refuses other statuses. *)
Definition update_status (table : queue_table) (public_id status : string) : result (queue_table * bool) :=
  let hit s := String.eqb (row_public_id (si_row s)) public_id in
  raise_when (existsb hit table && negb (str_in status queue_statuses)) IntegrityError "CHECK constraint";;
  Ok ((λ s, if hit s then MkStored (si_run_public_id s) (si_row s) status else s) <$> table, existsb hit table).

Definition count_all (table : queue_table) : Z := len table.
Definition count_by_status (table : queue_table) (status : string) : Z :=
  len (keep (λ s, String.eqb (si_status s) status) table).
