(* ===== verification/Integrity.v ===== *)
(** * Integrity of successful outcomes

    reconciliation/resolution_integrity.py: a successful resolution or apply
    result, and a stored row of either, may only describe the frozen queue
    item it claims.  Mappings of Python values are dictionaries of JSON
    values, which is what they hold; [d.get(k)] of a missing key is [None],
    that is null.  Every refusal is a [ValueError]. *)

From Stdlib Require Import Ascii ZArith SpecFloat Lia.
From stdpp Require Import base sets strings sorting numbers list.
From S2P Require Import Prelude PyDecimal PyValue Hash Json JsonParse PyDate PyDateTime PyFloat ReconModels ReconDecision ReconMatcher ReconBatch ReviewModels ReviewQueue ApplyRuntime Resolution BoundCodec Snapshot SourceBinding.

Open Scope Z_scope.

Definition refuse (c : bool) (site : string) : result unit := raise_when c ValueError site.

Definition get (d : list (string * json)) (k : string) : json := default JNull (dict_get k d).
(** [d.get(k) != v]. *)
Definition differs (d : list (string * json)) (k : string) (v : json) : bool := negb (json_eqb (get d k) v).
Definition text_or_null (o : option string) : json := opt_json JStr o.

(** [require_nonempty], [require_note] and [require_aware_time] of any value. *)
Definition require_text (v : json) (label : string) : result unit :=
  match v with
  | JStr s => require_nonempty s label
  | _ => raise ValueError ("successful reconciliation " +:+ label +:+ " must be a nonempty string")
  end.
Definition require_note (v : json) : result unit :=
  match v with JStr _ => Ok tt | _ => raise ValueError "successful reconciliation note must be a string" end.
Definition require_time (v : json) (label : string) : result unit :=
  match v with
  | JStr s => require_aware_time s label
  | _ => raise ValueError ("successful reconciliation " +:+ label +:+ " must be a nonempty string")
  end.

(** ** Keys *)

Definition SOURCE_AUDIT_KEYS : list string :=
  ["queue_item_id"; "candidate_id"; "issue_type"; "confidence_score"; "reason_codes"; "evidence_summary";
   "statement_merchant"; "statement_amount"; "statement_currency"; "statement_txn_date"; "statement_posted_date";
   "app_txn_id"; "app_merchant"; "app_amount"; "app_currency"; "app_txn_date"].
Definition CLASSIFICATION : list ResolutionAction.t := [ResolutionAction.CONFIRM_MATCH; ResolutionAction.MARK_DUPLICATE].
Definition RESOLUTION_ENVELOPE_KEYS : list string := ["resolution_action"; "resolved_at"; "reviewer"; "note"].
Definition RESOLUTION_PERSISTED_KEYS : list string := ["canonical_app_transaction_ref"; "payload_target_app_txn_id"].
Definition RESOLUTION_DUPLICATE_KEYS : list string := ["duplicate_app_txn_ids"; "kept_app_txn_id"; "audit_only"].
Definition APPLY_ENVELOPE_KEYS : list string :=
  ["apply_runtime_version"; "instruction_id"; "resolution_action"; "reviewer"; "note"; "applied_timestamp";
   "decision_id"; "evidence_refs"].

(** [set(l) == set(k)]. *)
Definition same_keys (l k : list string) : bool :=
  forallb (λ x, str_in x k) l && forallb (λ x, str_in x l) k.

Definition is_classification (action : ResolutionAction.t) : bool := bool_decide (action ∈ CLASSIFICATION).

(** The action is a classification its issue admits. *)
Definition classifies (action : ResolutionAction.t) (issue : IssueType.t) : bool :=
  is_classification action && (validate_resolution_decision action issue).1.

(** ** Audit evidence *)

Definition source_fields (evidence : list (string * json)) : list (string * json) :=
  omap (λ key, (λ v, (key, v)) <$> dict_get key evidence) SOURCE_AUDIT_KEYS.

Definition assert_source_audit (evidence : list (string * json)) (bound : BoundQueue) : result unit :=
  refuse (negb (json_eqb (JDict (source_fields evidence)) (JDict (bound_source_audit_projection bound))))
    "audit differs from bound queue source".

Definition assert_resolution_audit_schema (evidence : list (string * json)) (bound : BoundQueue)
    (action : ResolutionAction.t) (persisted : bool) : result unit :=
  let is_duplicate := bool_decide (action = ResolutionAction.MARK_DUPLICATE) in
  let expected := dict_keys (bound_source_audit_projection bound) ++ RESOLUTION_ENVELOPE_KEYS ++
    (if persisted then RESOLUTION_PERSISTED_KEYS ++ (if is_duplicate then RESOLUTION_DUPLICATE_KEYS else [])
     else []) in
  refuse (negb (same_keys (dict_keys evidence) expected)) "audit has unexpected or missing fields";;
  assert_source_audit evidence bound;;
  if persisted then
    let canonical := text_or_null (bq_app_transaction_ref bound) in
    refuse (differs evidence "canonical_app_transaction_ref" canonical ||
            differs evidence "payload_target_app_txn_id" canonical) "stored target differs from frozen queue";;
    if is_duplicate then
      refuse (differs evidence "duplicate_app_txn_ids" (JList ((λ a, JStr (app_txn_id a)) <$> bq_app_transactions bound)) ||
              differs evidence "kept_app_txn_id" canonical ||
              negb match get evidence "audit_only" with JBool true => true | _ => false end)
        "duplicate audit differs from frozen queue"
    else Ok tt
  else Ok tt.

Definition text_refs (v : json) : bool :=
  match v with
  | JList l => forallb (λ r, match r with JStr s => negb (str_empty (py_strip s)) | _ => false end) l
  | _ => false
  end.

Definition assert_apply_audit_schema (evidence : list (string * json)) (bound : BoundQueue) (decision_id : string) :
    result unit :=
  let expected := dict_keys (bound_source_audit_projection bound) ++ APPLY_ENVELOPE_KEYS in
  refuse (negb (same_keys (dict_keys evidence) expected)) "apply audit has unexpected or missing fields";;
  assert_source_audit evidence bound;;
  refuse (differs evidence "apply_runtime_version" (JStr "v1") ||
          differs evidence "instruction_id" (JStr ("instr-" +:+ decision_id)) ||
          negb (text_refs (get evidence "evidence_refs")))
    "apply audit producer metadata is invalid".

Definition assert_apply_payload (payload : json) (action : ResolutionAction.t) (bound : BoundQueue) : result unit :=
  let candidate := qi_candidate (bq_item bound) in
  expected ← match action with
             | ResolutionAction.CONFIRM_MATCH => Ok (payload_confirm_match candidate)
             | ResolutionAction.MARK_DUPLICATE => Ok (payload_mark_duplicate candidate)
             | _ => raise ValueError "unsupported bound apply classification"
             end;
  refuse (negb (json_eqb payload expected)) "payload differs from frozen queue source".

(** ** Results *)

(** [type(evidence) is dict]. *)
Definition evidence_dict (v : json) (site : string) : result (list (string * json)) :=
  match v with JDict d => Ok d | _ => raise ValueError site end.

(** [resolved_at is not None and evidence.get("resolved_at") != resolved_at]. *)
Definition resolved_differs (evidence : list (string * json)) (resolved_at : option string) : bool :=
  match resolved_at with Some t => differs evidence "resolved_at" (JStr t) | None => false end.

Definition assert_resolution_basic (r : ResolutionResult) : result unit :=
  let decision := rr_decision r in
  let item := rr_queue_item r in
  refuse (negb (rr_success r) || bool_decide (is_Some (rr_error_message r))) "result envelope is invalid";;
  evidence ← evidence_dict (rr_audit_evidence r) "result envelope is invalid";
  require_nonempty (rr_result_id r) "result_id";;
  require_nonempty (rd_decision_id decision) "decision_id";;
  require_nonempty (rd_queue_item_id decision) "queue_item_id";;
  require_nonempty (qi_queue_item_id item) "queue_item_id";;
  require_nonempty (rd_reviewer decision) "reviewer";;
  require_resolved_at (rd_resolved_at decision);;
  require_time (get evidence "resolved_at") "audit resolved_at";;
  refuse (negb (String.eqb (rd_queue_item_id decision) (qi_queue_item_id item)) ||
          differs evidence "queue_item_id" (JStr (rd_queue_item_id decision)) ||
          differs evidence "candidate_id" (JStr (rc_candidate_id (qi_candidate item))) ||
          differs evidence "resolution_action" (JStr (ResolutionAction.value (rd_action decision))) ||
          differs evidence "issue_type" (JStr (IssueType.value (qi_issue_type item))) ||
          differs evidence "reviewer" (JStr (rd_reviewer decision)) ||
          differs evidence "note" (JStr (rd_note decision)) ||
          resolved_differs evidence (rd_resolved_at decision)) "evidence source identity changed".

Definition assert_resolution_envelope (r : ResolutionResult) (bound : BoundQueue) : result unit :=
  let decision := rr_decision r in
  assert_resolution_basic r;;
  refuse (negb (rr_success r) || negb (classifies (rd_action decision) (bq_issue_type bound)))
    "classification is invalid";;
  evidence ← evidence_dict (rr_audit_evidence r) "classification is invalid";
  refuse (negb (String.eqb (rd_queue_item_id decision) (bq_queue_item_id bound)) ||
          negb (String.eqb (qi_queue_item_id (rr_queue_item r)) (bq_queue_item_id bound)) ||
          differs evidence "resolution_action" (JStr (ResolutionAction.value (rd_action decision))) ||
          differs evidence "reviewer" (JStr (rd_reviewer decision)) ||
          differs evidence "note" (JStr (rd_note decision)) ||
          resolved_differs evidence (rd_resolved_at decision)) "evidence source identity changed";;
  assert_resolution_audit_schema evidence bound (rd_action decision) false.

Definition assert_apply_basic (r : ResolutionApplyResult) : result unit :=
  refuse (negb (ar_success r) || bool_decide (is_Some (ar_error_message r))) "apply envelope is invalid";;
  evidence ← evidence_dict (ar_audit_evidence r) "apply envelope is invalid";
  evidence_dict (ar_payload r) "apply envelope is invalid";;
  require_nonempty (ar_apply_id r) "apply_id";;
  require_nonempty (ar_decision_id r) "decision_id";;
  require_nonempty (ar_queue_item_id r) "queue_item_id";;
  require_nonempty (ar_candidate_id r) "candidate_id";;
  require_nonempty (ar_reviewer r) "reviewer";;
  require_aware_time (ar_applied_at r) "applied_at";;
  require_time (get evidence "applied_timestamp") "audit applied_timestamp";;
  refuse (differs evidence "queue_item_id" (JStr (ar_queue_item_id r)) ||
          differs evidence "candidate_id" (JStr (ar_candidate_id r)) ||
          differs evidence "decision_id" (JStr (ar_decision_id r)) ||
          differs evidence "resolution_action" (JStr (ResolutionAction.value (ar_action r))) ||
          differs evidence "reviewer" (JStr (ar_reviewer r)) ||
          differs evidence "note" (JStr (ar_note r))) "apply source identity changed".

Definition assert_apply_envelope (r : ResolutionApplyResult) (bound : BoundQueue) : result unit :=
  assert_apply_basic r;;
  refuse (negb (ar_success r) || negb (classifies (ar_action r) (bq_issue_type bound)))
    "apply action conflicts with frozen queue issue";;
  evidence ← evidence_dict (ar_audit_evidence r) "apply action conflicts with frozen queue issue";
  refuse (negb (String.eqb (ar_queue_item_id r) (bq_queue_item_id bound)) ||
          negb (String.eqb (ar_candidate_id r) (bq_candidate_id bound)) ||
          differs evidence "resolution_action" (JStr (ResolutionAction.value (ar_action r))) ||
          differs evidence "decision_id" (JStr (ar_decision_id r)) ||
          differs evidence "reviewer" (JStr (ar_reviewer r)) ||
          differs evidence "note" (JStr (ar_note r)) ||
          negb (bool_decide (ar_statement_reference r = bq_statement_transaction_ref bound)) ||
          negb (bool_decide (ar_app_transaction_reference r = bq_app_transaction_ref bound)))
    "apply evidence differs from frozen queue source";;
  assert_apply_audit_schema evidence bound (ar_decision_id r);;
  assert_apply_payload (ar_payload r) (ar_action r) bound.

(** ** Stored rows *)

(** [ResolutionAction(value)] of a stored value. *)
Definition stored_action (v : json) : result ResolutionAction.t :=
  match v with
  | JStr s => match enum_of_value s with Some a => Ok a | None => raise ValueError "stored action is invalid" end
  | _ => raise ValueError "stored action is invalid"
  end.

(** [row.get(k) != 1 or type(row.get(k)) is not int]. *)
Definition not_one (v : json) : bool := match v with JInt 1 => false | _ => true end.
Definition note_or_empty (v : json) : json := match v with JNull => JStr "" | v => v end.

Definition assert_resolution_row_basic (row decision evidence : list (string * json)) : result unit :=
  require_text (get row "result_id") "result_id";;
  require_text (get row "decision_public_id") "decision_id";;
  require_text (get row "review_queue_public_id") "queue_item_id";;
  refuse (not_one (get row "success")) "stored success flag is invalid";;
  refuse (negb (json_eqb (get row "error_message") JNull)) "stored success has error";;
  require_text (get decision "reviewer") "reviewer";;
  let note := note_or_empty (get decision "decision_note") in
  require_note note;;
  match get decision "resolved_at" with JNull => Ok tt | v => require_time v "resolved_at" end;;
  require_time (get evidence "resolved_at") "audit resolved_at";;
  refuse (differs decision "public_id" (get row "decision_public_id") ||
          differs decision "review_queue_public_id" (get row "review_queue_public_id") ||
          differs evidence "queue_item_id" (get row "review_queue_public_id") ||
          differs evidence "resolution_action" (get decision "decision_action") ||
          differs evidence "reviewer" (get decision "reviewer") ||
          differs evidence "note" note ||
          match get decision "resolved_at" with JNull => false | v => differs evidence "resolved_at" v end)
    "stored decision audit differs".

Definition assert_resolution_row (row decision evidence : list (string * json)) (bound : BoundQueue) : result unit :=
  assert_resolution_row_basic row decision evidence;;
  refuse (differs row "review_queue_public_id" (JStr (bq_queue_item_id bound)) ||
          differs decision "review_queue_public_id" (JStr (bq_queue_item_id bound))) "stored decision queue differs";;
  action ← stored_action (get decision "decision_action");
  refuse (negb (classifies action (bq_issue_type bound))) "stored action conflicts with queue";;
  assert_resolution_audit_schema evidence bound action true.

Definition assert_apply_row_basic (row evidence : list (string * json)) : result unit :=
  forM_ ["apply_id"; "decision_id"; "queue_item_id"; "candidate_id"; "reviewer"] (λ k, require_text (get row k) k);;
  let note := note_or_empty (get row "note") in
  require_note note;;
  require_time (get row "applied_at") "applied_at";;
  require_time (get evidence "applied_timestamp") "audit applied_timestamp";;
  refuse (not_one (get row "success")) "stored success flag is invalid";;
  refuse (negb (json_eqb (get row "error_message") JNull)) "stored success has error";;
  refuse (negb match get row "idempotent" with JInt n => (n =? 0) || (n =? 1) | _ => false end)
    "stored idempotent flag is invalid";;
  refuse (differs evidence "queue_item_id" (get row "queue_item_id") ||
          differs evidence "candidate_id" (get row "candidate_id") ||
          differs evidence "decision_id" (get row "decision_id") ||
          differs evidence "resolution_action" (get row "action") ||
          differs evidence "reviewer" (get row "reviewer") ||
          differs evidence "note" note) "stored apply audit differs".

Definition assert_apply_row (row : list (string * json)) (payload : json) (evidence : list (string * json))
    (statement_ref app_ref : option string) (bound : BoundQueue) : result unit :=
  assert_apply_row_basic row evidence;;
  refuse (differs row "queue_item_id" (JStr (bq_queue_item_id bound)) ||
          differs row "candidate_id" (JStr (bq_candidate_id bound)) ||
          negb (bool_decide (statement_ref = bq_statement_transaction_ref bound)) ||
          negb (bool_decide (app_ref = bq_app_transaction_ref bound))) "stored apply source differs";;
  action ← stored_action (get row "action");
  refuse (negb (classifies action (bq_issue_type bound))) "stored apply action conflicts with queue";;
  decision_id ← match get row "decision_id" with JStr s => Ok s | _ => raise ValueError "decision_id" end;
  assert_apply_audit_schema evidence bound decision_id;;
  assert_apply_payload payload action bound.
