(* ===== verification/FinalMutation.v ===== *)
(** * The final mutation guard

    reconciliation/final_mutation_money.py and final_mutation_proposal.py: the
    validation of CREATE money, and the guard that decides what a proposal may
    do and previews it without writing anything.  The monetary fields and the
    suggested fields of a proposal are arbitrary Python values, since the guard
    checks their types itself. *)

From Stdlib Require Import Ascii ZArith SpecFloat Lia.
From stdpp Require Import base sets strings sorting numbers list.
From S2P Require Import Prelude PyDecimal PyValue Money Hash Json JsonParse PyDate PyFloat ReconModels ReviewModels.

Open Scope Z_scope.

(** ** CREATE money *)

Module CreateMoneyValidationIssue.
Inductive t := AMOUNT | CURRENCY.
Definition value (i : t) : string := match i with AMOUNT => "amount" | CURRENCY => "currency" end.
#[global] Instance eq_dec : EqDecision t.
Proof. solve_decision. Defined.
End CreateMoneyValidationIssue.

Notation money_issue := CreateMoneyValidationIssue.t.

Record ValidatedReconciliationCreateMoney := MkCreateMoney {
  cm_amount : fdec;
  cm_currency : string;
  cm_canonical_amount : string;
}.

(** [except MoneyValidationError: issues.append(issue)]. *)
Definition or_issue {A} (m : result A) (issue : money_issue) : result (option A * list money_issue) :=
  match m with
  | Ok a => Ok (Some a, [])
  | Raise e => if exn_isinstance (exn_cls e) MoneyValidationError then Ok (None, [issue]) else Raise e
  end.

Definition create_currency (currency : pyval) : result (option string * list money_issue) :=
  match currency with
  | VStr _ => or_issue (normalize_currency currency) CreateMoneyValidationIssue.CURRENCY
  | _ => Ok (None, [CreateMoneyValidationIssue.CURRENCY])
  end.

Definition create_amount (amount : pyval) : result (option fdec * list money_issue) :=
  match amount with
  | VDec _ | VInt _ | VStr _ => or_issue (money_decimal amount) CreateMoneyValidationIssue.AMOUNT
  | _ => Ok (None, [CreateMoneyValidationIssue.AMOUNT])
  end.

(** The checks on an amount, with or without a currency. *)
Definition create_money (c : option string) (d : option fdec) :
    result (option ValidatedReconciliationCreateMoney * list money_issue) :=
  match c, d with
  | None, Some d =>
      r ← or_issue (enforce STRICTLY_POSITIVE d) CreateMoneyValidationIssue.AMOUNT; Ok (None, r.2)
  | Some c, Some d =>
      or_issue (validate_amount_for_currency d c;; enforce STRICTLY_POSITIVE d;;
                text ← canonical_money_str (VDec (DFin d)) c; Ok (MkCreateMoney d c text))
        CreateMoneyValidationIssue.AMOUNT
  | _, None => Ok (None, [])
  end.

(** Validation returns the money or the issues its exception carries; any
    other exception escapes. *)
Definition validate_reconciliation_create_money (amount currency : pyval) :
    result (ValidatedReconciliationCreateMoney + list money_issue) :=
  c ← create_currency currency;
  d ← create_amount amount;
  validated ← create_money c.1 d.1;
  let issues := c.2 ++ d.2 ++ validated.2 in
  match validated.1, issues with
  | Some money, [] => Ok (inl money)
  | _, _ =>
      if bool_decide (CreateMoneyValidationIssue.AMOUNT ∈ issues) then
        Ok (inr (CreateMoneyValidationIssue.AMOUNT ::
                 (if bool_decide (CreateMoneyValidationIssue.CURRENCY ∈ issues)
                  then [CreateMoneyValidationIssue.CURRENCY] else [])))
      else Ok (inr [CreateMoneyValidationIssue.CURRENCY])
  end.

(** ** Proposals *)

Module FinalMutationAction.
Inductive t := CREATE_FINAL_TRANSACTION | ADJUST_FINAL_TRANSACTION | NO_FINAL_MUTATION | BLOCKED.
Definition value (a : t) : string :=
  match a with
  | CREATE_FINAL_TRANSACTION => "create_final_transaction_proposal"
  | ADJUST_FINAL_TRANSACTION => "adjust_final_transaction_proposal"
  | NO_FINAL_MUTATION => "no_final_mutation"
  | BLOCKED => "blocked"
  end.
#[global] Instance eq_dec : EqDecision t.
Proof. solve_decision. Defined.
End FinalMutationAction.

Module FinalMutationBlockedReason.
Inductive t :=
  | UNSUPPORTED_ACTION | MISSING_AMOUNT | MISSING_CURRENCY | MISSING_DATE | MISSING_MERCHANT
  | MISSING_SOURCE_REFERENCE | MISSING_EVIDENCE_REFS | CREATE_WITHOUT_SOURCE | ADJUST_WITHOUT_TARGET
  | MISSING_SUGGESTED_FIELDS | INVALID_PROPOSAL_TYPE | DIRECT_MUTATION_DETECTED | INVALID_AMOUNT | INVALID_CURRENCY.
Definition value (r : t) : string :=
  match r with
  | UNSUPPORTED_ACTION => "unsupported_action"
  | MISSING_AMOUNT => "missing_amount"
  | MISSING_CURRENCY => "missing_currency"
  | MISSING_DATE => "missing_date"
  | MISSING_MERCHANT => "missing_merchant"
  | MISSING_SOURCE_REFERENCE => "missing_source_reference"
  | MISSING_EVIDENCE_REFS => "missing_evidence_refs"
  | CREATE_WITHOUT_SOURCE => "create_without_source"
  | ADJUST_WITHOUT_TARGET => "adjust_without_target"
  | MISSING_SUGGESTED_FIELDS => "missing_suggested_fields"
  | INVALID_PROPOSAL_TYPE => "invalid_proposal_type"
  | DIRECT_MUTATION_DETECTED => "direct_mutation_detected"
  | INVALID_AMOUNT => "invalid_amount"
  | INVALID_CURRENCY => "invalid_currency"
  end.
#[global] Instance eq_dec : EqDecision t.
Proof. solve_decision. Defined.
End FinalMutationBlockedReason.

Record FinalMutationProposal := MkProposal {
  fp_proposal_id : string;
  fp_action : FinalMutationAction.t;
  fp_apply_result_ref : option string;
  fp_amount : pyval;
  fp_currency : pyval;
  fp_merchant : option string;
  fp_transaction_date : option date;
  fp_target_transaction_id : option string;
  fp_suggested_fields : pydict pyval;
  fp_source_statement_ref : option string;
  fp_source_app_transaction_ref : option string;
  fp_evidence_refs : list string;
  fp_note : string;
}.

Record FinalMutationPreview := MkPreview {
  pv_proposal_id : string;
  pv_action : FinalMutationAction.t;
  pv_amount : option string;
  pv_currency : pyval;
  pv_merchant : option string;
  pv_transaction_date : option string;
  pv_target_transaction_id : option string;
  pv_suggested_fields : pydict pyval;
  pv_source_statement_ref : option string;
  pv_source_app_transaction_ref : option string;
  pv_evidence_refs : list string;
  pv_is_dry_run : bool;
  pv_preview_note : string;
}.

Record FinalMutationGuardDecision := MkGuardDecision {
  gd_proposal_id : string;
  gd_approved : bool;
  gd_action : FinalMutationAction.t;
  gd_blocked_reasons : list FinalMutationBlockedReason.t;
  gd_preview : option FinalMutationPreview;
  gd_guard_version : string;
}.

(** ** [str] and [repr] of values *)

(** An integer with too many digits has no text. *)
Definition int_text (n : Z) : result string :=
  if Z.abs n <? int_limit then Ok (repr_int n) else raise ValueError "integer string conversion".

Fixpoint repr_value (v : pyval) : result string :=
  match v with
  | VNone => Ok "None"
  | VBool b => Ok (repr_bool b)
  | VInt n => int_text n
  | VFloat f => Ok (float_repr f)
  | VDec d => Ok (repr_decimal d)
  | VStr s => Ok (repr_str s)
  | VList l =>
      texts ← (fix all l := match l with
                            | [] => Ok []
                            | v :: l => t ← repr_value v; ts ← all l; Ok (t :: ts)
                            end) l;
      Ok ("[" +:+ py_join ", " texts +:+ "]")
  | VDict d =>
      texts ← (fix all d := match d with
                            | [] => Ok []
                            | (k, v) :: d => t ← repr_value v; ts ← all d; Ok ((repr_str k +:+ ": " +:+ t) :: ts)
                            end) d;
      Ok ("{" +:+ py_join ", " texts +:+ "}")
  end.

Definition str_value (v : pyval) : result string :=
  match v with VStr s => Ok s | VDec d => Ok (decimal_str d) | _ => repr_value v end.

(** [needle in s]. *)
Fixpoint infix (needle l : list Ascii.ascii) : bool :=
  bool_decide (take (length needle) l = needle) || match l with [] => false | _ :: l => infix needle l end.
Definition py_contains (needle s : string) : bool := infix (chars needle) (chars s).

Example repr_value_tests :
  repr_value (VDict [("a", VList [VInt (-5); VBool true; VNone]); ("b", VStr "it's")]) =
    Ok (of_chars (chars "{'a': [-5, True, None], 'b': " ++ dquote :: chars "it's" ++ [dquote; "}"%char])) ∧
  py_contains "DROP" "a DROP b" = true ∧ py_contains "DROP" "DRO" = false ∧ py_contains "" "" = true.
Proof. by vm_compute. Qed.

(** ** The guard *)

Definition DIRECT_MUTATION_KEYWORDS : list string :=
  ["INSERT"; "UPDATE"; "DELETE"; "DROP"; "ALTER"; "CREATE TABLE"; "statement_transactions"; "final_transactions";
   "settlement_obligations"].

Definition blocked (proposal_id : string) (reasons : list FinalMutationBlockedReason.t) : FinalMutationGuardDecision :=
  MkGuardDecision proposal_id false FinalMutationAction.BLOCKED reasons None "v1".

(** [_check_action]; every action but BLOCKED is supported. *)
Definition check_action (p : FinalMutationProposal) : option FinalMutationGuardDecision :=
  if bool_decide (fp_action p = FinalMutationAction.BLOCKED)
  then Some (blocked (fp_proposal_id p) [FinalMutationBlockedReason.UNSUPPORTED_ACTION]) else None.

(** [_check_direct_mutation]. *)
Definition mentions_mutation (text : string) : bool :=
  existsb (λ keyword, py_contains (py_upper keyword) (py_upper text)) DIRECT_MUTATION_KEYWORDS.

Definition check_direct_mutation (p : FinalMutationProposal) : result (option FinalMutationGuardDecision) :=
  fields ← str_value (VDict (fp_suggested_fields p));
  Ok (if mentions_mutation (fp_note p +:+ " " +:+ fields)
      then Some (blocked (fp_proposal_id p) [FinalMutationBlockedReason.DIRECT_MUTATION_DETECTED]) else None).

(** [not text] of an optional text. *)
Definition absent (o : option string) : bool := match o with Some s => str_empty s | None => true end.
Definition reason_if (c : bool) (r : FinalMutationBlockedReason.t) : list FinalMutationBlockedReason.t :=
  if c then [r] else [].
Definition block_if (p : FinalMutationProposal) (reasons : list FinalMutationBlockedReason.t) :
    option FinalMutationGuardDecision :=
  match reasons with [] => None | _ => Some (blocked (fp_proposal_id p) reasons) end.

Definition create_reasons (p : FinalMutationProposal) (money_issues : list money_issue) :
    list FinalMutationBlockedReason.t :=
  let amount_missing := is_none (fp_amount p) in
  let currency_missing := match fp_currency p with VNone => true | VStr s => str_empty s | _ => false end in
  (if amount_missing then [FinalMutationBlockedReason.MISSING_AMOUNT]
   else reason_if (bool_decide (CreateMoneyValidationIssue.AMOUNT ∈ money_issues)) FinalMutationBlockedReason.INVALID_AMOUNT) ++
  (if currency_missing then [FinalMutationBlockedReason.MISSING_CURRENCY]
   else reason_if (bool_decide (CreateMoneyValidationIssue.CURRENCY ∈ money_issues)) FinalMutationBlockedReason.INVALID_CURRENCY) ++
  reason_if (match fp_transaction_date p with None => true | Some _ => false end) FinalMutationBlockedReason.MISSING_DATE ++
  reason_if (absent (fp_merchant p)) FinalMutationBlockedReason.MISSING_MERCHANT ++
  reason_if (absent (fp_source_statement_ref p)) FinalMutationBlockedReason.CREATE_WITHOUT_SOURCE ++
  reason_if (bool_decide (fp_evidence_refs p = [])) FinalMutationBlockedReason.MISSING_EVIDENCE_REFS.

(** [_validate_create_fields]. *)
Definition validate_create_fields (p : FinalMutationProposal) : result (option FinalMutationGuardDecision) :=
  outcome ← validate_reconciliation_create_money (fp_amount p) (fp_currency p);
  Ok (block_if p (create_reasons p (match outcome with inl _ => [] | inr issues => issues end))).

(** [_validate_adjust_fields]. *)
Definition validate_adjust_fields (p : FinalMutationProposal) : option FinalMutationGuardDecision :=
  block_if p
    (reason_if (absent (fp_target_transaction_id p)) FinalMutationBlockedReason.ADJUST_WITHOUT_TARGET ++
     reason_if (bool_decide (dict_keys (fp_suggested_fields p) = [])) FinalMutationBlockedReason.MISSING_SUGGESTED_FIELDS ++
     reason_if (absent (fp_source_app_transaction_ref p)) FinalMutationBlockedReason.MISSING_SOURCE_REFERENCE ++
     reason_if (bool_decide (fp_evidence_refs p = [])) FinalMutationBlockedReason.MISSING_EVIDENCE_REFS).

Definition check_required_fields (p : FinalMutationProposal) : result (option FinalMutationGuardDecision) :=
  match fp_action p with
  | FinalMutationAction.CREATE_FINAL_TRANSACTION => validate_create_fields p
  | FinalMutationAction.ADJUST_FINAL_TRANSACTION => Ok (validate_adjust_fields p)
  | _ => Ok None
  end.

Definition preview_note : string := "Dry-run preview only. No final financial records were created or modified.".

Definition preview (p : FinalMutationProposal) : result FinalMutationPreview :=
  amount ← (if is_none (fp_amount p) then Ok None else Some <$> str_value (fp_amount p));
  money ←
    match fp_action p with
    | FinalMutationAction.CREATE_FINAL_TRANSACTION =>
        outcome ← validate_reconciliation_create_money (fp_amount p) (fp_currency p);
        match outcome with
        | inl money => Ok (Some (cm_canonical_amount money), VStr (cm_currency money))
        | inr _ => raise CreateMoneyValidationError "Invalid reconciliation CREATE money field(s)"
        end
    | _ => Ok (amount, fp_currency p)
    end;
  Ok (MkPreview (fp_proposal_id p) (fp_action p) money.1 money.2 (fp_merchant p)
        (date_isoformat <$> fp_transaction_date p) (fp_target_transaction_id p) (fp_suggested_fields p)
        (fp_source_statement_ref p) (fp_source_app_transaction_ref p) (fp_evidence_refs p) true preview_note).

Definition approve (p : FinalMutationProposal) : result FinalMutationGuardDecision :=
  pv ← preview p; Ok (MkGuardDecision (fp_proposal_id p) true (fp_action p) [] (Some pv) "v1").

(** What the guard may be given: a proposal, or any other object, with its
    [proposal_id] where it has one. *)
Inductive guard_input :=
  | Proposal (p : FinalMutationProposal)
  | Other (proposal_id : option pyval).

(** [_extract_proposal_id]. *)
Definition extract_proposal_id (id : option pyval) : result string :=
  match id with Some v => str_value v | None => Ok "unknown" end.

Definition evaluate (input : guard_input) : result FinalMutationGuardDecision :=
  match input with
  | Other id =>
      proposal_id ← extract_proposal_id id;
      Ok (blocked proposal_id [FinalMutationBlockedReason.INVALID_PROPOSAL_TYPE])
  | Proposal p =>
      match check_action p with
      | Some d => Ok d
      | None =>
          mutation ← check_direct_mutation p;
          match mutation with
          | Some d => Ok d
          | None =>
              field ← check_required_fields p;
              match field with Some d => Ok d | None => approve p end
          end
      end
  end.

Definition guard_final_mutation_proposal (p : FinalMutationProposal) : result FinalMutationGuardDecision :=
  evaluate (Proposal p).
Definition preview_final_mutation (p : FinalMutationProposal) : result FinalMutationPreview := preview p.
