(* ===== verification/ApplyPlan.v ===== *)
(** * The apply plan

    reconciliation/apply_plan.py: the dry-run plan that says, for each reviewed
    item, what a later final mutation would do: one operation per input, with
    the guard's verdict, the risks to review, the counts, and an identifier
    computed from the operations. *)

From Stdlib Require Import Ascii ZArith SpecFloat Lia.
From stdpp Require Import base sets strings sorting numbers list.
From S2P Require Import Prelude PyDecimal Hash Json PyFloat ReconModels ReviewModels FinalMutation.

Open Scope Z_scope.

(** ** Records *)

Record ApplyPlanOperation := MkOperation {
  op_operation_id : string;
  op_decision_id : string;
  op_queue_item_id : string;
  op_candidate_id : string;
  op_action : ResolutionAction.t;
  op_guard_decision_approved : bool;
  op_guard_blocked_reasons : list string;
  op_is_blocked : bool;
  op_requires_human_confirmation : bool;
  op_statement_ref : option string;
  op_app_transaction_ref : option string;
  op_evidence_refs : list string;
  op_note : string;
  op_source_apply_result_ref : option string;
  op_dry_run_statement : string;
}.

Record ApplyPlanRisk := MkRisk {
  risk_code : string;
  risk_message : string;
  risk_operation_id : option string;
  risk_severity : string;
}.

Record ApplyPlanInput := MkPlanInput {
  pi_decision : ResolutionDecision;
  pi_queue_item : ReviewQueueItem;
  pi_guard_decision : option FinalMutationGuardDecision;
  pi_proposal : option FinalMutationProposal;
  pi_evidence_refs : list string;
}.

Record ReconciliationApplyPlan := MkPlan {
  plan_id : string;
  plan_operations : list ApplyPlanOperation;
  plan_risks : list ApplyPlanRisk;
  plan_requires_human_confirmation : bool;
  plan_is_dry_run : bool;
  plan_total_operations : Z;
  plan_blocked_operations : Z;
  plan_approved_operations : Z;
  plan_pending_guard_operations : Z;
  plan_note : string;
}.

(** ** One operation *)

Definition dry_run_statement : string := "Dry-run plan only. No final financial records were created or modified.".

(** [_statement_ref_from_item] and [_app_ref_from_item]; a candidate always
    has a statement. *)
Definition statement_ref_from_item (item : ReviewQueueItem) : option string :=
  let stmt := rc_statement (qi_candidate item) in
  match st_statement_row_reference stmt with
  | Some r => if str_empty r then Some (st_merchant_raw stmt) else Some r
  | None => Some (st_merchant_raw stmt)
  end.

Definition app_ref_from_item (item : ReviewQueueItem) : option string :=
  app_txn_id <$> rc_best_app_transaction (qi_candidate item).

(** The references of the proposal where it has any, else the caller's. *)
Definition chosen_evidence_refs (inp : ApplyPlanInput) : list string :=
  match pi_proposal inp with
  | Some p => match fp_evidence_refs p with [] => pi_evidence_refs inp | refs => refs end
  | None => pi_evidence_refs inp
  end.

Definition is_nil {A} (l : list A) : bool := match l with [] => true | _ => false end.

(** The risks of one operation, in the order they are appended. *)
Definition operation_risks (operation_id : string) (guard : option FinalMutationGuardDecision)
    (reasons evidence_refs : list string) : list ApplyPlanRisk :=
  let quoted := "Operation '" +:+ operation_id +:+ "'" in
  match guard with
  | Some g =>
      (if gd_approved g then []
       else [MkRisk "guard_blocked_operation" (quoted +:+ " is blocked by guard: " +:+ py_join ", " reasons)
               (Some operation_id) "critical"]) ++
      (if gd_approved g && is_nil evidence_refs
       then [MkRisk "approved_operation_missing_evidence"
               (quoted +:+ " is approved but has no evidence references. Human confirmation should verify evidence exists.")
               (Some operation_id) "warning"]
       else [])
  | None =>
      [MkRisk "pending_guard_evaluation"
         (quoted +:+ " has no guard decision. Guard evaluation is required before any final mutation.")
         (Some operation_id) "warning"]
  end ++
  (if match guard with Some g => gd_approved g | None => true end
   then [MkRisk "human_confirmation_required"
           (quoted +:+ " requires human confirmation before any final mutation step.") (Some operation_id) "info"]
   else []).

(** [_build_operation]. *)
Definition build_operation (inp : ApplyPlanInput) : ApplyPlanOperation * list ApplyPlanRisk :=
  let decision := pi_decision inp in
  let item := pi_queue_item inp in
  let evidence_refs := chosen_evidence_refs inp in
  let operation_id := "op-" +:+ rd_decision_id decision in
  let guard := pi_guard_decision inp in
  let guard_approved := match guard with Some g => gd_approved g | None => false end in
  let reasons := match guard with
                 | Some g => FinalMutationBlockedReason.value <$> gd_blocked_reasons g
                 | None => []
                 end in
  let is_blocked := match guard with Some g => negb (gd_approved g) | None => false end in
  let requires_confirmation := guard_approved || match guard with None => true | Some _ => false end in
  (MkOperation operation_id (rd_decision_id decision) (qi_queue_item_id item) (rc_candidate_id (qi_candidate item))
     (rd_action decision) guard_approved reasons is_blocked requires_confirmation (statement_ref_from_item item)
     (app_ref_from_item item) evidence_refs (rd_note decision) (fp_proposal_id <$> pi_proposal inp) dry_run_statement,
   operation_risks operation_id guard reasons evidence_refs).

(** ** The identifier of a plan *)

Definition py_isalnum_char (c : Ascii.ascii) : bool := py_isalpha_char c || py_isdigit c.

(** [text.strip("-")]. *)
Definition is_hyphen (c : Ascii.ascii) : bool := ascii_code c =? 45.
Definition strip_hyphens (l : list Ascii.ascii) : list Ascii.ascii :=
  reverse (drop_while is_hyphen (reverse (drop_while is_hyphen l))).

Definition plan_slug (plan_label : string) : string :=
  of_chars (take 40 (strip_hyphens ((λ c, if py_isalnum_char c then c else "-"%char) <$> chars (py_lower plan_label)))).

(** The order of [sorted] with the key of four identifiers. *)
Definition operation_key (o : ApplyPlanOperation) : string * (string * (string * string)) :=
  (op_operation_id o, (op_decision_id o, (op_queue_item_id o, op_candidate_id o))).
Definition operation_leb (o p : ApplyPlanOperation) : bool :=
  lex_leb String.leb (lex_leb String.leb (lex_leb String.leb String.leb)) (operation_key o) (operation_key p).

Definition json_strs (l : list string) : json := JList (JStr <$> l).

(** The fields of an operation the identifier covers. *)
Definition operation_json (o : ApplyPlanOperation) : json :=
  JDict
    [("operation_id", JStr (op_operation_id o)); ("decision_id", JStr (op_decision_id o));
     ("queue_item_id", JStr (op_queue_item_id o)); ("candidate_id", JStr (op_candidate_id o));
     ("action", JStr (ResolutionAction.value (op_action o)));
     ("guard_decision_approved", JBool (op_guard_decision_approved o));
     ("guard_blocked_reasons", json_strs (isort String.leb (op_guard_blocked_reasons o)));
     ("is_blocked", JBool (op_is_blocked o));
     ("requires_human_confirmation", JBool (op_requires_human_confirmation o));
     ("statement_ref", opt_json JStr (op_statement_ref o));
     ("app_transaction_ref", opt_json JStr (op_app_transaction_ref o));
     ("evidence_refs", json_strs (isort String.leb (op_evidence_refs o)));
     ("source_apply_result_ref", opt_json JStr (op_source_apply_result_ref o))].

(** [_build_plan_id]. *)
Definition build_plan_id (operations : list ApplyPlanOperation) (plan_label : string) : string :=
  let slug := if str_empty plan_label then "" else plan_slug plan_label in
  let sorted_ops := isort operation_leb operations in
  let digest := of_chars (take 12 (chars (hexdigest (sha256 (encode (canonical (JList (operation_json <$> sorted_ops)))))))) in
  py_join "-" (["recon-apply-plan"] ++ (if str_empty slug then [] else [slug]) ++ [digest]).

(** ** The plan *)

(** [f"{n / d:.0%}"] for [0 <= n] and [0 < d]: the rounded quotient times 100,
    rounded to a float and then to a whole number, ties to even. *)
Definition format_percent (n d : Z) : string :=
  let quotient := float_of_ratio n d in
  let hundred := float_of_ratio (100 * float_num quotient) (float_den quotient) in
  of_chars (int_chars (round_half_even (float_num hundred) (float_den hundred))) +:+ "%".

Example format_percent_tests :
  format_percent 2 3 = "67%" ∧ format_percent 5 8 = "62%" ∧ format_percent 7 8 = "88%" ∧ format_percent 0 5 = "0%" ∧
  format_percent 4 4 = "100%" ∧ format_percent 29 50 = "58%".
Proof. by vm_compute. Qed.

Definition count_ops (f : ApplyPlanOperation → bool) (operations : list ApplyPlanOperation) : Z :=
  Z.of_nat (length (filter (λ o, f o = true) operations)).

Definition op_approved (o : ApplyPlanOperation) : bool := op_guard_decision_approved o && negb (op_is_blocked o).
Definition op_pending (o : ApplyPlanOperation) : bool := negb (op_guard_decision_approved o) && negb (op_is_blocked o).

(** The risks of the plan as a whole. *)
Definition plan_level_risks (total blocked pending without_evidence : Z) : list ApplyPlanRisk :=
  (if (0 <? total) && (0 <? blocked)
   then if blocked =? total
        then [MkRisk "all_operations_blocked"
                ("All " +:+ repr_int total +:+ " operations are blocked. No final mutation should proceed without resolution.")
                None "critical"]
        else if total / 2 <? blocked
        then [MkRisk "majority_operations_blocked"
                (repr_int blocked +:+ " of " +:+ repr_int total +:+ " operations are blocked (" +:+
                 format_percent blocked total +:+ "). Review blocked reasons.") None "warning"]
        else []
   else []) ++
  (if 0 <? pending
   then [MkRisk "pending_guard_evaluations"
           (repr_int pending +:+ " of " +:+ repr_int total +:+
            " operations await guard evaluation. These must be evaluated before any final mutation.")
           None (if pending =? total then "warning" else "info")]
   else []) ++
  (if 0 <? without_evidence
   then [MkRisk "missing_evidence_refs"
           (repr_int without_evidence +:+ " of " +:+ repr_int total +:+
            " operations have no evidence references. Audit traceability may be reduced.") None "warning"]
   else []).

Definition plan_note_text (plan_label : string) (total approved blocked pending : Z) : string :=
  (if str_empty plan_label then "Apply plan: " else "Apply plan '" +:+ plan_label +:+ "': ") +:+
  repr_int total +:+ " operation(s), " +:+ repr_int approved +:+ " approved, " +:+ repr_int blocked +:+ " blocked, " +:+
  repr_int pending +:+ " pending guard. Dry-run only -- no final financial records have been created or modified.".

Definition build_reconciliation_apply_plan (inputs : list ApplyPlanInput) (plan_label : string) :
    result ReconciliationApplyPlan :=
  raise_when (is_nil inputs) ValueError "build_reconciliation_apply_plan requires at least one input";;
  let built := build_operation <$> inputs in
  let operations := built.*1 in
  let total := Z.of_nat (length operations) in
  let blocked := count_ops op_is_blocked operations in
  let approved := count_ops op_approved operations in
  let pending := count_ops op_pending operations in
  let without_evidence := count_ops (λ o, is_nil (op_evidence_refs o)) operations in
  Ok (MkPlan (build_plan_id operations plan_label) operations
        (mjoin built.*2 ++ plan_level_risks total blocked pending without_evidence)
        (existsb op_requires_human_confirmation operations) true total blocked approved pending
        (plan_note_text plan_label total approved blocked pending)).
