(* ===== verification/ApplyProps.v ===== *)
(** * Properties of the apply runtime

    The registry only grows and never changes an entry; a repeated instruction
    is answered with the original result; a decision or an item used
    otherwise is refused.  The file BatchApply has the statements on
    batches. *)

From Stdlib Require Import Ascii ZArith SpecFloat Lia.
From stdpp Require Import base sets strings sorting numbers list relations.
From S2P Require Import Prelude PyDecimal PyValue Hash Json PyDate PyDateTime ReconModels ReviewModels ApplyRuntime.

Open Scope Z_scope.

(** ** Which exceptions *)

Definition only_raises {A} (c : exn_class) (m : result A) : Prop := ∀ e, m = Raise e → exn_cls e = c.

Lemma only_raises_Ok {A} c (a : A) : only_raises c (Ok a).
Proof. by intros e. Qed.
Lemma only_raises_raise {A} c s : only_raises c (@raise A c s).
Proof. by intros e [= <-]. Qed.
Lemma only_raises_when c b s : only_raises c (raise_when b c s).
Proof. destruct b; [apply only_raises_raise|apply only_raises_Ok]. Qed.
Lemma only_raises_bind {A B} c (m : result A) (f : A → result B) :
  only_raises c m → (∀ a, m = Ok a → only_raises c (f a)) → only_raises c (m ≫= f).
Proof. intros Hm Hf. destruct m as [a|e]; cbn; [by apply Hf|intros e' [= <-]; by apply Hm]. Qed.

Create HintDb raises.
#[local] Hint Resolve only_raises_Ok only_raises_raise only_raises_when : raises.

Lemma require_nonempty_raises v l : only_raises ValueError (require_nonempty v l).
Proof. apply only_raises_when. Qed.
Lemma require_resolved_at_raises o : only_raises ValueError (require_resolved_at o).
Proof.
  destruct o as [t|]; cbn; [|auto with raises]. unfold require_aware_time.
  apply only_raises_bind; [apply require_nonempty_raises|]. intros _ _. destruct (fromisoformat t); auto with raises.
Qed.
#[local] Hint Resolve require_nonempty_raises require_resolved_at_raises : raises.

Lemma as_instruction_error_raises m :
  only_raises ValueError m → only_raises ApplyInstructionError (as_instruction_error m).
Proof.
  intros Hm e. unfold as_instruction_error, catch. destruct m as [u|e']; [done|].
  rewrite (Hm e' eq_refl). cbn. by intros [= <-].
Qed.

Lemma build_raises item decision refs req :
  only_raises ApplyInstructionError (build_apply_instruction item decision refs req).
Proof.
  unfold build_apply_instruction. apply only_raises_bind.
  { apply as_instruction_error_raises. unfold check_decision_metadata.
    repeat (apply only_raises_bind; [auto with raises|intros _ _]). auto with raises. }
  intros _ _. apply only_raises_bind; [auto with raises|intros _ _].
  apply only_raises_bind; [auto with raises|intros _ _].
  destruct (validate_resolution_decision _ _) as [compat err].
  apply only_raises_bind; [auto with raises|intros _ _].
  apply only_raises_bind; [by destruct (check_instruction_references _ _); auto with raises|intros _ _].
  apply only_raises_bind; [auto with raises|intros _ _].
  apply only_raises_bind; [apply only_raises_when|intros _ _]. auto with raises.
Qed.

(** ** Built instructions validate *)

Lemma drop_while_snoc {A} (p : A → bool) l x : p x = false → drop_while p (l ++ [x]) ≠ [].
Proof. intros Hx. induction l as [|y l IH]; cbn; [by rewrite Hx|]. by destruct (p y). Qed.

Lemma nonblank_head c s : py_isspace c = false → str_empty (py_strip (String c s)) = false.
Proof.
  intros Hc. unfold py_strip, str_empty. change (chars (String c s)) with (c :: chars s).
  generalize (chars s) as l. intros l. apply String.eqb_neq. intros H.
  apply (f_equal chars) in H. rewrite chars_of_chars in H. unfold strip_chars in H. cbn [drop_while] in H.
  rewrite Hc in H. apply (f_equal reverse) in H.
  rewrite reverse_involutive, reverse_cons in H. by apply drop_while_snoc in H.
Qed.

Lemma instruction_id_nonblank s : str_empty (py_strip ("instr-" +:+ s)) = false.
Proof. by apply (nonblank_head "i"). Qed.

Lemma dict_eqb_refl (d : pydict string) : NoDup (dict_keys d) → dict_eqb d d = true.
Proof.
  intros Hd. unfold dict_eqb. rewrite Nat.eqb_refl. cbn. apply List.forallb_forall. intros [k v] Hkv.
  apply bool_decide_eq_true. cbn. by apply dict_get_mem; [|apply list_elem_of_In].
Qed.

Lemma metadata_eqb id item : dict_eqb (instruction_metadata id item) (instruction_metadata id item) = true.
Proof.
  apply dict_eqb_refl. change (NoDup ["build_version"; "source"; "instruction_id"; "item_sha256"]).
  eapply bool_decide_eq_true_1. by vm_compute.
Qed.

(** What a built instruction consists of; the evidence requirement only
    guards. *)
Lemma build_Ok item decision refs req i :
  build_apply_instruction item decision refs req = Ok i →
  build_apply_instruction item decision refs false = Ok i ∧
  check_decision_metadata decision = Ok tt ∧ rd_queue_item_id decision = qi_queue_item_id item ∧
  (req = true → refs ≠ []) ∧
  i = MkInstruction ("instr-" +:+ rd_decision_id decision) (rd_decision_id decision) (qi_queue_item_id item)
        (rc_candidate_id (qi_candidate item)) (rd_action decision) (rd_reviewer decision) (rd_note decision)
        (rd_resolved_at decision) (qi_issue_type item) (statement_ref_from_item item) (app_ref_from_item item)
        refs (instruction_metadata ("instr-" +:+ rd_decision_id decision) item) (Some item).
Proof.
  unfold build_apply_instruction. intros H.
  apply bind_Ok in H as ([]&H1&H). rewrite H1. cbn [mbind result_bind].
  apply bind_Ok in H as ([]&H2&H). rewrite H2. cbn [mbind result_bind].
  apply bind_Ok in H as ([]&H3&H). rewrite H3. cbn [mbind result_bind].
  destruct (validate_resolution_decision _ _) as [compat err].
  apply bind_Ok in H as ([]&H4&H). rewrite H4. cbn [mbind result_bind].
  apply bind_Ok in H as ([]&H5&H). rewrite H5. cbn [mbind result_bind].
  apply bind_Ok in H as ([]&H6&H). cbn [andb raise_when].
  apply bind_Ok in H as ([]&H7&H). rewrite H7. cbn [mbind result_bind].
  split; [done|]. injection H as [= <-]. split_and!; [| | |done].
  - unfold as_instruction_error, catch in H1. destruct (check_decision_metadata decision) as [[]|e]; [done|].
    by destruct (exn_isinstance _ _).
  - apply raise_when_Ok, negb_false_iff, String.eqb_eq in H2. done.
  - intros ->. cbn in H6. apply raise_when_Ok, bool_decide_eq_false in H6. done.
Qed.

(** Which built instructions the runtime's own validation refuses: those whose
    evidence references or candidate identity are blank. *)
Definition passes_validation (refs : list string) (item : ReviewQueueItem) : bool :=
  negb (existsb (λ ref, str_empty (py_strip ref)) refs) &&
  negb (str_empty (py_strip (rc_candidate_id (qi_candidate item)))).

Lemma built_validates item decision refs req i :
  build_apply_instruction item decision refs req = Ok i →
  if passes_validation refs item then validate_instruction i = Ok item
  else ∃ s, validate_instruction i = raise ApplyInstructionError s.
Proof.
  intros H. pose proof (build_Ok _ _ _ _ _ H) as (Hb&Hm&Hq&_&Hi).
  unfold check_decision_metadata in Hm. apply bind_Ok in Hm as ([]&M1&Hm). apply bind_Ok in Hm as ([]&M2&Hm).
  apply bind_Ok in Hm as ([]&M3&M4). rewrite Hq in M2.
  assert (Hb' : build_apply_instruction item (MkResolution (rd_decision_id decision) (qi_queue_item_id item)
    (rd_action decision) (rd_note decision) (rd_reviewer decision) (rd_resolved_at decision)) refs false = Ok i).
  { rewrite <- Hb. f_equal. destruct decision; cbn in *. by rewrite Hq. }
  unfold passes_validation, validate_instruction.
  subst i. cbn [ai_instruction_id ai_decision_id ai_queue_item_id ai_candidate_id ai_reviewer ai_resolved_at
    ai_evidence_refs ai_audit_metadata ai_action ai_note ai_item] in *.
  assert (M0 : require_nonempty ("instr-" +:+ rd_decision_id decision) "instruction_id" = Ok tt).
  { unfold require_nonempty. by rewrite instruction_id_nonblank. }
  rewrite M0, M1, M2, M3, M4. cbn [mbind result_bind].
  destruct (require_nonempty (rc_candidate_id (qi_candidate item)) "candidate_id") as [[]|e] eqn:Ec;
    unfold require_nonempty in Ec; destruct (str_empty (py_strip (rc_candidate_id (qi_candidate item))));
    cbn [raise_when] in Ec; try discriminate Ec; cbn [mbind result_bind negb].
  2:{ rewrite andb_false_r. injection Ec as [= <-]. eexists. reflexivity. }
  rewrite andb_true_r. cbn [as_instruction_error catch mbind result_bind]. rewrite metadata_eqb, orb_false_r.
  destruct (existsb _ refs); cbn [raise_when mbind result_bind negb]; [by eexists|].
  rewrite Hb'. cbn [mbind result_bind]. unfold instruction_eqb. rewrite bool_decide_true by done.
  cbn [ai_audit_metadata]. rewrite metadata_eqb. done.
Qed.

(** ** The registry *)

Definition registry_ok (rt : ResolutionApplyRuntime) : Prop :=
  (∀ q d, dict_get q (rt_item_to_decision rt) = Some d →
    ∃ e, dict_get d (rt_applied rt) = Some e ∧ ae_queue_item_id e = q) ∧
  (∀ d e, dict_get d (rt_applied rt) = Some e →
    dict_get (ae_queue_item_id e) (rt_item_to_decision rt) = Some d).

(** An entry records this very instruction. *)
Definition entry_matches (e : AppliedEntry) (i : ApplyInstruction) : bool :=
  String.eqb (ae_queue_item_id e) (ai_queue_item_id i) && bool_decide (ae_action e = ai_action i) &&
  String.eqb (ae_fingerprint e) (build_fingerprint_instruction i (build_payload_instruction i)).

(** The entry an instruction leaves. *)
Definition entry_of (i : ApplyInstruction) (now : string) : AppliedEntry :=
  MkEntry (ai_queue_item_id i) (ai_action i) (build_fingerprint_instruction i (build_payload_instruction i)) now
    (build_audit_evidence_instruction i now).

Definition first_result (i : ApplyInstruction) (now : string) : ResolutionApplyResult :=
  apply_result i (build_payload_instruction i) (build_audit_evidence_instruction i now) now false.
Definition replayed_result (i : ApplyInstruction) (e : AppliedEntry) : ResolutionApplyResult :=
  apply_result i (build_payload_instruction i) (ae_audit_evidence e) (ae_applied_at e) true.

Definition recorded (rt : ResolutionApplyRuntime) (i : ApplyInstruction) (now : string) : ResolutionApplyRuntime :=
  MkRuntime (dict_set (ai_decision_id i) (entry_of i now) (rt_applied rt))
            (dict_set (ai_queue_item_id i) (ai_decision_id i) (rt_item_to_decision rt)).

Lemma recorded_ok rt i now :
  registry_ok rt → dict_get (ai_decision_id i) (rt_applied rt) = None →
  dict_get (ai_queue_item_id i) (rt_item_to_decision rt) = None → registry_ok (recorded rt i now).
Proof.
  intros [H1 H2] Hd Hq. split; cbn [recorded rt_applied rt_item_to_decision].
  - intros q d. rewrite dict_get_set. destruct (String.eqb_spec q (ai_queue_item_id i)) as [->|Hne].
    + intros [= <-]. exists (entry_of i now). by rewrite dict_get_set_eq.
    + intros Hg. destruct (H1 _ _ Hg) as (e&He&Heq). exists e. split; [|done].
      rewrite dict_get_set. destruct (String.eqb_spec d (ai_decision_id i)) as [->|]; [congruence|done].
  - intros d e. rewrite dict_get_set. destruct (String.eqb_spec d (ai_decision_id i)) as [->|Hne].
    + intros [= <-]. cbn. by rewrite dict_get_set_eq.
    + intros Hg. pose proof (H2 _ _ Hg) as He. rewrite dict_get_set.
      destruct (String.eqb_spec (ae_queue_item_id e) (ai_queue_item_id i)) as [Heq|]; [congruence|done].
Qed.

(** Every outcome of a valid instruction. *)
Lemma apply_instruction_cases rt i item now :
  registry_ok rt → validate_instruction i = Ok item →
  match dict_get (ai_decision_id i) (rt_applied rt), dict_get (ai_queue_item_id i) (rt_item_to_decision rt) with
  | None, None => apply_instruction rt i now = Ok (first_result i now, recorded rt i now)
  | None, Some _ => ∃ s, apply_instruction rt i now = raise ApplyConflictError s
  | Some e, _ =>
      if entry_matches e i then apply_instruction rt i now = Ok (replayed_result i e, rt)
      else ∃ s, apply_instruction rt i now = raise ApplyConflictError s
  end.
Proof.
  intros [H1 H2] Hv. unfold apply_instruction, check_idempotency_instruction, check_conflict_instruction.
  rewrite Hv. cbn [mbind result_bind].
  destruct (dict_get (ai_decision_id i) (rt_applied rt)) as [e|] eqn:Ed.
  - unfold entry_matches.
    destruct (String.eqb _ _); cbn [andb negb raise_when mbind result_bind]; [|by eexists].
    case_bool_decide; cbn [andb negb raise_when mbind result_bind]; [|by eexists].
    destruct (String.eqb _ _); cbn [andb negb raise_when mbind result_bind]; [done|by eexists].
  - cbn [mbind result_bind]. destruct (dict_get (ai_queue_item_id i) (rt_item_to_decision rt)) as [d|] eqn:Eq; [|done].
    destruct (H1 _ _ Eq) as (e&He&_). destruct (String.eqb_spec d (ai_decision_id i)) as [->|]; [congruence|].
    unfold dict_index. rewrite He. by eexists.
Qed.

(** ** Runs of the runtime *)

(** The runtime answered an instruction. *)
Inductive runtime_step (rt rt' : ResolutionApplyRuntime) : Prop :=
  | answered i now r : apply_instruction rt i now = Ok (r, rt') → runtime_step rt rt'.

Definition reachable (rt : ResolutionApplyRuntime) : Prop := rtc runtime_step new_runtime rt.

Lemma new_runtime_ok : registry_ok new_runtime.
Proof. by split. Qed.

Lemma apply_instruction_valid rt i now out :
  apply_instruction rt i now = Ok out → ∃ item, validate_instruction i = Ok item.
Proof. unfold apply_instruction. intros (item&Hv&_)%bind_Ok. by exists item. Qed.

Lemma apply_instruction_inv rt i now r rt' :
  registry_ok rt → apply_instruction rt i now = Ok (r, rt') →
  (dict_get (ai_decision_id i) (rt_applied rt) = None ∧
   dict_get (ai_queue_item_id i) (rt_item_to_decision rt) = None ∧
   r = first_result i now ∧ rt' = recorded rt i now) ∨
  (∃ e, dict_get (ai_decision_id i) (rt_applied rt) = Some e ∧ entry_matches e i = true ∧
        r = replayed_result i e ∧ rt' = rt).
Proof.
  intros Hok H. destruct (apply_instruction_valid _ _ _ _ H) as [item Hv].
  pose proof (apply_instruction_cases rt i item now Hok Hv) as Hc.
  destruct (dict_get (ai_decision_id i) (rt_applied rt)) as [e|].
  - destruct (entry_matches e i) eqn:E; [|destruct Hc as [msg Hc]; by rewrite Hc in H].
    right. exists e. rewrite Hc in H. by injection H as [= <- <-].
  - destruct (dict_get (ai_queue_item_id i) (rt_item_to_decision rt)); [destruct Hc as [msg Hc]; by rewrite Hc in H|].
    left. rewrite Hc in H. by injection H as [= <- <-].
Qed.

(** Nothing recorded is lost or changed. *)
Definition extends (rt rt' : ResolutionApplyRuntime) : Prop :=
  (∀ d e, dict_get d (rt_applied rt) = Some e → dict_get d (rt_applied rt') = Some e) ∧
  (∀ q d, dict_get q (rt_item_to_decision rt) = Some d → dict_get q (rt_item_to_decision rt') = Some d).

#[global] Instance extends_preorder : PreOrder extends.
Proof.
  split; [by split|]. intros a b c [H1 H2] [H3 H4]. split; intros; auto.
Qed.

Lemma step_extends rt rt' : registry_ok rt → runtime_step rt rt' → registry_ok rt' ∧ extends rt rt'.
Proof.
  intros Hok [i now r H]. destruct (apply_instruction_inv _ _ _ _ _ Hok H) as [(Hd&Hq&_&->)|(e&_&_&_&->)].
  - split; [by apply recorded_ok|]. split; cbn [recorded rt_applied rt_item_to_decision]; intros k v Hk.
    + rewrite dict_get_set. destruct (String.eqb_spec k (ai_decision_id i)) as [->|]; [congruence|done].
    + rewrite dict_get_set. destruct (String.eqb_spec k (ai_queue_item_id i)) as [->|]; [congruence|done].
  - by split.
Qed.

Lemma steps_extend rt rt' : registry_ok rt → rtc runtime_step rt rt' → registry_ok rt' ∧ extends rt rt'.
Proof.
  intros Hok H. revert Hok. induction H as [rt|rt rt1 rt' Hs _ IH]; intros Hok; [by split|].
  destruct (step_extends _ _ Hok Hs) as [Hok1 He1]. destruct (IH Hok1) as [Hok' He']. split; [done|by etrans].
Qed.

Lemma reachable_ok rt : reachable rt → registry_ok rt.
Proof. intros H. by destruct (steps_extend _ _ new_runtime_ok H). Qed.

(** The original result, marked as a repeat. *)
Definition as_replay (r : ResolutionApplyResult) : ResolutionApplyResult :=
  MkApplyResult (ar_apply_id r) (ar_decision_id r) (ar_queue_item_id r) (ar_candidate_id r) (ar_action r)
    (ar_success r) (ar_payload r) (ar_error_message r) (ar_audit_evidence r) (ar_applied_at r) (ar_reviewer r)
    (ar_note r) (ar_statement_reference r) (ar_app_transaction_reference r) true.

Lemma entry_of_matches i now : entry_matches (entry_of i now) i = true.
Proof. unfold entry_matches. cbn. by rewrite !String.eqb_refl, bool_decide_true. Qed.

Lemma replay_answer rt i item e now :
  registry_ok rt → validate_instruction i = Ok item → dict_get (ai_decision_id i) (rt_applied rt) = Some e →
  entry_matches e i = true → apply_instruction rt i now = Ok (replayed_result i e, rt).
Proof.
  intros Hok Hv He Hm. pose proof (apply_instruction_cases rt i item now Hok Hv) as Hc. by rewrite He, Hm in Hc.
Qed.

(** A concrete item and decision. *)
Definition sample_statement : StatementTransaction :=
  MkStatement (Some (Date 2024 5 1)) None "Cafe" None (Some (mkdec false 1050 (-2))) (Some "SGD") None None None
    (Some "row-1") None None None None None None.
Definition sample_app : AppTransaction :=
  MkApp "app-1" (Date 2024 5 1) "Cafe" (DFin (mkdec false 1050 (-2))) "SGD" None None None None None.
Definition sample_item (queue_item_id : string) : ReviewQueueItem :=
  MkItem (MkRecon sample_statement (Some sample_app) [sample_app] MatchStatus.MATCHED [] IssueType.MATCHED
            (mkdec false 10 (-1)) None "cand-1" ReviewPriority.LOW false)
    IssueType.MATCHED SuggestedAction.CONFIRM_MATCH queue_item_id [] "" None 99.
Definition sample_decision (decision_id queue_item_id : string) : ResolutionDecision :=
  MkResolution decision_id queue_item_id ResolutionAction.CONFIRM_MATCH "ok" "human" (Some "2024-05-02T10:00:00Z").
Definition sample_instruction (decision_id queue_item_id : string) : ApplyInstruction :=
  match build_apply_instruction (sample_item queue_item_id) (sample_decision decision_id queue_item_id) ["ev-1"] true with
  | Ok i => i
  | Raise _ => MkInstruction "" "" "" "" ResolutionAction.IGNORE "" "" None IssueType.MATCHED None None [] [] None
  end.

(** The registry of the apply runtime is an append-only history: in every
    reachable state each resolved item has exactly one decision and each
    applied decision exactly one item, and whatever further instructions are
    answered, no recorded decision, action, fingerprint, time or audit evidence
    is ever changed or removed. *)
Theorem registry_append_only rt rt' :
  reachable rt → rtc runtime_step rt rt' →
  (∀ d e, dict_get d (rt_applied rt) = Some e → dict_get d (rt_applied rt') = Some e) ∧
  (∀ q d, dict_get q (rt_item_to_decision rt') = Some d ↔
    ∃ e, dict_get d (rt_applied rt') = Some e ∧ ae_queue_item_id e = q).
Proof.
  intros Hr Hs. destruct (steps_extend _ _ (reachable_ok _ Hr) Hs) as [[H1 H2] [He _]]. split; [done|].
  intros q d. split; [apply H1|]. intros (e&Hd&<-). by apply H2.
Qed.

Definition sample_first : ResolutionApplyResult * ResolutionApplyRuntime :=
  (first_result (sample_instruction "dec-1" "q-1") "2024-05-02T10:00:00+00:00",
   recorded new_runtime (sample_instruction "dec-1" "q-1") "2024-05-02T10:00:00+00:00").

Lemma sample_applies :
  apply_instruction new_runtime (sample_instruction "dec-1" "q-1") "2024-05-02T10:00:00+00:00" = Ok sample_first.
Proof. by vm_compute. Qed.

Lemma registry_append_only_witness :
  dict_get "q-1" (rt_item_to_decision sample_first.2) = Some "dec-1" ↔
  ∃ e, dict_get "dec-1" (rt_applied sample_first.2) = Some e ∧ ae_queue_item_id e = "q-1".
Proof.
  exact (proj2 (registry_append_only sample_first.2 sample_first.2
    (rtc_once _ _ (answered _ _ _ _ _ sample_applies)) (rtc_refl _ _)) "q-1" "dec-1").
Defined.

(** C11: Repeating an instruction is idempotent for ever: once the runtime has
    answered it, then after any further instructions, and at any later time,
    the same instruction returns the original result — payload, audit
    evidence and time of application included, only marked as a repeat — and
    leaves the registry as it is. *)
Theorem replay_idempotent rt i now r rt1 rt2 now2 :
  reachable rt → apply_instruction rt i now = Ok (r, rt1) → rtc runtime_step rt1 rt2 →
  apply_instruction rt2 i now2 = Ok (as_replay r, rt2).
Proof.
  intros Hr%reachable_ok Ha Hs. destruct (apply_instruction_valid _ _ _ _ Ha) as [item Hv].
  destruct (step_extends _ _ Hr (answered _ _ _ _ _ Ha)) as [Hok1 _].
  destruct (steps_extend _ _ Hok1 Hs) as [Hok2 [He _]].
  destruct (apply_instruction_inv _ _ _ _ _ Hr Ha) as [(Hd&Hq&->&->)|(e&Hd&Hm&->&->)].
  - rewrite (replay_answer rt2 i item (entry_of i now)); [done|done|done| |apply entry_of_matches].
    apply He. cbn. by rewrite dict_get_set_eq.
  - rewrite (replay_answer rt2 i item e); [done|done|done| |done]. by apply He.
Qed.

Lemma replay_idempotent_witness :
  apply_instruction sample_first.2 (sample_instruction "dec-1" "q-1") "2025-01-01T00:00:00+00:00" =
    Ok (as_replay sample_first.1, sample_first.2).
Proof.
  exact (replay_idempotent new_runtime (sample_instruction "dec-1" "q-1") "2024-05-02T10:00:00+00:00"
    sample_first.1 sample_first.2 sample_first.2 "2025-01-01T00:00:00+00:00" (rtc_refl _ _) sample_applies
    (rtc_refl _ _)).
Defined.

(** C24: The runtime refuses contradictions and blanks, and nothing else.  On
    a built instruction it raises [ApplyInstructionError] when one of its
    evidence references or its candidate is blank; otherwise it raises
    [ApplyConflictError] exactly when the decision was already applied to
    another item, with another action or with other contents, or the item was
    already resolved by another decision; and otherwise it returns a
    successful result. *)
Theorem apply_conflicts_exactly rt item decision refs req i now :
  reachable rt → build_apply_instruction item decision refs req = Ok i →
  if negb (passes_validation refs item) then ∃ s, apply_instruction rt i now = raise ApplyInstructionError s
  else if (match dict_get (ai_decision_id i) (rt_applied rt) with
      | Some e => negb (entry_matches e i)
      | None => is_applied rt (ai_queue_item_id i)
      end)
  then ∃ s, apply_instruction rt i now = raise ApplyConflictError s
  else ∃ r rt', apply_instruction rt i now = Ok (r, rt') ∧ ar_success r = true ∧
         get_applied_decision_id rt' (ai_queue_item_id i) = Some (ai_decision_id i).
Proof.
  intros Hr%reachable_ok Hb. pose proof (built_validates _ _ _ _ _ Hb) as Hv.
  destruct (passes_validation refs item); cbn [negb]; [|destruct Hv as [s Hv]; exists s; unfold apply_instruction; by rewrite Hv].
  pose proof (apply_instruction_cases rt i item now Hr Hv) as Hc. destruct Hr as [H1 H2].
  unfold is_applied, get_applied_decision_id, dict_mem.
  destruct (dict_get (ai_decision_id i) (rt_applied rt)) as [e|] eqn:Ed.
  - destruct (entry_matches e i) eqn:Em; cbn [negb]; [|done]. do 2 eexists. split_and!; [exact Hc|done|].
    unfold entry_matches in Em. apply andb_prop in Em as [[Eq%String.eqb_eq _]%andb_prop _].
    rewrite <- Eq. by apply H2.
  - destruct (dict_get (ai_queue_item_id i) (rt_item_to_decision rt)) as [d|] eqn:Eq; [done|].
    do 2 eexists. split_and!; [exact Hc|done|]. cbn. by rewrite dict_get_set_eq.
Qed.

Lemma apply_conflicts_exactly_witness :
  ∃ s, apply_instruction sample_first.2 (sample_instruction "dec-2" "q-1") "" = raise ApplyConflictError s.
Proof.
  exact (apply_conflicts_exactly sample_first.2 (sample_item "q-1") (sample_decision "dec-2" "q-1") ["ev-1"] true
    (sample_instruction "dec-2" "q-1") "" (rtc_once _ _ (answered _ _ _ _ _ sample_applies)) ltac:(by vm_compute)).
Defined.

(** The method [apply] reports a rejected decision as a failed result, but
    not always: it lets [ApplyInstructionError] escape exactly when the
    instruction can be built and an evidence reference or the candidate
    identity is blank, because only the building is guarded. *)
Theorem apply_error_escapes rt item decision refs req now :
  reachable rt →
  (∃ e, apply rt item decision refs req now = Raise e ∧ exn_cls e = ApplyInstructionError) ↔
  is_ok (build_apply_instruction item decision refs req) = true ∧ passes_validation refs item = false.
Proof.
  intros Hr%reachable_ok. unfold apply.
  destruct (build_apply_instruction item decision refs req) as [i|e] eqn:Eb.
  - pose proof (built_validates _ _ _ _ _ Eb) as Hv. cbn [is_ok].
    destruct (passes_validation refs item).
    + split; [|by intros [_ ?]]. intros (e&He&Hc). exfalso.
      pose proof (apply_instruction_cases rt i item now Hr Hv) as Hcases.
      destruct (dict_get (ai_decision_id i) (rt_applied rt)) as [en|].
      * destruct (entry_matches en i); [congruence|]. destruct Hcases as [msg Hs].
        rewrite Hs in He. injection He as [= <-]. done.
      * destruct (dict_get (ai_queue_item_id i) (rt_item_to_decision rt)); [|congruence].
        destruct Hcases as [msg Hs]. rewrite Hs in He. injection He as [= <-]. done.
    + split; [done|]. intros _. destruct Hv as [s Hs]. exists (Exn ApplyInstructionError s).
      split; [|done]. unfold apply_instruction. by rewrite Hs.
  - split; [|by intros [? _]]. intros (e'&He&Hc). rewrite (build_raises item decision refs req e Eb) in He.
    change (exn_isinstance ApplyInstructionError ApplyInstructionError) with true in He. done.
Qed.

Lemma apply_error_escapes_witness :
  ∃ e, apply new_runtime (sample_item "q-1") (sample_decision "dec-1" "q-1") [" "] true "" = Raise e ∧
       exn_cls e = ApplyInstructionError.
Proof.
  exact (proj2 (apply_error_escapes new_runtime (sample_item "q-1") (sample_decision "dec-1" "q-1") [" "] true ""
    (rtc_refl _ _)) (conj eq_refl eq_refl)).
Defined.
