(* ===== verification/BatchApply.v ===== *)
(** * Batches of decisions

    The batch part of reconciliation/apply.py: [apply_decisions] shown to be
    a map over the decided items, and [BatchApplyStateManager], which keeps a
    state per batch so that an applied batch is never applied again.  The
    manager's methods also change its state when they raise, so [apply_batch]
    returns the outcome next to the new state.  The clock is an argument: the
    first reading is the batch's own, then one per decided item, then one for
    the audit record. *)

From Stdlib Require Import Ascii ZArith SpecFloat Lia.
From stdpp Require Import base sets strings sorting numbers list relations.
From S2P Require Import Prelude PyDecimal PyValue Hash Json PyDate PyDateTime ReconModels ReviewModels ApplyRuntime ApplyProps.

Open Scope Z_scope.

(** ** What [apply_decisions] raises *)

Lemma validate_raises i : only_raises ApplyInstructionError (validate_instruction i).
Proof.
  unfold validate_instruction. destruct (ai_item i) as [item|]; [|apply only_raises_raise].
  apply only_raises_bind.
  { apply as_instruction_error_raises.
    repeat (apply only_raises_bind; [apply only_raises_when|intros _ _]).
    destruct (ai_resolved_at i) as [t|]; cbn; [|apply only_raises_Ok]. unfold require_aware_time.
    apply only_raises_bind; [apply only_raises_when|intros _ _].
    destruct (fromisoformat t); [apply only_raises_when|apply only_raises_raise]. }
  intros _ _. apply only_raises_bind; [apply only_raises_when|intros _ _].
  apply only_raises_bind; [apply build_raises|intros expected _].
  apply only_raises_bind; [apply only_raises_when|intros _ _]. apply only_raises_Ok.
Qed.

Lemma apply_instruction_raises rt i now e :
  registry_ok rt → apply_instruction rt i now = Raise e →
  exn_cls e = ApplyInstructionError ∨ exn_cls e = ApplyConflictError.
Proof.
  intros Hok H. destruct (validate_instruction i) as [item|e'] eqn:Ev.
  - right. pose proof (apply_instruction_cases rt i item now Hok Ev) as Hc.
    destruct (dict_get (ai_decision_id i) (rt_applied rt)) as [en|].
    + destruct (entry_matches en i); [congruence|]. destruct Hc as [msg Hc].
      rewrite Hc in H. by injection H as [= <-].
    + destruct (dict_get (ai_queue_item_id i) (rt_item_to_decision rt)); [|congruence].
      destruct Hc as [msg Hc]. rewrite Hc in H. by injection H as [= <-].
  - left. apply (validate_raises i). unfold apply_instruction in H. rewrite Ev in H. injection H as <-. done.
Qed.

Section Decisions.
Variable refs : option (pydict (list string)).
Variable req : bool.
Variable clock : nat → string.

Lemma apply_item_raises rt item decision now e :
  registry_ok rt → apply_item refs req rt item decision now = Raise e → exn_cls e = ApplyConflictError.
Proof using Type.
  intros Hok. unfold apply_item.
  destruct (build_apply_instruction _ _ _ _) as [i|e'] eqn:Eb; cbn [mbind result_bind].
  - destruct (apply_instruction rt i now) as [out|e'] eqn:Ea; [done|].
    destruct (apply_instruction_raises _ _ _ _ Hok Ea) as [Hc|Hc]; rewrite Hc.
    + done.
    + change (exn_isinstance ApplyConflictError ApplyInstructionError) with false. cbn iota. by intros [= <-].
  - rewrite (build_raises _ _ _ _ _ Eb). done.
Qed.

Lemma apply_item_ok rt item decision now out :
  registry_ok rt → apply_item refs req rt item decision now = Ok out → registry_ok out.2.
Proof using Type.
  intros Hok. unfold apply_item.
  destruct (build_apply_instruction _ _ _ _) as [i|e'] eqn:Eb; cbn [mbind result_bind].
  - destruct (apply_instruction rt i now) as [[r rt']|e'] eqn:Ea.
    + intros [= <-]. cbn. by destruct (step_extends _ _ Hok (answered _ _ _ _ _ Ea)).
    + destruct (exn_isinstance _ _); [|done]. by intros [= <-].
  - destruct (exn_isinstance _ _); [|done]. by intros [= <-].
Qed.

Lemma apply_steps_raise dm st items e :
  registry_ok st.2 → foldM (apply_step refs req clock dm) st items = Raise e → exn_cls e = ApplyConflictError.
Proof using Type.
  revert st; induction items as [|item items IH]; intros st Hok; cbn [foldM]; [done|].
  destruct (apply_step refs req clock dm st item) as [st'|e'] eqn:Es; cbn [mbind result_bind]; unfold apply_step in Es.
  - apply IH. destruct (dict_get (qi_queue_item_id item) dm) as [d|]; [|by injection Es as [= <-]].
    apply bind_Ok in Es as (out&Ea&[= <-]). cbn. by eapply apply_item_ok.
  - intros [= <-]. destruct (dict_get (qi_queue_item_id item) dm) as [d|]; [|done].
    destruct (apply_item refs req st.2 item d _) as [out|e''] eqn:Ea; [done|]. injection Es as [= <-].
    by eapply apply_item_raises.
Qed.

(** ** Distinct identifiers: the registry never interferes *)

(** What one decided item gives, without a registry. *)
Definition item_outcome (item : ReviewQueueItem) (decision : ResolutionDecision) (now : string) :
    ResolutionApplyResult :=
  let evidence_refs := resolve_evidence_refs (qi_queue_item_id item) refs in
  match (i ← build_apply_instruction item decision evidence_refs req; validate_instruction i;; Ok i) with
  | Ok i => first_result i now
  | Raise e => validation_failure item decision (qi_queue_item_id item) evidence_refs req (exn_site e) now
  end.

Lemma apply_item_fresh rt item decision now :
  registry_ok rt → dict_get (qi_queue_item_id item) (rt_item_to_decision rt) = None →
  dict_get (rd_decision_id decision) (rt_applied rt) = None →
  ∃ rt', apply_item refs req rt item decision now = Ok (item_outcome item decision now, rt') ∧ registry_ok rt' ∧
    (∀ q, q ≠ qi_queue_item_id item → dict_get q (rt_item_to_decision rt') = dict_get q (rt_item_to_decision rt)) ∧
    (∀ d, d ≠ rd_decision_id decision → dict_get d (rt_applied rt') = dict_get d (rt_applied rt)).
Proof using Type.
  intros Hok Hq Hd. unfold apply_item, item_outcome.
  destruct (build_apply_instruction _ _ _ _) as [i|e] eqn:Eb; cbn [mbind result_bind].
  - destruct (validate_instruction i) as [item'|e] eqn:Ev; cbn [mbind result_bind].
    + destruct (build_Ok _ _ _ _ _ Eb) as (_&_&_&_&Hi).
      assert (Hd' : ai_decision_id i = rd_decision_id decision) by by rewrite Hi.
      assert (Hq' : ai_queue_item_id i = qi_queue_item_id item) by by rewrite Hi.
      pose proof (apply_instruction_cases rt i item' now Hok Ev) as Hc. rewrite Hd', Hq', Hd, Hq in Hc. rewrite Hc.
      exists (recorded rt i now). split_and!; [done|apply recorded_ok; by rewrite ?Hd', ?Hq'|..].
      * intros q Hne. cbn. rewrite dict_get_set. destruct (String.eqb_spec q (ai_queue_item_id i)); [congruence|done].
      * intros d Hne. cbn. rewrite dict_get_set. destruct (String.eqb_spec d (ai_decision_id i)); [congruence|done].
    + unfold apply_instruction. rewrite Ev. cbn [mbind result_bind]. rewrite (validate_raises i e Ev).
      change (exn_isinstance ApplyInstructionError ApplyInstructionError) with true. cbn iota. by exists rt.
  - rewrite (build_raises _ _ _ _ _ Eb).
    change (exn_isinstance ApplyInstructionError ApplyInstructionError) with true. cbn iota. by exists rt.
Qed.

Section Map.
Variable dm : pydict ResolutionDecision.

Definition decided (items : list ReviewQueueItem) : list (ReviewQueueItem * ResolutionDecision) :=
  omap (λ item, (item,.) <$> dict_get (qi_queue_item_id item) dm) items.

(** Different items have decisions with different identifiers. *)
Hypothesis dm_inj : ∀ q q' d d', dict_get q dm = Some d → dict_get q' dm = Some d' →
  rd_decision_id d = rd_decision_id d' → q = q'.

Lemma apply_steps_fresh st items :
  registry_ok st.2 → NoDup (qi_queue_item_id <$> items) →
  (∀ item, item ∈ items → dict_get (qi_queue_item_id item) (rt_item_to_decision st.2) = None) →
  (∀ item d, item ∈ items → dict_get (qi_queue_item_id item) dm = Some d →
    dict_get (rd_decision_id d) (rt_applied st.2) = None) →
  ∃ rt', foldM (apply_step refs req clock dm) st items =
    Ok (st.1 ++ imap (λ k p, item_outcome p.1 p.2 (clock (length st.1 + k)%nat)) (decided items), rt').
Proof using dm_inj.
  revert st; induction items as [|item items IH]; intros [rs rt] Hok Hnd Hq Hd; cbn [fst snd] in *.
  - exists rt. cbn. by rewrite app_nil_r.
  - rewrite fmap_cons in Hnd. apply NoDup_cons in Hnd as [Hni Hnd].
    assert (Hother : ∀ it, it ∈ items → qi_queue_item_id it ≠ qi_queue_item_id item).
    { intros it Hit Heq. apply Hni. rewrite <- Heq. by apply list_elem_of_fmap_2. }
    cbn [foldM].
    assert (Hstep : apply_step refs req clock dm (rs, rt) item =
      match dict_get (qi_queue_item_id item) dm with
      | None => Ok (rs, rt)
      | Some decision => out ← apply_item refs req rt item decision (clock (length rs)); Ok (rs ++ [out.1], out.2)
      end) by reflexivity.
    rewrite Hstep. unfold decided. cbn [omap list_omap]. fold (decided items).
    destruct (dict_get (qi_queue_item_id item) dm) as [dec|] eqn:Edec; cbn [fmap option_fmap option_map mbind result_bind].
    2:{ apply (IH (rs, rt)); cbn; [done|done|..]; intros; [apply Hq; by right|]. eapply Hd; [by right|done]. }
    destruct (apply_item_fresh rt item dec (clock (length rs)) Hok) as (rt1&Ha&Hok1&Hq1&Hd1).
    { apply Hq. left. }
    { eapply Hd; [left|done]. }
    rewrite Ha. cbn [mbind result_bind fst snd].
    destruct (IH (rs ++ [item_outcome item dec (clock (length rs))], rt1)) as [rt2 H2]; cbn [fst snd]; [done|done|..].
    { intros it Hit. rewrite Hq1 by by apply Hother. apply Hq. by right. }
    { intros it d Hit Hdm. rewrite Hd1; [eapply Hd; [by right|done]|].
      intros Heq. apply (Hother it Hit). by eapply dm_inj. }
    exists rt2. rewrite H2. cbn [fst snd]. rewrite imap_cons, <- app_assoc. cbn [app fst snd].
    rewrite Nat.add_0_r. do 4 f_equal. apply imap_ext. intros k p _. cbn [compose].
    rewrite length_app. cbn [length]. do 2 f_equal. lia.
Qed.
End Map.
End Decisions.

Lemma decision_map_Some decisions q d :
  dict_get q (decision_map decisions) = Some d → d ∈ decisions ∧ rd_queue_item_id d = q.
Proof.
  unfold decision_map.
  assert (Hgen : ∀ acc, dict_get q (foldl (λ m d, dict_set (rd_queue_item_id d) d m) acc decisions) = Some d →
    (d ∈ decisions ∧ rd_queue_item_id d = q) ∨ dict_get q acc = Some d).
  { induction decisions as [|d' ds IH]; intros acc; cbn [foldl]; [by right|].
    intros H. apply IH in H as [[H1 H2]|H]; [left; split; [by right|done]|].
    rewrite dict_get_set in H. destruct (String.eqb_spec q (rd_queue_item_id d')) as [->|]; [|by right].
    injection H as [= <-]. left. split; [left|done]. }
  intros H. by apply Hgen in H as [?|?].
Qed.

Lemma decision_map_inj decisions q q' d d' :
  NoDup (rd_decision_id <$> decisions) → dict_get q (decision_map decisions) = Some d →
  dict_get q' (decision_map decisions) = Some d' → rd_decision_id d = rd_decision_id d' → q = q'.
Proof.
  intros Hnd [Hd <-]%decision_map_Some [Hd' <-]%decision_map_Some Heq.
  by rewrite (same_id_eq rd_decision_id decisions d d').
Qed.

(** A batch whose items have distinct queue identifiers and whose
    decisions have distinct decision identifiers is applied item by item, in
    the order of the items, as if the runtime had no memory: the results are
    exactly the outcomes of the decided items, each from its own decision
    alone, and no conflict is ever reported. *)
Theorem apply_decisions_stateless items decisions refs req clock :
  validate_apply_decisions_batch items decisions = Ok tt →
  NoDup (qi_queue_item_id <$> items) → NoDup (rd_decision_id <$> decisions) →
  apply_decisions items decisions refs req clock =
    Ok (imap (λ k p, item_outcome refs req p.1 p.2 (clock k)) (decided (decision_map decisions) items)).
Proof.
  intros Hv Hi Hd. unfold apply_decisions. rewrite Hv. cbn [mbind result_bind].
  destruct (apply_steps_fresh refs req clock (decision_map decisions)
    (λ q q' d d', decision_map_inj decisions q q' d d' Hd) ([], new_runtime) items) as [rt' H];
    [apply new_runtime_ok|done|done|done|]. by rewrite H.
Qed.

Definition sample_clock (k : nat) : string := "2024-05-02T10:00:00+00:00".

Lemma apply_decisions_stateless_witness :
  apply_decisions [sample_item "q-1"; sample_item "q-2"; sample_item "q-3"]
    [sample_decision "dec-3" "q-3"; sample_decision "dec-1" "q-1"] None false sample_clock =
    Ok (imap (λ k p, item_outcome None false p.1 p.2 (sample_clock k))
          (decided (decision_map [sample_decision "dec-3" "q-3"; sample_decision "dec-1" "q-1"])
             [sample_item "q-1"; sample_item "q-2"; sample_item "q-3"])).
Proof.
  refine (apply_decisions_stateless [sample_item "q-1"; sample_item "q-2"; sample_item "q-3"]
    [sample_decision "dec-3" "q-3"; sample_decision "dec-1" "q-1"] None false sample_clock _ _ _).
  - vm_compute. exact eq_refl.
  - apply (bool_decide_eq_true_1 (NoDup ["q-1"; "q-2"; "q-3"])). vm_compute. exact eq_refl.
  - apply (bool_decide_eq_true_1 (NoDup ["dec-3"; "dec-1"])). vm_compute. exact eq_refl.
Defined.

Lemma apply_decisions_raises items decisions refs req clock e :
  apply_decisions items decisions refs req clock = Raise e → exn_cls e = ApplyConflictError.
Proof.
  unfold apply_decisions. destruct (validate_apply_decisions_batch items decisions) as [[]|e'] eqn:Ev.
  - cbn [mbind result_bind].
    destruct (foldM _ ([], new_runtime) items) as [out|e'] eqn:Ef; [done|]. intros [= <-].
    by eapply apply_steps_raise, Ef; apply new_runtime_ok.
  - cbn. intros [= <-]. revert Ev. apply only_raises_bind; [|intros _ _; apply only_raises_bind].
    + unfold check_decision_targets, forM_. generalize tt as u. induction decisions as [|d ds IH]; intros u; cbn [foldM].
      * apply only_raises_Ok.
      * apply only_raises_bind; [apply only_raises_when|intros u' _; apply IH].
    + unfold check_duplicate_targets. generalize (@nil (string * string)) as seen.
      induction decisions as [|d ds IH]; intros seen; cbn [foldM]; [apply only_raises_Ok|].
      apply only_raises_bind; [destruct (dict_get _ seen); [apply only_raises_raise|apply only_raises_Ok]|].
      intros seen' _. apply IH.
    + intros; apply only_raises_Ok.
Qed.

(** ** The state manager *)

Record BatchApplyStateManager := MkManager {
  bm_batches : pydict BatchApplyState.t;
  bm_batch_results : pydict BatchApplyResult;
}.

Definition new_manager : BatchApplyStateManager := MkManager [] [].
Definition get_batch_state (m : BatchApplyStateManager) (batch_id : string) : option BatchApplyState.t :=
  dict_get batch_id (bm_batches m).
Definition manager_is_terminal (m : BatchApplyStateManager) (batch_id : string) : bool :=
  match get_batch_state m batch_id with Some s => is_terminal s | None => false end.
Definition get_batch_result (m : BatchApplyStateManager) (batch_id : string) : option BatchApplyResult :=
  dict_get batch_id (bm_batch_results m).
Definition reset_manager (m : BatchApplyStateManager) : BatchApplyStateManager := new_manager.

Definition set_state (m : BatchApplyStateManager) (batch_id : string) (s : BatchApplyState.t) :
    BatchApplyStateManager :=
  MkManager (dict_set batch_id s (bm_batches m)) (bm_batch_results m).

Definition count_results (p : bool) (l : list ResolutionApplyResult) : Z :=
  Z.of_nat (length (filter (λ r, ar_success r = p) l)).

Definition build_rejected_result (m : BatchApplyStateManager) (batch_id : string)
    (previous_state : BatchApplyState.t) (reason message timestamp : string) : BatchApplyResult :=
  let previous_result := get_batch_result m batch_id in
  let results := match previous_result with Some r => br_results r | None => [] end in
  MkBatchResult batch_id BatchApplyState.REJECTED results
    (JDict [("batch_id", JStr batch_id); ("state", JStr (BatchApplyState.value BatchApplyState.REJECTED));
            ("previous_state", JStr (BatchApplyState.value previous_state)); ("reason", JStr reason);
            ("message", JStr message); ("attempted_at", JStr timestamp);
            ("total_items", JInt (Z.of_nat (length results)));
            ("successful_items", JInt (match previous_result with Some r => applied_count r | None => 0 end));
            ("failed_items", JInt (match previous_result with Some r => failed_count r | None => 0 end));
            ("evidence_refs_tracked", JBool false)])
    (Some message) timestamp true.

Definition build_failed_result (batch_id : string) (previous_state : BatchApplyState.t)
    (results : list ResolutionApplyResult) (error_message timestamp : string) : BatchApplyResult :=
  let total := Z.of_nat (length results) in
  let success_count := count_results true results in
  MkBatchResult batch_id BatchApplyState.FAILED results
    (JDict [("batch_id", JStr batch_id); ("state", JStr (BatchApplyState.value BatchApplyState.FAILED));
            ("previous_state", JStr (BatchApplyState.value previous_state)); ("reason", JStr "apply_failed");
            ("message", JStr error_message); ("attempted_at", JStr timestamp); ("total_items", JInt total);
            ("successful_items", JInt success_count); ("failed_items", JInt (total - success_count));
            ("evidence_refs_tracked", JBool false)])
    (Some error_message) timestamp false.

Definition build_batch_audit (batch_id : string) (previous_state state : BatchApplyState.t) (reason : string)
    (total success_count fail_count : Z) (refs : option (pydict (list string))) (transition_at : string) : json :=
  JDict [("batch_id", JStr batch_id); ("state", JStr (BatchApplyState.value state));
         ("previous_state", JStr (BatchApplyState.value previous_state)); ("reason", JStr reason);
         ("transition_at", JStr transition_at); ("total_items", JInt total);
         ("successful_items", JInt success_count); ("failed_items", JInt fail_count);
         ("evidence_refs_tracked", JBool (match refs with Some _ => true | None => false end));
         ("apply_runtime_version", JStr "v1"); ("batch_state_control_version", JStr "v1")].

(** The result that refuses a batch in the given state, if it is refused. *)
Definition refusal (m : BatchApplyStateManager) (batch_id : string) (now_iso : string) : option BatchApplyResult :=
  match get_batch_state m batch_id with
  | Some BatchApplyState.APPLIED => Some (build_rejected_result m batch_id BatchApplyState.APPLIED
      "duplicate_apply_blocked" ("Batch '" +:+ batch_id +:+ "' has already been applied and is in terminal state. " +:+
        "Re-application is blocked to prevent duplicate effects.") now_iso)
  | Some BatchApplyState.REJECTED => Some (build_rejected_result m batch_id BatchApplyState.REJECTED
      "duplicate_apply_blocked" ("Batch '" +:+ batch_id +:+ "' was previously rejected and cannot be re-applied.") now_iso)
  | Some BatchApplyState.APPLYING => Some (build_rejected_result m batch_id BatchApplyState.APPLYING
      "unsafe_state" ("Batch '" +:+ batch_id +:+ "' is currently in APPLYING state. Cannot re-enter apply.") now_iso)
  | Some BatchApplyState.FAILED | Some BatchApplyState.PENDING | None => None
  end.

(** The outcome once the results are in. *)
Definition finish_batch (m : BatchApplyStateManager) (batch_id : string) (results : list ResolutionApplyResult)
    (refs : option (pydict (list string))) (now_iso transition_at : string) :
    BatchApplyResult * BatchApplyStateManager :=
  let success_count := count_results true results in
  let fail_count := count_results false results in
  let total := Z.of_nat (length results) in
  if (0 <? fail_count) || (total =? 0) then
    (build_failed_result batch_id BatchApplyState.APPLYING results
       (if 0 <? total then "Batch apply partially or fully failed: " +:+ repr_int fail_count +:+ " of " +:+
                           repr_int total +:+ " items failed"
        else "Batch apply produced no results") now_iso,
     set_state m batch_id BatchApplyState.FAILED)
  else
    let batch_result := MkBatchResult batch_id BatchApplyState.APPLIED results
      (build_batch_audit batch_id BatchApplyState.APPLYING BatchApplyState.APPLIED "applied_successfully"
         total success_count fail_count refs transition_at) None now_iso false in
    (batch_result,
     MkManager (dict_set batch_id BatchApplyState.APPLIED (bm_batches m))
               (dict_set batch_id batch_result (bm_batch_results m))).

Definition apply_batch (m : BatchApplyStateManager) (batch_id : string) (items : list ReviewQueueItem)
    (decisions : list ResolutionDecision) (refs : option (pydict (list string))) (req : bool)
    (clock : nat → string) : result BatchApplyResult * BatchApplyStateManager :=
  let now_iso := clock O in
  match refusal m batch_id now_iso with
  | Some r => (Ok r, m)
  | None =>
      let m := set_state m batch_id BatchApplyState.APPLYING in
      match apply_decisions items decisions refs req (λ k, clock (S k)) with
      | Raise e =>
          let m := set_state m batch_id BatchApplyState.FAILED in
          if exn_isinstance (exn_cls e) ApplyConflictError
          then (Ok (build_failed_result batch_id BatchApplyState.APPLYING [] (exn_site e) now_iso), m)
          else (Raise e, m)
      | Ok results =>
          let '(r, m) := finish_batch m batch_id results refs now_iso (clock (S (length results))) in (Ok r, m)
      end
  end.

(** ** The documented life of a batch *)

(** [None] is a batch the manager has not seen. *)
Inductive batch_transition : option BatchApplyState.t → option BatchApplyState.t → Prop :=
  | starts_applied : batch_transition None (Some BatchApplyState.APPLIED)
  | starts_failed : batch_transition None (Some BatchApplyState.FAILED)
  | retry_applied : batch_transition (Some BatchApplyState.FAILED) (Some BatchApplyState.APPLIED)
  | retry_failed : batch_transition (Some BatchApplyState.FAILED) (Some BatchApplyState.FAILED)
  | stays_applied : batch_transition (Some BatchApplyState.APPLIED) (Some BatchApplyState.APPLIED).

(** One call of [apply_batch]. *)
Inductive manager_step (m m' : BatchApplyStateManager) : Prop :=
  | called batch_id items decisions refs req clock r :
      apply_batch m batch_id items decisions refs req clock = (r, m') → manager_step m m'.

Definition manager_reachable (m : BatchApplyStateManager) : Prop := rtc manager_step new_manager m.

(** Between calls: a batch has failed, or has been applied with a stored
    result whose items all succeeded. *)
Definition all_succeeded (l : list ResolutionApplyResult) : Prop := l ≠ [] ∧ Forall (λ r, ar_success r = true) l.

Definition manager_ok (m : BatchApplyStateManager) : Prop :=
  ∀ b, match get_batch_state m b with
       | None | Some BatchApplyState.FAILED => get_batch_result m b = None
       | Some BatchApplyState.APPLIED =>
           ∃ r, get_batch_result m b = Some r ∧ br_state r = BatchApplyState.APPLIED ∧ all_succeeded (br_results r)
       | Some _ => False
       end.

Lemma count_results_succeeded l :
  ((0 <? count_results false l) || (Z.of_nat (length l) =? 0)) = false ↔ all_succeeded l.
Proof.
  unfold count_results, all_succeeded. rewrite orb_false_iff, Z.ltb_ge, Z.eqb_neq. split.
  - intros [Hc Hl]. split; [by intros ->|]. apply Forall_forall. intros r Hr.
    destruct (ar_success r) eqn:E; [done|]. exfalso.
    assert (Hin : r ∈ filter (λ r, ar_success r = false) l) by by apply list_elem_of_filter.
    destruct (filter (λ r, ar_success r = false) l); [by apply elem_of_nil in Hin|cbn in Hc; lia].
  - intros [Hne Hall]. split; [|destruct l; [done|cbn; lia]].
    replace (filter (λ r, ar_success r = false) l) with (@nil ResolutionApplyResult); [cbn; lia|].
    symmetry. clear Hne. induction Hall as [|r l Hr _ IH]; [done|].
    rewrite filter_cons_False; [done|congruence].
Qed.

(** A batch that is not refused: what the call returns and leaves. *)
Lemma apply_batch_attempt m b items decisions refs req clock :
  get_batch_state m b = None ∨ get_batch_state m b = Some BatchApplyState.FAILED →
  (∃ results r, apply_decisions items decisions refs req (λ k, clock (S k)) = Ok results ∧ all_succeeded results ∧
     br_state r = BatchApplyState.APPLIED ∧ br_idempotent r = false ∧ br_results r = results ∧ br_batch_id r = b ∧
     apply_batch m b items decisions refs req clock =
       (Ok r, MkManager (dict_set b BatchApplyState.APPLIED (dict_set b BatchApplyState.APPLYING (bm_batches m)))
                (dict_set b r (bm_batch_results m)))) ∨
  (∃ r, (∀ results, apply_decisions items decisions refs req (λ k, clock (S k)) = Ok results → ¬ all_succeeded results) ∧
     br_state r = BatchApplyState.FAILED ∧ br_batch_id r = b ∧
     apply_batch m b items decisions refs req clock =
       (Ok r, MkManager (dict_set b BatchApplyState.FAILED (dict_set b BatchApplyState.APPLYING (bm_batches m)))
                (bm_batch_results m))).
Proof.
  intros Hs. assert (Hr : refusal m b (clock O) = None) by (unfold refusal; by destruct Hs as [->| ->]).
  unfold apply_batch. rewrite Hr.
  destruct (apply_decisions items decisions refs req (λ k, clock (S k))) as [results|e] eqn:Ea.
  - unfold finish_batch. destruct ((0 <? count_results false results) || _) eqn:Ec.
    + right. eexists. split_and!; last reflexivity; [|done|done]. intros k [= <-] Hk%count_results_succeeded. congruence.
    + left. apply count_results_succeeded in Ec. do 2 eexists. split_and!; last reflexivity; done.
  - right. rewrite (apply_decisions_raises _ _ _ _ _ _ Ea).
    change (exn_isinstance ApplyConflictError ApplyConflictError) with true. cbn iota.
    eexists. split_and!; last reflexivity; done.
Qed.

Lemma dict_get_set2 {V} k k' (v w : V) d :
  dict_get k (dict_set k' v (dict_set k' w d)) = if String.eqb k k' then Some v else dict_get k d.
Proof. rewrite !dict_get_set. by destruct (String.eqb k k'). Qed.

Lemma manager_ok_state m b :
  manager_ok m → get_batch_state m b = None ∨ get_batch_state m b = Some BatchApplyState.FAILED ∨
    get_batch_state m b = Some BatchApplyState.APPLIED.
Proof. intros H. specialize (H b). destruct (get_batch_state m b) as [[]|]; auto; done. Qed.

(** Every call makes a documented transition, keeps the invariant, and leaves
    the other batches alone. *)
Lemma apply_batch_step m b items decisions refs req clock r m' :
  manager_ok m → apply_batch m b items decisions refs req clock = (r, m') →
  manager_ok m' ∧ batch_transition (get_batch_state m b) (get_batch_state m' b) ∧
  (∀ b', b' ≠ b ∨ get_batch_state m b' = Some BatchApplyState.APPLIED →
    get_batch_state m' b' = get_batch_state m b' ∧ get_batch_result m' b' = get_batch_result m b').
Proof.
  intros Hok H. destruct (manager_ok_state m b Hok) as [Hs|[Hs|Hs]].
  1,2: destruct (apply_batch_attempt m b items decisions refs req clock ltac:(by rewrite Hs; auto))
    as [(results&br&_&Hall&Hst&_&Hres&_&E)|(br&_&Hst&_&E)]; rewrite E in H; injection H as [= <- <-];
    (split_and!;
     [intros b'; specialize (Hok b'); unfold get_batch_state, get_batch_result in *;
      cbn [bm_batches bm_batch_results]; rewrite dict_get_set2, ?dict_get_set;
      destruct (String.eqb_spec b' b) as [->|];
        [first [eexists; by rewrite Hres|by rewrite Hs in Hok]|done]
     |rewrite Hs; unfold get_batch_state; cbn [bm_batches]; rewrite dict_get_set2, String.eqb_refl; constructor
     |intros b' Hb'; unfold get_batch_state, get_batch_result in *; cbn [bm_batches bm_batch_results];
      rewrite dict_get_set2, ?dict_get_set; destruct (String.eqb_spec b' b) as [->|];
      [destruct Hb' as [?|Hb']; [done|congruence]|done]]).
  unfold apply_batch, refusal in H. rewrite Hs in H. injection H as [= _ <-]. rewrite Hs. split_and!; [done|constructor|done].
Qed.

Lemma new_manager_ok : manager_ok new_manager.
Proof. by intros b. Qed.

Lemma manager_steps_ok m m' : manager_ok m → rtc manager_step m m' →
  manager_ok m' ∧ ∀ b, get_batch_state m b = Some BatchApplyState.APPLIED →
    get_batch_state m' b = Some BatchApplyState.APPLIED ∧ get_batch_result m' b = get_batch_result m b.
Proof.
  intros Hok H. revert Hok. induction H as [m|m m1 m' [b items decisions refs req clock r Hc] _ IH]; intros Hok.
  - split; [done|]. by intros b ->.
  - destruct (apply_batch_step _ _ _ _ _ _ _ _ _ Hok Hc) as (Hok1&_&Hkeep). destruct (IH Hok1) as [Hok' Hf].
    split; [done|]. intros b' Hb'. destruct (Hkeep b' (or_intror Hb')) as [E1 E2]. rewrite <- E2. apply Hf. congruence.
Qed.

(** C19: The state manager implements the documented life of a batch: in every
    reachable state a call moves its batch only along a documented transition
    (a new or failed batch becomes applied or failed, an applied one stays
    applied) and no other batch at all, a batch is never left in APPLYING,
    and it is APPLIED exactly when a result is stored whose items, at least
    one, all succeeded. *)
Theorem batch_life m b items decisions refs req clock r m' :
  manager_reachable m → apply_batch m b items decisions refs req clock = (r, m') →
  batch_transition (get_batch_state m b) (get_batch_state m' b) ∧
  (∀ b', b' ≠ b → get_batch_state m' b' = get_batch_state m b') ∧
  ∀ b', get_batch_state m' b' = Some BatchApplyState.APPLIED ↔
    ∃ br, get_batch_result m' b' = Some br ∧ br_state br = BatchApplyState.APPLIED ∧ all_succeeded (br_results br).
Proof.
  intros Hr Hc. destruct (manager_steps_ok _ _ new_manager_ok Hr) as [Hok _].
  destruct (apply_batch_step _ _ _ _ _ _ _ _ _ Hok Hc) as (Hok'&Ht&Hkeep). split_and!; [done| |].
  - intros b' Hne. by apply Hkeep; left.
  - intros b'. specialize (Hok' b'). destruct (get_batch_state m' b') as [[]|]; split; try done;
      intros (br&Hbr&_); congruence.
Qed.

Definition sample_batch : result BatchApplyResult * BatchApplyStateManager :=
  apply_batch new_manager "batch-1" [sample_item "q-1"] [sample_decision "dec-1" "q-1"] None false sample_clock.

#[local] Strategy expand [sample_batch].

Lemma batch_life_witness :
  batch_transition None (get_batch_state sample_batch.2 "batch-1").
Proof.
  exact (proj1 (batch_life new_manager "batch-1" [sample_item "q-1"] [sample_decision "dec-1" "q-1"] None false
    sample_clock sample_batch.1 sample_batch.2 (rtc_refl _ _) (surjective_pairing sample_batch))).
Defined.

(** No batch is applied twice: once a batch has been applied, then after
    any further calls on any batches, applying it again runs nothing, changes
    nothing and returns a REJECTED, idempotent result with the results of the
    one application. *)
Theorem applied_batch_final m b items decisions refs req clock m1 items' decisions' refs' req' clock' r :
  manager_reachable m → apply_batch m b items decisions refs req clock = (Ok r, m1) →
  BatchApplyResult_success r = true → ∀ m2, rtc manager_step m1 m2 →
  ∃ r', apply_batch m2 b items' decisions' refs' req' clock' = (Ok r', m2) ∧
    br_state r' = BatchApplyState.REJECTED ∧ br_idempotent r' = true ∧ br_results r' = br_results r.
Proof.
  intros Hr Hc Hsucc m2 Hs. destruct (manager_steps_ok _ _ new_manager_ok Hr) as [Hok _].
  destruct (apply_batch_step _ _ _ _ _ _ _ _ _ Hok Hc) as (Hok1&_&_).
  apply andb_prop in Hsucc as [Hstate%bool_decide_eq_true Hidem].
  assert (Hm1 : get_batch_state m1 b = Some BatchApplyState.APPLIED ∧ get_batch_result m1 b = Some r).
  { destruct (manager_ok_state m b Hok) as [Hst|[Hst|Hst]].
    1,2: destruct (apply_batch_attempt m b items decisions refs req clock ltac:(by rewrite Hst; auto))
      as [(results&br&_&_&_&_&_&_&E)|(br&_&Hf&_&E)]; rewrite E in Hc; injection Hc as [= <- <-]; [|congruence];
      unfold get_batch_state, get_batch_result; cbn [bm_batches bm_batch_results];
      by rewrite dict_get_set2, dict_get_set, String.eqb_refl.
    unfold apply_batch, refusal in Hc. rewrite Hst in Hc. injection Hc as [= <- <-]. done. }
  destruct Hm1 as [Hm1 Hres]. destruct (manager_steps_ok _ _ Hok1 Hs) as [_ Hkeep].
  destruct (Hkeep b Hm1) as [Hst2 Hres2]. unfold apply_batch, refusal. rewrite Hst2.
  eexists. split_and!; [reflexivity|done|done|]. cbn. by rewrite Hres2, Hres.
Qed.

Lemma applied_batch_final_witness :
  ∃ r', apply_batch sample_batch.2 "batch-1" [] [] None false sample_clock = (Ok r', sample_batch.2) ∧
    br_state r' = BatchApplyState.REJECTED ∧ br_idempotent r' = true.
Proof.
  destruct sample_batch.1 as [r|e] eqn:E.
  - assert (Hs : BatchApplyResult_success r = true).
    { assert (Hx : match sample_batch.1 with Ok r => BatchApplyResult_success r | Raise _ => false end = true)
        by by vm_compute. rewrite E in Hx. exact Hx. }
    assert (Hc : sample_batch = (Ok r, sample_batch.2)) by (rewrite <- E; apply surjective_pairing).
    destruct (applied_batch_final new_manager "batch-1" [sample_item "q-1"] [sample_decision "dec-1" "q-1"] None
      false sample_clock sample_batch.2 [] [] None false sample_clock r (rtc_refl _ _) Hc Hs sample_batch.2 (rtc_refl _ _))
      as (r'&H1&H2&H3&_).
    exists r'. split; [exact H1|]. split; [exact H2|exact H3].
  - exfalso. assert (Hx : is_ok sample_batch.1 = true) by by vm_compute. rewrite E in Hx. discriminate Hx.
Defined.
