(* ===== verification/ApplyStore.v ===== *)
(** * The stored state of batches

    reconciliation/apply_state_persistence.py: the batch state manager over
    the two tables of migration 012, one row per batch with its state and the
    JSON of its last result, and one row per transition for the audit.  The
    state APPLYING is committed before a batch is applied and the final state
    after, so a process that dies in between leaves APPLYING behind.  The
    check that the database is not the live one is not modelled; times of
    creation and update are left out. *)

From Stdlib Require Import Ascii ZArith SpecFloat Lia.
From stdpp Require Import base sets strings sorting numbers list.
From S2P Require Import Prelude PyDecimal PyValue Json JsonParse PyDate ReconModels ReviewModels BoundCodec ApplyRuntime BatchApply Snapshot Sqlite.

Open Scope Z_scope.

(** ** Tables *)

Record BatchRow := MkBatchRow {
  bt_batch_id : string;
  bt_current_state : string;
  bt_idempotency_key : option string;
  bt_applied_result_json : option string;
  bt_error_message : option string;
}.

Record TransitionRow := MkTransition {
  tr_batch_id : string;
  tr_previous_state : option string;
  tr_new_state : string;
  tr_reason : string;
  tr_audit_metadata_json : string;
}.

Record ApplyTables := MkTables {
  tb_batches : list BatchRow;
  tb_transitions : list TransitionRow;
}.

Abbreviation StoreDB := (DB ApplyTables).

Definition get_batch_row (batch_id : string) (t : ApplyTables) : option BatchRow :=
  List.find (λ r, String.eqb (bt_batch_id r) batch_id) (tb_batches t).

(** ** JSON of results *)

(** [_serialize_json]: floats do not occur in these values. *)
Definition serialize_json (v : json) : result string :=
  if printable v then Ok (canonical v) else raise ValueError "json.dumps".

Definition resolution_result_to_dict (r : ResolutionApplyResult) : json :=
  JDict [("apply_id", JStr (ar_apply_id r)); ("decision_id", JStr (ar_decision_id r));
         ("queue_item_id", JStr (ar_queue_item_id r)); ("candidate_id", JStr (ar_candidate_id r));
         ("action", JStr (ResolutionAction.value (ar_action r))); ("success", JBool (ar_success r));
         ("payload", ar_payload r); ("error_message", opt_json JStr (ar_error_message r));
         ("audit_evidence", ar_audit_evidence r); ("applied_at", JStr (ar_applied_at r));
         ("reviewer", JStr (ar_reviewer r)); ("note", JStr (ar_note r));
         ("statement_reference", opt_json JStr (ar_statement_reference r));
         ("app_transaction_reference", opt_json JStr (ar_app_transaction_reference r));
         ("idempotent", JBool (ar_idempotent r))].

Definition batch_result_dict (r : BatchApplyResult) : json :=
  JDict [("batch_id", JStr (br_batch_id r)); ("state", JStr (BatchApplyState.value (br_state r)));
         ("results", JList (resolution_result_to_dict <$> br_results r));
         ("audit_metadata", br_audit_metadata r); ("error_message", opt_json JStr (br_error_message r));
         ("batch_applied_at", JStr (br_batch_applied_at r)); ("idempotent", JBool (br_idempotent r))].

Definition serialize_batch_result (r : BatchApplyResult) : result string := serialize_json (batch_result_dict r).

(** Members of a stored object.  [data[k]] must be there; [data.get(k, v)]
    has a default.  The manager writes the types below; a row with a member
    of another type, which Python would carry along, is refused here. *)
Definition json_members (v : json) : result (list (string * json)) :=
  match v with JDict d => Ok d | _ => raise TypeError "not an object" end.
Definition as_text (v : json) : result string :=
  match v with JStr s => Ok s | _ => raise TypeError "not a text" end.
Definition as_opt_text (v : json) : result (option string) :=
  match v with JStr s => Ok (Some s) | JNull => Ok None | _ => raise TypeError "not a text" end.
Definition get_or (d : list (string * json)) (k : string) (default : json) : json :=
  match dict_get k d with Some v => v | None => default end.
Definition text_at (d : list (string * json)) (k : string) : result string := v ← dict_index k d; as_text v.

Definition resolution_result_from_dict (v : json) : result ResolutionApplyResult :=
  d ← json_members v;
  apply_id ← text_at d "apply_id";
  decision_id ← text_at d "decision_id";
  queue_item_id ← text_at d "queue_item_id";
  candidate_id ← as_text (get_or d "candidate_id" (JStr ""));
  action_value ← text_at d "action";
  action ← match enum_of_value action_value with Some a => Ok a | None => raise ValueError "ResolutionAction" end;
  success ← dict_index "success" d;
  error_message ← as_opt_text (get_or d "error_message" JNull);
  applied_at ← as_text (get_or d "applied_at" (JStr ""));
  reviewer ← as_text (get_or d "reviewer" (JStr "human"));
  note ← as_text (get_or d "note" (JStr ""));
  statement_reference ← as_opt_text (get_or d "statement_reference" JNull);
  app_transaction_reference ← as_opt_text (get_or d "app_transaction_reference" JNull);
  Ok (MkApplyResult apply_id decision_id queue_item_id candidate_id action (json_truth success)
        (get_or d "payload" (JDict [])) error_message (get_or d "audit_evidence" (JDict [])) applied_at reviewer note
        statement_reference app_transaction_reference (json_truth (get_or d "idempotent" (JBool false)))).

#[export] Instance batch_state_enum : PyEnum BatchApplyState.t.
Proof.
  refine {| enum_value := BatchApplyState.value;
            enum_members := [BatchApplyState.PENDING; BatchApplyState.APPLYING; BatchApplyState.APPLIED;
                             BatchApplyState.FAILED; BatchApplyState.REJECTED] |}; enumeration.
Defined.

Definition state_of_text (s : string) : result BatchApplyState.t :=
  match enum_of_value s with Some st => Ok st | None => raise ValueError "BatchApplyState" end.

Definition deserialize_batch_result (value : string) : result BatchApplyResult :=
  data ← json_loads value;
  d ← json_members data;
  batch_id ← text_at d "batch_id";
  state_value ← text_at d "state";
  state ← state_of_text state_value;
  results ← match get_or d "results" (JList []) with
            | JList l => mapM resolution_result_from_dict l
            | _ => raise TypeError "results"
            end;
  error_message ← as_opt_text (get_or d "error_message" JNull);
  batch_applied_at ← as_text (get_or d "batch_applied_at" (JStr ""));
  Ok (MkBatchResult batch_id state results (get_or d "audit_metadata" (JDict [])) error_message batch_applied_at
        (json_truth (get_or d "idempotent" (JBool false)))).

(** ** Reading a row *)

Definition state_from_row (row : option BatchRow) : result (option BatchApplyState.t) :=
  match row with Some r => Some <$> state_of_text (bt_current_state r) | None => Ok None end.

Definition result_from_row (row : option BatchRow) : result (option BatchApplyResult) :=
  match row with
  | Some r =>
      match bt_applied_result_json r with
      | Some text =>
          match deserialize_batch_result text with
          | Ok br => Ok (Some br)
          | Raise e =>
              if existsb (exn_isinstance (exn_cls e)) [KeyError; TypeError; ValueError; JSONDecodeError]
              then raise SQLiteBatchApplyStateError ("Stored apply batch result is malformed for batch '" +:+ bt_batch_id r +:+ "'")
              else Raise e
          end
      | None => Ok None
      end
  | None => Ok None
  end.

(** ** Writing *)

Definition state_text (s : option BatchApplyState.t) : option string := BatchApplyState.value <$> s.

(** [_insert_transition]. *)
Definition insert_transition (batch_id : string) (previous_state : option BatchApplyState.t)
    (new_state : BatchApplyState.t) (reason : string) (audit_metadata : json) : StoreDB unit :=
  audit ← lift (serialize_json audit_metadata);
  execute (λ t, Ok (MkTables (tb_batches t)
    (tb_transitions t ++ [MkTransition batch_id (state_text previous_state) (BatchApplyState.value new_state) reason audit]))).

(** The INSERT of a batch; batch_id and the idempotency keys are unique. *)
Definition insert_batch (r : BatchRow) : StoreDB unit :=
  execute (λ t,
    if existsb (λ r', String.eqb (bt_batch_id r') (bt_batch_id r)) (tb_batches t) then raise IntegrityError "batch_id"
    else if existsb (λ r', match bt_idempotency_key r, bt_idempotency_key r' with
                           | Some k, Some k' => String.eqb k k'
                           | _, _ => false
                           end) (tb_batches t) then raise IntegrityError "idempotency_key"
    else Ok (MkTables (tb_batches t ++ [r]) (tb_transitions t))).

(** An UPDATE of the row of a batch. *)
Definition update_batch (batch_id : string) (f : BatchRow → BatchRow) : StoreDB unit :=
  execute (λ t, Ok (MkTables ((λ r, if String.eqb (bt_batch_id r) batch_id then f r else r) <$> tb_batches t)
                      (tb_transitions t))).

Definition mark_applying (r : BatchRow) : BatchRow :=
  MkBatchRow (bt_batch_id r) (BatchApplyState.value BatchApplyState.APPLYING) (bt_idempotency_key r)
    (bt_applied_result_json r) None.
Definition mark_final (state : BatchApplyState.t) (applied_result_json : string) (error_message : option string)
    (r : BatchRow) : BatchRow :=
  MkBatchRow (bt_batch_id r) (BatchApplyState.value state) (bt_idempotency_key r) (Some applied_result_json) error_message.

Definition transition_to_applying (batch_id : string) (previous_state : option BatchApplyState.t)
    (idempotency_key : option string) (timestamp : string) : StoreDB unit :=
  let reason := match previous_state with None => "apply_started" | Some _ => "apply_retry_started" end in
  let metadata :=
    JDict [("batch_id", JStr batch_id); ("state", JStr (BatchApplyState.value BatchApplyState.APPLYING));
           ("previous_state", opt_json JStr (state_text previous_state)); ("reason", JStr reason);
           ("transition_at", JStr timestamp)] in
  match previous_state with
  | None => insert_batch (MkBatchRow batch_id (BatchApplyState.value BatchApplyState.APPLYING) idempotency_key None None)
  | Some _ => update_batch batch_id mark_applying
  end;;
  insert_transition batch_id previous_state BatchApplyState.APPLYING reason metadata;;
  commit.

Definition transition_to_final_state (batch_id : string) (state : BatchApplyState.t) (reason : string)
    (r : BatchApplyResult) : StoreDB unit :=
  text ← lift (serialize_batch_result r);
  update_batch batch_id (mark_final state text (br_error_message r));;
  insert_transition batch_id (Some BatchApplyState.APPLYING) state reason (br_audit_metadata r);;
  commit.

Definition record_rejected_attempt (batch_id : string) (previous_state : BatchApplyState.t) (reason : string)
    (r : BatchApplyResult) : StoreDB unit :=
  insert_transition batch_id (Some previous_state) BatchApplyState.REJECTED reason (br_audit_metadata r);;
  commit.

(** ** Results *)

(** The manager of the store; its methods have the names of the in-memory
    manager's. *)
Module SQLite.

Definition build_rejected_result (batch_id : string) (previous_state : BatchApplyState.t)
    (reason message timestamp : string) (previous_result : option BatchApplyResult) : BatchApplyResult :=
  let results := match previous_result with Some r => br_results r | None => [] end in
  MkBatchResult batch_id BatchApplyState.REJECTED results
    (JDict [("batch_id", JStr batch_id); ("state", JStr (BatchApplyState.value BatchApplyState.REJECTED));
            ("previous_state", JStr (BatchApplyState.value previous_state)); ("reason", JStr reason);
            ("message", JStr message); ("attempted_at", JStr timestamp);
            ("total_items", JInt (Z.of_nat (length results)));
            ("successful_items", JInt (match previous_result with Some r => applied_count r | None => 0 end));
            ("failed_items", JInt (match previous_result with Some r => failed_count r | None => 0 end));
            ("evidence_refs_tracked", JBool false)])
    (Some message) timestamp true.

Definition build_failed_result (batch_id : string) (results : list ResolutionApplyResult)
    (error_message timestamp : string) : BatchApplyResult :=
  let total := Z.of_nat (length results) in
  let success_count := count_results true results in
  MkBatchResult batch_id BatchApplyState.FAILED results
    (JDict [("batch_id", JStr batch_id); ("state", JStr (BatchApplyState.value BatchApplyState.FAILED));
            ("previous_state", JStr (BatchApplyState.value BatchApplyState.APPLYING)); ("reason", JStr "apply_failed");
            ("message", JStr error_message); ("attempted_at", JStr timestamp); ("total_items", JInt total);
            ("successful_items", JInt success_count); ("failed_items", JInt (total - success_count));
            ("evidence_refs_tracked", JBool false)])
    (Some error_message) timestamp false.

Definition build_batch_audit (batch_id : string) (previous_state state : BatchApplyState.t) (reason : string)
    (total success_count fail_count : Z) (refs : option (pydict (list string))) (transition_at : string) : json :=
  JDict [("batch_id", JStr batch_id); ("state", JStr (BatchApplyState.value state));
         ("previous_state", JStr (BatchApplyState.value previous_state)); ("reason", JStr reason);
         ("transition_at", JStr transition_at); ("total_items", JInt total);
         ("successful_items", JInt success_count); ("failed_items", JInt fail_count);
         ("evidence_refs_tracked", JBool (match refs with Some _ => true | None => false end));
         ("apply_runtime_version", JStr "v1"); ("batch_state_control_version", JStr "sqlite-v1")].

(** Why a batch in this state is refused: the reason and the message. *)
Definition refusal_of (batch_id : string) (state : BatchApplyState.t) : option (string * string) :=
  match state with
  | BatchApplyState.APPLIED => Some ("duplicate_apply_blocked", "Batch '" +:+ batch_id +:+
      "' has already been applied and is in terminal state. " +:+ "Re-application is blocked to prevent duplicate effects.")
  | BatchApplyState.REJECTED => Some ("duplicate_apply_blocked", "Batch '" +:+ batch_id +:+
      "' was previously rejected and cannot be re-applied.")
  | BatchApplyState.APPLYING => Some ("unsafe_state", "Batch '" +:+ batch_id +:+
      "' is currently in APPLYING state. Cannot re-enter apply.")
  | BatchApplyState.FAILED | BatchApplyState.PENDING => None
  end.

(** The refusal is recorded next to the state, which does not change. *)
Definition reject (batch_id : string) (row : option BatchRow) (previous_state : BatchApplyState.t)
    (reason message now_iso : string) : StoreDB BatchApplyResult :=
  previous_result ← lift (result_from_row row);
  let r := build_rejected_result batch_id previous_state reason message now_iso previous_result in
  record_rejected_attempt batch_id previous_state reason r;;
  mret r.

(** [type(exc).__name__]. *)
Definition exn_name (c : exn_class) : string :=
  match c with
  | ValueError => "ValueError" | TypeError => "TypeError" | KeyError => "KeyError"
  | AttributeError => "AttributeError" | IndexError => "IndexError"
  | MoneyValidationError => "MoneyValidationError" | CurrencyMismatchError => "CurrencyMismatchError"
  | CreateMoneyValidationError => "CreateMoneyValidationError"
  | InvalidOperation => "InvalidOperation" | DivisionByZero => "DivisionByZero" | DecimalOverflow => "Overflow"
  | StateError => "StateError" | FormatError => "FormatError" | JSONDecodeError => "JSONDecodeError"
  | CanonicalSerializationError => "CanonicalSerializationError"
  | SnapshotVerificationError => "SnapshotVerificationError"
  | UnsupportedSnapshotVersionError => "UnsupportedSnapshotVersionError"
  | SnapshotConflictError => "SnapshotConflictError"
  | LegacySnapshotUnverifiedError => "LegacySnapshotUnverifiedError" | OverflowError => "OverflowError"
  | ApplyInstructionError => "ApplyInstructionError" | ApplyConflictError => "ApplyConflictError"
  | AuditVerificationError => "AuditVerificationError"
  | UnsupportedAuditVersionError => "UnsupportedAuditVersionError"
  | AuditChainConflictError => "AuditChainConflictError" | AuditChainTransactionError => "AuditChainTransactionError"
  | IntegrityError => "IntegrityError" | SQLiteBatchApplyStateError => "SQLiteBatchApplyStateError"
  | GuardedApplyExecutionConflictError => "GuardedApplyExecutionConflictError" | RuntimeError => "RuntimeError"
  | CorrectionSchemaError => "CorrectionSchemaError"
  | DuplicateResolutionPersistenceError => "DuplicateResolutionPersistenceError"
  | ApplyPersistenceConflictError => "ApplyPersistenceConflictError"
  | CorrectionRelationshipError => "CorrectionRelationshipError"
  end.

Definition fail (batch_id : string) (results : list ResolutionApplyResult) (error_message now_iso : string) :
    StoreDB BatchApplyResult :=
  let r := build_failed_result batch_id results error_message now_iso in
  transition_to_final_state batch_id BatchApplyState.FAILED "apply_failed" r;;
  mret r.

(** The final state once the results are in. *)
Definition finish (batch_id : string) (results : list ResolutionApplyResult) (refs : option (pydict (list string)))
    (now_iso transition_at : string) : StoreDB BatchApplyResult :=
  let success_count := count_results true results in
  let fail_count := count_results false results in
  let total := Z.of_nat (length results) in
  if (0 <? fail_count) || (total =? 0) then
    fail batch_id results
      (if 0 <? total then "Batch apply partially or fully failed: " +:+ repr_int fail_count +:+ " of " +:+
                          repr_int total +:+ " items failed"
       else "Batch apply produced no results") now_iso
  else
    let r := MkBatchResult batch_id BatchApplyState.APPLIED results
      (build_batch_audit batch_id BatchApplyState.APPLYING BatchApplyState.APPLIED "applied_successfully"
         total success_count fail_count refs transition_at) None now_iso false in
    transition_to_final_state batch_id BatchApplyState.APPLIED "applied_successfully" r;;
    mret r.

(** What happens between the two commits. *)
Definition run (batch_id : string) (items : list ReviewQueueItem) (decisions : list ResolutionDecision)
    (refs : option (pydict (list string))) (req : bool) (clock : nat → string) : StoreDB BatchApplyResult :=
  match apply_decisions items decisions refs req (λ k, clock (S k)) with
  | Raise e =>
      if exn_isinstance (exn_cls e) ApplyConflictError then fail batch_id [] (exn_site e) (clock O)
      else
        fail batch_id [] ("Unexpected batch apply error: " +:+ exn_name (exn_cls e) +:+ ": " +:+ exn_site e) (clock O);;
        lift (Raise e)
  | Ok results => finish batch_id results refs (clock O) (clock (S (length results)))
  end.

Definition apply_batch (batch_id : string) (items : list ReviewQueueItem) (decisions : list ResolutionDecision)
    (refs : option (pydict (list string))) (req : bool) (idempotency_key : option string) (clock : nat → string) :
    StoreDB BatchApplyResult :=
  row ← read (get_batch_row batch_id);
  previous_state ← lift (state_from_row row);
  match (s ← previous_state; why ← refusal_of batch_id s; Some (s, why)) with
  | Some (s, (reason, message)) => reject batch_id row s reason message (clock O)
  | None =>
      transition_to_applying batch_id previous_state idempotency_key (clock O);;
      run batch_id items decisions refs req clock
  end.

Definition get_batch_state (batch_id : string) : StoreDB (option BatchApplyState.t) :=
  row ← read (get_batch_row batch_id); lift (state_from_row row).

Definition manager_is_terminal (batch_id : string) : StoreDB bool :=
  state ← get_batch_state batch_id;
  mret (match state with Some s => is_terminal s | None => false end).

Definition get_batch_result (batch_id : string) : StoreDB (option BatchApplyResult) :=
  row ← read (get_batch_row batch_id); lift (result_from_row row).

Definition list_transitions (batch_id : string) : StoreDB (list TransitionRow) :=
  read (λ t, filter (λ r, tr_batch_id r = batch_id) (tb_transitions t)).

Definition reset : StoreDB unit := execute (λ _, Ok (MkTables [] []));; commit.

End SQLite.
