(* ===== verification/GuardedExec.v ===== *)
(** * Guarded execution: results, verdicts, fingerprints, review

    The parts of reconciliation/apply_runtime.py without state (the verdict
    on an operation, the result of an execution, the fingerprint of its
    content), the result types of reconciliation/models.py, and the summaries
    of reconciliation/apply_execution_review.py. *)

From Stdlib Require Import Ascii ZArith SpecFloat Lia.
From stdpp Require Import base sets strings sorting numbers list.
From S2P Require Import Prelude Hash Json ReconModels ReviewModels FinalMutation ApplyPlan.

Open Scope Z_scope.

(** ** Results *)

Module ApplyExecutionStatus.
Inductive t := EXECUTED | BLOCKED | PARTIALLY_BLOCKED | UNSUPPORTED | CONFLICT.
Definition value (s : t) : string :=
  match s with
  | EXECUTED => "executed"
  | BLOCKED => "blocked"
  | PARTIALLY_BLOCKED => "partially_blocked"
  | UNSUPPORTED => "unsupported"
  | CONFLICT => "conflict"
  end.
#[global] Instance eq_dec : EqDecision t.
Proof. solve_decision. Defined.
End ApplyExecutionStatus.

Record GuardedOperationResult := MkOpResult {
  or_operation_id : string;
  or_decision_id : string;
  or_execution_status : ApplyExecutionStatus.t;
  or_reason : string;
  or_guard_decision_approved : bool;
  or_guard_decision_idempotency_key : option string;
  or_guard_blocked_reasons : list string;
  or_mutation_type : string;
  or_mutation_payload : json;
}.

Record GuardedApplyExecutionResult := MkExecResult {
  er_plan_id : string;
  er_idempotency_key : string;
  er_execution_status : ApplyExecutionStatus.t;
  er_results : list GuardedOperationResult;
  er_total_operations : Z;
  er_operated_executed : Z;
  er_operated_blocked : Z;
  er_operated_skipped : Z;
  er_block_reason : string;
  er_guard_decision_refs : list string;
  er_executed_at : string;
  er_audit_trail : json;
  er_is_dry_run : bool;
}.

(** ** One operation *)

(** [_op_payload]. *)
Definition op_payload (op : ApplyPlanOperation) : json :=
  JDict
    ([("operation_id", JStr (op_operation_id op)); ("decision_id", JStr (op_decision_id op));
      ("queue_item_id", JStr (op_queue_item_id op)); ("candidate_id", JStr (op_candidate_id op));
      ("action", JStr (ResolutionAction.value (op_action op)));
      ("guard_decision_approved", JBool (op_guard_decision_approved op)); ("is_blocked", JBool (op_is_blocked op));
      ("requires_human_confirmation", JBool (op_requires_human_confirmation op));
      ("statement_ref", opt_json JStr (op_statement_ref op)); ("app_transaction_ref", opt_json JStr (op_app_transaction_ref op));
      ("evidence_refs", json_strs (op_evidence_refs op)); ("note", JStr (op_note op))] ++
     match op_source_apply_result_ref op with
     | Some r => if str_empty r then [] else [("source_apply_result_ref", JStr r)]
     | None => []
     end ++
     match op_guard_blocked_reasons op with
     | [] => []
     | reasons => [("guard_blocked_reasons", json_strs reasons)]
     end).

Definition V1_SUPPORTED_EXECUTION_ACTIONS : list string :=
  ["confirm_match"; "mark_duplicate"; "mark_statement_only"; "ignore"].

Definition reason_texts (gd : FinalMutationGuardDecision) : list string :=
  FinalMutationBlockedReason.value <$> gd_blocked_reasons gd.

(** [_build_blocked_op_result]. *)
Definition build_blocked_op_result (reason : string) (op : ApplyPlanOperation) : GuardedOperationResult :=
  MkOpResult (op_operation_id op) (op_decision_id op) ApplyExecutionStatus.BLOCKED reason false None []
    (ResolutionAction.value (op_action op)) (op_payload op).

(** [_evaluate_operation]. *)
Definition evaluate_operation (op : ApplyPlanOperation) (gd : FinalMutationGuardDecision) : GuardedOperationResult :=
  let action_value := ResolutionAction.value (op_action op) in
  let answer status reason approved reasons :=
    MkOpResult (op_operation_id op) (op_decision_id op) status reason approved None reasons action_value (op_payload op) in
  if negb (bool_decide (action_value ∈ V1_SUPPORTED_EXECUTION_ACTIONS)) then
    answer ApplyExecutionStatus.BLOCKED
      ("Operation '" +:+ op_operation_id op +:+ "' action '" +:+ action_value +:+
       "' is not a supported execution type in v1. Supported: " +:+
       py_join ", " (isort String.leb V1_SUPPORTED_EXECUTION_ACTIONS) +:+ ".") (gd_approved gd) []
  else if negb (gd_approved gd) then
    answer ApplyExecutionStatus.BLOCKED
      ("Guard decision for operation '" +:+ op_operation_id op +:+ "' is not approved. Blocked reasons: " +:+
       (let joined := py_join ", " (reason_texts gd) in if str_empty joined then "unspecified" else joined) +:+ ".")
      false (reason_texts gd)
  else
    match op_source_apply_result_ref op with
    | Some ref =>
        if negb (String.eqb (gd_proposal_id gd) ref) then
          answer ApplyExecutionStatus.BLOCKED
            ("Guard decision proposal_id '" +:+ gd_proposal_id gd +:+
             "' does not match operation source_apply_result_ref '" +:+ ref +:+
             "'. Cross-wiring guard decisions is unsafe.") (gd_approved gd) []
        else
          answer ApplyExecutionStatus.EXECUTED
            ("Operation '" +:+ op_operation_id op +:+ "' executed successfully through guarded apply runtime v1. " +:+
             "Dry-run only -- no final financial records were created or modified.") true []
    | None =>
        answer ApplyExecutionStatus.EXECUTED
          ("Operation '" +:+ op_operation_id op +:+ "' executed successfully through guarded apply runtime v1. " +:+
           "Dry-run only -- no final financial records were created or modified.") true []
    end.

(** ** The result of an execution *)

Definition count_status (results : list GuardedOperationResult) (status : ApplyExecutionStatus.t) : Z :=
  Z.of_nat (length (filter (λ r, or_execution_status r = status) results)).

(** [_build_result]; [now] is the clock's one reading. *)
Definition build_result (plan : ReconciliationApplyPlan) (idempotency_key : string) (status : ApplyExecutionStatus.t)
    (results : list GuardedOperationResult) (block_reason : string) (guard_refs : list string) (now : string) :
    GuardedApplyExecutionResult :=
  let total := Z.of_nat (length results) in
  let e := count_status results ApplyExecutionStatus.EXECUTED in
  let b := count_status results ApplyExecutionStatus.BLOCKED in
  let s := total - e - b in
  let audit :=
    JDict [("plan_id", JStr (plan_id plan)); ("idempotency_key", JStr idempotency_key);
           ("execution_status", JStr (ApplyExecutionStatus.value status)); ("total_operations", JInt total);
           ("operations_executed", JInt e); ("operations_blocked", JInt b); ("operations_skipped", JInt s);
           ("block_reason", JStr block_reason); ("guard_decision_refs", json_strs guard_refs);
           ("runtime_version", JStr "v1"); ("is_dry_run", JBool true);
           ("dry_run_note", JStr ("v1 guarded apply runtime: guard evaluation and result recording only. " +:+
                                  "No final financial records were created or modified."))] in
  MkExecResult (plan_id plan) idempotency_key status results total e b s block_reason guard_refs now audit true.

(** [_build_block_reason]. *)
Definition build_block_reason (results : list GuardedOperationResult) : string :=
  let blocked := filter (λ r, or_execution_status r = ApplyExecutionStatus.BLOCKED) results in
  match blocked with
  | [] => ""
  | _ =>
      let count := Z.of_nat (length blocked) in
      "Blocked operations: " +:+
      py_join "; " (((λ r, or_operation_id r +:+ ": " +:+ or_reason r) <$> take 3 blocked) ++
                    (if 3 <? count then ["... and " +:+ repr_int (count - 3) +:+ " more"] else []))
  end.

(** The guard decisions by operation. *)
Abbreviation guard_map := (pydict FinalMutationGuardDecision).

(** [_missing_guard_ops]: the set of operations without a guard decision. *)
Definition missing_guard_ops (plan : ReconciliationApplyPlan) (guards : guard_map) : list string :=
  remove_dups (filter (λ i, dict_get i guards = None) (op_operation_id <$> plan_operations plan)).

(** What remains of [execute] once no earlier execution answers: the result,
    when a guard decision is missing and when none is. *)
Definition missing_reason (missing : list string) : string :=
  "Missing guard decisions for operation(s): " +:+ py_join ", " (isort String.leb missing) +:+
  ". Every operation in the apply plan must have a corresponding guard decision.".

Definition plan_status (executed blocked : Z) : ApplyExecutionStatus.t :=
  if (0 <? blocked) && (0 <? executed) then ApplyExecutionStatus.PARTIALLY_BLOCKED
  else if (0 <? blocked) || (executed =? 0) then ApplyExecutionStatus.BLOCKED
  else ApplyExecutionStatus.EXECUTED.

Definition guard_of (guards : guard_map) (op : ApplyPlanOperation) : result FinalMutationGuardDecision :=
  match dict_get (op_operation_id op) guards with Some gd => Ok gd | None => raise KeyError (op_operation_id op) end.

Definition fresh_execution (plan : ReconciliationApplyPlan) (guards : guard_map) (idempotency_key now : string) :
    result GuardedApplyExecutionResult :=
  match missing_guard_ops plan guards with
  | [] =>
      results ← mapM (λ op, gd ← guard_of guards op; Ok (evaluate_operation op gd)) (plan_operations plan);
      let executed := count_status results ApplyExecutionStatus.EXECUTED in
      let blocked := count_status results ApplyExecutionStatus.BLOCKED in
      let status := plan_status executed blocked in
      let guard_refs := omap (λ op, gd_proposal_id <$> dict_get (op_operation_id op) guards) (plan_operations plan) in
      Ok (build_result plan idempotency_key status results
            (if bool_decide (status = ApplyExecutionStatus.EXECUTED) then "" else build_block_reason results)
            guard_refs now)
  | missing =>
      let reason := missing_reason missing in
      Ok (build_result plan idempotency_key ApplyExecutionStatus.BLOCKED
            (build_blocked_op_result reason <$> plan_operations plan) reason [] now)
  end.

(** ** The fingerprint *)

Definition guard_summary (gd : option FinalMutationGuardDecision) : json :=
  match gd with
  | Some gd =>
      JDict [("approved", JBool (gd_approved gd)); ("blocked_reasons", json_strs (isort String.leb (reason_texts gd)));
             ("proposal_id", JStr (gd_proposal_id gd)); ("action", JStr (FinalMutationAction.value (gd_action gd)))]
  | None => JDict [("missing", JBool true)]
  end.

Definition fingerprint_operation (guards : guard_map) (op : ApplyPlanOperation) : json :=
  JDict
    [("operation_id", JStr (op_operation_id op)); ("decision_id", JStr (op_decision_id op));
     ("queue_item_id", JStr (op_queue_item_id op)); ("candidate_id", JStr (op_candidate_id op));
     ("action", JStr (ResolutionAction.value (op_action op)));
     ("guard_decision_approved", JBool (op_guard_decision_approved op));
     ("guard_blocked_reasons", json_strs (isort String.leb (op_guard_blocked_reasons op)));
     ("is_blocked", JBool (op_is_blocked op));
     ("requires_human_confirmation", JBool (op_requires_human_confirmation op));
     ("source_apply_result_ref", opt_json JStr (op_source_apply_result_ref op));
     ("guard_decision", guard_summary (dict_get (op_operation_id op) guards))].

Definition execution_material (plan : ReconciliationApplyPlan) (guards : guard_map) (idempotency_key : string) : json :=
  JDict [("plan_id", JStr (plan_id plan)); ("idempotency_key", JStr idempotency_key);
         ("operations", JList (fingerprint_operation guards <$>
            isort (λ o p, String.leb (op_operation_id o) (op_operation_id p)) (plan_operations plan)))].

(** [_build_execution_fingerprint]. *)
Definition build_execution_fingerprint (plan : ReconciliationApplyPlan) (guards : guard_map) (idempotency_key : string) :
    string :=
  hexdigest (sha256 (encode (canonical (execution_material plan guards idempotency_key)))).

(** ** Review summaries *)

Record GuardedApplyExecutionReviewSummary := MkExecSummary {
  es_plan_id : string;
  es_idempotency_key : string;
  es_execution_status : ApplyExecutionStatus.t;
  es_total_operations : Z;
  es_operations_executed : Z;
  es_operations_blocked : Z;
  es_operations_skipped : Z;
  es_approved_operation_count : Z;
  es_blocked_operation_count : Z;
  es_unsupported_operation_count : Z;
  es_conflict_operation_count : Z;
  es_mutation_types : list string;
  es_guard_decision_refs : list string;
  es_is_dry_run : bool;
  es_executed_at : string;
  es_block_reason : string;
  es_has_blocking_outcome : bool;
  es_requires_human_review : bool;
  es_review_priority : ReviewPriority.t;
  es_human_summary : string;
}.

Definition collect_mutation_types (results : list GuardedOperationResult) : list string :=
  isort String.leb (remove_dups (filter (λ t, str_empty t = false) (or_mutation_type <$> results))).

Definition blocking_status (s : ApplyExecutionStatus.t) : bool :=
  bool_decide (s ∈ [ApplyExecutionStatus.BLOCKED; ApplyExecutionStatus.PARTIALLY_BLOCKED; ApplyExecutionStatus.CONFLICT]).

Definition has_blocking_outcome (r : GuardedApplyExecutionResult) : bool := blocking_status (er_execution_status r).

Definition requires_human_review (r : GuardedApplyExecutionResult) : bool :=
  if has_blocking_outcome r then true
  else if bool_decide (er_execution_status r = ApplyExecutionStatus.UNSUPPORTED) then true
  else existsb (λ o, bool_decide (or_execution_status o = ApplyExecutionStatus.UNSUPPORTED) ||
                     blocking_status (or_execution_status o)) (er_results r).

Definition derive_review_priority (r : GuardedApplyExecutionResult) : ReviewPriority.t :=
  if has_blocking_outcome r then ReviewPriority.HIGH
  else if bool_decide (er_execution_status r = ApplyExecutionStatus.UNSUPPORTED) then ReviewPriority.MEDIUM
  else if existsb (λ o, blocking_status (or_execution_status o)) (er_results r) then ReviewPriority.HIGH
  else if existsb (λ o, bool_decide (or_execution_status o = ApplyExecutionStatus.UNSUPPORTED)) (er_results r)
  then ReviewPriority.MEDIUM
  else if er_is_dry_run r && negb (is_nil (er_results r)) then ReviewPriority.MEDIUM
  else ReviewPriority.LOW.

Definition build_human_summary (status : ApplyExecutionStatus.t) (executed blocked skipped : Z) (is_dry_run : bool) :
    string :=
  let counts := repr_int executed +:+ " executed, " +:+ repr_int blocked +:+ " blocked, " +:+ repr_int skipped +:+ " skipped." in
  match status with
  | ApplyExecutionStatus.BLOCKED => "Execution blocked: " +:+ counts
  | ApplyExecutionStatus.PARTIALLY_BLOCKED => "Execution partially blocked: " +:+ counts
  | ApplyExecutionStatus.CONFLICT => "Execution conflict: " +:+ counts
  | ApplyExecutionStatus.UNSUPPORTED => "Execution unsupported: " +:+ counts
  | ApplyExecutionStatus.EXECUTED =>
      if is_dry_run
      then "Execution completed as dry-run: " +:+ repr_int executed +:+ " operations reviewed, " +:+ repr_int executed +:+
           " would execute."
      else "Execution completed: " +:+ counts
  end.

Definition count_guard (approved : bool) (results : list GuardedOperationResult) : Z :=
  Z.of_nat (length (filter (λ r, or_guard_decision_approved r = approved) results)).

Definition build_guarded_apply_execution_review_summary (r : GuardedApplyExecutionResult) :
    GuardedApplyExecutionReviewSummary :=
  let results := er_results r in
  let executed := count_status results ApplyExecutionStatus.EXECUTED in
  let blocked := count_status results ApplyExecutionStatus.BLOCKED in
  let skipped := Z.of_nat (length results) - executed - blocked in
  MkExecSummary (er_plan_id r) (er_idempotency_key r) (er_execution_status r) (er_total_operations r) executed blocked skipped
    (count_guard true results) (count_guard false results)
    (count_status results ApplyExecutionStatus.UNSUPPORTED) (count_status results ApplyExecutionStatus.CONFLICT)
    (collect_mutation_types results) (er_guard_decision_refs r) (er_is_dry_run r) (er_executed_at r) (er_block_reason r)
    (has_blocking_outcome r) (requires_human_review r) (derive_review_priority r)
    (build_human_summary (er_execution_status r) executed blocked skipped (er_is_dry_run r)).

Definition review_priority_rank (p : ReviewPriority.t) : Z :=
  match p with ReviewPriority.HIGH => 0 | ReviewPriority.MEDIUM => 1 | ReviewPriority.LOW => 2 end.
