(* ===== verification/ExecStore.v ===== *)
(** * The stored executions

    reconciliation/apply_runtime_persistence.py: the repository over the two
    tables of migration 014, one row per execution, keyed by its idempotency
    key, and one per operation result.  A value read from a row has the type
    the repository writes there; a row with a value of another type, which
    Python would carry along, is refused here. *)

From Stdlib Require Import Ascii ZArith SpecFloat Lia.
From stdpp Require Import base sets strings sorting numbers list.
From S2P Require Import Prelude PyValue Hash Json JsonParse ReconModels ReviewModels BoundCodec FinalMutation ApplyPlan Snapshot Sqlite GuardedExec.

Open Scope Z_scope.

(** ** Tables *)

Record ExecutionRow := MkExecRow {
  xr_execution_id : string;
  xr_plan_id : string;
  xr_idempotency_key : string;
  xr_execution_fingerprint : string;
  xr_execution_status : string;
  xr_total_operations : Z;
  xr_operations_executed : Z;
  xr_operations_blocked : Z;
  xr_operations_skipped : Z;
  xr_block_reason : string;
  xr_guard_decision_refs_json : string;
  xr_audit_trail_json : string;
  xr_is_dry_run : bool;
  xr_executed_at : string;
}.

Record OperationRow := MkOpRow {
  pr_operation_result_id : string;
  pr_execution_id : string;
  pr_operation_id : string;
  pr_decision_id : string;
  pr_execution_status : string;
  pr_reason : string;
  pr_guard_decision_approved : bool;
  pr_guard_decision_idempotency_key : option string;
  pr_guard_blocked_reasons_json : string;
  pr_mutation_type : string;
  pr_mutation_payload_json : string;
}.

Record ExecTables := MkExecTables {
  xt_executions : list ExecutionRow;
  xt_operations : list OperationRow;
}.

Abbreviation ExecDB := (DB ExecTables).

(** ** Serialization *)

(** [_serialize_json]: its values hold no floats and need no [default]. *)
Definition serialize_value (v : json) : result string :=
  if printable v then Ok (canonical v) else raise ValueError "json.dumps".

Definition json_text (v : json) : result string :=
  match v with JStr s => Ok s | _ => raise TypeError "not a text" end.

Definition deserialize_tuple (raw : string) : result (list string) :=
  if str_empty raw then Ok []
  else v ← json_loads raw; match v with JList l => mapM json_text l | _ => Ok [] end.

Definition deserialize_dict (raw : string) : result json :=
  if str_empty raw then Ok (JDict [])
  else v ← json_loads raw; Ok (match v with JDict d => JDict d | _ => JDict [] end).

(** [_derive_execution_id], which [_derive_prior_execution_id] of the
    orchestrator repeats. *)
Definition derive_execution_id (plan_id idempotency_key : string) : string :=
  "exec-" +:+ of_chars (take 16 (chars (hexdigest (sha256 (encode (plan_id +:+ "|" +:+ idempotency_key)))))).

#[export] Instance execution_status_enum : PyEnum ApplyExecutionStatus.t.
Proof.
  refine {| enum_value := ApplyExecutionStatus.value;
            enum_members := [ApplyExecutionStatus.EXECUTED; ApplyExecutionStatus.BLOCKED;
                             ApplyExecutionStatus.PARTIALLY_BLOCKED; ApplyExecutionStatus.UNSUPPORTED;
                             ApplyExecutionStatus.CONFLICT] |}; enumeration.
Defined.

Definition status_of_text (s : string) : result ApplyExecutionStatus.t :=
  match enum_of_value s with Some st => Ok st | None => raise ValueError "ApplyExecutionStatus" end.

(** ** Writing *)

(** Whole numbers the database stores. *)
Definition fits_column (n : Z) : bool := (-9223372036854775808 <=? n) && (n <=? 9223372036854775807).

(** The INSERT of an execution, under the constraints of its table. *)
Definition insert_execution_row (r : ExecutionRow) : ExecDB unit :=
  execute (λ t,
    let counts := [xr_total_operations r; xr_operations_executed r; xr_operations_blocked r; xr_operations_skipped r] in
    raise_when (negb (forallb fits_column counts)) OverflowError "INTEGER";;
    raise_when (existsb (λ r', String.eqb (xr_execution_id r') (xr_execution_id r)) (xt_executions t)) IntegrityError
      "execution_id";;
    raise_when (existsb (λ r', String.eqb (xr_idempotency_key r') (xr_idempotency_key r)) (xt_executions t)) IntegrityError
      "idempotency_key";;
    raise_when (negb (forallb (λ n, 0 <=? n) counts)) IntegrityError "CHECK";;
    raise_when (negb (xr_operations_executed r + xr_operations_blocked r + xr_operations_skipped r =? xr_total_operations r))
      IntegrityError "CHECK";;
    Ok (MkExecTables (xt_executions t ++ [r]) (xt_operations t))).

Definition insert_operation_row (r : OperationRow) : ExecDB unit :=
  execute (λ t,
    raise_when (existsb (λ r', String.eqb (pr_operation_result_id r') (pr_operation_result_id r)) (xt_operations t))
      IntegrityError "operation_result_id";;
    raise_when (existsb (λ r', String.eqb (pr_execution_id r') (pr_execution_id r) &&
                               String.eqb (pr_operation_id r') (pr_operation_id r)) (xt_operations t))
      IntegrityError "execution_id, operation_id";;
    Ok (MkExecTables (xt_executions t) (xt_operations t ++ [r]))).

(** [_insert_execution]. *)
Definition insert_execution (r : GuardedApplyExecutionResult) (fingerprint : string) : ExecDB unit :=
  refs ← lift (serialize_value (json_strs (er_guard_decision_refs r)));
  audit ← lift (serialize_value (er_audit_trail r));
  insert_execution_row
    (MkExecRow (derive_execution_id (er_plan_id r) (er_idempotency_key r)) (er_plan_id r) (er_idempotency_key r) fingerprint
       (ApplyExecutionStatus.value (er_execution_status r)) (er_total_operations r) (er_operated_executed r)
       (er_operated_blocked r) (er_operated_skipped r) (er_block_reason r) refs audit (er_is_dry_run r) (er_executed_at r)).

Definition insert_operation_result (execution_id : string) (o : GuardedOperationResult) : ExecDB unit :=
  reasons ← lift (serialize_value (json_strs (or_guard_blocked_reasons o)));
  payload ← lift (serialize_value (or_mutation_payload o));
  insert_operation_row
    (MkOpRow (execution_id +:+ "-" +:+ or_operation_id o) execution_id (or_operation_id o) (or_decision_id o)
       (ApplyExecutionStatus.value (or_execution_status o)) (or_reason o) (or_guard_decision_approved o)
       (or_guard_decision_idempotency_key o) reasons (or_mutation_type o) payload).

(** [_insert_operation_results]. *)
Fixpoint insert_operation_results (execution_id : string) (results : list GuardedOperationResult) : ExecDB unit :=
  match results with
  | [] => mret tt
  | o :: results => insert_operation_result execution_id o;; insert_operation_results execution_id results
  end.

Definition find_execution (idempotency_key : string) (t : ExecTables) : option ExecutionRow :=
  List.find (λ r, String.eqb (xr_idempotency_key r) idempotency_key) (xt_executions t).

(** [save_execution_result]. *)
Definition save_execution_result (r : GuardedApplyExecutionResult) (fingerprint : string) : ExecDB bool :=
  existing ← read (find_execution (er_idempotency_key r));
  match existing with
  | Some row =>
      if String.eqb (xr_execution_fingerprint row) fingerprint then mret false
      else lift (raise GuardedApplyExecutionConflictError "idempotency key with another fingerprint")
  | None =>
      savepoint
        (insert_execution r fingerprint;;
         insert_operation_results (derive_execution_id (er_plan_id r) (er_idempotency_key r)) (er_results r));;
      mret true
  end.

(** ** Reading *)

(** [_op_row_to_result]. *)
Definition op_row_to_result (r : OperationRow) : result GuardedOperationResult :=
  status ← status_of_text (pr_execution_status r);
  reasons ← deserialize_tuple (pr_guard_blocked_reasons_json r);
  payload ← deserialize_dict (pr_mutation_payload_json r);
  Ok (MkOpResult (pr_operation_id r) (pr_decision_id r) status (pr_reason r) (pr_guard_decision_approved r)
        (pr_guard_decision_idempotency_key r) reasons (pr_mutation_type r) payload).

Definition operation_rows (execution_id : string) (t : ExecTables) : list OperationRow :=
  isort (λ r r', String.leb (pr_operation_id r) (pr_operation_id r'))
    (filter (λ r, pr_execution_id r = execution_id) (xt_operations t)).

Definition list_operation_results (execution_id : string) : ExecDB (list GuardedOperationResult) :=
  rows ← read (operation_rows execution_id); lift (mapM op_row_to_result rows).

(** [_row_to_result]. *)
Definition row_to_result (row : ExecutionRow) : ExecDB GuardedApplyExecutionResult :=
  op_rows ← read (operation_rows (xr_execution_id row));
  results ← lift (mapM op_row_to_result op_rows);
  guard_refs ← lift (deserialize_tuple (xr_guard_decision_refs_json row));
  audit_trail ← lift (deserialize_dict (xr_audit_trail_json row));
  status ← lift (status_of_text (xr_execution_status row));
  mret (MkExecResult (xr_plan_id row) (xr_idempotency_key row) status results (xr_total_operations row)
          (xr_operations_executed row) (xr_operations_blocked row) (xr_operations_skipped row) (xr_block_reason row)
          guard_refs (xr_executed_at row) audit_trail (xr_is_dry_run row)).

Definition opt_row_to_result (row : option ExecutionRow) : ExecDB (option GuardedApplyExecutionResult) :=
  match row with Some row => r ← row_to_result row; mret (Some r) | None => mret None end.

Definition get_by_idempotency_key (idempotency_key : string) : ExecDB (option GuardedApplyExecutionResult) :=
  row ← read (find_execution idempotency_key); opt_row_to_result row.

Definition get_by_execution_id (execution_id : string) : ExecDB (option GuardedApplyExecutionResult) :=
  row ← read (λ t, List.find (λ r, String.eqb (xr_execution_id r) execution_id) (xt_executions t)); opt_row_to_result row.

Fixpoint rows_to_results (rows : list ExecutionRow) : ExecDB (list GuardedApplyExecutionResult) :=
  match rows with
  | [] => mret []
  | row :: rows => r ← row_to_result row; rs ← rows_to_results rows; mret (r :: rs)
  end.

(** Newest first, by key among those of one time. *)
Definition timeline_leb (r r' : ExecutionRow) : bool :=
  lex_leb (λ a b, String.leb b a) String.leb (xr_executed_at r, xr_idempotency_key r) (xr_executed_at r', xr_idempotency_key r').

Definition list_execution_results (execution_status : option ApplyExecutionStatus.t) :
    ExecDB (list GuardedApplyExecutionResult) :=
  rows ← read (λ t, isort timeline_leb
    (match execution_status with
     | Some s => filter (λ r, xr_execution_status r = ApplyExecutionStatus.value s) (xt_executions t)
     | None => xt_executions t
     end));
  rows_to_results rows.

Definition has_idempotency_key (idempotency_key : string) : ExecDB bool :=
  row ← read (find_execution idempotency_key); mret (match row with Some _ => true | None => false end).

Definition get_idempotency_fingerprint (idempotency_key : string) : ExecDB (option string) :=
  row ← read (find_execution idempotency_key); mret (xr_execution_fingerprint <$> row).

(** ** Summaries of what is stored *)

Definition summarize_guarded_apply_execution_from_repository (idempotency_key execution_id : option string) :
    ExecDB (option GuardedApplyExecutionReviewSummary) :=
  match idempotency_key, execution_id with
  | Some _, Some _ => lift (raise ValueError "Supply exactly one of idempotency_key or execution_id, not both.")
  | None, None => lift (raise ValueError "Supply exactly one of idempotency_key or execution_id.")
  | Some k, None => r ← get_by_idempotency_key k; mret (build_guarded_apply_execution_review_summary <$> r)
  | None, Some i => r ← get_by_execution_id i; mret (build_guarded_apply_execution_review_summary <$> r)
  end.

(** Three stable sorts: by key, then newest first, then by priority. *)
Definition list_guarded_apply_execution_review_summaries (execution_status : option ApplyExecutionStatus.t)
    (requires_human_review : option bool) (limit : option Z) : ExecDB (list GuardedApplyExecutionReviewSummary) :=
  lift (raise_when (match limit with Some n => n <? 0 | None => false end) ValueError "limit must be non-negative.");;
  results ← list_execution_results execution_status;
  let summaries := build_guarded_apply_execution_review_summary <$> results in
  let summaries := match requires_human_review with
                   | Some b => filter (λ s, es_requires_human_review s = b) summaries
                   | None => summaries
                   end in
  let by_key := isort (λ s s', String.leb (es_idempotency_key s) (es_idempotency_key s')) summaries in
  let by_time := isort (λ s s', String.leb (es_executed_at s') (es_executed_at s)) by_key in
  let sorted := isort (λ s s', review_priority_rank (es_review_priority s) <=? review_priority_rank (es_review_priority s')) by_time in
  mret (match limit with Some n => take (Z.to_nat n) sorted | None => sorted end).
