(* ===== verification/GuardedRuntime.v ===== *)
(** * The guarded runtime, the orchestrator and the adapter

    reconciliation/apply_runtime.py ([GuardedApplyRuntime], its registry in
    memory and its optional repository), reconciliation/apply_orchestrator.py
    and reconciliation/final_transaction_adapter.py: from plan inputs and guard
    decisions to the statement whether a final mutation may be proposed.  The
    runtime's methods change its registry and its database also when they
    raise, so [execute] returns the outcome next to the new runtime.  The
    clock is read once. *)

From Stdlib Require Import Ascii ZArith SpecFloat Lia.
From stdpp Require Import base sets strings sorting numbers list.
From S2P Require Import Prelude PyValue Hash Json ReconModels ReviewModels FinalMutation ApplyPlan Sqlite GuardedExec ExecStore.

Open Scope Z_scope.

(** ** The runtime *)

Record GuardedApplyRuntime := MkGuardedRuntime {
  (** by idempotency key: the plan, the fingerprint and the result *)
  gr_executed : pydict (string * string * GuardedApplyExecutionResult);
  (** the connection of the repository, if there is one *)
  gr_repository : option (Connection ExecTables);
}.

Definition new_guarded_runtime (repository : option (Connection ExecTables)) : GuardedApplyRuntime := MkGuardedRuntime [] repository.
Definition has_persistence (rt : GuardedApplyRuntime) : bool :=
  match gr_repository rt with Some _ => true | None => false end.

Definition remember (rt : GuardedApplyRuntime) (key : string) (entry : string * string * GuardedApplyExecutionResult) :
    GuardedApplyRuntime :=
  MkGuardedRuntime (dict_set key entry (gr_executed rt)) (gr_repository rt).

(** A refusal of every operation of the plan. *)
Definition conflict_result (plan : ReconciliationApplyPlan) (key op_reason block_reason now : string) :
    GuardedApplyExecutionResult :=
  build_result plan key ApplyExecutionStatus.CONFLICT (build_blocked_op_result op_reason <$> plan_operations plan)
    block_reason [] now.

(** [_check_idempotency]. *)
Definition check_idempotency (rt : GuardedApplyRuntime) (plan : ReconciliationApplyPlan) (key fingerprint now : string) :
    option GuardedApplyExecutionResult :=
  match dict_get key (gr_executed rt) with
  | None => None
  | Some (prev_plan_id, prev_fingerprint, prev_result) =>
      if negb (String.eqb prev_plan_id (plan_id plan)) then
        Some (conflict_result plan key
          ("Idempotency key '" +:+ key +:+ "' already used for plan '" +:+ prev_plan_id +:+
           "'. Same key with different plan is a conflict.")
          ("Idempotency key '" +:+ key +:+ "' already used for plan '" +:+ prev_plan_id +:+
           "'. Reusing the same key with a different plan ('" +:+ plan_id plan +:+ "') is a conflict.") now)
      else if negb (String.eqb prev_fingerprint fingerprint) then
        Some (conflict_result plan key
          ("Idempotency key '" +:+ key +:+ "' reused with different plan content (fingerprint mismatch).")
          ("Idempotency key '" +:+ key +:+ "' reused with materially different plan content (fingerprint mismatch).") now)
      else Some prev_result
  end.

(** [_check_durable_idempotency]: an answer, and the registry it warms. *)
Definition durable_answer (plan : ReconciliationApplyPlan) (key fingerprint now : string) :
    ExecDB (option (GuardedApplyExecutionResult * bool)) :=
  cached ← get_by_idempotency_key key;
  match cached with
  | None => mret None
  | Some cached =>
      stored_fp ← get_idempotency_fingerprint key;
      if bool_decide (stored_fp = Some fingerprint) then mret (Some (cached, true))
      else
        mret (Some (conflict_result plan key
          ("Idempotency key '" +:+ key +:+ "' reused with different plan content (fingerprint mismatch against persisted state).")
          ("Idempotency key '" +:+ key +:+
           "' reused with materially different plan content (fingerprint mismatch against persisted state).") now, false))
  end.

Definition check_durable_idempotency (rt : GuardedApplyRuntime) (plan : ReconciliationApplyPlan)
    (key fingerprint now : string) : result (option GuardedApplyExecutionResult) * GuardedApplyRuntime :=
  match gr_repository rt with
  | None => (Ok None, rt)
  | Some c =>
      let '(answer, c) := durable_answer plan key fingerprint now c in
      let rt := MkGuardedRuntime (gr_executed rt) (Some c) in
      match answer with
      | Ok (Some (r, true)) => (Ok (Some r), remember rt key (er_plan_id r, fingerprint, r))
      | Ok (Some (r, false)) => (Ok (Some r), rt)
      | Ok None => (Ok None, rt)
      | Raise e => (Raise e, rt)
      end
  end.

(** [_persist_if_configured]. *)
Definition persist_if_configured (rt : GuardedApplyRuntime) (r : GuardedApplyExecutionResult) (fingerprint : string) :
    result unit * GuardedApplyRuntime :=
  match gr_repository rt with
  | None => (Ok tt, rt)
  | Some c =>
      let '(x, c) := save_execution_result r fingerprint c in
      ((x;; Ok tt), MkGuardedRuntime (gr_executed rt) (Some c))
  end.

(** The first execution under a key: remembered, then stored. *)
Definition execute_first (rt : GuardedApplyRuntime) (plan : ReconciliationApplyPlan) (guards : guard_map)
    (key fingerprint now : string) : result GuardedApplyExecutionResult * GuardedApplyRuntime :=
  match fresh_execution plan guards key now with
  | Raise e => (Raise e, rt)
  | Ok r =>
      let '(x, rt) := persist_if_configured (remember rt key (plan_id plan, fingerprint, r)) r fingerprint in
      ((x;; Ok r), rt)
  end.

(** [GuardedApplyRuntime.execute]. *)
Definition execute_plan (rt : GuardedApplyRuntime) (plan : ReconciliationApplyPlan) (guards : guard_map) (key now : string) :
    result GuardedApplyExecutionResult * GuardedApplyRuntime :=
  if str_empty key then (raise ValueError "idempotency_key must not be empty", rt)
  else if is_nil (plan_operations plan) then
    (Ok (build_result plan key ApplyExecutionStatus.UNSUPPORTED [] "Plan contains no operations to execute." [] now), rt)
  else
    let fingerprint := build_execution_fingerprint plan guards key in
    match check_durable_idempotency rt plan key fingerprint now with
    | (Raise e, rt) => (Raise e, rt)
    | (Ok (Some r), rt) => (Ok r, rt)
    | (Ok None, rt) =>
        match check_idempotency rt plan key fingerprint now with
        | Some r => (Ok r, rt)
        | None => execute_first rt plan guards key fingerprint now
        end
    end.

Definition reset_runtime (rt : GuardedApplyRuntime) : GuardedApplyRuntime := MkGuardedRuntime [] (gr_repository rt).

Definition is_executed (rt : GuardedApplyRuntime) (key : string) : bool :=
  match dict_get key (gr_executed rt) with
  | Some _ => true
  | None =>
      match gr_repository rt with
      | Some c => match find_execution key (cn_tables c) with Some _ => true | None => false end
      | None => false
      end
  end.

(** A fresh runtime without a repository. *)
Definition execute_apply_plan_guarded (plan : ReconciliationApplyPlan) (guards : guard_map) (key now : string) :
    result GuardedApplyExecutionResult :=
  (execute_plan (new_guarded_runtime None) plan guards key now).1.

(** ** The orchestrator *)

Module ApplyOrchestrationStatus.
Inductive t := COMPLETED | BLOCKED | PARTIALLY_BLOCKED | REQUIRES_REVIEW | CONFLICT | UNSUPPORTED.
Definition value (s : t) : string :=
  match s with
  | COMPLETED => "completed"
  | BLOCKED => "blocked"
  | PARTIALLY_BLOCKED => "partially_blocked"
  | REQUIRES_REVIEW => "requires_review"
  | CONFLICT => "conflict"
  | UNSUPPORTED => "unsupported"
  end.
#[global] Instance eq_dec : EqDecision t.
Proof. solve_decision. Defined.
End ApplyOrchestrationStatus.

Record ApplyOrchestrationInput := MkOrchInput {
  oi_plan_inputs : list ApplyPlanInput;
  oi_guard_decisions_by_operation_id : guard_map;
  oi_idempotency_key : string;
  oi_plan_label : string;
}.

Record ApplyOrchestrationResult := MkOrchResult {
  oo_status : ApplyOrchestrationStatus.t;
  oo_plan : ReconciliationApplyPlan;
  oo_execution_result : GuardedApplyExecutionResult;
  oo_review_summary : GuardedApplyExecutionReviewSummary;
  oo_persisted : bool;
  oo_persistence_enabled : bool;
  oo_idempotency_key : string;
  oo_orchestration_note : string;
}.

(** [_derive_orchestration_status]; the case for statuses to come is void. *)
Definition derive_orchestration_status (r : GuardedApplyExecutionResult) : ApplyOrchestrationStatus.t :=
  match er_execution_status r with
  | ApplyExecutionStatus.EXECUTED => ApplyOrchestrationStatus.COMPLETED
  | ApplyExecutionStatus.BLOCKED => ApplyOrchestrationStatus.BLOCKED
  | ApplyExecutionStatus.PARTIALLY_BLOCKED => ApplyOrchestrationStatus.PARTIALLY_BLOCKED
  | ApplyExecutionStatus.CONFLICT => ApplyOrchestrationStatus.CONFLICT
  | ApplyExecutionStatus.UNSUPPORTED => ApplyOrchestrationStatus.UNSUPPORTED
  end.

(** [_did_persist_new_row]. *)
Definition did_persist_new_row (r : GuardedApplyExecutionResult) (persistence_enabled : bool) (existed_before : option bool) :
    bool :=
  if negb persistence_enabled then false
  else if bool_decide (er_execution_status r = ApplyExecutionStatus.CONFLICT) then false
  else match existed_before with Some b => negb b | None => true end.

Definition build_orchestration_note (status : ApplyOrchestrationStatus.t) (r : GuardedApplyExecutionResult)
    (persistence_enabled persisted : bool) : string :=
  "Apply orchestration " +:+ ApplyOrchestrationStatus.value status +:+ ": " +:+ repr_int (er_operated_executed r) +:+
  " executed, " +:+ repr_int (er_operated_blocked r) +:+ " blocked, " +:+ repr_int (er_operated_skipped r) +:+ " skipped. " +:+
  (if persistence_enabled then (if persisted then "persisted" else "persistence enabled (no new row)")
   else "no persistence (dry-run)") +:+
  ". Guarded dry-run only -- no final financial records were created or modified.".

(** [orchestrate_reconciliation_apply] with the runtime it uses, which is the
    caller's, or a new one over the caller's repository; only in the second
    case is [existed_before] known. *)
Definition orchestrate_with (rt : GuardedApplyRuntime) (existed_before : option bool) (i : ApplyOrchestrationInput)
    (now : string) : result ApplyOrchestrationResult * GuardedApplyRuntime :=
  match build_reconciliation_apply_plan (oi_plan_inputs i) (oi_plan_label i) with
  | Raise e => (Raise e, rt)
  | Ok plan =>
      let '(x, rt) := execute_plan rt plan (oi_guard_decisions_by_operation_id i) (oi_idempotency_key i) now in
      ((r ← x;
        let persisted := did_persist_new_row r (has_persistence rt) existed_before in
        let status := derive_orchestration_status r in
        Ok (MkOrchResult status plan r (build_guarded_apply_execution_review_summary r) persisted (has_persistence rt)
              (oi_idempotency_key i) (build_orchestration_note status r (has_persistence rt) persisted))), rt)
  end.

Definition orchestrate_reconciliation_apply (i : ApplyOrchestrationInput) (repository : option (Connection ExecTables))
    (runtime : option GuardedApplyRuntime) (now : string) : result ApplyOrchestrationResult * GuardedApplyRuntime :=
  let active := match runtime with Some rt => rt | None => new_guarded_runtime repository end in
  if str_empty (oi_idempotency_key i) then
    (raise ValueError "orchestrate_reconciliation_apply requires a non-empty idempotency_key", active)
  else if is_nil (oi_plan_inputs i) then
    (raise ValueError "orchestrate_reconciliation_apply requires at least one plan input", active)
  else
    let existed_before :=
      match runtime, repository with
      | None, Some c => Some (match find_execution (oi_idempotency_key i) (cn_tables c) with Some _ => true | None => false end)
      | _, _ => None
      end in
    orchestrate_with active existed_before i now.

(** ** What a repeated call would do *)

Module ApplyIdempotencyOutcome.
Inductive t := IDEMPOTENT_REPLAY | CONFLICT | PRIOR_BLOCKED | PRIOR_PARTIALLY_BLOCKED | PRIOR_REQUIRES_REVIEW | NO_PRIOR_EXECUTION.
Definition value (o : t) : string :=
  match o with
  | IDEMPOTENT_REPLAY => "idempotent_replay"
  | CONFLICT => "conflict"
  | PRIOR_BLOCKED => "prior_blocked"
  | PRIOR_PARTIALLY_BLOCKED => "prior_partially_blocked"
  | PRIOR_REQUIRES_REVIEW => "prior_requires_review"
  | NO_PRIOR_EXECUTION => "no_prior_execution"
  end.
#[global] Instance eq_dec : EqDecision t.
Proof. solve_decision. Defined.
End ApplyIdempotencyOutcome.

Record ApplyIdempotencyClassification := MkClassification {
  ic_outcome : ApplyIdempotencyOutcome.t;
  ic_idempotency_key : string;
  ic_candidate_fingerprint : string;
  ic_prior_execution_exists : bool;
  ic_prior_execution_id : option string;
  ic_prior_execution_status : option ApplyExecutionStatus.t;
  ic_prior_execution_fingerprint : option string;
  ic_prior_block_reason : string;
  ic_prior_executed_at : string;
  ic_classification_note : string;
}.

Definition fingerprint_matches_prior (c : ApplyIdempotencyClassification) : bool :=
  match ic_prior_execution_fingerprint c with
  | Some f => ic_prior_execution_exists c && String.eqb f (ic_candidate_fingerprint c)
  | None => false
  end.
Definition is_same_recorded_execution (c : ApplyIdempotencyClassification) : bool :=
  fingerprint_matches_prior c &&
  bool_decide (ic_outcome c ∈ [ApplyIdempotencyOutcome.IDEMPOTENT_REPLAY; ApplyIdempotencyOutcome.PRIOR_BLOCKED;
    ApplyIdempotencyOutcome.PRIOR_PARTIALLY_BLOCKED; ApplyIdempotencyOutcome.PRIOR_REQUIRES_REVIEW]).
Definition is_duplicate_prevention_rejection (c : ApplyIdempotencyClassification) : bool :=
  bool_decide (ic_outcome c = ApplyIdempotencyOutcome.CONFLICT).
Definition is_completed_idempotent_replay (c : ApplyIdempotencyClassification) : bool :=
  bool_decide (ic_outcome c = ApplyIdempotencyOutcome.IDEMPOTENT_REPLAY).

Definition outcome_for_matching_fingerprint (s : ApplyExecutionStatus.t) : ApplyIdempotencyOutcome.t :=
  match s with
  | ApplyExecutionStatus.EXECUTED => ApplyIdempotencyOutcome.IDEMPOTENT_REPLAY
  | ApplyExecutionStatus.BLOCKED => ApplyIdempotencyOutcome.PRIOR_BLOCKED
  | ApplyExecutionStatus.PARTIALLY_BLOCKED => ApplyIdempotencyOutcome.PRIOR_PARTIALLY_BLOCKED
  | ApplyExecutionStatus.UNSUPPORTED | ApplyExecutionStatus.CONFLICT => ApplyIdempotencyOutcome.PRIOR_REQUIRES_REVIEW
  end.

(** [_build_classification_note]. *)
Definition build_classification_note (outcome : ApplyIdempotencyOutcome.t) (prior_status : option ApplyExecutionStatus.t)
    (key : string) : string :=
  let status_str := match prior_status with Some s => ApplyExecutionStatus.value s | None => "unknown" end in
  let opening name := "Idempotency classification for key '" +:+ key +:+ "': " +:+ name +:+ ". " in
  let prior := "Prior execution status '" +:+ status_str +:+ "'. " in
  match outcome with
  | ApplyIdempotencyOutcome.NO_PRIOR_EXECUTION =>
      opening "no prior execution" +:+ "A first apply would record the execution fingerprint normally. " +:+
      "Read-only classification -- no execution, no final financial records."
  | ApplyIdempotencyOutcome.IDEMPOTENT_REPLAY =>
      opening "idempotent replay" +:+ prior +:+ "A repeat apply would be recognized as the same recorded execution " +:+
      "without inserting a duplicate execution or operation row. " +:+
      "Read-only classification -- no final financial records."
  | ApplyIdempotencyOutcome.CONFLICT =>
      opening "conflict" +:+ prior +:+ "Same idempotency key with materially different plan content is " +:+
      "rejected as a conflict, never silently accepted. " +:+ "Read-only classification -- no final financial records."
  | ApplyIdempotencyOutcome.PRIOR_BLOCKED =>
      opening "prior blocked" +:+ prior +:+ "A retry with identical inputs stays blocked; the prior blocked " +:+
      "execution does not become eligible without new valid inputs. " +:+
      "Read-only classification -- no final financial records."
  | ApplyIdempotencyOutcome.PRIOR_PARTIALLY_BLOCKED =>
      opening "prior partially blocked" +:+ prior +:+ "A retry remains review-required; the partially blocked outcome " +:+
      "is not converted into a completed result. " +:+ "Read-only classification -- no final financial records."
  | ApplyIdempotencyOutcome.PRIOR_REQUIRES_REVIEW =>
      opening "prior requires review" +:+ prior +:+ "A retry remains review-required / safely blocked; the prior outcome " +:+
      "is not converted into a completed result. " +:+ "Read-only classification -- no final financial records."
  end.

Definition classify_reconciliation_apply_idempotency (i : ApplyOrchestrationInput) : ExecDB ApplyIdempotencyClassification :=
  let key := oi_idempotency_key i in
  lift (raise_when (str_empty key) ValueError
    "classify_reconciliation_apply_idempotency requires a non-empty idempotency_key");;
  lift (raise_when (is_nil (oi_plan_inputs i)) ValueError
    "classify_reconciliation_apply_idempotency requires at least one plan input");;
  plan ← lift (build_reconciliation_apply_plan (oi_plan_inputs i) (oi_plan_label i));
  let candidate := build_execution_fingerprint plan (oi_guard_decisions_by_operation_id i) key in
  prior ← get_by_idempotency_key key;
  match prior with
  | None =>
      mret (MkClassification ApplyIdempotencyOutcome.NO_PRIOR_EXECUTION key candidate false None None None "" ""
              (build_classification_note ApplyIdempotencyOutcome.NO_PRIOR_EXECUTION None key))
  | Some prior =>
      prior_fingerprint ← get_idempotency_fingerprint key;
      let outcome := if bool_decide (prior_fingerprint = Some candidate)
                     then outcome_for_matching_fingerprint (er_execution_status prior)
                     else ApplyIdempotencyOutcome.CONFLICT in
      mret (MkClassification outcome key candidate true (Some (derive_execution_id (er_plan_id prior) key))
              (Some (er_execution_status prior)) prior_fingerprint (er_block_reason prior) (er_executed_at prior)
              (build_classification_note outcome (Some (er_execution_status prior)) key))
  end.

(** ** The final transaction adapter *)

Module FinalTransactionAdapterStatus.
Inductive t :=
  | ELIGIBLE | INELIGIBLE_BLOCKED | INELIGIBLE_PARTIALLY_BLOCKED | INELIGIBLE_CONFLICT | INELIGIBLE_UNSUPPORTED
  | INELIGIBLE_REQUIRES_REVIEW.
Definition value (s : t) : string :=
  match s with
  | ELIGIBLE => "eligible"
  | INELIGIBLE_BLOCKED => "ineligible_blocked"
  | INELIGIBLE_PARTIALLY_BLOCKED => "ineligible_partially_blocked"
  | INELIGIBLE_CONFLICT => "ineligible_conflict"
  | INELIGIBLE_UNSUPPORTED => "ineligible_unsupported"
  | INELIGIBLE_REQUIRES_REVIEW => "ineligible_requires_review"
  end.
#[global] Instance eq_dec : EqDecision t.
Proof. solve_decision. Defined.
End FinalTransactionAdapterStatus.

Module FinalTransactionAdapterReason.
Inductive t :=
  | ORCHESTRATION_BLOCKED | ORCHESTRATION_PARTIALLY_BLOCKED | ORCHESTRATION_CONFLICT | ORCHESTRATION_UNSUPPORTED
  | ORCHESTRATION_REQUIRES_REVIEW | MISSING_OPERATION_RESULTS | OPERATION_NOT_EXECUTED | OPERATION_NOT_GUARD_APPROVED
  | MISSING_GUARD_DECISION_REFS | INVALID_INPUT.
Definition value (r : t) : string :=
  match r with
  | ORCHESTRATION_BLOCKED => "orchestration_blocked"
  | ORCHESTRATION_PARTIALLY_BLOCKED => "orchestration_partially_blocked"
  | ORCHESTRATION_CONFLICT => "orchestration_conflict"
  | ORCHESTRATION_UNSUPPORTED => "orchestration_unsupported"
  | ORCHESTRATION_REQUIRES_REVIEW => "orchestration_requires_review"
  | MISSING_OPERATION_RESULTS => "missing_operation_results"
  | OPERATION_NOT_EXECUTED => "operation_not_executed"
  | OPERATION_NOT_GUARD_APPROVED => "operation_not_guard_approved"
  | MISSING_GUARD_DECISION_REFS => "missing_guard_decision_refs"
  | INVALID_INPUT => "invalid_input"
  end.
End FinalTransactionAdapterReason.

Record OperationSummary := MkOpSummary {
  sm_operation_id : string;
  sm_execution_status : ApplyExecutionStatus.t;
  sm_guard_decision_approved : bool;
  sm_mutation_type : string;
  sm_reason : string;
  sm_guard_decision_idempotency_key : option string;
}.

Record FinalTransactionAdapterResult := MkAdapterResult {
  fa_status : FinalTransactionAdapterStatus.t;
  fa_is_eligible_for_final_mutation : bool;
  fa_requires_final_write_confirmation : bool;
  fa_plan_id : string;
  fa_idempotency_key : string;
  fa_orchestration_status : ApplyOrchestrationStatus.t;
  fa_operation_summaries : list OperationSummary;
  fa_total_operations : Z;
  fa_eligible_operation_count : Z;
  fa_ineligible_operation_count : Z;
  fa_guard_decision_refs : list string;
  fa_reason_codes : list string;
  fa_adapter_note : string;
}.

Definition summary_of (o : GuardedOperationResult) : OperationSummary :=
  MkOpSummary (or_operation_id o) (or_execution_status o) (or_guard_decision_approved o) (or_mutation_type o) (or_reason o)
    (or_guard_decision_idempotency_key o).

(** [_build_operation_summaries]. *)
Definition build_operation_summaries (o : ApplyOrchestrationResult) : list OperationSummary :=
  summary_of <$> er_results (oo_execution_result o).

(** [_derive_adapter_status_and_reasons]. *)
Definition derive_adapter_status_and_reasons (orch_status : ApplyOrchestrationStatus.t) (summaries : list OperationSummary)
    (guard_refs : list string) : FinalTransactionAdapterStatus.t * list FinalTransactionAdapterReason.t :=
  match orch_status with
  | ApplyOrchestrationStatus.UNSUPPORTED =>
      (FinalTransactionAdapterStatus.INELIGIBLE_UNSUPPORTED, [FinalTransactionAdapterReason.ORCHESTRATION_UNSUPPORTED])
  | ApplyOrchestrationStatus.BLOCKED =>
      (FinalTransactionAdapterStatus.INELIGIBLE_BLOCKED, [FinalTransactionAdapterReason.ORCHESTRATION_BLOCKED])
  | ApplyOrchestrationStatus.PARTIALLY_BLOCKED =>
      (FinalTransactionAdapterStatus.INELIGIBLE_PARTIALLY_BLOCKED,
       [FinalTransactionAdapterReason.ORCHESTRATION_PARTIALLY_BLOCKED])
  | ApplyOrchestrationStatus.CONFLICT =>
      (FinalTransactionAdapterStatus.INELIGIBLE_CONFLICT, [FinalTransactionAdapterReason.ORCHESTRATION_CONFLICT])
  | ApplyOrchestrationStatus.REQUIRES_REVIEW =>
      (FinalTransactionAdapterStatus.INELIGIBLE_REQUIRES_REVIEW, [FinalTransactionAdapterReason.ORCHESTRATION_REQUIRES_REVIEW])
  | ApplyOrchestrationStatus.COMPLETED =>
      if is_nil summaries then
        (FinalTransactionAdapterStatus.INELIGIBLE_UNSUPPORTED, [FinalTransactionAdapterReason.MISSING_OPERATION_RESULTS])
      else
        let reasons :=
          (if existsb (λ s, negb (bool_decide (sm_execution_status s = ApplyExecutionStatus.EXECUTED))) summaries
           then [FinalTransactionAdapterReason.OPERATION_NOT_EXECUTED] else []) ++
          (if existsb (λ s, negb (sm_guard_decision_approved s)) summaries
           then [FinalTransactionAdapterReason.OPERATION_NOT_GUARD_APPROVED] else []) ++
          (if is_nil guard_refs then [FinalTransactionAdapterReason.MISSING_GUARD_DECISION_REFS] else []) in
        match reasons with
        | [] => (FinalTransactionAdapterStatus.ELIGIBLE, [])
        | _ => (FinalTransactionAdapterStatus.INELIGIBLE_REQUIRES_REVIEW, reasons)
        end
  end.

(** [_build_adapter_note]. *)
Definition build_adapter_note (status : FinalTransactionAdapterStatus.t) (eligible ineligible total : Z) : string :=
  if bool_decide (status = FinalTransactionAdapterStatus.ELIGIBLE) then
    "Final transaction adapter " +:+ FinalTransactionAdapterStatus.value status +:+ ": " +:+ repr_int eligible +:+ " of " +:+
    repr_int total +:+ " operation(s) eligible. Requires separate human-confirmed final-write step before any " +:+
    "final financial record is created or modified. Guarded dry-run only -- no final mutation executed."
  else
    "Final transaction adapter " +:+ FinalTransactionAdapterStatus.value status +:+ ": " +:+ repr_int eligible +:+
    " eligible, " +:+ repr_int ineligible +:+ " ineligible of " +:+ repr_int total +:+ " operation(s). " +:+
    "Ineligible -- routed to human review. No final financial records were created or modified.".

Definition build_final_transaction_reconciliation_adapter_result (o : ApplyOrchestrationResult) :
    FinalTransactionAdapterResult :=
  let summaries := build_operation_summaries o in
  let total := Z.of_nat (length summaries) in
  let eligible := Z.of_nat (length (filter (λ s, sm_execution_status s = ApplyExecutionStatus.EXECUTED ∧
                                                  sm_guard_decision_approved s = true) summaries)) in
  let ineligible := total - eligible in
  let guard_refs := er_guard_decision_refs (oo_execution_result o) in
  let '(status, reasons) := derive_adapter_status_and_reasons (oo_status o) summaries guard_refs in
  let is_eligible := bool_decide (status = FinalTransactionAdapterStatus.ELIGIBLE) in
  MkAdapterResult status is_eligible is_eligible (plan_id (oo_plan o)) (oo_idempotency_key o) (oo_status o) summaries total
    eligible ineligible guard_refs (FinalTransactionAdapterReason.value <$> reasons)
    (build_adapter_note status eligible ineligible total).
