(* ===== verification/ResolutionStore.v ===== *)
(** * The stored resolutions

    reconciliation/resolution_persistence.py: the decisions of reviewers and
    their outcomes in the two tables of migration 007, next to the review
    queue, whose status follows the outcome.  A successful classification (a
    confirmed match or a duplicate) is stored only for the frozen source of
    its queue item, and never once the transaction is corrected.  What the
    correction tables say is [CorrectionState]: of application/
    correction_schema.py, the history of a target is modelled, and the
    verification of the schema and the history of independent corrections are
    known by their outcomes.  Foreign keys are enforced, as on the connections
    the application opens; times of creation and update are left out. *)

From Stdlib Require Import Ascii ZArith SpecFloat Lia.
From stdpp Require Import base sets strings sorting numbers list.
From S2P Require Import Prelude PyDecimal PyValue Hash Json JsonParse PyDate PyDateTime PyFloat ReconModels ReconDecision ReconMatcher ReconBatch ReviewModels ReviewQueue ApplyRuntime BoundCodec Snapshot Resolution SourceBinding ReviewPersistence Integrity Sqlite.

Open Scope Z_scope.

(** ** Equality of review items

    [==] of dataclasses compares their fields in order: amounts and scores by
    value, the rest literally.  Values with one representation are taken to be
    one object, which Python compares as equal also when they hold a NaN. *)

Definition hint_text (h : type_hint) : string :=
  match h with HintType t => ReconciliationTransactionType.value t | HintText s => s end.

Definition statement_eqb (a b : StatementTransaction) : bool :=
  bool_decide (st_transaction_date a = st_transaction_date b) && bool_decide (st_posted_date a = st_posted_date b) &&
  String.eqb (st_merchant_raw a) (st_merchant_raw b) &&
  bool_decide (st_merchant_normalized a = st_merchant_normalized b) &&
  opt_eqb dec_eqb (st_amount a) (st_amount b) && bool_decide (st_currency a = st_currency b) &&
  bool_decide (st_account_name a = st_account_name b) && bool_decide (st_account_id a = st_account_id b) &&
  bool_decide (st_source_batch_id a = st_source_batch_id b) &&
  bool_decide (st_statement_row_reference a = st_statement_row_reference b) &&
  bool_decide (st_public_id a = st_public_id b) && bool_decide (st_row_fingerprint a = st_row_fingerprint b) &&
  bool_decide (st_source_content_hash a = st_source_content_hash b) &&
  bool_decide (st_amount_direction a = st_amount_direction b) && bool_decide (st_raw_amount a = st_raw_amount b) &&
  bool_decide (st_raw_amount_type a = st_raw_amount_type b).

Definition app_eqb (a b : AppTransaction) : bool :=
  String.eqb (app_txn_id a) (app_txn_id b) && date_eqb (app_transaction_date a) (app_transaction_date b) &&
  String.eqb (app_merchant a) (app_merchant b) && decimal_eqb (app_amount a) (app_amount b) &&
  String.eqb (app_currency a) (app_currency b) && bool_decide (app_source_type a = app_source_type b) &&
  bool_decide (app_source_channel a = app_source_channel b) &&
  bool_decide (app_normalized_merchant a = app_normalized_merchant b) &&
  bool_decide (app_posted_date a = app_posted_date b) &&
  bool_decide (hint_text <$> app_transaction_type a = hint_text <$> app_transaction_type b).

Definition match_evidence_eqb (a b : MatchEvidence) : bool :=
  opt_eqb dec_eqb (ev_statement_amount a) (ev_statement_amount b) &&
  opt_eqb dec_eqb (ev_candidate_amount a) (ev_candidate_amount b) &&
  bool_decide (ev_statement_currency a = ev_statement_currency b) &&
  bool_decide (ev_candidate_currency a = ev_candidate_currency b) &&
  bool_decide (ev_statement_txn_date a = ev_statement_txn_date b) &&
  bool_decide (ev_statement_posted_date a = ev_statement_posted_date b) &&
  bool_decide (ev_candidate_txn_date a = ev_candidate_txn_date b) &&
  bool_decide (ev_date_delta_days a = ev_date_delta_days b) && (ev_date_tolerance_days a =? ev_date_tolerance_days b) &&
  bool_decide (ev_statement_merchant a = ev_statement_merchant b) &&
  bool_decide (ev_candidate_merchant a = ev_candidate_merchant b) &&
  bool_decide (ev_statement_merchant_normalized a = ev_statement_merchant_normalized b) &&
  bool_decide (ev_candidate_merchant_normalized a = ev_candidate_merchant_normalized b) &&
  opt_eqb SFeqb (ev_merchant_similarity a) (ev_merchant_similarity b) &&
  (ev_candidate_count a =? ev_candidate_count b) &&
  bool_decide (ev_statement_direction a = ev_statement_direction b) &&
  bool_decide (ev_candidate_transaction_type a = ev_candidate_transaction_type b) &&
  bool_decide (ev_original_amount_text a = ev_original_amount_text b) &&
  bool_decide (ev_original_amount_sign a = ev_original_amount_sign b) &&
  bool_decide (ev_compatibility_result a = ev_compatibility_result b) &&
  bool_decide (ev_hard_gate_results a = ev_hard_gate_results b).

Definition list_eqb {A} (eqb : A → A → bool) (l k : list A) : bool :=
  (length l =? length k)%nat && forallb (λ xy, eqb xy.1 xy.2) (zip l k).

Definition candidate_eqb (a b : ReconciliationCandidate) : bool :=
  statement_eqb (rc_statement a) (rc_statement b) &&
  opt_eqb app_eqb (rc_best_app_transaction a) (rc_best_app_transaction b) &&
  list_eqb app_eqb (rc_all_app_transactions a) (rc_all_app_transactions b) &&
  bool_decide (rc_match_status a = rc_match_status b) && bool_decide (rc_reason_codes a = rc_reason_codes b) &&
  bool_decide (rc_issue_type a = rc_issue_type b) && dec_eqb (rc_confidence_score a) (rc_confidence_score b) &&
  opt_eqb match_evidence_eqb (rc_evidence a) (rc_evidence b) && String.eqb (rc_candidate_id a) (rc_candidate_id b) &&
  bool_decide (rc_review_priority a = rc_review_priority b) &&
  Bool.eqb (rc_is_review_required a) (rc_is_review_required b).

Definition item_fields_eqb (a b : ReviewQueueItem) : bool :=
  candidate_eqb (qi_candidate a) (qi_candidate b) && bool_decide (qi_issue_type a = qi_issue_type b) &&
  bool_decide (qi_suggested_action a = qi_suggested_action b) &&
  String.eqb (qi_queue_item_id a) (qi_queue_item_id b) && bool_decide (qi_reason_codes a = qi_reason_codes b) &&
  String.eqb (qi_evidence_summary a) (qi_evidence_summary b) &&
  opt_eqb review_evidence_eqb (qi_structured_evidence a) (qi_structured_evidence b) &&
  (qi_priority a =? qi_priority b).

#[export] Instance spec_float_eq_dec : EqDecision spec_float.
Proof. solve_decision. Defined.
#[export] Instance decimal_eq_dec : EqDecision decimal.
Proof. solve_decision. Defined.
#[export] Instance hint_eq_dec : EqDecision type_hint.
Proof. solve_decision. Defined.
#[export] Instance app_eq_dec : EqDecision AppTransaction.
Proof. solve_decision. Defined.
#[export] Instance statement_eq_dec : EqDecision StatementTransaction.
Proof. solve_decision. Defined.
#[export] Instance match_evidence_eq_dec : EqDecision MatchEvidence.
Proof. solve_decision. Defined.
#[export] Instance candidate_eq_dec : EqDecision ReconciliationCandidate.
Proof. solve_decision. Defined.
#[export] Instance review_evidence_eq_dec : EqDecision ReconciliationReviewEvidence.
Proof. solve_decision. Defined.
#[export] Instance item_eq_dec : EqDecision ReviewQueueItem.
Proof. solve_decision. Defined.
#[export] Instance decision_eq_dec : EqDecision ResolutionDecision.
Proof. solve_decision. Defined.

Definition item_eqb (a b : ReviewQueueItem) : bool := bool_decide (a = b) || item_fields_eqb a b.

(** ** Corrections *)

Record CorrectionState := MkCorrections {
  cs_schema : result bool;               (** [verify_correction_schema] *)
  cs_independent : string → result bool; (** [has_independent_correction] *)
  cs_audit : option (list string);       (** targets of correction events, if the audit table exists *)
  cs_versions : list string;             (** targets of the versions of corrections *)
}.

Definition has_committed_correction (cs : CorrectionState) (target_id : string) : result bool :=
  independent_present ← cs_independent cs target_id;
  let audit_present := match cs_audit cs with Some targets => str_in target_id targets | None => false end in
  schema_present ← cs_schema cs;
  if negb schema_present then
    raise_when audit_present CorrectionSchemaError "Correction audit exists without migration 051";;
    Ok independent_present
  else
    raise_when (bool_decide (cs_audit cs = None)) CorrectionSchemaError "Financial audit table is missing";;
    if str_in target_id (cs_versions cs) then Ok true else Ok (audit_present || independent_present).

(** [any(has_committed_correction(conn, t) for t in sorted(targets))]. *)
Fixpoint any_committed (cs : CorrectionState) (targets : list string) : result bool :=
  match targets with
  | [] => Ok false
  | t :: targets => b ← has_committed_correction cs t; if b : bool then Ok true else any_committed cs targets
  end.
Definition sorted_set (l : list string) : list string := isort String.leb (remove_dups l).
Definition refuse_corrected (cs : CorrectionState) (targets : list string) : result unit :=
  b ← any_committed cs (sorted_set targets); refuse b "corrected_transaction_requires_versioned_reconciliation".

(** ** Tables *)

Record DecisionRow := MkDecisionRow {
  dr_public_id : string;
  dr_review_queue_public_id : string;
  dr_decision_action : string;
  dr_decision_note : option string;
  dr_reviewer : string;
  dr_resolved_at : option string;
}.

Record ResultRow := MkResultRow {
  sr_public_id : string;
  sr_review_queue_public_id : string;
  sr_decision_public_id : string;
  sr_success : Z;
  sr_error_message : option string;
  sr_audit_evidence_json : string;
}.

Record ResolutionTables := MkResTables {
  qt_queue : list StoredItem;
  qt_decisions : list DecisionRow;
  qt_results : list ResultRow;
}.

Abbreviation ResDB := (DB ResolutionTables).

#[export] Instance decision_row_eq_dec : EqDecision DecisionRow.
Proof. solve_decision. Defined.
#[export] Instance result_row_eq_dec : EqDecision ResultRow.
Proof. solve_decision. Defined.

Definition get_decision_by_public_id (t : ResolutionTables) (public_id : string) : option DecisionRow :=
  List.find (λ r, String.eqb (dr_public_id r) public_id) (qt_decisions t).
Definition get_result_by_public_id (t : ResolutionTables) (public_id : string) : option ResultRow :=
  List.find (λ r, String.eqb (sr_public_id r) public_id) (qt_results t).

(** [ORDER BY created_at]: rows are in the order of their insertion, which is
    that of their times while the clock does not go back. *)
Definition list_decisions_for_queue_item (t : ResolutionTables) (queue_public_id : string) : list DecisionRow :=
  keep (λ r, String.eqb (dr_review_queue_public_id r) queue_public_id) (qt_decisions t).
Definition list_results_for_queue_item (t : ResolutionTables) (queue_public_id : string) : list ResultRow :=
  keep (λ r, String.eqb (sr_review_queue_public_id r) queue_public_id) (qt_results t).

(** [s or None]. *)
Definition text_or_none (s : string) : option string := if str_empty s then None else Some s.

(** [_decision_values]. *)
Definition decision_values (d : ResolutionDecision) : DecisionRow :=
  MkDecisionRow (rd_decision_id d) (rd_queue_item_id d) (ResolutionAction.value (rd_action d)) (text_or_none (rd_note d))
    (rd_reviewer d) (rd_resolved_at d ≫= text_or_none).

(** [_result_values]. *)
Definition result_values (r : ResolutionResult) : result ResultRow :=
  audit_json ← json_dumps_ascii (rr_audit_evidence r);
  Ok (MkResultRow (rr_result_id r) (qi_queue_item_id (rr_queue_item r)) (rd_decision_id (rr_decision r))
        (if rr_success r then 1 else 0) (rr_error_message r ≫= text_or_none) audit_json).

(** [_decision_row_matches]. *)
Definition decision_row_matches (row : DecisionRow) (d : ResolutionDecision) : bool :=
  String.eqb (dr_review_queue_public_id row) (rd_queue_item_id d) &&
  String.eqb (dr_decision_action row) (ResolutionAction.value (rd_action d)) &&
  bool_decide (dr_decision_note row = text_or_none (rd_note d)) && String.eqb (dr_reviewer row) (rd_reviewer d) &&
  bool_decide (dr_resolved_at row = rd_resolved_at d ≫= text_or_none).

(** [_result_row_matches]. *)
Definition result_row_matches (row : ResultRow) (r : ResolutionResult) : result bool :=
  values ← result_values r;
  Ok (String.eqb (sr_review_queue_public_id row) (sr_review_queue_public_id values) &&
      String.eqb (sr_decision_public_id row) (sr_decision_public_id values) &&
      (sr_success row =? sr_success values) &&
      bool_decide (sr_error_message row = sr_error_message values) &&
      String.eqb (sr_audit_evidence_json row) (sr_audit_evidence_json values)).

(** ** Guards of successful classifications *)

Definition successful_classification (r : ResolutionResult) : bool :=
  rr_success r && is_classification (rd_action (rr_decision r)).

(** The audit evidence of a result is a dictionary. *)
Definition evidence_members_of (r : ResolutionResult) : result (list (string * json)) :=
  match rr_audit_evidence r with JDict d => Ok d | _ => raise AttributeError "audit_evidence" end.

(** [evidence.get(k) or None]. *)
Definition get_or_none (d : list (string * json)) (k : string) : json :=
  if json_truth (get d k) then get d k else JNull.
Definition note_differs (evidence : list (string * json)) (note : option string) : bool :=
  negb (json_eqb (get_or_none evidence "note") (text_or_null note)).

(** [load_bound_queue] on this connection. *)
Definition bound_queue_of (cs : CorrectionState) (t : ResolutionTables) (queue_id : string) :
    result (option BoundQueue) :=
  present ← cs_schema cs; load_bound_queue present (qt_queue t) queue_id.

Definition action_fits (action : ResolutionAction.t) (issue : IssueType.t) : bool :=
  (validate_resolution_decision action issue).1.

(** [_bound_successful_classification]. *)
Definition bound_successful_classification (cs : CorrectionState) (t : ResolutionTables) (r : ResolutionResult) :
    result (option BoundQueue) :=
  if negb (successful_classification r) then Ok None
  else
    let d := rr_decision r in
    let item := rr_queue_item r in
    bound ← bound_queue_of cs t (qi_queue_item_id item);
    refuse (negb (action_fits (rd_action d) (qi_issue_type item))) "action is incompatible with issue type";;
    match bound with
    | None => Ok None
    | Some b =>
        assert_candidate_matches_bound b item;;
        assert_resolution_envelope r b;;
        refuse (negb (action_fits (rd_action d) (bq_issue_type b)) || negb (bool_decide (qi_issue_type item = bq_issue_type b)))
          "action conflicts with frozen queue issue";;
        refuse (negb (String.eqb (rd_queue_item_id d) (bq_queue_item_id b))) "decision queue identity changed";;
        evidence ← evidence_members_of r;
        refuse (differs evidence "queue_item_id" (JStr (bq_queue_item_id b)) ||
                differs evidence "candidate_id" (JStr (bq_candidate_id b)) ||
                differs evidence "resolution_action" (JStr (ResolutionAction.value (rd_action d))) ||
                differs evidence "issue_type" (JStr (IssueType.value (bq_issue_type b))) ||
                differs evidence "reviewer" (JStr (rd_reviewer d)) ||
                note_differs evidence (text_or_none (rd_note d)) ||
                resolved_differs evidence (rd_resolved_at d)) "evidence source identity changed";;
        Ok (Some b)
    end.

Definition nonempty_text (v : json) : option string :=
  match v with JStr s => text_or_none s | _ => None end.

(** [SELECT app_transaction_ref ... WHERE public_id = ?], when it is a
    nonempty text. *)
Definition canonical_app_ref (t : ResolutionTables) (queue_id : string) : option string :=
  s ← get_by_public_id (qt_queue t) queue_id; row_app_transaction_ref (si_row s) ≫= text_or_none.

Definition option_list {A} (o : option A) : list A := match o with Some a => [a] | None => [] end.

(** The app transactions a classification touches. *)
Definition classification_targets (r : ResolutionResult) (bound : option BoundQueue) (evidence : list (string * json)) :
    list string :=
  let candidate := qi_candidate (rr_queue_item r) in
  option_list (app_txn_id <$> rc_best_app_transaction candidate) ++
  (app_txn_id <$> match bound with
                  | Some b => bq_app_transactions b
                  | None => if bool_decide (rd_action (rr_decision r) = ResolutionAction.MARK_DUPLICATE)
                            then rc_all_app_transactions candidate else []
                  end) ++
  option_list (nonempty_text (get evidence "app_txn_id")).

(** [_guard_successful_resolution]. *)
Definition guard_successful_resolution (cs : CorrectionState) (t : ResolutionTables) (r : ResolutionResult) :
    result unit :=
  if negb (successful_classification r) then Ok tt
  else
    bound ← bound_successful_classification cs t r;
    evidence ← evidence_members_of r;
    let targets := classification_targets r bound evidence in
    refuse (bool_decide (targets = [])) "incomplete app target enumeration";;
    match canonical_app_ref t (qi_queue_item_id (rr_queue_item r)) with
    | None => bad "no canonical app reference"
    | Some canonical => refuse_corrected cs (targets ++ [canonical])
    end.

(** [if key in evidence and evidence[key] != v: raise]. *)
Definition contradicts (evidence : list (string * json)) (k : string) (v : json) : bool :=
  dict_mem k evidence && differs evidence k v.

(** [evidence.get("app_txn_id") not in {None, canonical}]: members of sets
    are hashable. *)
Definition check_payload_target (v : json) (canonical : string) : result unit :=
  match v with
  | JNull => Ok tt
  | JList _ | JDict _ => raise TypeError "unhashable"
  | v => refuse (negb (json_eqb v (JStr canonical))) "payload target differs from canonical app ref"
  end.

Definition with_evidence (r : ResolutionResult) (evidence : list (string * json)) : ResolutionResult :=
  MkResolutionResult (rr_result_id r) (rr_decision r) (rr_queue_item r) (rr_success r) (JDict evidence)
    (rr_error_message r).

(** The members a duplicate classification adds. *)
Definition duplicate_members (duplicates : list string) (canonical : string) : list (string * json) :=
  [("duplicate_app_txn_ids", JList (JStr <$> duplicates)); ("kept_app_txn_id", JStr canonical);
   ("audit_only", JBool true)].
Definition add_member (evidence : list (string * json)) (kv : string * json) : result (list (string * json)) :=
  refuse (contradicts evidence kv.1 kv.2) "duplicate evidence conflicts with candidate";;
  Ok (dict_set kv.1 kv.2 evidence).

(** [_complete_success_evidence]. *)
Definition complete_success_evidence (cs : CorrectionState) (t : ResolutionTables) (r : ResolutionResult) :
    result ResolutionResult :=
  if negb (successful_classification r) then Ok r
  else
    bound ← bound_successful_classification cs t r;
    let candidate := qi_candidate (rr_queue_item r) in
    match canonical_app_ref t (qi_queue_item_id (rr_queue_item r)), rc_best_app_transaction candidate with
    | Some canonical, Some best =>
        refuse (negb (String.eqb canonical (app_txn_id best))) "canonical app reference changed";;
        evidence ← evidence_members_of r;
        check_payload_target (get evidence "app_txn_id") canonical;;
        refuse (contradicts evidence "canonical_app_transaction_ref" (JStr canonical) ||
                contradicts evidence "payload_target_app_txn_id" (JStr canonical)) "evidence source identity changed";;
        let evidence := dict_set "app_txn_id" (JStr canonical) evidence in
        let evidence := dict_set "canonical_app_transaction_ref" (JStr canonical) evidence in
        let evidence := dict_set "payload_target_app_txn_id" (JStr (app_txn_id best)) evidence in
        if bool_decide (rd_action (rr_decision r) = ResolutionAction.MARK_DUPLICATE) then
          let duplicates := app_txn_id <$> match bound with
                                           | Some b => bq_app_transactions b
                                           | None => rc_all_app_transactions candidate
                                           end in
          refuse ((length duplicates <? 2)%nat || has_duplicates duplicates || negb (str_in canonical duplicates))
            "duplicate classification has incomplete app targets";;
          evidence ← foldM add_member evidence (duplicate_members duplicates canonical);
          Ok (with_evidence r evidence)
        else
          refuse (existsb (λ k, dict_mem k evidence) RESOLUTION_DUPLICATE_KEYS) "match evidence claims duplicate classification";;
          Ok (with_evidence r evidence)
    | _, _ => bad "incomplete canonical app evidence"
    end.

(** ** Replays *)

(** The first successful result of a decision whose queue row exists. *)
Definition prior_success (t : ResolutionTables) (decision_id : string) : option ResultRow :=
  List.find (λ r, String.eqb (sr_decision_public_id r) decision_id && (sr_success r =? 1) &&
                  bool_decide (is_Some (get_by_public_id (qt_queue t) (sr_review_queue_public_id r)))) (qt_results t).

Definition result_row_json (r : ResultRow) : list (string * json) :=
  [("result_id", JStr (sr_public_id r)); ("decision_public_id", JStr (sr_decision_public_id r));
   ("review_queue_public_id", JStr (sr_review_queue_public_id r)); ("success", JInt (sr_success r));
   ("error_message", text_or_null (sr_error_message r))].
Definition decision_row_json (r : DecisionRow) : list (string * json) :=
  [("public_id", JStr (dr_public_id r)); ("review_queue_public_id", JStr (dr_review_queue_public_id r));
   ("decision_action", JStr (dr_decision_action r)); ("decision_note", text_or_null (dr_decision_note r));
   ("reviewer", JStr (dr_reviewer r)); ("resolved_at", text_or_null (dr_resolved_at r))].

(** [json.loads] of the stored evidence, an object. *)
Definition stored_evidence (raw : string) : result (list (string * json)) :=
  catch (v ← json_loads raw; match v with JDict d => Ok d | _ => bad "evidence is incomplete" end) ValueError
    (λ _, bad "evidence is incomplete").

(** The stored decision and evidence still agree with the frozen queue. *)
Definition check_stored_decision (t : ResolutionTables) (d : ResolutionDecision) (prior : ResultRow)
    (evidence : list (string * json)) (b : BoundQueue) : result unit :=
  match get_decision_by_public_id t (rd_decision_id d) with
  | None => bad "replay decision evidence changed"
  | Some stored =>
      refuse (negb (decision_row_matches stored d) ||
              differs evidence "issue_type" (JStr (IssueType.value (bq_issue_type b))) ||
              differs evidence "reviewer" (JStr (dr_reviewer stored)) ||
              note_differs evidence (dr_decision_note stored) || resolved_differs evidence (dr_resolved_at stored))
        "replay decision evidence changed";;
      catch (assert_resolution_row (result_row_json prior) (decision_row_json stored) evidence b) ValueError
        (λ _, bad "replay differs from frozen queue source")
  end.

Definition stored_texts (v : json) : option (list string) :=
  match v with JList l => mapM nonempty_text l | _ => None end.

(** The duplicates a stored classification names. *)
Definition stored_duplicates (evidence : list (string * json)) (canonical : string) (bound : option BoundQueue) :
    result (list string) :=
  match stored_texts (get evidence "duplicate_app_txn_ids") with
  | None => bad "duplicate evidence is incomplete"
  | Some duplicates =>
      refuse ((length duplicates <? 2)%nat || has_duplicates duplicates ||
              differs evidence "kept_app_txn_id" (JStr canonical) || negb (str_in canonical duplicates) ||
              negb match get evidence "audit_only" with JBool true => true | _ => false end)
        "duplicate evidence is incomplete";;
      refuse match bound with
             | Some b => negb (bool_decide (duplicates = app_txn_id <$> bq_app_transactions b))
             | None => false
             end "duplicate evidence differs from frozen queue source";;
      Ok duplicates
  end.

(** The app transactions a stored success classified. *)
Definition replayed_targets (t : ResolutionTables) (d : ResolutionDecision) (prior : ResultRow)
    (bound : option BoundQueue) : result (list string) :=
  refuse match bound with
         | Some b => negb (String.eqb (sr_review_queue_public_id prior) (bq_queue_item_id b))
         | None => false
         end "replay queue identity changed";;
  evidence ← stored_evidence (sr_audit_evidence_json prior);
  match bound with Some b => check_stored_decision t d prior evidence b | None => Ok tt end;;
  match canonical_app_ref t (sr_review_queue_public_id prior) with
  | None => bad "evidence is incomplete"
  | Some canonical =>
      refuse (differs evidence "app_txn_id" (JStr canonical)) "evidence is incomplete";;
      refuse match bound with
             | Some b => negb (bool_decide (bq_app_transaction_ref b = Some canonical))
             | None => false
             end "replay source changed";;
      if bool_decide (rd_action d = ResolutionAction.MARK_DUPLICATE)
      then duplicates ← stored_duplicates evidence canonical bound; Ok (canonical :: duplicates)
      else Ok [canonical]
  end.

(** [_guard_successful_decision_replay]. *)
Definition guard_successful_decision_replay (cs : CorrectionState) (t : ResolutionTables) (d : ResolutionDecision) :
    result unit :=
  if negb (is_classification (rd_action d)) then Ok tt
  else
    present ← cs_schema cs;
    if negb present then Ok tt
    else match prior_success t (rd_decision_id d) with
         | None => Ok tt
         | Some prior =>
             bound ← bound_queue_of cs t (rd_queue_item_id d);
             targets ← replayed_targets t d prior bound;
             refuse_corrected cs targets
         end.

(** ** Writing *)

(** [_owned_write]: a transaction of its own around the work. *)
Definition owned_write {T A} (in_transaction : bool) (work : DB T A) : DB T A := λ c,
  if in_transaction then (raise RuntimeError "reconciliation requires a connection without caller-owned work", c)
  else match work c with
       | (Ok a, c') => (Ok a, MkConn (cn_tables c') (cn_tables c'))
       | (Raise e, _) => (Raise e, MkConn (cn_committed c) (cn_committed c))
       end.

(** Reading that may raise. *)
Definition examine {T A} (f : T → result A) : DB T A := λ c, (f (cn_tables c), c).

(** The INSERTs, under the constraints of their tables. *)
Definition insert_decision_row (row : DecisionRow) : ResDB unit :=
  execute (λ t,
    raise_when (bool_decide (is_Some (get_decision_by_public_id t (dr_public_id row)))) IntegrityError "UNIQUE";;
    raise_when (bool_decide (get_by_public_id (qt_queue t) (dr_review_queue_public_id row) = None)) IntegrityError
      "FOREIGN KEY";;
    Ok (MkResTables (qt_queue t) (qt_decisions t ++ [row]) (qt_results t))).
Definition insert_result_row (row : ResultRow) : ResDB unit :=
  execute (λ t,
    raise_when (bool_decide (is_Some (get_result_by_public_id t (sr_public_id row)))) IntegrityError "UNIQUE";;
    raise_when (bool_decide (get_by_public_id (qt_queue t) (sr_review_queue_public_id row) = None) ||
                bool_decide (get_decision_by_public_id t (sr_decision_public_id row) = None)) IntegrityError
      "FOREIGN KEY";;
    Ok (MkResTables (qt_queue t) (qt_decisions t) (qt_results t ++ [row]))).

(** [_insert_decision]. *)
Definition insert_decision (d : ResolutionDecision) : ResDB bool :=
  existing ← read (λ t, get_decision_by_public_id t (rd_decision_id d));
  match existing with
  | Some row =>
      if decision_row_matches row d then mret false
      else lift (raise DuplicateResolutionPersistenceError "Conflicting resolution decision public_id")
  | None => insert_decision_row (decision_values d);; mret true
  end.

(** [_insert_result]. *)
Definition insert_result (r : ResolutionResult) : ResDB bool :=
  existing ← read (λ t, get_result_by_public_id t (rr_result_id r));
  match existing with
  | Some row =>
      matches ← lift (result_row_matches row r);
      if matches : bool then mret false
      else lift (raise DuplicateResolutionPersistenceError "Conflicting resolution result public_id")
  | None => row ← lift (result_values r); insert_result_row row;; mret true
  end.

Definition persist_decision (cs : CorrectionState) (in_transaction : bool) (d : ResolutionDecision) : ResDB bool :=
  owned_write in_transaction
    (examine (λ t, guard_successful_decision_replay cs t d);; insert_decision d).

(** [if result.success and verify_correction_schema(conn): assert_resolution_basic(result)]. *)
Definition check_basic (cs : CorrectionState) (r : ResolutionResult) : result unit :=
  if rr_success r then present ← cs_schema cs; if present : bool then assert_resolution_basic r else Ok tt
  else Ok tt.

Definition store_completed (cs : CorrectionState) (r : ResolutionResult) : ResDB bool :=
  r' ← examine (λ t, complete_success_evidence cs t r); insert_result r'.

Definition persist_result (cs : CorrectionState) (in_transaction : bool) (r : ResolutionResult) : ResDB bool :=
  owned_write in_transaction
    (examine (λ t, guard_successful_resolution cs t r);;
     lift (check_basic cs r);;
     stored ← read (λ t, get_decision_by_public_id t (rd_decision_id (rr_decision r)));
     lift (refuse match stored with Some row => negb (decision_row_matches row (rr_decision r)) | None => true end
             "result conflicts with persisted decision");;
     store_completed cs r).

(** [_SUCCESSFUL_STATUS_MAP]. *)
Definition successful_status (action : ResolutionAction.t) : string :=
  match action with
  | ResolutionAction.CONFIRM_MATCH | ResolutionAction.ADJUST_APP_TRANSACTION
  | ResolutionAction.CREATE_MISSING_APP_TRANSACTION | ResolutionAction.MARK_STATEMENT_ONLY
  | ResolutionAction.MARK_DUPLICATE => "resolved"
  | ResolutionAction.IGNORE => "ignored"
  | ResolutionAction.NEEDS_MORE_INFO => "needs_more_info"
  end.
Definition outcome_status (r : ResolutionResult) (d : ResolutionDecision) : string :=
  if rr_success r then successful_status (rd_action d) else "pending".

Definition set_status (public_id status : string) : ResDB unit :=
  execute (λ t, q ← update_status (qt_queue t) public_id status; Ok (MkResTables q.1 (qt_decisions t) (qt_results t))).

(** The first check of a bound item in [apply_resolution]. *)
Definition check_bound_item (cs : CorrectionState) (t : ResolutionTables) (item : ReviewQueueItem) (r : ResolutionResult) :
    result unit :=
  if successful_classification r then
    bound ← bound_queue_of cs t (qi_queue_item_id item);
    match bound with Some b => assert_candidate_matches_bound b item | None => Ok tt end
  else Ok tt.

(** [apply_resolution]; the clock shows [now_iso] when the runtime resolves. *)
Definition apply_resolution (cs : CorrectionState) (in_transaction : bool) (item : ReviewQueueItem)
    (d : ResolutionDecision) (given : option ResolutionResult) (now_iso : string) : ResDB ResolutionResult :=
  let r := default (resolve item d now_iso) given in
  owned_write in_transaction
    (lift (refuse (negb (bool_decide (rr_decision r = d)) || negb (item_eqb (rr_queue_item r) item))
             "caller and result disagree");;
     examine (λ t, check_bound_item cs t item r);;
     examine (λ t, guard_successful_resolution cs t r);;
     lift (check_basic cs r);;
     insert_decision d;;
     store_completed cs r;;
     set_status (qi_queue_item_id item) (outcome_status r d));;
  mret r.
