(* ===== verification/ApplyResultStore.v ===== *)
(** * The stored results of the apply runtime

    reconciliation/apply_persistence.py: the results of the file ApplyRuntime
    in the table of migration 008, in one database with the queue and the
    resolutions of the file ResolutionStore.  A decision has one stored result
    at most; a successful classification is stored only for the frozen source
    of its queue item, and never once a transaction it touches is corrected.
    A repetition may differ from the stored row in the flag [idempotent] only.
    Times of creation are left out. *)

From Stdlib Require Import Ascii ZArith SpecFloat Lia.
From stdpp Require Import base sets strings sorting numbers list.
From S2P Require Import Prelude PyDecimal PyValue Hash Json JsonParse PyDate PyDateTime PyFloat ReconModels ReconDecision ReconMatcher ReconBatch ReviewModels ReviewQueue ApplyRuntime BoundCodec Snapshot Resolution SourceBinding ReviewPersistence Integrity Sqlite ResolutionStore.

Open Scope Z_scope.

(** ** The table *)

Record AppliedRow := MkApplied {
  sa_apply_id : string;
  sa_decision_id : string;
  sa_queue_item_id : string;
  sa_candidate_id : option string;
  sa_action : string;
  sa_success : Z;
  sa_idempotent : Z;
  sa_payload_json : string;
  sa_audit_evidence_json : string;
  sa_statement_reference_json : option string;
  sa_app_transaction_reference_json : option string;
  sa_reviewer : option string;
  sa_note : option string;
  sa_fingerprint : string;
  sa_applied_at : string;
}.

#[export] Instance applied_row_eq_dec : EqDecision AppliedRow.
Proof. solve_decision. Defined.

(** The tables of the reconciliation. *)
Record ReconTables := MkRecon {
  db_resolution : ResolutionTables;
  db_applied : list AppliedRow;
}.
Abbreviation ReconDB := (DB ReconTables).

(** [_get_by_apply_id] and [_get_by_decision_id]. *)
Definition get_by_apply_id (rows : list AppliedRow) (apply_id : string) : option AppliedRow :=
  List.find (λ r, String.eqb (sa_apply_id r) apply_id) rows.
Definition get_by_decision_id (rows : list AppliedRow) (decision_id : string) : option AppliedRow :=
  List.find (λ r, String.eqb (sa_decision_id r) decision_id) rows.

(** [SELECT 1 ... WHERE apply_id = ? OR decision_id = ?]. *)
Definition identity_taken (rows : list AppliedRow) (r : ResolutionApplyResult) : bool :=
  existsb (λ row, String.eqb (sa_apply_id row) (ar_apply_id r) || String.eqb (sa_decision_id row) (ar_decision_id r)) rows.

(** ** Serialization *)

(** [_serialize_payload] and [_serialize_audit_evidence]: an empty value is
    written as an empty object. *)
Definition serialize_mapping (v : json) : result string :=
  if json_truth v then json_dumps_ascii v else json_dumps_ascii (JDict []).

(** [_serialize_ref]. *)
Definition serialize_ref (ref : option string) : option string := (λ s, canonical (JStr s)) <$> ref.

(** [_build_fingerprint]. *)
Definition build_fingerprint (r : ResolutionApplyResult) : result string :=
  raw ← json_dumps_ascii
    (JDict [("apply_id", JStr (ar_apply_id r)); ("decision_id", JStr (ar_decision_id r));
            ("queue_item_id", JStr (ar_queue_item_id r)); ("action", JStr (ResolutionAction.value (ar_action r)));
            ("success", JBool (ar_success r)); ("payload", ar_payload r); ("reviewer", JStr (ar_reviewer r));
            ("note", JStr (ar_note r))]);
  Ok (hexdigest (sha256 (encode raw))).

(** The values of the columns. *)
Definition applied_values (r : ResolutionApplyResult) : result AppliedRow :=
  fingerprint ← build_fingerprint r;
  payload ← serialize_mapping (ar_payload r);
  evidence ← serialize_mapping (ar_audit_evidence r);
  Ok (MkApplied (ar_apply_id r) (ar_decision_id r) (ar_queue_item_id r) (text_or_none (ar_candidate_id r))
        (ResolutionAction.value (ar_action r)) (if ar_success r then 1 else 0) (if ar_idempotent r then 1 else 0)
        payload evidence (serialize_ref (ar_statement_reference r)) (serialize_ref (ar_app_transaction_reference r))
        (text_or_none (ar_reviewer r)) (text_or_none (ar_note r)) fingerprint (ar_applied_at r)).

(** ** The guard of successful results *)

(** [_reject_source_identity]. *)
Definition reject_source_identity {A} (rows : list AppliedRow) (r : ResolutionApplyResult) : result A :=
  raise_when (bool_decide (is_Some (get_by_apply_id rows (ar_apply_id r)))) ApplyPersistenceConflictError
    "Conflicting apply_id";;
  raise_when (bool_decide (is_Some (get_by_decision_id rows (ar_decision_id r)))) ApplyPersistenceConflictError
    "Conflicting decision_id";;
  bad "successful reconciliation apply source identity changed".

(** A refusal is a conflict when the identity is taken. *)
Definition or_conflict (rows : list AppliedRow) (r : ResolutionApplyResult) (m : result unit) : result unit :=
  catch m ValueError (λ e, if identity_taken rows r then reject_source_identity rows r else Raise e).

(** The payload of a result is a dictionary. *)
Definition payload_members (v : json) : result (list (string * json)) :=
  match v with JDict d => Ok d | _ => raise AttributeError "payload" end.

(** A nonempty list of distinct, nonempty texts with two members at least. *)
Definition duplicate_ids (v : json) : option (list string) :=
  match v with
  | JList l => match mapM nonempty_text l with
               | Some ids => if (length ids <? 2)%nat || has_duplicates ids then None else Some ids
               | None => None
               end
  | _ => None
  end.

Definition is_true (v : json) : bool := match v with JBool b => b | _ => false end.

(** The app transactions a confirmation names. *)
Definition match_targets (r : ResolutionApplyResult) (payload : list (string * json)) : result (list string) :=
  match nonempty_text (get payload "app_txn_id") with
  | None => bad "successful reconciliation has incomplete app target enumeration"
  | Some target =>
      refuse (differs payload "action_type" (JStr "confirm_match") ||
              negb (bool_decide (ar_app_transaction_reference r = Some target)))
        "successful reconciliation has incomplete app target enumeration";;
      Ok [target]
  end.

(** The app transactions a duplicate classification names. *)
Definition duplicate_targets (r : ResolutionApplyResult) (payload : list (string * json)) : result (list string) :=
  let incomplete := "successful duplicate classification has incomplete app targets" in
  match duplicate_ids (get payload "duplicate_app_txn_ids"), get payload "kept_app_txn_id" with
  | Some duplicates, JStr kept =>
      refuse (negb (str_in kept duplicates) || differs payload "action_type" (JStr "mark_duplicate") ||
              negb (is_true (get payload "audit_only")) ||
              match ar_app_transaction_reference r with Some ref => negb (str_in ref duplicates) | None => false end)
        incomplete;;
      Ok (duplicates ++ [kept])
  | _, _ => bad incomplete
  end.

(** What a bound result must share with the frozen source. *)
Definition check_bound_result (rows : list AppliedRow) (r : ResolutionApplyResult) (b : BoundQueue)
    (payload : list (string * json)) : result unit :=
  refuse (negb (action_fits (ar_action r) (bq_issue_type b))) "apply action conflicts with frozen queue issue";;
  evidence ← payload_members (ar_audit_evidence r);
  (if negb (String.eqb (ar_candidate_id r) (bq_candidate_id b)) ||
      negb (bool_decide (ar_statement_reference r = bq_statement_transaction_ref b)) ||
      negb (bool_decide (ar_app_transaction_reference r = bq_app_transaction_ref b)) ||
      differs evidence "queue_item_id" (JStr (bq_queue_item_id b)) ||
      differs evidence "candidate_id" (JStr (bq_candidate_id b)) ||
      differs evidence "resolution_action" (JStr (ResolutionAction.value (ar_action r))) ||
      differs evidence "issue_type" (JStr (IssueType.value (bq_issue_type b))) ||
      differs evidence "decision_id" (JStr (ar_decision_id r)) ||
      differs evidence "reviewer" (JStr (ar_reviewer r)) ||
      note_differs evidence (text_or_none (ar_note r))
   then reject_source_identity rows r else Ok tt);;
  if bool_decide (ar_action r = ResolutionAction.MARK_DUPLICATE) then
    refuse (differs payload "duplicate_app_txn_ids" (JList (JStr <$> (app_txn_id <$> bq_app_transactions b))) ||
            differs payload "kept_app_txn_id" (text_or_null (bq_app_transaction_ref b)))
      "duplicate apply targets differ from frozen queue source"
  else refuse (differs payload "app_txn_id" (text_or_null (bq_app_transaction_ref b)))
         "apply target differs from frozen queue source".

(** [if result.success and verify_correction_schema(conn): assert_apply_basic(result)]. *)
Definition check_apply_basic (cs : CorrectionState) (rows : list AppliedRow) (r : ResolutionApplyResult) : result unit :=
  if ar_success r then
    present ← cs_schema cs;
    if present : bool then or_conflict rows r (assert_apply_basic r) else Ok tt
  else Ok tt.

Definition applied_classification (r : ResolutionApplyResult) : bool := ar_success r && is_classification (ar_action r).

(** [_guard_successful_apply]. *)
Definition guard_successful_apply (cs : CorrectionState) (t : ReconTables) (r : ResolutionApplyResult) : result unit :=
  let rows := db_applied t in
  check_apply_basic cs rows r;;
  if negb (applied_classification r) then Ok tt
  else
    bound ← bound_queue_of cs (db_resolution t) (ar_queue_item_id r);
    match bound with Some b => or_conflict rows r (assert_apply_envelope r b) | None => Ok tt end;;
    payload ← payload_members (ar_payload r);
    targets ← (if bool_decide (ar_action r = ResolutionAction.CONFIRM_MATCH) then match_targets r payload
               else duplicate_targets r payload);
    match bound with Some b => check_bound_result rows r b payload | None => Ok tt end;;
    refuse_corrected cs
      (targets ++ (app_txn_id <$> match bound with Some b => bq_app_transactions b | None => [] end) ++
       option_list (ar_app_transaction_reference r)).

(** ** Writing *)

(** Every column but [idempotent] and [fingerprint] agrees. *)
Definition same_claim (row values : AppliedRow) : bool :=
  let columns r := (sa_apply_id r, sa_decision_id r, sa_queue_item_id r, sa_candidate_id r, sa_action r, sa_success r,
                    sa_payload_json r, sa_audit_evidence_json r, sa_statement_reference_json r,
                    sa_app_transaction_reference_json r, sa_reviewer r, sa_note r, sa_applied_at r) in
  bool_decide (columns row = columns values).

(** The INSERT, under the two constraints of uniqueness. *)
Definition insert_applied_row (row : AppliedRow) : ReconDB unit :=
  execute (λ t,
    raise_when (bool_decide (is_Some (get_by_apply_id (db_applied t) (sa_apply_id row))) ||
                bool_decide (is_Some (get_by_decision_id (db_applied t) (sa_decision_id row)))) IntegrityError "UNIQUE";;
    Ok (MkRecon (db_resolution t) (db_applied t ++ [row]))).

(** The row a result collides with. *)
Definition existing_row (rows : list AppliedRow) (r : ResolutionApplyResult) : option AppliedRow :=
  match get_by_apply_id rows (ar_apply_id r) with
  | Some row => Some row
  | None => get_by_decision_id rows (ar_decision_id r)
  end.

(** [_insert_result]. *)
Definition insert_applied (r : ResolutionApplyResult) : ReconDB bool :=
  values ← lift (applied_values r);
  existing ← read (λ t, existing_row (db_applied t) r);
  match existing with
  | Some row =>
      if String.eqb (sa_fingerprint row) (sa_fingerprint values) && same_claim row values then mret false
      else lift (raise ApplyPersistenceConflictError "Conflicting result")
  | None => insert_applied_row values;; mret true
  end.

(** The guard and the insertion of one result. *)
Definition save_guarded (cs : CorrectionState) (r : ResolutionApplyResult) : ReconDB bool :=
  examine (λ t, guard_successful_apply cs t r);; insert_applied r.

Definition save_apply_result (cs : CorrectionState) (in_transaction : bool) (r : ResolutionApplyResult) : ReconDB bool :=
  owned_write in_transaction (save_guarded cs r).

(** The loop of [persist_apply_results]. *)
Fixpoint persist_each (cs : CorrectionState) (results : list ResolutionApplyResult) (count : Z) : ReconDB Z :=
  match results with
  | [] => mret count
  | r :: results => inserted ← save_guarded cs r; persist_each cs results (if inserted : bool then count + 1 else count)
  end.

Definition persist_apply_results (cs : CorrectionState) (in_transaction : bool) (results : list ResolutionApplyResult) :
    ReconDB Z :=
  owned_write in_transaction (persist_each cs results 0).

(** ** Reading *)

Definition get_apply_result_by_apply_id (t : ReconTables) (apply_id : string) : option AppliedRow :=
  get_by_apply_id (db_applied t) apply_id.
Definition get_apply_result_by_decision_id (t : ReconTables) (decision_id : string) : option AppliedRow :=
  get_by_decision_id (db_applied t) decision_id.

Definition list_apply_results_for_queue_item (t : ReconTables) (queue_item_id : string) : list AppliedRow :=
  isort (λ a b, String.leb (sa_applied_at a) (sa_applied_at b))
    (keep (λ r, String.eqb (sa_queue_item_id r) queue_item_id) (db_applied t)).
Definition has_apply_result_for_queue_item (t : ReconTables) (queue_item_id : string) : bool :=
  existsb (λ r, String.eqb (sa_queue_item_id r) queue_item_id) (db_applied t).
Definition list_all (t : ReconTables) : list AppliedRow :=
  isort (λ a b, String.leb (sa_applied_at b) (sa_applied_at a)) (db_applied t).
