(* ===== verification/AuditChain.v ===== *)
(** * Append-only audit chains

    financial_audit/chain.py: events of an aggregate are linked by the hash of
    their predecessor and by the continuity of the states they record.  The
    table of events is a list of rows in insertion order; an operation that
    raises leaves it as it was, since the insertion is the last effect of
    [append_financial_audit_event] and the only one.  The uniqueness
    constraints of the table are those of its migration, whose CHECK
    constraints hold of every verified event.  The admission of the
    connection, which instance_admission decides, is an argument.  Source
    references are ASCII texts. *)

From Stdlib Require Import Ascii ZArith Lia.
From stdpp Require Import base sets strings sorting numbers list.
From S2P Require Import Prelude PyDecimal PyValue Hash PyDate PyDateTime Json JsonParse Snapshot.

Open Scope Z_scope.

Definition AUDIT_SCHEMA_VERSION : string := "v1".
Definition SUPPORTED_AUDIT_SCHEMA_VERSIONS : list string := [AUDIT_SCHEMA_VERSION].
Definition ZERO_AUDIT_HASH : string := of_chars (replicate 64 "0"%char).

(** [previous_state] is [None] where the caller leaves it to the chain. *)
Record AuditEventCommand := MkCommand {
  ac_event_public_id : string;
  ac_aggregate_type : string;
  ac_aggregate_public_id : string;
  ac_event_type : string;
  ac_event_payload : payload;
  ac_new_state : payload;
  ac_actor_type : string;
  ac_actor_public_id : string;
  ac_correlation_public_id : string;
  ac_causation_public_id : string;
  ac_created_at : string;
  ac_previous_state : payload;
  ac_expected_previous_event_hash : option string;
  ac_authorization_public_id : option string;
  ac_calculation_snapshot_public_id : option string;
  ac_calculation_snapshot_hash : option string;
  ac_source_evidence_references : list string;
  ac_audit_schema_version : string;
}.

Record FinancialAuditEvent := MkEvent {
  ev_event_public_id : string;
  ev_audit_schema_version : string;
  ev_aggregate_type : string;
  ev_aggregate_public_id : string;
  ev_event_type : string;
  ev_event_payload_json : string;
  ev_previous_state_json : string;
  ev_new_state_json : string;
  ev_previous_state_hash : string;
  ev_new_state_hash : string;
  ev_previous_event_hash : string;
  ev_event_hash : string;
  ev_actor_type : string;
  ev_actor_public_id : string;
  ev_authorization_public_id : option string;
  ev_calculation_snapshot_public_id : option string;
  ev_calculation_snapshot_hash : option string;
  ev_source_evidence_references : list string;
  ev_correlation_public_id : string;
  ev_causation_public_id : string;
  ev_sequence_number : Z;
  ev_created_at : string;
}.

#[global] Instance event_eq_dec : EqDecision FinancialAuditEvent.
Proof. solve_decision. Defined.

(** A row of [financial_audit_events]: an event whose references are a JSON
    text. *)
Record AuditRow := MkRow { row_event : FinancialAuditEvent; source_evidence_refs_json : string }.

(** ** Validation *)

Definition validate_hash (value label : string) : result unit :=
  raise_when (negb (is_sha256 value)) AuditVerificationError ("Invalid " +:+ label +:+ " SHA-256 hash").

Definition normalize_timestamp (value : string) : result string :=
  match fromisoformat (replace_Z value) with
  | None => raise AuditVerificationError "Audit created_at must be ISO 8601"
  | Some parsed =>
      match utcoffset parsed with
      | None => raise AuditVerificationError "Audit created_at must be timezone-aware"
      | Some o => utc ← to_utc parsed o; Ok (utc_isoformat utc)
      end
  end.

Definition opt_check {A} (o : option A) (f : A → result unit) : result unit :=
  match o with Some a => f a | None => Ok tt end.

(** The names of the blank fields. *)
Definition missing_fields (required : list (string * string)) : list string :=
  fst <$> filter (λ kv, blank kv.2 = true) required.

Fixpoint comma_space (l : list string) : string :=
  match l with [] => "" | [x] => x | x :: k => x +:+ ", " +:+ comma_space k end.

Section AuditChain.
(** [unicodedata.normalize("NFC", s)]. *)
Variable nfc : string → string.

Definition audit_references (values : list string) : result (list string) :=
  if existsb blank values then raise AuditVerificationError "Audit source references must be non-empty strings"
  else
    let normalized := isort String.leb (nfc <$> values) in
    if has_duplicates normalized then raise AuditVerificationError "Audit source references must be unique"
    else Ok normalized.

Definition validate_command (c : AuditEventCommand) : result unit :=
  raise_when (negb (str_in (ac_audit_schema_version c) SUPPORTED_AUDIT_SCHEMA_VERSIONS))
    UnsupportedAuditVersionError ("Unsupported audit schema version: " +:+ ac_audit_schema_version c);;
  let missing := missing_fields
    [("event_public_id", ac_event_public_id c); ("aggregate_type", ac_aggregate_type c);
     ("aggregate_public_id", ac_aggregate_public_id c); ("event_type", ac_event_type c);
     ("actor_type", ac_actor_type c); ("actor_public_id", ac_actor_public_id c);
     ("correlation_public_id", ac_correlation_public_id c); ("causation_public_id", ac_causation_public_id c)] in
  raise_when (negb (bool_decide (missing = []))) AuditVerificationError
    ("Missing audit fields: " +:+ comma_space missing);;
  opt_check (ac_expected_previous_event_hash c) (λ h, validate_hash h "expected predecessor");;
  raise_when (negb (bool_decide (is_Some (ac_calculation_snapshot_public_id c) ↔
                                 is_Some (ac_calculation_snapshot_hash c))))
    AuditVerificationError "Calculation snapshot ID and hash must be supplied together";;
  opt_check (ac_calculation_snapshot_public_id c) (λ s, raise_when (blank s) AuditVerificationError
    "Calculation snapshot public ID must not be empty");;
  opt_check (ac_calculation_snapshot_hash c) (λ h, validate_hash h "calculation snapshot");;
  opt_check (ac_authorization_public_id c) (λ s, raise_when (blank s) AuditVerificationError
    "Authorization public ID must not be empty");;
  normalize_timestamp (ac_created_at c);;
  audit_references (ac_source_evidence_references c);;
  Ok tt.

Definition validate_event_fields (e : FinancialAuditEvent) : result unit :=
  validate_command
    (MkCommand (ev_event_public_id e) (ev_aggregate_type e) (ev_aggregate_public_id e) (ev_event_type e)
       PNone PNone (ev_actor_type e) (ev_actor_public_id e) (ev_correlation_public_id e)
       (ev_causation_public_id e) (ev_created_at e) PNone (Some (ev_previous_event_hash e))
       (ev_authorization_public_id e) (ev_calculation_snapshot_public_id e) (ev_calculation_snapshot_hash e)
       (ev_source_evidence_references e) (ev_audit_schema_version e));;
  raise_when (ev_sequence_number e <=? 0) AuditVerificationError "Audit sequence number must be positive";;
  validate_hash (ev_previous_state_hash e) "previous state";;
  validate_hash (ev_new_state_hash e) "new state";;
  validate_hash (ev_previous_event_hash e) "previous event";;
  validate_hash (ev_event_hash e) "event";;
  created ← normalize_timestamp (ev_created_at e);
  raise_when (negb (String.eqb created (ev_created_at e))) AuditVerificationError
    "Audit created_at is not canonical UTC";;
  references ← audit_references (ev_source_evidence_references e);
  raise_when (negb (bool_decide (references = ev_source_evidence_references e))) AuditVerificationError
    "Audit source references are not canonical".

Definition verified_canonical_json_bytes (value label : string) : result string :=
  parsed ← catch (json_loads value) JSONDecodeError
             (λ _, raise AuditVerificationError ("Stored " +:+ label +:+ " is invalid JSON"));
  canonical ← json_dumps parsed;
  raise_when (negb (String.eqb canonical value)) AuditVerificationError
    ("Stored " +:+ label +:+ " is not canonical JSON");;
  match is_envelope parsed with
  | Some _ => Ok value
  | None => raise AuditVerificationError ("Stored " +:+ label +:+ " has unsupported canonical contract")
  end.

(** ** Hashes *)

Definition state_hash_of_text (text : string) : string := snapshot_domain_hash "finance-audit-state-v1" text.

Definition financial_state_hash (state : payload) : result string :=
  text ← canonical_json_bytes nfc state; Ok (state_hash_of_text text).

(** The material of [_event_hash]. *)
Definition event_material (e : FinancialAuditEvent) (previous_state_hash new_state_hash : string) : payload :=
  record
    [("event_public_id", PStr (ev_event_public_id e));
     ("audit_schema_version", PStr (ev_audit_schema_version e));
     ("aggregate_type", PStr (ev_aggregate_type e));
     ("aggregate_public_id", PStr (ev_aggregate_public_id e));
     ("event_type", PStr (ev_event_type e));
     ("event_payload_json", PStr (ev_event_payload_json e));
     ("previous_state_json", PStr (ev_previous_state_json e));
     ("new_state_json", PStr (ev_new_state_json e));
     ("previous_state_hash", PStr previous_state_hash);
     ("new_state_hash", PStr new_state_hash);
     ("previous_event_hash", PStr (ev_previous_event_hash e));
     ("actor_type", PStr (ev_actor_type e));
     ("actor_public_id", PStr (ev_actor_public_id e));
     ("authorization_public_id", opt_str (ev_authorization_public_id e));
     ("calculation_snapshot_public_id", opt_str (ev_calculation_snapshot_public_id e));
     ("calculation_snapshot_hash", opt_str (ev_calculation_snapshot_hash e));
     ("source_evidence_references", PList (PStr <$> ev_source_evidence_references e));
     ("correlation_public_id", PStr (ev_correlation_public_id e));
     ("causation_public_id", PStr (ev_causation_public_id e));
     ("sequence_number", PInt (ev_sequence_number e));
     ("created_at", PStr (ev_created_at e))].

Definition event_bytes (e : FinancialAuditEvent) (previous_state_hash new_state_hash : string) : result string :=
  canonical_json_bytes nfc (event_material e previous_state_hash new_state_hash).

Definition event_hash (e : FinancialAuditEvent) (previous_state_hash new_state_hash : string) : result string :=
  material ← event_bytes e previous_state_hash new_state_hash;
  Ok (snapshot_domain_hash "finance-audit-event-v1" material).

Definition derive_audit_event_public_id (aggregate_type aggregate_public_id event_type causation_public_id : string)
    : result string :=
  material ← canonical_json_bytes nfc
    (record [("aggregate_type", PStr aggregate_type); ("aggregate_public_id", PStr aggregate_public_id);
             ("event_type", PStr event_type); ("causation_public_id", PStr causation_public_id)]);
  Ok ("fae-" +:+ of_chars (take 24 (chars (snapshot_domain_hash "finance-audit-event-id-v1" material)))).

(** [FinancialAuditEvent.verify]. *)
Definition verify_event (e : FinancialAuditEvent) : result unit :=
  raise_when (negb (str_in (ev_audit_schema_version e) SUPPORTED_AUDIT_SCHEMA_VERSIONS))
    UnsupportedAuditVersionError ("Unsupported audit schema version: " +:+ ev_audit_schema_version e);;
  validate_event_fields e;;
  verified_canonical_json_bytes (ev_event_payload_json e) "event payload";;
  previous_state_bytes ← verified_canonical_json_bytes (ev_previous_state_json e) "previous state";
  new_state_bytes ← verified_canonical_json_bytes (ev_new_state_json e) "new state";
  let expected_previous_state := state_hash_of_text previous_state_bytes in
  let expected_new_state := state_hash_of_text new_state_bytes in
  raise_when (negb (String.eqb (ev_previous_state_hash e) expected_previous_state))
    AuditVerificationError "Audit previous-state hash mismatch";;
  raise_when (negb (String.eqb (ev_new_state_hash e) expected_new_state))
    AuditVerificationError "Audit new-state hash mismatch";;
  expected_event ← event_hash e expected_previous_state expected_new_state;
  raise_when (negb (String.eqb (ev_event_hash e) expected_event))
    AuditVerificationError "Audit event hash mismatch".

Definition set_event_hash (e : FinancialAuditEvent) (h : string) : FinancialAuditEvent :=
  MkEvent (ev_event_public_id e) (ev_audit_schema_version e) (ev_aggregate_type e) (ev_aggregate_public_id e)
    (ev_event_type e) (ev_event_payload_json e) (ev_previous_state_json e) (ev_new_state_json e)
    (ev_previous_state_hash e) (ev_new_state_hash e) (ev_previous_event_hash e) h (ev_actor_type e)
    (ev_actor_public_id e) (ev_authorization_public_id e) (ev_calculation_snapshot_public_id e)
    (ev_calculation_snapshot_hash e) (ev_source_evidence_references e) (ev_correlation_public_id e)
    (ev_causation_public_id e) (ev_sequence_number e) (ev_created_at e).

(** The event of a command before its hash is known. *)
Definition provisional_event (c : AuditEventCommand) (payload_json new_state_json : string) (references : list string)
    (sequence_number : Z) (previous_event_hash previous_state_json created_at : string) : FinancialAuditEvent :=
  MkEvent (ac_event_public_id c) (ac_audit_schema_version c) (ac_aggregate_type c) (ac_aggregate_public_id c)
    (ac_event_type c) payload_json previous_state_json new_state_json
    (state_hash_of_text previous_state_json) (state_hash_of_text new_state_json)
    previous_event_hash ZERO_AUDIT_HASH (ac_actor_type c) (ac_actor_public_id c)
    (ac_authorization_public_id c) (ac_calculation_snapshot_public_id c) (ac_calculation_snapshot_hash c)
    references (ac_correlation_public_id c) (ac_causation_public_id c) sequence_number created_at.

Definition build_event (c : AuditEventCommand) (sequence_number : Z)
    (previous_event_hash previous_state_json created_at : string) : result FinancialAuditEvent :=
  payload_json ← canonical_json_bytes nfc (ac_event_payload c);
  new_state_json ← canonical_json_bytes nfc (ac_new_state c);
  references ← audit_references (ac_source_evidence_references c);
  let provisional := provisional_event c payload_json new_state_json references sequence_number
                       previous_event_hash previous_state_json created_at in
  h ← event_hash provisional (ev_previous_state_hash provisional) (ev_new_state_hash provisional);
  let event := set_event_hash provisional h in
  verify_event event;; Ok event.

(** ** The table *)

(** [_event_values]. *)
Definition event_row (e : FinancialAuditEvent) : AuditRow :=
  MkRow e (canonical (JList (JStr <$> ev_source_evidence_references e))).

Definition text_of (v : json) : option string := match v with JStr s => Some s | _ => None end.

Definition read_references (text : string) : result (list string) :=
  raw ← catch (json_loads text) JSONDecodeError
          (λ _, raise AuditVerificationError "Audit source references are invalid");
  match raw with
  | JList l => match mapM text_of l with
               | Some references => Ok references
               | None => raise AuditVerificationError "Audit source references are invalid" end
  | _ => raise AuditVerificationError "Audit source references are invalid"
  end.

Definition set_references (e : FinancialAuditEvent) (references : list string) : FinancialAuditEvent :=
  MkEvent (ev_event_public_id e) (ev_audit_schema_version e) (ev_aggregate_type e) (ev_aggregate_public_id e)
    (ev_event_type e) (ev_event_payload_json e) (ev_previous_state_json e) (ev_new_state_json e)
    (ev_previous_state_hash e) (ev_new_state_hash e) (ev_previous_event_hash e) (ev_event_hash e) (ev_actor_type e)
    (ev_actor_public_id e) (ev_authorization_public_id e) (ev_calculation_snapshot_public_id e)
    (ev_calculation_snapshot_hash e) references (ev_correlation_public_id e)
    (ev_causation_public_id e) (ev_sequence_number e) (ev_created_at e).

Definition row_to_event (r : AuditRow) : result FinancialAuditEvent :=
  references ← read_references (source_evidence_refs_json r);
  let event := set_references (row_event r) references in
  verify_event event;; Ok event.

Definition same_aggregate (aggregate_type aggregate_public_id : string) (r : AuditRow) : bool :=
  String.eqb (ev_aggregate_type (row_event r)) aggregate_type &&
  String.eqb (ev_aggregate_public_id (row_event r)) aggregate_public_id.

Definition row_sequence (r : AuditRow) : Z := ev_sequence_number (row_event r).

(** [SELECT * ... WHERE aggregate ... ORDER BY sequence_number ASC]. *)
Definition select_chain (rows : list AuditRow) (aggregate_type aggregate_public_id : string) : list AuditRow :=
  isort (λ a b, row_sequence a <=? row_sequence b)
    (filter (λ r, same_aggregate aggregate_type aggregate_public_id r = true) rows).

Definition opt_row (o : option AuditRow) : result (option FinancialAuditEvent) :=
  match o with Some r => Some <$> row_to_event r | None => Ok None end.

(** [FinancialAuditRepository.fetch], [head], [list_chain] and [insert]. *)
Definition fetch (rows : list AuditRow) (event_public_id : string) : result (option FinancialAuditEvent) :=
  opt_row (List.find (λ r, String.eqb (ev_event_public_id (row_event r)) event_public_id) rows).

Definition head (rows : list AuditRow) (aggregate_type aggregate_public_id : string) :
    result (option FinancialAuditEvent) :=
  opt_row (hd_error (isort (λ a b, row_sequence b <=? row_sequence a)
    (filter (λ r, same_aggregate aggregate_type aggregate_public_id r = true) rows))).

Definition list_chain (rows : list AuditRow) (aggregate_type aggregate_public_id : string) :
    result (list FinancialAuditEvent) :=
  mapM row_to_event (select_chain rows aggregate_type aggregate_public_id).

(** The uniqueness constraints of the table. *)
Definition collides (e : FinancialAuditEvent) (r : AuditRow) : bool :=
  let o := row_event r in
  String.eqb (ev_event_public_id o) (ev_event_public_id e) || String.eqb (ev_event_hash o) (ev_event_hash e) ||
  (same_aggregate (ev_aggregate_type e) (ev_aggregate_public_id e) r &&
   ((ev_sequence_number o =? ev_sequence_number e) ||
    String.eqb (ev_previous_event_hash o) (ev_previous_event_hash e) ||
    (String.eqb (ev_event_type o) (ev_event_type e) &&
     String.eqb (ev_causation_public_id o) (ev_causation_public_id e)))).

Definition insert_event (rows : list AuditRow) (e : FinancialAuditEvent) : result (list AuditRow) :=
  verify_event e;;
  raise_when (existsb (collides e) rows) IntegrityError "UNIQUE constraint";;
  Ok (rows ++ [event_row e]).

(** ** Chains *)

Record AuditChainVerification := MkVerification {
  cv_valid : bool;
  cv_aggregate_type : string;
  cv_aggregate_public_id : string;
  cv_event_count : Z;
  cv_first_invalid_event_public_id : option string;
  cv_first_invalid_sequence_number : option Z;
  cv_reason : option string;
  cv_legacy_without_chain : bool;
}.

(** The body of the loop of [verify_financial_audit_chain]. *)
Definition check_link (previous : option FinancialAuditEvent) (index : Z) (row : AuditRow) :
    result FinancialAuditEvent :=
  event ← row_to_event row;
  raise_when (negb (ev_sequence_number event =? index)) AuditVerificationError "Audit sequence is not contiguous";;
  let expected_previous_hash := match previous with None => ZERO_AUDIT_HASH | Some p => ev_event_hash p end in
  raise_when (negb (String.eqb (ev_previous_event_hash event) expected_previous_hash))
    AuditVerificationError "Audit previous-event hash mismatch";;
  match previous with
  | None => Ok tt
  | Some p => raise_when (negb (String.eqb (ev_previous_state_hash event) (ev_new_state_hash p)))
                AuditVerificationError "Audit state continuity mismatch"
  end;;
  Ok event.

(** [except (AuditVerificationError, KeyError, TypeError, ValueError)]. *)
Definition malformed (c : exn_class) : bool :=
  exn_isinstance c ValueError || exn_isinstance c KeyError || exn_isinstance c TypeError.

Definition invalid_reason (e : exn) : string :=
  if exn_isinstance (exn_cls e) AuditVerificationError then exn_site e
  else "Malformed audit row: " +:+ exn_site e.

Fixpoint verify_rows (aggregate_type aggregate_public_id : string) (count : Z) (previous : option FinancialAuditEvent)
    (index : Z) (rows : list AuditRow) : result AuditChainVerification :=
  match rows with
  | [] => Ok (MkVerification true aggregate_type aggregate_public_id count None None None false)
  | row :: rows =>
      match check_link previous index row with
      | Ok event => verify_rows aggregate_type aggregate_public_id count (Some event) (index + 1) rows
      | Raise e =>
          if malformed (exn_cls e) then
            Ok (MkVerification false aggregate_type aggregate_public_id count
                  (Some (ev_event_public_id (row_event row))) (Some (row_sequence row))
                  (Some (invalid_reason e)) false)
          else Raise e
      end
  end.

Definition verify_financial_audit_chain (table : list AuditRow) (aggregate_type aggregate_public_id : string) :
    result AuditChainVerification :=
  match select_chain table aggregate_type aggregate_public_id with
  | [] => Ok (MkVerification true aggregate_type aggregate_public_id 0 None None None true)
  | rows => verify_rows aggregate_type aggregate_public_id (Z.of_nat (length rows)) None 1 rows
  end.

(** ** Appending *)

Definition is_none (v : payload) : bool := match v with PNone => true | _ => false end.

(** A command whose identifier the table already holds. *)
Definition replay_event (c : AuditEventCommand) (existing : FinancialAuditEvent) : result FinancialAuditEvent :=
  previous_state_json ← (if is_none (ac_previous_state c) then Ok (ev_previous_state_json existing)
                         else canonical_json_bytes nfc (ac_previous_state c));
  candidate ← build_event c (ev_sequence_number existing) (ev_previous_event_hash existing) previous_state_json
                (ev_created_at existing);
  if bool_decide (candidate = existing) then Ok existing
  else raise AuditChainConflictError "Audit event public ID has conflicting content".

(** The text of the previous state of a new event. *)
Definition previous_state_text (c : AuditEventCommand) (head : option FinancialAuditEvent) : result string :=
  if is_none (ac_previous_state c) then
    match head with None => canonical_json_bytes nfc PNone | Some h => Ok (ev_new_state_json h) end
  else
    text ← canonical_json_bytes nfc (ac_previous_state c);
    match head with
    | None => Ok tt
    | Some h =>
        digest ← financial_state_hash (ac_previous_state c);
        raise_when (negb (String.eqb digest (ev_new_state_hash h))) AuditChainConflictError
          "Audit previous state does not match chain head"
    end;;
    Ok text.

(** The next event of a chain. *)
Definition next_event (c : AuditEventCommand) (head : option FinancialAuditEvent) : result FinancialAuditEvent :=
  let previous_event_hash := match head with None => ZERO_AUDIT_HASH | Some h => ev_event_hash h end in
  opt_check (ac_expected_previous_event_hash c) (λ expected,
    raise_when (negb (String.eqb expected previous_event_hash)) AuditChainConflictError
      "Audit chain predecessor changed");;
  previous_state_json ← previous_state_text c head;
  created_at ← normalize_timestamp (ac_created_at c);
  build_event c (match head with None => 1 | Some h => ev_sequence_number h + 1 end)
    previous_event_hash previous_state_json created_at.

Definition append_financial_audit_event (allowed : result unit) (in_transaction : bool) (rows : list AuditRow)
    (c : AuditEventCommand) : result (FinancialAuditEvent * bool * list AuditRow) :=
  allowed;;
  raise_when (negb in_transaction) AuditChainTransactionError
    "Financial audit append requires an active caller-owned transaction";;
  validate_command c;;
  chain ← verify_financial_audit_chain rows (ac_aggregate_type c) (ac_aggregate_public_id c);
  raise_when (negb (cv_valid chain)) AuditChainConflictError "Cannot append to invalid audit chain";;
  existing ← fetch rows (ac_event_public_id c);
  match existing with
  | Some existing => event ← replay_event c existing; Ok (event, true, rows)
  | None =>
      head ← head rows (ac_aggregate_type c) (ac_aggregate_public_id c);
      event ← next_event c head;
      rows' ← catch (insert_event rows event) IntegrityError
                (λ _, raise AuditChainConflictError "Audit chain append conflicted in SQLite");
      Ok (event, false, rows')
  end.

(** [append_financial_audit_event_atomically]: the transaction it owns commits
    the insertion, or is rolled back. *)
Definition append_financial_audit_event_atomically (allowed : result unit) (in_transaction : bool)
    (rows : list AuditRow) (c : AuditEventCommand) : result (FinancialAuditEvent * bool * list AuditRow) :=
  allowed;;
  raise_when in_transaction AuditChainTransactionError "Standalone audit append requires no pending transaction";;
  append_financial_audit_event allowed true rows c.
End AuditChain.
