(* ===== verification/Relationships.v ===== *)
(** * Which transactions may be corrected

    application/correction_relationships.py: before a correction of a final
    transaction is planned or committed, every table that may relate the
    transaction to something else is read.  An active relation refuses the
    correction, and so does a row that should not exist: nothing that cannot
    be understood counts as absent.  The tables of the reconciliation are those
    of the files ApplyResultStore and ExecStore, the audit chain that of
    AuditChain; of the other tables, the columns that are read.  Foreign keys
    are enforced, so that joins find their rows. *)

From Stdlib Require Import Ascii ZArith SpecFloat Lia.
From stdpp Require Import base sets strings sorting numbers list.
From S2P Require Import Prelude PyDecimal PyValue Hash Json JsonParse PyDate PyDateTime PyFloat ReconModels ReconDecision ReconMatcher ReconBatch ReviewModels ReviewQueue ApplyRuntime BoundCodec Snapshot Resolution SourceBinding ReviewPersistence Integrity Sqlite AuditChain GuardedExec ExecStore ResolutionStore ApplyResultStore.

Open Scope Z_scope.

(** ** Refusals *)

(** [_refuse]: the error's text is the classification and the evidence, the
    latter sorted and without repetitions. *)
Definition refuse_relation {A} (classification : string) (ids : list string) : result A :=
  raise CorrectionRelationshipError (classification +:+ ": " +:+ comma_space (sorted_set ids)).
Definition active {A} (label : string) : result A := refuse_relation "ACTIVE_RELATIONSHIP" [label].
Definition unknown {A} (label : string) : result A := refuse_relation "UNKNOWN_INTEGRITY" [label].
(** [if c: _refuse("UNKNOWN_INTEGRITY", label)]. *)
Definition unknown_when (c : bool) (label : string) : result unit := if c then unknown label else Ok tt.
Definition active_when (c : bool) (label : string) : result unit := if c then active label else Ok tt.
(** [except (ValueError, CorrectionSchemaError): _refuse(...)]. *)
Definition or_unknown {A} (label : string) (m : result A) : result A :=
  catch (catch m ValueError (λ _, unknown label)) CorrectionSchemaError (λ _, unknown label).

(** ** Stored texts *)

(** No member of an object is named twice. *)
Fixpoint distinct_members (v : json) : bool :=
  match v with
  | JList l => forallb distinct_members l
  | JDict d => bool_decide (NoDup (dict_keys d)) && forallb (λ kv, distinct_members kv.2) d
  | _ => true
  end.

(** [_object]. *)
Definition object_of (raw label : string) : result (list (string * json)) :=
  let l := chars raw in
  match parse_value (S (2 * length l)) (skip_space l) with
  | Parsed (JDict d) r =>
      unknown_when (negb (bool_decide (skip_space r = [])) || negb (distinct_members (JDict d))) label;; Ok d
  | _ => unknown label
  end.

(** [_optional_ref]. *)
Definition optional_ref (raw : option string) (label : string) : result (option string) :=
  match raw with
  | None => Ok None
  | Some raw =>
      match json_loads raw with
      | Ok (JStr s) => unknown_when (str_empty s) label;; Ok (Some s)
      | _ => unknown label
      end
  end.

(** A value that is [None] or a nonempty text. *)
Definition ref_or_null (v : json) : bool :=
  match v with JNull => true | JStr s => negb (str_empty s) | _ => false end.

(** [v in texts]. *)
Definition json_in (v : json) (texts : list string) : bool := existsb (λ s, json_eqb v (JStr s)) texts.

(** ** Stored resolutions *)

Definition no_decision_json : list (string * json) :=
  (λ k, (k, JNull)) <$> ["public_id"; "review_queue_public_id"; "decision_action"; "decision_note"; "reviewer"; "resolved_at"].
Definition joined_decision (o : option DecisionRow) : list (string * json) :=
  match o with Some d => decision_row_json d | None => no_decision_json end.

(** [_resolution_decision_evidence_matches]. *)
Definition resolution_decision_evidence_matches (o : option DecisionRow) (evidence : list (string * json))
    (issue_type : string) : bool :=
  match o with
  | None => false
  | Some d =>
      negb (differs evidence "issue_type" (JStr issue_type)) && negb (differs evidence "reviewer" (JStr (dr_reviewer d))) &&
      negb (note_differs evidence (dr_decision_note d)) && negb (resolved_differs evidence (dr_resolved_at d))
  end.

Definition DUPLICATE_FIELDS : list string := ["duplicate_app_txn_ids"; "kept_app_txn_id"; "audit_only"].
Definition CLASSIFICATION_FIELDS : list string :=
  ["canonical_app_transaction_ref"; "payload_target_app_txn_id"] ++ DUPLICATE_FIELDS.
Definition UNCLASSIFIED_ACTIONS : list string :=
  ["adjust_app_transaction"; "create_missing_app_transaction"; "mark_statement_only"; "ignore"; "needs_more_info"].

Definition claims_any (keys : list string) (d : list (string * json)) : bool := existsb (λ k, dict_mem k d) keys.

(** What a classification in the evidence must share with the frozen source. *)
Definition resolution_differs_from (b : BoundQueue) (action : ResolutionAction.t) (decision : option DecisionRow)
    (evidence : list (string * json)) (target : string) : bool :=
  negb (action_fits action (bq_issue_type b)) || negb (bool_decide (bq_app_transaction_ref b = Some target)) ||
  differs evidence "queue_item_id" (JStr (bq_queue_item_id b)) ||
  differs evidence "candidate_id" (JStr (bq_candidate_id b)) ||
  negb (resolution_decision_evidence_matches decision evidence (IssueType.value (bq_issue_type b))).

(** The checks of a duplicate classification, and of a confirmed match. *)
Definition resolved_duplicate (cs : CorrectionState) (t : ResolutionTables) (target_id : string) (row : ResultRow)
    (decision : option DecisionRow) (queue_ref : option string) (evidence : list (string * json)) (label : string) :
    result unit :=
  match duplicate_ids (get evidence "duplicate_app_txn_ids"), get evidence "kept_app_txn_id" with
  | Some duplicates, JStr kept =>
      unknown_when (negb (str_in kept duplicates) || negb (is_true (get evidence "audit_only")) ||
                    differs evidence "resolution_action" (JStr "mark_duplicate") ||
                    differs evidence "canonical_app_transaction_ref" (JStr kept) ||
                    differs evidence "payload_target_app_txn_id" (JStr kept) ||
                    negb (bool_decide (queue_ref = Some kept))) label;;
      bound ← or_unknown label (bound_queue_of cs t (sr_review_queue_public_id row));
      unknown_when match bound with
                   | Some b => resolution_differs_from b ResolutionAction.MARK_DUPLICATE decision evidence kept ||
                               negb (bool_decide (duplicates = app_txn_id <$> bq_app_transactions b))
                   | None => false
                   end label;;
      active_when (str_in target_id duplicates) label
  | _, _ => unknown label
  end.

Definition resolved_match (cs : CorrectionState) (t : ResolutionTables) (target_id : string) (row : ResultRow)
    (decision : option DecisionRow) (queue_ref : option string) (evidence : list (string * json)) (label : string) :
    result unit :=
  match queue_ref with
  | Some ref =>
      unknown_when (differs evidence "resolution_action" (JStr "confirm_match") || claims_any DUPLICATE_FIELDS evidence ||
                    differs evidence "canonical_app_transaction_ref" (JStr ref) ||
                    differs evidence "payload_target_app_txn_id" (JStr ref)) label;;
      bound ← or_unknown label (bound_queue_of cs t (sr_review_queue_public_id row));
      unknown_when match bound with
                   | Some b => resolution_differs_from b ResolutionAction.CONFIRM_MATCH decision evidence ref
                   | None => false
                   end label;;
      active_when (String.eqb target_id ref) label
  | None => unknown label
  end.

Definition classifying (action : option string) : bool :=
  match action with Some a => str_in a ["confirm_match"; "mark_duplicate"] | None => false end.

(** The checks under migration 051 of the row of a success. *)
Definition resolution_row_intact (cs : CorrectionState) (t : ResolutionTables) (bound_required : bool) (row : ResultRow)
    (decision : option DecisionRow) (evidence : list (string * json)) (label : string) : result unit :=
  let stored := joined_decision decision in
  (if bound_required
   then catch (assert_resolution_row_basic (result_row_json row) stored evidence) ValueError (λ _, unknown label)
   else Ok tt);;
  if classifying (dr_decision_action <$> decision) then
    or_unknown label
      (bound ← bound_queue_of cs t (sr_review_queue_public_id row);
       match bound with Some b => assert_resolution_row (result_row_json row) stored evidence b | None => Ok tt end)
  else Ok tt.

(** The loop of [_resolution_relationships], for one row. *)
Definition resolution_relationship (cs : CorrectionState) (t : ResolutionTables) (bound_required : bool)
    (target_id : string) (row : ResultRow) : result unit :=
  let decision := get_decision_by_public_id t (sr_decision_public_id row) in
  let queue := get_by_public_id (qt_queue t) (sr_review_queue_public_id row) in
  let label := "resolution:" +:+ sr_public_id row in
  evidence ← object_of (sr_audit_evidence_json row) label;
  resolution_row_intact cs t bound_required row decision evidence label;;
  let queue_ref := queue ≫= λ s, row_app_transaction_ref (si_row s) in
  unknown_when (str_empty (sr_decision_public_id row) || str_empty (sr_review_queue_public_id row) ||
                negb (bool_decide (dr_review_queue_public_id <$> decision = Some (sr_review_queue_public_id row))) ||
                bool_decide (queue = None) ||
                (dict_mem "queue_item_id" evidence && differs evidence "queue_item_id" (JStr (sr_review_queue_public_id row))) ||
                negb (ref_or_null (text_or_null queue_ref)) || negb (ref_or_null (get evidence "app_txn_id")) ||
                differs evidence "app_txn_id" (text_or_null queue_ref)) label;;
  match dr_decision_action <$> decision with
  | Some action =>
      if String.eqb action "mark_duplicate" then resolved_duplicate cs t target_id row decision queue_ref evidence label
      else if String.eqb action "confirm_match" then resolved_match cs t target_id row decision queue_ref evidence label
      else unknown_when (negb (str_in action UNCLASSIFIED_ACTIONS) || differs evidence "resolution_action" (JStr action) ||
                         claims_any CLASSIFICATION_FIELDS evidence) label
  | None => unknown label
  end.

(** The migration, as the readers ask for it. *)
Definition schema_for (cs : CorrectionState) (label : string) : result bool :=
  catch (cs_schema cs) CorrectionSchemaError (λ _, unknown label).

(** [_resolution_relationships]. *)
Definition resolution_relationships (cs : CorrectionState) (t : ResolutionTables) (target_id : string) : result unit :=
  bound_required ← schema_for cs "reconciliation-resolution:schema";
  forM_ (isort (λ a b, String.leb (sr_public_id a) (sr_public_id b)) (keep (λ r, sr_success r =? 1) (qt_results t)))
    (resolution_relationship cs t bound_required target_id).

(** ** Stored results of the apply runtime *)

Definition applied_row_json (r : AppliedRow) : list (string * json) :=
  [("apply_id", JStr (sa_apply_id r)); ("decision_id", JStr (sa_decision_id r));
   ("queue_item_id", JStr (sa_queue_item_id r)); ("candidate_id", text_or_null (sa_candidate_id r));
   ("action", JStr (sa_action r)); ("success", JInt (sa_success r)); ("idempotent", JInt (sa_idempotent r));
   ("payload_json", JStr (sa_payload_json r)); ("audit_evidence_json", JStr (sa_audit_evidence_json r));
   ("statement_reference_json", text_or_null (sa_statement_reference_json r));
   ("app_transaction_reference_json", text_or_null (sa_app_transaction_reference_json r));
   ("reviewer", text_or_null (sa_reviewer r)); ("note", text_or_null (sa_note r));
   ("fingerprint", JStr (sa_fingerprint r)); ("applied_at", JStr (sa_applied_at r))].

(** [_apply_evidence_matches]. *)
Definition apply_evidence_matches (row : AppliedRow) (evidence : list (string * json)) (issue_type : string) : bool :=
  negb (differs evidence "decision_id" (JStr (sa_decision_id row))) &&
  negb (differs evidence "reviewer" (text_or_null (sa_reviewer row))) && negb (note_differs evidence (sa_note row)) &&
  negb (differs evidence "issue_type" (JStr issue_type)).

(** What a row of the table says, once its texts are read. *)
Record AppliedClaim := MkClaim {
  cl_row : AppliedRow;
  cl_payload : list (string * json);
  cl_evidence : list (string * json);
  cl_statement_ref : option string;
  cl_app_ref : option string;
  cl_label : string;
}.

(** What a classification must share with the frozen source. *)
Definition claim_differs_from (b : BoundQueue) (action : ResolutionAction.t) (c : AppliedClaim) : bool :=
  negb (String.eqb (sa_action (cl_row c)) (ResolutionAction.value action)) ||
  negb (action_fits action (bq_issue_type b)) ||
  negb (bool_decide (sa_candidate_id (cl_row c) = Some (bq_candidate_id b))) ||
  negb (bool_decide (cl_statement_ref c = bq_statement_transaction_ref b)) ||
  negb (bool_decide (cl_app_ref c = bq_app_transaction_ref b)) ||
  differs (cl_evidence c) "queue_item_id" (JStr (bq_queue_item_id b)) ||
  differs (cl_evidence c) "candidate_id" (JStr (bq_candidate_id b)) ||
  differs (cl_evidence c) "resolution_action" (JStr (sa_action (cl_row c))) ||
  negb (apply_evidence_matches (cl_row c) (cl_evidence c) (IssueType.value (bq_issue_type b))).

Definition claim_bound (cs : CorrectionState) (t : ResolutionTables) (bound_required : bool) (c : AppliedClaim) :
    result (option BoundQueue) :=
  if bound_required then
    unknown_when (str_empty (sa_queue_item_id (cl_row c))) (cl_label c);;
    or_unknown (cl_label c) (bound_queue_of cs t (sa_queue_item_id (cl_row c)))
  else Ok None.

(** A claim that mentions a duplicate, or a match. *)
Definition duplicate_claim (c : AppliedClaim) : bool :=
  String.eqb (sa_action (cl_row c)) "mark_duplicate" || negb (differs (cl_payload c) "action_type" (JStr "mark_duplicate")) ||
  negb (differs (cl_evidence c) "resolution_action" (JStr "mark_duplicate")) || claims_any DUPLICATE_FIELDS (cl_payload c).
Definition match_claim (c : AppliedClaim) : bool :=
  String.eqb (sa_action (cl_row c)) "confirm_match" || negb (differs (cl_payload c) "action_type" (JStr "confirm_match")) ||
  negb (differs (cl_evidence c) "resolution_action" (JStr "confirm_match")).

(** [v is not None and v != action]. *)
Definition present_and_differs (v : json) (action : string) : bool :=
  match v with JNull => false | v => negb (json_eqb v (JStr action)) end.

Definition claimed_duplicate (cs : CorrectionState) (t : ResolutionTables) (bound_required : bool) (target_id : string)
    (c : AppliedClaim) : result unit :=
  let payload := cl_payload c in
  let label := cl_label c in
  let evidence_ref := get (cl_evidence c) "app_txn_id" in
  match duplicate_ids (get payload "duplicate_app_txn_ids"), get payload "kept_app_txn_id" with
  | Some duplicates, JStr kept =>
      unknown_when (negb (str_in kept duplicates) || negb (is_true (get payload "audit_only"))) label;;
      bound ← claim_bound cs t bound_required c;
      unknown_when match bound with
                   | Some b => claim_differs_from b ResolutionAction.MARK_DUPLICATE c ||
                               negb (bool_decide (duplicates = app_txn_id <$> bq_app_transactions b)) ||
                               negb (bool_decide (bq_app_transaction_ref b = Some kept))
                   | None => false
                   end label;;
      let ids := duplicates ++ kept :: option_list (cl_app_ref c ≫= text_or_none) ++
                 option_list (nonempty_text (get payload "app_txn_id")) ++ option_list (nonempty_text evidence_ref) in
      if negb (str_in target_id ids) then Ok tt
      else
        unknown_when (negb (String.eqb (sa_action (cl_row c)) "mark_duplicate") ||
                      differs payload "action_type" (JStr "mark_duplicate") ||
                      present_and_differs (get (cl_evidence c) "resolution_action") (sa_action (cl_row c)) ||
                      match cl_app_ref c with Some ref => negb (str_in ref duplicates) | None => false end ||
                      dict_mem "app_txn_id" payload ||
                      match evidence_ref with JNull => false | v => negb (json_in v duplicates) end) label;;
        active label
  | _, _ => unknown label
  end.

Definition claimed_match (cs : CorrectionState) (t : ResolutionTables) (bound_required : bool) (target_id : string)
    (c : AppliedClaim) : result unit :=
  let label := cl_label c in
  let evidence_ref := get (cl_evidence c) "app_txn_id" in
  match nonempty_text (get (cl_payload c) "app_txn_id") with
  | None => unknown label
  | Some canonical_id =>
      bound ← claim_bound cs t bound_required c;
      unknown_when match bound with
                   | Some b => claim_differs_from b ResolutionAction.CONFIRM_MATCH c ||
                               negb (bool_decide (bq_app_transaction_ref b = Some canonical_id))
                   | None => false
                   end label;;
      if negb (String.eqb target_id canonical_id || bool_decide (cl_app_ref c = Some target_id) ||
               json_eqb evidence_ref (JStr target_id)) then Ok tt
      else
        unknown_when (negb (bool_decide (cl_app_ref c = Some canonical_id)) ||
                      differs (cl_payload c) "action_type" (JStr (sa_action (cl_row c))) ||
                      present_and_differs (get (cl_evidence c) "resolution_action") (sa_action (cl_row c)) ||
                      present_and_differs evidence_ref canonical_id) label;;
        active label
  end.

(** The type of payload an unclassifying action has. *)
Definition expected_payload_action (action : string) : option string :=
  dict_get action
    [("adjust_app_transaction", "proposal"); ("create_missing_app_transaction", "proposal");
     ("mark_statement_only", "mark_statement_only"); ("ignore", "ignore"); ("needs_more_info", "needs_more_info")].

(** A success that classifies nothing must still be coherent. *)
Definition claimed_otherwise (target_id : string) (c : AppliedClaim) : result unit :=
  let action := sa_action (cl_row c) in
  let payload := cl_payload c in
  let evidence_ref := get (cl_evidence c) "app_txn_id" in
  let adjusts := String.eqb action "adjust_app_transaction" in
  if bool_decide (cl_app_ref c = Some target_id) || json_eqb evidence_ref (JStr target_id) ||
     json_eqb (get payload "app_txn_id") (JStr target_id)
  then unknown_when
    (match expected_payload_action action with
     | None => true
     | Some expected => differs payload "action_type" (JStr expected)
     end ||
     differs (cl_evidence c) "resolution_action" (JStr action) ||
     negb (json_eqb evidence_ref (text_or_null (cl_app_ref c))) ||
     (adjusts && differs payload "app_txn_id" (text_or_null (cl_app_ref c))) ||
     (negb adjusts && differs payload "app_txn_id" JNull) ||
     (str_in action ["adjust_app_transaction"; "create_missing_app_transaction"] &&
      differs payload "proposal_type" (JStr action)) ||
     (String.eqb action "ignore" && negb (is_true (get payload "skipped"))) ||
     (String.eqb action "needs_more_info" && differs payload "status" (JStr "pending_investigation"))) (cl_label c)
  else Ok tt.

(** The texts of a row, with the checks under migration 051. *)
Definition read_claim (cs : CorrectionState) (t : ResolutionTables) (bound_required : bool) (row : AppliedRow) :
    result AppliedClaim :=
  let label := "reconciliation-apply:" +:+ sa_apply_id row in
  payload ← object_of (sa_payload_json row) label;
  evidence ← object_of (sa_audit_evidence_json row) label;
  (if bound_required
   then catch (assert_apply_row_basic (applied_row_json row) evidence) ValueError (λ _, unknown label)
   else Ok tt);;
  app_ref ← optional_ref (sa_app_transaction_reference_json row) label;
  statement_ref ← optional_ref (sa_statement_reference_json row) label;
  (if bound_required && classifying (Some (sa_action row)) then
     or_unknown label
       (bound ← bound_queue_of cs t (sa_queue_item_id row);
        match bound with
        | None => bad "missing 051 bound queue"
        | Some b => assert_apply_row (applied_row_json row) (JDict payload) evidence statement_ref app_ref b
        end)
   else Ok tt);;
  Ok (MkClaim row payload evidence statement_ref app_ref label).

(** The loop of [_apply_relationships], for one row. *)
Definition apply_relationship (cs : CorrectionState) (t : ResolutionTables) (bound_required : bool) (target_id : string)
    (row : AppliedRow) : result unit :=
  c ← read_claim cs t bound_required row;
  if duplicate_claim c then claimed_duplicate cs t bound_required target_id c
  else if match_claim c then claimed_match cs t bound_required target_id c
  else claimed_otherwise target_id c.

(** [_apply_relationships]. *)
Definition apply_relationships (cs : CorrectionState) (t : ReconTables) (target_id : string) : result unit :=
  bound_required ← schema_for cs "reconciliation-apply:schema";
  forM_ (isort (λ a b, String.leb (sa_apply_id a) (sa_apply_id b)) (keep (λ r, sa_success r =? 1) (db_applied t)))
    (apply_relationship cs (db_resolution t) bound_required target_id).
