(* ===== verification/Eligibility.v ===== *)
(** * Eligibility for a correction

    The rest of application/correction_relationships.py: the relations of a
    transaction in the books, in settlements, in guarded executions and in the
    audit of final mutations, and [assert_correction_eligible], which reads
    them all.  Of the tables of the books, the columns that are read. *)

From Stdlib Require Import Ascii ZArith SpecFloat Lia.
From stdpp Require Import base sets strings sorting numbers list.
From S2P Require Import Prelude PyDecimal PyValue Hash Json JsonParse PyDate PyDateTime PyFloat ReconModels ReconDecision ReconMatcher ReconBatch ReviewModels ReviewQueue ApplyRuntime BoundCodec Snapshot Resolution SourceBinding ReviewPersistence Integrity Sqlite AuditChain GuardedExec ExecStore ResolutionStore ApplyResultStore Relationships.

Open Scope Z_scope.

(** ** Tables *)

Record TransactionRow := MkTransaction {
  tx_id : Z;
  tx_public_id : string;
  tx_status : string;
  tx_fields : pydict (option string);  (** the columns of unsupported relations, as texts *)
}.
Record ObligationRow := MkObligation { ob_public_id : string; ob_transaction : Z }.
Record LinkRow := MkLink { ln_public_id : string; ln_status : string; ln_source : Z; ln_target : Z }.
Record LegacyRow := MkLegacy { lg_public_id : string; lg_manual : option Z; lg_generated : option Z }.
Record SettlementRow := MkSettlementRow { se_public_id : string; se_status : string; se_run : Z }.
Record RunRow := MkRunRow { ru_id : Z; ru_receipt : option Z; ru_group : option Z }.
Record ReceiptRow := MkReceiptRow { rp_id : Z; rp_public_id : string }.
Record MembershipRow := MkMembership { ms_group : Z; ms_receipt : Z }.
Record FinalMutationRow := MkFinalMutation {
  fm_final_mutation_id : string;
  fm_action : string;
  fm_status : string;
  fm_source_app_transaction_ref : option string;
  fm_target_transaction_id : option string;
  fm_transaction_public_id : option string;
}.

Record BookTables := MkBooks {
  bk_transactions : list TransactionRow;
  bk_obligations : list ObligationRow;
  bk_links : list LinkRow;
  bk_legacy : list LegacyRow;
  bk_settlement : list SettlementRow;
  bk_runs : list RunRow;
  bk_receipts : list ReceiptRow;
  bk_members : list MembershipRow;
  bk_mutations : list FinalMutationRow;
  bk_events : list AuditRow;
}.

(** The database a correction reads. *)
Record LedgerTables := MkLedger {
  lt_books : BookTables;
  lt_recon : ReconTables;
  lt_executions : ExecTables;
}.

(** The source of a correction. *)
Record RelationshipSource := MkSource {
  rs_target_id : string;
  rs_route : string;
  rs_receipt_id : option string;
}.

(** ** The books *)

Definition UNSUPPORTED_FIELDS : list string :=
  ["account_id"; "from_account_id"; "to_account_id"; "investment_account_id"; "from_participant_id"; "to_participant_id";
   "from_amount"; "to_amount"; "exchange_rate"; "fee_amount"; "withholding_tax_amount"; "split_type"; "adjustment_type"].

(** [ORDER BY public_id]. *)
Definition ordered_by {A} (key : A → string) (l : list A) : list A := isort (λ a b, String.leb (key a) (key b)) l.

(** [_refuse] with every row, if there is any. *)
Definition refuse_all (classification : string) (labels : list string) : result unit :=
  match labels with [] => Ok tt | _ => refuse_relation classification labels end.

(** [_base_relationships]. *)
Definition base_relationships (bk : BookTables) (target_id : string) : result Z :=
  match keep (λ r, String.eqb (tx_public_id r) target_id) (bk_transactions bk) with
  | [record] =>
      active_when (negb (String.eqb (tx_status record) "active")) ("transaction:" +:+ target_id +:+ ":status");;
      active_when (existsb (λ k, bool_decide (is_Some (mjoin (dict_get k (tx_fields record))))) UNSUPPORTED_FIELDS)
        ("transaction:" +:+ target_id +:+ ":unsupported-fields");;
      let id := tx_id record in
      refuse_all "ACTIVE_RELATIONSHIP"
        ((λ r, "shared-obligation:" +:+ ob_public_id r) <$> keep (λ r, ob_transaction r =? id) (bk_obligations bk));;
      match ordered_by ln_public_id (keep (λ r, (ln_source r =? id) || (ln_target r =? id)) (bk_links bk)) with
      | [] => Ok tt
      | row :: _ =>
          let label := "transaction-link:" +:+ ln_public_id row in
          if String.eqb (ln_status row) "active" then active label else unknown label
      end;;
      refuse_all "UNKNOWN_INTEGRITY"
        ((λ r, "legacy-reconciliation:" +:+ lg_public_id r) <$>
         keep (λ r, bool_decide (lg_manual r = Some id) || bool_decide (lg_generated r = Some id)) (bk_legacy bk));;
      Ok id
  | _ => unknown ("transaction:" +:+ target_id)
  end.

(** A calculation of the receipt, or of a group it belongs to. *)
Definition receipt_named (bk : BookTables) (receipt_id : string) (id : Z) : bool :=
  existsb (λ r, (rp_id r =? id) && String.eqb (rp_public_id r) receipt_id) (bk_receipts bk).
Definition run_of_receipt (bk : BookTables) (receipt_id : string) (run : RunRow) : bool :=
  match ru_receipt run with Some r => receipt_named bk receipt_id r | None => false end ||
  match ru_group run with
  | Some g => existsb (λ m, (ms_group m =? g) && receipt_named bk receipt_id (ms_receipt m)) (bk_members bk)
  | None => false
  end.

(** [_settlement_relationships]: the first obligation refuses. *)
Definition settlement_relationships (bk : BookTables) (receipt_id : option string) : result unit :=
  match receipt_id with
  | None => Ok tt
  | Some receipt_id =>
      match ordered_by se_public_id
              (keep (λ o, existsb (λ run, (ru_id run =? se_run o) && run_of_receipt bk receipt_id run) (bk_runs bk))
                 (bk_settlement bk)) with
      | [] => Ok tt
      | row :: _ =>
          let label := "settlement-obligation:" +:+ se_public_id row in
          if str_in (se_status row) ["open"; "partially_settled"; "settled"; "waived"] then active label else unknown label
      end
  end.

(** ** Guarded executions *)

Definition status_count (status : string) (ops : list OperationRow) : Z :=
  len (keep (λ o, String.eqb (pr_execution_status o) status) ops).

(** The claim of an execution and of its operations is coherent. *)
Definition execution_incoherent (row : ExecutionRow) (siblings : list OperationRow) : bool :=
  let executed := status_count "executed" siblings in
  let blocked := status_count "blocked" siblings in
  let status := xr_execution_status row in
  negb (xr_total_operations row =? len siblings) || negb (xr_operations_executed row =? executed) ||
  negb (xr_operations_blocked row =? blocked) || negb (xr_operations_skipped row =? len siblings - executed - blocked) ||
  negb (str_in status ["executed"; "blocked"; "partially_blocked"; "unsupported"; "conflict"]) ||
  (String.eqb status "executed" && negb (executed =? len siblings)) ||
  (String.eqb status "blocked" && negb (executed =? 0)) ||
  existsb (λ o, String.eqb (pr_execution_status o) "executed" && negb (pr_guard_decision_approved o)) siblings.

(** The loop of [_guarded_apply_relationships], for one operation. *)
Definition guarded_relationship (t : ExecTables) (target_id : string) (op : OperationRow) : result unit :=
  let label := "guarded-apply:" +:+ pr_execution_id op in
  payload ← object_of (pr_mutation_payload_json op) label;
  let app_ref := get payload "app_transaction_ref" in
  unknown_when (negb (ref_or_null app_ref)) label;;
  if negb (json_eqb app_ref (JStr target_id)) then Ok tt
  else
    match keep (λ r, String.eqb (xr_execution_id r) (pr_execution_id op)) (xt_executions t) with
    | [execution] =>
        audit ← object_of (xr_audit_trail_json execution) label;
        unknown_when (negb (xr_is_dry_run execution) || negb (is_true (get audit "is_dry_run"))) label;;
        unknown_when (execution_incoherent execution
                        (keep (λ o, String.eqb (pr_execution_id o) (pr_execution_id op)) (xt_operations t))) label
    | _ => unknown label
    end.

(** [_guarded_apply_relationships]. *)
Definition guarded_apply_relationships (t : ExecTables) (target_id : string) : result unit :=
  forM_ (ordered_by pr_operation_result_id (xt_operations t)) (guarded_relationship t target_id).

Section Final.
Context (nfc : string → string).

(** ** Final mutations *)

Definition final_event_type (action : string) : option string :=
  dict_get action
    [("create_final_transaction_proposal", "reconciliation_final_transaction_created");
     ("adjust_final_transaction_proposal", "reconciliation_final_transaction_adjusted")].

(** The events a final mutation caused. *)
Definition caused_events (bk : BookTables) (transaction_id mutation_id event_type : string) : list AuditRow :=
  keep (λ r, String.eqb (ev_aggregate_type (row_event r)) "transaction" &&
             String.eqb (ev_aggregate_public_id (row_event r)) transaction_id &&
             String.eqb (ev_causation_public_id (row_event r)) mutation_id &&
             String.eqb (ev_event_type (row_event r)) event_type) (bk_events bk).

(** [except (TypeError, ValueError)]. *)
Definition or_malformed {A} (label : string) (m : result A) : result A :=
  catch (catch m ValueError (λ _, unknown label)) TypeError (λ _, unknown label).

(** The loop of [_final_mutation_relationships], for one mutation. *)
Definition final_mutation_relationship (bk : BookTables) (row : FinalMutationRow) : result unit :=
  let label := "final-mutation:" +:+ fm_final_mutation_id row in
  if str_in (fm_status row) ["blocked"; "conflict"] then Ok tt
  else
    unknown_when (negb (String.eqb (fm_status row) "finalized")) label;;
    match fm_transaction_public_id row ≫= text_or_none with
    | None => unknown label
    | Some transaction_id =>
        chain ← verify_financial_audit_chain nfc (bk_events bk) "transaction" transaction_id;
        unknown_when (negb (cv_valid chain) || (cv_event_count chain =? 0)) label;;
        match final_event_type (fm_action row) with
        | None => unknown label
        | Some event_type =>
            match caused_events bk transaction_id (fm_final_mutation_id row) event_type with
            | [event] =>
                payload ← or_malformed label
                  (canonical_json_value (ev_event_payload_json (row_event event)) "final mutation audit payload");
                match payload with
                | JDict d => unknown_when (differs d "final_mutation_id" (JStr (fm_final_mutation_id row))) label
                | _ => unknown label
                end;;
                active label
            | _ => unknown label
            end
        end
    end.

Definition concerns (row : FinalMutationRow) (target_id : string) : bool :=
  bool_decide (fm_source_app_transaction_ref row = Some target_id) ||
  bool_decide (fm_target_transaction_id row = Some target_id) ||
  bool_decide (fm_transaction_public_id row = Some target_id).

(** [_final_mutation_relationships]. *)
Definition final_mutation_relationships (bk : BookTables) (target_id : string) : result unit :=
  forM_ (ordered_by fm_final_mutation_id (keep (λ r, concerns r target_id) (bk_mutations bk)))
    (final_mutation_relationship bk).

(** ** All of them *)

(** [assert_correction_eligible]. *)
Definition assert_correction_eligible (cs : CorrectionState) (t : LedgerTables) (source : RelationshipSource) :
    result unit :=
  let target_id := rs_target_id source in
  base_relationships (lt_books t) target_id;;
  settlement_relationships (lt_books t) (if String.eqb (rs_route source) "receipt" then rs_receipt_id source else None);;
  resolution_relationships cs (db_resolution (lt_recon t)) target_id;;
  apply_relationships cs (lt_recon t) target_id;;
  guarded_apply_relationships (lt_executions t) target_id;;
  final_mutation_relationships (lt_books t) target_id.
End Final.
