(* ===== verification/PyDateTimeProps.v ===== *)
(** * UTC timestamps are read back

    The calendar of [date_of_ordinal] inverts [toordinal], a time converted to
    UTC is a valid time, and reading the text the code writes for it gives it
    back; so normalising a timestamp twice changes nothing. *)

From Stdlib Require Import Ascii ZArith Lia.
From stdpp Require Import base sets strings sorting numbers list.
From S2P Require Import Prelude PyDecimal MoneyText PyDate PyDateTime Snapshot.

Open Scope Z_scope.

(** ** The calendar *)

Lemma year_search n k : ∀ y i, days_before_year y < n →
  let y' := foldl (λ y _, if days_before_year (y + 1) <? n then y + 1 else y) y (seq i k) in
  y <= y' <= y + Z.of_nat k ∧ days_before_year y' < n ∧ (n <= days_before_year (y' + 1) ∨ y' = y + Z.of_nat k).
Proof.
  induction k as [|k IH]; intros y i Hy; cbn [seq foldl]; [split_and!; [lia..|by right; lia]|].
  destruct (Z.ltb_spec (days_before_year (y + 1)) n) as [Hlt|Hge].
  - destruct (IH (y + 1) (S i) Hlt) as (H1&H2&H3). split_and!; [lia..|]. destruct H3; [by left|right; lia].
  - destruct (IH y (S i) Hy) as (H1&H2&H3). split_and!; [lia..|]. destruct H3 as [|H3]; [by left|].
    destruct k as [|k]; [left; cbn in *; lia|]. left. rewrite H3 in H2 |- *.
    enough (days_before_year (y + 1) <= days_before_year (y + Z.of_nat (S k) + 1)) by lia.
    unfold days_before_year. Z.to_euclidean_division_equations; lia.
Qed.

Lemma year_of_spec n : 1 <= n <= 3652059 →
  1 <= year_of n <= 9999 ∧ days_before_year (year_of n) < n <= days_before_year (year_of n + 1).
Proof.
  intros Hn. unfold year_of. set (g := (n - 1) / 366 + 1).
  assert (Hg : 366 * (g - 1) <= n - 1 < 366 * g) by (unfold g; Z.to_euclidean_division_equations; lia).
  destruct (year_search n 30 g 0) as (H1&H2&H3).
  { unfold days_before_year. Z.to_euclidean_division_equations; lia. }
  set (y := foldl _ _ _) in *. change (Z.of_nat 30) with 30 in *.
  assert (H4 : n <= days_before_year (y + 1)).
  { destruct H3 as [|H3]; [done|]. rewrite H3. unfold days_before_year. Z.to_euclidean_division_equations; lia. }
  split_and!; [lia| |done|done].
  destruct (Z.le_gt_cases y 9999) as [|Hgt]; [done|]. exfalso.
  revert H2. unfold days_before_year. Z.to_euclidean_division_equations; lia.
Qed.

Lemma month_step y m : 1 <= m < 12 → days_before_month y (m + 1) = days_before_month y m + days_in_month y m.
Proof.
  intros Hm. assert (m ∈ [1;2;3;4;5;6;7;8;9;10;11]) as H by (rewrite !elem_of_cons; lia).
  rewrite !elem_of_cons, elem_of_nil in H. unfold days_before_month, days_in_month.
  destruct_or?; subst; destruct (is_leap y); by vm_compute.
Qed.

Lemma month_of_spec y fuel : ∀ m rest m' d, 1 <= m → m + Z.of_nat fuel = 12 → 1 <= rest →
  days_before_month y m + rest <= (if is_leap y then 366 else 365) →
  month_of fuel y m rest = (m', d) →
  1 <= m' <= 12 ∧ 1 <= d <= days_in_month y m' ∧ days_before_month y m' + d = days_before_month y m + rest.
Proof.
  induction fuel as [|fuel IH]; intros m rest m' d Hm Hf Hr Hle; cbn [month_of].
  - intros [= <- <-]. assert (m = 12) as -> by lia. split_and!; [lia..| |done].
    unfold days_before_month, days_in_month in *. destruct (is_leap y); month_case; lia.
  - destruct (Z.leb_spec rest (days_in_month y m)) as [Hd|Hd]; [intros [= <- <-]; split_and!; lia|].
    intros H. pose proof (month_step y m ltac:(lia)) as Hs.
    apply IH in H; [|lia..]. destruct H as (?&?&?). split_and!; lia.
Qed.

Lemma date_of_ordinal_spec n : 1 <= n <= 3652059 →
  date_wf (date_of_ordinal n) = true ∧ toordinal (date_of_ordinal n) = n.
Proof.
  intros Hn. destruct (year_of_spec n Hn) as (Hy&Hlo&Hhi). unfold date_of_ordinal, ord2ymd.
  generalize dependent (year_of n). intros y Hy Hlo Hhi. rewrite year_step in Hhi.
  destruct (month_of 11 y 1 (n - days_before_year y)) as [m d] eqn:E.
  assert (H1 : days_before_month y 1 = 0) by done.
  apply month_of_spec in E; [|lia|lia|lia|rewrite H1; lia].
  rewrite H1 in E. destruct E as (Hm&Hd&Hs). unfold toordinal, date_wf. cbn [year month day]. split.
  - rewrite !andb_true_iff, !Z.leb_le. lia.
  - lia.
Qed.

Lemma toordinal_range d : date_wf d = true → 1 <= toordinal d <= 3652059.
Proof.
  intros Hwf. pose proof (day_of_year_range d Hwf) as Hd. unfold toordinal.
  assert (1 <= year d <= 9999) by (unfold date_wf in Hwf; rewrite !andb_true_iff, !Z.leb_le in Hwf; lia).
  pose proof (year_step (year d)) as Hs.
  assert (0 <= days_before_year (year d) ∧ days_before_year (year d + 1) <= 3652059) by
    (unfold days_before_year; Z.to_euclidean_division_equations; lia).
  lia.
Qed.

Lemma date_of_toordinal d : date_wf d = true → date_of_ordinal (toordinal d) = d.
Proof.
  intros Hwf. destruct (date_of_ordinal_spec (toordinal d) (toordinal_range d Hwf)) as [H1 H2].
  by apply toordinal_inj.
Qed.

(** ** Times in UTC *)

Definition utc_time (t : datetime) : Prop :=
  date_wf (dt_date t) = true ∧ 0 <= hour t < 24 ∧ 0 <= minute t < 60 ∧ 0 <= second t < 60 ∧
  0 <= microsecond t < 1000000 ∧ utcoffset t = Some 0.

Lemma to_utc_valid t o t' : to_utc t o = Ok t' → utc_time t'.
Proof.
  unfold to_utc. set (us := _ - o). destruct (_ || _) eqn:E; [done|]. intros [= <-].
  apply orb_false_iff in E as [E1%Z.ltb_ge E2%Z.ltb_ge].
  pose proof (date_of_ordinal_spec (us / day_microseconds) ltac:(lia)) as [Hwf _].
  assert (0 <= us mod day_microseconds < day_microseconds) by (apply Z.mod_pos_bound; done).
  unfold day_microseconds in *. unfold utc_time. cbn [dt_date hour minute second microsecond utcoffset].
  split_and!; try done; Z.to_euclidean_division_equations; lia.
Qed.

Lemma to_utc_fixed t : utc_time t → to_utc t 0 = Ok t.
Proof.
  intros (Hwf&Hh&Hm&Hs&Hu&Ho). unfold to_utc. rewrite Z.sub_0_r.
  set (r := ((hour t * 60 + minute t) * 60 + second t) * 1000000 + microsecond t).
  assert (Hr : 0 <= r < day_microseconds) by (unfold r, day_microseconds; lia).
  replace (_ + microsecond t) with (toordinal (dt_date t) * day_microseconds + r) by (unfold r; lia).
  rewrite Z.div_add_l, Z.div_small, Z.add_0_r by (done || lia).
  rewrite Z.add_comm, Z.mod_add, Z.mod_small by (done || lia).
  pose proof (toordinal_range _ Hwf). rewrite (proj2 (Z.ltb_ge _ 1)), (proj2 (Z.ltb_ge _ _)) by lia.
  cbn [orb]. rewrite date_of_toordinal by done. destruct t; cbn in *. subst. f_equal.
  f_equal; unfold r; Z.to_euclidean_division_equations; lia.
Qed.

(** ** Their texts *)

Lemma digit_not d c : digit d → (ascii_code c < 48 ∨ 57 < ascii_code c) → Ascii.eqb (digit_char d) c = false.
Proof.
  intros Hd Hc. apply Ascii.eqb_neq. intros <-.
  assert (ascii_code (digit_char d) = d + 48); [|lia].
  pose proof (digit_char_spec d Hd) as (_&H&_). unfold char_digit in H. lia.
Qed.

Lemma digit_is_digit d : digit d → is_digit (digit_char d) = true ∧ char_digit (digit_char d) = d.
Proof.
  intros Hd. pose proof (digit_char_spec d Hd) as (_&H&_). split; [|done].
  unfold is_digit. unfold char_digit in H. lia.
Qed.

Lemma pad_digits n v : (1 <= n)%nat → 0 <= v < 10 ^ Z.of_nat n →
  ∃ ds, length ds = n ∧ Forall (λ d, digit d) ds ∧ of_digits ds = v ∧ pad_left n (int_chars v) = digit_char <$> ds.
Proof.
  intros Hn Hv. destruct (digits_of_spec v ltac:(lia)) as (Hval&Hd&_&_&Hb).
  assert (Hl : (length (digits_of v) <= n)%nat).
  { destruct (Z.eq_dec v 0) as [->|Hne]; [by cbn|]. destruct (Hb ltac:(lia)) as [Hlo _]. unfold ndigits in Hlo.
    assert (Z.of_nat (length (digits_of v)) - 1 < Z.of_nat n); [|lia].
    apply (Z.pow_lt_mono_r_iff 10); lia. }
  exists (replicate (n - length (digits_of v)) 0 ++ digits_of v).
  rewrite length_app, length_replicate, fmap_app, of_digits_app, of_digits_zeros. split_and!; [lia| |lia|].
  - apply Forall_app. split; [|done]. by apply Forall_replicate.
  - unfold pad_left, int_chars. rewrite (proj2 (Z.ltb_ge v 0)) by lia. unfold coef_chars.
    by rewrite length_fmap, fmap_replicate.
Qed.

Lemma pad_two v : 0 <= v < 100 →
  ∃ a b, digit a ∧ digit b ∧ v = 10 * a + b ∧ pad_left 2 (int_chars v) = [digit_char a; digit_char b].
Proof.
  intros Hv. destruct (pad_digits 2 v ltac:(lia) Hv) as ([|a [|b [|]]]&Hl&Hd&<-&Hp); try done.
  apply Forall_cons in Hd as [Ha Hd]. apply Forall_cons in Hd as [Hb _]. by exists a, b.
Qed.

Lemma parse_two a b l : digit a → digit b →
  parse_digits 2 0 (digit_char a :: digit_char b :: l) = Some (10 * a + b, l).
Proof.
  intros [Ha Ea]%digit_is_digit [Hb Eb]%digit_is_digit. cbn [parse_digits]. by rewrite Ha, Hb, Ea, Eb.
Qed.

Lemma parse_padded n v l : (1 <= n)%nat → 0 <= v < 10 ^ Z.of_nat n →
  parse_digits n 0 (pad_left n (int_chars v) ++ l) = Some (v, l).
Proof.
  intros Hn Hv. destruct (pad_digits n v Hn Hv) as (ds&<-&Hd&<-&->). clear Hn Hv. unfold of_digits.
  generalize 0 as acc. induction Hd as [|d ds [Hd Ed]%digit_is_digit _ IH]; intros acc; [done|].
  cbn [length parse_digits fmap list_fmap app foldl]. rewrite Hd, Ed. apply IH.
Qed.

Lemma split_zone_plain l k :
  Forall (λ c, Ascii.eqb c "+" || Ascii.eqb c "-" || Ascii.eqb c "Z" = false) l →
  split_zone (l ++ k) = let '(t, z) := split_zone k in (l ++ t, z).
Proof.
  induction 1 as [|c l Hc _ IH]; cbn [app split_zone]; [by destruct (split_zone k)|]. rewrite Hc, IH.
  by destruct (split_zone k).
Qed.

(** The text of a time without its offset. *)
Definition clock_chars (t : datetime) : list Ascii.ascii :=
  pad_left 2 (int_chars (hour t)) ++ ":"%char :: pad_left 2 (int_chars (minute t)) ++ ":"%char ::
  pad_left 2 (int_chars (second t)) ++ "."%char :: pad_left 6 (int_chars (microsecond t)).
Definition stamp_chars (t : datetime) : list Ascii.ascii :=
  chars (date_isoformat (dt_date t)) ++ "T"%char :: clock_chars t.

Lemma utc_isoformat_chars t : chars (utc_isoformat t) = stamp_chars t ++ ["Z"%char].
Proof.
  unfold utc_isoformat, stamp_chars, clock_chars. rewrite chars_of_chars.
  by repeat (rewrite <- !app_assoc; cbn [app]).
Qed.

(** No character of a time is a sign or a [Z]. *)
Lemma padded_plain n v c : (1 <= n)%nat → 0 <= v < 10 ^ Z.of_nat n → (ascii_code c < 48 ∨ 57 < ascii_code c) →
  Forall (λ d, Ascii.eqb d c = false) (pad_left n (int_chars v)).
Proof.
  intros Hn Hv Hc. destruct (pad_digits n v Hn Hv) as (ds&_&Hd&_&->). apply Forall_fmap.
  eapply Forall_impl; [exact Hd|]. intros d H. by apply digit_not.
Qed.

Lemma clock_plain t c : utc_time t → (ascii_code c < 46 ∨ 58 < ascii_code c) →
  Forall (λ d, Ascii.eqb d c = false) (clock_chars t).
Proof.
  intros (_&Hh&Hm&Hs&Hu&_) Hc. unfold clock_chars.
  assert (Hne : ∀ d, 46 <= ascii_code d <= 58 → Ascii.eqb d c = false)
    by (intros d Hd; apply Ascii.eqb_neq; intros ->; lia).
  do 3 (apply Forall_app; split; [apply padded_plain; cbn; lia|];
        apply Forall_cons; split; [apply Hne; by vm_compute|]).
  apply padded_plain; cbn; lia.
Qed.

Lemma padded_length n v : (1 <= n)%nat → 0 <= v < 10 ^ Z.of_nat n → length (pad_left n (int_chars v)) = n.
Proof. intros Hn Hv. destruct (pad_digits n v Hn Hv) as (ds&Hl&_&_&->). by rewrite length_fmap. Qed.

Section Read.
Context (d : date) (rest : list Ascii.ascii).
Hypothesis Hwf : date_wf d = true.

Lemma date_ranges : 0 <= year d < 10 ^ Z.of_nat 4 ∧ 0 <= month d < 10 ^ Z.of_nat 2 ∧ 0 <= day d < 10 ^ Z.of_nat 2.
Proof using Hwf.
  assert (days_in_month (year d) (month d) <= 31).
  { unfold days_in_month. destruct (_ && _); [done|].
    generalize (Z.to_nat (month d)) as k. do 13 (intros [|k]; [done|revert k]; cbn [nth]). by intros []. }
  unfold date_wf in Hwf. rewrite !andb_true_iff, !Z.leb_le in Hwf. lia.
Qed.

Let l := chars (date_isoformat d) ++ "T"%char :: rest.

Lemma date_layout :
  l = pad_left 4 (int_chars (year d)) ++ "-"%char :: pad_left 2 (int_chars (month d)) ++
      "-"%char :: pad_left 2 (int_chars (day d)) ++ "T"%char :: rest.
Proof using Type.
  unfold l, date_isoformat. rewrite chars_of_chars. by repeat (rewrite <- !app_assoc; cbn [app]).
Qed.

Lemma date_length : length l = (11 + length rest)%nat ∧ drop 10 l = "T"%char :: rest.
Proof using Hwf.
  destruct date_ranges as (Hy&Hm&Hd). rewrite date_layout.
  destruct (pad_digits 4 _ ltac:(lia) Hy) as ([|? [|? [|? [|? [|]]]]]&?&_&_&->); try done.
  destruct (pad_digits 2 _ ltac:(lia) Hm) as ([|? [|? [|]]]&?&_&_&->); try done.
  by destruct (pad_digits 2 _ ltac:(lia) Hd) as ([|? [|? [|]]]&?&_&_&->).
Qed.

Lemma read_date : find_separator l = Some 10%nat ∧
  parse_isoformat_date 10 l = Some (year d, month d, day d).
Proof using Hwf.
  destruct date_ranges as (Hy&Hm&Hd). destruct date_length as [Hl _]. rewrite date_layout in *. split.
  - unfold find_separator. rewrite Hl. change (11 + length rest =? 7)%nat with false. cbn iota.
    destruct (pad_digits 4 _ ltac:(lia) Hy) as ([|? [|? [|? [|? [|]]]]]&?&_&_&->); try done.
    destruct (pad_digits 2 _ ltac:(lia) Hm) as ([|a [|? [|]]]&?&Ha&_&->); try done.
    apply Forall_cons in Ha as [Ha _]. cbn [drop app fmap list_fmap head_or_nul].
    rewrite (digit_not a "W") by (done || by vm_compute; auto). by rewrite Ascii.eqb_refl.
  - unfold parse_isoformat_date. rewrite parse_padded by (lia || done). cbn [mbind option_bind head_or_nul].
    rewrite Ascii.eqb_refl. cbn [drop].
    destruct (pad_two (month d)) as (a&b&Ha&Hb&Hab&->); [exact Hm|]. cbn [app drop head_or_nul].
    rewrite (digit_not a "W") by (done || by vm_compute; auto). rewrite parse_two by done.
    cbn [mbind option_bind head_or_nul]. rewrite Ascii.eqb_refl. cbn [andb negb drop].
    rewrite drop_0, parse_padded by (lia || done). cbn. by rewrite Hab.
Qed.
End Read.

(** Two digits and a colon, with more to come. *)
Lemma component_step todo comps v w p after :
  0 <= v < 100 → 0 <= w < 100 →
  parse_components (S todo) comps true (pad_left 2 (int_chars v) ++ ":"%char :: pad_left 2 (int_chars w) ++ p) after =
  parse_components todo (comps ++ [v]) true (pad_left 2 (int_chars w) ++ p) after.
Proof.
  intros Hv Hw. cbn [parse_components]. rewrite parse_padded by (lia || exact Hv).
  cbn [mbind option_bind]. rewrite Ascii.eqb_refl.
  destruct (pad_two w Hw) as (a&b&_&_&_&->). cbn [app].
  by destruct comps as [|x [|y comps]].
Qed.

Definition utc_suffix : list Ascii.ascii := chars "+00:00".

Lemma read_clock t : utc_time t →
  parse_hh_mm_ss_ff (clock_chars t) utc_suffix = Some ([hour t; minute t; second t; microsecond t], true).
Proof.
  intros (_&Hh&Hm&Hs&Hu&_). unfold parse_hh_mm_ss_ff, clock_chars.
  rewrite !component_step by lia. cbn [app parse_components].
  rewrite parse_padded by (lia || exact Hs). cbn [mbind option_bind].
  pose proof (padded_length 6 (microsecond t) ltac:(lia) Hu) as Hl.
  destruct (pad_left 6 (int_chars (microsecond t))) as [|c us] eqn:E; [done|].
  change (Ascii.eqb "." ":") with false. change (Ascii.eqb "." ".") with true. cbn [andb orb replicate app].
  unfold parse_fraction. rewrite Hl. cbn [Nat.min]. rewrite <- (app_nil_r (c :: us)), <- E.
  rewrite parse_padded by (lia || exact Hu). cbn. by rewrite Z.mul_1_r.
Qed.

Lemma replace_plain (f : Ascii.ascii → list Ascii.ascii) l k :
  Forall (λ c, f c = [c]) l → mjoin (f <$> l ++ k) = l ++ mjoin (f <$> k).
Proof.
  induction 1 as [|c l Hc _ IH]; [done|].
  change (f c ++ mjoin (f <$> l ++ k) = c :: l ++ mjoin (f <$> k)). by rewrite Hc, IH.
Qed.

Lemma date_plain d c : date_wf d = true → (ascii_code c < 45 ∨ 57 < ascii_code c) →
  Forall (λ x, Ascii.eqb x c = false) (chars (date_isoformat d)).
Proof.
  intros Hwf Hc. destruct (date_ranges d Hwf) as (Hy&Hm&Hd). unfold date_isoformat. rewrite chars_of_chars.
  assert (Hdash : Ascii.eqb "-" c = false) by (apply Ascii.eqb_neq; intros <-; vm_compute in Hc; destruct Hc; done).
  repeat first [apply Forall_app; split; [apply padded_plain; [lia|done|lia]|]
               |apply Forall_cons; split; [done|]|apply padded_plain; [lia|done|lia]].
Qed.

Lemma replace_Z_utc t : utc_time t →
  chars (replace_Z (utc_isoformat t)) = chars (date_isoformat (dt_date t)) ++ "T"%char :: clock_chars t ++ utc_suffix.
Proof.
  intros Ht. unfold replace_Z. rewrite chars_of_chars, utc_isoformat_chars, replace_plain.
  { unfold stamp_chars. by rewrite <- app_assoc. }
  assert (Hp : Forall (λ c, Ascii.eqb c "Z" = false) (stamp_chars t)).
  { apply Forall_app. split; [apply date_plain; [apply Ht|by vm_compute; auto]|].
    apply Forall_cons. split; [done|]. apply clock_plain; [done|by vm_compute; auto]. }
  eapply Forall_impl; [exact Hp|]. by intros c ->.
Qed.

Lemma read_time t : utc_time t →
  parse_isoformat_time (clock_chars t ++ utc_suffix) =
    Some ([hour t; minute t; second t; microsecond t], Some (false, [0; 0; 0; 0])).
Proof.
  intros Ht. unfold parse_isoformat_time. rewrite split_zone_plain.
  - change (split_zone utc_suffix) with ([] : list Ascii.ascii, utc_suffix). cbn iota beta.
    rewrite app_nil_r, read_clock by done. cbn [mbind option_bind].
    change (parse_hh_mm_ss_ff (chars "00:00") []) with (Some ([0; 0; 0; 0], false)). done.
  - pose proof (clock_plain t "+" Ht ltac:(by vm_compute; auto)) as H1.
    pose proof (clock_plain t "-" Ht ltac:(by vm_compute; auto)) as H2.
    pose proof (clock_plain t "Z" Ht ltac:(by vm_compute; auto)) as H3.
    rewrite Forall_forall in *. intros c Hc. by rewrite H1, H2, H3.
Qed.

(** The text written for a time in UTC, with the offset [fromisoformat] reads,
    gives the time back. *)
Lemma utc_isoformat_read t : utc_time t → fromisoformat (replace_Z (utc_isoformat t)) = Some t.
Proof.
  intros Ht. pose proof Ht as (Hwf&Hh&Hm&Hs&Hu&Ho). unfold fromisoformat. rewrite replace_Z_utc by done.
  destruct (date_length (dt_date t) (clock_chars t ++ utc_suffix) Hwf) as [Hl Hd].
  destruct (read_date (dt_date t) (clock_chars t ++ utc_suffix) Hwf) as [Hf Hp].
  rewrite Hl, Hf. cbn [Nat.ltb Nat.leb Nat.add mbind option_bind].
  rewrite Hp. cbn [mbind option_bind]. rewrite Hd.
  change (skip_separator ("T"%char :: clock_chars t ++ utc_suffix)) with (clock_chars t ++ utc_suffix).
  rewrite read_time by done. cbn [mbind option_bind]. unfold make_datetime.
  change (offset_microseconds <$> Some (false, [0; 0; 0; 0])) with (Some 0). cbn [nth].
  destruct t as [[y m d] h mi s us o]; cbn [dt_date hour minute second microsecond utcoffset year month day] in *.
  rewrite Hwf, Ho, (proj2 (Z.leb_le h 23)), (proj2 (Z.leb_le mi 59)), (proj2 (Z.leb_le s 59)) by lia. done.
Qed.
