(* ===== verification/CodecProps.v ===== *)
(** * Snapshots are read back

    [_decode] reads what [_encode] wrote, after the JSON text has put the
    members of its objects in key order.  The only change is that the text of
    a transaction type that names a member of the enumeration comes back as
    the member ([canon]).  [fits] collects what a Python value has by
    construction (valid dates, amounts the constructors accept) and the scope
    of the model: ASCII texts and floats whose texts are read back. *)

From Stdlib Require Import Ascii ZArith SpecFloat Lia.
From stdpp Require Import base sets strings sorting numbers list.
From S2P Require Import Prelude PyDecimal PyValue Hash MoneyText DecText Json JsonParse JsonRoundtrip PyDate PyDateTime PyFloat ReconModels ReviewModels Snapshot SnapshotProps PyDateTimeProps BoundCodec.

Open Scope Z_scope.

Lemma printable_ok ok v : json_ok ok v = true → printable v = true.
Proof.
  induction v as [|b|n|t|s|l IH|d IH] using json_nested_ind; cbn [json_ok printable]; try done.
  - intros Ht. apply negb_true_iff, bool_decide_eq_false. intros Hin.
    repeat (apply elem_of_cons in Hin as [->|Hin]; [by vm_compute in Ht|]). by apply elem_of_nil in Hin.
  - rewrite !List.forallb_forall. rewrite Forall_forall in IH. intros H x Hx.
    apply IH; [by apply list_elem_of_In|by apply H].
  - intros [_ H]%andb_prop. rewrite List.forallb_forall in *. rewrite Forall_forall in IH. intros [k v] Hin.
    apply (IH (k, v)); [by apply list_elem_of_In|]. apply H in Hin. by apply andb_prop in Hin as [_ ?].
Qed.

(** ** Values and their sorted forms are equal in Python *)

(** No number is a NaN. *)
Fixpoint comparable (v : json) : bool :=
  match v with
  | JNum t => text_eqb (λ f, text_eqb (SFeqb f) t) t
  | JList l => forallb comparable l
  | JDict d => forallb (λ kv, comparable kv.2) d
  | _ => true
  end.

Definition sorted_members (d : list (string * json)) : list (string * json) :=
  sort_dict (map (λ '(k, v), (k, sort_json v)) d).

Lemma sorted_members_perm d : sorted_members d ≡ₚ map (λ '(k, v), (k, sort_json v)) d.
Proof. apply isort_perm. Qed.

Lemma sorted_members_keys d : dict_keys (sorted_members d) ≡ₚ dict_keys d.
Proof.
  rewrite <- (dict_keys_map sort_json d). unfold dict_keys. by rewrite sorted_members_perm.
Qed.

Lemma sorted_members_get k d :
  NoDup (dict_keys d) → dict_get k (sorted_members d) = sort_json <$> dict_get k d.
Proof.
  intros Hd. assert (Hd' : NoDup (dict_keys (sorted_members d))) by by rewrite sorted_members_keys.
  destruct (dict_get k d) as [v|] eqn:E; cbn.
  - apply dict_get_mem; [done|]. rewrite sorted_members_perm.
    apply list_elem_of_fmap. exists (k, v). split; [done|]. by apply dict_get_Some_mem.
  - apply dict_get_None. rewrite sorted_members_keys. by apply dict_get_None.
Qed.

Lemma json_eqb_list l k : json_eqb (JList l) (JList k) = true ↔ Forall2 (λ x y, json_eqb x y = true) l k.
Proof.
  cbn [json_eqb]. revert k. induction l as [|x l IH]; intros [|y k]; try (split; [done|by inversion 1]).
  rewrite andb_true_iff, IH. split; [intros [? ?]; by constructor|by inversion 1].
Qed.

Lemma json_eqb_dict d e :
  json_eqb (JDict d) (JDict e) = true ↔
  length d = length e ∧ Forall (λ kv, ∃ w, dict_get kv.1 e = Some w ∧ json_eqb kv.2 w = true) d.
Proof.
  cbn [json_eqb]. rewrite andb_true_iff, Nat.eqb_eq. apply and_iff_compat_l.
  induction d as [|[k v] d IH]; [split; intros _; [constructor|done]|].
  rewrite andb_true_iff, IH, Forall_cons. apply and_iff_compat_r. cbn.
  destruct (dict_get k e) as [w|]; [split; [by exists w|by intros (?&[= ->]&?)]|].
  split; [done|by intros (?&?&?)].
Qed.

Lemma json_eqb_sort ok v : json_ok ok v = true → comparable v = true →
  json_eqb v (sort_json v) = true ∧ json_eqb (sort_json v) v = true.
Proof.
  induction v as [|b|n|t|s|l IH|d IH] using json_nested_ind; cbn [json_ok comparable sort_json].
  - done.
  - intros _ _. by destruct b.
  - intros _ _. cbn. by rewrite Z.eqb_refl.
  - intros _ H. by split.
  - intros _ _. cbn. by rewrite String.eqb_refl.
  - intros H1 H2. rewrite !json_eqb_list. change (map sort_json l) with (sort_json <$> l).
    rewrite Forall2_fmap_l, Forall2_fmap_r.
    rewrite List.forallb_forall in H1. rewrite List.forallb_forall in H2. rewrite Forall_forall in IH.
    split; apply Forall_Forall2_diag, Forall_forall; intros x Hx; apply IH; auto;
      first [apply H1|apply H2]; by apply list_elem_of_In.
  - intros [Hnd H1]%andb_prop H2. apply bool_decide_eq_true in Hnd.
    rewrite List.forallb_forall in H1. rewrite List.forallb_forall in H2. rewrite Forall_forall in IH.
    fold (sorted_members d). rewrite !json_eqb_dict.
    assert (Hl : length (sorted_members d) = length d).
    { rewrite sorted_members_perm. apply length_map. }
    assert (Hkv : ∀ k v, (k, v) ∈ d → dict_get k d = Some v ∧ json_eqb v (sort_json v) = true ∧ json_eqb (sort_json v) v = true).
    { intros k v Hin. split; [by apply dict_get_mem|]. apply (IH (k, v) Hin).
      - apply list_elem_of_In, H1 in Hin. by apply andb_prop in Hin as [_ ?].
      - apply list_elem_of_In, H2 in Hin. done. }
    split; (split; [done|]).
    + apply Forall_forall. intros [k v] Hin. destruct (Hkv k v Hin) as (Hg&H&_). exists (sort_json v).
      cbn [fst snd]. by rewrite sorted_members_get, Hg.
    + rewrite sorted_members_perm. apply Forall_forall. intros ? ([k v]&->&Hin)%list_elem_of_fmap.
      destruct (Hkv k v Hin) as (Hg&_&H). by exists v.
Qed.

(** ** The law *)

(** The text is ASCII, within the limits of [json] and comparable. *)
Definition sane (j : json) : Prop := json_ok is_ascii j = true ∧ comparable j = true.

Class Restorable (A : Type) `{Snapshot A} := {
  canon : A → A;
  fits : A → bool;
  encodes a : fits a = true → ∃ j, encode_value a = Ok j ∧ sane j ∧ decode_value (sort_json j) = Ok (canon a);
  canon_encodes a : encode_value (canon a) = encode_value a;
}.

(** Types without [None]. *)
Class RejectsNull (A : Type) `{Snapshot A} :=
  rejects_null : ∃ s, decode_value (A := A) JNull = raise ValueError s.

(** Types whose values come back unchanged. *)
Class Fixed (A : Type) `{Restorable A} := canon_id : ∀ a : A, canon a = a.

Definition ascii_text (s : string) : bool := forallb is_ascii (chars s).

Lemma sane_str s : ascii_text s = true → sane (JStr s).
Proof. done. Qed.

#[global, program] Instance str_restorable : Restorable string := { canon s := s; fits := ascii_text }.
Next Obligation. intros s Hs. by exists (JStr s). Qed.
Next Obligation. done. Qed.

#[global, program] Instance int_restorable : Restorable Z :=
  { canon n := n; fits n := Z.abs n <? int_limit }.
Next Obligation. intros n Hn. by exists (JInt n). Qed.
Next Obligation. done. Qed.

#[global, program] Instance bool_restorable : Restorable bool := { canon b := b; fits b := true }.
Next Obligation. intros b _. by exists (JBool b). Qed.
Next Obligation. done. Qed.

#[global] Instance spec_float_eq_dec : EqDecision spec_float.
Proof. solve_decision. Defined.

Definition float_readable (f : spec_float) : bool :=
  let t := chars (float_repr f) in
  is_finite_float f && SFeqb f f && float_text t && bool_decide (text_float t = Some f).

#[global, program] Instance float_restorable : Restorable spec_float := { canon f := f; fits := float_readable }.
Next Obligation.
  intros f [[[Hf He]%andb_prop Ht]%andb_prop Hr%bool_decide_eq_true]%andb_prop.
  exists (JNum (chars (float_repr f))). cbn [encode_value float_snapshot decode_value sort_json].
  rewrite Hf, Hr, Hf. split_and!; [done| |done]. split; [done|]. cbn. unfold text_eqb. by rewrite Hr, He.
Qed.
Next Obligation. done. Qed.

Lemma date_isoformat_read d : date_wf d = true → date_fromisoformat (date_isoformat d) = Some d.
Proof.
  intros Hwf. destruct (date_ranges d Hwf) as (Hy&Hm&Hd). unfold date_fromisoformat, date_isoformat.
  rewrite chars_of_chars. set (l := pad_left 4 _ ++ _). assert (Hl : length l = 10%nat).
  { unfold l. rewrite length_app. cbn [length]. rewrite length_app. cbn [length]. by rewrite !padded_length by (lia || done). }
  rewrite Hl, bool_decide_true by set_solver.
  enough (Hp : parse_isoformat_date 10 l = Some (year d, month d, day d)).
  { rewrite Hp. cbn [mbind option_bind]. destruct d as [y m a]. cbn [year month day] in *. by rewrite Hwf. }
  unfold parse_isoformat_date, l. rewrite parse_padded by (lia || done). cbn [mbind option_bind head_or_nul].
  rewrite Ascii.eqb_refl. cbn [drop].
  destruct (pad_two (month d)) as (a&b&Ha&Hb&Hab&->); [exact Hm|]. cbn [app drop head_or_nul].
  rewrite (digit_not a "W") by (done || by vm_compute; auto). rewrite parse_two by done.
  cbn [mbind option_bind head_or_nul]. rewrite Ascii.eqb_refl. cbn [andb negb drop].
  rewrite drop_0, <- (app_nil_r (pad_left 2 _)), parse_padded by (lia || done). cbn. by rewrite Hab.
Qed.

#[global, program] Instance date_restorable : Restorable date := { canon d := d; fits := date_wf }.
Next Obligation.
  intros d Hd. exists (JStr (date_isoformat d)). split_and!; [done|exact (sane_str _ (date_isoformat_ascii d))|].
  cbn [sort_json decode_value date_snapshot]. by rewrite date_isoformat_read, String.eqb_refl.
Qed.
Next Obligation. done. Qed.

Lemma dec_str_ascii d : ascii_text (dec_str d) = true.
Proof.
  destruct (dec_chars_shape d) as (int&frac&dot&x&Hc&Hi&Hf&_). unfold ascii_text, dec_str.
  rewrite chars_of_chars, Hc, !List.forallb_app, (digits_ascii int Hi), !andb_true_iff. split_and!; [by destruct (fsign d)|done| |].
  - destruct dot; [|done]. by apply digits_ascii.
  - unfold exponent_chars. destruct (x =? 0); [done|]. cbn [forallb]. rewrite List.forallb_app, int_chars_ascii.
    by destruct (x <? 0).
Qed.

#[global, program] Instance fdec_restorable : Restorable fdec := { canon d := d; fits := dec_readable }.
Next Obligation.
  intros d Hd. exists (JStr (dec_str d)). split_and!; [done|apply sane_str, dec_str_ascii|].
  cbn [sort_json decode_value fdec_snapshot]. by rewrite dec_str_read, String.eqb_refl.
Qed.
Next Obligation. done. Qed.

Definition decimal_readable (d : decimal) : bool := match d with DFin d => dec_readable d | _ => false end.

#[global, program] Instance decimal_restorable : Restorable decimal := { canon d := d; fits := decimal_readable }.
Next Obligation.
  intros [d| |] Hd; [|done..]. pose proof (encodes (A:=fdec) d) as He. destruct (He Hd) as (j&Hj&Hs&Hr). exists j. split_and!; [done|done|].
  cbn [decode_value decimal_snapshot]. by rewrite Hr.
Qed.
Next Obligation. done. Qed.

Lemma enum_of_value_of `{PyEnum E} (e : E) : enum_of_value (enum_value e) = Some e.
Proof.
  unfold enum_of_value. destruct (List.find _ _) as [e'|] eqn:F.
  - apply List.find_some in F as [_ F%String.eqb_eq]. f_equal. by apply enum_inj.
  - pose proof (List.find_none _ _ F e (proj1 (list_elem_of_In _ _) (enum_complete e))) as H'.
    cbn in H'. by rewrite String.eqb_refl in H'.
Qed.

Lemma enum_of_value_Some `{PyEnum E} s (e : E) : enum_of_value s = Some e → enum_value e = s.
Proof. by intros [_ F%String.eqb_eq]%List.find_some. Qed.

#[global, program] Instance enum_restorable `{PyEnum E} : Restorable E :=
  { canon e := e; fits e := ascii_text (enum_value e) }.
Next Obligation.
  intros E ? e He. exists (JStr (enum_value e)). split_and!; [done|by apply sane_str|].
  cbn [sort_json decode_value enum_snapshot]. by rewrite enum_of_value_of.
Qed.
Next Obligation. done. Qed.

#[global] Instance str_rejects : RejectsNull string. Proof. by eexists. Qed.
#[global] Instance int_rejects : RejectsNull Z. Proof. by eexists. Qed.
#[global] Instance float_rejects : RejectsNull spec_float. Proof. by eexists. Qed.
#[global] Instance date_rejects : RejectsNull date. Proof. by eexists. Qed.
#[global] Instance fdec_rejects : RejectsNull fdec. Proof. by eexists. Qed.
#[global] Instance decimal_rejects : RejectsNull decimal. Proof. by eexists. Qed.
#[global] Instance enum_rejects `{PyEnum E} : RejectsNull E. Proof. by eexists. Qed.
#[global] Instance type_hint_rejects : RejectsNull type_hint. Proof. by eexists. Qed.
#[global] Instance app_rejects : RejectsNull AppTransaction. Proof. by eexists. Qed.
#[global] Instance evidence_rejects : RejectsNull MatchEvidence. Proof. by eexists. Qed.
#[global] Instance review_evidence_rejects : RejectsNull ReconciliationReviewEvidence. Proof. by eexists. Qed.

Definition when_present {A} (p : A → bool) (o : option A) : bool := match o with Some a => p a | None => true end.

#[global, program] Instance option_restorable `{Restorable A, !RejectsNull A} : Restorable (option A) :=
  { canon o := canon <$> o; fits := when_present fits }.
Next Obligation.
  intros A ? ? [s Hn] [a|] Ha.
  - pose proof (encodes a) as He. destruct (He Ha) as (j&Hj&Hs&Hr). exists j. split_and!; [done|done|].
    cbn [decode_value option_snapshot]. by rewrite Hr.
  - exists JNull. split_and!; [done|done|]. cbn [decode_value option_snapshot sort_json]. by rewrite Hn.
Qed.
Next Obligation. intros A ? ? ? [a|]; [exact (canon_encodes a)|done]. Qed.

#[global, program] Instance tuple_restorable `{Restorable A} : Restorable (list A) :=
  { canon l := canon <$> l; fits l := forallb fits l }.
Next Obligation.
  intros A ? ? l Hl. assert (∃ js, mapM encode_value l = Ok js ∧ Forall sane js ∧
                                  mapM decode_value (sort_json <$> js) = Ok (canon <$> l)) as (js&Hj&Hs&Hr).
  { induction l as [|a l IH]; [by exists []|]. cbn in Hl. apply andb_prop in Hl as [Ha Hl].
    destruct (encodes a Ha) as (j&Hj&Hs&Hr), (IH Hl) as (js&Hjs&Hss&Hrs). exists (j :: js).
    rewrite !fmap_cons. cbn [mapM]. rewrite Hj, Hr. cbn [mbind result_bind]. rewrite Hjs, Hrs.
    split_and!; [done|by constructor|done]. }
  exists (JList js). cbn [encode_value tuple_snapshot]. rewrite Hj. split_and!; [done| |done].
  split; cbn; apply List.forallb_forall; intros j Hin%list_elem_of_In;
    by destruct (proj1 (Forall_forall _ _) Hs j Hin).
Qed.
Next Obligation.
  intros A ? ? l. cbn [encode_value tuple_snapshot]. f_equal. induction l as [|a l IH]; [done|].
  rewrite fmap_cons. cbn [mapM]. by rewrite canon_encodes, IH.
Qed.

Definition canon_hint (h : type_hint) : type_hint :=
  match h with
  | HintText s => match enum_of_value s with Some t => HintType t | None => HintText s end
  | HintType t => HintType t
  end.

Definition hint_fits (h : type_hint) : bool := match h with HintType t => fits t | HintText s => fits s end.

#[global, program] Instance type_hint_restorable : Restorable type_hint := { canon := canon_hint; fits := hint_fits }.
Next Obligation.
  intros [t|s] Hf.
  - pose proof (encodes (A:=ReconciliationTransactionType.t) t) as He. destruct (He Hf) as (j&Hj&Hs&Hr). exists j. split_and!; [done|done|].
    cbn [decode_value type_hint_snapshot]. by rewrite Hr.
  - exists (JStr s). split_and!; [done|by apply sane_str|].
    cbn [decode_value type_hint_snapshot sort_json enum_snapshot str_snapshot canon_hint].
    by destruct (enum_of_value s).
Qed.
Next Obligation.
  intros [t|s]; [done|]. cbn [canon_hint]. destruct (enum_of_value s) as [t|] eqn:E; [|done].
  cbn [encode_value type_hint_snapshot enum_snapshot str_snapshot]. by rewrite (enum_of_value_Some _ _ E).
Qed.

#[global] Instance str_fixed : Fixed string. Proof. done. Qed.
#[global] Instance int_fixed : Fixed Z. Proof. done. Qed.
#[global] Instance bool_fixed : Fixed bool. Proof. done. Qed.
#[global] Instance float_fixed : Fixed spec_float. Proof. done. Qed.
#[global] Instance date_fixed : Fixed date. Proof. done. Qed.
#[global] Instance fdec_fixed : Fixed fdec. Proof. done. Qed.
#[global] Instance decimal_fixed : Fixed decimal. Proof. done. Qed.
#[global] Instance enum_fixed `{PyEnum E} : Fixed E. Proof. done. Qed.
#[global] Instance option_fixed `{Fixed A, !RejectsNull A} : Fixed (option A).
Proof. intros [a|]; [|done]. cbn. f_equal. apply canon_id. Qed.
#[global] Instance tuple_fixed `{Fixed A} : Fixed (list A).
Proof. intros l. induction l as [|a l IH]; [done|]. cbn. f_equal; [apply canon_id|exact IH]. Qed.

(** ** Dataclasses *)

Lemma snapshot_sorted names d :
  dict_keys d = names → NoDup names → snapshot_members names (sort_json (JDict d)) = Ok (sorted_members d).
Proof.
  intros <- Hd. cbn [sort_json]. fold (sorted_members d). unfold snapshot_members.
  assert (Hl : length (sorted_members d) = length (dict_keys d)).
  { unfold dict_keys. rewrite sorted_members_perm, length_fmap, length_map. done. }
  rewrite Hl, Nat.eqb_refl. replace (forallb _ _) with true; [done|]. symmetry.
  apply List.forallb_forall. intros k Hk%list_elem_of_In. rewrite sorted_members_keys in Hk.
  by apply bool_decide_eq_true.
Qed.

Lemma decode_sorted `{Snapshot A} k d v (a : A) :
  NoDup (dict_keys d) → dict_get k d = Some v → decode_value (sort_json v) = Ok a →
  decode_field (sorted_members d) k = Ok a.
Proof. intros Hd Hv Ha. unfold decode_field, dict_index. by rewrite sorted_members_get, Hv. Qed.

Lemma sane_dict d :
  NoDup (dict_keys d) → forallb (λ kv, ascii_text kv.1) d = true → Forall (λ kv, sane kv.2) d → sane (JDict d).
Proof.
  intros Hd Ha Hs. split; cbn [json_ok comparable].
  - rewrite bool_decide_true by done. cbn [andb]. apply List.forallb_forall. intros [k v] Hin.
    rewrite List.forallb_forall in Ha. rewrite Forall_forall in Hs. apply andb_true_iff.
    split; [exact (Ha _ Hin)|]. by apply list_elem_of_In, Hs in Hin as [? _].
  - apply List.forallb_forall. intros [k v] Hin. rewrite Forall_forall in Hs.
    by apply list_elem_of_In, Hs in Hin as [_ ?].
Qed.

Lemma check_canonical_sorted {A} (encoder : A → result json) j a :
  encoder a = Ok j → sane j → check_canonical encoder (sort_json j) a = Ok a.
Proof.
  intros He [Ho Hc]. unfold check_canonical. rewrite He. cbn [mbind result_bind].
  by rewrite (proj1 (json_eqb_sort _ _ Ho Hc)).
Qed.

(** Distinct literal keys. *)
Ltac distinct_keys := apply (bool_decide_eq_true_1 (NoDup _)); vm_compute; reflexivity.

(** Encodes every field of a record whose fields fit. *)
Ltac encode_parts :=
  repeat match goal with
  | H : @fits ?A ?S ?R ?x = true |- _ =>
      let j := fresh "j" in destruct (@encodes A S R x H) as (j & ? & ? & ?); clear H
  end.

Ltac encoded_fields :=
  unfold encode_fields; cbn [mapM fst snd];
  repeat (match goal with H : encode_value ?x = Ok _ |- context [encode_value ?x] => rewrite H end;
          cbn [mbind result_bind fst snd]);
  reflexivity.

(** Decodes every field of a record from its sorted members. *)
Ltac decode_fields Hnd :=
  repeat (erewrite decode_sorted by first [exact Hnd|reflexivity|eassumption]; cbn [mbind result_bind]).

Definition positive_amount (d : decimal) : bool :=
  match decimal_le_zero d with Ok le => negb le | Raise _ => false end.

Definition app_fits (a : AppTransaction) : bool :=
  fits (app_txn_id a) && fits (app_transaction_date a) && fits (app_merchant a) && fits (app_amount a) &&
  fits (app_currency a) && fits (app_source_type a) && fits (app_source_channel a) &&
  fits (app_normalized_merchant a) && fits (app_posted_date a) && fits (app_transaction_type a) &&
  positive_amount (app_amount a).

Definition canon_app (a : AppTransaction) : AppTransaction :=
  MkApp (app_txn_id a) (app_transaction_date a) (app_merchant a) (app_amount a) (app_currency a)
    (app_source_type a) (app_source_channel a) (app_normalized_merchant a) (app_posted_date a)
    (canon_hint <$> app_transaction_type a).

(** The snapshot of a record whose fields are encoded: its value, its shape,
    and what remains of reading it back once its fields are. *)
Ltac all_members := repeat first [apply List.Forall_nil | apply List.Forall_cons; [assumption|]].
Ltac record_encodes encoder a :=
  let He := fresh "He" in let Hk := fresh "Hk" in let Hs := fresh "Hs" in
  eassert (He : encoder a = Ok (JDict _)) by (unfold encoder; encoded_fields);
  match type of He with _ = Ok (JDict ?d) =>
    assert (Hk : NoDup (dict_keys d)) by distinct_keys;
    assert (Hs : sane (JDict d)) by (apply sane_dict; [exact Hk|reflexivity|all_members]);
    exists (JDict d); split; [exact He|]; split; [exact Hs|]
  end.

Ltac decode_record decoder :=
  match goal with Hk : NoDup (dict_keys ?d) |- _ =>
    unfold decoder; rewrite snapshot_sorted by (reflexivity || distinct_keys);
    cbn [mbind result_bind]; decode_fields Hk;
    repeat match goal with |- context [@canon ?A ?S ?R ?x] => rewrite (@canon_id A S R _ x) end
  end.

Lemma positive_checked a : positive_amount a = true → decimal_le_zero a = Ok false.
Proof. unfold positive_amount. destruct (decimal_le_zero a) as [[]|]; done. Qed.

#[global, program] Instance app_restorable : Restorable AppTransaction := { canon := canon_app; fits := app_fits }.
Next Obligation.
  intros a Hf. unfold app_fits in Hf. rewrite !andb_true_iff in Hf. destruct_and! Hf. encode_parts.
  assert (Hc : encode_app (canon_app a) = encode_app a).
  { unfold encode_app, canon_app. cbn [app_txn_id app_transaction_date app_merchant app_amount app_currency
      app_source_type app_source_channel app_normalized_merchant app_posted_date app_transaction_type].
    change (canon_hint <$> app_transaction_type a) with (canon (app_transaction_type a)). by rewrite canon_encodes. }
  cbn [encode_value decode_value app_snapshot]. record_encodes encode_app a.
  decode_record decode_app. unfold AppTransaction_new. rewrite positive_checked by assumption.
  cbn [mbind result_bind raise_when constructed]. apply check_canonical_sorted; [|assumption].
  rewrite <- He, <- Hc. reflexivity.
Qed.
Next Obligation.
  intros a. cbn [encode_value app_snapshot]. unfold encode_app, canon_app.
  cbn [app_txn_id app_transaction_date app_merchant app_amount app_currency
      app_source_type app_source_channel app_normalized_merchant app_posted_date app_transaction_type].
  change (canon_hint <$> app_transaction_type a) with (canon (app_transaction_type a)). by rewrite canon_encodes.
Qed.

(** *** Statements *)

Definition statement_valid (s : StatementTransaction) : bool :=
  match st_amount s with Some d => negb (dec_ltb d dec_zero) | None => true end &&
  match st_source_content_hash s with Some h => is_sha256 h | None => true end.

Definition statement_fits (s : StatementTransaction) : bool :=
  fits (st_transaction_date s) && fits (st_posted_date s) && fits (st_merchant_raw s) &&
  fits (st_merchant_normalized s) && fits (st_amount s) && fits (st_currency s) && fits (st_account_name s) &&
  fits (st_account_id s) && fits (st_source_batch_id s) && fits (st_statement_row_reference s) &&
  fits (st_public_id s) && fits (st_row_fingerprint s) && fits (st_source_content_hash s) &&
  fits (st_amount_direction s) && fits (st_raw_amount s) && fits (st_raw_amount_type s) && statement_valid s.

Lemma direction_checked o : check_statement_direction (direction_argument o) = Ok o.
Proof. by destruct o as [[]|]. Qed.

(** The constructor accepts the fields of a valid statement again. *)
Lemma statement_rebuilt s : statement_valid s = true →
  StatementTransaction_new (st_transaction_date s) (st_posted_date s) (st_merchant_raw s) (st_merchant_normalized s)
    (amount_argument (st_amount s)) (st_currency s) (st_account_name s) (st_account_id s) (st_source_batch_id s)
    (st_statement_row_reference s) (st_public_id s) (st_row_fingerprint s) (st_source_content_hash s)
    (direction_argument (st_amount_direction s)) (st_raw_amount s) (st_raw_amount_type s) = Ok s.
Proof.
  intros [Ha Hh]%andb_prop. unfold StatementTransaction_new. rewrite direction_checked.
  assert (Hc : check_statement_amount (amount_argument (st_amount s)) = Ok (st_amount s)).
  { destruct (st_amount s) as [d|]; [|done]. cbn. apply negb_true_iff in Ha. by rewrite Ha. }
  rewrite Hc. cbn [mbind result_bind]. destruct s as [? ? ? ? ? ? ? ? ? ? ? ? h ? ? ?]. cbn in *.
  destruct h; [by rewrite Hh|done].
Qed.

#[global, program] Instance statement_restorable : Restorable StatementTransaction :=
  { canon s := s; fits := statement_fits }.
Next Obligation.
  intros s Hf. unfold statement_fits in Hf. rewrite !andb_true_iff in Hf. destruct_and! Hf. encode_parts.
  cbn [encode_value decode_value statement_snapshot]. record_encodes encode_statement s.
  decode_record decode_statement. rewrite statement_rebuilt by assumption. cbn [constructed mbind result_bind].
  apply check_canonical_sorted; assumption.
Qed.
Next Obligation. done. Qed.

(** *** Evidence *)

Definition evidence_fits (e : MatchEvidence) : bool :=
  fits (ev_statement_amount e) && fits (ev_candidate_amount e) && fits (ev_statement_currency e) &&
  fits (ev_candidate_currency e) && fits (ev_statement_txn_date e) && fits (ev_statement_posted_date e) &&
  fits (ev_candidate_txn_date e) && fits (ev_date_delta_days e) && fits (ev_date_tolerance_days e) &&
  fits (ev_statement_merchant e) && fits (ev_candidate_merchant e) &&
  fits (ev_statement_merchant_normalized e) && fits (ev_candidate_merchant_normalized e) &&
  fits (ev_merchant_similarity e) && fits (ev_candidate_count e) && fits (ev_statement_direction e) &&
  fits (ev_candidate_transaction_type e) && fits (ev_original_amount_text e) &&
  fits (ev_original_amount_sign e) && fits (ev_compatibility_result e) && fits (ev_hard_gate_results e).

#[global, program] Instance evidence_restorable : Restorable MatchEvidence := { canon e := e; fits := evidence_fits }.
Next Obligation.
  intros e Hf. unfold evidence_fits in Hf. rewrite !andb_true_iff in Hf. destruct_and! Hf. encode_parts.
  cbn [encode_value decode_value evidence_snapshot]. record_encodes encode_evidence e.
  decode_record decode_evidence. destruct e. apply check_canonical_sorted; assumption.
Qed.
Next Obligation. done. Qed.
#[global] Instance evidence_fixed : Fixed MatchEvidence. Proof. done. Qed.

Definition review_evidence_fits (e : ReconciliationReviewEvidence) : bool :=
  fits (re_statement_reference e) && fits (re_statement_transaction_date e) &&
  fits (re_statement_posted_date e) && fits (re_statement_merchant e) && fits (re_statement_amount e) &&
  fits (re_statement_currency e) && fits (re_app_transaction_id e) && fits (re_app_transaction_date e) &&
  fits (re_app_merchant e) && fits (re_app_amount e) && fits (re_app_currency e) && fits (re_amount_delta e) &&
  fits (re_date_delta_days e) && fits (re_merchant_similarity e) && fits (re_candidate_count e) &&
  fits (re_reason_codes e) && fits (re_issue_type e) && fits (re_review_priority e) &&
  fits (re_suggested_action e) && fits (re_confidence_score e).

#[global, program] Instance review_evidence_restorable : Restorable ReconciliationReviewEvidence :=
  { canon e := e; fits := review_evidence_fits }.
Next Obligation.
  intros e Hf. unfold review_evidence_fits in Hf. rewrite !andb_true_iff in Hf. destruct_and! Hf. encode_parts.
  cbn [encode_value decode_value review_evidence_snapshot]. record_encodes encode_review_evidence e.
  decode_record decode_review_evidence. destruct e. apply check_canonical_sorted; assumption.
Qed.
Next Obligation. done. Qed.
#[global] Instance review_evidence_fixed : Fixed ReconciliationReviewEvidence. Proof. done. Qed.
#[global] Instance statement_fixed : Fixed StatementTransaction. Proof. done. Qed.

(** *** Candidates and queue items *)

Definition candidate_fits (c : ReconciliationCandidate) : bool :=
  fits (rc_statement c) && fits (rc_best_app_transaction c) && fits (rc_all_app_transactions c) &&
  fits (rc_match_status c) && fits (rc_reason_codes c) && fits (rc_issue_type c) &&
  fits (rc_confidence_score c) && fits (rc_evidence c) && fits (rc_candidate_id c) &&
  fits (rc_review_priority c) && fits (rc_is_review_required c).

Definition canon_candidate (c : ReconciliationCandidate) : ReconciliationCandidate :=
  MkRecon (rc_statement c) (canon_app <$> rc_best_app_transaction c) (canon_app <$> rc_all_app_transactions c)
    (rc_match_status c) (rc_reason_codes c) (rc_issue_type c) (rc_confidence_score c) (rc_evidence c)
    (rc_candidate_id c) (rc_review_priority c) (rc_is_review_required c).

Lemma encode_canon_candidate c : encode_candidate (canon_candidate c) = encode_candidate c.
Proof.
  unfold encode_candidate, canon_candidate. cbn [rc_statement rc_best_app_transaction rc_all_app_transactions
    rc_match_status rc_reason_codes rc_issue_type rc_confidence_score rc_evidence rc_candidate_id
    rc_review_priority rc_is_review_required].
  change (canon_app <$> rc_best_app_transaction c) with (canon (rc_best_app_transaction c)).
  change (canon_app <$> rc_all_app_transactions c) with (canon (rc_all_app_transactions c)).
  by rewrite !canon_encodes.
Qed.

#[global, program] Instance candidate_restorable : Restorable ReconciliationCandidate :=
  { canon := canon_candidate; fits := candidate_fits; canon_encodes := encode_canon_candidate }.
Next Obligation.
  intros c Hf. unfold candidate_fits in Hf. rewrite !andb_true_iff in Hf. destruct_and! Hf. encode_parts.
  cbn [encode_value decode_value candidate_snapshot]. record_encodes encode_candidate c.
  decode_record decode_candidate. apply check_canonical_sorted; [|assumption].
  etransitivity; [exact (encode_canon_candidate c)|exact He].
Qed.

Definition item_fits (i : ReviewQueueItem) : bool :=
  fits (qi_candidate i) && fits (qi_issue_type i) && fits (qi_suggested_action i) &&
  fits (qi_queue_item_id i) && fits (qi_reason_codes i) && fits (qi_evidence_summary i) &&
  fits (qi_structured_evidence i) && fits (qi_priority i).

(** The item with the transaction types of its app transactions as members of
    the enumeration, where they are. *)
Definition canon_item (i : ReviewQueueItem) : ReviewQueueItem :=
  MkItem (canon_candidate (qi_candidate i)) (qi_issue_type i) (qi_suggested_action i) (qi_queue_item_id i)
    (qi_reason_codes i) (qi_evidence_summary i) (qi_structured_evidence i) (qi_priority i).

Lemma encode_canon_item i : encode_item (canon_item i) = encode_item i.
Proof.
  unfold encode_item, canon_item. cbn [qi_candidate qi_issue_type qi_suggested_action qi_queue_item_id
    qi_reason_codes qi_evidence_summary qi_structured_evidence qi_priority].
  change (canon_candidate (qi_candidate i)) with (canon (qi_candidate i)). by rewrite canon_encodes.
Qed.

#[global, program] Instance item_restorable : Restorable ReviewQueueItem :=
  { canon := canon_item; fits := item_fits; canon_encodes := encode_canon_item }.
Next Obligation.
  intros i Hf. unfold item_fits in Hf. rewrite !andb_true_iff in Hf. destruct_and! Hf. encode_parts.
  cbn [encode_value decode_value item_snapshot]. record_encodes encode_item i.
  decode_record decode_item. apply check_canonical_sorted; [|assumption].
  etransitivity; [exact (encode_canon_item i)|exact He].
Qed.
