(* ===== verification/BindingProps.v ===== *)
(** * Properties of the source binding

    What registration writes is read back, and what is read back is a well
    formed item. *)

From Stdlib Require Import Ascii ZArith QArith SpecFloat Lia.
From stdpp Require Import base sets strings sorting numbers list.
From S2P Require Import Prelude PyDecimal PyValue Hash MoneyText DecText Json JsonParse JsonRoundtrip PyDate PyFloat ReconModels ReconDecision ReconMatcher ReconBatch ReviewModels ReviewQueue ApplyRuntime BoundCodec Snapshot SnapshotProps SourceBinding ReviewPersistence CodecProps QueueProps.

Open Scope Z_scope.

(** ** The enumeration of a transaction type does not matter *)

Lemma app_snapshot_canon a : app_snapshot_json (canon_app a) = app_snapshot_json a.
Proof.
  unfold app_snapshot_json, canon_app. cbn [app_txn_id app_transaction_date app_merchant app_amount app_currency
    app_source_type app_source_channel app_normalized_merchant app_posted_date app_transaction_type].
  destruct (app_transaction_type a) as [[t|s]|]; [reflexivity| |reflexivity].
  cbn [fmap option_fmap option_map canon_hint]. destruct (enum_of_value s) as [t|] eqn:E; [|reflexivity].
  apply enum_of_value_Some in E as <-. reflexivity.
Qed.

Lemma reclassify_canon c : reclassify (canon_candidate c) = canon_candidate (reclassify c).
Proof. unfold reclassify. cbn [rc_issue_type rc_review_priority rc_is_review_required canon_candidate]. by destruct (_ || _). Qed.

Lemma structured_canon c s : build_structured_evidence (canon_candidate c) s = build_structured_evidence c s.
Proof. unfold build_structured_evidence. cbn. by destruct (rc_best_app_transaction c). Qed.

Lemma queue_item_canon label n c :
  queue_item label n (canon_candidate c) = canon_item <$> queue_item label n c.
Proof.
  unfold queue_item. rewrite reclassify_canon, structured_canon.
  change (evidence_summary (canon_candidate ?c)) with (evidence_summary c).
  destruct (evidence_summary _); [|done]. cbn [mbind result_bind]. by destruct (build_structured_evidence _ _).
Qed.

(** The queue of one candidate. *)
Lemma generate_single {A} c label (f : list ReviewQueueItem → result A) :
  (g ← generate_review_queue [c] label; f g.1) = (q ← queue_item label 0 c; f [q]).
Proof. unfold generate_review_queue. cbn [imap mapM fst snd]. by destruct (queue_item label 0 c). Qed.

Lemma check_generated_canon item : check_generated (canon_item item) = check_generated item.
Proof.
  unfold check_generated.
  rewrite !(generate_single _ _ (λ l, match l with [] => _ | expected :: _ => _ end)).
  change (qi_candidate (canon_item item)) with (canon_candidate (qi_candidate item)).
  rewrite queue_item_canon. by destruct (queue_item _ _ _).
Qed.

Lemma contract_canon item : validate_item_contract (canon_item item) = validate_item_contract item.
Proof.
  unfold validate_item_contract. rewrite check_generated_canon.
  assert (He : evidence_conflicts (qi_candidate (canon_item item)) = evidence_conflicts (qi_candidate item)).
  { unfold evidence_conflicts. cbn. destruct (rc_evidence _); [|done]. by destruct (rc_best_app_transaction _). }
  assert (Hc : classification_ok (canon_item item) = classification_ok item).
  { unfold classification_ok. cbn. by destruct (rc_best_app_transaction _). }
  by rewrite He, Hc.
Qed.

Lemma app_ref_canon item : app_ref (canon_item item) = app_ref item.
Proof. unfold app_ref. cbn. by destruct (rc_best_app_transaction _). Qed.

Lemma snapshots_canon (l : list AppTransaction) : app_snapshot_json <$> (canon_app <$> l) = app_snapshot_json <$> l.
Proof. induction l as [|a l IH]; [done|]. rewrite !fmap_cons, IH. by rewrite app_snapshot_canon. Qed.

Lemma mapM_restore_canon (l : list AppTransaction) :
  mapM (λ a, restore_app (app_snapshot_json a)) (canon_app <$> l) = mapM (λ a, restore_app (app_snapshot_json a)) l.
Proof. induction l as [|a l IH]; [done|]. rewrite fmap_cons. cbn [mapM]. by rewrite app_snapshot_canon, IH. Qed.

Lemma candidate_set_canon item : check_candidate_set (canon_item item) = check_candidate_set item.
Proof.
  unfold check_candidate_set. cbn [qi_candidate canon_item rc_all_app_transactions rc_best_app_transaction canon_candidate].
  rewrite mapM_restore_canon.
  assert (Hn : bool_decide (canon_app <$> rc_all_app_transactions (qi_candidate item) = []) =
               bool_decide (rc_all_app_transactions (qi_candidate item) = [])) by by destruct (rc_all_app_transactions _).
  rewrite Hn. destruct (rc_best_app_transaction (qi_candidate item)); [|done]. cbn [fmap option_fmap option_map].
  by rewrite app_snapshot_canon.
Qed.

Lemma material_canon item : source_material (canon_item item) = source_material item.
Proof.
  unfold source_material. rewrite contract_canon, candidate_set_canon, encode_canon_item, app_ref_canon.
  cbn [qi_candidate canon_item rc_all_app_transactions canon_candidate]. by rewrite snapshots_canon.
Qed.

Lemma binding_canon item : build_source_binding (canon_item item) = build_source_binding item.
Proof. unfold build_source_binding. by rewrite material_canon. Qed.

Lemma outer_canon item : outer_source_evidence (canon_item item) = outer_source_evidence item.
Proof.
  unfold outer_source_evidence. cbn [qi_candidate canon_item rc_all_app_transactions canon_candidate
    rc_best_app_transaction rc_statement rc_match_status rc_issue_type rc_confidence_score rc_candidate_id].
  rewrite snapshots_canon. by destruct (rc_best_app_transaction _).
Qed.

(** ** Dictionaries without one key *)

Definition key_leb (a b : string * json) : bool := String.leb a.1 b.1.

Lemma sorted_members_ssorted d : StronglySorted key_leb (sorted_members d).
Proof. apply isort_ssorted; intros; [apply str_leb_total|by eapply str_leb_trans]. Qed.

Lemma keep_ssorted {A} (R : A → A → bool) p l : StronglySorted R l → StronglySorted R (keep p l).
Proof.
  induction 1 as [|x l Hl IH Hx]; [constructor|]. cbn. destruct (p x); [|done].
  constructor; [done|]. rewrite Forall_forall in Hx. apply Forall_forall. intros y [Hy _]%keep_elem_of. by apply Hx.
Qed.

Lemma same_key (d : list (string * json)) a b : NoDup (dict_keys d) → a ∈ d → b ∈ d → a.1 = b.1 → a = b.
Proof.
  destruct a as [k v], b as [k' w]. cbn. intros Hd Ha Hb <-.
  apply (dict_get_mem k v d Hd) in Ha. apply (dict_get_mem k w d Hd) in Hb. congruence.
Qed.

Lemma without_sorted k v d :
  NoDup (dict_keys (d ++ [(k, v)])) → without k (sorted_members (d ++ [(k, v)])) = sorted_members d.
Proof.
  intros Hd. pose proof Hd as Hd'. unfold dict_keys in Hd'. rewrite fmap_app in Hd'.
  apply NoDup_app in Hd' as (Hnd&Hk&_).
  assert (Hp : without k (sorted_members (d ++ [(k, v)])) ≡ₚ sorted_members d).
  { unfold without. rewrite (keep_perm _ _ _ (sorted_members_perm _)), map_app, keep_app, sorted_members_perm.
    rewrite keep_all, keep_none; [by rewrite app_nil_r| |].
    - repeat constructor. cbn. by rewrite String.eqb_refl.
    - apply Forall_forall. intros ? ([k' w]&->&Hin)%list_elem_of_fmap. cbn. apply negb_true_iff, String.eqb_neq.
      intros ->. apply (Hk k); [|by left]. apply list_elem_of_fmap. by exists (k, w). }
  apply (ssorted_unique key_leb); [| | |done].
  - intros a b Ha Hb H1 H2. assert (Hks : NoDup (dict_keys (sorted_members d))) by by rewrite sorted_members_keys.
    rewrite Hp in Ha, Hb. apply (same_key _ _ _ Hks Ha Hb). by apply str_leb_antisym.
  - apply keep_ssorted, sorted_members_ssorted.
  - apply sorted_members_ssorted.
Qed.

(** ** The texts are JSON the reader accepts *)

Lemma strict_sorted ok v : json_ok ok v = true → strict_value (sort_json v) = true.
Proof.
  induction v as [|b|n|t|s|l IH|d IH] using json_nested_ind; cbn [json_ok sort_json strict_value]; try done.
  - intros Ht. apply negb_true_iff, bool_decide_eq_false. intros Hin.
    repeat (apply elem_of_cons in Hin as [->|Hin]; [by vm_compute in Ht|]). by apply elem_of_nil in Hin.
  - rewrite !List.forallb_forall. rewrite Forall_forall in IH. intros H x.
    rewrite <- list_elem_of_In. intros (y&->&Hy)%list_elem_of_fmap. apply IH; [done|]. by apply H, list_elem_of_In.
  - intros [Hnd H]%andb_prop. apply bool_decide_eq_true in Hnd. fold (sorted_members d).
    rewrite bool_decide_true by by rewrite sorted_members_keys. cbn [andb].
    rewrite Forall_forall in IH. rewrite List.forallb_forall in H. apply List.forallb_forall. intros x.
    rewrite <- list_elem_of_In, sorted_members_perm. intros ([k v]&->&Hy)%list_elem_of_fmap.
    apply (IH (k, v) Hy). apply list_elem_of_In, H in Hy. by apply andb_prop in Hy as [_ ?].
Qed.

Lemma strict_canonical v : json_ok is_ascii v = true → strict_json (canonical v) = Ok (sort_json v).
Proof.
  intros Hok. pose proof (json_reads escape_char is_ascii v escape_char_undoes Hok) as Hr.
  unfold strict_json, canonical, json_chars. rewrite chars_of_chars. set (l := json_chars_with escape_char v) in *.
  pose proof (reads_skip _ _ [] Hr) as Hsk. rewrite !app_nil_r in Hsk. rewrite Hsk.
  destruct (proj2 Hr [] I) as [f Hf]. rewrite app_nil_r in Hf.
  rewrite (parse_value_enough _ (S (2 * length l) + f)) by lia.
  rewrite (parse_value_mono f (S (2 * length l) + f) _ _ _ ltac:(lia) Hf). cbn [skip_space].
  change (skip_space []) with (@nil Ascii.ascii). cbn iota. by rewrite (strict_sorted is_ascii).
Qed.

Lemma sane_list l : Forall sane l → sane (JList l).
Proof.
  intros Hl. rewrite Forall_forall in Hl.
  split; cbn [json_ok comparable]; apply List.forallb_forall; intros x Hx%list_elem_of_In; by apply Hl in Hx as [? ?].
Qed.

Lemma sane_jopt o : when_present ascii_text o = true → sane (jopt o).
Proof. by destruct o. Qed.

Lemma sane_date d : sane (JStr (date_isoformat d)).
Proof. exact (sane_str _ (date_isoformat_ascii d)). Qed.

Lemma sane_jdate o : sane (jdate o).
Proof. destruct o; [apply sane_date|done]. Qed.

Lemma sane_decimal d : decimal_readable d = true → sane (JStr (decimal_str d)).
Proof. destruct d as [d| |]; [|done..]. intros _. apply sane_str, dec_str_ascii. Qed.

Lemma sane_dec_opt (o : option fdec) : sane (opt_json (λ d, JStr (dec_str d)) o).
Proof. destruct o as [d|]; [apply sane_str, dec_str_ascii|done]. Qed.

Lemma sane_enum `{PyEnum E} (e : E) : ascii_text (enum_value e) = true → sane (JStr (enum_value e)).
Proof. apply sane_str. Qed.

Ltac fit_parts H := rewrite ?andb_true_iff in H; destruct_and? H.

(** A literal object whose members are sane. *)
Ltac sane_members :=
  apply sane_dict; [distinct_keys|reflexivity|];
  repeat first [apply List.Forall_nil|apply List.Forall_cons; [cbn [snd]|]].

Lemma app_snapshot_sane a : app_fits a = true → sane (app_snapshot_json a).
Proof.
  unfold app_fits. intros H. fit_parts H. unfold app_snapshot_json. sane_members;
    try solve [apply sane_date|by apply sane_jopt|apply sane_jdate|by apply sane_decimal|by apply sane_str].
  destruct (app_transaction_type a) as [[t|s]|]; [|by apply sane_str|done]. by apply sane_str.
Qed.

Lemma snapshots_sane l : forallb app_fits l = true → Forall sane (app_snapshot_json <$> l).
Proof.
  intros H. apply Forall_fmap, Forall_forall. intros a Ha. apply app_snapshot_sane.
  rewrite List.forallb_forall in H. by apply H, list_elem_of_In.
Qed.

(** The texts of an item that fits. *)
Lemma item_texts item : item_fits item = true →
  ascii_text (rc_candidate_id (qi_candidate item)) = true ∧ ascii_text (qi_queue_item_id item) = true ∧
  ascii_text (statement_ref item) = true ∧ ascii_text (st_merchant_raw (rc_statement (qi_candidate item))) = true ∧
  when_present ascii_text (st_currency (rc_statement (qi_candidate item))) = true ∧
  when_present app_fits (rc_best_app_transaction (qi_candidate item)) = true ∧
  forallb app_fits (rc_all_app_transactions (qi_candidate item)) = true.
Proof.
  unfold item_fits. intros H. rewrite !andb_true_iff in H. destruct H as (((((((Hc&_)&_)&Hq)&_)&_)&_)&_).
  cbn [fits candidate_restorable str_restorable] in *. unfold candidate_fits in Hc. rewrite !andb_true_iff in Hc.
  destruct Hc as ((((((((((Hs&Hb)&Ha)&_)&_)&_)&_)&_)&Hid)&_)&_).
  cbn [fits statement_restorable] in Hs. unfold statement_fits in Hs. rewrite !andb_true_iff in Hs.
  destruct Hs as ((((((((((((((((_&_)&Hm)&_)&_)&Hcur)&_)&_)&_)&Href)&_)&_)&_)&_)&_)&_)&_).
  split_and!; [done..| |done|done|done|done].
  unfold statement_ref, or_text. destruct (st_statement_row_reference _); [|done]. by destruct (str_empty _).
Qed.

Definition material_of (item : ReviewQueueItem) (decision_source : json) : list (string * json) :=
  let snapshots := app_snapshot_json <$> rc_all_app_transactions (qi_candidate item) in
  [("version", JInt 2); ("queue_item_id", JStr (qi_queue_item_id item));
   ("candidate_id", JStr (rc_candidate_id (qi_candidate item)));
   ("issue_type", JStr (IssueType.value (qi_issue_type item)));
   ("statement_transaction_ref", JStr (statement_ref item)); ("app_transaction_ref", jopt (app_ref item));
   ("app_transaction_count", JInt (Z.of_nat (length snapshots))); ("app_transactions", JList snapshots);
   ("decision_source", decision_source)].

Lemma source_material_Ok item m :
  source_material item = Ok m →
  validate_item_contract item = Ok tt ∧ ∃ ds, encode_item item = Ok ds ∧ m = material_of item ds.
Proof.
  unfold source_material. intros ([]&Hv&H)%bind_Ok. split; [done|].
  apply bind_Ok in H as (?&_&H). apply bind_Ok in H as (?&_&H). apply bind_Ok in H as (?&_&H).
  apply bind_Ok in H as (ds&Hd&H). injection H as <-. by exists ds.
Qed.

Lemma app_ref_ascii item : item_fits item = true → when_present ascii_text (app_ref item) = true.
Proof.
  intros (_&_&_&_&_&Hb&_)%item_texts. unfold app_ref. destruct (rc_best_app_transaction _) as [a|]; [|done].
  cbn in *. unfold app_fits in Hb. rewrite !andb_true_iff in Hb. by destruct Hb as ((((((((((?&_)&_)&_)&_)&_)&_)&_)&_)&_)&_).
Qed.

Lemma issue_ascii t : ascii_text (IssueType.value t) = true.
Proof. by destruct t. Qed.

(** The number of app transactions is one Python prints: so many would not fit
    in memory. *)
Definition countable (item : ReviewQueueItem) : bool :=
  Z.of_nat (length (rc_all_app_transactions (qi_candidate item))) <? int_limit.

Lemma material_sane item ds :
  item_fits item = true → countable item = true → sane ds → sane (JDict (material_of item ds)).
Proof.
  intros Hf Hn Hds. pose proof (app_ref_ascii item Hf). destruct (item_texts item Hf) as (?&?&?&_&_&_&Hall).
  unfold material_of. sane_members; try solve [done|by apply sane_str|by apply sane_jopt|apply sane_str, issue_ascii].
  - rewrite length_fmap. split; [|done]. cbn [json_ok]. rewrite Z.abs_eq by lia. exact Hn.
  - by apply sane_list, snapshots_sane.
Qed.

Lemma material_keys item ds v : dict_keys (material_of item ds ++ [("sha256", v)]) = binding_keys.
Proof. reflexivity. Qed.

(** ** The evidence of a row *)

Lemma evidence_members_outer item b :
  evidence_members item (Some b) = outer_source_evidence item ++ [("source_binding", JDict b)].
Proof.
  unfold evidence_members, outer_source_evidence. rewrite <- !app_assoc. reflexivity.
Qed.

Lemma outer_keys item v : NoDup (dict_keys (outer_source_evidence item ++ [("source_binding", v)])).
Proof.
  unfold outer_source_evidence. destruct (st_transaction_date _), (st_posted_date _), (rc_best_app_transaction _);
    distinct_keys.
Qed.

Lemma status_ascii t : ascii_text (MatchStatus.value t) = true.
Proof. by destruct t. Qed.

Lemma outer_sane item v :
  item_fits item = true → sane v → sane (JDict (outer_source_evidence item ++ [("source_binding", v)])).
Proof.
  intros Hf Hv. destruct (item_texts item Hf) as (?&?&?&?&?&Hb&Hall).
  apply sane_dict; [apply outer_keys| |].
  { unfold outer_source_evidence. destruct (st_transaction_date _), (st_posted_date _), (rc_best_app_transaction _); reflexivity. }
  unfold outer_source_evidence. rewrite <- !app_assoc. repeat (apply Forall_app; split).
  - repeat first [apply List.Forall_nil|apply List.Forall_cons; [cbn [snd]|]];
      try solve [by apply sane_str|by apply sane_jopt|apply sane_str, issue_ascii|apply sane_str, status_ascii
                |apply sane_str, dec_str_ascii|apply sane_dec_opt].
  - destruct (st_transaction_date _); [|constructor]. apply List.Forall_cons; [apply sane_date|apply List.Forall_nil].
  - destruct (st_posted_date _); [|constructor]. apply List.Forall_cons; [apply sane_date|apply List.Forall_nil].
  - destruct (rc_best_app_transaction _) as [a|]; [|constructor]. cbn in Hb. unfold app_fits in Hb. fit_parts Hb.
    cbn [app_members]. repeat first [apply List.Forall_nil|apply List.Forall_cons; [cbn [snd]|]];
      try solve [by apply sane_str|by apply sane_decimal|apply sane_date].
  - apply List.Forall_cons; [|apply List.Forall_nil]. cbn [snd]. by apply sane_list, snapshots_sane.
  - apply List.Forall_cons; [exact Hv|apply List.Forall_nil].
Qed.

Lemma outer_sane_alone item : item_fits item = true → sane (JDict (outer_source_evidence item)).
Proof.
  intros Hf. pose proof (outer_sane item JNull Hf (conj eq_refl eq_refl)) as [H1 H2].
  cbn [json_ok comparable] in *. apply andb_prop in H1 as [Hnd H1]. rewrite List.forallb_app in H1, H2.
  apply andb_prop in H1 as [H1 _]. apply andb_prop in H2 as [H2 _]. split; cbn [json_ok comparable]; [|done].
  rewrite H1, andb_true_r. apply bool_decide_eq_true. apply bool_decide_eq_true in Hnd.
  unfold dict_keys in *. rewrite fmap_app in Hnd. by apply NoDup_app in Hnd as [? _].
Qed.

(** ** One row *)

Lemma codes_ok l : json_ok is_ascii (reason_values l) = true ∧ sort_json (reason_values l) = reason_values l.
Proof.
  unfold reason_values. split.
  - cbn [json_ok]. induction l as [|c l IH]; [done|]. rewrite fmap_cons. cbn [forallb json_ok].
    rewrite IH, andb_true_r. by destruct c.
  - cbn [sort_json]. f_equal. induction l as [|c l IH]; [done|]. rewrite fmap_cons. cbn [map]. by rewrite IH.
Qed.

Lemma codes_eqb l : json_eqb (reason_values l) (reason_values l) = true.
Proof.
  unfold reason_values. apply json_eqb_list. apply Forall2_fmap, Forall_Forall2_diag, Forall_forall.
  intros c _. cbn. apply String.eqb_refl.
Qed.

(** What reading the row of an item gives. *)
Definition bound_of (item : ReviewQueueItem) (digest : string) : BoundQueue :=
  MkBound (qi_queue_item_id item) (rc_candidate_id (qi_candidate item)) (qi_issue_type item)
    (Some (statement_ref item)) (app_ref item) (rc_all_app_transactions (qi_candidate item)) digest item.

Definition evidence_of (item : ReviewQueueItem) (binding : list (string * json)) : json :=
  JDict (outer_source_evidence item ++ [("source_binding", JDict binding)]).

Lemma item_encodes item : item_fits item = true →
  ∃ j, encode_item item = Ok j ∧ sane j ∧ decode_item (sort_json j) = Ok (canon_item item).
Proof. exact (encodes (A := ReviewQueueItem) item). Qed.

(** The row of an item and its binding. *)
Definition written_row (item : ReviewQueueItem) (binding : list (string * json)) : QueueRow :=
  MkRow (qi_queue_item_id item) (rc_candidate_id (qi_candidate item)) (IssueType.value (qi_issue_type item))
    (SuggestedAction.value (qi_suggested_action item)) (qi_priority item) (Some (statement_ref item))
    (app_ref item) (dec_str (rc_confidence_score (qi_candidate item)))
    (canonical (reason_values (qi_reason_codes item))) (canonical (evidence_of item binding)).

Lemma written_matches item binding :
  row_matches (written_row item binding) (canon_item item) (reason_values (qi_reason_codes item)) = true.
Proof.
  unfold row_matches. cbn [written_row row_public_id row_candidate_id row_issue_type row_suggested_action row_priority
    row_statement_transaction_ref row_app_transaction_ref row_confidence_score].
  rewrite app_ref_canon. change (statement_ref (canon_item item)) with (statement_ref item).
  cbn [qi_queue_item_id qi_candidate canon_item canon_candidate rc_candidate_id qi_issue_type
    qi_suggested_action qi_priority rc_confidence_score qi_reason_codes].
  rewrite !String.eqb_refl, Z.eqb_refl, !bool_decide_true, codes_eqb by done. reflexivity.
Qed.

Lemma sorted_eqb v : sane v → json_eqb (sort_json v) v = true.
Proof. intros [H1 H2]. exact (proj2 (json_eqb_sort _ _ H1 H2)). Qed.

Section Row.
Context (item : ReviewQueueItem) (binding : list (string * json)).
Context (Hfit : item_fits item = true) (Hcount : countable item = true).
Context (Hbind : build_source_binding item = Ok binding).

Lemma binding_material : ∃ ds text,
  encode_item item = Ok ds ∧ source_material item = Ok (material_of item ds) ∧ validate_item_contract item = Ok tt ∧
  sane ds ∧ decode_item (sort_json ds) = Ok (canon_item item) ∧ json_dumps (JDict (material_of item ds)) = Ok text ∧
  binding = material_of item ds ++ [("sha256", JStr (text_sha256 text))].
Proof using Hfit Hbind.
  unfold build_source_binding in Hbind. apply bind_Ok in Hbind as (m&Hm&H). apply bind_Ok in H as (text&Ht&H).
  injection H as <-. pose proof Hm as Hm'. apply source_material_Ok in Hm as (Hv&ds&Hd&->).
  destruct (item_encodes item Hfit) as (j&Hj&Hs&Hr). rewrite Hd in Hj.
  injection Hj as <-. exists ds, text. split_and!; assumption || reflexivity.
Qed.

Lemma digest_shape text : is_sha256 (text_sha256 text) = true.
Proof using Type. apply sha256_is_sha256. Qed.

Lemma hex_ascii s : is_sha256 s = true → ascii_text s = true.
Proof using Type.
  unfold is_sha256, ascii_text. intros [_ H]%andb_prop. rewrite List.forallb_forall in *. intros c Hc.
  apply H in Hc. revert Hc. clear. by destruct c as [[] [] [] [] [] [] [] []].
Qed.

Lemma binding_sane : sane (JDict binding).
Proof using Hfit Hcount Hbind.
  destruct binding_material as (ds&text&_&_&_&Hs&_&_&Hb).
  destruct (material_sane item ds Hfit Hcount Hs) as [H1 H2]. rewrite Hb.
  cbn [json_ok comparable] in *. apply andb_prop in H1 as [_ H1].
  split; cbn [json_ok comparable]; rewrite ?List.forallb_app, ?H1, ?H2; [|reflexivity].
  rewrite bool_decide_true by (rewrite material_keys; apply (bool_decide_eq_true_1 (NoDup _)); by vm_compute).
  cbn [forallb json_ok andb]. rewrite andb_true_r. exact (hex_ascii _ (digest_shape text)).
Qed.

Lemma evidence_sane : sane (evidence_of item binding).
Proof using Hfit Hcount Hbind. apply outer_sane; [done|]. apply binding_sane. Qed.

(** Registration writes the row. *)
Lemma queue_row_written : queue_row item (Some binding) = Ok (written_row item binding).
Proof using Hfit Hcount Hbind.
  unfold queue_row, serialize_reason_codes, serialize_evidence, json_dumps_ascii.
  rewrite evidence_members_outer. fold (evidence_of item binding).
  rewrite (printable_ok is_ascii _ (proj1 (codes_ok _))), (printable_ok is_ascii _ (proj1 evidence_sane)).
  reflexivity.
Qed.

Lemma binding_members :
  ∃ ds text, binding = material_of item ds ++ [("sha256", JStr (text_sha256 text))] ∧
    stored_binding (sorted_members (outer_source_evidence item ++ [("source_binding", JDict binding)])) =
    Ok (sorted_members binding).
Proof using Hfit Hcount Hbind.
  destruct binding_material as (ds&text&_&_&_&Hs&_&Ht&Hb). exists ds, text. split; [done|].
  unfold stored_binding. rewrite sorted_members_get by apply outer_keys.
  assert (Hg : dict_get "source_binding" (outer_source_evidence item ++ [("source_binding", JDict binding)]) = Some (JDict binding)).
  { apply dict_get_mem; [apply outer_keys|]. apply elem_of_app. right. by left. }
  rewrite Hg. cbn [fmap option_fmap option_map sort_json mbind result_bind]. fold (sorted_members binding).
  change (JDict (sorted_members binding)) with (sort_json (JDict binding)).
  assert (Hnd : NoDup binding_keys) by (apply (bool_decide_eq_true_1 (NoDup _)); by vm_compute).
  assert (Hk : dict_keys binding = binding_keys) by by rewrite Hb.
  rewrite (snapshot_sorted _ _ Hk Hnd). cbn [mbind result_bind].
  assert (Hver : dict_get "version" binding = Some (JInt 2)) by by rewrite Hb.
  assert (Hsha : dict_get "sha256" binding = Some (JStr (text_sha256 text))) by by rewrite Hb.
  assert (Hw : without "sha256" (sorted_members binding) = sorted_members (material_of item ds)).
  { rewrite Hb. apply without_sorted. by rewrite <- Hb, Hk. }
  rewrite !sorted_members_get, Hver, Hsha, Hw by by rewrite Hk.
  cbn [fmap option_fmap option_map sort_json raise_when negb mbind result_bind Z.eqb Pos.eqb].
  rewrite digest_shape. cbn [raise_when negb mbind result_bind]. unfold binding_json.
  change (JDict (sorted_members (material_of item ds))) with (sort_json (JDict (material_of item ds))).
  rewrite json_dumps_sort, Ht. cbn [mbind result_bind]. rewrite String.eqb_refl. reflexivity.
Qed.

Lemma outer_without : without "source_binding"
  (sorted_members (outer_source_evidence item ++ [("source_binding", JDict binding)])) =
  sorted_members (outer_source_evidence item).
Proof using Type. apply without_sorted, outer_keys. Qed.

(** The row an item was written to gives the item back. *)
Lemma row_read_back row :
  queue_row item (Some binding) = Ok row →
  ∃ digest, dict_get "sha256" binding = Some (JStr digest) ∧
    load_bound_row row = Ok (bound_of (canon_item item) digest) ∧ proposed_digest row = Ok (JStr digest).
Proof using Hfit Hcount Hbind.
  rewrite queue_row_written. intros [= <-].
  destruct binding_members as (ds&text&Hb&Hst). destruct binding_material as (ds'&text'&Hds&Hm&Hv&Hs&Hdec&_&Hb').
  assert (ds' = ds ∧ text_sha256 text' = text_sha256 text) as [-> _].
  { rewrite Hb in Hb'. injection Hb' as -> ->. done. }
  clear text' Hb'. set (digest := text_sha256 text) in *. exists digest.
  assert (Hk : NoDup (dict_keys binding)) by (rewrite Hb; apply (bool_decide_eq_true_1 (NoDup _)); by vm_compute).
  assert (Hget : dict_get "sha256" binding = Some (JStr digest)) by by rewrite Hb.
  assert (Hdsg : dict_get "decision_source" binding = Some ds) by by rewrite Hb.
  destruct evidence_sane as [Hok _]. pose proof (outer_keys item (JDict binding)) as Hok'.
  assert (Hw : without "sha256" (sorted_members binding) = sorted_members (material_of item ds)).
  { rewrite Hb. apply without_sorted. by rewrite <- Hb. }
  split; [done|]. split.
  - unfold load_bound_row.
    change (row_evidence_json (written_row item binding)) with (canonical (evidence_of item binding)).
    change (row_reason_codes_json (written_row item binding)) with (canonical (reason_values (qi_reason_codes item))).
    rewrite (strict_canonical _ Hok). unfold evidence_of. cbn [sort_json mbind result_bind].
    fold (sorted_members (outer_source_evidence item ++ [("source_binding", JDict binding)])).
    rewrite Hst. cbn [mbind result_bind]. unfold dict_index, decode_field.
    rewrite !sorted_members_get, Hdsg by done. cbn [fmap option_fmap option_map mbind result_bind].
    unfold restore_decision_source. rewrite Hdec. cbn [mbind result_bind]. rewrite contract_canon, Hv.
    cbn [mbind result_bind]. rewrite material_canon, Hm. cbn [mbind result_bind].
    rewrite Hw, outer_without, outer_canon.
    pose proof (sorted_eqb _ (material_sane item ds Hfit Hcount Hs)) as He1. cbn [sort_json] in He1.
    pose proof (sorted_eqb _ (outer_sane_alone item Hfit)) as He2. cbn [sort_json] in He2.
    fold (sorted_members (material_of item ds)) in He1. fold (sorted_members (outer_source_evidence item)) in He2.
    rewrite He1. cbn [raise_when negb mbind result_bind].
    rewrite strict_canonical by apply codes_ok. rewrite (proj2 (codes_ok _)). cbn [mbind result_bind].
    rewrite written_matches, He2. cbn [raise_when negb mbind result_bind].
    unfold dict_index. rewrite sorted_members_get, Hget by done. reflexivity.
  - unfold proposed_digest.
    change (row_evidence_json (written_row item binding)) with (canonical (evidence_of item binding)). rewrite json_loads_dumps by exact Hok.
    unfold evidence_of. cbn [sort_json mbind result_bind].
    fold (sorted_members (outer_source_evidence item ++ [("source_binding", JDict binding)])).
    unfold dict_index. rewrite sorted_members_get by done.
    assert (Hg : dict_get "source_binding" (outer_source_evidence item ++ [("source_binding", JDict binding)]) = Some (JDict binding)).
    { apply dict_get_mem; [done|]. apply elem_of_app. right. by left. }
    rewrite Hg. cbn [fmap option_fmap option_map mbind result_bind sort_json]. fold (sorted_members binding).
    rewrite sorted_members_get, Hget by done. reflexivity.
Qed.
End Row.

(** ** The table *)

Lemma get_app (t k : queue_table) id :
  get_by_public_id (t ++ k) id =
  match get_by_public_id t id with Some s => Some s | None => get_by_public_id k id end.
Proof. unfold get_by_public_id. induction t as [|s t IH]; [done|]. cbn. by destruct (String.eqb _ _). Qed.

(** The table has the row, under its run. *)
Definition has_row (run : string) (t : queue_table) (row : QueueRow) : Prop :=
  ∃ s, get_by_public_id t (row_public_id row) = Some s ∧ si_run_public_id s = run ∧ si_row s = row.

Lemma register_step run st row st' :
  register_row true run st row = Ok st' →
  has_row run st'.1 row ∧ (∃ k, st'.1 = st.1 ++ k) ∧ st'.2 - st.2 = len st'.1 - len st.1.
Proof.
  unfold register_row. destruct (get_by_public_id st.1 (row_public_id row)) as [s|] eqn:Eg; cbn [negb].
  - intros (b&_&H)%bind_Ok. apply bind_Ok in H as (p&_&H). apply bind_Ok in H as ([]&Hc&[= <-]).
    apply raise_when_Ok, orb_false_iff in Hc as [_ Hc%negb_false_iff].
    apply andb_prop in Hc as [Hr%String.eqb_eq He%bool_decide_eq_true].
    split_and!; [by exists s|exists []; by rewrite app_nil_r|lia].
  - intros [= <-]. cbn [fst snd]. split_and!; [|by eexists|unfold len; rewrite length_app; cbn; lia].
    exists (MkStored run row "pending"). rewrite get_app, Eg. unfold get_by_public_id. cbn.
    by rewrite String.eqb_refl.
Qed.

Lemma has_row_app run t k row : has_row run t row → has_row run (t ++ k) row.
Proof. intros (s&Hs&?&?). exists s. by rewrite get_app, Hs. Qed.

Lemma register_all run rows : ∀ st st',
  foldM (register_row true run) st rows = Ok st' →
  Forall (has_row run st'.1) rows ∧ (∃ k, st'.1 = st.1 ++ k) ∧ st'.2 - st.2 = len st'.1 - len st.1.
Proof.
  induction rows as [|row rows IH]; intros st st'; cbn [foldM].
  - intros [= <-]. split_and!; [constructor|exists []; by rewrite app_nil_r|lia].
  - intros (s1&H1&H2)%bind_Ok. apply register_step in H1 as (Hr&(k1&Hk1)&Hn1).
    apply IH in H2 as (Hrs&(k2&Hk2)&Hn2). split_and!; [|exists (k1 ++ k2); by rewrite Hk2, Hk1, app_assoc|lia].
    constructor; [|done]. rewrite Hk2. by apply has_row_app.
Qed.

(** Registering rows the table has changes nothing. *)
Lemma register_again run t n rows :
  Forall (λ row, has_row run t row ∧
    ∃ b d, load_bound_row row = Ok b ∧ bq_sha256 b = d ∧ proposed_digest row = Ok (JStr d)) rows →
  foldM (register_row true run) (t, n) rows = Ok (t, n).
Proof.
  induction 1 as [|row rows ((s&Hg&Hrun&Hrow)&b&d&Hb&Hd&Hp) _ IH]; [done|]. cbn [foldM].
  assert (Hstep : register_row true run (t, n) row = Ok (t, n)).
  { unfold register_row. cbn [fst]. rewrite Hg. cbn [negb]. rewrite Hrow, Hb, Hp. cbn [mbind result_bind].
    rewrite Hd, Hrun, String.eqb_refl, bool_decide_true by done. cbn [json_eqb]. by rewrite String.eqb_refl. }
  rewrite Hstep. exact IH.
Qed.

Definition storable (item : ReviewQueueItem) : bool := item_fits item && countable item.

(** The rows of a registration. *)
Lemma persisted_rows items bindings rows :
  Forall (λ i, storable i = true) items →
  mapM (λ item, Some <$> build_source_binding item) items = Ok bindings →
  mapM (λ ib : ReviewQueueItem * option (list (string * json)), queue_row ib.1 ib.2) (zip items bindings) = Ok rows →
  Forall2 (λ item row, ∃ binding digest, build_source_binding item = Ok binding ∧
    dict_get "sha256" binding = Some (JStr digest) ∧ row_public_id row = qi_queue_item_id item ∧
    load_bound_row row = Ok (bound_of (canon_item item) digest) ∧ proposed_digest row = Ok (JStr digest)) items rows.
Proof.
  intros Hs Hb%mapM_Ok Hr%mapM_Ok. revert rows Hr. induction Hb as [|item b items bs Hb _ IH]; intros rows Hr.
  - cbn in Hr. inversion Hr. constructor.
  - cbn in Hr. inversion Hr as [|? row ? rows' Hrow Hrows]; subst. apply Forall_cons in Hs as [Hi Hs].
    constructor; [|by apply IH]. cbn in Hrow. destruct (build_source_binding item) as [binding|] eqn:Eb; [|done].
    cbn in Hb. injection Hb as <-. apply andb_prop in Hi as [Hf Hc].
    destruct (row_read_back item binding Hf Hc Eb row Hrow) as (d&Hd&Hl&Hp). exists binding, d.
    rewrite (queue_row_written item binding Hf Hc Eb) in Hrow. injection Hrow as <-. by split_and!.
Qed.

Lemma matches_bound item binding digest :
  build_source_binding item = Ok binding → dict_get "sha256" binding = Some (JStr digest) →
  assert_candidate_matches_bound (bound_of (canon_item item) digest) item = Ok tt.
Proof.
  intros Hb Hd. unfold assert_candidate_matches_bound. rewrite Hb. cbn [mbind result_bind].
  unfold decode_field, dict_index. rewrite Hd. cbn [mbind result_bind decode_value str_snapshot bound_of bq_sha256].
  by rewrite String.eqb_refl.
Qed.

(** Every registered item is found, as it was registered. *)
Lemma registered_loads table items run table' n item :
  Forall (λ i, storable i = true) items → persist_review_queue true table items run = Ok (table', n) → item ∈ items →
  ∃ digest, load_bound_queue true table' (qi_queue_item_id item) = Ok (Some (bound_of (canon_item item) digest)) ∧
    assert_candidate_matches_bound (bound_of (canon_item item) digest) item = Ok tt.
Proof.
  intros Hs Hp Hin. unfold persist_review_queue in Hp. apply bind_Ok in Hp as ([]&_&Hp).
  apply bind_Ok in Hp as (bindings&Hb&Hp). apply bind_Ok in Hp as (rows&Hr&Hp).
  pose proof (persisted_rows items bindings rows Hs Hb Hr) as Hrows. apply register_all in Hp as (Hhas&_&_). cbn [fst] in *.
  apply list_elem_of_lookup in Hin as (k&Hk).
  destruct (Forall2_lookup_l _ _ _ _ _ Hrows Hk) as (row&Hrow&binding&d&Hbind&Hd&Hid&Hl&_).
  exists d. split; [|by eapply matches_bound].
  destruct (Forall_lookup_1 _ _ _ _ Hhas Hrow) as (s&Hg&_&Hsr). unfold load_bound_queue. cbn [negb].
  by rewrite <- Hid, Hg, Hsr, Hl.
Qed.

(** C15: Registered items are read back.  After a registration with bindings
    succeeds, the table has grown by the reported number of rows at its end,
    every item is found under its identifier exactly as it was registered (up
    to the spelling of transaction types), the row passes every check of the
    reader and the item itself is accepted as the bound source; registering
    the same items again succeeds and changes nothing. *)
Theorem registered_queue_read_back table items run table' n :
  Forall (λ i, storable i = true) items →
  persist_review_queue true table items run = Ok (table', n) →
  (∃ new, table' = table ++ new ∧ len new = n) ∧
  (∀ item, item ∈ items → ∃ digest,
     load_bound_queue true table' (qi_queue_item_id item) = Ok (Some (bound_of (canon_item item) digest)) ∧
     assert_candidate_matches_bound (bound_of (canon_item item) digest) item = Ok tt) ∧
  persist_review_queue true table' items run = Ok (table', 0).
Proof.
  intros Hs Hp. pose proof (λ item, registered_loads table items run table' n item Hs Hp) as Hread.
  unfold persist_review_queue in Hp |- *. apply bind_Ok in Hp as ([]&Hdup&Hp).
  apply bind_Ok in Hp as (bindings&Hb&Hp). apply bind_Ok in Hp as (rows&Hr&Hp).
  pose proof (persisted_rows items bindings rows Hs Hb Hr) as Hrows.
  apply register_all in Hp as (Hhas&(new&Hnew)&Hn). cbn [fst snd] in *. split_and!; [|exact Hread|].
  - exists new. split; [done|]. rewrite Hnew in Hn. unfold len in *. rewrite length_app in Hn. lia.
  - rewrite Hdup. cbn [mbind result_bind]. rewrite Hb. cbn [mbind result_bind]. rewrite Hr. cbn [mbind result_bind].
    apply register_again. apply Forall_forall. intros row Hin. rewrite Forall_forall in Hhas. split; [by apply Hhas|].
    apply list_elem_of_lookup in Hin as (k&Hk).
    destruct (Forall2_lookup_r _ _ _ _ _ Hrows Hk) as (item&_&binding&d&_&_&_&Hl&Hpd). by do 2 eexists.
Qed.

(** ** Every accepted row is well formed *)

Record item_well_formed (item : ReviewQueueItem) : Prop := {
  wf_issue : qi_issue_type item = rc_issue_type (qi_candidate item);
  wf_reasons : qi_reason_codes item = rc_reason_codes (qi_candidate item);
  wf_action : qi_suggested_action item = suggested_action_for_issue (qi_issue_type item);
  wf_priority : qi_priority item = priority_for_issue (qi_issue_type item);
  wf_review_priority : rc_review_priority (qi_candidate item) = review_priority_for_issue (qi_issue_type item);
  wf_review_required : rc_is_review_required (qi_candidate item) = negb (bool_decide (qi_issue_type item = IssueType.MATCHED));
  wf_confidence : (0 <= dval (rc_confidence_score (qi_candidate item)) <= 1)%Q;
  wf_classified : classification_ok item = true;
  wf_evidence : evidence_conflicts (qi_candidate item) = false;
  wf_identity : py_strip (qi_queue_item_id item) ≠ "" ∧ py_strip (rc_candidate_id (qi_candidate item)) ≠ "" ∧
    py_strip (statement_ref item) ≠ "";
  wf_candidate_set : NoDup (app_txn_id <$> rc_all_app_transactions (qi_candidate item));
  wf_best : match rc_best_app_transaction (qi_candidate item) with
            | Some best => app_txn_id best ∈ app_txn_id <$> rc_all_app_transactions (qi_candidate item)
            | None => rc_all_app_transactions (qi_candidate item) = []
            end;
}.

(** The columns of a row repeat the item. *)
Definition row_repeats (row : QueueRow) (item : ReviewQueueItem) : Prop :=
  row_public_id row = qi_queue_item_id item ∧ row_candidate_id row = rc_candidate_id (qi_candidate item) ∧
  row_issue_type row = IssueType.value (qi_issue_type item) ∧
  row_suggested_action row = SuggestedAction.value (qi_suggested_action item) ∧
  row_priority row = qi_priority item ∧ row_statement_transaction_ref row = Some (statement_ref item) ∧
  row_app_transaction_ref row = app_ref item ∧
  row_confidence_score row = dec_str (rc_confidence_score (qi_candidate item)).

Lemma restored_id a r : restore_app (app_snapshot_json a) = Ok r → app_txn_id r = app_txn_id a.
Proof.
  unfold restore_app. intros (d&Hd&H)%bind_Ok.
  assert (dict_get "app_txn_id" d = Some (JStr (app_txn_id a))) as Hid.
  { unfold app_snapshot_json, snapshot_members in Hd. apply bind_Ok in Hd as ([]&_&[= <-]). reflexivity. }
  apply bind_Ok in H as (id&Hi&H). unfold required_text in Hi. rewrite Hid in Hi.
  destruct (str_empty _); [done|]. injection Hi as <-.
  repeat (apply bind_Ok in H as (?&_&H)). unfold AppTransaction_new in H.
  repeat (apply bind_Ok in H as (?&_&H)). by injection H as <-.
Qed.

Lemma snapshot_ids a b : json_eqb (app_snapshot_json a) (app_snapshot_json b) = true → app_txn_id a = app_txn_id b.
Proof.
  unfold app_snapshot_json. intros [_ H]%json_eqb_dict. apply Forall_cons in H as [(w&Hw&H) _].
  cbn in Hw. injection Hw as <-. by apply String.eqb_eq in H.
Qed.

Lemma candidate_set_Ok item : check_candidate_set item = Ok tt →
  NoDup (app_txn_id <$> rc_all_app_transactions (qi_candidate item)) ∧
  match rc_best_app_transaction (qi_candidate item) with
  | Some best => app_txn_id best ∈ app_txn_id <$> rc_all_app_transactions (qi_candidate item)
  | None => rc_all_app_transactions (qi_candidate item) = []
  end.
Proof.
  unfold check_candidate_set. intros ([]&Hn&H)%bind_Ok. apply raise_when_Ok in Hn.
  apply bind_Ok in H as (restored&Hr&H). apply bind_Ok in H as ([]&Hd&H). apply raise_when_Ok, has_duplicates_false in Hd.
  assert (Hids : app_txn_id <$> restored = app_txn_id <$> rc_all_app_transactions (qi_candidate item)).
  { apply mapM_Ok in Hr. clear - Hr. induction Hr as [|a r l k Ha _ IH]; [done|].
    rewrite !fmap_cons, IH. by rewrite (restored_id _ _ Ha). }
  rewrite Hids in Hd. split; [done|]. destruct (rc_best_app_transaction _) as [best|].
  - apply raise_when_Ok in H. apply negb_false_iff, List.existsb_exists in H as (r&Hin&He). rewrite <- Hids.
    apply list_elem_of_fmap. exists r. split; [symmetry; by apply snapshot_ids|by apply list_elem_of_In].
  - rewrite andb_true_r in Hn. by apply negb_false_iff, bool_decide_eq_true in Hn.
Qed.

Lemma blank_text s : str_empty s = false → s ≠ "".
Proof. by intros H ->. Qed.

Lemma contract_well_formed item m : source_material item = Ok m → item_well_formed item.
Proof.
  unfold source_material. intros ([]&Hv&H)%bind_Ok. apply bind_Ok in H as ([]&Hid&H).
  apply bind_Ok in H as ([]&Href&H). apply bind_Ok in H as ([]&Hset&_). unfold validate_item_contract in Hv.
  repeat (let Hc := fresh "Hc" in apply bind_Ok in Hv as ([]&Hc&Hv); apply raise_when_Ok in Hc).
  apply raise_when_Ok, orb_false_iff in Hid as [Hid1%blank_text Hid2%blank_text].
  apply raise_when_Ok in Href. apply blank_text in Href. apply candidate_set_Ok in Hset as [Hnd Hbest].
  repeat match goal with H : negb _ = false |- _ => apply negb_false_iff in H end.
  repeat match goal with H : bool_decide _ = true |- _ => apply bool_decide_eq_true in H end.
  match goal with H : _ && _ = true |- _ => apply andb_prop in H as [Hlo%dec_leb_le Hhi%dec_leb_le] end.
  constructor; try done; [by apply Z.eqb_eq|by apply eqb_prop].
Qed.

Lemma loaded_row_facts row bound :
  load_bound_row row = Ok bound →
  item_well_formed (bq_item bound) ∧ row_repeats row (bq_item bound) ∧ is_sha256 (bq_sha256 bound) = true ∧
  bound = bound_of (bq_item bound) (bq_sha256 bound) ∧ ∃ m, source_material (bq_item bound) = Ok m.
Proof.
  unfold load_bound_row. intros (parsed&_&H)%bind_Ok. apply bind_Ok in H as (evidence&_&H).
  apply bind_Ok in H as (raw&Hraw&H). apply bind_Ok in H as (ds&_&H). apply bind_Ok in H as (item&_&H).
  apply bind_Ok in H as (m&Hm&H). apply bind_Ok in H as ([]&_&H). apply bind_Ok in H as (codes&_&H).
  apply bind_Ok in H as ([]&Hrow&H). apply bind_Ok in H as ([]&_&H). apply bind_Ok in H as (digest&Hd&[= <-]).
  cbn [bq_item bq_sha256]. split_and!; [by eapply contract_well_formed| | |done|by eexists].
  - apply raise_when_Ok, negb_false_iff in Hrow. unfold row_matches in Hrow. rewrite !andb_true_iff in Hrow.
    rewrite !String.eqb_eq, Z.eqb_eq, !bool_decide_eq_true in Hrow. unfold row_repeats. by destruct_and? Hrow; split_and!.
  - unfold stored_binding in Hraw. apply bind_Ok in Hraw as (d0&_&Hraw). apply bind_Ok in Hraw as (d1&_&Hraw).
    apply bind_Ok in Hraw as ([]&_&Hraw). apply bind_Ok in Hraw as (dg&Hdg&Hraw). apply bind_Ok in Hraw as ([]&Hsha&Hraw).
    apply raise_when_Ok, negb_false_iff in Hsha. apply bind_Ok in Hraw as (?&_&Hraw). apply bind_Ok in Hraw as ([]&_&[= <-]).
    unfold decode_field, dict_index in Hd. destruct (dict_get "sha256" d1) as [[| | | |s| |]|]; cbn in *; try done.
    by injection Hd as <-; injection Hdg as <-.
Qed.

(** The source a row freezes is that of an item: the evidence of the row is an
    object with a binding in it, the item is what the binding's decision source
    restores to, the binding without its digest equals the material the item
    encodes to, the digest is that of the binding's own text, and the rest of
    the evidence is the item's. *)
Record freezes (row : QueueRow) (item : ReviewQueueItem) (digest : string)
    (evidence binding material : list (string * json)) : Prop := {
  fz_parsed : strict_json (row_evidence_json row) = Ok (JDict evidence);
  fz_bound : dict_get "source_binding" evidence = Some (JDict binding);
  fz_version : dict_get "version" binding = Some (JInt 2);
  fz_decision : ∃ source, dict_get "decision_source" binding = Some source ∧ decode_item source = Ok item;
  fz_encoded : source_material item = Ok material;
  fz_same : json_eqb (JDict (without "sha256" binding)) (JDict material) = true;
  fz_stated : dict_get "sha256" binding = Some (JStr digest);
  fz_digest : ∃ text, binding_json (JDict (without "sha256" binding)) = Ok text ∧ digest = text_sha256 text;
  fz_outer : json_eqb (JDict (without "source_binding" evidence)) (JDict (outer_source_evidence item)) = true;
}.

Lemma stored_binding_facts evidence raw : stored_binding evidence = Ok raw →
  dict_get "source_binding" evidence = Some (JDict raw) ∧ dict_get "version" raw = Some (JInt 2) ∧
  ∃ digest text, dict_get "sha256" raw = Some (JStr digest) ∧ is_sha256 digest = true ∧
    binding_json (JDict (without "sha256" raw)) = Ok text ∧ digest = text_sha256 text.
Proof.
  unfold stored_binding, snapshot_members. intros H. destruct (dict_get "source_binding" evidence) as [[| | | | | |d]|]; try done.
  apply bind_Ok in H as (raw0&[= <-]&H). apply bind_Ok in H as (raw1&H1&H). apply bind_Ok in H1 as ([]&_&[= <-]).
  apply bind_Ok in H as ([]&Hv&H). apply raise_when_Ok, negb_false_iff in Hv.
  apply bind_Ok in H as (digest&Hd&H). apply bind_Ok in H as ([]&Hsha&H). apply raise_when_Ok, negb_false_iff in Hsha.
  apply bind_Ok in H as (text&Ht&H). apply bind_Ok in H as ([]&He&[= <-]). apply raise_when_Ok, negb_false_iff, String.eqb_eq in He.
  split; [done|]. split.
  - destruct (dict_get "version" d) as [[| |n| | | |]|]; try done. by apply Z.eqb_eq in Hv as ->.
  - exists digest, text. destruct (dict_get "sha256" d) as [[| | | |s| |]|]; try done. by injection Hd as ->.
Qed.

Lemma loaded_row_frozen row bound : load_bound_row row = Ok bound →
  ∃ evidence binding material, freezes row (bq_item bound) (bq_sha256 bound) evidence binding material.
Proof.
  unfold load_bound_row. intros (parsed&Hp&H)%bind_Ok. apply bind_Ok in H as (evidence&He&H).
  destruct parsed as [| | | | | |d]; try done. injection He as <-.
  apply bind_Ok in H as (raw&Hraw&H). apply bind_Ok in H as (ds&Hds&H). apply bind_Ok in H as (item&Hitem&H).
  apply bind_Ok in H as (m&Hm&H). apply bind_Ok in H as ([]&Hsame&H). apply bind_Ok in H as (codes&_&H).
  apply bind_Ok in H as ([]&_&H). apply bind_Ok in H as ([]&Hout&H). apply bind_Ok in H as (digest&Hd&[= <-]).
  cbn [bq_item bq_sha256]. apply raise_when_Ok, negb_false_iff in Hsame, Hout.
  destruct (stored_binding_facts _ _ Hraw) as (Hb&Hv&dg&text&Hdg&_&Ht&Hsha).
  unfold restore_decision_source in Hitem. apply bind_Ok in Hitem as (item'&Hdec&Hitem). apply bind_Ok in Hitem as ([]&_&[= ->]).
  unfold dict_index in Hds. destruct (dict_get "decision_source" raw) as [src|] eqn:Es; [|done]. injection Hds as ->.
  unfold decode_field, dict_index in Hd. rewrite Hdg in Hd. injection Hd as <-.
  exists d, raw, m. constructor; try done; [by exists ds|by exists text].
Qed.

(** C14: Whatever row of the table the reader accepts, the item it returns is
    well formed: its classification, action, priorities and review flag are
    those of its issue type, its confidence lies between zero and one, its
    evidence agrees with the transactions, its candidate set has no repeated
    transaction and contains the chosen one, and the columns of the row repeat
    it.  And it is the item that was frozen: the binding in the row's evidence
    restores to it and equals, its digest apart, the material the item encodes
    to; the digest is that of the text of this binding; and the rest of the
    evidence is what the item's evidence would be.  (Equality of JSON values is
    Python's.) *)
Theorem loaded_row_well_formed row bound :
  load_bound_row row = Ok bound →
  item_well_formed (bq_item bound) ∧ row_repeats row (bq_item bound) ∧ is_sha256 (bq_sha256 bound) = true ∧
  bound = bound_of (bq_item bound) (bq_sha256 bound) ∧
  ∃ evidence binding material, freezes row (bq_item bound) (bq_sha256 bound) evidence binding material.
Proof. intros H. destruct (loaded_row_facts _ _ H) as (?&?&?&?&_). pose proof (loaded_row_frozen _ _ H). by split_and!. Qed.

(** ** Examples *)

(** The queue of the example batch. *)
Definition example_queue : list ReviewQueueItem :=
  match match_batch example_rows example_apps 3 3 float_half with
  | Ok out => match generate_review_queue out "r" with Ok g => g.1 | Raise _ => [] end
  | Raise _ => []
  end.

Lemma example_storable : Forall (λ i, storable i = true) example_queue.
Proof. apply (bool_decide_eq_true_1 (Forall _ _)). vm_compute. reflexivity. Qed.

Definition registers (r : result (queue_table * Z)) : bool := match r with Ok (t, 4) => true | _ => false end.

Lemma registered_queue_read_back_witness :
  ∃ table', persist_review_queue true [] example_queue "run-1" = Ok (table', 4) ∧ len table' = 4 ∧
    persist_review_queue true table' example_queue "run-1" = Ok (table', 0).
Proof.
  assert (Hr : registers (persist_review_queue true [] example_queue "run-1") = true) by (vm_compute; reflexivity).
  destruct (persist_review_queue true [] example_queue "run-1") as [[t n]|e] eqn:E; [|discriminate Hr].
  assert (n = 4) as -> by (cbn [registers] in Hr; destruct n as [|[[[]|[]|]|[[]|[]|]|]|]; first [discriminate Hr|reflexivity]).
  destruct (registered_queue_read_back [] example_queue "run-1" t 4 example_storable E) as ((new&->&Hn)&_&Hagain).
  exists new. split; [reflexivity|]. split; [exact Hn|exact Hagain].
Defined.

Definition example_row : option QueueRow :=
  match persist_review_queue true [] example_queue "run-1" with Ok (s :: _, _) => Some (si_row s) | _ => None end.

Lemma loaded_row_well_formed_witness :
  ∃ row bound evidence binding material, example_row = Some row ∧ load_bound_row row = Ok bound ∧
    item_well_formed (bq_item bound) ∧ freezes row (bq_item bound) (bq_sha256 bound) evidence binding material.
Proof.
  assert (Hr : match example_row with Some row => is_ok (load_bound_row row) | None => false end = true)
    by (vm_compute; reflexivity).
  destruct example_row as [row|]; [|discriminate Hr]. destruct (load_bound_row row) as [bound|e] eqn:E; [|discriminate Hr].
  destruct (loaded_row_well_formed row bound E) as (Hwf&_&_&_&evidence&binding&material&Hf).
  exists row, bound, evidence, binding, material. split; [reflexivity|]. split; [exact E|]. split; [exact Hwf|exact Hf].
Defined.

(** A batch whose queue cannot be registered: the row needs review because no
    transaction is known to be a purchase, its evidence is that of the second
    transaction, whose type is unknown, and the transaction the batch puts
    forward is the first one of the right currency. *)
Definition mixed_apps : list AppTransaction :=
  [MkApp "a1" (Date 2026 1 10) "ALPHA" (DFin (dec_of_Z 12)) "SGD" None None None None (Some (HintText "income"));
   MkApp "a2" (Date 2026 1 10) "BETA" (DFin (dec_of_Z 15)) "SGD" None None None None None].
Definition mixed_row : StatementTransaction :=
  MkStatement (Some (Date 2026 1 10)) None "BETA" None (Some (dec_of_Z 15)) (Some "SGD") None None None
    (Some "row-1") (Some "st-1") (Some "fp-1") None (Some StatementAmountDirection.DEBIT) None None.

Lemma generated_queue_refused :
  ∃ out items s, match_batch [mixed_row] mixed_apps 3 3 float_half = Ok out ∧
    generate_review_queue out "r" = Ok (items, s) ∧
    persist_review_queue true [] items "run-1" = raise ValueError "match evidence".
Proof.
  destruct (match_batch [mixed_row] mixed_apps 3 3 float_half) as [out|e] eqn:E; [|vm_compute in E; discriminate E].
  exists out. destruct (generate_review_queue out "r") as [[items s]|e] eqn:G.
  - exists items, s. split; [reflexivity|]. split; [reflexivity|].
    vm_compute in E. injection E as <-. vm_compute in G. injection G as <- <-. vm_compute. reflexivity.
  - vm_compute in E. injection E as <-. vm_compute in G. discriminate G.
Qed.
