(* ===== verification/IntegrityProps.v ===== *)
(** * Outcomes conform to the frozen queue

    The two runtimes, in the file Resolution and in the file ApplyRuntime, only
    report successes the integrity checks accept. *)

From Stdlib Require Import Ascii ZArith SpecFloat Lia.
From stdpp Require Import base sets strings sorting numbers list relations.
From S2P Require Import Prelude PyDecimal PyValue Hash Json JsonParse JsonRoundtrip PyDate PyDateTime PyFloat ReconModels ReconDecision ReconMatcher ReconBatch ReviewModels ReviewQueue ApplyRuntime Resolution BoundCodec Snapshot SourceBinding Integrity ApplyProps CodecProps BindingProps.

Open Scope Z_scope.

(** ** Equality of a value with itself *)

(** Distinct keys, and no floats. *)
Fixpoint tidy (v : json) : bool :=
  match v with
  | JNum _ => false
  | JList l => forallb tidy l
  | JDict d => bool_decide (NoDup (dict_keys d)) && forallb (λ kv, tidy kv.2) d
  | _ => true
  end.

Lemma json_eqb_refl v : tidy v = true → json_eqb v v = true.
Proof.
  induction v as [|b|n|t|s|l IH|d IH] using json_nested_ind; cbn [tidy]; try done.
  - by destruct b.
  - intros _. cbn. apply Z.eqb_refl.
  - intros _. cbn. apply String.eqb_refl.
  - intros H. apply json_eqb_list, Forall_Forall2_diag, Forall_forall. rewrite Forall_forall in IH. intros x Hx.
    rewrite List.forallb_forall in H. apply IH; [done|]. by apply H, list_elem_of_In.
  - intros [Hnd H]%andb_prop. apply bool_decide_eq_true in Hnd. apply json_eqb_dict. split; [done|].
    rewrite Forall_forall in IH. rewrite List.forallb_forall in H. apply Forall_forall. intros [k v] Hkv. exists v.
    split; [by apply dict_get_mem|]. apply (IH (k, v) Hkv). by apply list_elem_of_In, H in Hkv.
Qed.

Lemma tidy_strs {A} (f : A → string) l : tidy (JList ((λ a, JStr (f a)) <$> l)) = true.
Proof. cbn. induction l; cbn; done. Qed.

Lemma tidy_dict d : NoDup (dict_keys d) → Forall (λ kv, tidy kv.2 = true) d → tidy (JDict d) = true.
Proof.
  intros Hd Hv. cbn [tidy]. rewrite bool_decide_true by done. apply List.forallb_forall. intros kv Hin.
  rewrite Forall_forall in Hv. by apply Hv, list_elem_of_In.
Qed.

Lemma tidy_text o : tidy (text_or_null o) = true.
Proof. by destruct o. Qed.

Lemma differs_self d k v : dict_get k d = Some v → tidy v = true → differs d k v = false.
Proof. intros Hd Hv. unfold differs, get. rewrite Hd. cbn. by rewrite json_eqb_refl. Qed.

(** ** The clock and identifiers *)

Lemma aware_label t l l' : require_aware_time t l = Ok tt → require_aware_time t l' = Ok tt.
Proof.
  unfold require_aware_time, require_nonempty. destruct (str_empty _); [done|]. cbn.
  destruct (fromisoformat t) as [x|]; [|done]. by destruct (aware x).
Qed.

Lemma nonempty_label t l l' : require_nonempty t l = Ok tt → require_nonempty t l' = Ok tt.
Proof. unfold require_nonempty. by destruct (str_empty _). Qed.

(** [resolved_at or now] is a time with a zone. *)
Lemma stamp_aware o now l :
  require_resolved_at o = Ok tt → require_aware_time now l = Ok tt → require_aware_time (or_else o now) l = Ok tt.
Proof.
  destruct o as [t|]; [|done]. cbn [require_resolved_at or_else]. intros Ht Hn. destruct (str_empty t); [done|].
  by eapply aware_label.
Qed.

Lemma stamp_resolved o now : require_resolved_at o = Ok tt → match o with Some t => or_else o now = t | None => True end.
Proof.
  destruct o as [t|]; [|done]. cbn. unfold require_aware_time, require_nonempty. unfold str_empty at 2.
  destruct (String.eqb_spec t "") as [->|]; [done|]. done.
Qed.

Lemma classifies_compatible action issue : classifies action issue = true →
  is_classification action = true ∧ (validate_resolution_decision action issue).1 = true.
Proof. apply andb_prop. Qed.

Lemma apply_id_nonblank s : str_empty (py_strip ("apply-" +:+ s)) = false.
Proof. by apply (nonblank_head "a"). Qed.

Lemma result_id_nonblank s : str_empty (py_strip ("res-" +:+ s)) = false.
Proof. by apply (nonblank_head "r"). Qed.

(** ** The audit evidence of both runtimes *)

Lemma projection_canon item digest :
  bound_source_audit_projection (bound_of (canon_item item) digest) = bound_source_audit_projection (bound_of item digest).
Proof.
  unfold bound_source_audit_projection. cbn [bq_item bound_of qi_candidate canon_item canon_candidate rc_statement
    rc_best_app_transaction rc_candidate_id qi_queue_item_id qi_issue_type rc_confidence_score qi_reason_codes
    qi_evidence_summary]. by destruct (rc_best_app_transaction _).
Qed.

Definition apply_evidence (item : ReviewQueueItem) (i : ApplyInstruction) (now : string) : list (string * json) :=
  match build_audit_evidence_instruction i now with JDict d => d | _ => [] end.

Ltac literal_members :=
  apply json_eqb_dict; split; [reflexivity|];
  repeat first [apply List.Forall_nil
               |apply List.Forall_cons; [eexists; split; [reflexivity|apply json_eqb_refl; try reflexivity]|]].

Lemma resolution_sources item decision now digest :
  assert_source_audit (resolution_evidence item decision now) (bound_of item digest) = Ok tt.
Proof.
  unfold assert_source_audit, refuse. apply raise_when_Ok, negb_false_iff.
  unfold resolution_evidence, bound_source_audit_projection, source_fields.
  cbn [bq_item bound_of]. destruct (st_transaction_date _), (st_posted_date _), (rc_best_app_transaction _);
    cbn -[reason_values opt_json json_eqb];
    literal_members; first [apply tidy_strs|apply tidy_text|by destruct (st_amount _)].
Qed.

Lemma apply_sources i item now digest :
  ai_item i = Some item → rc_reason_codes (qi_candidate item) = qi_reason_codes item →
  assert_source_audit (apply_evidence item i now) (bound_of item digest) = Ok tt.
Proof.
  intros Hi Hr. unfold assert_source_audit, refuse. apply raise_when_Ok, negb_false_iff.
  unfold apply_evidence, build_audit_evidence_instruction. rewrite Hi, Hr.
  unfold bound_source_audit_projection, source_fields. cbn [bq_item bound_of].
  destruct (st_transaction_date _), (st_posted_date _), (rc_best_app_transaction _);
    cbn -[reason_values opt_json json_eqb];
    literal_members; first [apply tidy_strs|apply tidy_text|by destruct (st_amount _)].
Qed.

Lemma resolution_keys item decision now digest :
  same_keys (dict_keys (resolution_evidence item decision now))
    (dict_keys (bound_source_audit_projection (bound_of item digest)) ++ RESOLUTION_ENVELOPE_KEYS ++ []) = true.
Proof.
  unfold resolution_evidence, bound_source_audit_projection. cbn [bq_item bound_of].
  by destruct (st_transaction_date _), (st_posted_date _), (rc_best_app_transaction _); vm_compute.
Qed.

Lemma apply_keys i item now digest :
  ai_item i = Some item →
  same_keys (dict_keys (apply_evidence item i now))
    (dict_keys (bound_source_audit_projection (bound_of item digest)) ++ APPLY_ENVELOPE_KEYS) = true.
Proof.
  intros Hi. unfold apply_evidence, build_audit_evidence_instruction, bound_source_audit_projection. rewrite Hi.
  cbn [bq_item bound_of].
  by destruct (st_transaction_date _), (st_posted_date _), (rc_best_app_transaction _); vm_compute.
Qed.

Lemma source_audit_canon evidence item digest :
  assert_source_audit evidence (bound_of (canon_item item) digest) = assert_source_audit evidence (bound_of item digest).
Proof. unfold assert_source_audit. by rewrite projection_canon. Qed.

(** ** The payloads *)

Ltac tidy_members :=
  repeat first [apply List.Forall_nil
               |apply List.Forall_cons; [cbn [snd]; first [reflexivity|apply tidy_text|apply tidy_strs]|]].

Lemma payload_canon action i item digest :
  ai_item i = Some item → ai_action i = action → is_classification action = true →
  assert_apply_payload (build_payload_instruction i) action (bound_of (canon_item item) digest) = Ok tt.
Proof.
  intros Hi Ha Hc. unfold is_classification in Hc. apply bool_decide_eq_true in Hc.
  unfold assert_apply_payload, build_payload_instruction. rewrite Hi, Ha. cbn [bq_item bound_of].
  assert (Hcm : ∀ c, payload_confirm_match (canon_candidate c) = payload_confirm_match c).
  { intros c. unfold payload_confirm_match. cbn. by destruct (rc_best_app_transaction c). }
  assert (Hmd : ∀ c, payload_mark_duplicate (canon_candidate c) = payload_mark_duplicate c).
  { intros c. unfold payload_mark_duplicate. cbn [canon_candidate rc_statement rc_all_app_transactions
      rc_best_app_transaction rc_confidence_score]. rewrite <- list_fmap_compose.
    by destruct (rc_best_app_transaction c). }
  repeat (apply elem_of_cons in Hc as [->|Hc]); [| |by apply elem_of_nil in Hc];
    cbn [mbind result_bind]; change (qi_candidate (canon_item item)) with (canon_candidate (qi_candidate item));
    rewrite ?Hcm, ?Hmd; apply raise_when_Ok, negb_false_iff, json_eqb_refl.
  - unfold payload_confirm_match, amount_or_none.
    destruct (st_amount _) as [d|]; [destruct (is_zero d)|];
      destruct (st_transaction_date _), (rc_best_app_transaction _), (st_currency _);
      cbn [app member fmap option_fmap option_map app_members]; (apply tidy_dict; [distinct_keys|tidy_members]).
  - unfold payload_mark_duplicate, amount_or_none.
    destruct (st_amount _) as [d|]; [destruct (is_zero d)|]; destruct (rc_best_app_transaction _);
      (apply tidy_dict; [distinct_keys|tidy_members]).
Qed.

(** ** The envelopes *)

Section Outcome.
Context (item : ReviewQueueItem) (decision : ResolutionDecision) (now : string).
Context (Hnow : require_aware_time now "clock" = Ok tt).
Context (Hmeta : check_decision_metadata decision = Ok tt).
Context (Hid : rd_queue_item_id decision = qi_queue_item_id item).
Context (Hclass : classifies (rd_action decision) (qi_issue_type item) = true).

Lemma metadata_parts :
  require_nonempty (rd_decision_id decision) "decision_id" = Ok tt ∧
  require_nonempty (rd_queue_item_id decision) "queue_item_id" = Ok tt ∧
  require_nonempty (rd_reviewer decision) "reviewer" = Ok tt ∧ require_resolved_at (rd_resolved_at decision) = Ok tt.
Proof using Hmeta.
  unfold check_decision_metadata in Hmeta. apply bind_Ok in Hmeta as ([]&?&H). apply bind_Ok in H as ([]&?&H).
  by apply bind_Ok in H as ([]&?&H).
Qed.

Lemma resolves : resolve item decision now =
  MkResolutionResult (make_result_id item decision) decision item true
    (JDict (resolution_evidence item decision now)) None.
Proof using Hmeta Hid Hclass.
  unfold resolve. rewrite Hid, String.eqb_refl. cbn [negb].
  destruct (classifies_compatible _ _ Hclass) as [_ Hv].
  destruct (validate_resolution_decision _ _) as [c e]. cbn in Hv. subst c. cbn [negb].
  unfold check_resolution_metadata. unfold check_decision_metadata in Hmeta. by rewrite Hmeta.
Qed.

Lemma resolution_differs k v :
  dict_get k (resolution_evidence item decision now) = Some (JStr v) →
  differs (resolution_evidence item decision now) k (JStr v) = false.
Proof using Type. intros H. by apply differs_self. Qed.

Lemma resolution_basic : assert_resolution_basic (resolve item decision now) = Ok tt.
Proof using Hnow Hmeta Hid Hclass.
  destruct metadata_parts as (H1&H2&H3&H4). rewrite resolves. unfold assert_resolution_basic.
  cbn [rr_success rr_error_message rr_decision rr_queue_item rr_audit_evidence rr_result_id].
  rewrite bool_decide_false by by intros [? ?]. cbn [negb orb refuse raise_when mbind result_bind evidence_dict].
  assert (Hres : require_nonempty (make_result_id item decision) "result_id" = Ok tt).
  { unfold require_nonempty, make_result_id. by rewrite result_id_nonblank. }
  rewrite Hres, H1, <- Hid, H2, H3, H4. cbn [mbind result_bind].
  change (get (resolution_evidence item decision now) "resolved_at") with (JStr (or_else (rd_resolved_at decision) now)).
  cbn [require_time]. rewrite (stamp_aware _ _ _ H4 (aware_label _ _ "audit resolved_at" Hnow)). cbn [mbind result_bind].
  rewrite String.eqb_refl. rewrite !resolution_differs by (cbn [resolution_evidence dict_get app String.eqb]; rewrite ?Hid; reflexivity).
  cbn [negb orb]. unfold resolved_differs. pose proof (stamp_resolved (rd_resolved_at decision) now H4) as Hs.
  destruct (rd_resolved_at decision) as [t|] eqn:Et; [|reflexivity].
  rewrite resolution_differs; [reflexivity|]. unfold resolution_evidence. rewrite Et. cbn [dict_get app String.eqb].
  change (Some (JStr (or_else (Some t) now)) = Some (JStr t)). by rewrite Hs.
Qed.

Lemma resolution_conforms digest :
  assert_resolution_envelope (resolve item decision now) (bound_of (canon_item item) digest) = Ok tt.
Proof using Hnow Hmeta Hid Hclass.
  destruct metadata_parts as (_&_&_&H4). unfold assert_resolution_envelope. rewrite resolution_basic, resolves.
  cbn [mbind result_bind rr_success rr_decision rr_queue_item rr_audit_evidence bq_issue_type bq_queue_item_id bound_of].
  change (qi_issue_type (canon_item item)) with (qi_issue_type item).
  change (qi_queue_item_id (canon_item item)) with (qi_queue_item_id item).
  rewrite Hclass, Hid, String.eqb_refl. cbn [negb orb refuse raise_when mbind result_bind evidence_dict].
  rewrite !resolution_differs by reflexivity. cbn [orb]. unfold resolved_differs.
  assert (Hr : match rd_resolved_at decision with
               | Some t => differs (resolution_evidence item decision now) "resolved_at" (JStr t) | None => false end = false).
  { pose proof (stamp_resolved (rd_resolved_at decision) now H4) as Hs.
    destruct (rd_resolved_at decision) as [t|] eqn:Et; [|reflexivity]. apply resolution_differs.
    unfold resolution_evidence. rewrite Et. change (Some (JStr (or_else (Some t) now)) = Some (JStr t)). by rewrite Hs. }
  rewrite Hr. cbn [raise_when mbind result_bind]. unfold assert_resolution_audit_schema.
  rewrite projection_canon, resolution_keys. cbn [negb refuse raise_when mbind result_bind].
  by rewrite source_audit_canon, resolution_sources.
Qed.
End Outcome.

Section Applied.
Context (item : ReviewQueueItem) (decision : ResolutionDecision) (now : string) (refs : list string).
Context (req : bool) (i : ApplyInstruction).
Context (Hnow : require_aware_time now "clock" = Ok tt).
Context (Hbuild : build_apply_instruction item decision refs req = Ok i).
Context (Hpass : passes_validation refs item = true).
Context (Hclass : classifies (rd_action decision) (qi_issue_type item) = true).
Context (Hreasons : rc_reason_codes (qi_candidate item) = qi_reason_codes item).

Lemma built_item : ai_item i = Some item ∧ ai_action i = rd_action decision.
Proof using Hbuild. destruct (build_Ok _ _ _ _ _ Hbuild) as (_&_&_&_&->). done. Qed.

Lemma built_ids :
  ai_queue_item_id i = qi_queue_item_id item ∧ ai_candidate_id i = rc_candidate_id (qi_candidate item) ∧
  ai_decision_id i = rd_decision_id decision ∧ ai_reviewer i = rd_reviewer decision ∧ ai_note i = rd_note decision ∧
  ai_statement_ref i = Some (statement_ref (canon_item item)) ∧ ai_app_transaction_ref i = app_ref (canon_item item).
Proof using Hbuild. destruct (build_Ok _ _ _ _ _ Hbuild) as (_&_&_&_&->). rewrite app_ref_canon. by split_and!. Qed.

Lemma first_evidence : ar_audit_evidence (first_result i now) = JDict (apply_evidence item i now).
Proof using Hbuild.
  destruct built_item as [Hi _]. unfold apply_evidence. cbn [first_result apply_result ar_audit_evidence].
  unfold build_audit_evidence_instruction. by rewrite Hi.
Qed.

Lemma apply_member k v :
  dict_get k (apply_evidence item i now) = Some (JStr v) → differs (apply_evidence item i now) k (JStr v) = false.
Proof using Type. intros H. by apply differs_self. Qed.

(** The members of the evidence that name the decision. *)
Lemma apply_members_named :
  let e := apply_evidence item i now in
  dict_get "queue_item_id" e = Some (JStr (qi_queue_item_id item)) ∧
  dict_get "candidate_id" e = Some (JStr (rc_candidate_id (qi_candidate item))) ∧
  dict_get "decision_id" e = Some (JStr (rd_decision_id decision)) ∧
  dict_get "resolution_action" e = Some (JStr (ResolutionAction.value (rd_action decision))) ∧
  dict_get "reviewer" e = Some (JStr (rd_reviewer decision)) ∧ dict_get "note" e = Some (JStr (rd_note decision)) ∧
  dict_get "applied_timestamp" e = Some (JStr (or_else (rd_resolved_at decision) now)) ∧
  dict_get "apply_runtime_version" e = Some (JStr "v1") ∧
  dict_get "instruction_id" e = Some (JStr ("instr-" +:+ rd_decision_id decision)) ∧
  dict_get "evidence_refs" e = Some (JList (JStr <$> refs)).
Proof using Hbuild.
  destruct (build_Ok _ _ _ _ _ Hbuild) as (_&_&_&_&->). unfold apply_evidence, build_audit_evidence_instruction.
  cbn [ai_item ai_decision_id ai_action ai_reviewer ai_note ai_resolved_at ai_instruction_id ai_evidence_refs].
  repeat split; reflexivity.
Qed.

Lemma payload_dict : evidence_dict (build_payload_instruction i) "apply envelope is invalid" =
  Ok (match build_payload_instruction i with JDict d => d | _ => [] end).
Proof using Type.
  unfold build_payload_instruction. destruct (ai_item i); [|reflexivity]. by destruct (ai_action i).
Qed.

Lemma apply_basic : assert_apply_basic (first_result i now) = Ok tt.
Proof using Hnow Hbuild Hpass.
  destruct (build_Ok _ _ _ _ _ Hbuild) as (_&Hm&Hq&_&_). destruct built_item as [_ Ha].
  destruct (metadata_parts decision Hm) as (H1&H2&H3&H4). rewrite Hq in H2.
  destruct apply_members_named as (E1&E2&E3&E4&E5&E6&E7&_).
  unfold assert_apply_basic. rewrite first_evidence. cbn [first_result apply_result ar_success ar_error_message ar_payload
    ar_apply_id ar_decision_id ar_queue_item_id ar_candidate_id ar_reviewer ar_applied_at ar_action ar_note].
  rewrite bool_decide_false by by intros [? ?]. cbn [negb orb refuse raise_when mbind result_bind evidence_dict].
  rewrite payload_dict. cbn [mbind result_bind].
  assert (Hap : require_nonempty ("apply-" +:+ ai_decision_id i) "apply_id" = Ok tt).
  { unfold require_nonempty. by rewrite apply_id_nonblank. }
  assert (Hc : require_nonempty (rc_candidate_id (qi_candidate item)) "candidate_id" = Ok tt).
  { unfold passes_validation in Hpass. apply andb_prop in Hpass as [_ Hc%negb_true_iff].
    unfold require_nonempty. by rewrite Hc. }
  rewrite Hap. destruct built_ids as (->&->&->&->&->&_). rewrite Ha.
  rewrite H1, H2, Hc, H3, (aware_label _ _ "applied_at" Hnow). cbn [mbind result_bind]. unfold get. rewrite E7.
  cbn [default from_option id require_time].
  rewrite (stamp_aware _ _ _ H4 (aware_label _ _ "audit applied_timestamp" Hnow)).
  cbn [mbind result_bind].
  by rewrite !apply_member by assumption.
Qed.

Lemma apply_conforms digest :
  assert_apply_envelope (first_result i now) (bound_of (canon_item item) digest) = Ok tt.
Proof using Hnow Hbuild Hpass Hclass Hreasons.
  destruct built_item as [Hitem Haction].
  destruct apply_members_named as (E1&E2&E3&E4&E5&E6&_&E8&E9&E10).
  destruct (classifies_compatible _ _ Hclass) as [Hcl _].
  unfold assert_apply_envelope. rewrite apply_basic, first_evidence.
  cbn [mbind result_bind first_result apply_result ar_success ar_action ar_decision_id ar_queue_item_id ar_candidate_id
    ar_reviewer ar_note ar_statement_reference ar_app_transaction_reference ar_payload bq_issue_type bq_queue_item_id
    bq_candidate_id bq_statement_transaction_ref bq_app_transaction_ref bound_of evidence_dict].
  change (qi_issue_type (canon_item item)) with (qi_issue_type item).
  rewrite Haction, Hclass. cbn [negb orb refuse raise_when mbind result_bind].
  destruct built_ids as (->&->&->&->&->&->&->).
  change (qi_queue_item_id (canon_item item)) with (qi_queue_item_id item).
  change (rc_candidate_id (qi_candidate (canon_item item))) with (rc_candidate_id (qi_candidate item)).
  rewrite !String.eqb_refl, !bool_decide_true, !apply_member by (done || assumption).
  cbn [negb orb raise_when mbind result_bind]. unfold assert_apply_audit_schema.
  rewrite projection_canon, apply_keys, source_audit_canon, apply_sources by done.
  cbn [negb refuse raise_when mbind result_bind].
  rewrite !apply_member by assumption. unfold get. rewrite E10. cbn [default from_option id orb text_refs].
  assert (Hrefs : forallb (λ r, match r with JStr s => negb (str_empty (py_strip s)) | _ => false end) (JStr <$> refs) = true).
  { unfold passes_validation in Hpass. apply andb_prop in Hpass as [Hp%negb_true_iff _]. clear - Hp.
    induction refs as [|r l IH]; [done|]. cbn in *. apply orb_false_iff in Hp as [-> Hp]. by apply IH. }
  rewrite Hrefs. cbn [negb raise_when mbind result_bind]. by apply payload_canon.
Qed.
End Applied.

(** ** The successes of the runtimes *)

Lemma resolve_success item decision now : rr_success (resolve item decision now) = true →
  check_decision_metadata decision = Ok tt ∧ rd_queue_item_id decision = qi_queue_item_id item.
Proof.
  unfold resolve. destruct (String.eqb_spec (rd_queue_item_id decision) (qi_queue_item_id item)) as [->|]; [|done].
  cbn [negb]. destruct (validate_resolution_decision _ _) as [[] err]; [|done]. cbn [negb].
  destruct (check_resolution_metadata decision) as [[]|e] eqn:Em; done.
Qed.

(** A success that is not a repetition was built, passed the validation of the
    runtime and is the first result of its instruction. *)
Lemma apply_success rt item decision refs req now r rt' : reachable rt →
  apply rt item decision refs req now = Ok (r, rt') → ar_success r = true → ar_idempotent r = false →
  ∃ i, build_apply_instruction item decision refs req = Ok i ∧ passes_validation refs item = true ∧ r = first_result i now.
Proof.
  intros Hr%reachable_ok. unfold apply. destruct (build_apply_instruction item decision refs req) as [i|e] eqn:Eb.
  - intros H _ Hi. exists i. pose proof (built_validates _ _ _ _ _ Eb) as Hv. split; [done|].
    destruct (passes_validation refs item); [|destruct Hv as [x Hv]; unfold apply_instruction in H; by rewrite Hv in H].
    split; [done|]. destruct (apply_instruction_inv _ _ _ _ _ Hr H) as [(_&_&->&_)|(e&_&_&->&_)]; [done|discriminate Hi].
  - destruct (exn_isinstance _ _); [|done]. intros [= <- <-]. discriminate.
Qed.

(** C18: What the runtimes report of a classification can be stored.  Let a
    reviewer's decision classify a queue item (confirm its match or mark its
    duplicate, as its issue admits), and let the clock be aware.  If the
    resolution runtime reports success, its result passes every check of a
    resolution against the frozen item; if the apply runtime, in any state it
    can reach and with any evidence references, reports a success that is not
    a repetition, this result passes every check of an apply result; whatever
    the digest of the item and however its transaction types were spelled.  And
    whenever an instruction can be built, the resolution runtime succeeds. *)
Theorem successful_outcomes_conform item decision now digest :
  qi_reason_codes item = rc_reason_codes (qi_candidate item) →
  require_aware_time now "clock" = Ok tt →
  classifies (rd_action decision) (qi_issue_type item) = true →
  let bound := bound_of (canon_item item) digest in
  (rr_success (resolve item decision now) = true →
     assert_resolution_envelope (resolve item decision now) bound = Ok tt) ∧
  (∀ rt refs req r rt', reachable rt → apply rt item decision refs req now = Ok (r, rt') →
     ar_success r = true → ar_idempotent r = false → assert_apply_envelope r bound = Ok tt) ∧
  (∀ refs req, is_ok (build_apply_instruction item decision refs req) = true →
     rr_success (resolve item decision now) = true).
Proof.
  intros Hr Hnow Hc bound. split_and!.
  - intros [Hm Hq]%resolve_success. by apply resolution_conforms.
  - intros rt refs req r rt' Hrt Ha Hs Hi. destruct (apply_success _ _ _ _ _ _ _ _ Hrt Ha Hs Hi) as (i&Hb&Hp&->).
    by eapply apply_conforms.
  - intros refs req H. destruct (build_apply_instruction item decision refs req) as [i|e] eqn:Eb; [|done].
    destruct (build_Ok _ _ _ _ _ Eb) as (_&Hm&Hq&_&_). by rewrite resolves.
Qed.

Lemma successful_outcomes_conform_witness :
  let item := sample_item "q-1" in
  let bound := bound_of (canon_item item) "digest" in
  let now := "2024-05-03T00:00:00+00:00" in
  assert_resolution_envelope (resolve item (sample_decision "dec-1" "q-1") now) bound = Ok tt ∧
  ∃ r rt, apply new_runtime item (sample_decision "dec-1" "q-1") ["ev-1"] true now = Ok (r, rt) ∧
    assert_apply_envelope r bound = Ok tt.
Proof.
  assert (Hn : require_aware_time "2024-05-03T00:00:00+00:00" "clock" = Ok tt) by (vm_compute; reflexivity).
  assert (Hb : is_ok (build_apply_instruction (sample_item "q-1") (sample_decision "dec-1" "q-1") ["ev-1"] true) = true)
    by (vm_compute; reflexivity).
  assert (Hc : classifies (rd_action (sample_decision "dec-1" "q-1")) (qi_issue_type (sample_item "q-1")) = true)
    by (vm_compute; reflexivity).
  assert (Ha : match apply new_runtime (sample_item "q-1") (sample_decision "dec-1" "q-1") ["ev-1"] true "2024-05-03T00:00:00+00:00" with
               | Ok (r, _) => ar_success r && negb (ar_idempotent r) | Raise _ => false end = true) by (vm_compute; reflexivity).
  destruct (successful_outcomes_conform (sample_item "q-1") (sample_decision "dec-1" "q-1") "2024-05-03T00:00:00+00:00" "digest"
    eq_refl Hn Hc) as (H1&H2&H3).
  split; [exact (H1 (H3 ["ev-1"] true Hb))|].
  destruct (apply new_runtime (sample_item "q-1") (sample_decision "dec-1" "q-1") ["ev-1"] true "2024-05-03T00:00:00+00:00")
    as [[r rt]|e] eqn:E; [|discriminate Ha]. apply andb_prop in Ha as [Hs Hi%negb_true_iff].
  exists r, rt. split; [reflexivity|]. exact (H2 _ _ _ _ _ (rtc_refl _ _) E Hs Hi).
Defined.
