(* ===== verification/FinalMutationProps.v ===== *)
(** * What the final mutation guard decides

    The guard approves exactly the complete and sound proposals; the money of
    an approved CREATE preview is the proposal's amount in canonical form; and
    the one exception that escapes is that of an amount too large for the
    decimal context. *)

From Stdlib Require Import Ascii ZArith QArith Qpower Lqa SpecFloat Lia.
From stdpp Require Import base sets strings sorting numbers list.
From S2P Require Import Prelude PyDecimal DecUnits PyValue Money MoneyText DecText Json JsonParse PyDate PyFloat ReconModels ReviewModels FinalMutation.

Open Scope Z_scope.

(** ** CREATE money *)

Lemma money_decimal_raises v e : money_decimal v = Raise e → exn_cls e = MoneyValidationError.
Proof.
  destruct v as [| | | |[d|s|s b]|s| |]; cbn; try by intros [= <-].
  destruct (str_empty _); cbn; [by intros [= <-]|]. destruct (looks_like_scientific _); cbn; [by intros [= <-]|].
  destruct (decimal_of_string _) as [[d|b|b b']|]; cbn; by intros [= <-].
Qed.

Lemma normalize_currency_raises v e : normalize_currency v = Raise e → exn_cls e = MoneyValidationError.
Proof.
  destruct v; try by intros [= <-]. unfold normalize_currency, raise_when. intros H.
  destruct (str_empty _), (negb (_ =? 3)%nat), (negb (py_isalpha _)), (negb (str_in _ _));
    cbn [mbind result_bind] in H; by (discriminate H || injection H as <-).
Qed.

Lemma create_amount_spec v :
  create_amount v = Ok (match money_decimal v with Ok d => (Some d, []) | Raise _ => (None, [CreateMoneyValidationIssue.AMOUNT]) end).
Proof.
  assert (H : or_issue (money_decimal v) CreateMoneyValidationIssue.AMOUNT =
    Ok (match money_decimal v with Ok d => (Some d, []) | Raise _ => (None, [CreateMoneyValidationIssue.AMOUNT]) end)).
  { destruct (money_decimal v) as [d|e] eqn:E; cbn; [done|]. by rewrite (money_decimal_raises _ _ E). }
  unfold create_amount. by destruct v.
Qed.

Lemma create_currency_spec v :
  create_currency v = Ok (match normalize_currency v with Ok c => (Some c, []) | Raise _ => (None, [CreateMoneyValidationIssue.CURRENCY]) end).
Proof.
  assert (H : or_issue (normalize_currency v) CreateMoneyValidationIssue.CURRENCY =
    Ok (match normalize_currency v with Ok c => (Some c, []) | Raise _ => (None, [CreateMoneyValidationIssue.CURRENCY]) end)).
  { destruct (normalize_currency v) as [d|e] eqn:E; cbn; [done|]. by rewrite (normalize_currency_raises _ _ E). }
  unfold create_currency. by destruct v.
Qed.

(** The amount is a positive whole number [z] of minor units of the currency,
    of at most 28 digits. *)
Definition good_money (amount currency : pyval) (d : fdec) (c : string) (u z : Z) : Prop :=
  money_decimal amount = Ok d ∧ normalize_currency currency = Ok c ∧ minor_units c = Ok u ∧
  at_scale u d z ∧ fits z ∧ 0 < z.

Lemma positive_scale u d z : sane_scale u → at_scale u d z → dec_leb d ZERO = (z <=? 0).
Proof.
  intros Hu Hz. apply eq_true_iff_eq. rewrite dec_leb_le, Z.leb_le. unfold at_scale in Hz.
  rewrite Hz, dval_ZERO. pose proof (q10_pos (- u)). split; intros H'.
  - destruct (Z.le_gt_cases z 0) as [|Hlt]; [done|]. exfalso.
    assert (0 < inject_Z z * q10 (- u))%Q; [|lra]. apply Qmult_lt_0_compat; [|done]. by rewrite <- (Zlt_Qlt 0).
  - rewrite <- (Qmult_0_l (q10 (- u))). apply Qmult_le_compat_r; [by rewrite (Zle_Qle z 0) in H'|lra].
Qed.

Lemma guard_quantize_positive c u d z : minor_units c = Ok u → at_scale u d z → fits z → 0 < z →
  quantize_for_currency d c = Ok (mkdec false z (- u)).
Proof.
  intros Hu Hz Hf Hpos. unfold quantize_for_currency. rewrite (quantize_for_currency_scale _ c u d z) by done.
  assert (fsign d = false) as ->; [|by rewrite Z.abs_eq by lia].
  destruct (fsign d) eqn:E; [|done]. apply sign_nonpos in E. exfalso.
  pose proof (positive_scale u d z (minor_units_sane _ _ Hu) Hz) as Hp.
  rewrite (proj2 (dec_leb_le d ZERO)) in Hp by (by rewrite dval_ZERO). symmetry in Hp. apply Z.leb_le in Hp. lia.
Qed.

Lemma guard_validate_raises c u d e : minor_units c = Ok u → validate_amount_for_currency d c = Raise e →
  exn_cls e = MoneyValidationError ∨ exn_cls e = InvalidOperation.
Proof.
  intros Hu E. unfold validate_amount_for_currency in E. rewrite Hu in E. cbn in E.
  destruct (quantum_for_units_spec c u Hu) as (q&Hq&Hqe). rewrite Hq in E. cbn in E.
  pose proof (minor_units_sane _ _ Hu) as Hs. unfold sane_scale in Hs.
  destruct (quantize _ _ _) as [r|e'] eqn:Eq; cbn in E.
  - destruct (dec_eqb d r); [done|]. injection E as <-. by left.
  - injection E as <-. right. eapply quantize_raises; [|done]. lia.
Qed.

(** The outcome for a parsed amount and a supported currency. *)
Lemma create_money_cases c u d : minor_units c = Ok u →
  match create_money (Some c) (Some d) with
  | Ok (Some m, l) => l = [] ∧ cm_amount m = d ∧ cm_currency m = c ∧
      ∃ z, at_scale u d z ∧ fits z ∧ 0 < z ∧ cm_canonical_amount m = dec_str (mkdec false z (- u))
  | Ok (None, l) => l = [CreateMoneyValidationIssue.AMOUNT] ∧ ¬ (∃ z, at_scale u d z ∧ fits z ∧ 0 < z)
  | Raise e => exn_cls e = InvalidOperation ∧ validate_amount_for_currency d c = Raise e
  end.
Proof.
  intros Hu. pose proof (minor_units_sane _ _ Hu) as Hs. unfold create_money.
  destruct (validate_amount_for_currency d c) as [r|e] eqn:Ev; cbn [mbind result_bind].
  - apply (validate_amount_iff c u) in Ev as [-> (z&Hz&Hf)]; [|done]. unfold enforce.
    rewrite (positive_scale u d z Hs Hz). destruct (Z.leb_spec z 0) as [Hle|Hlt]; cbn [raise_when mbind result_bind].
    + cbn. split; [done|]. intros (z'&Hz'&_&Hpos). pose proof (positive_scale u d z Hs Hz) as H1.
      rewrite (positive_scale u d z' Hs Hz') in H1. rewrite (proj2 (Z.leb_le z 0) Hle) in H1.
      apply Z.leb_le in H1. lia.
    + cbn [canonical_money_str]. rewrite (guard_quantize_positive c u d z) by done.
      cbn. split_and!; [done..|]. by exists z.
  - destruct (guard_validate_raises c u d e Hu Ev) as [Hc|Hc].
    + cbn [or_issue]. rewrite Hc. cbn. split; [done|]. intros (z&Hz&Hf&_).
      rewrite (proj2 (validate_amount_iff c u d d Hu)) in Ev; [done|]. eauto.
    + cbn [or_issue]. rewrite Hc. done.
Qed.

Lemma create_money_outcome amount currency :
  match validate_reconciliation_create_money amount currency with
  | Ok (inl m) => ∃ u z, good_money amount currency (cm_amount m) (cm_currency m) u z ∧
                    cm_canonical_amount m = dec_str (mkdec false z (- u))
  | Ok (inr issues) => issues ≠ [] ∧ ¬ (∃ d c u z, good_money amount currency d c u z)
  | Raise e => exn_cls e = InvalidOperation ∧ ∃ d c, money_decimal amount = Ok d ∧ normalize_currency currency = Ok c ∧
                 validate_amount_for_currency d c = Raise e
  end.
Proof.
  unfold validate_reconciliation_create_money. rewrite create_amount_spec, create_currency_spec. cbn [mbind result_bind].
  destruct (normalize_currency currency) as [c|ec] eqn:Ec; destruct (money_decimal amount) as [d|ed] eqn:Ed; cbn [fst snd].
  - destruct (minor_units_normalized _ _ Ec) as [u Hu]. pose proof (create_money_cases c u d Hu) as Hc.
    destruct (create_money (Some c) (Some d)) as [[[m|] l]|e]; cbn [mbind result_bind fst snd app].
    + destruct Hc as (->&<-&<-&z&Hz&Hf&Hp&Ht). exists u, z. by split_and!.
    + destruct Hc as [-> Hn]. split; [done|]. intros (d'&c'&u'&z&Hd'&Hc'&Hu'&Hz&Hf&Hp).
      rewrite Ed in Hd'. rewrite Ec in Hc'. injection Hd' as <-. injection Hc' as <-. rewrite Hu in Hu'. injection Hu' as <-.
      apply Hn. by exists z.
    + destruct Hc as [Hc He]. split; [done|]. by exists d, c.
  - cbn. split; [done|]. intros (d&c'&u&z&Hd&_). by rewrite Ed in Hd.
  - cbn [create_money]. assert (Ho : ∃ r, or_issue (enforce STRICTLY_POSITIVE d) CreateMoneyValidationIssue.AMOUNT = Ok r ∧
      (r.2 = [] ∨ r.2 = [CreateMoneyValidationIssue.AMOUNT])).
    { unfold enforce. destruct (dec_leb d ZERO); cbn; eexists; (split; [reflexivity|]); auto. }
    destruct Ho as (r&->&[Hr|Hr]); cbn [mbind result_bind fst snd]; rewrite Hr; cbn;
      (split; [done|]; intros (d'&c&u&z&_&Hc&_); by rewrite Ec in Hc).
  - cbn. split; [done|]. intros (d&c'&u&z&Hd&_). by rewrite Ed in Hd.
Qed.

(** ** The guard *)

(** What each action needs to be approved. *)
Definition approvable (p : FinalMutationProposal) : Prop :=
  match fp_action p with
  | FinalMutationAction.CREATE_FINAL_TRANSACTION =>
      (∃ d c u z, good_money (fp_amount p) (fp_currency p) d c u z) ∧ fp_transaction_date p ≠ None ∧
      absent (fp_merchant p) = false ∧ absent (fp_source_statement_ref p) = false ∧ fp_evidence_refs p ≠ []
  | FinalMutationAction.ADJUST_FINAL_TRANSACTION =>
      absent (fp_target_transaction_id p) = false ∧ dict_keys (fp_suggested_fields p) ≠ [] ∧
      absent (fp_source_app_transaction_ref p) = false ∧ fp_evidence_refs p ≠ []
  | FinalMutationAction.NO_FINAL_MUTATION => True
  | FinalMutationAction.BLOCKED => False
  end.

(** The money of a preview. *)
Definition preview_money (p : FinalMutationProposal) (pv : FinalMutationPreview) : Prop :=
  match fp_action p with
  | FinalMutationAction.CREATE_FINAL_TRANSACTION =>
      ∃ d c u z t d', good_money (fp_amount p) (fp_currency p) d c u z ∧ pv_amount pv = Some t ∧
        pv_currency pv = VStr c ∧ decimal_of_string t = Some (DFin d') ∧ (dval d' == dval d)%Q ∧ fexp d' = - u
  | _ => pv_currency pv = fp_currency p
  end.

Lemma reason_if_nil c r : reason_if c r = [] ↔ c = false.
Proof. by destruct c. Qed.

Lemma create_reasons_issues p issues : issues ≠ [] → create_reasons p issues ≠ [].
Proof.
  intros Hi Hr. unfold create_reasons in Hr. apply app_eq_nil in Hr as [Ha Hr]. apply app_eq_nil in Hr as [Hc _].
  destruct issues as [|[] issues]; [done| |].
  - destruct (is_none (fp_amount p)); [done|]. apply reason_if_nil, bool_decide_eq_false in Ha. destruct Ha. by left.
  - destruct (match fp_currency p with VNone => true | VStr s => str_empty s | _ => false end); [done|].
    apply reason_if_nil, bool_decide_eq_false in Hc. destruct Hc. by left.
Qed.

Lemma create_reasons_good p d c u z : good_money (fp_amount p) (fp_currency p) d c u z →
  create_reasons p [] = [] ↔ fp_transaction_date p ≠ None ∧ absent (fp_merchant p) = false ∧
    absent (fp_source_statement_ref p) = false ∧ fp_evidence_refs p ≠ [].
Proof.
  intros (Hd&Hc&_). unfold create_reasons.
  assert (is_none (fp_amount p) = false) as -> by by destruct (fp_amount p).
  assert (match fp_currency p with VNone => true | VStr s => str_empty s | _ => false end = false) as ->.
  { destruct (fp_currency p) as [| | | | |s| |]; try done. by destruct (String.eqb_spec s "") as [->|]; [vm_compute in Hc|apply String.eqb_neq]. }
  rewrite !bool_decide_false by by intros ?%elem_of_nil. cbn [reason_if app].
  split.
  - intros H. apply app_eq_nil in H as [H1%reason_if_nil H]. apply app_eq_nil in H as [H2%reason_if_nil H].
    apply app_eq_nil in H as [H3%reason_if_nil H4%reason_if_nil%bool_decide_eq_false].
    split_and!; [by destruct (fp_transaction_date p)|done..].
  - intros (H1&->&->&H4). rewrite bool_decide_false by done. by destruct (fp_transaction_date p).
Qed.

(** The text of the canonical amount. *)
Lemma canonical_amount_read u z d : sane_scale u → at_scale u d z → fits z → 0 < z →
  ∃ d', decimal_of_string (dec_str (mkdec false z (- u))) = Some (DFin d') ∧ (dval d' == dval d)%Q ∧ fexp d' = - u.
Proof.
  unfold sane_scale. intros Hu Hz Hf Hp. exists (mkdec false z (- u)). split_and!; [|unfold at_scale in Hz; by rewrite dval_mkdec, Hz by lia|done].
  apply dec_str_read. unfold dec_readable, adjusted. rewrite zcoef_mkdec by lia. cbn [fexp mkdec].
  assert (1 <= ndigits z <= 28). { split; [apply ndigits_pos; lia|]. apply ndigits_le; lia. }
  unfold min_etiny, max_emax. lia.
Qed.

Lemma small_int_text n : fits n → ∃ s, int_text n = Ok s.
Proof.
  intros Hn. unfold int_text. assert (Z.abs n <? int_limit = true) as ->; [|by eexists].
  apply Z.ltb_lt. apply Z.lt_trans with (10 ^ 28); [exact Hn|]. vm_compute. reflexivity.
Qed.

Lemma good_amount_text amount currency d c u z : good_money amount currency d c u z → ∃ s, str_value amount = Ok s.
Proof.
  intros (Hd&_&Hu&Hz&Hf&_). apply minor_units_sane in Hu. unfold sane_scale in Hu. destruct amount as [| |n| |v|s| |]; try done; [|by eexists..].
  cbn [str_value repr_value]. apply small_int_text. cbn in Hd. injection Hd as <-.
  assert (Hn : at_scale u (dec_of_Z n) (n * 10 ^ u)).
  { unfold at_scale. rewrite dval_dec_of_Z, q10_shift by lia.
    rewrite Z.add_opp_diag_r. change (q10 0) with 1%Q. by rewrite Qmult_1_r. }
  rewrite (at_scale_inj _ _ _ _ Hz Hn) in Hf. pose proof (Z.pow_pos_nonneg 10 u). nia.
Qed.

(** A proposal with its money, approved or not. *)
Lemma preview_create p d c u z :
  fp_action p = FinalMutationAction.CREATE_FINAL_TRANSACTION →
  validate_reconciliation_create_money (fp_amount p) (fp_currency p) =
    Ok (inl (MkCreateMoney d c (dec_str (mkdec false z (- u))))) →
  good_money (fp_amount p) (fp_currency p) d c u z →
  ∃ pv, preview p = Ok pv ∧ pv_is_dry_run pv = true ∧ preview_money p pv.
Proof.
  intros Ha Hm Hg. destruct (good_amount_text _ _ _ _ _ _ Hg) as [s Hs]. unfold preview. rewrite Ha, Hm.
  destruct (is_none (fp_amount p)) eqn:En.
  { destruct (fp_amount p); try discriminate En. destruct Hg as [Hd _]. discriminate Hd. }
  rewrite Hs. cbn [fmap result_fmap mbind result_bind fst snd cm_canonical_amount cm_currency].
  eexists. split; [reflexivity|]. split; [reflexivity|]. unfold preview_money. rewrite Ha.
  destruct Hg as (Hd&Hc&Hu&Hz&Hf&Hp).
  destruct (canonical_amount_read u z d (minor_units_sane _ _ Hu) Hz Hf Hp) as (d'&Hr&Hv&He).
  exists d, c, u, z, (dec_str (mkdec false z (- u))), d'. by split_and!.
Qed.

Lemma adjust_reasons p :
  validate_adjust_fields p = None ↔
  absent (fp_target_transaction_id p) = false ∧ dict_keys (fp_suggested_fields p) ≠ [] ∧
  absent (fp_source_app_transaction_ref p) = false ∧ fp_evidence_refs p ≠ [].
Proof.
  unfold validate_adjust_fields, block_if. destruct (absent (fp_target_transaction_id p)); cbn; [by split; [|intros [? _]]|].
  case_bool_decide; cbn; [by split; [|intros (_&?&_)]|]. destruct (absent _); cbn; [by split; [|intros (_&_&?&_)]|].
  case_bool_decide; cbn; [by split; [|intros (_&_&_&?)]|]. done.
Qed.

(** Whether the text of a proposal mentions a direct mutation. *)
Definition mentions (p : FinalMutationProposal) (fields : string) : bool :=
  mentions_mutation (fp_note p +:+ " " +:+ fields).

Lemma evaluate_unmentioned p fields :
  str_value (VDict (fp_suggested_fields p)) = Ok fields → fp_action p ≠ FinalMutationAction.BLOCKED →
  evaluate (Proposal p) =
    if mentions p fields then Ok (blocked (fp_proposal_id p) [FinalMutationBlockedReason.DIRECT_MUTATION_DETECTED])
    else field ← check_required_fields p; match field with Some d => Ok d | None => approve p end.
Proof.
  intros Hf Ha. unfold evaluate, check_action. rewrite bool_decide_false by done.
  unfold check_direct_mutation. rewrite Hf. cbn [mbind result_bind]. fold (mentions p fields). by destruct (mentions p fields).
Qed.

(** The decision of a proposal that is refused. *)
Definition refuses (g : FinalMutationGuardDecision) : Prop :=
  gd_approved g = false ∧ gd_action g = FinalMutationAction.BLOCKED ∧ gd_preview g = None ∧ gd_blocked_reasons g ≠ [].
(** The decision of a proposal that is approved. *)
Definition approves (p : FinalMutationProposal) (g : FinalMutationGuardDecision) : Prop :=
  gd_approved g = true ∧ gd_action g = fp_action p ∧ gd_blocked_reasons g = [] ∧
  ∃ pv, gd_preview g = Some pv ∧ pv_is_dry_run pv = true ∧ preview_money p pv.

Lemma blocked_refuses id r l : refuses (blocked id (r :: l)).
Proof. done. Qed.

Lemma create_decides p :
  fp_action p = FinalMutationAction.CREATE_FINAL_TRANSACTION →
  match (field ← check_required_fields p; match field with Some d => Ok d | None => approve p end) with
  | Ok g => (approvable p ∧ approves p g) ∨ (¬ approvable p ∧ refuses g)
  | Raise e => exn_cls e = InvalidOperation ∧ ¬ approvable p ∧ ∃ d c, money_decimal (fp_amount p) = Ok d ∧
      normalize_currency (fp_currency p) = Ok c ∧ validate_amount_for_currency d c = Raise e
  end.
Proof.
  intros Ha. unfold check_required_fields, approvable. rewrite Ha. unfold validate_create_fields.
  pose proof (create_money_outcome (fp_amount p) (fp_currency p)) as Ho.
  destruct (validate_reconciliation_create_money _ _) as [[m|issues]|e] eqn:Em; cbn [mbind result_bind].
  - destruct Ho as (u&z&Hg&Ht). destruct m as [d c t]. cbn in Hg, Ht. subst t.
    pose proof (create_reasons_good p d c u z Hg) as Hr. unfold block_if.
    destruct (create_reasons p []) as [|r l].
    + destruct (preview_create p d c u z Ha Em Hg) as (pv&Hpv&Hdry&Hmoney). unfold approve. rewrite Hpv.
      cbn [mbind result_bind]. left. split; [split; [by exists d, c, u, z|by apply Hr]|].
      split_and!; [done..|]. exists pv. by split_and!.
    + right. split; [|apply blocked_refuses]. intros (_&H). apply Hr in H. done.
  - destruct Ho as [Hi Hn]. unfold block_if. pose proof (create_reasons_issues p issues Hi) as Hr.
    destruct (create_reasons p issues) as [|r l]; [done|]. right. split; [|apply blocked_refuses]. by intros [? _].
  - destruct Ho as (He&d&c&Hd&Hc&Hv). split; [done|]. split; [|by exists d, c]. intros ((d'&c'&u&z&Hd'&Hc'&Hu&Hz&Hf&_)&_).
    rewrite Hd in Hd'. rewrite Hc in Hc'. injection Hd' as <-. injection Hc' as <-.
    rewrite (proj2 (validate_amount_iff c u d d Hu)) in Hv; [done|]. eauto.
Qed.

(** C16: What the guard decides.  A proposal is approved exactly when its text
    names no direct mutation and it has everything its action needs: for a
    CREATE, a positive whole number of minor units of a supported currency, a
    date, a merchant, a statement and evidence; for an ADJUST, a target,
    fields, a source and evidence.  An approved CREATE previews the canonical
    text of that very amount at the scale of its currency; a refused proposal
    has reasons and no preview.  The only exception that escapes is the
    decimal module's, for a CREATE amount the context cannot hold. *)
Theorem guard_decides p fields :
  str_value (VDict (fp_suggested_fields p)) = Ok fields →
  (fp_action p ≠ FinalMutationAction.CREATE_FINAL_TRANSACTION → is_ok (str_value (fp_amount p)) = true) →
  match evaluate (Proposal p) with
  | Ok g => (mentions p fields = false ∧ approvable p ∧ approves p g) ∨
            (¬ (mentions p fields = false ∧ approvable p) ∧ refuses g)
  | Raise e => exn_cls e = InvalidOperation ∧ fp_action p = FinalMutationAction.CREATE_FINAL_TRANSACTION ∧
      ¬ approvable p ∧ ∃ d c, money_decimal (fp_amount p) = Ok d ∧ normalize_currency (fp_currency p) = Ok c ∧
        validate_amount_for_currency d c = Raise e
  end.
Proof.
  intros Hf Ht. destruct (decide (fp_action p = FinalMutationAction.BLOCKED)) as [Hb|Hb].
  { unfold evaluate, check_action. rewrite bool_decide_true by done. right. split; [|apply blocked_refuses].
    unfold approvable. rewrite Hb. by intros [_ ?]. }
  rewrite (evaluate_unmentioned p fields Hf Hb). destruct (mentions p fields).
  { right. split; [by intros [? _]|apply blocked_refuses]. }
  destruct (decide (fp_action p = FinalMutationAction.CREATE_FINAL_TRANSACTION)) as [Hc|Hc].
  { pose proof (create_decides p Hc) as H. destruct (check_required_fields p ≫= _) as [g|e].
    - destruct H as [[? ?]|[? ?]]; [by left|right]. split; [by intros [_ ?]|done].
    - destruct H as (?&?&?). by split_and!. }
  assert (Hap : ∃ g, approve p = Ok g ∧ approves p g).
  { specialize (Ht Hc). destruct (str_value (fp_amount p)) as [s|] eqn:Es; [|done]. unfold approve, preview. rewrite Es.
    destruct (is_none (fp_amount p)), (fp_action p) eqn:Ea; try done; cbn [fmap result_fmap mbind result_bind];
      eexists; (split; [reflexivity|]); (split_and!; [done..|]); (eexists; split; [reflexivity|]);
      (split; [reflexivity|]); unfold preview_money; by rewrite Ea. }
  destruct Hap as (g&Hg&Hga). unfold check_required_fields.
  destruct (fp_action p) eqn:Ea; try done; cbn [mbind result_bind].
  - pose proof (adjust_reasons p) as Hr. unfold validate_adjust_fields, block_if in *.
    set (reasons := _ ++ _) in *. destruct reasons as [|r l]; unfold approvable; rewrite Ea.
    + rewrite Hg. left. split; [done|]. split; [by apply Hr|done].
    + right. split; [|apply blocked_refuses]. intros [_ H]. apply Hr in H. done.
  - rewrite Hg. left. unfold approvable. by rewrite Ea.
Qed.

(** A proposal to create a transaction of ten Singapore dollars and a half. *)
Definition sample_proposal (amount : string) : FinalMutationProposal :=
  MkProposal "p-1" FinalMutationAction.CREATE_FINAL_TRANSACTION None (VStr amount) (VStr "sgd") (Some "Cafe")
    (Some (Date 2026 1 10)) None [("category", VStr "food")] (Some "row-1") None ["ev-1"] "from the statement".

Definition sample_fields : string := "{'category': 'food'}".

Lemma guard_decides_witness :
  match evaluate (Proposal (sample_proposal "10.50")) with
  | Ok g => approves (sample_proposal "10.50") g
  | Raise _ => False
  end.
Proof.
  assert (Hf : str_value (VDict (fp_suggested_fields (sample_proposal "10.50"))) = Ok sample_fields)
    by (vm_compute; reflexivity).
  pose proof (guard_decides (sample_proposal "10.50") sample_fields Hf (λ _, eq_refl)) as H.
  destruct (evaluate (Proposal (sample_proposal "10.50"))) as [g|e] eqn:E; [|vm_compute in E; discriminate E].
  destruct H as [(_&_&H)|[_ (H&_)]]; [exact H|]. vm_compute in E. injection E as <-. discriminate H.
Defined.

(** The guard does not always decide.  A CREATE proposal whose amount is a
    whole number of minor units of more than 28 digits makes the guard raise
    the decimal module's [InvalidOperation] instead of returning a decision
    with the reason [invalid_amount]. *)
Theorem guard_escapes_on_large_amounts p fields d c u z :
  fp_action p = FinalMutationAction.CREATE_FINAL_TRANSACTION →
  str_value (VDict (fp_suggested_fields p)) = Ok fields → mentions p fields = false →
  money_decimal (fp_amount p) = Ok d → normalize_currency (fp_currency p) = Ok c → minor_units c = Ok u →
  at_scale u d z → ¬ fits z →
  ∃ s, evaluate (Proposal p) = Raise (Exn InvalidOperation s).
Proof.
  intros Ha Hf Hm Hd Hc Hu Hz Hbig. rewrite (evaluate_unmentioned p fields Hf) by (rewrite Ha; done). rewrite Hm.
  unfold check_required_fields. rewrite Ha. unfold validate_create_fields, validate_reconciliation_create_money.
  rewrite create_amount_spec, create_currency_spec, Hd, Hc. cbn [mbind result_bind fst snd].
  pose proof (create_money_cases c u d Hu) as Hcase.
  destruct (quantum_for_units_spec c u Hu) as (q&Hq&Hqe).
  destruct (quantize_too_large ROUND_HALF_EVEN u d q z (minor_units_sane _ _ Hu) Hqe Hz Hbig) as [s Hs].
  assert (Hv : validate_amount_for_currency d c = Raise (Exn InvalidOperation s)).
  { unfold validate_amount_for_currency. rewrite Hu. cbn [mbind result_bind]. rewrite Hq. cbn [mbind result_bind].
    by rewrite Hs. }
  exists s. unfold create_money. rewrite Hv. reflexivity.
Qed.

Lemma guard_escapes_on_large_amounts_witness :
  ∃ s, evaluate (Proposal (sample_proposal "1000000000000000000000000000.00")) = Raise (Exn InvalidOperation s).
Proof.
  apply (guard_escapes_on_large_amounts (sample_proposal "1000000000000000000000000000.00") sample_fields
    (mkdec false (10 ^ 29) (-2)) "SGD" 2 (10 ^ 29)); try (vm_compute; reflexivity); try (vm_compute; discriminate).
Defined.
