(* ===== verification/ApplyPlanProps.v ===== *)
(** * What an apply plan says

    A plan has one operation per input, with the verdict of its guard; its
    counts partition the operations; its identifier and its counts do not
    depend on the order of the inputs; and a plan whose verdicts are the
    guard's own explains every blocked operation. *)

From Stdlib Require Import Ascii ZArith SpecFloat Lia.
From stdpp Require Import base sets strings sorting numbers list.
From S2P Require Import Prelude PyDecimal PyValue Hash Json PyDate PyFloat ReconModels ReviewModels FinalMutation ApplyPlan FinalMutationProps ApplyProps.

Open Scope Z_scope.

(** ** The verdict on an input *)

Inductive verdict := Approved | Blocked | Pending.
#[global] Instance verdict_eq_dec : EqDecision verdict.
Proof. solve_decision. Defined.

Definition input_verdict (inp : ApplyPlanInput) : verdict :=
  match pi_guard_decision inp with
  | Some g => if gd_approved g then Approved else Blocked
  | None => Pending
  end.

(** How many inputs have a verdict. *)
Definition inputs_with (v : verdict) (inputs : list ApplyPlanInput) : Z :=
  Z.of_nat (length (filter (λ i, input_verdict i = v) inputs)).

Lemma inputs_with_perm v l k : l ≡ₚ k → inputs_with v l = inputs_with v k.
Proof. intros H. unfold inputs_with. by rewrite H. Qed.

Lemma inputs_with_cons v i l :
  inputs_with v (i :: l) = (if bool_decide (input_verdict i = v) then 1 else 0) + inputs_with v l.
Proof. unfold inputs_with. rewrite filter_cons. case_bool_decide; case_decide; try done; cbn [length]; lia. Qed.

Lemma inputs_with_all v l : inputs_with v l = Z.of_nat (length l) ↔ Forall (λ i, input_verdict i = v) l.
Proof.
  unfold inputs_with. induction l as [|i l IH]; [done|]. rewrite Forall_cons, filter_cons.
  pose proof (length_filter (λ i, input_verdict i = v) l) as Hle.
  case_decide; cbn [length]; [rewrite <- IH; split; [intros; split; [done|lia]|intros [_ ?]; lia]|].
  split; [lia|by intros [? _]].
Qed.

Definition operations_of (inputs : list ApplyPlanInput) : list ApplyPlanOperation := (build_operation <$> inputs).*1.

Lemma operations_of_fst inputs : operations_of inputs = (λ i, (build_operation i).1) <$> inputs.
Proof. unfold operations_of. by rewrite <- list_fmap_compose. Qed.

(** An operation reports its input. *)
Definition reports (inp : ApplyPlanInput) (o : ApplyPlanOperation) : Prop :=
  op_decision_id o = rd_decision_id (pi_decision inp) ∧ op_action o = rd_action (pi_decision inp) ∧
  op_note o = rd_note (pi_decision inp) ∧
  op_queue_item_id o = qi_queue_item_id (pi_queue_item inp) ∧
  op_candidate_id o = rc_candidate_id (qi_candidate (pi_queue_item inp)) ∧
  op_guard_decision_approved o = bool_decide (input_verdict inp = Approved) ∧
  op_is_blocked o = bool_decide (input_verdict inp = Blocked) ∧
  op_requires_human_confirmation o = negb (op_is_blocked o) ∧
  op_guard_blocked_reasons o = match pi_guard_decision inp with
                               | Some g => FinalMutationBlockedReason.value <$> gd_blocked_reasons g
                               | None => []
                               end.

Lemma build_operation_reports inp : reports inp (build_operation inp).1.
Proof.
  unfold reports, build_operation, input_verdict. cbn.
  destruct (pi_guard_decision inp) as [g|]; [destruct (gd_approved g)|]; by split_and!.
Qed.

Lemma count_operations (f : ApplyPlanOperation → bool) v inputs :
  (∀ i, f (build_operation i).1 = bool_decide (input_verdict i = v)) →
  count_ops f (operations_of inputs) = inputs_with v inputs.
Proof.
  intros Hf. rewrite operations_of_fst. unfold count_ops, inputs_with. f_equal.
  induction inputs as [|i l IH]; [done|]. rewrite fmap_cons, !filter_cons, Hf. case_bool_decide.
  - rewrite decide_True, decide_True by done. cbn [length]. by f_equal.
  - rewrite decide_False, decide_False by done. exact IH.
Qed.

Lemma blocked_count inputs : count_ops op_is_blocked (operations_of inputs) = inputs_with Blocked inputs.
Proof. apply count_operations. intros i. apply build_operation_reports. Qed.

Lemma approved_count inputs : count_ops op_approved (operations_of inputs) = inputs_with Approved inputs.
Proof.
  apply count_operations. intros i. unfold op_approved.
  destruct (build_operation_reports i) as (_&_&_&_&_&->&->&_). by destruct (input_verdict i).
Qed.

Lemma pending_count inputs : count_ops op_pending (operations_of inputs) = inputs_with Pending inputs.
Proof.
  apply count_operations. intros i. unfold op_pending.
  destruct (build_operation_reports i) as (_&_&_&_&_&->&->&_). by destruct (input_verdict i).
Qed.

Lemma verdicts_partition inputs :
  inputs_with Blocked inputs + inputs_with Approved inputs + inputs_with Pending inputs = Z.of_nat (length inputs).
Proof.
  induction inputs as [|i l IH]; [done|]. rewrite !inputs_with_cons. cbn [length].
  repeat case_bool_decide; try congruence; try lia. by destruct (input_verdict i).
Qed.

(** The plan of some inputs, in terms of their verdicts. *)
Definition plan_of (inputs : list ApplyPlanInput) (plan_label : string) : ReconciliationApplyPlan :=
  let total := Z.of_nat (length inputs) in
  let without := count_ops (λ o, is_nil (op_evidence_refs o)) (operations_of inputs) in
  MkPlan (build_plan_id (operations_of inputs) plan_label) (operations_of inputs)
    (mjoin (build_operation <$> inputs).*2 ++
     plan_level_risks total (inputs_with Blocked inputs) (inputs_with Pending inputs) without)
    (existsb op_requires_human_confirmation (operations_of inputs)) true total (inputs_with Blocked inputs)
    (inputs_with Approved inputs) (inputs_with Pending inputs)
    (plan_note_text plan_label total (inputs_with Approved inputs) (inputs_with Blocked inputs) (inputs_with Pending inputs)).

Lemma build_plan_of inputs plan_label :
  build_reconciliation_apply_plan inputs plan_label =
    if is_nil inputs then raise ValueError "build_reconciliation_apply_plan requires at least one input"
    else Ok (plan_of inputs plan_label).
Proof.
  unfold build_reconciliation_apply_plan. destruct (is_nil inputs); [done|]. cbn [raise_when mbind result_bind].
  cbv zeta. change ((build_operation <$> inputs).*1) with (operations_of inputs).
  rewrite blocked_count, approved_count, pending_count. unfold plan_of. cbv zeta.
  by replace (length (operations_of inputs)) with (length inputs) by (rewrite operations_of_fst; by rewrite length_fmap).
Qed.

Lemma confirmation_required inputs :
  existsb op_requires_human_confirmation (operations_of inputs) = true ↔ ¬ Forall (λ i, input_verdict i = Blocked) inputs.
Proof.
  rewrite operations_of_fst. induction inputs as [|i l IH]; [split; [done|by intros []]|].
  cbn [fmap list_fmap existsb]. rewrite Forall_cons. destruct (build_operation_reports i) as (_&_&_&_&_&_&Hb&->&_).
  rewrite Hb. case_bool_decide; cbn [negb orb]; [|by split; [intros _ [? _]|]].
  rewrite IH. split; [by intros H1 [_ ?]|]. intros H1 H2. by apply H1.
Qed.

(** ** The order of the inputs *)

Lemma operation_leb_total o p : operation_leb o p = true ∨ operation_leb p o = true.
Proof. unfold operation_leb. repeat (apply lex_leb_total; [apply str_leb_total|]; intros ??). apply str_leb_total. Qed.

Lemma operation_leb_trans o p q : operation_leb o p = true → operation_leb p q = true → operation_leb o q = true.
Proof. unfold operation_leb. repeat (apply lex_leb_trans; [apply str_leb_trans|]; intros ???). apply str_leb_trans. Qed.

Lemma operation_leb_key o p : operation_leb o p = true → operation_leb p o = true → operation_key o = operation_key p.
Proof. unfold operation_leb. repeat (apply lex_leb_antisym; [apply str_leb_antisym|]; intros ??). apply str_leb_antisym. Qed.

(** What the identifier covers of an operation: the sets of reasons and
    references, not their order. *)
Definition same_material (o p : ApplyPlanOperation) : Prop :=
  operation_json o = operation_json p.

Lemma build_plan_id_perm l k plan_label :
  (∀ o p, o ∈ l → p ∈ l → operation_key o = operation_key p → o = p) → l ≡ₚ k →
  build_plan_id l plan_label = build_plan_id k plan_label.
Proof.
  intros Hkey Hp. unfold build_plan_id.
  rewrite (isort_unique operation_leb operation_leb_total operation_leb_trans l k); [done| |done].
  intros o p Ho Hp' H1 H2. apply Hkey; [done..|]. by apply operation_leb_key.
Qed.

Lemma operations_key_inj inputs o p :
  NoDup ((λ i, rd_decision_id (pi_decision i)) <$> inputs) →
  o ∈ operations_of inputs → p ∈ operations_of inputs → operation_key o = operation_key p → o = p.
Proof.
  rewrite operations_of_fst. intros Hnd (i&->&Hi)%list_elem_of_fmap (j&->&Hj)%list_elem_of_fmap. intros Hk.
  f_equal. f_equal. apply (same_id_eq (λ i, rd_decision_id (pi_decision i)) inputs); [done..|]. by injection Hk.
Qed.

(** ** Risks *)

Lemma operation_risk_named inp r :
  r ∈ (build_operation inp).2 → risk_operation_id r = Some ("op-" +:+ rd_decision_id (pi_decision inp)).
Proof.
  cbn. unfold operation_risks. intros H. repeat (apply elem_of_app in H as [H|H]).
  - destruct (pi_guard_decision inp) as [g|]; [apply elem_of_app in H as [H|H]|].
    + destruct (gd_approved g); [by apply elem_of_nil in H|]. by apply list_elem_of_singleton in H as ->.
    + destruct (_ && _); [|by apply elem_of_nil in H]. by apply list_elem_of_singleton in H as ->.
    + by apply list_elem_of_singleton in H as ->.
  - destruct (match pi_guard_decision inp with Some g => gd_approved g | None => true end); [|by apply elem_of_nil in H].
    by apply list_elem_of_singleton in H as ->.
Qed.

Lemma operation_risks_named inputs r :
  r ∈ mjoin (build_operation <$> inputs).*2 → ∃ o, o ∈ operations_of inputs ∧ risk_operation_id r = Some (op_operation_id o).
Proof.
  intros (l&Hr&Hl)%list_elem_of_join. apply list_elem_of_fmap in Hl as (b&->&Hb).
  apply list_elem_of_fmap in Hb as (i&->&Hi). exists (build_operation i).1. split.
  - rewrite operations_of_fst. by apply (list_elem_of_fmap_2 (λ i, (build_operation i).1)).
  - by apply operation_risk_named.
Qed.

(** The risks of the plan as a whole name no operation. *)
Definition plan_level (r : ApplyPlanRisk) : Prop := risk_operation_id r = None.

Lemma plan_level_elem inputs plan_label r :
  r ∈ plan_risks (plan_of inputs plan_label) → plan_level r →
  r ∈ plan_level_risks (Z.of_nat (length inputs)) (inputs_with Blocked inputs) (inputs_with Pending inputs)
        (count_ops (λ o, is_nil (op_evidence_refs o)) (operations_of inputs)).
Proof.
  intros Hr Hp. unfold plan_of in Hr. cbv zeta in Hr. cbn [plan_risks] in Hr. apply elem_of_app in Hr as [Hr|Hr]; [|done].
  apply operation_risks_named in Hr as (o&_&Ho). unfold plan_level in Hp. congruence.
Qed.

Lemma all_blocked_risk total blocked pending without :
  0 < total →
  (∃ r, r ∈ plan_level_risks total blocked pending without ∧ risk_severity r = "critical") ↔ blocked = total.
Proof.
  intros Ht. unfold plan_level_risks. split.
  - intros (r&Hr&Hc). repeat (apply elem_of_app in Hr as [Hr|Hr]).
    + destruct ((0 <? total) && (0 <? blocked)); [|by apply elem_of_nil in Hr].
      destruct (Z.eqb_spec blocked total); [done|]. destruct (total / 2 <? blocked); [|by apply elem_of_nil in Hr].
      by apply list_elem_of_singleton in Hr as ->.
    + destruct (0 <? pending); [|by apply elem_of_nil in Hr]. apply list_elem_of_singleton in Hr as ->.
      cbn in Hc. by destruct (pending =? total).
    + destruct (0 <? without); [|by apply elem_of_nil in Hr]. by apply list_elem_of_singleton in Hr as ->.
  - intros ->. rewrite Z.eqb_refl. replace (0 <? total) with true by (symmetry; by apply Z.ltb_lt). cbn [andb].
    eexists. split; [left|done].
Qed.

Lemma blocked_operation_risk inputs plan_label o :
  o ∈ operations_of inputs → op_is_blocked o = true →
  ∃ r, r ∈ plan_risks (plan_of inputs plan_label) ∧ risk_operation_id r = Some (op_operation_id o) ∧
       risk_severity r = "critical" ∧
       risk_message r = ("Operation '" +:+ op_operation_id o +:+ "'") +:+ " is blocked by guard: " +:+
         py_join ", " (op_guard_blocked_reasons o).
Proof.
  rewrite operations_of_fst. intros (i&->&Hi)%list_elem_of_fmap Hb. unfold plan_of. cbn [plan_risks].
  cbn in Hb |- *. destruct (pi_guard_decision i) as [g|] eqn:Eg; [|done]. destruct (gd_approved g) eqn:Ea; [done|].
  eexists (MkRisk "guard_blocked_operation" _ _ _). split; [|split_and!; cbn; reflexivity].
  apply elem_of_app. left. apply list_elem_of_join. exists (build_operation i).2. split.
  - cbn. rewrite Eg. unfold operation_risks. rewrite Ea. left.
  - rewrite <- list_fmap_compose. by apply (list_elem_of_fmap_2 (λ i, (build_operation i).2)).
Qed.

Lemma critical_operation_risk inputs plan_label r :
  r ∈ plan_risks (plan_of inputs plan_label) → risk_severity r = "critical" →
  plan_level r ∨ ∃ o, o ∈ operations_of inputs ∧ op_is_blocked o = true ∧ risk_operation_id r = Some (op_operation_id o).
Proof.
  intros Hr Hc. unfold plan_of in Hr. cbv zeta in Hr. cbn [plan_risks] in Hr. apply elem_of_app in Hr as [Hr|Hr].
  - right. apply list_elem_of_join in Hr as (l&Hr&Hl). apply list_elem_of_fmap in Hl as (b&->&Hb).
    apply list_elem_of_fmap in Hb as (i&->&Hi). exists (build_operation i).1.
    split; [rewrite operations_of_fst; by apply (list_elem_of_fmap_2 (λ i, (build_operation i).1))|].
    split; [|by apply operation_risk_named]. cbn in Hr |- *. unfold operation_risks in Hr.
    destruct (pi_guard_decision i) as [g|]; [destruct (gd_approved g); [|done]|]; exfalso;
      repeat (apply elem_of_app in Hr as [Hr|Hr]);
      repeat match type of Hr with context [if ?c then _ else _] => destruct c end;
      first [by apply elem_of_nil in Hr|apply list_elem_of_singleton in Hr; by subst r].
  - left. unfold plan_level. unfold plan_level_risks in Hr. repeat (apply elem_of_app in Hr as [Hr|Hr]);
      repeat (case_match; try by apply elem_of_nil in Hr); by apply list_elem_of_singleton in Hr as ->.
Qed.

(** ** The claims *)

(** C22: What a plan says.  A plan is built unless there are no inputs; it is a
    dry run, has one operation per input, in order, that carries the input's
    decision and the verdict of its guard, and counts the blocked, approved and
    pending inputs, which add up to the total.  It requires a human
    confirmation exactly when some input is not blocked; it has a critical risk
    of its own exactly when every input is blocked, every blocked operation
    has a critical risk that gives its reasons, and every other critical risk
    names a blocked operation. *)
Theorem plan_reports_verdicts inputs plan_label :
  match build_reconciliation_apply_plan inputs plan_label with
  | Raise e => inputs = [] ∧ exn_cls e = ValueError
  | Ok plan =>
      inputs ≠ [] ∧ plan_is_dry_run plan = true ∧ Forall2 reports inputs (plan_operations plan) ∧
      plan_total_operations plan = Z.of_nat (length inputs) ∧
      plan_blocked_operations plan = inputs_with Blocked inputs ∧
      plan_approved_operations plan = inputs_with Approved inputs ∧
      plan_pending_guard_operations plan = inputs_with Pending inputs ∧
      plan_blocked_operations plan + plan_approved_operations plan + plan_pending_guard_operations plan =
        plan_total_operations plan ∧
      (plan_requires_human_confirmation plan = true ↔ ¬ Forall (λ i, input_verdict i = Blocked) inputs) ∧
      ((∃ r, r ∈ plan_risks plan ∧ plan_level r ∧ risk_severity r = "critical") ↔
        Forall (λ i, input_verdict i = Blocked) inputs) ∧
      (∀ o, o ∈ plan_operations plan → op_is_blocked o = true →
        ∃ r, r ∈ plan_risks plan ∧ risk_operation_id r = Some (op_operation_id o) ∧ risk_severity r = "critical" ∧
             risk_message r = ("Operation '" +:+ op_operation_id o +:+ "'") +:+ " is blocked by guard: " +:+
               py_join ", " (op_guard_blocked_reasons o)) ∧
      (∀ r, r ∈ plan_risks plan → risk_severity r = "critical" →
        plan_level r ∨ ∃ o, o ∈ plan_operations plan ∧ op_is_blocked o = true ∧ risk_operation_id r = Some (op_operation_id o))
  end.
Proof.
  rewrite build_plan_of. destruct inputs as [|i l]; [done|]. cbn [is_nil]. set (inputs := i :: l).
  assert (Hpos : 0 < Z.of_nat (length inputs)) by (unfold inputs; cbn [length]; lia).
  split; [done|]. split; [done|]. split.
  { unfold plan_of. cbn [plan_operations]. rewrite operations_of_fst.
    apply Forall2_fmap_r, Forall_Forall2_diag, Forall_true. apply build_operation_reports. }
  split; [done|]. split; [done|]. split; [done|]. split; [done|]. split; [apply verdicts_partition|].
  split; [apply confirmation_required|].
  split; [|split; [intros o Ho Hb; by apply blocked_operation_risk|apply critical_operation_risk]].
  rewrite <- inputs_with_all.
  rewrite <- (all_blocked_risk _ _ (inputs_with Pending inputs) (count_ops (λ o, is_nil (op_evidence_refs o)) (operations_of inputs)) Hpos).
  split.
  - intros (r&Hr&Hp&Hc). exists r. split; [by eapply plan_level_elem|done].
  - intros (r&Hr&Hc). exists r. split; [|split; [|done]].
    + unfold plan_of. cbn [plan_risks]. apply elem_of_app. by right.
    + unfold plan_level_risks in Hr. repeat (apply elem_of_app in Hr as [Hr|Hr]);
        repeat (case_match; try by apply elem_of_nil in Hr); by apply list_elem_of_singleton in Hr as ->.
Qed.

(** A plan is a function of the set of its inputs.  Reordering inputs that
    come from distinct decisions leaves the identifier, the counts, the note
    and the need of a confirmation as they were, and only reorders the
    operations and the risks. *)
Theorem plan_order_independent inputs inputs' plan_label :
  inputs ≠ [] → NoDup ((λ i, rd_decision_id (pi_decision i)) <$> inputs) → inputs ≡ₚ inputs' →
  ∃ p q, build_reconciliation_apply_plan inputs plan_label = Ok p ∧
         build_reconciliation_apply_plan inputs' plan_label = Ok q ∧
         plan_id p = plan_id q ∧ plan_note p = plan_note q ∧
         plan_operations p ≡ₚ plan_operations q ∧ plan_risks p ≡ₚ plan_risks q ∧
         plan_requires_human_confirmation p = plan_requires_human_confirmation q ∧
         plan_total_operations p = plan_total_operations q ∧
         plan_blocked_operations p = plan_blocked_operations q ∧
         plan_approved_operations p = plan_approved_operations q ∧
         plan_pending_guard_operations p = plan_pending_guard_operations q.
Proof.
  intros Hne Hnd Hp. assert (Hne' : inputs' ≠ []) by (intros ->; by apply Permutation_nil_r in Hp).
  rewrite !build_plan_of. destruct inputs as [|i l]; [done|]. destruct inputs' as [|i' l']; [done|]. cbn [is_nil].
  set (inputs := i :: l) in *. set (inputs' := i' :: l') in *.
  assert (Ho : operations_of inputs ≡ₚ operations_of inputs') by (rewrite !operations_of_fst; by rewrite Hp).
  assert (Hw : ∀ v, inputs_with v inputs = inputs_with v inputs') by (intros v; by apply inputs_with_perm).
  assert (Hl : length inputs = length inputs') by (by rewrite Hp).
  assert (Hc : ∀ f, count_ops f (operations_of inputs) = count_ops f (operations_of inputs'))
    by (intros f; unfold count_ops; by rewrite Ho).
  exists (plan_of inputs plan_label), (plan_of inputs' plan_label). unfold plan_of. cbv zeta. rewrite !Hw, Hl, Hc.
  cbn [plan_id plan_note plan_operations plan_risks plan_requires_human_confirmation plan_total_operations
       plan_blocked_operations plan_approved_operations plan_pending_guard_operations].
  split_and!; try reflexivity.
  - apply build_plan_id_perm; [|done]. intros o p ??. by apply (operations_key_inj inputs).
  - done.
  - by rewrite Hp.
  - apply eq_true_iff_eq. rewrite !confirmation_required. by rewrite Hp.
Qed.

(** Two inputs of distinct decisions, one of them waiting for the guard. *)
Definition sample_input (id : string) (guard : option FinalMutationGuardDecision) : ApplyPlanInput :=
  MkPlanInput (sample_decision id ("q-" +:+ id)) (sample_item ("q-" +:+ id)) guard None ["ev-1"].
Definition sample_inputs : list ApplyPlanInput :=
  [sample_input "d1" None; sample_input "d2" (Some (blocked "p-1" [FinalMutationBlockedReason.MISSING_DATE]))].

Lemma plan_order_independent_witness :
  ∃ p q, build_reconciliation_apply_plan sample_inputs "May" = Ok p ∧
         build_reconciliation_apply_plan (reverse sample_inputs) "May" = Ok q ∧ plan_id p = plan_id q.
Proof.
  destruct (plan_order_independent sample_inputs (reverse sample_inputs) "May") as (p&q&Hp&Hq&Hid&_).
  - discriminate.
  - apply (bool_decide_unpack _). vm_compute. exact I.
  - symmetry. apply reverse_Permutation.
  - exists p, q. exact (conj Hp (conj Hq Hid)).
Defined.

(** ** Plans of the guard's own verdicts *)

Lemma block_if_refuses p reasons g : block_if p reasons = Some g → refuses g.
Proof. destruct reasons as [|r l]; [done|]. intros [= <-]. apply blocked_refuses. Qed.

(** An approved CREATE or ADJUST has evidence. *)
Definition needs_evidence (p : FinalMutationProposal) : Prop :=
  fp_action p = FinalMutationAction.CREATE_FINAL_TRANSACTION ∨ fp_action p = FinalMutationAction.ADJUST_FINAL_TRANSACTION.

Lemma required_fields_evidence p : check_required_fields p = Ok None → needs_evidence p → fp_evidence_refs p ≠ [].
Proof.
  unfold check_required_fields. intros H [Ha|Ha]; rewrite Ha in H.
  - unfold validate_create_fields in H. apply bind_Ok in H as (o&_&H). unfold block_if in H.
    destruct (create_reasons p _) eqn:E; [|done]. unfold create_reasons in E.
    repeat apply app_eq_nil in E as [_ E]. by apply reason_if_nil, bool_decide_eq_false in E.
  - injection H as H. by apply adjust_reasons in H as (_&_&_&?).
Qed.

Lemma evaluate_verdict p g :
  evaluate (Proposal p) = Ok g →
  refuses g ∨ (gd_approved g = true ∧ gd_blocked_reasons g = [] ∧ (needs_evidence p → fp_evidence_refs p ≠ [])).
Proof.
  unfold evaluate, check_action. case_bool_decide; [intros [= <-]; left; apply blocked_refuses|].
  intros H'. apply bind_Ok in H' as (m&Hm&H'). unfold check_direct_mutation in Hm. apply bind_Ok in Hm as (t&_&Hm).
  injection Hm as <-. destruct (mentions_mutation _); [injection H' as <-; left; apply blocked_refuses|].
  apply bind_Ok in H' as (f&Hf&H'). destruct f as [d|].
  - injection H' as ->. left. unfold check_required_fields in Hf. destruct (fp_action p); try done.
    + unfold validate_create_fields in Hf. apply bind_Ok in Hf as (o&_&Hf). injection Hf as Hf. by eapply block_if_refuses.
    + injection Hf as Hf. by eapply block_if_refuses.
  - unfold approve in H'. apply bind_Ok in H' as (pv&_&H'). injection H' as <-. right. split; [done|]. split; [done|].
    by apply required_fields_evidence.
Qed.

(** The proposal of an input and the guard's decision on it. *)
Definition guarded (inp : ApplyPlanInput) : Prop :=
  ∃ p g, pi_proposal inp = Some p ∧ pi_guard_decision inp = Some g ∧ evaluate (Proposal p) = Ok g.

(** What the operation of a guarded input says of its proposal. *)
Definition explains (inp : ApplyPlanInput) (o : ApplyPlanOperation) : Prop :=
  op_source_apply_result_ref o = fp_proposal_id <$> pi_proposal inp ∧
  op_is_blocked o = negb (op_guard_decision_approved o) ∧
  (op_is_blocked o = true ↔ op_guard_blocked_reasons o ≠ []) ∧
  ∀ p, pi_proposal inp = Some p → op_is_blocked o = false → needs_evidence p →
    op_evidence_refs o = fp_evidence_refs p ∧ op_evidence_refs o ≠ [].

Lemma guarded_explains inp : guarded inp → explains inp (build_operation inp).1.
Proof.
  intros (p&g&Hp&Hg&He). unfold explains, build_operation, chosen_evidence_refs. rewrite Hp, Hg. cbn.
  destruct (evaluate_verdict p g He) as [(Ha&_&_&Hr)|(Ha&Hr&Hev)]; rewrite Ha; cbn.
  - split_and!; [done..| |done]. split; [|done]. intros _. by destruct (gd_blocked_reasons g).
  - rewrite Hr. cbn. split_and!; [done..|]. intros p' [= <-] _ Hn. specialize (Hev Hn). by destruct (fp_evidence_refs p).
Qed.

(** A plan built from the guard's own decisions on the proposals of its
    inputs has no pending operation, and every operation is either approved
    or blocked: it is blocked exactly when it gives reasons, and an approved
    CREATE or ADJUST carries the evidence of its proposal, which is not empty. *)
Theorem guarded_plan_explains inputs plan_label plan :
  Forall guarded inputs → build_reconciliation_apply_plan inputs plan_label = Ok plan →
  plan_pending_guard_operations plan = 0 ∧
  plan_blocked_operations plan + plan_approved_operations plan = plan_total_operations plan ∧
  Forall2 explains inputs (plan_operations plan).
Proof.
  intros Hg. rewrite build_plan_of. destruct (is_nil inputs); [done|]. intros [= <-].
  assert (Hp : inputs_with Pending inputs = 0).
  { induction Hg as [|i l (p&g&_&Hi&_) _ IH]; [done|]. rewrite inputs_with_cons, IH. unfold input_verdict. rewrite Hi.
    by destruct (gd_approved g). }
  pose proof (verdicts_partition inputs). unfold plan_of. cbn [plan_pending_guard_operations plan_blocked_operations
    plan_approved_operations plan_total_operations plan_operations]. split_and!; [done|lia|].
  rewrite operations_of_fst. apply Forall2_fmap_r, Forall_Forall2_diag. apply (Forall_impl _ _ _ Hg). apply guarded_explains.
Qed.

(** An input whose proposal the guard has seen. *)
Definition guarded_input (id amount : string) : ApplyPlanInput :=
  MkPlanInput (sample_decision id ("q-" +:+ id)) (sample_item ("q-" +:+ id))
    (match evaluate (Proposal (sample_proposal amount)) with Ok g => Some g | Raise _ => None end)
    (Some (sample_proposal amount)) [].

Lemma guarded_plan_explains_witness :
  ∃ plan, build_reconciliation_apply_plan [guarded_input "d1" "10.50"; guarded_input "d2" "10.505"] "" = Ok plan ∧
    plan_blocked_operations plan = 1 ∧ plan_approved_operations plan = 1 ∧ plan_pending_guard_operations plan = 0.
Proof.
  destruct (build_reconciliation_apply_plan [guarded_input "d1" "10.50"; guarded_input "d2" "10.505"] "") as [plan|e] eqn:E;
    [|vm_compute in E; discriminate E].
  exists plan. split; [reflexivity|]. assert (Hg : Forall guarded [guarded_input "d1" "10.50"; guarded_input "d2" "10.505"]).
  { repeat constructor; (eexists _, _; split; [reflexivity|]; split; [vm_compute; reflexivity|vm_compute; reflexivity]). }
  destruct (guarded_plan_explains _ "" plan Hg E) as (Hp&_&_). vm_compute in E. injection E as <-.
  split; [reflexivity|]. split; [reflexivity|exact Hp].
Defined.
