(* ===== verification/ApplyStoreProps.v ===== *)
(** * The stored batches keep their promises

    Whatever calls are made and wherever a process dies, the audit rows of a
    batch retrace its life and end in its state, and a batch is applied at
    most once; without deaths the stored manager behaves as the one in memory;
    and a batch whose process died while applying it is refused ever after. *)

From Stdlib Require Import Ascii ZArith SpecFloat Lia.
From stdpp Require Import base sets strings sorting numbers list relations.
From S2P Require Import Prelude PyDecimal PyValue Json JsonParse JsonRoundtrip PyDate ReconModels ReviewModels BoundCodec ApplyRuntime ApplyProps BatchApply Snapshot SnapshotProps CodecProps Sqlite ApplyStore.

Open Scope Z_scope.

(** ** Rows of a batch *)

Lemma state_enum s : enum_of_value (BatchApplyState.value s) = Some s.
Proof. change (BatchApplyState.value s) with (enum_value s). apply enum_of_value_of. Qed.

Lemma state_of_text_value s : state_of_text (BatchApplyState.value s) = Ok s.
Proof. unfold state_of_text. by rewrite state_enum. Qed.

Definition row_ids (t : ApplyTables) : list string := bt_batch_id <$> tb_batches t.

Lemma find_row b l r : List.find (λ r, String.eqb (bt_batch_id r) b) l = Some r → r ∈ l ∧ bt_batch_id r = b.
Proof. intros H. apply List.find_some in H as [H1 H2%String.eqb_eq]. by rewrite list_elem_of_In. Qed.

Lemma get_batch_row_None b t : get_batch_row b t = None ↔ b ∉ row_ids t.
Proof.
  unfold get_batch_row, row_ids. induction (tb_batches t) as [|r l IH]; cbn [List.find]; [by split; [intros _ ?%elem_of_nil|]|].
  rewrite fmap_cons, not_elem_of_cons, <- IH. destruct (String.eqb_spec (bt_batch_id r) b) as [->|]; [by split; [|intros []]|].
  split; [by intros ->|by intros []].
Qed.

Lemma find_snoc b l r : List.find (λ r, String.eqb (bt_batch_id r) b) (l ++ [r]) =
  match List.find (λ r, String.eqb (bt_batch_id r) b) l with
  | Some r' => Some r'
  | None => if String.eqb (bt_batch_id r) b then Some r else None
  end.
Proof. induction l as [|r' l IH]; [done|]. cbn. destruct (String.eqb (bt_batch_id r') b); [done|]. exact IH. Qed.

Lemma find_update b b' f (l : list BatchRow) : (∀ r, bt_batch_id (f r) = bt_batch_id r) →
  List.find (λ r, String.eqb (bt_batch_id r) b) ((λ r, if String.eqb (bt_batch_id r) b' then f r else r) <$> l) =
  (if String.eqb b b' then f else id) <$> List.find (λ r, String.eqb (bt_batch_id r) b) l.
Proof.
  intros Hf. induction l as [|r l IH]; cbn; [done|].
  destruct (String.eqb_spec (bt_batch_id r) b') as [E'|E']; rewrite ?Hf;
    (destruct (String.eqb_spec (bt_batch_id r) b) as [E|E]; [|exact IH]); cbn.
  - rewrite <- E, <- E', String.eqb_refl. done.
  - destruct (String.eqb_spec b b') as [->|]; done.
Qed.

Lemma ids_update b f (l : list BatchRow) : (∀ r, bt_batch_id (f r) = bt_batch_id r) →
  bt_batch_id <$> ((λ r, if String.eqb (bt_batch_id r) b then f r else r) <$> l) = bt_batch_id <$> l.
Proof.
  intros Hf. rewrite <- list_fmap_compose. apply list_fmap_ext. intros _ r _. cbn.
  by destruct (String.eqb (bt_batch_id r) b).
Qed.

(** ** What the statements leave *)

(** The metadata of a start, always printable. *)
Definition start_reason (s : option BatchApplyState.t) : string :=
  match s with None => "apply_started" | Some _ => "apply_retry_started" end.
Definition start_metadata (b : string) (s : option BatchApplyState.t) (now : string) : json :=
  JDict [("batch_id", JStr b); ("state", JStr (BatchApplyState.value BatchApplyState.APPLYING));
         ("previous_state", opt_json JStr (state_text s)); ("reason", JStr (start_reason s)); ("transition_at", JStr now)].

Definition key_taken (key : option string) (t : ApplyTables) : bool :=
  existsb (λ r, match key, bt_idempotency_key r with Some k, Some k' => String.eqb k k' | _, _ => false end) (tb_batches t).

(** The tables once a batch is being applied. *)
Definition started (b : string) (s : option BatchApplyState.t) (key : option string) (now : string) (t : ApplyTables) :
    ApplyTables :=
  MkTables
    (match s with
     | None => tb_batches t ++ [MkBatchRow b (BatchApplyState.value BatchApplyState.APPLYING) key None None]
     | Some _ => (λ r, if String.eqb (bt_batch_id r) b then mark_applying r else r) <$> tb_batches t
     end)
    (tb_transitions t ++ [MkTransition b (state_text s) (BatchApplyState.value BatchApplyState.APPLYING) (start_reason s)
                            (canonical (start_metadata b s now))]).

Definition ended (b : string) (s : BatchApplyState.t) (reason text : string) (r : BatchApplyResult) (t : ApplyTables) :
    ApplyTables :=
  MkTables ((λ row, if String.eqb (bt_batch_id row) b then mark_final s text (br_error_message r) row else row) <$> tb_batches t)
    (tb_transitions t ++ [MkTransition b (Some (BatchApplyState.value BatchApplyState.APPLYING)) (BatchApplyState.value s)
                            reason (canonical (br_audit_metadata r))]).

Definition rejected (b : string) (s : BatchApplyState.t) (reason : string) (r : BatchApplyResult) (t : ApplyTables) :
    ApplyTables :=
  MkTables (tb_batches t)
    (tb_transitions t ++ [MkTransition b (Some (BatchApplyState.value s)) (BatchApplyState.value BatchApplyState.REJECTED)
                            reason (canonical (br_audit_metadata r))]).

Lemma transition_to_applying_spec b s key now t :
  (s = None → get_batch_row b t = None) →
  transition_to_applying b s key now (at_rest t) =
    if match s with None => key_taken key t | Some _ => false end
    then (raise IntegrityError "idempotency_key", at_rest t) else (Ok tt, at_rest (started b s key now t)).
Proof.
  intros Hb. unfold transition_to_applying, insert_transition, serialize_json.
  assert (Hp : printable (start_metadata b s now) = true) by by destruct s as [[]|].
  fold (start_reason s). fold (start_metadata b s now). rewrite Hp. destruct s as [s|].
  - reflexivity.
  - specialize (Hb eq_refl). apply get_batch_row_None in Hb.
    unfold insert_batch. cbn [bt_batch_id bt_idempotency_key]. unfold mbind, db_bind, execute. cbn [cn_tables at_rest].
    assert (Hx : existsb (λ r', String.eqb (bt_batch_id r') b) (tb_batches t) = false).
    { apply not_true_iff_false. intros (r&Hr&E%String.eqb_eq)%List.existsb_exists. apply Hb.
      unfold row_ids. rewrite <- E. apply list_elem_of_fmap_2. by apply list_elem_of_In. }
    rewrite Hx. fold (key_taken key t). by destruct (key_taken key t).
Qed.

Lemma printable_member k v d : printable (JDict d) = true → (k, v) ∈ d → printable v = true.
Proof. cbn. intros H Hin. rewrite List.forallb_forall in H. by apply (H (k, v)), list_elem_of_In. Qed.

Lemma transition_to_final_spec b s reason r t :
  transition_to_final_state b s reason r (at_rest t) =
    if printable (batch_result_dict r) then (Ok tt, at_rest (ended b s reason (canonical (batch_result_dict r)) r t))
    else (raise ValueError "json.dumps", at_rest t).
Proof.
  unfold transition_to_final_state, serialize_batch_result, serialize_json.
  destruct (printable (batch_result_dict r)) eqn:Hp; [|done].
  assert (Ha : printable (br_audit_metadata r) = true).
  { apply (printable_member "audit_metadata" _ _ Hp). do 3 right. left. }
  unfold insert_transition, serialize_json. by rewrite Ha.
Qed.

Lemma record_rejected_spec b s reason r t :
  record_rejected_attempt b s reason r (at_rest t) =
    if printable (br_audit_metadata r) then (Ok tt, at_rest (rejected b s reason r t))
    else (raise ValueError "json.dumps", at_rest t).
Proof. unfold record_rejected_attempt, insert_transition, serialize_json. by destruct (printable _). Qed.

(** ** The life of a stored batch *)

Definition stored_state (b : string) (t : ApplyTables) : option BatchApplyState.t :=
  r ← get_batch_row b t; enum_of_value (bt_current_state r).

(** What a run does to the state of its batch, as the audit rows record it. *)
Inductive stored_step : option BatchApplyState.t → BatchApplyState.t → Prop :=
  | step_start : stored_step None BatchApplyState.APPLYING
  | step_retry : stored_step (Some BatchApplyState.FAILED) BatchApplyState.APPLYING
  | step_fail : stored_step (Some BatchApplyState.APPLYING) BatchApplyState.FAILED
  | step_apply : stored_step (Some BatchApplyState.APPLYING) BatchApplyState.APPLIED.

Inductive life : list (option string * string) → option BatchApplyState.t → Prop :=
  | life_none : life [] None
  | life_step l s s' : life l s → stored_step s s' →
      life (l ++ [(state_text s, BatchApplyState.value s')]) (Some s').

(** The audit rows of a batch, refused attempts left out. *)
Definition is_attempt (b : string) (r : TransitionRow) : Prop :=
  tr_batch_id r = b ∧ tr_new_state r ≠ BatchApplyState.value BatchApplyState.REJECTED.
#[global] Instance is_attempt_dec b r : Decision (is_attempt b r).
Proof. unfold is_attempt. apply _. Defined.

Definition trail (b : string) (t : ApplyTables) : list (option string * string) :=
  (λ r, (tr_previous_state r, tr_new_state r)) <$> filter (is_attempt b) (tb_transitions t).

(** The stored result of an applied batch. *)
Definition stored_success (b : string) (t : ApplyTables) (br : BatchApplyResult) : Prop :=
  ∃ r, get_batch_row b t = Some r ∧ bt_applied_result_json r = Some (canonical (batch_result_dict br)) ∧
    br_state br = BatchApplyState.APPLIED ∧ all_succeeded (br_results br).

Definition store_ok (t : ApplyTables) : Prop :=
  NoDup (row_ids t) ∧
  (∀ r, r ∈ tb_batches t → ∃ s, bt_current_state r = BatchApplyState.value s) ∧
  (∀ b, life (trail b t) (stored_state b t)) ∧
  (∀ b, stored_state b t = Some BatchApplyState.APPLIED → ∃ br, stored_success b t br).

Lemma life_state l s : life l (Some s) → s ∈ [BatchApplyState.APPLYING; BatchApplyState.FAILED; BatchApplyState.APPLIED].
Proof. intros H. inversion H as [|l' s0 s' _ Hs]; subst. rewrite !elem_of_cons. destruct Hs; auto. Qed.

Lemma stored_state_value b t r s :
  get_batch_row b t = Some r → bt_current_state r = BatchApplyState.value s → stored_state b t = Some s.
Proof.
  intros Hr Hs. unfold stored_state. rewrite Hr. cbn [mbind option_bind]. rewrite Hs. apply state_enum.
Qed.

Lemma stored_row b t s : stored_state b t = Some s →
  ∃ r, get_batch_row b t = Some r ∧ bt_current_state r = BatchApplyState.value s.
Proof.
  unfold stored_state. intros H. destruct (get_batch_row b t) as [r|]; [|done]. cbn [mbind option_bind] in H.
  exists r. split; [done|]. symmetry. exact (enum_of_value_Some _ _ H).
Qed.

Lemma state_read b t : store_ok t → state_from_row (get_batch_row b t) = Ok (stored_state b t).
Proof.
  intros (_&Hv&_&_). unfold state_from_row, stored_state. destruct (get_batch_row b t) as [r|] eqn:E; [|done].
  destruct (find_row _ _ _ E) as [Hin _]. destruct (Hv r Hin) as [s Hs]. cbn [mbind option_bind]. by rewrite Hs, state_of_text_value, state_enum.
Qed.

Lemma stored_none b t : store_ok t → stored_state b t = None → get_batch_row b t = None.
Proof.
  intros Hok H. destruct (get_batch_row b t) as [r|] eqn:E; [|done]. pose proof (state_read b t Hok) as Hr.
  rewrite E, H in Hr. unfold state_from_row in Hr. destruct (state_of_text (bt_current_state r)); discriminate Hr.
Qed.

Lemma trail_snoc b t r rows : tb_transitions rows = tb_transitions t ++ [r] →
  trail b rows = trail b t ++ (if decide (is_attempt b r) then [(tr_previous_state r, tr_new_state r)] else []).
Proof.
  intros H. unfold trail. rewrite H, filter_app, fmap_app. f_equal. rewrite filter_cons. by case_decide.
Qed.

(** The elementary changes of the tables, on behalf of a batch. *)
Inductive micro (b : string) (t : ApplyTables) : ApplyTables → Prop :=
  | micro_start s key now : stored_state b t = s → (s = None ∨ s = Some BatchApplyState.FAILED) →
      micro b t (started b s key now t)
  | micro_fail reason text r : stored_state b t = Some BatchApplyState.APPLYING →
      micro b t (ended b BatchApplyState.FAILED reason text r t)
  | micro_apply reason r : stored_state b t = Some BatchApplyState.APPLYING →
      br_state r = BatchApplyState.APPLIED → all_succeeded (br_results r) →
      micro b t (ended b BatchApplyState.APPLIED reason (canonical (batch_result_dict r)) r t)
  | micro_reject s reason r : stored_state b t = Some s → micro b t (rejected b s reason r t).

(** The row of a batch after a start and after an end. *)
Lemma row_started b s key now t b' : store_ok t → stored_state b t = s →
  get_batch_row b' (started b s key now t) =
    if String.eqb b' b
    then Some (match get_batch_row b t with
               | Some r => mark_applying r
               | None => MkBatchRow b (BatchApplyState.value BatchApplyState.APPLYING) key None None
               end)
    else get_batch_row b' t.
Proof.
  intros Hok Hs. unfold started, get_batch_row. cbn [tb_batches]. destruct s as [s|].
  - rewrite find_update by done. destruct (String.eqb_spec b' b) as [->|]; [|by rewrite option_fmap_id].
    apply stored_row in Hs as (r&Hr&_). unfold get_batch_row in Hr. by rewrite Hr.
  - rewrite find_snoc. cbn [bt_batch_id]. destruct (String.eqb_spec b' b) as [->|Hne].
    + pose proof (stored_none b t Hok Hs) as Hn. unfold get_batch_row in Hn. by rewrite Hn, String.eqb_refl.
    + destruct (List.find _ _); [done|]. by destruct (String.eqb_spec b b').
Qed.

Lemma row_ended b s reason text r t b' :
  get_batch_row b' (ended b s reason text r t) =
    (if String.eqb b' b then mark_final s text (br_error_message r) else id) <$> get_batch_row b' t.
Proof. unfold ended, get_batch_row. cbn [tb_batches]. by rewrite find_update. Qed.

Lemma state_started b s key now t b' : store_ok t → stored_state b t = s →
  stored_state b' (started b s key now t) = if String.eqb b' b then Some BatchApplyState.APPLYING else stored_state b' t.
Proof.
  intros Hok Hs. unfold stored_state. rewrite (row_started b s key now t b' Hok Hs).
  destruct (String.eqb b' b); [|done]. cbn [mbind option_bind].
  assert (bt_current_state (match get_batch_row b t with
    | Some r => mark_applying r
    | None => MkBatchRow b (BatchApplyState.value BatchApplyState.APPLYING) key None None end) =
    BatchApplyState.value BatchApplyState.APPLYING) as -> by by destruct (get_batch_row b t).
  apply state_enum.
Qed.

Lemma state_ended b s reason text r t b' : is_Some (get_batch_row b t) →
  stored_state b' (ended b s reason text r t) = if String.eqb b' b then Some s else stored_state b' t.
Proof.
  intros [row Hrow]. unfold stored_state. rewrite row_ended. destruct (String.eqb_spec b' b) as [->|].
  - rewrite Hrow. apply state_enum.
  - by rewrite option_fmap_id.
Qed.

Lemma trail_started b s key now t b' : trail b' (started b s key now t) =
  trail b' t ++ (if String.eqb b' b then [(state_text s, BatchApplyState.value BatchApplyState.APPLYING)] else []).
Proof.
  erewrite trail_snoc by reflexivity. f_equal. unfold is_attempt. cbn [tr_batch_id tr_previous_state tr_new_state].
  destruct (String.eqb_spec b' b) as [->|Hne]; case_decide as Hd; try done; [|by destruct Hd].
  by destruct Hd.
Qed.

Lemma trail_ended b s reason text r t b' : s ≠ BatchApplyState.REJECTED →
  trail b' (ended b s reason text r t) =
  trail b' t ++ (if String.eqb b' b
                 then [(Some (BatchApplyState.value BatchApplyState.APPLYING), BatchApplyState.value s)] else []).
Proof.
  intros Hs. erewrite trail_snoc by reflexivity. f_equal. unfold is_attempt.
  cbn [tr_batch_id tr_previous_state tr_new_state].
  destruct (String.eqb_spec b' b) as [->|Hne]; case_decide as Hd; try done; [|by destruct Hd].
  destruct Hd. split; [done|]. intros E. apply Hs. by destruct s.
Qed.

Lemma trail_rejected b s reason r t b' : trail b' (rejected b s reason r t) = trail b' t.
Proof.
  erewrite trail_snoc by reflexivity. rewrite decide_False; [apply app_nil_r|]. by intros [_ []].
Qed.

Lemma success_started b s key now t b' br : store_ok t → stored_state b t = s → b' ≠ b →
  stored_success b' t br → stored_success b' (started b s key now t) br.
Proof.
  intros Hok Hs Hne (r&Hr&H). exists r. split; [|done]. rewrite (row_started b s key now t b' Hok Hs).
  by destruct (String.eqb_spec b' b).
Qed.

Lemma micro_started_ok b s key now t : store_ok t → stored_state b t = s →
  (s = None ∨ s = Some BatchApplyState.FAILED) → store_ok (started b s key now t).
Proof.
  intros Hok Hs Hc. pose proof Hok as (Hnd&Hv&Hl&Ha). split_and!.
  - unfold row_ids, started. cbn [tb_batches]. destruct s as [s|].
    + rewrite (ids_update b mark_applying) by done. done.
    + rewrite fmap_app. apply NoDup_app. split_and!; [done| |apply NoDup_singleton].
      intros x Hx ->%list_elem_of_singleton. cbn in Hx. apply (stored_none b t Hok), get_batch_row_None in Hs. by apply Hs.
  - intros r Hr. unfold started in Hr. cbn [tb_batches] in Hr. destruct s as [s|].
    + apply list_elem_of_fmap in Hr as (r0&->&Hr). destruct (String.eqb _ b); [by exists BatchApplyState.APPLYING|auto].
    + apply elem_of_app in Hr as [Hr|Hr]; [auto|]. apply list_elem_of_singleton in Hr as ->. by exists BatchApplyState.APPLYING.
  - intros b'. rewrite trail_started, (state_started b s key now t b' Hok Hs).
    destruct (String.eqb_spec b' b) as [->|]; [|rewrite app_nil_r; apply Hl].
    apply life_step; [rewrite <- Hs; apply Hl|]. destruct Hc as [->| ->]; constructor.
  - intros b'. rewrite (state_started b s key now t b' Hok Hs). destruct (String.eqb_spec b' b) as [->|Hne]; [done|].
    intros H. destruct (Ha b' H) as [br Hbr]. exists br. by apply success_started.
Qed.

Lemma micro_ended_ok b s reason text r t : store_ok t → stored_state b t = Some BatchApplyState.APPLYING →
  (s = BatchApplyState.FAILED ∨ s = BatchApplyState.APPLIED ∧ text = canonical (batch_result_dict r) ∧
     br_state r = BatchApplyState.APPLIED ∧ all_succeeded (br_results r)) →
  store_ok (ended b s reason text r t).
Proof.
  intros (Hnd&Hv&Hl&Ha) Hs Hc. destruct (stored_row _ _ _ Hs) as (row&Hrow&_).
  assert (Hsome : is_Some (get_batch_row b t)) by by exists row.
  assert (Hnr : s ≠ BatchApplyState.REJECTED) by by destruct Hc as [->|[-> _]].
  split_and!.
  - unfold row_ids, ended. cbn [tb_batches]. by rewrite (ids_update b (mark_final s text (br_error_message r))).
  - intros x Hx. unfold ended in Hx. cbn [tb_batches] in Hx. apply list_elem_of_fmap in Hx as (r0&->&Hr).
    destruct (String.eqb _ b); [by exists s|auto].
  - intros b'. rewrite trail_ended, state_ended by done.
    destruct (String.eqb_spec b' b) as [->|]; [|rewrite app_nil_r; apply Hl]. apply (life_step _ (Some BatchApplyState.APPLYING)); [rewrite <- Hs; apply Hl|].
    destruct Hc as [->|[-> _]]; constructor.
  - intros b'. rewrite state_ended by done. intros H. destruct (String.eqb_spec b' b) as [E|Hne]; [subst b'|].
    + injection H as Hs'. destruct Hc as [?|(->&->&Hst&Hall)]; [congruence|]. exists r. eexists. split.
      { rewrite row_ended, String.eqb_refl, Hrow. reflexivity. } done.
    + destruct (Ha b' H) as (br&row'&Hr'&Hbr). exists br, row'. split; [|done]. rewrite row_ended, Hr'.
      by destruct (String.eqb_spec b' b).
Qed.

Lemma micro_ok b t t' : store_ok t → micro b t t' → store_ok t'.
Proof.
  intros Hok [s key now Hs Hc|reason text r Hs|reason r Hs Hst Hall|s reason r Hs].
  - by apply micro_started_ok.
  - apply micro_ended_ok; auto.
  - apply micro_ended_ok; [done..|]. right. by split_and!.
  - destruct Hok as (Hnd&Hv&Hl&Ha). split_and!; [done|done| |done]. intros b'. rewrite trail_rejected. apply Hl.
Qed.

Lemma micros_ok b t t' : store_ok t → rtc (micro b) t t' → store_ok t'.
Proof. intros Hok H. induction H as [|t t1 t' H _ IH]; [done|]. apply IH. by eapply micro_ok. Qed.

(** ** Calls and deaths *)

Lemma fail_micro b results msg now t : stored_state b t = Some BatchApplyState.APPLYING →
  ∃ x t', SQLite.fail b results msg now (at_rest t) = (x, at_rest t') ∧ rtc (micro b) t t'.
Proof.
  intros Hs. unfold SQLite.fail. set (r := SQLite.build_failed_result b results msg now).
  pose proof (transition_to_final_spec b BatchApplyState.FAILED "apply_failed" r t) as Hf.
  destruct (printable (batch_result_dict r)).
  - exists (Ok r). eexists. split; [by rewrite (db_bind_Ok _ _ _ _ _ Hf)|]. apply rtc_once. by apply micro_fail.
  - exists (raise ValueError "json.dumps"), t. split; [by rewrite (db_bind_Raise _ _ _ _ _ Hf)|done].
Qed.

Lemma finish_micro b results refs now now' t : stored_state b t = Some BatchApplyState.APPLYING →
  ∃ x t', SQLite.finish b results refs now now' (at_rest t) = (x, at_rest t') ∧ rtc (micro b) t t'.
Proof.
  intros Hs. unfold SQLite.finish. destruct ((0 <? count_results false results) || _) eqn:Ec; [by apply fail_micro|].
  apply count_results_succeeded in Ec. set (r := MkBatchResult b _ results _ None now false).
  pose proof (transition_to_final_spec b BatchApplyState.APPLIED "applied_successfully" r t) as Hf.
  destruct (printable (batch_result_dict r)).
  - exists (Ok r). eexists. split; [by rewrite (db_bind_Ok _ _ _ _ _ Hf)|]. apply rtc_once. by apply micro_apply.
  - exists (raise ValueError "json.dumps"), t. split; [by rewrite (db_bind_Raise _ _ _ _ _ Hf)|done].
Qed.

Lemma run_micro b items decisions refs req clock t : stored_state b t = Some BatchApplyState.APPLYING →
  ∃ x t', SQLite.run b items decisions refs req clock (at_rest t) = (x, at_rest t') ∧ rtc (micro b) t t'.
Proof.
  intros Hs. unfold SQLite.run. destruct (apply_decisions _ _ _ _ _) as [results|e]; [by apply finish_micro|].
  destruct (exn_isinstance _ _); [by apply fail_micro|].
  set (msg := "Unexpected batch apply error: " +:+ _).
  destruct (fail_micro b [] msg (clock O) t Hs) as ([a|e']&t'&Hf&Hm).
  - do 2 eexists. split; [|exact Hm]. rewrite (db_bind_Ok _ _ _ _ _ Hf). reflexivity.
  - do 2 eexists. split; [|exact Hm]. by rewrite (db_bind_Raise _ _ _ _ _ Hf).
Qed.

Lemma reject_micro b row s reason msg now t : stored_state b t = Some s →
  ∃ x t', SQLite.reject b row s reason msg now (at_rest t) = (x, at_rest t') ∧ rtc (micro b) t t'.
Proof.
  intros Hs. unfold SQLite.reject. destruct (result_from_row row) as [prev|e].
  - set (r := SQLite.build_rejected_result b s reason msg now prev).
    pose proof (record_rejected_spec b s reason r t) as Hr. rewrite (db_bind_Ok (lift (Ok prev)) _ (at_rest t) prev (at_rest t) eq_refl).
    fold r. destruct (printable (br_audit_metadata r)).
    + exists (Ok r). eexists. split; [by rewrite (db_bind_Ok _ _ _ _ _ Hr)|]. apply rtc_once. by apply micro_reject.
    + exists (raise ValueError "json.dumps"), t. split; [by rewrite (db_bind_Raise _ _ _ _ _ Hr)|done].
  - exists (Raise e), t. split; [|done]. by rewrite (db_bind_Raise (lift (Raise e)) _ (at_rest t) e (at_rest t) eq_refl).
Qed.

(** How a call begins. *)
Lemma apply_batch_reads b items decisions refs req key clock t : store_ok t →
  SQLite.apply_batch b items decisions refs req key clock (at_rest t) =
    match (s ← stored_state b t; why ← SQLite.refusal_of b s; Some (s, why)) with
    | Some (s, (reason, message)) => SQLite.reject b (get_batch_row b t) s reason message (clock O) (at_rest t)
    | None => (transition_to_applying b (stored_state b t) key (clock O);;
               SQLite.run b items decisions refs req clock) (at_rest t)
    end.
Proof.
  intros Hok. unfold SQLite.apply_batch.
  rewrite (db_bind_Ok (read (get_batch_row b)) _ (at_rest t) (get_batch_row b t) (at_rest t) eq_refl).
  rewrite (db_bind_Ok (lift (state_from_row (get_batch_row b t))) _ (at_rest t) (stored_state b t) (at_rest t))
    by (unfold lift; by rewrite state_read).
  by destruct (s ← stored_state b t; why ← SQLite.refusal_of b s; Some (s, why)) as [[s [reason message]]|].
Qed.

Lemma not_refused b t : store_ok t → (s ← stored_state b t; why ← SQLite.refusal_of b s; Some (s, why)) = None →
  stored_state b t = None ∨ stored_state b t = Some BatchApplyState.FAILED.
Proof.
  intros (_&_&Hl&_) H. destruct (stored_state b t) as [s|] eqn:E; [|by left]. right.
  pose proof (Hl b) as Hlb. rewrite E in Hlb. apply life_state in Hlb. rewrite !elem_of_cons, elem_of_nil in Hlb.
  destruct Hlb as [->|[->|[->|[]]]]; done.
Qed.

Lemma start_once b s key now t x c' : store_ok t → stored_state b t = s → (s = None ∨ s = Some BatchApplyState.FAILED) →
  transition_to_applying b s key now (at_rest t) = (x, c') →
  (x = Ok tt ∧ c' = at_rest (started b s key now t)) ∨ (x = raise IntegrityError "idempotency_key" ∧ c' = at_rest t ∧ s = None).
Proof.
  intros Hok Hs Hc. rewrite transition_to_applying_spec by (intros ->; by apply stored_none).
  destruct (match s with None => key_taken key t | Some _ => false end) eqn:E; intros [= <- <-]; [right|by left].
  by destruct s.
Qed.

Lemma apply_batch_micro b items decisions refs req key clock t x c' : store_ok t →
  SQLite.apply_batch b items decisions refs req key clock (at_rest t) = (x, c') →
  ∃ t', c' = at_rest t' ∧ rtc (micro b) t t'.
Proof.
  intros Hok. rewrite apply_batch_reads by done.
  destruct (s ← stored_state b t; why ← SQLite.refusal_of b s; Some (s, why)) as [[s [reason message]]|] eqn:E.
  - assert (Hs : stored_state b t = Some s).
    { destruct (stored_state b t) as [s'|]; [|done]. cbn in E. destruct (SQLite.refusal_of b s'); [|done]. by injection E as ->. }
    destruct (reject_micro b (get_batch_row b t) s reason message (clock O) t Hs) as (x'&t'&H&Hm). rewrite H.
    intros [= <- <-]. by exists t'.
  - pose proof (not_refused b t Hok E) as Hc.
    destruct (transition_to_applying b (stored_state b t) key (clock O) (at_rest t)) as [y c1] eqn:Et.
    destruct (start_once _ _ _ _ _ _ _ Hok eq_refl Hc Et) as [[-> ->]|(->&->&_)].
    + rewrite (db_bind_Ok _ _ _ _ _ Et).
      assert (Hs : stored_state b (started b (stored_state b t) key (clock O) t) = Some BatchApplyState.APPLYING)
        by by rewrite state_started, String.eqb_refl.
      destruct (run_micro b items decisions refs req clock _ Hs) as (x'&t'&H&Hm). rewrite H. intros [= <- <-].
      exists t'. split; [done|]. eapply rtc_l; [|exact Hm]. by apply micro_start.
    + rewrite (db_bind_Raise _ _ _ _ _ Et). intros [= <- <-]. by exists t.
Qed.

(** One call, or a process that dies between its two commits: what is
    committed afterwards. *)
Inductive store_step (t t' : ApplyTables) : Prop :=
  | stored_call b items decisions refs req key clock x c :
      SQLite.apply_batch b items decisions refs req key clock (at_rest t) = (x, c) → t' = cn_committed c → store_step t t'
  | stored_death b key now c :
      (s ← stored_state b t; why ← SQLite.refusal_of b s; Some (s, why)) = None →
      transition_to_applying b (stored_state b t) key now (at_rest t) = (Ok tt, c) → t' = cn_committed c → store_step t t'.

Definition new_store : ApplyTables := MkTables [] [].
Definition store_reachable (t : ApplyTables) : Prop := rtc store_step new_store t.

Lemma step_micro t t' : store_ok t → store_step t t' → ∃ b, rtc (micro b) t t'.
Proof.
  intros Hok [b items decisions refs req key clock x c Hc ->|b key now c He Hc ->].
  - destruct (apply_batch_micro _ _ _ _ _ _ _ _ _ _ Hok Hc) as (t'&->&Hm). by exists b.
  - pose proof (not_refused b t Hok He) as Hs.
    destruct (start_once _ _ _ _ _ _ _ Hok eq_refl Hs Hc) as [[_ ->]|(?&_)]; [|done]. exists b. apply rtc_once.
    by apply micro_start.
Qed.

Lemma new_store_ok : store_ok new_store.
Proof.
  split_and!; [constructor|by intros r ?%elem_of_nil|intros b; constructor|done].
Qed.

Lemma store_steps_ok t t' : store_ok t → rtc store_step t t' → store_ok t'.
Proof.
  intros Hok H. induction H as [|t t1 t' Hs _ IH]; [done|]. destruct (step_micro _ _ Hok Hs) as [b Hb].
  apply IH. by eapply micros_ok.
Qed.

Lemma store_reachable_ok t : store_reachable t → store_ok t.
Proof. intros H. by eapply store_steps_ok; [apply new_store_ok|]. Qed.

(** ** What does not change *)

Lemma micro_other b b' t t' : store_ok t → b' ≠ b → micro b t t' → get_batch_row b' t' = get_batch_row b' t.
Proof.
  intros Hok Hne [s key now Hs Hc|reason text r Hs|reason r Hs Hst Hall|s reason r Hs].
  - rewrite (row_started b s key now t b' Hok Hs). by destruct (String.eqb_spec b' b).
  - rewrite row_ended. destruct (String.eqb_spec b' b); [done|]. by rewrite option_fmap_id.
  - rewrite row_ended. destruct (String.eqb_spec b' b); [done|]. by rewrite option_fmap_id.
  - done.
Qed.

Lemma micros_other b b' t t' : store_ok t → b' ≠ b → rtc (micro b) t t' → get_batch_row b' t' = get_batch_row b' t.
Proof.
  intros Hok Hne H. induction H as [|t t1 t' Hm _ IH]; [done|]. rewrite IH by by eapply micro_ok.
  by eapply micro_other.
Qed.

(** A refused batch: nothing but an audit row is written, and no result but a
    refusal returned. *)
Definition refuses_to_apply (b : string) (t : ApplyTables) (x : result BatchApplyResult) (t' : ApplyTables) : Prop :=
  tb_batches t' = tb_batches t ∧
  match x with
  | Ok r => br_state r = BatchApplyState.REJECTED ∧ br_idempotent r = true ∧ br_batch_id r = b
  | Raise _ => t' = t
  end.

Lemma reject_refuses b row s reason msg now t x c : stored_state b t = Some s →
  SQLite.reject b row s reason msg now (at_rest t) = (x, c) → ∃ t', c = at_rest t' ∧ refuses_to_apply b t x t'.
Proof.
  intros Hs. unfold SQLite.reject. destruct (result_from_row row) as [prev|e].
  - set (r := SQLite.build_rejected_result b s reason msg now prev).
    pose proof (record_rejected_spec b s reason r t) as Hr. rewrite (db_bind_Ok (lift (Ok prev)) _ (at_rest t) prev (at_rest t) eq_refl).
    fold r. destruct (printable (br_audit_metadata r)).
    + rewrite (db_bind_Ok _ _ _ _ _ Hr). intros [= <- <-]. by eexists.
    + rewrite (db_bind_Raise _ _ _ _ _ Hr). intros [= <- <-]. by exists t.
  - rewrite (db_bind_Raise (lift (Raise e)) _ (at_rest t) e (at_rest t) eq_refl). intros [= <- <-]. by exists t.
Qed.

Definition refused_state (s : BatchApplyState.t) : Prop := s = BatchApplyState.APPLYING ∨ s = BatchApplyState.APPLIED.

Lemma refused_call b items decisions refs req key clock t s x c : store_ok t →
  stored_state b t = Some s → refused_state s →
  SQLite.apply_batch b items decisions refs req key clock (at_rest t) = (x, c) →
  ∃ t', c = at_rest t' ∧ refuses_to_apply b t x t'.
Proof.
  intros Hok Hs Hr. rewrite apply_batch_reads by done. rewrite Hs.
  destruct Hr as [->| ->]; cbn [mbind option_bind SQLite.refusal_of]; by apply reject_refuses.
Qed.

Lemma row_of_batches b t t' : tb_batches t' = tb_batches t → get_batch_row b t' = get_batch_row b t.
Proof. unfold get_batch_row. by intros ->. Qed.

(** The row of a batch in a refused state never changes again. *)
Lemma refused_row_fixed b s t t' : store_ok t → stored_state b t = Some s → refused_state s → rtc store_step t t' →
  store_ok t' ∧ get_batch_row b t' = get_batch_row b t.
Proof.
  intros Hok Hs Hr H. revert Hok Hs. induction H as [|t t1 t' Hst _ IH]; intros Hok Hs; [done|].
  assert (H1 : store_ok t1 ∧ get_batch_row b t1 = get_batch_row b t).
  { destruct (step_micro _ _ Hok Hst) as [b2 Hm]. split; [by eapply micros_ok|]. clear Hm.
    destruct Hst as [b1 items decisions refs req key clock x c Hc ->|b1 key now c He Hc ->].
    - destruct (String.eqb_spec b b1) as [<-|Hne].
      + destruct (refused_call _ _ _ _ _ _ _ _ _ _ _ Hok Hs Hr Hc) as (t1&->&Hb&_). by apply row_of_batches.
      + destruct (apply_batch_micro _ _ _ _ _ _ _ _ _ _ Hok Hc) as (t1&->&Hm). by apply (micros_other b1).
    - pose proof (not_refused _ _ Hok He) as Hs1. destruct (start_once _ _ _ _ _ _ _ Hok eq_refl Hs1 Hc) as [[_ ->]|(?&_)]; [|done].
      apply (micro_other b1); [done| |by apply micro_start]. intros ->. rewrite Hs in Hs1. destruct Hr as [->| ->]; by destruct Hs1. }
  destruct H1 as [Hok1 Hrow1]. destruct IH as [Hok' Hrow']; [done| |].
  - unfold stored_state in *. by rewrite Hrow1.
  - split; [done|]. congruence.
Qed.

(** ** The claims on histories *)

(** The audit rows that record an application of the batch. *)
Definition times_applied (b : string) (t : ApplyTables) : nat :=
  length (filter (λ r, tr_batch_id r = b ∧ tr_new_state r = BatchApplyState.value BatchApplyState.APPLIED) (tb_transitions t)).

Lemma life_applied_count l s : life l s →
  length (filter (λ p : option string * string, p.2 = BatchApplyState.value BatchApplyState.APPLIED) l) =
    if decide (s = Some BatchApplyState.APPLIED) then 1%nat else 0%nat.
Proof.
  induction 1 as [|l s s' _ IH Hs]; [done|]. rewrite filter_app, length_app, IH. by destruct Hs.
Qed.

Lemma times_applied_trail b t : times_applied b t =
  length (filter (λ p : option string * string, p.2 = BatchApplyState.value BatchApplyState.APPLIED) (trail b t)).
Proof.
  unfold times_applied, trail. induction (tb_transitions t) as [|r l IH]; [done|]. rewrite !filter_cons.
  unfold is_attempt at 1. destruct (decide (tr_batch_id r = b)) as [Hb|Hb].
  - destruct (decide (tr_new_state r = BatchApplyState.value BatchApplyState.APPLIED)) as [Ha|Ha].
    + rewrite !decide_True by (split; [done|by rewrite ?Ha]). rewrite fmap_cons, filter_cons. cbn [snd].
      rewrite decide_True by done. cbn [length]. by rewrite IH.
    + rewrite decide_False by by intros [_ ?]. rewrite IH. case_decide; [|done].
      rewrite fmap_cons, filter_cons. cbn [snd]. by rewrite decide_False.
  - rewrite !decide_False by by intros [? _]. done.
Qed.

(** C40: The audit rows tell the life of a batch.  In every store that calls and
    dying processes can leave, the audit rows of a batch, refused attempts left
    out, are a sequence of documented transitions (a new or failed batch starts
    applying, then is applied or fails) that ends in the stored state; at most
    one of them applies the batch, exactly one when the batch is applied, and
    then a result is stored all of whose items succeeded. *)
Theorem stored_batch_life t b : store_reachable t →
  life (trail b t) (stored_state b t) ∧ (times_applied b t ≤ 1)%nat ∧
  (times_applied b t = 1%nat ↔ stored_state b t = Some BatchApplyState.APPLIED) ∧
  (stored_state b t = Some BatchApplyState.APPLIED → ∃ br, stored_success b t br).
Proof.
  intros Hr. pose proof (store_reachable_ok t Hr) as (_&_&Hl&Ha). rewrite times_applied_trail, (life_applied_count _ _ (Hl b)).
  split; [apply Hl|]. case_decide; split_and!; [lia|done|auto|lia|done|done].
Qed.

(** A batch applied, and one whose process died. *)
Definition sample_applied : result BatchApplyResult * Connection ApplyTables :=
  SQLite.apply_batch "batch-1" [sample_item "q-1"] [sample_decision "dec-1" "q-1"] None false (Some "key-1") sample_clock
    (at_rest new_store).
Definition sample_store : ApplyTables := cn_committed sample_applied.2.
Definition sample_dead : ApplyTables :=
  started "batch-2" None None "2024-05-02T10:00:00+00:00" sample_store.

#[local] Strategy expand [sample_applied sample_store sample_dead].

Lemma sample_fresh : stored_state "batch-2" sample_store = None.
Proof. vm_compute. exact eq_refl. Qed.

Lemma sample_history : store_reachable sample_dead.
Proof.
  assert (H1 : store_step new_store sample_store).
  { exact (stored_call _ _ "batch-1" _ _ _ _ _ _ sample_applied.1 sample_applied.2 (surjective_pairing _) eq_refl). }
  eapply rtc_l; [exact H1|]. apply rtc_once.
  assert (Hok : store_ok sample_store) by by eapply store_steps_ok, rtc_once, H1; apply new_store_ok.
  apply (stored_death _ _ "batch-2" None "2024-05-02T10:00:00+00:00" (at_rest sample_dead)).
  - by rewrite sample_fresh.
  - rewrite sample_fresh, transition_to_applying_spec by (intros _; by apply stored_none, sample_fresh).
    assert (Hk : key_taken None sample_store = false) by (vm_compute; exact eq_refl). rewrite Hk. exact eq_refl.
  - reflexivity.
Qed.

Lemma stored_batch_life_witness :
  life (trail "batch-1" sample_dead) (Some BatchApplyState.APPLIED) ∧
  times_applied "batch-1" sample_dead = 1%nat.
Proof.
  destruct (stored_batch_life sample_dead "batch-1" sample_history) as (H1&_&H2&_).
  assert (Hs : stored_state "batch-1" sample_dead = Some BatchApplyState.APPLIED) by (vm_compute; exact eq_refl).
  rewrite Hs in H1. split; [exact H1|]. apply H2, Hs.
Defined.

(** C26: A batch that has been applied, or that a process died on, is never run
    again.  Whatever calls and deaths follow, its row does not change, and
    every later call on it writes at most an audit row and returns at most a
    REJECTED, idempotent result. *)
Theorem finished_or_dead_batch_refused t t' b s items decisions refs req key clock x c :
  store_reachable t → stored_state b t = Some s → s = BatchApplyState.APPLIED ∨ s = BatchApplyState.APPLYING →
  rtc store_step t t' →
  SQLite.apply_batch b items decisions refs req key clock (at_rest t') = (x, c) →
  get_batch_row b t' = get_batch_row b t ∧ ∃ t'', c = at_rest t'' ∧ refuses_to_apply b t' x t''.
Proof.
  intros Hr Hs Hc Hst Hx. assert (Hrs : refused_state s) by by destruct Hc; [right|left].
  destruct (refused_row_fixed b s t t' (store_reachable_ok t Hr) Hs Hrs Hst) as [Hok' Hrow]. split; [done|].
  eapply refused_call, Hx; [done| |exact Hrs]. unfold stored_state in *. by rewrite Hrow.
Qed.

Lemma finished_or_dead_batch_refused_witness :
  ∃ t'', refuses_to_apply "batch-2" sample_dead
    (SQLite.apply_batch "batch-2" [sample_item "q-1"] [sample_decision "dec-1" "q-1"] None false None sample_clock
      (at_rest sample_dead)).1 t''.
Proof.
  destruct (finished_or_dead_batch_refused sample_dead sample_dead "batch-2"
    BatchApplyState.APPLYING [sample_item "q-1"] [sample_decision "dec-1" "q-1"] None false None sample_clock _ _
    sample_history ltac:(vm_compute; exact eq_refl) (or_intror eq_refl) (rtc_refl _ _) (surjective_pairing _)) as (_&t''&_&H).
  exists t''. exact H.
Defined.

(** ** Results are read back *)

Definition sorted_result (r : ResolutionApplyResult) : ResolutionApplyResult :=
  MkApplyResult (ar_apply_id r) (ar_decision_id r) (ar_queue_item_id r) (ar_candidate_id r) (ar_action r) (ar_success r)
    (sort_json (ar_payload r)) (ar_error_message r) (sort_json (ar_audit_evidence r)) (ar_applied_at r) (ar_reviewer r)
    (ar_note r) (ar_statement_reference r) (ar_app_transaction_reference r) (ar_idempotent r).

Definition sorted_batch (br : BatchApplyResult) : BatchApplyResult :=
  MkBatchResult (br_batch_id br) (br_state br) (sorted_result <$> br_results br) (sort_json (br_audit_metadata br))
    (br_error_message br) (br_batch_applied_at br) (br_idempotent br).

Lemma index_sorted k d v : NoDup (dict_keys d) → dict_get k d = Some v → dict_index k (sorted_members d) = Ok (sort_json v).
Proof. intros Hd Hk. unfold dict_index. by rewrite sorted_members_get, Hk. Qed.

Lemma text_at_sorted k d s : NoDup (dict_keys d) → dict_get k d = Some (JStr s) → text_at (sorted_members d) k = Ok s.
Proof. intros Hd Hk. unfold text_at. by rewrite (index_sorted k d _ Hd Hk). Qed.

Lemma get_or_sorted k d v w : NoDup (dict_keys d) → dict_get k d = Some v → get_or (sorted_members d) k w = sort_json v.
Proof. intros Hd Hk. unfold get_or. by rewrite sorted_members_get, Hk. Qed.

Lemma opt_text_sorted o : as_opt_text (sort_json (opt_json JStr o)) = Ok o.
Proof. by destruct o. Qed.

Lemma text_or_sorted k d s w : NoDup (dict_keys d) → dict_get k d = Some (JStr s) →
  as_text (get_or (sorted_members d) k w) = Ok s.
Proof. intros Hd Hk. by rewrite (get_or_sorted k d _ w Hd Hk). Qed.

Lemma opt_text_or_sorted k d o w : NoDup (dict_keys d) → dict_get k d = Some (opt_json JStr o) →
  as_opt_text (get_or (sorted_members d) k w) = Ok o.
Proof. intros Hd Hk. rewrite (get_or_sorted k d _ w Hd Hk). apply opt_text_sorted. Qed.

Lemma action_enum a : enum_of_value (ResolutionAction.value a) = Some a.
Proof. change (ResolutionAction.value a) with (enum_value a). apply enum_of_value_of. Qed.

Definition result_members (r : ResolutionApplyResult) : list (string * json) :=
  match resolution_result_to_dict r with JDict d => d | _ => [] end.
Definition batch_members (br : BatchApplyResult) : list (string * json) :=
  match batch_result_dict br with JDict d => d | _ => [] end.

Lemma result_keys r : NoDup (dict_keys (result_members r)).
Proof. apply (bool_decide_eq_true_1 _). vm_compute. reflexivity. Qed.
Lemma batch_keys br : NoDup (dict_keys (batch_members br)).
Proof. apply (bool_decide_eq_true_1 _). vm_compute. reflexivity. Qed.

Lemma result_sorted r : sort_json (resolution_result_to_dict r) = JDict (sorted_members (result_members r)).
Proof. reflexivity. Qed.
Lemma batch_sorted br : sort_json (batch_result_dict br) = JDict (sorted_members (batch_members br)).
Proof. reflexivity. Qed.

Lemma bind_step {A B} (m : result A) (f : A → result B) a r : m = Ok a → f a = r → (m ≫= f) = r.
Proof. by intros -> <-. Qed.

(** Reads a member of a sorted object whose value is known. *)
Ltac step H := simple eapply bind_step; [refine H|cbv beta].
Ltac read_text k s Hd := simple eapply bind_step; [refine (text_at_sorted k _ s Hd eq_refl)|cbv beta].
Ltac read_or k s Hd := simple eapply bind_step; [refine (text_or_sorted k _ s _ Hd eq_refl)|cbv beta].
Ltac read_opt k o Hd := simple eapply bind_step; [refine (opt_text_or_sorted k _ o _ Hd eq_refl)|cbv beta].

Lemma result_read_back r : resolution_result_from_dict (sort_json (resolution_result_to_dict r)) = Ok (sorted_result r).
Proof.
  rewrite result_sorted. unfold resolution_result_from_dict. cbn [json_members mbind result_bind]. pose proof (result_keys r) as Hd.
  read_text "apply_id" (ar_apply_id r) Hd.
  read_text "decision_id" (ar_decision_id r) Hd.
  read_text "queue_item_id" (ar_queue_item_id r) Hd.
  read_or "candidate_id" (ar_candidate_id r) Hd.
  read_text "action" (ResolutionAction.value (ar_action r)) Hd.
  rewrite action_enum. step (@eq_refl _ (Ok (ar_action r))).
  step (index_sorted "success" _ (JBool (ar_success r)) Hd eq_refl).
  read_opt "error_message" (ar_error_message r) Hd.
  read_or "applied_at" (ar_applied_at r) Hd.
  read_or "reviewer" (ar_reviewer r) Hd.
  read_or "note" (ar_note r) Hd.
  read_opt "statement_reference" (ar_statement_reference r) Hd.
  read_opt "app_transaction_reference" (ar_app_transaction_reference r) Hd.
  rewrite (get_or_sorted "payload" _ (ar_payload r) _ Hd eq_refl), (get_or_sorted "audit_evidence" _ (ar_audit_evidence r) _ Hd eq_refl),
    (get_or_sorted "idempotent" _ (JBool (ar_idempotent r)) _ Hd eq_refl). reflexivity.
Qed.

Lemma results_read_back l : mapM resolution_result_from_dict (map sort_json (resolution_result_to_dict <$> l)) = Ok (sorted_result <$> l).
Proof.
  induction l as [|r l IH]; [done|]. rewrite fmap_cons. cbn [map mapM]. rewrite result_read_back.
  cbn [mbind result_bind]. by rewrite IH.
Qed.

Lemma batch_read_back br : json_ok is_ascii (batch_result_dict br) = true →
  deserialize_batch_result (canonical (batch_result_dict br)) = Ok (sorted_batch br).
Proof.
  intros Hok. unfold deserialize_batch_result.
  change (canonical (batch_result_dict br)) with (of_chars (json_chars_with escape_char (batch_result_dict br))).
  rewrite (loads_canonical escape_char is_ascii _ escape_char_undoes Hok). cbn [mbind result_bind].
  rewrite batch_sorted. cbn [json_members mbind result_bind].
  pose proof (batch_keys br) as Hd.
  read_text "batch_id" (br_batch_id br) Hd.
  read_text "state" (BatchApplyState.value (br_state br)) Hd.
  step (state_of_text_value (br_state br)).
  rewrite (get_or_sorted "results" _ (JList (resolution_result_to_dict <$> br_results br)) _ Hd eq_refl). 
  step (results_read_back (br_results br)).
  read_opt "error_message" (br_error_message br) Hd.
  read_or "batch_applied_at" (br_batch_applied_at br) Hd.
  rewrite (get_or_sorted "audit_metadata" _ (br_audit_metadata br) _ Hd eq_refl),
    (get_or_sorted "idempotent" _ (JBool (br_idempotent br)) _ Hd eq_refl). reflexivity.
Qed.
