(* ===== verification/ApplyStoreRefinement.v ===== *)
(** * The stored manager behaves as the one in memory

    The results of the two managers are compared up to the order of the
    members of JSON objects, which the store sorts, and up to the version tag
    of the audit record.  That comparison is the equivalence [≡] of results
    here, and a call on a store that simulates a manager in memory returns an
    equivalent result and leaves a store that simulates the manager then. *)

From Stdlib Require Import Ascii ZArith SpecFloat Lia.
From stdpp Require Import base sets strings sorting numbers list relations.
From S2P Require Import Prelude PyDecimal PyValue Json JsonParse JsonRoundtrip PyDate ReconModels ReviewModels BoundCodec ApplyRuntime ApplyProps BatchApply Snapshot SnapshotProps CodecProps Sqlite ApplyStore ApplyStoreProps.

Open Scope Z_scope.

(** ** Equivalent results *)

Lemma sort_json_idemp v : sort_json (sort_json v) = sort_json v.
Proof.
  induction v as [|b|n|t|s|l IH|d IH] using json_nested_ind; cbn [sort_json]; try done.
  - f_equal. rewrite List.map_map. apply List.map_ext_in. intros x Hx. rewrite Forall_forall in IH.
    by apply IH, list_elem_of_In.
  - f_equal. fold (sorted_members d). transitivity (sort_dict (sorted_members d)); [f_equal|apply sort_dict_idemp].
    rewrite <- (List.map_id (sorted_members d)) at 2. apply List.map_ext_in. intros [k v] Hkv. f_equal.
    apply list_elem_of_In in Hkv. rewrite sorted_members_perm in Hkv.
    apply list_elem_of_fmap in Hkv as ([k' v']&[= -> ->]&Hin). rewrite Forall_forall in IH. exact (IH _ Hin).
Qed.

(** Without the tag by which the managers tell their records apart. *)
Definition unversioned (v : json) : json :=
  match v with
  | JDict d => JDict (filter (λ kv : string * json, kv.1 ≠ "batch_state_control_version") d)
  | v => v
  end.

Definition batch_core (br : BatchApplyResult) : BatchApplyResult :=
  MkBatchResult (br_batch_id br) (br_state br) (sorted_result <$> br_results br)
    (unversioned (sort_json (br_audit_metadata br))) (br_error_message br) (br_batch_applied_at br) (br_idempotent br).

#[export] Instance batch_result_equiv : Equiv BatchApplyResult := λ r r', batch_core r = batch_core r'.
#[export] Instance batch_result_equivalence : Equivalence (≡@{BatchApplyResult}).
Proof. split; [by intros r|by intros r r'|]. intros r1 r2 r3 H1 H2. unfold equiv, batch_result_equiv in *. congruence. Qed.

Lemma sorted_result_idemp r : sorted_result (sorted_result r) = sorted_result r.
Proof. unfold sorted_result. cbn. by rewrite !sort_json_idemp. Qed.

Lemma sorted_batch_equiv br : sorted_batch br ≡ br.
Proof.
  unfold equiv, batch_result_equiv, batch_core, sorted_batch. cbn. rewrite sort_json_idemp. f_equal.
  rewrite <- list_fmap_compose. apply list_fmap_ext. intros _ r _. apply sorted_result_idemp.
Qed.

(** How many results succeed, and how many there are, is the same. *)
Lemma successes_sorted p (l : list ResolutionApplyResult) :
  length (filter (λ x, ar_success x = p) (sorted_result <$> l)) = length (filter (λ x, ar_success x = p) l).
Proof.
  induction l as [|r l IH]; [done|]. rewrite fmap_cons, !filter_cons. cbn [ar_success sorted_result].
  case_decide; cbn [length]; by rewrite IH.
Qed.

#[export] Instance applied_count_proper : Proper ((≡) ==> (=)) applied_count.
Proof. intros r r' H. apply (f_equal br_results) in H. cbn in H. unfold applied_count. by rewrite <- successes_sorted, H, successes_sorted. Qed.
#[export] Instance failed_count_proper : Proper ((≡) ==> (=)) failed_count.
Proof. intros r r' H. apply (f_equal br_results) in H. cbn in H. unfold failed_count. by rewrite <- successes_sorted, H, successes_sorted. Qed.
#[export] Instance results_proper : Proper ((≡) ==> (=)) (λ r, sorted_result <$> br_results r).
Proof. intros r r' H. exact (f_equal br_results H). Qed.
#[export] Instance results_length_proper : Proper ((≡) ==> (=)) (λ r, length (br_results r)).
Proof. intros r r' H%results_proper. by apply (f_equal length) in H; rewrite !length_fmap in H. Qed.
#[export] Instance state_proper : Proper ((≡) ==> (=)) br_state.
Proof. intros r r' H. exact (f_equal br_state H). Qed.
#[export] Instance success_proper : Proper ((≡) ==> (=)) BatchApplyResult_success.
Proof.
  intros r r' H. unfold BatchApplyResult_success. rewrite (state_proper r r' H).
  pose proof (f_equal br_idempotent H) as Hi. cbn in Hi. by rewrite Hi.
Qed.

(** The refusals of the two managers are equivalent, and their records equal. *)
Lemma rejected_equiv m b s reason msg now prev :
  (∀ r, get_batch_result m b = Some r → ∃ br, prev = Some br ∧ br ≡ r) → (get_batch_result m b = None → prev = None) →
  let r' := SQLite.build_rejected_result b s reason msg now prev in
  let r := build_rejected_result m b s reason msg now in
  r' ≡ r ∧ br_audit_metadata r' = br_audit_metadata r.
Proof.
  intros Hs Hn. unfold SQLite.build_rejected_result, build_rejected_result.
  destruct (get_batch_result m b) as [r|].
  - destruct (Hs r eq_refl) as (br&->&He).
    rewrite (applied_count_proper br r He), (failed_count_proper br r He), (results_length_proper br r He). split; [|done].
    unfold equiv, batch_result_equiv, batch_core. cbn [br_results br_audit_metadata br_batch_id br_state br_error_message br_batch_applied_at br_idempotent].
    by rewrite (results_proper br r He).
  - by rewrite (Hn eq_refl).
Qed.

Lemma batch_dict_audit_ok ok br : json_ok ok (batch_result_dict br) = true → json_ok ok (br_audit_metadata br) = true.
Proof.
  unfold batch_result_dict. cbn [json_ok forallb]. intros [_ H]%andb_prop. repeat (apply andb_prop in H as [? H]).
  by repeat match goal with H : _ && _ = true |- _ => apply andb_prop in H as [? H] end.
Qed.

(** ** The simulation *)

Definition same_stored (m : BatchApplyStateManager) (t : ApplyTables) (b : string) : Prop :=
  get_batch_state m b = stored_state b t ∧
  match stored_state b t with
  | Some BatchApplyState.APPLIED => ∃ r row br,
      get_batch_result m b = Some r ∧ get_batch_row b t = Some row ∧
      bt_applied_result_json row = Some (canonical (batch_result_dict br)) ∧
      json_ok is_ascii (batch_result_dict br) = true ∧ br ≡ r
  | Some BatchApplyState.FAILED | None => True
  | Some _ => False
  end.

Definition simulates (m : BatchApplyStateManager) (t : ApplyTables) : Prop := store_ok t ∧ ∀ b, same_stored m t b.

Lemma simulates_new : simulates new_manager new_store.
Proof. split; [apply new_store_ok|]. by intros b. Qed.

Lemma result_read row text br : bt_applied_result_json row = Some text → text = canonical (batch_result_dict br) →
  json_ok is_ascii (batch_result_dict br) = true → result_from_row (Some row) = Ok (Some (sorted_batch br)).
Proof. intros Hr -> Hok. unfold result_from_row. by rewrite Hr, batch_read_back. Qed.

(** Only the rows of batch [b] matter to what the relation says of it. *)
Lemma same_stored_keep m t m' t' b : same_stored m t b → get_batch_row b t' = get_batch_row b t →
  get_batch_state m' b = get_batch_state m b → get_batch_result m' b = get_batch_result m b → same_stored m' t' b.
Proof.
  intros [Hs Hr] Hrow Hst Hres. unfold same_stored, stored_state in *. rewrite Hrow, Hst, Hres. by split.
Qed.

(** What a step owes: an equivalent result, and the relation again. *)
Definition matched (r : BatchApplyResult) (m' : BatchApplyStateManager)
    (x : result BatchApplyResult * Connection ApplyTables) : Prop :=
  ∃ r' t', x = (Ok r', at_rest t') ∧ r' ≡ r ∧ simulates m' t'.

(** A refused call. *)
Lemma refused_matches m t b items decisions refs req key clock r m' :
  simulates m t → stored_state b t = Some BatchApplyState.APPLIED →
  apply_batch m b items decisions refs req clock = (Ok r, m') → json_ok is_ascii (batch_result_dict r) = true →
  matched r m' (SQLite.apply_batch b items decisions refs req key clock (at_rest t)).
Proof.
  intros [Hok Hsim] Hs Hm Hj. destruct (Hsim b) as [Hst Hres]. rewrite Hs in Hst, Hres.
  destruct Hres as (r0&row&br&Hr0&Hrow&Htext&Hjb&He).
  unfold apply_batch, refusal in Hm. rewrite Hst in Hm. injection Hm as [= <- <-].
  rewrite apply_batch_reads by done. rewrite Hs, Hrow. cbn [mbind option_bind SQLite.refusal_of].
  set (msg := "Batch '" +:+ b +:+ _) in *.
  destruct (rejected_equiv m b BatchApplyState.APPLIED "duplicate_apply_blocked" msg (clock O) (Some (sorted_batch br))) as [Heq Haud].
  { intros r1. rewrite Hr0. intros [= <-]. exists (sorted_batch br). split; [done|]. by rewrite sorted_batch_equiv. }
  { by rewrite Hr0. }
  unfold SQLite.reject. rewrite (result_read row _ br Htext eq_refl Hjb). rewrite (db_bind_Ok (lift _) _ (at_rest t) _ (at_rest t) eq_refl).
  set (r' := SQLite.build_rejected_result b _ _ msg (clock O) _) in *.
  pose proof (record_rejected_spec b BatchApplyState.APPLIED "duplicate_apply_blocked" r' t) as Hrec.
  rewrite Haud, (printable_ok is_ascii) in Hrec by by apply batch_dict_audit_ok.
  rewrite (db_bind_Ok _ _ _ _ _ Hrec). eexists r', _. split_and!; [done|done|]. split.
  - eapply (micro_ok b); [done|]. by apply micro_reject.
  - intros b'. by apply (same_stored_keep m t).
Qed.

(** A call that runs. *)
Lemma same_stored_other m t m' t' b b' : simulates m t → b' ≠ b → rtc (micro b) t t' →
  get_batch_state m' b' = get_batch_state m b' → get_batch_result m' b' = get_batch_result m b' → same_stored m' t' b'.
Proof.
  intros [Hok Hsim] Hne Hm Hst Hres. apply (same_stored_keep m t); [apply Hsim|by eapply micros_other|done..].
Qed.

Lemma failed_matches m t b s key now msg results now' m' :
  simulates m t → stored_state b t = s → s = None ∨ s = Some BatchApplyState.FAILED →
  m' = set_state (set_state m b BatchApplyState.APPLYING) b BatchApplyState.FAILED →
  json_ok is_ascii (batch_result_dict (build_failed_result b BatchApplyState.APPLYING results msg now')) = true →
  matched (build_failed_result b BatchApplyState.APPLYING results msg now') m'
    (SQLite.fail b results msg now' (at_rest (started b s key now t))).
Proof.
  intros Hsim Hs Hc -> Hj. pose proof Hsim as [Hok Hall]. unfold SQLite.fail.
  change (SQLite.build_failed_result b results msg now') with (build_failed_result b BatchApplyState.APPLYING results msg now').
  set (r := build_failed_result b BatchApplyState.APPLYING results msg now') in *.
  pose proof (transition_to_final_spec b BatchApplyState.FAILED "apply_failed" r (started b s key now t)) as Hf.
  rewrite (printable_ok is_ascii _ Hj) in Hf. rewrite (db_bind_Ok _ _ _ _ _ Hf). eexists r, _. split_and!; [done|done|].
  assert (H1 : stored_state b (started b s key now t) = Some BatchApplyState.APPLYING) by by rewrite state_started, String.eqb_refl.
  assert (Hm : rtc (micro b) t (ended b BatchApplyState.FAILED "apply_failed" (canonical (batch_result_dict r)) r (started b s key now t))).
  { eapply rtc_l; [by apply micro_start|]. apply rtc_once. by apply micro_fail. }
  split; [by eapply micros_ok|]. intros b'. destruct (decide (b' = b)) as [->|Hne].
  - unfold same_stored, get_batch_state, set_state. cbn [bm_batches]. rewrite dict_get_set2, String.eqb_refl.
    destruct (stored_row _ _ _ H1) as (row&Hrow&_). rewrite state_ended by by exists row. by rewrite String.eqb_refl.
  - apply (same_stored_other m t _ _ b); [done..| |done]. unfold get_batch_state, set_state. cbn [bm_batches].
    rewrite dict_get_set2. by destruct (String.eqb_spec b' b).
Qed.

Lemma applied_matches m t b s key now results refs now' at' :
  simulates m t → stored_state b t = s → s = None ∨ s = Some BatchApplyState.FAILED → all_succeeded results →
  let r := (finish_batch (set_state m b BatchApplyState.APPLYING) b results refs now' at').1 in
  let m' := (finish_batch (set_state m b BatchApplyState.APPLYING) b results refs now' at').2 in
  json_ok is_ascii (batch_result_dict r) = true →
  matched r m' (SQLite.finish b results refs now' at' (at_rest (started b s key now t))).
Proof.
  intros Hsim Hs Hc Hall. pose proof Hsim as [Hok _]. pose proof Hall as Hcount. apply count_results_succeeded in Hcount.
  unfold finish_batch, SQLite.finish. rewrite Hcount. cbn zeta. cbn [fst snd].
  set (r := MkBatchResult b _ results (build_batch_audit _ _ _ _ _ _ _ _ _) None now' false).
  set (r' := MkBatchResult b _ results (SQLite.build_batch_audit _ _ _ _ _ _ _ _ _) None now' false).
  intros Hj. assert (Hj' : json_ok is_ascii (batch_result_dict r') = true) by (rewrite <- Hj; reflexivity).
  pose proof (transition_to_final_spec b BatchApplyState.APPLIED "applied_successfully" r' (started b s key now t)) as Hf.
  rewrite (printable_ok is_ascii _ Hj') in Hf. rewrite (db_bind_Ok _ _ _ _ _ Hf). eexists r', _.
  assert (He : r' ≡ r) by reflexivity. split_and!; [done|done|].
  assert (H1 : stored_state b (started b s key now t) = Some BatchApplyState.APPLYING) by by rewrite state_started, String.eqb_refl.
  assert (Hm : rtc (micro b) t (ended b BatchApplyState.APPLIED "applied_successfully" (canonical (batch_result_dict r')) r' (started b s key now t))).
  { eapply rtc_l; [by apply micro_start|]. apply rtc_once. by apply micro_apply. }
  split; [by eapply micros_ok|]. intros b'. destruct (decide (b' = b)) as [->|Hne].
  - unfold same_stored, get_batch_state, get_batch_result, set_state. cbn [bm_batches bm_batch_results].
    rewrite dict_get_set2, dict_get_set, String.eqb_refl. destruct (stored_row _ _ _ H1) as (row&Hrow&_).
    rewrite state_ended by by exists row. rewrite String.eqb_refl. split; [done|].
    rewrite row_ended, String.eqb_refl, Hrow. by exists r; eexists _, r'.
  - apply (same_stored_other m t _ _ b); [done..| |]; unfold get_batch_state, get_batch_result, set_state;
      cbn [bm_batches bm_batch_results]; rewrite ?dict_get_set2, ?dict_get_set; by destruct (String.eqb_spec b' b).
Qed.

(** C39: Without dying processes the stored manager is the one in memory.  A new
    store simulates a new manager; and when a store simulates a manager, the
    manager returns a result of ASCII texts and the key of a new batch is not
    taken, the same call on the store returns an equivalent result (the same
    up to the order of JSON members and the version tag of the audit record)
    and leaves, committed, a store that simulates the manager again. *)
Theorem sqlite_refines_memory :
  simulates new_manager new_store ∧
  ∀ m t b items decisions refs req key clock r m',
    simulates m t → apply_batch m b items decisions refs req clock = (Ok r, m') →
    json_ok is_ascii (batch_result_dict r) = true → (stored_state b t = None → key_taken key t = false) →
    matched r m' (SQLite.apply_batch b items decisions refs req key clock (at_rest t)).
Proof.
  split; [apply simulates_new|]. intros m t b items decisions refs req key clock r m' Hsim Hm Hj Hkey. pose proof Hsim as [Hok Hall]. destruct (Hall b) as [Hst Hres].
  destruct (decide (stored_state b t = Some BatchApplyState.APPLIED)) as [Hs|Hs]; [by eapply refused_matches|].
  assert (Hc : stored_state b t = None ∨ stored_state b t = Some BatchApplyState.FAILED).
  { destruct (stored_state b t) as [[]|]; [done..|by right|done|by left]. }
  clear Hres Hs. rewrite apply_batch_reads by done.
  assert (Hrun : transition_to_applying b (stored_state b t) key (clock O) (at_rest t) =
    (Ok tt, at_rest (started b (stored_state b t) key (clock O) t))).
  { rewrite transition_to_applying_spec by (intros; by apply stored_none). destruct Hc as [Hc|Hc]; rewrite Hc; [|done]. by rewrite Hkey. }
  replace (s ← stored_state b t; why ← SQLite.refusal_of b s; Some (s, why)) with
    (@None (BatchApplyState.t * (string * string))) by by destruct Hc as [Hc|Hc]; rewrite Hc.
  rewrite (db_bind_Ok _ _ _ _ _ Hrun). unfold SQLite.run.
  assert (Href : refusal m b (clock O) = None) by (unfold refusal; rewrite Hst; by destruct Hc as [->| ->]).
  unfold apply_batch in Hm. rewrite Href in Hm.
  destruct (apply_decisions items decisions refs req (λ k, clock (S k))) as [results|e] eqn:Ea.
  - destruct ((0 <? count_results false results) || (Z.of_nat (length results) =? 0)) eqn:Ec.
    + unfold finish_batch in Hm. unfold SQLite.finish. rewrite Ec in *. injection Hm as [= <- <-]. by apply (failed_matches m t).
    + apply count_results_succeeded in Ec.
      pose proof (applied_matches m t b _ key (clock O) results refs (clock O) (clock (S (length results))) Hsim eq_refl Hc Ec) as Happ.
      destruct (finish_batch _ b results refs _ _) as [r0 m0]. injection Hm as [= <- <-]. by apply Happ.
  - rewrite (apply_decisions_raises _ _ _ _ _ _ Ea) in *. change (exn_isinstance ApplyConflictError ApplyConflictError) with true in *.
    injection Hm as [= <- <-]. by apply (failed_matches m t).
Qed.

#[local] Strategy expand [sample_batch].

Lemma sqlite_refines_memory_witness : ∃ r m',
  matched r m' (SQLite.apply_batch "batch-1" [sample_item "q-1"] [sample_decision "dec-1" "q-1"] None false (Some "key-1")
    sample_clock (at_rest new_store)).
Proof.
  destruct sample_batch as [[r|e] m'] eqn:E.
  - exists r, m'.
    refine (proj2 sqlite_refines_memory new_manager new_store "batch-1" [sample_item "q-1"] [sample_decision "dec-1" "q-1"]
      None false (Some "key-1") sample_clock r m' (proj1 sqlite_refines_memory) E _ (λ _, eq_refl)).
    assert (Hx : match sample_batch.1 with Ok r => json_ok is_ascii (batch_result_dict r) | Raise _ => false end = true)
      by (vm_compute; exact eq_refl).
    rewrite E in Hx. exact Hx.
  - exfalso. assert (Hx : is_ok sample_batch.1 = true) by (vm_compute; exact eq_refl). rewrite E in Hx. discriminate Hx.
Defined.
