(* ===== verification/GuardedProps.v ===== *)
(** * Guarded executions keep to the guard

    Without an earlier execution, an operation runs exactly when its action is
    supported and its guard decision approves it under its own proposal, and
    then only if no operation of the plan lacks a decision; and the adapter
    declares a plan eligible exactly when every operation runs so. *)

From Stdlib Require Import Ascii ZArith SpecFloat Lia.
From stdpp Require Import base sets strings sorting numbers list.
From S2P Require Import Prelude PyValue Hash Json ReconModels ReviewModels FinalMutation ApplyPlan ApplyPlanProps ApplyProps BatchApply Sqlite GuardedExec ExecStore GuardedRuntime.

Open Scope Z_scope.

(** ** The verdict on an operation *)

Definition supported (a : ResolutionAction.t) : bool :=
  bool_decide (ResolutionAction.value a ∈ V1_SUPPORTED_EXECUTION_ACTIONS).

Definition clears (gd : FinalMutationGuardDecision) (op : ApplyPlanOperation) : bool :=
  supported (op_action op) && gd_approved gd &&
  match op_source_apply_result_ref op with Some ref => String.eqb (gd_proposal_id gd) ref | None => true end.

Definition has_guard (guards : guard_map) (op : ApplyPlanOperation) : bool :=
  match dict_get (op_operation_id op) guards with Some _ => true | None => false end.
Definition cleared (guards : guard_map) (op : ApplyPlanOperation) : bool :=
  match dict_get (op_operation_id op) guards with Some gd => clears gd op | None => false end.
(** The operation runs in an execution of these operations. *)
Definition runs (guards : guard_map) (ops : list ApplyPlanOperation) (op : ApplyPlanOperation) : bool :=
  forallb (has_guard guards) ops && cleared guards op.

Definition run_status (b : bool) : ApplyExecutionStatus.t :=
  if b then ApplyExecutionStatus.EXECUTED else ApplyExecutionStatus.BLOCKED.

Lemma evaluate_status op gd : or_execution_status (evaluate_operation op gd) = run_status (clears gd op).
Proof.
  unfold evaluate_operation, clears, supported. destruct (bool_decide _); [|done]. destruct (gd_approved gd); [|done].
  cbn [negb andb]. destruct (op_source_apply_result_ref op) as [ref|]; [|done]. by destruct (String.eqb _ ref).
Qed.

Lemma evaluate_id op gd : or_operation_id (evaluate_operation op gd) = op_operation_id op.
Proof.
  unfold evaluate_operation. destruct (bool_decide _); [|done]. destruct (gd_approved gd); [|done].
  cbn [negb]. destruct (op_source_apply_result_ref op) as [ref|]; [|done]. by destruct (String.eqb _ ref).
Qed.

Lemma evaluate_approved op gd : clears gd op = true → or_guard_decision_approved (evaluate_operation op gd) = true.
Proof.
  unfold evaluate_operation, clears, supported. destruct (bool_decide _); [|done]. destruct (gd_approved gd); [|done].
  cbn [negb andb]. destruct (op_source_apply_result_ref op) as [ref|]; [|done]. by intros ->.
Qed.

(** ** A first execution *)

Lemma missing_nil plan guards : missing_guard_ops plan guards = [] ↔ forallb (has_guard guards) (plan_operations plan) = true.
Proof.
  unfold missing_guard_ops. rewrite List.forallb_forall. split.
  - intros H op Hop. unfold has_guard. destruct (dict_get _ guards) eqn:E; [done|]. exfalso.
    apply (not_elem_of_nil (op_operation_id op)). rewrite <- H. apply elem_of_remove_dups, list_elem_of_filter.
    split; [done|]. by apply list_elem_of_fmap_2, list_elem_of_In.
  - intros H. destruct (remove_dups _) as [|i l] eqn:E; [done|]. exfalso.
    assert (Hi : i ∈ remove_dups (filter (λ i, dict_get i guards = None) (op_operation_id <$> plan_operations plan)))
      by (rewrite E; left).
    apply elem_of_remove_dups, list_elem_of_filter in Hi as [Hn Hi]. apply list_elem_of_fmap in Hi as (op&->&Hop).
    apply list_elem_of_In, H in Hop. unfold has_guard in Hop. by rewrite Hn in Hop.
Qed.

(** The result for one operation, whatever is missing. *)
Definition op_outcome (guards : guard_map) (missing : list string) (op : ApplyPlanOperation) : GuardedOperationResult :=
  match missing, dict_get (op_operation_id op) guards with
  | [], Some gd => evaluate_operation op gd
  | _, _ => build_blocked_op_result (missing_reason missing) op
  end.

Definition outcomes (plan : ReconciliationApplyPlan) (guards : guard_map) : list GuardedOperationResult :=
  op_outcome guards (missing_guard_ops plan guards) <$> plan_operations plan.

Lemma outcome_status plan guards op : op ∈ plan_operations plan →
  or_execution_status (op_outcome guards (missing_guard_ops plan guards) op) = run_status (runs guards (plan_operations plan) op).
Proof.
  intros Hop. unfold op_outcome, runs. destruct (missing_guard_ops plan guards) as [|i l] eqn:E.
  - apply missing_nil in E. rewrite E. cbn [andb]. unfold cleared. destruct (dict_get _ guards) as [gd|]; [|done].
    apply evaluate_status.
  - replace (forallb (has_guard guards) (plan_operations plan)) with false; [done|].
    symmetry. apply not_true_iff_false. intros H%missing_nil. congruence.
Qed.

Lemma outcome_id guards missing op : or_operation_id (op_outcome guards missing op) = op_operation_id op.
Proof. unfold op_outcome. destruct missing; [|done]. destruct (dict_get _ guards); [apply evaluate_id|done]. Qed.

Lemma evaluate_all guards ops : forallb (has_guard guards) ops = true →
  mapM (λ op, gd ← guard_of guards op; Ok (evaluate_operation op gd)) ops = Ok (op_outcome guards [] <$> ops).
Proof.
  induction ops as [|op ops IH]; [done|]. cbn [forallb]. intros [Ho H]%andb_prop. cbn [mapM]. rewrite fmap_cons.
  assert ((gd ← guard_of guards op; Ok (evaluate_operation op gd)) = Ok (op_outcome guards [] op)) as ->.
  { unfold guard_of, op_outcome, has_guard in *. by destruct (dict_get _ guards). }
  cbn [mbind result_bind]. by rewrite IH.
Qed.

Lemma count_status_map guards ops plan b : (∀ op, op ∈ ops → op ∈ plan_operations plan) →
  count_status (op_outcome guards (missing_guard_ops plan guards) <$> ops) (run_status b) =
    Z.of_nat (length (filter (λ op, runs guards (plan_operations plan) op = b) ops)).
Proof.
  unfold count_status. intros Hin. f_equal. induction ops as [|op ops IH]; [done|].
  rewrite fmap_cons, !filter_cons, outcome_status by (apply Hin; left).
  rewrite (decide_ext (run_status (runs guards (plan_operations plan) op) = run_status b)
    (runs guards (plan_operations plan) op = b)) by by destruct (runs _ _ op), b.
  specialize (IH (λ op H, Hin op (list_elem_of_further _ _ _ H))). case_decide; cbn [length]; by rewrite IH.
Qed.

Definition fresh_refs (plan : ReconciliationApplyPlan) (guards : guard_map) : list string :=
  match missing_guard_ops plan guards with
  | [] => omap (λ op, gd_proposal_id <$> dict_get (op_operation_id op) guards) (plan_operations plan)
  | _ => []
  end.

Definition fresh_reason (plan : ReconciliationApplyPlan) (guards : guard_map) (status : ApplyExecutionStatus.t) : string :=
  match missing_guard_ops plan guards with
  | [] => if bool_decide (status = ApplyExecutionStatus.EXECUTED) then "" else build_block_reason (outcomes plan guards)
  | missing => missing_reason missing
  end.

Definition fresh_status (plan : ReconciliationApplyPlan) (guards : guard_map) : ApplyExecutionStatus.t :=
  plan_status (count_status (outcomes plan guards) ApplyExecutionStatus.EXECUTED)
    (count_status (outcomes plan guards) ApplyExecutionStatus.BLOCKED).

Lemma blocked_status plan reason :
  plan_status (count_status (build_blocked_op_result reason <$> plan_operations plan) ApplyExecutionStatus.EXECUTED)
    (count_status (build_blocked_op_result reason <$> plan_operations plan) ApplyExecutionStatus.BLOCKED) =
  ApplyExecutionStatus.BLOCKED.
Proof.
  assert (H : count_status (build_blocked_op_result reason <$> plan_operations plan) ApplyExecutionStatus.EXECUTED = 0).
  { unfold count_status. induction (plan_operations plan) as [|op l IH]; [done|].
    rewrite fmap_cons, filter_cons. cbn [or_execution_status build_blocked_op_result]. by rewrite decide_False. }
  rewrite H. unfold plan_status. rewrite andb_false_r. by rewrite orb_true_r.
Qed.

Lemma fresh_execution_spec plan guards key now :
  fresh_execution plan guards key now =
    Ok (build_result plan key (fresh_status plan guards) (outcomes plan guards)
          (fresh_reason plan guards (fresh_status plan guards)) (fresh_refs plan guards) now).
Proof.
  unfold fresh_execution, fresh_status, fresh_reason, fresh_refs, outcomes.
  destruct (missing_guard_ops plan guards) as [|i l] eqn:E.
  - apply missing_nil in E. by rewrite (evaluate_all guards _ E).
  - change (op_outcome guards (i :: l)) with (build_blocked_op_result (missing_reason (i :: l))). by rewrite (blocked_status plan (missing_reason (i :: l))).
Qed.

(** ** What a first execution says *)

Lemma count_runs plan guards b :
  count_status (outcomes plan guards) (run_status b) =
    Z.of_nat (length (filter (λ op, runs guards (plan_operations plan) op = b) (plan_operations plan))).
Proof. by apply count_status_map. Qed.

Lemma filter_bool_split {A} (f : A → bool) l :
  (length (filter (λ x, f x = true) l) + length (filter (λ x, f x = false) l) = length l)%nat.
Proof.
  induction l as [|x l IH]; [done|]. rewrite !filter_cons. destruct (f x) eqn:E.
  - rewrite decide_True, decide_False by congruence. cbn [length]. lia.
  - rewrite decide_False, decide_True by congruence. cbn [length]. lia.
Qed.

(** The status of a plan from its operations: all run, some, or none. *)
Definition status_of_runs (f : ApplyPlanOperation → bool) (ops : list ApplyPlanOperation) : ApplyExecutionStatus.t :=
  if existsb f ops
  then if forallb f ops then ApplyExecutionStatus.EXECUTED else ApplyExecutionStatus.PARTIALLY_BLOCKED
  else ApplyExecutionStatus.BLOCKED.

Lemma count_true {A} (f : A → bool) l : (0 <? Z.of_nat (length (filter (λ x, f x = true) l))) = existsb f l.
Proof.
  apply eq_true_iff_eq. rewrite Z.ltb_lt, List.existsb_exists. split.
  - intros H. destruct (filter _ l) as [|x k] eqn:E; [cbn in H; lia|].
    assert (Hx : x ∈ filter (λ x, f x = true) l) by (rewrite E; left).
    apply list_elem_of_filter in Hx as [Hf Hx]. exists x. by rewrite <- list_elem_of_In.
  - intros (x&Hx%list_elem_of_In&Hf). assert (Hin : x ∈ filter (λ x, f x = true) l) by by apply list_elem_of_filter.
    destruct (filter _ l); [by apply elem_of_nil in Hin|cbn; lia].
Qed.

Lemma count_false {A} (f : A → bool) l : (0 <? Z.of_nat (length (filter (λ x, f x = false) l))) = negb (forallb f l).
Proof.
  induction l as [|x l IH]; [done|]. rewrite filter_cons. cbn [forallb]. destruct (f x) eqn:E.
  - rewrite decide_False by congruence. exact IH.
  - rewrite decide_True by done. done.
Qed.

Lemma fresh_status_runs plan guards :
  fresh_status plan guards = status_of_runs (runs guards (plan_operations plan)) (plan_operations plan).
Proof.
  unfold fresh_status, plan_status, status_of_runs. set (f := runs guards (plan_operations plan)). set (ops := plan_operations plan).
  change ApplyExecutionStatus.EXECUTED with (run_status true) at 1 2.
  change ApplyExecutionStatus.BLOCKED with (run_status false) at 1 2.
  rewrite !count_runs. fold f ops. pose proof (filter_bool_split f ops) as Hl. pose proof (count_true f ops) as Ht.
  pose proof (count_false f ops) as Hf.
  rewrite Hf, Ht. destruct (existsb f ops) eqn:Ee.
  - rewrite andb_true_r. destruct (forallb f ops); cbn [negb orb]; [|done].
    apply Z.ltb_lt in Ht. destruct (Z.eqb_spec (Z.of_nat (length (filter (λ x, f x = true) ops))) 0); [lia|done].
  - rewrite andb_false_r. apply Z.ltb_ge in Ht.
    destruct (Z.eqb_spec (Z.of_nat (length (filter (λ x, f x = true) ops))) 0); [|lia]. by rewrite orb_true_r.
Qed.

(** C27: A first execution always answers, one result per operation in the order
    of the plan.  An operation is executed exactly when its action is supported,
    its guard decision approves it and, where it names a proposal, is the
    decision on that proposal, and no operation of the plan lacks a decision;
    otherwise it is blocked.  The plan is executed when all its operations are,
    partially blocked when some are, blocked when none is, and the counts say
    how many. *)
Theorem execution_verdicts plan guards key now :
  let ops := plan_operations plan in
  ∃ r, fresh_execution plan guards key now = Ok r ∧
    Forall2 (λ op o, or_operation_id o = op_operation_id op ∧ or_execution_status o = run_status (runs guards ops op))
      ops (er_results r) ∧
    er_execution_status r = status_of_runs (runs guards ops) ops ∧
    er_total_operations r = Z.of_nat (length ops) ∧
    er_operated_executed r = Z.of_nat (length (filter (λ op, runs guards ops op = true) ops)) ∧
    er_operated_executed r + er_operated_blocked r = er_total_operations r ∧ er_operated_skipped r = 0.
Proof.
  intros ops. eexists. split; [apply fresh_execution_spec|]. cbn [er_results er_execution_status er_total_operations
    er_operated_executed er_operated_blocked er_operated_skipped build_result].
  assert (Hlen : length (outcomes plan guards) = length ops) by by unfold outcomes; rewrite length_fmap.
  change ApplyExecutionStatus.EXECUTED with (run_status true). change ApplyExecutionStatus.BLOCKED with (run_status false).
  rewrite !count_runs, Hlen. fold ops. pose proof (filter_bool_split (runs guards ops) ops) as Hl.
  split_and!; [|apply fresh_status_runs|done|done|lia|lia].
  unfold outcomes. fold ops. apply Forall2_fmap_r, Forall_Forall2_diag, Forall_forall. intros op Hop.
  split; [apply outcome_id|by apply outcome_status].
Qed.

(** ** The adapter *)

(** The caller's decision on the operation of an input lets it run. *)
Definition input_cleared (guards : guard_map) (inp : ApplyPlanInput) : Prop :=
  ∃ gd, dict_get ("op-" +:+ rd_decision_id (pi_decision inp)) guards = Some gd ∧ gd_approved gd = true ∧
    rd_action (pi_decision inp) ∈ [ResolutionAction.CONFIRM_MATCH; ResolutionAction.MARK_DUPLICATE;
                                   ResolutionAction.MARK_STATEMENT_ONLY; ResolutionAction.IGNORE] ∧
    ∀ p, pi_proposal inp = Some p → gd_proposal_id gd = fp_proposal_id p.

Lemma supported_iff a : supported a = true ↔
  a ∈ [ResolutionAction.CONFIRM_MATCH; ResolutionAction.MARK_DUPLICATE; ResolutionAction.MARK_STATEMENT_ONLY; ResolutionAction.IGNORE].
Proof.
  assert (H : supported a = bool_decide (a ∈ [ResolutionAction.CONFIRM_MATCH; ResolutionAction.MARK_DUPLICATE;
    ResolutionAction.MARK_STATEMENT_ONLY; ResolutionAction.IGNORE])) by by destruct a.
  rewrite H. apply bool_decide_eq_true.
Qed.

Lemma cleared_input guards inp : cleared guards (build_operation inp).1 = true ↔ input_cleared guards inp.
Proof.
  unfold cleared, input_cleared. cbn [build_operation fst op_operation_id].
  destruct (dict_get _ guards) as [gd|]; [|by split; [|intros (?&?&_)]].
  unfold clears. cbn [op_action op_source_apply_result_ref build_operation fst]. rewrite !andb_true_iff, supported_iff. split.
  - intros ((Ha&Hg)&Hp). exists gd. split_and!; [done..|]. intros p E. rewrite E in Hp. by apply String.eqb_eq.
  - intros (gd'&[= <-]&Hg&Ha&Hp). split_and!; [done..|]. destruct (pi_proposal inp) as [p|]; [|done]. cbn.
    by apply String.eqb_eq, Hp.
Qed.

Lemma cleared_guarded guards op : cleared guards op = true → has_guard guards op = true.
Proof. unfold cleared, has_guard. by destruct (dict_get _ guards). Qed.

Lemma status_executed guards ops : ops ≠ [] →
  status_of_runs (runs guards ops) ops = ApplyExecutionStatus.EXECUTED ↔ ∀ op, op ∈ ops → cleared guards op = true.
Proof.
  intros Hne. unfold status_of_runs. destruct (forallb (runs guards ops) ops) eqn:E.
  - assert (existsb (runs guards ops) ops = true) as ->.
    { destruct ops as [|op ops]; [done|]. cbn [forallb existsb] in *. apply andb_prop in E as [-> _]. done. }
    split; [|done]. intros _ op Hop%list_elem_of_In. rewrite List.forallb_forall in E. apply E in Hop.
    by apply andb_prop in Hop as [_ ?].
  - split; [by destruct (existsb _ _)|]. intros H. exfalso. apply not_true_iff_false in E. apply E.
    apply List.forallb_forall. intros op Hop%list_elem_of_In. unfold runs. rewrite (H op Hop), andb_true_r.
    apply List.forallb_forall. intros op' Hop'%list_elem_of_In. by apply cleared_guarded, H.
Qed.

(** When every operation runs the adapter finds nothing to object to. *)
Lemma executed_eligible plan guards : plan_operations plan ≠ [] →
  (∀ op, op ∈ plan_operations plan → cleared guards op = true) →
  derive_adapter_status_and_reasons ApplyOrchestrationStatus.COMPLETED (summary_of <$> outcomes plan guards)
    (fresh_refs plan guards) = (FinalTransactionAdapterStatus.ELIGIBLE, []).
Proof.
  intros Hne Hall. assert (Hm : missing_guard_ops plan guards = []).
  { apply missing_nil, List.forallb_forall. intros op Hop%list_elem_of_In. by apply cleared_guarded, Hall. }
  unfold outcomes, fresh_refs. rewrite Hm. cbn [derive_adapter_status_and_reasons].
  assert (Hops : ∀ P : OperationSummary → bool, (∀ op gd, clears gd op = true → P (summary_of (evaluate_operation op gd)) = false) →
    existsb P (summary_of <$> (op_outcome guards [] <$> plan_operations plan)) = false).
  { intros P HP. apply not_true_iff_false. intros (s&Hs&Hx)%List.existsb_exists. apply list_elem_of_In in Hs.
    apply list_elem_of_fmap in Hs as (o&->&Ho). apply list_elem_of_fmap in Ho as (op&->&Hop). specialize (Hall op Hop).
    unfold op_outcome, cleared in *. destruct (dict_get _ guards) as [gd|]; [|done]. by rewrite HP in Hx. }
  rewrite !Hops.
  - destruct (plan_operations plan) as [|op ops]; [done|]. cbn [fmap list_fmap is_nil omap list_omap].
    specialize (Hall op (list_elem_of_here _ _)). unfold cleared in Hall. by destruct (dict_get _ guards).
  - intros op gd Hc. cbn. by rewrite evaluate_approved.
  - intros op gd Hc. cbn. by rewrite evaluate_status, Hc.
Qed.

Lemma eligible_needs_completed s l refs :
  (derive_adapter_status_and_reasons s l refs).1 = FinalTransactionAdapterStatus.ELIGIBLE → s = ApplyOrchestrationStatus.COMPLETED.
Proof. by destruct s. Qed.

(** Orchestrated anew, plan inputs are eligible when every one is cleared. *)
Lemma orchestration_eligible i now :
  str_empty (oi_idempotency_key i) = false → oi_plan_inputs i ≠ [] →
  ∃ o rt, orchestrate_reconciliation_apply i None None now = (Ok o, rt) ∧
    let a := build_final_transaction_reconciliation_adapter_result o in
    (fa_status a = FinalTransactionAdapterStatus.ELIGIBLE ↔
       ∀ inp, inp ∈ oi_plan_inputs i → input_cleared (oi_guard_decisions_by_operation_id i) inp) ∧
    (oo_status o = ApplyOrchestrationStatus.COMPLETED ↔ fa_status a = FinalTransactionAdapterStatus.ELIGIBLE) ∧
    fa_is_eligible_for_final_mutation a = bool_decide (fa_status a = FinalTransactionAdapterStatus.ELIGIBLE) ∧
    fa_requires_final_write_confirmation a = fa_is_eligible_for_final_mutation a ∧ oo_persisted o = false.
Proof.
  intros Hk Hne. set (guards := oi_guard_decisions_by_operation_id i).
  unfold orchestrate_reconciliation_apply. rewrite Hk. destruct (oi_plan_inputs i) as [|i0 rest] eqn:Ei; [done|].
  cbn [is_nil]. unfold orchestrate_with. rewrite Ei. unfold build_reconciliation_apply_plan. cbn [is_nil raise_when mbind result_bind].
  set (plan := MkPlan _ _ _ _ _ _ _ _ _ _).
  assert (Hops : plan_operations plan = (λ inp, (build_operation inp).1) <$> (i0 :: rest)) by (cbn; by rewrite <- list_fmap_compose).
  assert (Hnops : plan_operations plan ≠ []) by by rewrite Hops.
  unfold execute_plan. rewrite Hk. replace (is_nil (plan_operations plan)) with false by done.
  cbn [check_durable_idempotency gr_repository new_guarded_runtime check_idempotency gr_executed dict_get].
  unfold execute_first. fold guards. rewrite fresh_execution_spec.
  cbn [persist_if_configured gr_repository remember new_guarded_runtime mbind result_bind].
  do 2 eexists. split; [reflexivity|]. cbn zeta. set (o := MkOrchResult _ _ _ _ _ _ _ _).
  set (l := summary_of <$> outcomes plan guards).
  assert (Hst : oo_status o = ApplyOrchestrationStatus.COMPLETED ↔ fresh_status plan guards = ApplyExecutionStatus.EXECUTED).
  { cbn. by destruct (fresh_status plan guards). }
  rewrite fresh_status_runs, status_executed in Hst by done.
  assert (Hcl : (∀ op, op ∈ plan_operations plan → cleared guards op = true) ↔
                ∀ inp, inp ∈ i0 :: rest → input_cleared guards inp).
  { rewrite Hops. split.
    - intros H inp Hin. apply cleared_input, H. apply list_elem_of_fmap. by exists inp.
    - intros H op (inp&->&Hin)%list_elem_of_fmap. by apply cleared_input, H. }
  assert (Hfa : fa_status (build_final_transaction_reconciliation_adapter_result o) =
    (derive_adapter_status_and_reasons (oo_status o) l (fresh_refs plan guards)).1).
  { unfold build_final_transaction_reconciliation_adapter_result. cbn [oo_execution_result o er_guard_decision_refs build_result].
    unfold build_operation_summaries. cbn [oo_execution_result er_results build_result o].
    fold l. by destruct (derive_adapter_status_and_reasons _ l _). }
  assert (Hel : fa_status (build_final_transaction_reconciliation_adapter_result o) = FinalTransactionAdapterStatus.ELIGIBLE ↔
    oo_status o = ApplyOrchestrationStatus.COMPLETED).
  { rewrite Hfa. split; [apply eligible_needs_completed|]. intros H. pose proof (proj1 Hst H) as Hall.
    rewrite H. unfold l. by rewrite executed_eligible. }
  split_and!.
  - by rewrite Hel, Hst.
  - by rewrite Hel.
  - unfold build_final_transaction_reconciliation_adapter_result. by destruct (derive_adapter_status_and_reasons _ _ _).
  - unfold build_final_transaction_reconciliation_adapter_result. by destruct (derive_adapter_status_and_reasons _ _ _).
  - done.
Qed.

(** The same inputs with other guard decisions of their own. *)
Definition own_decision (own : ApplyPlanInput → option FinalMutationGuardDecision) (inp : ApplyPlanInput) : ApplyPlanInput :=
  MkPlanInput (pi_decision inp) (pi_queue_item inp) (own inp) (pi_proposal inp) (pi_evidence_refs inp).
Definition with_own_decisions (own : ApplyPlanInput → option FinalMutationGuardDecision) (i : ApplyOrchestrationInput) :
    ApplyOrchestrationInput :=
  MkOrchInput (own_decision own <$> oi_plan_inputs i)
    (oi_guard_decisions_by_operation_id i) (oi_idempotency_key i) (oi_plan_label i).

(** C28: What makes an orchestration eligible for a final mutation.
    Orchestrated anew, without a repository, plan inputs always give an answer,
    and the adapter calls it eligible exactly when, for every input, the caller
    passed a guard decision on its operation that approves it and is on the
    input's own proposal, and its action is one of the four supported ones.  A
    completed orchestration is the same thing, an eligible result always asks
    for the human confirmation, and nothing is persisted.  The guard decisions
    the inputs carry themselves, by which the plan marks operations as blocked,
    have no part in it: whatever they are, the answer is the same.  An operation
    the plan blocks is thus executed and eligible when the caller's map approves
    it, against what apply_plan.py documents (see [blocked_input_eligible]). *)
Theorem eligible_exactly_when_cleared i now :
  str_empty (oi_idempotency_key i) = false → oi_plan_inputs i ≠ [] →
  ∃ o rt, orchestrate_reconciliation_apply i None None now = (Ok o, rt) ∧
    let a := build_final_transaction_reconciliation_adapter_result o in
    (fa_status a = FinalTransactionAdapterStatus.ELIGIBLE ↔
       ∀ inp, inp ∈ oi_plan_inputs i → input_cleared (oi_guard_decisions_by_operation_id i) inp) ∧
    (oo_status o = ApplyOrchestrationStatus.COMPLETED ↔ fa_status a = FinalTransactionAdapterStatus.ELIGIBLE) ∧
    fa_is_eligible_for_final_mutation a = bool_decide (fa_status a = FinalTransactionAdapterStatus.ELIGIBLE) ∧
    fa_requires_final_write_confirmation a = fa_is_eligible_for_final_mutation a ∧ oo_persisted o = false ∧
    ∀ own, ∃ o' rt', orchestrate_reconciliation_apply (with_own_decisions own i) None None now = (Ok o', rt') ∧
      (fa_status (build_final_transaction_reconciliation_adapter_result o') = FinalTransactionAdapterStatus.ELIGIBLE ↔
       fa_status a = FinalTransactionAdapterStatus.ELIGIBLE).
Proof.
  intros Hk Hne. destruct (orchestration_eligible i now Hk Hne) as (o&rt&Ho&He&Hst&Hel&Hc&Hp).
  exists o, rt. split; [done|]. cbv zeta in *. split_and!; [done..|]. intros own.
  destruct (orchestration_eligible (with_own_decisions own i) now Hk) as (o'&rt'&Ho'&He'&_); [by intros ?%fmap_nil_inv|].
  exists o', rt'. split; [done|]. rewrite He, He'. cbn [oi_plan_inputs oi_guard_decisions_by_operation_id with_own_decisions]. split.
  - intros H inp Hin. apply (H (own_decision own inp)). by apply list_elem_of_fmap_2.
  - intros H x (inp&->&Hin)%list_elem_of_fmap. exact (H inp Hin).
Qed.

Definition sample_guard (id : string) : FinalMutationGuardDecision :=
  MkGuardDecision id true FinalMutationAction.NO_FINAL_MUTATION [] None "v1".
Definition sample_orchestration : ApplyOrchestrationInput :=
  MkOrchInput [sample_input "d1" None; sample_input "d2" None] [("op-d1", sample_guard "p-1"); ("op-d2", sample_guard "p-2")]
    "key-1" "May".

(** Two cleared inputs are eligible. *)
Lemma eligible_exactly_when_cleared_witness :
  ∃ o rt, orchestrate_reconciliation_apply sample_orchestration None None "2024-05-02T10:00:00+00:00" = (Ok o, rt) ∧
    fa_status (build_final_transaction_reconciliation_adapter_result o) = FinalTransactionAdapterStatus.ELIGIBLE.
Proof.
  destruct (eligible_exactly_when_cleared sample_orchestration "2024-05-02T10:00:00+00:00" eq_refl ltac:(discriminate))
    as (o&rt&Ho&Ha&_).
  exists o, rt. split; [exact Ho|]. apply Ha. intros inp Hin. cbn in Hin.
  repeat (apply elem_of_cons in Hin as [->|Hin]; [eexists; split; [reflexivity|]; split_and!;
    [reflexivity|apply (bool_decide_eq_true_1 _); vm_compute; reflexivity|discriminate]|]).
  by apply elem_of_nil in Hin.
Defined.

(** The plan blocks both operations on the refusals the inputs carry; the
    caller's map approves them, so they are executed and eligible. *)
Definition blocked_orchestration : ApplyOrchestrationInput :=
  with_own_decisions (λ _, Some (MkGuardDecision "p-1" false FinalMutationAction.NO_FINAL_MUTATION [FinalMutationBlockedReason.MISSING_EVIDENCE_REFS] None "v1"))
    sample_orchestration.

Example blocked_input_eligible :
  (plan_blocked_operations <$> build_reconciliation_apply_plan (oi_plan_inputs blocked_orchestration) "May") = Ok 2 ∧
  match (orchestrate_reconciliation_apply blocked_orchestration None None "2024-05-02T10:00:00+00:00").1 with
  | Ok o => fa_status (build_final_transaction_reconciliation_adapter_result o) = FinalTransactionAdapterStatus.ELIGIBLE
  | Raise _ => False
  end.
Proof. split; vm_compute; reflexivity. Qed.
