(* ===== verification/ExecStoreProps.v ===== *)
(** * Stored executions are final and survive restarts

    Whatever is executed under whatever keys, in whatever processes, the row of
    an execution and its operation rows never change; an execution is read
    back as it was stored, its operations in the order of their identifiers;
    and the classification of a repeated call says what the call then does. *)

From Stdlib Require Import Ascii ZArith SpecFloat Lia.
From stdpp Require Import base sets strings sorting numbers list relations.
From S2P Require Import Prelude PyValue Hash Json JsonParse JsonRoundtrip ReconModels ReviewModels BoundCodec FinalMutation ApplyPlan Snapshot SnapshotProps CodecProps Sqlite ApplyPlanProps GuardedExec ExecStore GuardedRuntime GuardedProps.

Open Scope Z_scope.

(** ** What a save leaves *)

Definition op_row (execution_id : string) (o : GuardedOperationResult) : OperationRow :=
  MkOpRow (execution_id +:+ "-" +:+ or_operation_id o) execution_id (or_operation_id o) (or_decision_id o)
    (ApplyExecutionStatus.value (or_execution_status o)) (or_reason o) (or_guard_decision_approved o)
    (or_guard_decision_idempotency_key o) (canonical (json_strs (or_guard_blocked_reasons o))) (or_mutation_type o)
    (canonical (or_mutation_payload o)).

Definition result_id (r : GuardedApplyExecutionResult) : string := derive_execution_id (er_plan_id r) (er_idempotency_key r).

Definition exec_row (r : GuardedApplyExecutionResult) (fingerprint : string) : ExecutionRow :=
  MkExecRow (result_id r) (er_plan_id r) (er_idempotency_key r) fingerprint
    (ApplyExecutionStatus.value (er_execution_status r)) (er_total_operations r) (er_operated_executed r)
    (er_operated_blocked r) (er_operated_skipped r) (er_block_reason r) (canonical (json_strs (er_guard_decision_refs r)))
    (canonical (er_audit_trail r)) (er_is_dry_run r) (er_executed_at r).

Definition saved (r : GuardedApplyExecutionResult) (fingerprint : string) (t : ExecTables) : ExecTables :=
  MkExecTables (xt_executions t ++ [exec_row r fingerprint]) (xt_operations t ++ (op_row (result_id r) <$> er_results r)).

(** A new identifier and a new key. *)
Definition new_execution (r : GuardedApplyExecutionResult) (t : ExecTables) : Prop :=
  result_id r ∉ xr_execution_id <$> xt_executions t ∧ er_idempotency_key r ∉ xr_idempotency_key <$> xt_executions t.

Lemma existsb_text {A} (f : A → string) s l : existsb (λ x, String.eqb (f x) s) l = bool_decide (s ∈ f <$> l).
Proof.
  apply eq_true_iff_eq. rewrite bool_decide_eq_true, List.existsb_exists, list_elem_of_fmap. split.
  - intros (x&Hx&E%String.eqb_eq). exists x. by rewrite list_elem_of_In.
  - intros (x&->&Hx). exists x. by rewrite <- list_elem_of_In, String.eqb_refl.
Qed.

(** Statements do not commit; a statement that succeeds leaves known tables. *)
Lemma insert_operation_result_spec id o t com x c :
  insert_operation_result id o (MkConn t com) = (x, c) → cn_committed c = com ∧
  (x = Ok tt → cn_tables c = MkExecTables (xt_executions t) (xt_operations t ++ [op_row id o])).
Proof.
  unfold insert_operation_result, serialize_value. intros H.
  destruct (printable (json_strs (or_guard_blocked_reasons o))); [|by injection H as [= <- <-]].
  destruct (printable (or_mutation_payload o)); [|by injection H as [= <- <-]].
  unfold mbind, db_bind, lift, insert_operation_row, execute in H. cbn [cn_tables] in H.
  fold (op_row id o) in H.
  destruct (_ ≫= _ : result ExecTables) as [t'|e] eqn:E in H; injection H as [= <- <-]; [|done].
  apply bind_Ok in E as ([]&_&E). apply bind_Ok in E as ([]&_&[= <-]). done.
Qed.

Lemma insert_operation_results_spec id rs t com x c :
  insert_operation_results id rs (MkConn t com) = (x, c) → cn_committed c = com ∧
  (x = Ok tt → cn_tables c = MkExecTables (xt_executions t) (xt_operations t ++ (op_row id <$> rs))).
Proof.
  revert t c. induction rs as [|o rs IH]; intros t c; cbn [insert_operation_results].
  - intros [= <- <-]. split; [done|]. intros _. cbn. rewrite app_nil_r. by destruct t.
  - destruct (insert_operation_result id o (MkConn t com)) as [[[]|e] [t1 com1]] eqn:E;
      destruct (insert_operation_result_spec _ _ _ _ _ _ E) as [Hc Ht]; cbn in Hc; subst com1.
    + rewrite (db_bind_Ok _ _ _ _ _ E). intros H. apply IH in H as [Hc H2]. split; [done|]. intros Hx.
      rewrite (H2 Hx). specialize (Ht eq_refl). cbn in Ht. subst t1. cbn [xt_executions xt_operations].
      by rewrite <- app_assoc.
    + rewrite (db_bind_Raise _ _ _ _ _ E). intros [= <- <-]. done.
Qed.

(** The operations of an execution are unique in the table. *)
Lemma insert_operation_result_unique id o t com c : insert_operation_result id o (MkConn t com) = (Ok tt, c) →
  ∀ p, p ∈ xt_operations t → pr_execution_id p = id → pr_operation_id p ≠ or_operation_id o.
Proof.
  unfold insert_operation_result, serialize_value. intros H.
  destruct (printable (json_strs (or_guard_blocked_reasons o))); [|done].
  destruct (printable (or_mutation_payload o)); [|done].
  unfold mbind, db_bind, lift, insert_operation_row, execute in H. cbn [cn_tables] in H.
  destruct (_ ≫= _ : result ExecTables) as [t'|e] eqn:E in H; [|done].
  apply bind_Ok in E as ([]&_&E). apply bind_Ok in E as ([]&Hu%raise_when_Ok&_).
  intros p Hp Hi Ho. apply not_true_iff_false in Hu. apply Hu, List.existsb_exists. exists p.
  split; [by apply list_elem_of_In|]. cbn. by rewrite Hi, Ho, !String.eqb_refl.
Qed.

Lemma insert_operation_results_unique id rs t com c : insert_operation_results id rs (MkConn t com) = (Ok tt, c) →
  NoDup (or_operation_id <$> rs) ∧
  ∀ o p, o ∈ rs → p ∈ xt_operations t → pr_execution_id p = id → pr_operation_id p ≠ or_operation_id o.
Proof.
  revert t. induction rs as [|o rs IH]; intros t; cbn [insert_operation_results].
  - intros _. split; [constructor|]. by intros o p ?%elem_of_nil.
  - intros H. apply db_bind_inv in H as ([]&[t1 com1]&E&H).
    destruct (insert_operation_result_spec _ _ _ _ _ _ E) as [Hc Ht]. specialize (Ht eq_refl). cbn in Hc, Ht. subst com1 t1.
    destruct (IH _ H) as [Hnd Hu]. cbn [xt_operations] in Hu. rewrite fmap_cons. split.
    + constructor; [|done]. intros (o'&Ho&Hin)%list_elem_of_fmap.
      apply (Hu o' (op_row id o) Hin); [apply elem_of_app; right; by left|done|done].
    + intros o' p [->|Ho]%elem_of_cons Hp; [by apply (insert_operation_result_unique _ _ _ _ _ E)|].
      apply Hu; [done|]. apply elem_of_app. by left.
Qed.

Lemma insert_execution_spec r fp t com x c :
  insert_execution r fp (MkConn t com) = (x, c) → cn_committed c = com ∧
  (x = Ok tt → new_execution r t ∧ cn_tables c = MkExecTables (xt_executions t ++ [exec_row r fp]) (xt_operations t)).
Proof.
  unfold insert_execution, serialize_value. intros H.
  destruct (printable (json_strs (er_guard_decision_refs r))); [|by injection H as [= <- <-]].
  destruct (printable (er_audit_trail r)); [|by injection H as [= <- <-]].
  unfold mbind, db_bind, lift, insert_execution_row, execute in H. cbn [cn_tables] in H.
  fold (result_id r) in H. fold (exec_row r fp) in H.
  destruct (_ ≫= _ : result ExecTables) as [t'|e] eqn:E in H; injection H as [= <- <-]; [|done]. split; [done|]. intros _.
  repeat apply bind_Ok in E as ([]&?%raise_when_Ok&E). injection E as [= <-].
  rewrite !existsb_text in *. split; [|done].
  split; by apply (bool_decide_eq_false_1 _).
Qed.

Lemma save_spec r fp t x c : save_execution_result r fp (at_rest t) = (x, c) →
  match find_execution (er_idempotency_key r) t with
  | Some row => c = at_rest t ∧
      x = if String.eqb (xr_execution_fingerprint row) fp then Ok false
          else raise GuardedApplyExecutionConflictError "idempotency key with another fingerprint"
  | None => (x = Ok true ∧ c = at_rest (saved r fp t) ∧ new_execution r t ∧ NoDup (or_operation_id <$> er_results r)) ∨ (∃ e, x = Raise e ∧ c = at_rest t)
  end.
Proof.
  unfold save_execution_result.
  rewrite (db_bind_Ok (read _) _ (at_rest t) (find_execution (er_idempotency_key r) t) (at_rest t) eq_refl).
  destruct (find_execution _ t) as [row|].
  - destruct (String.eqb _ fp); by intros [= <- <-].
  - set (m := insert_execution r fp;; _). destruct (m (at_rest t)) as [[[]|e] c1] eqn:E.
    + assert (Es : savepoint m (at_rest t) = (Ok tt, at_rest (cn_tables c1))) by by unfold savepoint; rewrite E.
      rewrite (db_bind_Ok _ _ _ _ _ Es). intros [= <- <-]. left. unfold m in E. apply db_bind_inv in E as ([]&[t1 com1]&E1&E2).
      destruct (insert_execution_spec _ _ _ _ _ _ E1) as [_ Ht1]. destruct (Ht1 eq_refl) as [Hnew Ht]. cbn in Ht. subst t1.
      destruct (insert_operation_results_spec _ _ _ _ _ _ E2) as [_ Ht2]. rewrite (Ht2 eq_refl).
      by destruct (insert_operation_results_unique _ _ _ _ _ E2).
    + assert (Es : savepoint m (at_rest t) = (Raise e, at_rest t)) by by unfold savepoint; rewrite E.
      rewrite (db_bind_Raise _ _ _ _ _ Es). intros [= <- <-]. right. by exists e.
Qed.

(** ** The stored executions and their invariant *)

Definition exec_store_ok (t : ExecTables) : Prop :=
  NoDup (xr_execution_id <$> xt_executions t) ∧ NoDup (xr_idempotency_key <$> xt_executions t) ∧
  ∀ p, p ∈ xt_operations t → pr_execution_id p ∈ xr_execution_id <$> xt_executions t.

Definition empty_store : ExecTables := MkExecTables [] [].

Lemma empty_store_ok : exec_store_ok empty_store.
Proof. split_and!; [constructor|constructor|]. by intros p ?%elem_of_nil. Qed.

Lemma saved_ok r fp t : exec_store_ok t → new_execution r t → exec_store_ok (saved r fp t).
Proof.
  intros (Hi&Hk&Ho) [Hni Hnk]. unfold saved. split_and!; cbn [xt_executions xt_operations].
  - rewrite fmap_app. apply NoDup_app. split_and!; [done| |apply NoDup_singleton].
    intros x Hx ->%list_elem_of_singleton. by apply Hni.
  - rewrite fmap_app. apply NoDup_app. split_and!; [done| |apply NoDup_singleton].
    intros x Hx ->%list_elem_of_singleton. by apply Hnk.
  - intros p [Hp|Hp]%elem_of_app; rewrite fmap_app, elem_of_app; [left; by apply Ho|right].
    apply list_elem_of_fmap in Hp as (o&->&_). by left.
Qed.

Lemma find_key key l row : List.find (λ r, String.eqb (xr_idempotency_key r) key) l = Some row →
  row ∈ l ∧ xr_idempotency_key row = key.
Proof. intros H. apply List.find_some in H as [H1 H2%String.eqb_eq]. by rewrite list_elem_of_In. Qed.

(** What later saves keep: the rows found, and their operation rows. *)
Lemma find_saved key row r fp t : find_execution key t = Some row → find_execution key (saved r fp t) = Some row.
Proof.
  unfold find_execution, saved. cbn [xt_executions]. induction (xt_executions t) as [|x l IH]; [done|].
  cbn [List.find app]. by destruct (String.eqb _ key).
Qed.

Lemma operation_rows_saved id r fp t : id ≠ result_id r → operation_rows id (saved r fp t) = operation_rows id t.
Proof.
  intros Hne. unfold operation_rows, saved. cbn [xt_operations]. f_equal. rewrite filter_app.
  rewrite (filter_none _ (op_row (result_id r) <$> er_results r)), app_nil_r; [done|].
  apply Forall_forall. intros p Hp. apply list_elem_of_fmap in Hp as (o&->&_). cbn. congruence.
Qed.

Lemma find_saved_new r fp t : new_execution r t →
  find_execution (er_idempotency_key r) (saved r fp t) = Some (exec_row r fp).
Proof.
  intros [_ Hk]. unfold find_execution, saved. cbn [xt_executions].
  induction (xt_executions t) as [|x l IH]; cbn [List.find app].
  - cbn. by rewrite String.eqb_refl.
  - rewrite fmap_cons, not_elem_of_cons in Hk. destruct Hk as [Hx Hk].
    destruct (String.eqb_spec (xr_idempotency_key x) (er_idempotency_key r)); [congruence|]. by apply IH.
Qed.

(** ** Reading back *)

(** How a result comes back: its operations by identifier, its JSON sorted. *)
Definition read_op (o : GuardedOperationResult) : GuardedOperationResult :=
  MkOpResult (or_operation_id o) (or_decision_id o) (or_execution_status o) (or_reason o) (or_guard_decision_approved o)
    (or_guard_decision_idempotency_key o) (or_guard_blocked_reasons o) (or_mutation_type o) (sort_json (or_mutation_payload o)).

Definition by_operation_id (o p : GuardedOperationResult) : bool := String.leb (or_operation_id o) (or_operation_id p).

Definition read_form (r : GuardedApplyExecutionResult) : GuardedApplyExecutionResult :=
  MkExecResult (er_plan_id r) (er_idempotency_key r) (er_execution_status r) (read_op <$> isort by_operation_id (er_results r))
    (er_total_operations r) (er_operated_executed r) (er_operated_blocked r) (er_operated_skipped r) (er_block_reason r)
    (er_guard_decision_refs r) (er_executed_at r) (sort_json (er_audit_trail r)) (er_is_dry_run r).

(** JSON objects of ASCII texts that are read back. *)
Definition dict_ok (v : json) : bool := match v with JDict _ => json_ok is_ascii v | _ => false end.
Definition texts_ok (l : list string) : bool := json_ok is_ascii (json_strs l).
Definition op_storable (o : GuardedOperationResult) : bool := dict_ok (or_mutation_payload o) && texts_ok (or_guard_blocked_reasons o).
Definition storable (r : GuardedApplyExecutionResult) : bool :=
  forallb op_storable (er_results r) && texts_ok (er_guard_decision_refs r) && dict_ok (er_audit_trail r).

Lemma sort_texts l : sort_json (json_strs l) = json_strs l.
Proof. unfold json_strs. cbn. f_equal. induction l as [|s l IH]; [done|]. rewrite fmap_cons. cbn. by rewrite IH. Qed.

Lemma texts_read l : mapM json_text (JStr <$> l) = Ok l.
Proof. induction l as [|s l IH]; [done|]. rewrite fmap_cons. cbn. by rewrite IH. Qed.

Lemma tuple_read l : texts_ok l = true → deserialize_tuple (canonical (json_strs l)) = Ok l.
Proof.
  intros H. unfold deserialize_tuple. change (str_empty (canonical (json_strs l))) with false. cbn iota.
  change (canonical (json_strs l)) with (of_chars (json_chars_with escape_char (json_strs l))).
  rewrite (loads_canonical escape_char is_ascii _ escape_char_undoes H), sort_texts. apply texts_read.
Qed.

Lemma dict_read v : dict_ok v = true → deserialize_dict (canonical v) = Ok (sort_json v).
Proof.
  destruct v as [| | | | | |d]; try done. intros H. unfold deserialize_dict.
  change (str_empty (canonical (JDict d))) with false. cbn iota.
  change (canonical (JDict d)) with (of_chars (json_chars_with escape_char (JDict d))).
  by rewrite (loads_canonical escape_char is_ascii _ escape_char_undoes H).
Qed.

Lemma status_read s : status_of_text (ApplyExecutionStatus.value s) = Ok s.
Proof.
  unfold status_of_text. change (ApplyExecutionStatus.value s) with (enum_value s). by rewrite enum_of_value_of.
Qed.

Lemma op_read id o : op_storable o = true → op_row_to_result (op_row id o) = Ok (read_op o).
Proof.
  intros [Hp Hr]%andb_prop. unfold op_row_to_result, op_row. cbn [pr_execution_status pr_guard_blocked_reasons_json
    pr_mutation_payload_json]. rewrite status_read, (tuple_read _ Hr), (dict_read _ Hp). done.
Qed.

Lemma ops_read id l : forallb op_storable l = true → mapM op_row_to_result (op_row id <$> l) = Ok (read_op <$> l).
Proof.
  induction l as [|o l IH]; [done|]. cbn [forallb]. intros [Ho H]%andb_prop. rewrite !fmap_cons. cbn [mapM].
  rewrite (op_read id o Ho). cbn [mbind result_bind]. by rewrite IH.
Qed.

Lemma operation_rows_new r fp t : exec_store_ok t → new_execution r t →
  operation_rows (result_id r) (saved r fp t) = op_row (result_id r) <$> isort by_operation_id (er_results r).
Proof.
  intros (_&_&Ho) [Hni _]. unfold operation_rows, saved. cbn [xt_operations]. rewrite filter_app.
  rewrite (filter_none _ (xt_operations t)); [|apply Forall_forall; intros p Hp E; apply Hni; rewrite <- E; by apply Ho].
  cbn [app]. rewrite filter_all; [by apply isort_fmap|]. apply Forall_forall. intros p Hp. apply list_elem_of_fmap in Hp as (o&->&_). done.
Qed.

Lemma forallb_isort {A} (p : A → bool) leb l : forallb p l = true → forallb p (isort leb l) = true.
Proof.
  rewrite !List.forallb_forall. intros H x Hx. apply H. rewrite <- list_elem_of_In in *. by rewrite isort_elem_of in Hx.
Qed.

(** The answer a stored row gives. *)
Definition stored_answer (row : ExecutionRow) (t : ExecTables) : result GuardedApplyExecutionResult :=
  results ← mapM op_row_to_result (operation_rows (xr_execution_id row) t);
  guard_refs ← deserialize_tuple (xr_guard_decision_refs_json row);
  audit_trail ← deserialize_dict (xr_audit_trail_json row);
  status ← status_of_text (xr_execution_status row);
  Ok (MkExecResult (xr_plan_id row) (xr_idempotency_key row) status results (xr_total_operations row)
        (xr_operations_executed row) (xr_operations_blocked row) (xr_operations_skipped row) (xr_block_reason row)
        guard_refs (xr_executed_at row) audit_trail (xr_is_dry_run row)).

Lemma row_to_result_spec row c : row_to_result row c = (stored_answer row (cn_tables c), c).
Proof.
  unfold row_to_result, stored_answer, mbind, db_bind, lift, read, mret, db_ret.
  destruct (mapM _ _); [|done]. cbn [result_bind]. destruct (deserialize_tuple _); [|done]. cbn [result_bind].
  destruct (deserialize_dict _); [|done]. cbn [result_bind]. by destruct (status_of_text _).
Qed.

Lemma get_by_key_spec key c : get_by_idempotency_key key c =
  (match find_execution key (cn_tables c) with Some row => Some <$> stored_answer row (cn_tables c) | None => Ok None end, c).
Proof.
  unfold get_by_idempotency_key, opt_row_to_result, mbind, db_bind, read, mret, db_ret.
  destruct (find_execution key (cn_tables c)) as [row|]; [|done]. rewrite row_to_result_spec.
  by destruct (stored_answer row (cn_tables c)).
Qed.

Lemma saved_answer r fp t : exec_store_ok t → new_execution r t → storable r = true →
  stored_answer (exec_row r fp) (saved r fp t) = Ok (read_form r).
Proof.
  intros Hok Hnew [[Hops Hrefs]%andb_prop Haudit]%andb_prop. unfold stored_answer. cbn [exec_row xr_execution_id
    xr_guard_decision_refs_json xr_audit_trail_json xr_execution_status]. rewrite (operation_rows_new r fp t Hok Hnew).
  rewrite (ops_read _ _ (forallb_isort _ _ _ Hops)), (tuple_read _ Hrefs), (dict_read _ Haudit), status_read. done.
Qed.
