(* ===== verification/GuardedRuntimeProps.v ===== *)
(** * The guarded runtime over its repository

    The runtime with a repository as a system of processes: calls under any
    keys, resets and restarts.  What is stored stays and answers for its key,
    a first execution survives restarts, and the classification of a repeated
    call agrees with the call. *)

From Stdlib Require Import Ascii ZArith SpecFloat Lia.
From stdpp Require Import base sets strings sorting numbers list relations.
From S2P Require Import Prelude PyValue Hash Json JsonParse JsonRoundtrip ReconModels ReviewModels BoundCodec FinalMutation ApplyPlan Snapshot Sqlite ApplyPlanProps ApplyProps BatchApply GuardedExec ExecStore GuardedRuntime GuardedProps ExecStoreProps.

Open Scope Z_scope.

(** ** A sample call *)

Definition sample_now : string := "2024-05-02T10:00:00+00:00".
Definition sample_plan : ReconciliationApplyPlan :=
  plan_of (oi_plan_inputs sample_orchestration) (oi_plan_label sample_orchestration).
Definition sample_guards : guard_map := oi_guard_decisions_by_operation_id sample_orchestration.
Definition sample_start : GuardedApplyRuntime := new_guarded_runtime (Some (at_rest empty_store)).
Definition sample_run : result GuardedApplyExecutionResult * GuardedApplyRuntime :=
  execute_plan sample_start sample_plan sample_guards "key-1" sample_now.

#[local] Strategy expand [sample_run].

(** The runtime after the call, as a pair of its registry and its tables. *)
Lemma sample_runs : ∃ r rt, sample_run = (Ok r, rt) ∧ storable r = true.
Proof.
  destruct sample_run as [[r|e] rt] eqn:E.
  - exists r, rt. split; [reflexivity|].
    assert (H : match sample_run.1 with Ok r => storable r | Raise _ => false end = true) by (vm_compute; exact eq_refl).
    rewrite E in H. exact H.
  - exfalso. assert (H : is_ok sample_run.1 = true) by (vm_compute; exact eq_refl). rewrite E in H. discriminate H.
Qed.

(** ** A call over a stored execution *)

Definition persisted_conflict (plan : ReconciliationApplyPlan) (key now : string) : GuardedApplyExecutionResult :=
  conflict_result plan key
    ("Idempotency key '" +:+ key +:+ "' reused with different plan content (fingerprint mismatch against persisted state).")
    ("Idempotency key '" +:+ key +:+
     "' reused with materially different plan content (fingerprint mismatch against persisted state).") now.

(** The answer to a call whose key has a stored execution. *)
Definition replayed (row : ExecutionRow) (t : ExecTables) (plan : ReconciliationApplyPlan) (guards : guard_map)
    (key now : string) : result GuardedApplyExecutionResult :=
  r ← stored_answer row t;
  Ok (if String.eqb (xr_execution_fingerprint row) (build_execution_fingerprint plan guards key) then r
      else persisted_conflict plan key now).

Lemma durable_answer_spec plan key fp now c : durable_answer plan key fp now c =
  (match find_execution key (cn_tables c) with
   | None => Ok None
   | Some row =>
       match stored_answer row (cn_tables c) with
       | Raise e => Raise e
       | Ok r => Ok (Some (if String.eqb (xr_execution_fingerprint row) fp then (r, true)
                           else (persisted_conflict plan key now, false)))
       end
   end, c).
Proof.
  unfold durable_answer, mbind, db_bind. rewrite get_by_key_spec.
  destruct (find_execution key (cn_tables c)) as [row|] eqn:Ef; [|done].
  destruct (stored_answer row (cn_tables c)) as [r|e]; [|done]. cbn [fmap result_fmap].
  unfold get_idempotency_fingerprint, mbind, db_bind, read, mret, db_ret. rewrite Ef. cbn [fmap option_fmap option_map].
  destruct (String.eqb_spec (xr_execution_fingerprint row) fp) as [->|Hne]; [by rewrite bool_decide_true|].
  by rewrite bool_decide_false by congruence.
Qed.

Definition repository_at (rt : GuardedApplyRuntime) (t : ExecTables) : Prop := gr_repository rt = Some (at_rest t).

Lemma repository_at_inj rt t t' : repository_at rt t → repository_at rt t' → t = t'.
Proof. unfold repository_at, at_rest. congruence. Qed.

Lemma execute_stored rt t plan guards key now row :
  repository_at rt t → find_execution key t = Some row → str_empty key = false → plan_operations plan ≠ [] →
  ∃ rt', execute_plan rt plan guards key now = (replayed row t plan guards key now, rt') ∧ repository_at rt' t.
Proof.
  intros Hr Hf Hk Hops. unfold execute_plan. rewrite Hk. replace (is_nil (plan_operations plan)) with false
    by by destruct (plan_operations plan).
  unfold check_durable_idempotency. rewrite Hr, durable_answer_spec. cbn [cn_tables at_rest]. rewrite Hf. unfold replayed.
  destruct (stored_answer row t) as [r|e]; cbn [mbind result_bind]; [|by eexists].
  destruct (String.eqb _ _); by eexists.
Qed.

(** ** What a call does to the store *)

(** The store is unchanged, or gains one execution under a key it did not have. *)
Definition store_grows (t t' : ExecTables) : Prop :=
  t' = t ∨ ∃ r fp, t' = saved r fp t ∧ new_execution r t ∧ find_execution (er_idempotency_key r) t = None.

Lemma persist_spec rt t r fp x rt' : repository_at rt t → persist_if_configured rt r fp = (x, rt') →
  ∃ t', repository_at rt' t' ∧ gr_executed rt' = gr_executed rt ∧ store_grows t t' ∧
    (find_execution (er_idempotency_key r) t = None → x = Ok tt → t' = saved r fp t ∧ new_execution r t) ∧
    (∀ e, x = Raise e → t' = t).
Proof.
  intros Hr. unfold persist_if_configured. rewrite Hr. destruct (save_execution_result r fp (at_rest t)) as [y c] eqn:E.
  pose proof (save_spec _ _ _ _ _ E) as Hs. intros [= <- <-].
  destruct (find_execution (er_idempotency_key r) t) as [row|] eqn:Ef.
  - destruct Hs as [-> ->]. exists t. by split_and!; [done|done|left|done|].
  - destruct Hs as [(->&->&Hnew&_)|(e&->&->)].
    + exists (saved r fp t). split_and!; [done|done|right; by exists r, fp|done|done].
    + exists t. by split_and!; [done|done|left|done|].
Qed.

Lemma execute_grows rt t plan guards key now x rt' : repository_at rt t →
  execute_plan rt plan guards key now = (x, rt') → ∃ t', repository_at rt' t' ∧ store_grows t t'.
Proof.
  intros Hr. unfold execute_plan. destruct (str_empty key); [intros [= <- <-]; exists t; by split; [|left]|].
  destruct (is_nil _); [intros [= <- <-]; exists t; by split; [|left]|].
  unfold check_durable_idempotency. rewrite Hr, durable_answer_spec.
  destruct (match find_execution key _ with None => _ | Some row => _ end) as [[[r [|]]|]|e];
    try (intros [= <- <-]; exists t; by split; [|left]).
  set (rt1 := MkGuardedRuntime (gr_executed rt) (Some (at_rest t))).
  destruct (check_idempotency rt1 plan key _ now) as [r|]; [intros [= <- <-]; exists t; by split; [|left]|].
  unfold execute_first. rewrite fresh_execution_spec.
  set (r := build_result _ _ _ _ _ _ _). set (rt2 := remember rt1 key _).
  destruct (persist_if_configured rt2 r _) as [y rt3] eqn:Ep. intros [= <- <-].
  assert (Hr2 : repository_at rt2 t) by done.
  destruct (persist_spec _ _ _ _ _ _ Hr2 Ep) as (t'&Hr'&_&Hg&_). by exists t'.
Qed.

(** ** Processes *)

Inductive runtime_step (rt rt' : GuardedApplyRuntime) : Prop :=
  | step_execute plan guards key now x : execute_plan rt plan guards key now = (x, rt') → runtime_step rt rt'
  | step_reset : rt' = reset_runtime rt → runtime_step rt rt'
  | step_restart c : gr_repository rt = Some c → rt' = new_guarded_runtime (Some (reopened c)) → runtime_step rt rt'.

Lemma runtime_step_grows rt rt' t : repository_at rt t → runtime_step rt rt' → ∃ t', repository_at rt' t' ∧ store_grows t t'.
Proof.
  intros Hr [plan guards key now x H| -> |c Hc ->].
  - by eapply execute_grows.
  - exists t. by split; [|left].
  - exists t. unfold repository_at in *. rewrite Hr in Hc. injection Hc as <-. by split; [|left].
Qed.

Lemma grows_ok t t' : exec_store_ok t → store_grows t t' → exec_store_ok t'.
Proof. intros Hok [-> |(r&fp&->&Hnew&_)]; [done|by apply saved_ok]. Qed.

Lemma grows_keeps t t' key row : exec_store_ok t → store_grows t t' → find_execution key t = Some row →
  find_execution key t' = Some row ∧ stored_answer row t' = stored_answer row t.
Proof.
  intros Hok [-> |(r&fp&->&[Hni _]&_)] Hf; [done|]. split; [by apply find_saved|]. unfold stored_answer.
  rewrite operation_rows_saved; [done|]. intros E. apply Hni. rewrite <- E.
  apply list_elem_of_fmap_2. by apply find_key in Hf as [Hf _].
Qed.

Lemma steps_keep rt rt' t key row : exec_store_ok t → repository_at rt t → rtc runtime_step rt rt' →
  find_execution key t = Some row →
  ∃ t', repository_at rt' t' ∧ exec_store_ok t' ∧ find_execution key t' = Some row ∧
    stored_answer row t' = stored_answer row t.
Proof.
  intros Hok Hr H. revert t Hok Hr. induction H as [rt|rt rt1 rt' Hs _ IH]; intros t Hok Hr Hf; [by exists t|].
  destruct (runtime_step_grows _ _ _ Hr Hs) as (t1&Hr1&Hg). destruct (grows_keeps _ _ _ _ Hok Hg Hf) as [Hf1 Ha1].
  destruct (IH t1 (grows_ok _ _ Hok Hg) Hr1 Hf1) as (t'&Hr'&Hok'&Hf'&Ha'). exists t'. split_and!; [done..|congruence].
Qed.

(** Reached from an empty database. *)
Definition runtime_reachable (rt : GuardedApplyRuntime) : Prop :=
  rtc runtime_step (new_guarded_runtime (Some (at_rest empty_store))) rt.

Lemma reachable_store rt : runtime_reachable rt → ∃ t, repository_at rt t ∧ exec_store_ok t.
Proof.
  unfold runtime_reachable. set (rt0 := new_guarded_runtime _).
  assert (H0 : ∃ t, repository_at rt0 t ∧ exec_store_ok t) by by exists empty_store; split; [|apply empty_store_ok].
  intros H. revert H0. generalize rt0 H. clear. intros rt0 H. induction H as [rt|rt rt1 rt' Hs _ IH]; [done|].
  intros (t&Hr&Hok). apply IH. destruct (runtime_step_grows _ _ _ Hr Hs) as (t1&Hr1&Hg). exists t1. split; [done|].
  by eapply grows_ok.
Qed.

(** C29: What is stored under a key is final.  Once an execution is stored,
    then after any further calls under any keys, resets and restarts of the
    process, its row and the answer it gives are what they were; and every
    later call under its key writes nothing and returns that answer when the
    content has the stored fingerprint, and a conflict that blocks every
    operation when it has not. *)
Theorem stored_execution_final rt t rt' key row plan guards now :
  runtime_reachable rt → repository_at rt t → find_execution key t = Some row → rtc runtime_step rt rt' →
  str_empty key = false → plan_operations plan ≠ [] →
  ∃ t' rt'', repository_at rt' t' ∧ find_execution key t' = Some row ∧
    execute_plan rt' plan guards key now = (replayed row t plan guards key now, rt'') ∧ repository_at rt'' t'.
Proof.
  intros Hr Ht Hf Hs Hk Hops. destruct (reachable_store rt Hr) as (t0&Ht0&Hok).
  assert (t0 = t) as -> by by eapply repository_at_inj.
  destruct (steps_keep _ _ _ _ _ Hok Ht Hs Hf) as (t'&Ht'&_&Hf'&Ha).
  destruct (execute_stored rt' t' plan guards key now row Ht' Hf' Hk Hops) as (rt''&He&Hr''). exists t', rt''.
  split_and!; [done..| |done]. rewrite He. unfold replayed. by rewrite Ha.
Qed.

(** An execution stored in a database of its own. *)
Lemma sample_stored : ∃ rt t row,
  runtime_reachable rt ∧ repository_at rt t ∧ find_execution "key-1" t = Some row.
Proof.
  destruct sample_runs as (r&rt&Hrun&_). assert (Hs : runtime_step sample_start rt) by exact (step_execute _ _ sample_plan sample_guards "key-1" sample_now _ Hrun).
  destruct (runtime_step_grows sample_start rt empty_store eq_refl Hs) as (t&Ht&_).
  assert (H : match gr_repository sample_run.2 with
              | Some c => bool_decide (is_Some (find_execution "key-1" (cn_tables c)))
              | None => false
              end = true) by (vm_compute; exact eq_refl).
  rewrite Hrun in H. cbn [snd] in H. rewrite Ht in H. apply bool_decide_eq_true in H as [row Hrow].
  exists rt, t, row. split; [exact (rtc_once _ _ Hs)|]. split; [exact Ht|exact Hrow].
Qed.

(** The same key for a plan without the second input is a conflict. *)
Lemma stored_execution_final_witness : ∃ rt t row rt',
  execute_plan rt (plan_of [sample_input "d1" None] "") sample_guards "key-1" sample_now =
    (replayed row t (plan_of [sample_input "d1" None] "") sample_guards "key-1" sample_now, rt').
Proof.
  destruct sample_stored as (rt&t&row&Hr&Ht&Hf).
  destruct (stored_execution_final rt t rt "key-1" row (plan_of [sample_input "d1" None] "") sample_guards sample_now
    Hr Ht Hf (rtc_refl _ _) eq_refl ltac:(discriminate)) as (t'&rt'&_&_&He&_).
  exists rt, t, row, rt'. exact He.
Defined.

(** ** A first execution *)

Lemma execute_first_call rt t plan guards key now r rt' :
  repository_at rt t → find_execution key t = None → dict_get key (gr_executed rt) = None →
  str_empty key = false → plan_operations plan ≠ [] → execute_plan rt plan guards key now = (Ok r, rt') →
  fresh_execution plan guards key now = Ok r ∧ new_execution r t ∧
  repository_at rt' (saved r (build_execution_fingerprint plan guards key) t).
Proof.
  intros Hr Hf Hm Hk Hops. unfold execute_plan. rewrite Hk. replace (is_nil (plan_operations plan)) with false
    by by destruct (plan_operations plan).
  unfold check_durable_idempotency. rewrite Hr, durable_answer_spec. cbn [cn_tables at_rest]. rewrite Hf.
  unfold check_idempotency. cbn [gr_executed]. rewrite Hm. unfold execute_first. rewrite fresh_execution_spec.
  set (r0 := build_result _ _ _ _ _ _ _). set (rt2 := remember _ key _).
  destruct (persist_if_configured rt2 r0 _) as [y rt3] eqn:Ep. intros [= Hx <-].
  destruct y as [[]|e]; [|done]. cbn in Hx. injection Hx as <-.
  assert (Hr2 : repository_at rt2 t) by done. destruct (persist_spec _ _ _ _ _ _ Hr2 Ep) as (t'&Hr'&_&_&Hsave&_).
  destruct (Hsave Hf eq_refl) as [-> Hnew]. by split_and!.
Qed.

(** C30: A first execution survives restarts.  When a call under a new key
    returns a result of ASCII texts over a repository, then after any further
    calls, resets and restarts the same call returns the same result again,
    read back from the database: the same but for the order of its operations,
    now by identifier, and of the members of its JSON objects. *)
Theorem execution_survives_restarts rt t plan guards key now r rt1 rt2 now' :
  runtime_reachable rt → repository_at rt t → find_execution key t = None → dict_get key (gr_executed rt) = None →
  str_empty key = false → plan_operations plan ≠ [] → execute_plan rt plan guards key now = (Ok r, rt1) →
  storable r = true → rtc runtime_step rt1 rt2 →
  ∃ rt3, execute_plan rt2 plan guards key now' = (Ok (read_form r), rt3) ∧ gr_repository rt3 = gr_repository rt2.
Proof.
  intros Hr Ht Hf Hm Hk Hops He Hst Hs. destruct (reachable_store rt Hr) as (t0&Ht0&Hok).
  assert (t0 = t) as -> by by eapply repository_at_inj.
  destruct (execute_first_call _ _ _ _ _ _ _ _ Ht Hf Hm Hk Hops He) as (Hfresh&Hnew&Ht1).
  assert (Hkey : er_idempotency_key r = key) by by (rewrite fresh_execution_spec in Hfresh; injection Hfresh as <-).
  pose proof (find_saved_new r (build_execution_fingerprint plan guards key) t Hnew) as Hf1. rewrite Hkey in Hf1.
  destruct (steps_keep _ _ _ _ _ (saved_ok _ _ _ Hok Hnew) Ht1 Hs Hf1) as (t2&Ht2&_&Hf2&Ha).
  destruct (execute_stored rt2 t2 plan guards key now' _ Ht2 Hf2 Hk Hops) as (rt3&He3&Hr3). exists rt3.
  split; [|unfold repository_at in *; congruence]. rewrite He3. unfold replayed.
  rewrite Ha, (saved_answer _ _ _ Hok Hnew Hst). cbn [mbind result_bind exec_row xr_execution_fingerprint].
  by rewrite String.eqb_refl.
Qed.

(** A later process gets the result back. *)
Lemma execution_survives_restarts_witness : ∃ r rt3 c,
  sample_run.1 = Ok r ∧
  execute_plan (new_guarded_runtime (Some (reopened c))) sample_plan sample_guards "key-1" "later" = (Ok (read_form r), rt3).
Proof.
  destruct sample_runs as (r&rt&Hrun&Hst).
  destruct (gr_repository rt) as [c|] eqn:Hc.
  - destruct (execution_survives_restarts sample_start empty_store sample_plan sample_guards "key-1" sample_now r rt
      (new_guarded_runtime (Some (reopened c))) "later" (rtc_refl _ _) eq_refl eq_refl eq_refl eq_refl ltac:(discriminate)
      Hrun Hst (rtc_once _ _ (step_restart _ _ c Hc eq_refl))) as (rt3&He&_).
    exists r, rt3, c. split; [rewrite Hrun; exact eq_refl|exact He].
  - exfalso. assert (H : has_persistence sample_run.2 = true) by (vm_compute; exact eq_refl).
    rewrite Hrun in H. unfold has_persistence in H. cbn [snd] in H. by rewrite Hc in H.
Defined.

(** ** The classification of a repeated call *)

Lemma classify_spec i t : classify_reconciliation_apply_idempotency i (at_rest t) =
  (plan ← (raise_when (str_empty (oi_idempotency_key i)) ValueError
             "classify_reconciliation_apply_idempotency requires a non-empty idempotency_key";;
           raise_when (is_nil (oi_plan_inputs i)) ValueError
             "classify_reconciliation_apply_idempotency requires at least one plan input";;
           build_reconciliation_apply_plan (oi_plan_inputs i) (oi_plan_label i));
   let key := oi_idempotency_key i in
   let candidate := build_execution_fingerprint plan (oi_guard_decisions_by_operation_id i) key in
   match find_execution key t with
   | None => Ok (MkClassification ApplyIdempotencyOutcome.NO_PRIOR_EXECUTION key candidate false None None None "" ""
                    (build_classification_note ApplyIdempotencyOutcome.NO_PRIOR_EXECUTION None key))
   | Some row =>
       prior ← stored_answer row t;
       let outcome := if String.eqb (xr_execution_fingerprint row) candidate
                      then outcome_for_matching_fingerprint (er_execution_status prior)
                      else ApplyIdempotencyOutcome.CONFLICT in
       Ok (MkClassification outcome key candidate true (Some (derive_execution_id (er_plan_id prior) key)) (Some (er_execution_status prior))
             (Some (xr_execution_fingerprint row)) (er_block_reason prior) (er_executed_at prior)
             (build_classification_note outcome (Some (er_execution_status prior)) key))
   end, at_rest t).
Proof.
  unfold classify_reconciliation_apply_idempotency, mbind, db_bind, lift.
  destruct (raise_when (str_empty _) _ _) as [[]|]; [|done]. destruct (raise_when (is_nil _) _ _) as [[]|]; [|done].
  destruct (build_reconciliation_apply_plan _ _) as [plan|]; [|done]. cbn [result_bind]. rewrite get_by_key_spec. cbn [cn_tables at_rest].
  destruct (find_execution _ t) as [row|] eqn:Ef; [|done]. destruct (stored_answer row t) as [prior|]; [|done].
  cbn [fmap result_fmap result_bind]. unfold get_idempotency_fingerprint, mbind, db_bind, read, mret, db_ret. cbn [cn_tables at_rest].
  rewrite Ef. cbn [fmap option_fmap option_map].
  destruct (String.eqb_spec (xr_execution_fingerprint row)
    (build_execution_fingerprint plan (oi_guard_decisions_by_operation_id i) (oi_idempotency_key i))) as [E|Hne].
  - by rewrite bool_decide_true by congruence.
  - by rewrite bool_decide_false by congruence.
Qed.

Lemma fresh_not_conflict plan guards key now r :
  fresh_execution plan guards key now = Ok r → er_execution_status r ≠ ApplyExecutionStatus.CONFLICT.
Proof.
  rewrite fresh_execution_spec. intros [= <-]. cbn. rewrite fresh_status_runs. unfold status_of_runs.
  destruct (existsb _ _); [|done]. by destruct (forallb _ _).
Qed.

Lemma plan_has_operations inputs label plan : build_reconciliation_apply_plan inputs label = Ok plan → plan_operations plan ≠ [].
Proof.
  unfold build_reconciliation_apply_plan. destruct inputs as [|i l]; [done|]. cbn [is_nil raise_when mbind result_bind].
  by intros [= <-].
Qed.

(** The statuses of the stored execution an outcome stands for. *)
Inductive stands_for : ApplyIdempotencyOutcome.t → ApplyExecutionStatus.t → Prop :=
  | replay_of_executed : stands_for ApplyIdempotencyOutcome.IDEMPOTENT_REPLAY ApplyExecutionStatus.EXECUTED
  | prior_was_blocked : stands_for ApplyIdempotencyOutcome.PRIOR_BLOCKED ApplyExecutionStatus.BLOCKED
  | prior_was_partial : stands_for ApplyIdempotencyOutcome.PRIOR_PARTIALLY_BLOCKED ApplyExecutionStatus.PARTIALLY_BLOCKED
  | prior_was_unsupported : stands_for ApplyIdempotencyOutcome.PRIOR_REQUIRES_REVIEW ApplyExecutionStatus.UNSUPPORTED
  | prior_was_conflict : stands_for ApplyIdempotencyOutcome.PRIOR_REQUIRES_REVIEW ApplyExecutionStatus.CONFLICT.

(** What the orchestration of a classified call does. *)
Definition as_classified (cl : ApplyIdempotencyClassification) (t : ExecTables)
    (out : result ApplyOrchestrationResult * GuardedApplyRuntime) : Prop :=
  match ic_outcome cl with
  | ApplyIdempotencyOutcome.NO_PRIOR_EXECUTION =>
      ∀ o, out.1 = Ok o → oo_persisted o = true ∧
        ∃ t', repository_at out.2 t' ∧ is_Some (find_execution (ic_idempotency_key cl) t')
  | ApplyIdempotencyOutcome.CONFLICT =>
      ∃ o, out.1 = Ok o ∧ oo_status o = ApplyOrchestrationStatus.CONFLICT ∧ oo_persisted o = false ∧ repository_at out.2 t
  | outcome =>
      ∃ o row, out.1 = Ok o ∧ find_execution (ic_idempotency_key cl) t = Some row ∧
        stored_answer row t = Ok (oo_execution_result o) ∧
        stands_for outcome (er_execution_status (oo_execution_result o)) ∧
        oo_persisted o = false ∧ repository_at out.2 t
  end.

(** C31: The classification of a call says what the call does.  It changes
    nothing; when it finds no prior execution, an orchestration that returns
    has stored one; when it says conflict, the orchestration returns a conflict
    and stores nothing; and otherwise the orchestration returns the stored
    execution, whose status is the one classified, and stores nothing. *)
Theorem classification_predicts i t now cl c' :
  classify_reconciliation_apply_idempotency i (at_rest t) = (Ok cl, c') →
  c' = at_rest t ∧ as_classified cl t (orchestrate_reconciliation_apply i (Some (at_rest t)) None now).
Proof.
  rewrite classify_spec. intros [= Hcl <-]. split; [done|].
  apply bind_Ok in Hcl as (plan&Hp&Hcl). apply bind_Ok in Hp as ([]&Hk%raise_when_Ok&Hp).
  apply bind_Ok in Hp as ([]&Hi%raise_when_Ok&Hp). pose proof (plan_has_operations _ _ _ Hp) as Hops. cbv zeta in Hcl.
  unfold orchestrate_reconciliation_apply. rewrite Hk, Hi. unfold orchestrate_with. rewrite Hp.
  set (guards := oi_guard_decisions_by_operation_id i) in *. set (key := oi_idempotency_key i) in *.
  set (rt := new_guarded_runtime (Some (at_rest t))). assert (Hr : repository_at rt t) by done. cbn [cn_tables at_rest].
  destruct (find_execution key t) as [row|] eqn:Ef.
  - apply bind_Ok in Hcl as (prior&Ha&[= <-]).
    destruct (execute_stored rt t plan guards key now row Hr Ef Hk Hops) as (rt'&He&Hr').
    rewrite He. unfold replayed. rewrite Ha. cbn [mbind result_bind]. unfold as_classified. cbn [ic_outcome].
    assert (Hp' : has_persistence rt' = true) by by unfold has_persistence; rewrite Hr'.
    destruct (String.eqb _ _).
    + destruct (er_execution_status prior) eqn:Es; cbn [outcome_for_matching_fingerprint fst snd]; rewrite Hp';
        (eexists _, row; split_and!; [reflexivity|exact Ef|exact Ha|cbn; rewrite Es; constructor| |exact Hr']);

        cbn; unfold did_persist_new_row; cbn; by destruct (bool_decide _).
    + cbn [fst snd]. rewrite Hp'. eexists. by split_and!.
  - injection Hcl as <-. unfold as_classified. cbn [ic_outcome ic_idempotency_key]. intros o.
    destruct (execute_plan rt plan guards key now) as [[r|e] rt'] eqn:He; [|done]. cbn [mbind result_bind fst snd].
    destruct (execute_first_call _ _ _ _ _ _ _ _ Hr Ef eq_refl Hk Hops He) as (Hfresh&Hnew&Hr').
    intros [= <-]. cbn [oo_persisted]. split.
    + unfold did_persist_new_row, has_persistence. rewrite Hr'. cbn [negb].
      by rewrite bool_decide_false by by eapply fresh_not_conflict.
    + eexists. split; [exact Hr'|]. eexists.
      assert (Hkey : er_idempotency_key r = key) by by (rewrite fresh_execution_spec in Hfresh; injection Hfresh as <-).
      rewrite <- Hkey. by apply find_saved_new.
Qed.

(** On an empty database nothing is found. *)
Lemma classification_predicts_witness : ∃ cl,
  classify_reconciliation_apply_idempotency sample_orchestration (at_rest empty_store) = (Ok cl, at_rest empty_store) ∧
  as_classified cl empty_store (orchestrate_reconciliation_apply sample_orchestration (Some (at_rest empty_store)) None sample_now).
Proof.
  destruct (classify_reconciliation_apply_idempotency sample_orchestration (at_rest empty_store)) as [[cl|e] c] eqn:E.
  - destruct (classification_predicts sample_orchestration empty_store sample_now cl c E) as [-> H]. by exists cl.
  - exfalso. rewrite classify_spec in E. injection E as E _. discriminate E.
Defined.

(** ** An execution that is not stored *)

Lemma results_ids plan guards : or_operation_id <$> outcomes plan guards = op_operation_id <$> plan_operations plan.
Proof. unfold outcomes. rewrite <- list_fmap_compose. apply list_fmap_ext. intros _ op _. apply outcome_id. Qed.

(** Two inputs of one decision make an execution that is not stored and
    said to be.  With a runtime over a repository and under a new key, the
    orchestration raises and stores nothing, but the runtime remembers the
    execution; the same call on that runtime then returns, reports the result
    as persisted, and still nothing is stored. *)
Theorem unsaved_execution_reported i rt t now now' :
  repository_at rt t → find_execution (oi_idempotency_key i) t = None →
  dict_get (oi_idempotency_key i) (gr_executed rt) = None → str_empty (oi_idempotency_key i) = false →
  ¬ NoDup ((λ inp, rd_decision_id (pi_decision inp)) <$> oi_plan_inputs i) →
  ∃ e rt1 o rt2,
    orchestrate_reconciliation_apply i None (Some rt) now = (Raise e, rt1) ∧ repository_at rt1 t ∧
    orchestrate_reconciliation_apply i None (Some rt1) now' = (Ok o, rt2) ∧ oo_persisted o = true ∧ repository_at rt2 t.
Proof.
  intros Hr Hf Hm Hk Hdup. set (key := oi_idempotency_key i) in *. set (guards := oi_guard_decisions_by_operation_id i).
  assert (Hi : oi_plan_inputs i ≠ []) by (intros E; rewrite E in Hdup; apply Hdup; constructor).
  destruct (build_reconciliation_apply_plan (oi_plan_inputs i) (oi_plan_label i)) as [plan|e] eqn:Hp.
  2:{ exfalso. unfold build_reconciliation_apply_plan in Hp. by destruct (oi_plan_inputs i). }
  assert (Hnd : ¬ NoDup (op_operation_id <$> plan_operations plan)).
  { intros Hnd. apply Hdup. rewrite build_plan_of in Hp. destruct (is_nil (oi_plan_inputs i)); [done|]. injection Hp as <-.
    cbn [plan_operations plan_of] in Hnd. rewrite operations_of_fst in Hnd.
    apply (NoDup_fmap_1 (λ d, "op-" +:+ d)). rewrite <- list_fmap_compose in Hnd. rewrite <- list_fmap_compose. exact Hnd. }
  pose proof (plan_has_operations _ _ _ Hp) as Hops.
  set (fp := build_execution_fingerprint plan guards key).
  assert (Hcall : ∀ rt' now, orchestrate_reconciliation_apply i None (Some rt') now =
    (let '(x, rt'') := execute_plan rt' plan guards key now in
     (r ← x;
      let persisted := did_persist_new_row r (has_persistence rt'') None in
      let status := derive_orchestration_status r in
      Ok (MkOrchResult status plan r (build_guarded_apply_execution_review_summary r) persisted (has_persistence rt'')
            key (build_orchestration_note status r (has_persistence rt'') persisted)), rt''))).
  { intros rt' n. unfold orchestrate_reconciliation_apply. fold key. rewrite Hk. destruct (oi_plan_inputs i) as [|i0 l] eqn:Ei; [done|].
    cbn [is_nil]. unfold orchestrate_with. rewrite Ei, Hp. done. }
  assert (Hexec : ∀ rt' n, repository_at rt' t → execute_plan rt' plan guards key n =
    match check_idempotency (MkGuardedRuntime (gr_executed rt') (Some (at_rest t))) plan key fp n with
    | Some r => (Ok r, MkGuardedRuntime (gr_executed rt') (Some (at_rest t)))
    | None => execute_first (MkGuardedRuntime (gr_executed rt') (Some (at_rest t))) plan guards key fp n
    end).
  { intros rt' n Hr'. unfold execute_plan. rewrite Hk. replace (is_nil (plan_operations plan)) with false
      by by destruct (plan_operations plan).
    unfold check_durable_idempotency. rewrite Hr', durable_answer_spec. cbn [cn_tables at_rest]. by rewrite Hf. }
  destruct (execute_plan rt plan guards key now) as [x rt1] eqn:E1.
  pose proof E1 as E1'. rewrite (Hexec rt now Hr) in E1'. unfold check_idempotency in E1'. cbn [gr_executed] in E1'. rewrite Hm in E1'.
  unfold execute_first in E1'. rewrite fresh_execution_spec in E1'. set (r := build_result _ _ _ _ _ _ _) in E1'.
  set (rt0 := remember _ key _) in E1'. destruct (persist_if_configured rt0 r fp) as [y rt3] eqn:Ep. injection E1' as <- <-.
  assert (Hr0 : repository_at rt0 t) by done.
  assert (Hy : ∃ e, y = Raise e ∧ repository_at rt3 t).
  { unfold persist_if_configured in Ep. rewrite Hr0 in Ep. destruct (save_execution_result r fp (at_rest t)) as [z c] eqn:Es.
    pose proof (save_spec _ _ _ _ _ Es) as Hs. cbn [er_idempotency_key r build_result] in Hs. rewrite Hf in Hs.
    injection Ep as <- <-. destruct Hs as [(_&_&_&Hids)|(e&->&->)]; [|by exists e].
    exfalso. apply Hnd. rewrite <- (results_ids plan guards). exact Hids. }
  destruct Hy as (e&->&Hr3). destruct (persist_spec _ _ _ _ _ _ Hr0 Ep) as (_&_&Hmem&_).
  assert (E2 : execute_plan rt3 plan guards key now' = (Ok r, MkGuardedRuntime (gr_executed rt3) (Some (at_rest t)))).
  { rewrite (Hexec rt3 now' Hr3). unfold check_idempotency. cbn [gr_executed]. rewrite Hmem. unfold rt0, remember. cbn [gr_executed].
    by rewrite dict_get_set, !String.eqb_refl. }
  do 4 eexists. rewrite !Hcall, E1, E2. split_and!; [reflexivity|exact Hr3|reflexivity| |reflexivity].
  cbn. unfold did_persist_new_row. cbn [negb has_persistence gr_repository].
  rewrite bool_decide_false; [done|]. exact (fresh_not_conflict plan guards key now r (fresh_execution_spec _ _ _ _)).
Qed.

Definition sample_duplicate : ApplyOrchestrationInput :=
  MkOrchInput [sample_input "d1" None; sample_input "d1" None] [("op-d1", sample_guard "p-1")] "key-1" "May".

Lemma unsaved_execution_reported_witness : ∃ e rt1 o rt2,
  orchestrate_reconciliation_apply sample_duplicate None (Some sample_start) sample_now = (Raise e, rt1) ∧
  orchestrate_reconciliation_apply sample_duplicate None (Some rt1) "later" = (Ok o, rt2) ∧
  oo_persisted o = true ∧ repository_at rt2 empty_store.
Proof.
  destruct (unsaved_execution_reported sample_duplicate sample_start empty_store sample_now "later" eq_refl eq_refl eq_refl
    eq_refl (bool_decide_eq_false_1 (NoDup ["d1"; "d1"]) ltac:(vm_compute; exact eq_refl))) as (e&rt1&o&rt2&H1&_&H2&H3&H4).
  exists e, rt1, o, rt2. split; [exact H1|]. split; [exact H2|]. split; [exact H3|exact H4].
Defined.
