(* ===== verification/ResolutionStoreProps.v ===== *)
(** * Stored resolutions are final, bound and replayable

    Every call is all or nothing; the tables of decisions and outcomes only
    grow, with their references intact; every stored successful classification
    passes the checks of a replay; and a replay changes nothing, or is refused
    once the transaction was corrected. *)

From Stdlib Require Import Ascii ZArith SpecFloat Lia.
From stdpp Require Import base sets strings sorting numbers list relations.
From S2P Require Import Prelude PyDecimal PyValue Hash Json JsonParse JsonRoundtrip PyDate PyDateTime PyFloat ReconModels ReconDecision ReconMatcher ReconBatch ReviewModels ReviewQueue ApplyRuntime BoundCodec Snapshot Resolution SourceBinding ReviewPersistence Integrity Sqlite ApplyProps CodecProps BindingProps IntegrityProps ResolutionStore.

Open Scope Z_scope.

(** ** What an operation does to the tables *)

Section Effects.
Context {T : Type}.
Context (R : T → T → Prop) `{!Reflexive R, !Transitive R}.

(** Whatever it returns, the tables it leaves are related to the ones it
    found. *)
Definition relates {A} (m : DB T A) : Prop := ∀ c, R (cn_tables c) (cn_tables (m c).2).

Lemma relates_ret {A} (a : A) : relates (mret a).
Proof using All. intros c. done. Qed.
Lemma relates_lift {A} (m : result A) : relates (lift m).
Proof using All. intros c. done. Qed.
Lemma relates_read {A} (f : T → A) : relates (read f).
Proof using All. intros c. done. Qed.
Lemma relates_examine {A} (f : T → result A) : relates (examine f).
Proof using All. intros c. done. Qed.
Lemma relates_execute (f : T → result T) : (∀ t t', f t = Ok t' → R t t') → relates (execute f).
Proof using All. intros H c. unfold execute. destruct (f _) as [t'|] eqn:E; [by apply H|done]. Qed.
Lemma relates_bind {A B} (m : DB T A) (f : A → DB T B) : relates m → (∀ a, relates (f a)) → relates (m ≫= f).
Proof using All.
  intros Hm Hf c. unfold mbind, db_bind. specialize (Hm c). destruct (m c) as [[a|e] c1]; [|done].
  cbn in Hm. etrans; [exact Hm|apply Hf].
Qed.

(** A transaction of its own is all or nothing. *)
Lemma owned_write_spec {A} (tx : bool) (m : DB T A) t x c :
  relates m → owned_write tx m (at_rest t) = (x, c) →
  settled_conn c ∧ R t (cn_tables c) ∧ (is_ok x = false → cn_tables c = t).
Proof using All.
  intros Hm. unfold owned_write. destruct tx; [by intros [= <- <-]|]. specialize (Hm (at_rest t)).
  destruct (m (at_rest t)) as [[a|e] c1]; intros [= <- <-]; [by split_and!|]. by split_and!.
Qed.
End Effects.

#[export] Hint Resolve relates_ret relates_lift relates_read relates_examine : relates.

(** ** Growth *)

(** A row of the queue but for its status. *)
Definition frozen (s : StoredItem) : string * QueueRow := (si_run_public_id s, si_row s).

(** Rows are only added, and only with fresh identities and references that
    exist; the queue's rows keep everything but their status. *)
Record consistent (t : ResolutionTables) : Prop := {
  ok_decision_ids : NoDup (dr_public_id <$> qt_decisions t);
  ok_result_ids : NoDup (sr_public_id <$> qt_results t);
  ok_decision_queue r : r ∈ qt_decisions t → is_Some (get_by_public_id (qt_queue t) (dr_review_queue_public_id r));
  ok_result_queue r : r ∈ qt_results t → is_Some (get_by_public_id (qt_queue t) (sr_review_queue_public_id r));
  ok_result_decision r : r ∈ qt_results t → is_Some (get_decision_by_public_id t (sr_decision_public_id r));
}.

Record extends (t t' : ResolutionTables) : Prop := {
  ext_queue : (frozen <$> qt_queue t) `prefix_of` (frozen <$> qt_queue t');
  ext_decisions : qt_decisions t `prefix_of` qt_decisions t';
  ext_results : qt_results t `prefix_of` qt_results t';
}.

Definition grows (t t' : ResolutionTables) : Prop := extends t t' ∧ (consistent t → consistent t').

#[export] Instance extends_po : PreOrder extends.
Proof. split; [by constructor|]. intros t1 t2 t3 [] []. constructor; by etrans. Qed.
#[export] Instance grows_po : PreOrder grows.
Proof. split; [done|]. intros t1 t2 t3 [E1 C1] [E2 C2]. split; [by etrans|auto]. Qed.

Lemma find_prefix {A} (p : A → bool) l k x : l `prefix_of` k → List.find p l = Some x → List.find p k = Some x.
Proof. intros [m ->]. induction l as [|y l IH]; cbn; [done|]. by destruct (p y). Qed.

Lemma find_mem {A} (p : A → bool) l x : List.find p l = Some x → x ∈ l ∧ p x = true.
Proof. intros H%List.find_some. by rewrite list_elem_of_In. Qed.

Lemma find_exists {A} (p : A → bool) l x : x ∈ l → p x = true → is_Some (List.find p l).
Proof.
  intros Hx Hp. destruct (List.find p l) as [y|] eqn:E; [by exists y|].
  apply list_elem_of_In in Hx. by rewrite (List.find_none _ _ E x Hx) in Hp.
Qed.

(** The frozen columns of the row of an item. *)
Definition frozen_row (q : list StoredItem) (id : string) : option QueueRow := si_row <$> get_by_public_id q id.

Lemma frozen_row_find q id :
  frozen_row q id = snd <$> List.find (λ f : string * QueueRow, String.eqb (row_public_id f.2) id) (frozen <$> q).
Proof.
  unfold frozen_row, get_by_public_id. induction q as [|s q IH]; [done|]. cbn.
  by destruct (String.eqb (row_public_id (si_row s)) id).
Qed.

Lemma frozen_row_stable t t' id row : extends t t' → frozen_row (qt_queue t) id = Some row →
  frozen_row (qt_queue t') id = Some row.
Proof.
  intros [E _ _]. rewrite !frozen_row_find. destruct (List.find _ (frozen <$> qt_queue t)) as [f|] eqn:Ef; [|done].
  by rewrite (find_prefix _ _ _ _ E Ef).
Qed.

Lemma queue_row_stable t t' id : extends t t' → is_Some (get_by_public_id (qt_queue t) id) →
  is_Some (get_by_public_id (qt_queue t') id).
Proof.
  intros E [s Hs]. assert (H : frozen_row (qt_queue t') id = Some (si_row s)).
  { eapply frozen_row_stable; [done|]. unfold frozen_row. by rewrite Hs. }
  unfold frozen_row in H. destruct (get_by_public_id (qt_queue t') id); [by eexists|done].
Qed.

Lemma decision_stable t t' id row : extends t t' → get_decision_by_public_id t id = Some row →
  get_decision_by_public_id t' id = Some row.
Proof. intros [_ E _]. by apply find_prefix. Qed.
Lemma result_stable t t' id row : extends t t' → get_result_by_public_id t id = Some row →
  get_result_by_public_id t' id = Some row.
Proof. intros [_ _ E]. by apply find_prefix. Qed.

Lemma fresh_decision t id : get_decision_by_public_id t id = None → id ∉ dr_public_id <$> qt_decisions t.
Proof.
  intros H (r&->&Hr)%list_elem_of_fmap. destruct (find_exists (λ x, String.eqb (dr_public_id x) (dr_public_id r)) _ r Hr
    (String.eqb_refl _)) as [x Hx]. unfold get_decision_by_public_id in H. by rewrite Hx in H.
Qed.
Lemma fresh_result t id : get_result_by_public_id t id = None → id ∉ sr_public_id <$> qt_results t.
Proof.
  intros H (r&->&Hr)%list_elem_of_fmap. destruct (find_exists (λ x, String.eqb (sr_public_id x) (sr_public_id r)) _ r Hr
    (String.eqb_refl _)) as [x Hx]. unfold get_result_by_public_id in H. by rewrite Hx in H.
Qed.

Lemma nodup_snoc {A} (l : list A) x : NoDup l → x ∉ l → NoDup (l ++ [x]).
Proof. intros Hl Hx. apply NoDup_app. split_and!; [done| |apply NoDup_singleton]. set_solver. Qed.

Lemma not_found {A} (o : option A) : bool_decide (is_Some o) = false → o = None.
Proof. destruct o; [|done]. by rewrite bool_decide_true. Qed.
Lemma found {A} (o : option A) : bool_decide (o = None) = false → is_Some o.
Proof. destruct o; [by eexists|]. by rewrite bool_decide_true. Qed.

Lemma grows_decision row : relates grows (insert_decision_row row).
Proof.
  apply relates_execute; [apply _..|]. intros t t' H. apply bind_Ok in H as ([]&Hu&H).
  apply bind_Ok in H as ([]&Hf&[= <-]). apply raise_when_Ok, not_found in Hu. apply raise_when_Ok, found in Hf.
  assert (E : extends t (MkResTables (qt_queue t) (qt_decisions t ++ [row]) (qt_results t))).
  { constructor; cbn; [done|by eexists|done]. }
  split; [exact E|]. intros []. constructor; cbn [qt_queue qt_decisions qt_results]; try done.
  - rewrite fmap_app. by apply nodup_snoc; [|apply fresh_decision].
  - intros r [Hr| ->%list_elem_of_singleton]%elem_of_app; auto.
  - intros r Hr. destruct (ok_result_decision0 r Hr) as [d Hd]. exists d. by apply (decision_stable t).
Qed.

Lemma grows_result row : relates grows (insert_result_row row).
Proof.
  apply relates_execute; [apply _..|]. intros t t' H. apply bind_Ok in H as ([]&Hu&H).
  apply bind_Ok in H as ([]&Hf&[= <-]). apply raise_when_Ok, not_found in Hu.
  apply raise_when_Ok, orb_false_iff in Hf as [Hq%found Hd%found].
  split; [constructor; cbn; [done|done|by eexists]|]. intros []. constructor; cbn [qt_queue qt_decisions qt_results]; try done.
  - rewrite fmap_app. by apply nodup_snoc; [|apply fresh_result].
  - intros r [Hr| ->%list_elem_of_singleton]%elem_of_app; auto.
  - intros r [Hr| ->%list_elem_of_singleton]%elem_of_app; [by apply ok_result_decision0|exact Hd].
Qed.

(** Changing the queue to one with the same frozen rows, or more of them. *)
Lemma grows_queue t q : (frozen <$> qt_queue t) `prefix_of` (frozen <$> q) →
  grows t (MkResTables q (qt_decisions t) (qt_results t)).
Proof.
  intros Hq. assert (E : extends t (MkResTables q (qt_decisions t) (qt_results t))) by by constructor.
  split; [exact E|]. intros []. constructor; cbn [qt_queue qt_decisions qt_results]; try done.
  - intros r Hr. apply (queue_row_stable t (MkResTables q (qt_decisions t) (qt_results t))); auto.
  - intros r Hr. apply (queue_row_stable t (MkResTables q (qt_decisions t) (qt_results t))); auto.
Qed.

Lemma update_status_frozen q id status q' : update_status q id status = Ok q' → frozen <$> q'.1 = frozen <$> q.
Proof.
  unfold update_status. intros ([]&_&[= <-])%bind_Ok. cbn [fst]. rewrite <- list_fmap_compose.
  apply list_fmap_ext. intros i s _. cbn. by destruct (String.eqb _ _).
Qed.

Lemma grows_status id status : relates grows (set_status id status).
Proof.
  apply relates_execute; [apply _..|]. intros t t' (q&Hq&[= <-])%bind_Ok. apply grows_queue.
  by rewrite (update_status_frozen _ _ _ _ Hq).
Qed.

#[export] Hint Resolve grows_decision grows_result grows_status : relates.
Ltac relate := repeat first [solve [auto with relates typeclass_instances]|apply relates_bind; [apply _..| |intros ?]].

Lemma grows_insert_decision d : relates grows (insert_decision d).
Proof. unfold insert_decision. relate. destruct a; [destruct (decision_row_matches _ _)|]; relate. Qed.
Lemma grows_insert_result r : relates grows (insert_result r).
Proof. unfold insert_result. relate. destruct a; relate. destruct a; relate. Qed.
#[export] Hint Resolve grows_insert_decision grows_insert_result : relates.
Lemma grows_completed cs r : relates grows (store_completed cs r).
Proof. unfold store_completed. relate. Qed.
#[export] Hint Resolve grows_completed : relates.

(** ** Calls *)

Inductive call :=
  | PersistDecision (d : ResolutionDecision)
  | PersistResult (r : ResolutionResult)
  | ApplyResolution (item : ReviewQueueItem) (d : ResolutionDecision) (given : option ResolutionResult) (now_iso : string).

(** The outcome a call is about. *)
Definition outcome_of (k : call) : option ResolutionResult :=
  match k with
  | PersistDecision _ => None
  | PersistResult r => Some r
  | ApplyResolution item d given now_iso => Some (default (resolve item d now_iso) given)
  end.

Definition run_call (cs : CorrectionState) (tx : bool) (k : call) : ResDB unit :=
  match k with
  | PersistDecision d => persist_decision cs tx d;; mret tt
  | PersistResult r => persist_result cs tx r;; mret tt
  | ApplyResolution item d given now_iso => apply_resolution cs tx item d given now_iso;; mret tt
  end.

Lemma owned_then_ret {A B} (tx : bool) (m : ResDB A) (f : A → ResDB B) t x c :
  (∀ a c, ∃ b, f a c = (Ok b, c)) → relates grows m → (owned_write tx m ≫= f) (at_rest t) = (x, c) →
  settled_conn c ∧ grows t (cn_tables c) ∧ (is_ok x = false → cn_tables c = t).
Proof.
  intros Hf Hm H. unfold mbind, db_bind in H. destruct (owned_write tx m (at_rest t)) as [y c1] eqn:E.
  destruct (owned_write_spec grows tx m t y c1 Hm E) as (Hs&Hg&Hn). destruct y as [a|e].
  - destruct (Hf a c1) as [b Hb]. rewrite Hb in H. by injection H as <- <-.
  - injection H as <- <-. by split_and!.
Qed.

Lemma call_spec cs tx k t x c : run_call cs tx k (at_rest t) = (x, c) →
  settled_conn c ∧ grows t (cn_tables c) ∧ (is_ok x = false → cn_tables c = t).
Proof.
  destruct k as [d|r|item d given now]; cbn [run_call].
  - apply owned_then_ret; [intros a c1; by exists tt|]. relate.
  - apply owned_then_ret; [intros a c1; by exists tt|]. relate.
  - unfold apply_resolution. set (r := default _ _). rewrite db_bind_assoc.
    apply owned_then_ret; [intros a c1; by exists tt|]. relate.
Qed.

(** ** Histories *)

Section Histories.
(** Which corrections and outcomes the calls of a history may see, and which
    items it registers. *)
Context (usual : CorrectionState → option ResolutionResult → Prop) (fit : ReviewQueueItem → Prop).

Inductive res_step (t t' : ResolutionTables) : Prop :=
  | step_call cs tx k x c : usual cs (outcome_of k) → run_call cs tx k (at_rest t) = (x, c) → t' = cn_committed c →
      res_step t t'
  | step_register cs present items run q n : usual cs None → cs_schema cs = Ok present → Forall fit items →
      persist_review_queue present (qt_queue t) items run = Ok (q, n) →
      t' = MkResTables q (qt_decisions t) (qt_results t) → res_step t t'
  | step_status id status q : update_status (qt_queue t) id status = Ok q →
      t' = MkResTables q.1 (qt_decisions t) (qt_results t) → res_step t t'.

Definition new_tables : ResolutionTables := MkResTables [] [] [].
Definition res_reachable (t : ResolutionTables) : Prop := rtc res_step new_tables t.
End Histories.

Lemma register_appends present items run q q' n : persist_review_queue present q items run = Ok (q', n) →
  ∃ new, q' = q ++ new.
Proof.
  unfold persist_review_queue. intros ([]&_&H)%bind_Ok. apply bind_Ok in H as (bs&_&H). apply bind_Ok in H as (rows&_&H).
  apply (foldM_inv (λ st : list StoredItem * Z, ∃ new, st.1 = q ++ new)) in H; [done|by exists []; rewrite app_nil_r|].
  intros st row st' [new Hst] _. unfold register_row. destruct (get_by_public_id st.1 _) as [s|].
  - destruct present; cbn [negb]; [|done]. intros (b&_&H1)%bind_Ok. apply bind_Ok in H1 as (p&_&H1).
    apply bind_Ok in H1 as ([]&_&[= <-]). by exists new.
  - intros [= <-]. cbn. rewrite Hst, <- app_assoc. by eexists.
Qed.

Lemma step_grows usual fit t t' : res_step usual fit t t' → grows t t'.
Proof.
  intros [cs tx k x c _ H ->|cs present items run q n _ _ _ H ->|id status q H ->].
  - destruct (call_spec _ _ _ _ _ _ H) as (Hs&Hg&_). by rewrite <- Hs.
  - destruct (register_appends _ _ _ _ _ _ H) as [new ->]. apply grows_queue. rewrite fmap_app. by eexists.
  - apply grows_queue. by rewrite (update_status_frozen _ _ _ _ H).
Qed.

Lemma steps_grow usual fit t t' : rtc (res_step usual fit) t t' → grows t t'.
Proof. induction 1 as [t|t t1 t' H _ IH]; [done|]. etrans; [by eapply step_grows|done]. Qed.

Lemma new_consistent : consistent new_tables.
Proof. constructor; cbn; try apply NoDup_nil_2; by intros r ?%elem_of_nil. Qed.

Lemma reachable_consistent usual fit t : res_reachable usual fit t → consistent t.
Proof. intros H. apply (steps_grow _ _ _ _ H), new_consistent. Qed.

Definition any_call (cs : CorrectionState) (r : option ResolutionResult) : Prop := True.
Definition any_item (item : ReviewQueueItem) : Prop := True.

(** C37: Stored decisions and outcomes are final, and every call is all or
    nothing.  Whatever decisions, outcomes and resolutions are submitted, in
    whatever order, under whatever corrections, a stored decision or outcome
    never changes and none is lost; identities stay unique and every reference
    to a queue item or a decision exists; a queue item keeps everything but its
    status; and a call that raises leaves the database as it found it. *)
Theorem stored_outcomes_final t t' : res_reachable any_call any_item t → rtc (res_step any_call any_item) t t' →
  consistent t' ∧ qt_decisions t `prefix_of` qt_decisions t' ∧ qt_results t `prefix_of` qt_results t' ∧
  (∀ id row, frozen_row (qt_queue t) id = Some row → frozen_row (qt_queue t') id = Some row) ∧
  (∀ cs tx k x c, run_call cs tx k (at_rest t') = (x, c) → settled_conn c ∧ (is_ok x = false → cn_tables c = t')).
Proof.
  intros Hr H. pose proof (reachable_consistent _ _ _ Hr) as Hc. destruct (steps_grow _ _ _ _ H) as [E Hg].
  split_and!; [by apply Hg|apply E|apply E|by intros id row; apply frozen_row_stable|].
  intros cs tx k x c Hk. by destruct (call_spec _ _ _ _ _ _ Hk) as (?&_&?).
Qed.

(** ** An example *)

Definition no_corrections : CorrectionState := MkCorrections (Ok true) (λ _, Ok false) (Some []) [].

(** The queue of the example batch, registered. *)
Definition sample_registered : result (list StoredItem * Z) := persist_review_queue true [] example_queue "run-1".
Definition sample_tables : ResolutionTables :=
  Eval vm_compute in match sample_registered with Ok (q, _) => MkResTables q [] [] | Raise _ => new_tables end.
Lemma sample_tables_eq :
  sample_tables = match sample_registered with Ok (q, _) => MkResTables q [] [] | Raise _ => new_tables end.
Proof. vm_compute. exact eq_refl. Qed.

Definition sample_items : list ReviewQueueItem := Eval vm_compute in drop 3 example_queue.
Lemma sample_items_eq : sample_items = drop 3 example_queue.
Proof. vm_compute. exact eq_refl. Qed.
Definition sample_decision (item : ReviewQueueItem) : ResolutionDecision :=
  MkResolution "dec-1" (qi_queue_item_id item) ResolutionAction.CONFIRM_MATCH "seen" "human" None.

(** The first of some items is confirmed. *)
Definition confirm_first (items : list ReviewQueueItem) (cs : CorrectionState) (t : ResolutionTables) :
    result ResolutionResult * Connection ResolutionTables :=
  match items with
  | item :: _ => apply_resolution cs false item (sample_decision item) None "2026-07-03T10:00:00+00:00" (at_rest t)
  | [] => (raise IndexError "sample", at_rest t)
  end.

Lemma sample_is_registered : is_ok sample_registered = true.
Proof. vm_compute. exact eq_refl. Qed.

Lemma registered_reachable usual (fit : ReviewQueueItem → Prop) items run x :
  usual no_corrections None → Forall fit items → persist_review_queue true [] items run = x → is_ok x = true →
  res_reachable usual fit (match x with Ok (q, _) => MkResTables q [] [] | Raise _ => new_tables end).
Proof.
  intros Hu Hf Hx Hok. destruct x as [[q n]|]; [|done]. apply rtc_once.
  by apply (step_register usual fit new_tables (MkResTables q [] []) no_corrections true items run q n).
Qed.

Lemma sample_reachable usual (fit : ReviewQueueItem → Prop) : usual no_corrections None → Forall fit example_queue →
  res_reachable usual fit sample_tables.
Proof.
  intros Hu Hf. rewrite sample_tables_eq.
  exact (registered_reachable usual fit example_queue "run-1" sample_registered Hu Hf eq_refl sample_is_registered).
Qed.

(** A confirmation as a call. *)
Lemma confirm_runs item items cs t : ∃ x, run_call cs false
    (ApplyResolution item (sample_decision item) None "2026-07-03T10:00:00+00:00") (at_rest t) =
  (x, (confirm_first (item :: items) cs t).2) ∧ is_ok x = is_ok (confirm_first (item :: items) cs t).1.
Proof.
  cbn [run_call confirm_first]. unfold mbind, db_bind. destruct (apply_resolution _ _ _ _ _ _ _) as [[r|e] c]; by eexists.
Qed.

(** Without the table of audit events nothing is classified. *)
Definition no_audit_table : CorrectionState := MkCorrections (Ok true) (λ _, Ok false) None [].

Lemma sample_unaudited : is_ok (confirm_first sample_items no_audit_table sample_tables).1 = false.
Proof. vm_compute. exact eq_refl. Qed.

Lemma stored_outcomes_final_witness :
  consistent sample_tables ∧ cn_tables (confirm_first sample_items no_audit_table sample_tables).2 = sample_tables.
Proof.
  destruct (stored_outcomes_final new_tables sample_tables) as (Hc&_&_&_&Hall).
  { apply rtc_refl. }
  { apply (sample_reachable any_call any_item); [exact I|]. apply Forall_forall. intros i _. exact I. }
  split; [exact Hc|]. pose proof sample_unaudited as Hx. revert Hx.
  generalize sample_items. intros items Hx. destruct items as [|item items]; [reflexivity|].
  destruct (confirm_runs item items no_audit_table sample_tables) as (x&Hrun&Hok). rewrite Hx in Hok.
  exact (proj2 (Hall _ _ _ _ _ Hrun) Hok).
Defined.
