(* ===== verification/ResolutionEvidence.v ===== *)
(** * The evidence of a stored success

    The checks before a successful classification is stored imply the checks
    of a stored row: the evidence is completed to exactly the members the
    stored audit must have. *)

From Stdlib Require Import Ascii ZArith SpecFloat Lia.
From stdpp Require Import base sets strings sorting numbers list relations.
From S2P Require Import Prelude PyDecimal PyValue Hash Json JsonParse JsonRoundtrip PyDate PyDateTime PyFloat ReconModels ReconDecision ReconMatcher ReconBatch ReviewModels ReviewQueue ApplyRuntime BoundCodec Snapshot Resolution SourceBinding ReviewPersistence Integrity Sqlite ApplyProps CodecProps BindingProps IntegrityProps ResolutionStore ResolutionStoreProps.

Open Scope Z_scope.

(** ** Members of dictionaries *)

Lemma get_app_l d k x : dict_get x d ≠ None → get (d ++ k) x = get d x.
Proof.
  unfold get. induction d as [|[y v] d IH]; [done|]. cbn. by destruct (String.eqb x y).
Qed.

Lemma get_app_r d k x : x ∉ dict_keys d → get (d ++ k) x = get k x.
Proof.
  unfold get. induction d as [|[y v] d IH]; [done|]. cbn. intros Hx. destruct (String.eqb_spec x y) as [->|]; [set_solver|].
  apply IH. set_solver.
Qed.

Lemma get_mem d k v : get d k = v → v ≠ JNull → dict_get k d = Some v.
Proof. unfold get. destruct (dict_get k d); cbn; congruence. Qed.

Lemma get_sorted d k : NoDup (dict_keys d) → get (sorted_members d) k = sort_json (get d k).
Proof. intros H. unfold get. rewrite sorted_members_get by done. by destruct (dict_get k d). Qed.

Lemma dict_set_same {V} k (v : V) d : dict_get k d = Some v → dict_set k v d = d.
Proof.
  induction d as [|[k' w] d IH]; [done|]. cbn. destruct (String.eqb_spec k k') as [->|]; [by intros [= ->]|].
  intros H. by rewrite IH.
Qed.

Lemma same_keys_iff l k : same_keys l k = true ↔ ∀ x, x ∈ l ↔ x ∈ k.
Proof.
  unfold same_keys. rewrite andb_true_iff, !List.forallb_forall. unfold str_in.
  assert (Hd : ∀ (x : string) (j : list string), bool_decide (x ∈ j) = true ↔ x ∈ j) by (intros; apply bool_decide_eq_true). split.
  - intros [H1 H2] x. rewrite <- (Hd x l), <- (Hd x k), !Hd.
    split; intros Hx; apply list_elem_of_In in Hx; [apply H1 in Hx|apply H2 in Hx]; by apply Hd.
  - intros H. split; intros x Hx; apply Hd, H, list_elem_of_In, Hx.
Qed.

(** Texts, nulls and lists of texts, which compare literally. *)
Definition plain (v : json) : bool :=
  match v with
  | JStr _ | JNull => true
  | JList l => forallb (λ v, match v with JStr _ => true | _ => false end) l
  | _ => false
  end.

Lemma plain_eqb v w : plain w = true → json_eqb v w = true → v = w.
Proof.
  destruct w as [|b|n|t|s|l|d]; cbn [plain]; try done; destruct v as [|b'|n'|t'|s'|l'|d']; try done.
  - by intros _ ->%String.eqb_eq.
  - intros Hp H%json_eqb_list. f_equal. revert Hp. induction H as [|x y l' l Hxy _ IH]; [done|]. cbn.
    intros [Hy Hl]%andb_prop. rewrite (IH Hl). f_equal. destruct y; try done. destruct x; try done.
    by apply String.eqb_eq in Hxy as ->.
Qed.

Lemma plain_sorted v : plain v = true → sort_json v = v.
Proof.
  destruct v; try done. cbn. intros H. f_equal. induction l as [|x l IH]; [done|]. cbn in *.
  apply andb_prop in H as [Hx Hl]. rewrite (IH Hl). by destruct x.
Qed.

Lemma plain_refl v : plain v = true → json_eqb v v = true.
Proof.
  intros H. apply json_eqb_refl. destruct v; try done. cbn in *. induction l as [|x l IH]; [done|]. cbn in *.
  apply andb_prop in H as [Hx Hl]. rewrite (IH Hl). by destruct x.
Qed.

Lemma plain_strs {A} (f : A → string) l : plain (JList ((λ a, JStr (f a)) <$> l)) = true.
Proof. cbn. induction l; cbn; done. Qed.

Lemma differs_plain d k v : plain v = true → differs d k v = false ↔ get d k = v.
Proof.
  intros Hp. unfold differs. rewrite negb_false_iff. split; [by apply plain_eqb|intros ->; by apply plain_refl].
Qed.

Lemma text_plain o : plain (text_or_null o) = true.
Proof. by destruct o. Qed.

(** ** The frozen source *)

Lemma projection_plain b : Forall (λ kv, plain kv.2 = true) (bound_source_audit_projection b).
Proof.
  unfold bound_source_audit_projection. destruct (st_transaction_date _), (st_posted_date _), (rc_best_app_transaction _);
    cbn [app member app_members fmap option_fmap option_map];
    repeat first [apply List.Forall_nil|apply List.Forall_cons; [cbn [snd]; first [reflexivity|apply text_plain|apply plain_strs|by destruct (st_amount _)]|]].
Qed.

Lemma projection_keys b k : k ∈ dict_keys (bound_source_audit_projection b) → k ∈ SOURCE_AUDIT_KEYS.
Proof.
  intros H. apply (bool_decide_eq_true_1 (k ∈ SOURCE_AUDIT_KEYS)). revert H.
  assert (Ha : ∀ l : list string, forallb (λ x, bool_decide (x ∈ SOURCE_AUDIT_KEYS)) l = true → k ∈ l → bool_decide (k ∈ SOURCE_AUDIT_KEYS) = true).
  { intros l Hl Hk. rewrite List.forallb_forall in Hl. by apply Hl, list_elem_of_In. }
  apply Ha. unfold bound_source_audit_projection.
  by destruct (st_transaction_date _), (st_posted_date _), (rc_best_app_transaction _); vm_compute.
Qed.

Lemma source_fields_get e k v : dict_get k (source_fields e) = Some v → dict_get k e = Some v.
Proof.
  unfold source_fields. induction SOURCE_AUDIT_KEYS as [|x l IH]; [done|]. cbn.
  destruct (dict_get x e) as [w|] eqn:E; cbn; [|done]. destruct (String.eqb_spec k x) as [->|]; [by intros [= ->]|done].
Qed.

Lemma source_fields_mem e k v : k ∈ SOURCE_AUDIT_KEYS → dict_get k e = Some v → (k, v) ∈ source_fields e.
Proof. intros Hk He. unfold source_fields. apply list_elem_of_omap. exists k. by rewrite He. Qed.

(** The members that agree with the source. *)
Lemma source_member e b k v : assert_source_audit e b = Ok tt → k ∈ SOURCE_AUDIT_KEYS →
  dict_get k e = Some v → dict_get k (bound_source_audit_projection b) = Some v.
Proof.
  unfold assert_source_audit. intros H%raise_when_Ok Hk He. apply negb_false_iff, json_eqb_dict in H as [_ H].
  rewrite Forall_forall in H. destruct (H _ (source_fields_mem _ _ _ Hk He)) as (w&Hw&Hvw). cbn [fst snd] in *. rewrite Hw. f_equal. symmetry.
  apply (plain_eqb v w); [|done]. pose proof (projection_plain b) as Hp. rewrite Forall_forall in Hp.
  by apply (Hp (k, w)), dict_get_Some_mem.
Qed.

(** Further members and the order of the text do not disturb the agreement. *)
Lemma source_audit_stored e extra b :
  NoDup (dict_keys (e ++ extra)) → (∀ k, k ∈ dict_keys extra → k ∉ SOURCE_AUDIT_KEYS) →
  assert_source_audit e b = Ok tt → assert_source_audit (sorted_members (e ++ extra)) b = Ok tt.
Proof.
  intros Hnd Hex H.
  assert (Hs : source_fields (sorted_members (e ++ extra)) = (λ kv : string * json, (kv.1, sort_json kv.2)) <$> source_fields e).
  { unfold source_fields. assert (Hk : ∀ k, k ∈ SOURCE_AUDIT_KEYS → dict_get k (sorted_members (e ++ extra)) = sort_json <$> dict_get k e).
    { intros k Hk. rewrite sorted_members_get by done. f_equal. destruct (dict_get k e) as [v|] eqn:E.
      - apply dict_get_mem; [done|]. apply elem_of_app. left. by apply dict_get_Some_mem.
      - apply dict_get_None in E. apply dict_get_None. unfold dict_keys in *. rewrite fmap_app. intros [?|?]%elem_of_app; [done|].
        by eapply Hex. }
    revert Hk. induction SOURCE_AUDIT_KEYS as [|k l IH]; [done|]. intros Hk. cbn. rewrite Hk by set_solver.
    rewrite IH by set_solver. by destruct (dict_get k e). }
  unfold assert_source_audit. apply raise_when_Ok, negb_false_iff, json_eqb_dict. rewrite Hs, length_fmap.
  pose proof H as H0. unfold assert_source_audit in H0. apply raise_when_Ok, negb_false_iff, json_eqb_dict in H0 as [Hl H0].
  split; [done|]. rewrite Forall_fmap. eapply Forall_impl; [exact H0|]. intros [k v] (w&Hw&Hvw). cbn [fst snd] in *. exists w. split; [done|].
  pose proof (projection_plain b) as Hp. rewrite Forall_forall in Hp. specialize (Hp (k, w) (dict_get_Some_mem _ _ _ Hw)). cbn [snd] in Hp.
  rewrite (plain_eqb v w Hp Hvw), plain_sorted by done. by apply plain_refl.
Qed.

Lemma projection_app b canonical : app_ref (bq_item b) = Some canonical →
  dict_get "app_txn_id" (bound_source_audit_projection b) = Some (JStr canonical).
Proof.
  unfold app_ref, bound_source_audit_projection. destruct (rc_best_app_transaction _); [|done]. intros [= <-].
  by destruct (st_transaction_date _), (st_posted_date _).
Qed.

(** ** The envelope of a success *)

Record conforms (r : ResolutionResult) (b : BoundQueue) (e : list (string * json)) : Prop := {
  cf_evidence : rr_audit_evidence r = JDict e;
  cf_success : rr_success r = true;
  cf_error : rr_error_message r = None;
  cf_result_id : require_nonempty (rr_result_id r) "result_id" = Ok tt;
  cf_decision_id : require_nonempty (rd_decision_id (rr_decision r)) "decision_id" = Ok tt;
  cf_queue_id : require_nonempty (rd_queue_item_id (rr_decision r)) "queue_item_id" = Ok tt;
  cf_reviewer : require_nonempty (rd_reviewer (rr_decision r)) "reviewer" = Ok tt;
  cf_resolved : require_resolved_at (rd_resolved_at (rr_decision r)) = Ok tt;
  cf_time : require_time (get e "resolved_at") "audit resolved_at" = Ok tt;
  cf_item : rd_queue_item_id (rr_decision r) = qi_queue_item_id (rr_queue_item r);
  cf_bound : rd_queue_item_id (rr_decision r) = bq_queue_item_id b;
  cf_queue_member : get e "queue_item_id" = JStr (rd_queue_item_id (rr_decision r));
  cf_action_member : get e "resolution_action" = JStr (ResolutionAction.value (rd_action (rr_decision r)));
  cf_reviewer_member : get e "reviewer" = JStr (rd_reviewer (rr_decision r));
  cf_note_member : get e "note" = JStr (rd_note (rr_decision r));
  cf_resolved_member : resolved_differs e (rd_resolved_at (rr_decision r)) = false;
  cf_class : classifies (rd_action (rr_decision r)) (bq_issue_type b) = true;
  cf_keys k : k ∈ dict_keys e ↔ k ∈ dict_keys (bound_source_audit_projection b) ++ RESOLUTION_ENVELOPE_KEYS;
  cf_source : assert_source_audit e b = Ok tt;
}.

Ltac next_check H := let Hc := fresh "Hc" in apply bind_Ok in H as ([]&Hc&H).

Lemma envelope_conforms r b : assert_resolution_envelope r b = Ok tt → ∃ e, conforms r b e.
Proof.
  unfold assert_resolution_envelope. intros H. apply bind_Ok in H as ([]&Hb&H). next_check H.
  apply bind_Ok in H as (e&He&H). unfold evidence_dict in He. destruct (rr_audit_evidence r) as [| | | | | |e'] eqn:Ee; try done.
  injection He as ->. exists e. next_check H. unfold assert_resolution_audit_schema in H. next_check H.
  apply bind_Ok in H as ([]&Hsrc&_). unfold refuse in *.
  apply raise_when_Ok, orb_false_iff in Hc as [_ Hcl%negb_false_iff].
  apply raise_when_Ok in Hc0. rewrite !orb_false_iff, !negb_false_iff, !String.eqb_eq in Hc0.
  destruct Hc0 as (((((Hq1&_)&Hact)&Hrev)&Hnote)&Hres). apply raise_when_Ok, negb_false_iff in Hc1. rewrite same_keys_iff in Hc1.
  unfold assert_resolution_basic in Hb. rewrite Ee in Hb. cbn [evidence_dict] in Hb.
  apply bind_Ok in Hb as ([]&Hs&Hb). apply raise_when_Ok, orb_false_iff in Hs as [Hs%negb_false_iff Herr%not_found].
  apply bind_Ok in Hb as (e1&[= <-]&Hb). repeat next_check Hb. apply raise_when_Ok in Hb.
  rewrite !orb_false_iff, !negb_false_iff, String.eqb_eq in Hb. destruct Hb as (((((((Hq2&Hqm)&_)&_)&_)&_)&_)&_).
  rewrite differs_plain in Hact, Hrev, Hnote, Hqm by reflexivity. cbn [app] in Hc1. rewrite app_nil_r in Hc1.
  by constructor.
Qed.

(** The members a completed classification adds to its evidence. *)
Definition added_members (action : ResolutionAction.t) (b : BoundQueue) (canonical : string) : list (string * json) :=
  [("canonical_app_transaction_ref", JStr canonical); ("payload_target_app_txn_id", JStr canonical)] ++
  if bool_decide (action = ResolutionAction.MARK_DUPLICATE)
  then duplicate_members (app_txn_id <$> bq_app_transactions b) canonical else [].

Definition enough_duplicates (ids : list string) (canonical : string) : Prop :=
  (2 <= length ids)%nat ∧ has_duplicates ids = false ∧ str_in canonical ids = true.

Lemma added_keys action b canonical k : k ∈ dict_keys (added_members action b canonical) →
  k ∉ SOURCE_AUDIT_KEYS ++ RESOLUTION_ENVELOPE_KEYS.
Proof.
  unfold added_members. destruct (bool_decide _); cbn; rewrite ?elem_of_cons, elem_of_nil;
    intros H; repeat destruct H as [->|H]; try done; by apply (bool_decide_eq_true_1 (_ ∉ _)).
Qed.

Lemma added_not_evidence r b e action canonical k : conforms r b e →
  k ∈ dict_keys (added_members action b canonical) → k ∉ dict_keys e.
Proof.
  intros Hc Hk He. apply added_keys in Hk. apply (cf_keys _ _ _ Hc), elem_of_app in He as [He|He]; apply Hk, elem_of_app; [left|by right].
  by eapply projection_keys.
Qed.

Lemma added_distinct action b canonical : NoDup (dict_keys (added_members action b canonical)).
Proof. unfold added_members. destruct (bool_decide _); cbn; by apply (bool_decide_eq_true_1 (NoDup _)). Qed.

Lemma completed_distinct r b e action canonical : conforms r b e → NoDup (dict_keys e) →
  NoDup (dict_keys (e ++ added_members action b canonical)).
Proof.
  intros Hc He. unfold dict_keys. rewrite fmap_app. apply NoDup_app. split_and!; [done| |apply added_distinct].
  intros k Hk Ha. by eapply added_not_evidence.
Qed.

Lemma foldM_add e l : NoDup (dict_keys l) → (∀ k, k ∈ dict_keys l → k ∉ dict_keys e) →
  foldM add_member e l = Ok (e ++ l).
Proof.
  revert e. induction l as [|[k v] l IH]; intros e; cbn [dict_keys fmap list_fmap]; [by rewrite app_nil_r|].
  intros [Hk Hnd]%NoDup_cons Hf. cbn [foldM].
  assert (Hn : k ∉ dict_keys e) by (apply Hf; set_solver).
  assert (Hs : add_member e (k, v) = Ok (e ++ [(k, v)])).
  { unfold add_member, contradicts, dict_mem. cbn [fst snd]. rewrite (proj2 (dict_get_None k e) Hn).
    cbn. by rewrite dict_set_keys_new. }
  rewrite Hs. cbn [mbind result_bind]. rewrite IH; [by rewrite <- app_assoc|done|].
  intros x Hx. unfold dict_keys. rewrite fmap_app. cbn. set_solver.
Qed.

Lemma completed_evidence cs t r b e r' :
  bound_successful_classification cs t r = Ok (Some b) → successful_classification r = true → conforms r b e →
  (∀ canonical, canonical_app_ref t (qi_queue_item_id (rr_queue_item r)) = Some canonical →
    dict_get "app_txn_id" e = Some (JStr canonical)) →
  complete_success_evidence cs t r = Ok r' →
  ∃ canonical, canonical_app_ref t (qi_queue_item_id (rr_queue_item r)) = Some canonical ∧
    r' = with_evidence r (e ++ added_members (rd_action (rr_decision r)) b canonical) ∧
    (rd_action (rr_decision r) = ResolutionAction.MARK_DUPLICATE →
      enough_duplicates (app_txn_id <$> bq_app_transactions b) canonical).
Proof.
  intros Hb Hs Hc Happ. unfold complete_success_evidence. rewrite Hs, Hb. cbn [negb mbind result_bind].
  destruct (canonical_app_ref _ _) as [canonical|]; [|done]. destruct (rc_best_app_transaction _) as [best|]; [|done].
  intros H. apply bind_Ok in H as ([]&Hbest&H). apply raise_when_Ok, negb_false_iff, String.eqb_eq in Hbest. subst canonical.
  set (canonical := app_txn_id best) in *. exists canonical. split; [done|]. specialize (Happ _ eq_refl).
  unfold evidence_members_of in H. rewrite (cf_evidence _ _ _ Hc) in H. cbn [mbind result_bind] in H.
  next_check H. next_check H. rewrite (dict_set_same "app_txn_id") in H by done.
  assert (Hn : ∀ k, k ∈ dict_keys (added_members ResolutionAction.MARK_DUPLICATE b canonical) → k ∉ dict_keys e).
  { intros k. by apply (added_not_evidence r). }
  cbn [added_members duplicate_members dict_keys app fmap list_fmap fst] in Hn. change (bool_decide _) with true in Hn. cbn in Hn.
  rewrite (dict_set_keys_new "canonical_app_transaction_ref") in H by (apply Hn; set_solver).
  rewrite (dict_set_keys_new "payload_target_app_txn_id") in H.
  2:{ unfold dict_keys in *. rewrite fmap_app. intros [Hx|Hx]%elem_of_app; [revert Hx; apply Hn; set_solver|].
      by apply list_elem_of_singleton in Hx. }
  rewrite <- app_assoc in H. cbn [app] in H. unfold added_members.
  destruct (bool_decide_reflect (rd_action (rr_decision r) = ResolutionAction.MARK_DUPLICATE)) as [Ha|Ha].
  - next_check H. apply raise_when_Ok in Hc2. rewrite !orb_false_iff, Nat.ltb_ge, negb_false_iff in Hc2.
    destruct Hc2 as [[H2 H3] H4]. rewrite foldM_add in H.
    + cbn [mbind result_bind] in H. injection H as <-. split; [by rewrite <- app_assoc|]. by intros _.
    + by apply (bool_decide_eq_true_1 (NoDup _)).
    + intros k Hk Hx. unfold dict_keys in Hx. rewrite fmap_app in Hx. apply elem_of_app in Hx as [Hx|Hx].
      * revert Hx. apply Hn. cbn in Hk. set_solver.
      * revert Hk Hx. cbn. rewrite !elem_of_cons, !elem_of_nil. intros Hk Hx.
        repeat destruct Hk as [->|Hk]; repeat destruct Hx as [Hx|Hx]; done.
  - next_check H. injection H as <-. by split.
Qed.

(** ** The stored row *)

Lemma resolved_kept o : require_resolved_at o = Ok tt → o ≫= text_or_none = o.
Proof.
  destruct o as [t|]; [|done]. cbn. unfold text_or_none, str_empty. destruct (String.eqb_spec t "") as [->|]; [|done].
  by vm_compute.
Qed.

Lemma note_kept note : note_or_empty (text_or_null (text_or_none note)) = JStr note.
Proof. unfold text_or_none, str_empty. by destruct (String.eqb_spec note "") as [->|]. Qed.

Lemma decision_row_fields dr d : decision_row_matches dr d = true ↔
  dr_review_queue_public_id dr = rd_queue_item_id d ∧ dr_decision_action dr = ResolutionAction.value (rd_action d) ∧
  dr_decision_note dr = text_or_none (rd_note d) ∧ dr_reviewer dr = rd_reviewer d ∧
  dr_resolved_at dr = rd_resolved_at d ≫= text_or_none.
Proof.
  unfold decision_row_matches. rewrite !andb_true_iff, !String.eqb_eq, !bool_decide_eq_true. tauto.
Qed.

Lemma resolution_action_enum (a : ResolutionAction.t) : enum_of_value (ResolutionAction.value a) = Some a.
Proof. by destruct a. Qed.

Section Stored.
Context (r : ResolutionResult) (b : BoundQueue) (e : list (string * json)) (canonical : string).
Context (dr : DecisionRow) (text : string).
Context (Hc : conforms r b e) (Hnd : NoDup (dict_keys e)).
Context (Hdr : decision_row_matches dr (rr_decision r) = true) (Hid : dr_public_id dr = rd_decision_id (rr_decision r)).
Context (Hcan : app_ref (bq_item b) = Some canonical) (Hbound : bq_app_transaction_ref b = Some canonical).

Let action := rd_action (rr_decision r).
Let added := added_members action b canonical.
Let stored := sorted_members (e ++ added).
Let row : ResultRow :=
  MkResultRow (rr_result_id r) (qi_queue_item_id (rr_queue_item r)) (rd_decision_id (rr_decision r)) 1 None text.

Lemma stored_distinct : NoDup (dict_keys (e ++ added)).
Proof using Hc Hnd. by apply (completed_distinct r). Qed.

Lemma stored_text k s : get e k = JStr s → get stored k = JStr s.
Proof using Hc Hnd.
  intros H. unfold stored. rewrite get_sorted by apply stored_distinct.
  rewrite get_app_l; [by rewrite H|]. by rewrite (get_mem e k (JStr s) H).
Qed.

Lemma stored_added k v : dict_get k added = Some v → get stored k = sort_json v.
Proof using Hc Hnd.
  intros H. unfold stored. rewrite get_sorted by apply stored_distinct. rewrite get_app_r.
  - unfold get. by rewrite H.
  - apply (added_not_evidence r b e action canonical); [done|]. apply dict_get_Some_mem in H.
    unfold dict_keys. by apply (list_elem_of_fmap_2 fst) in H.
Qed.

Lemma stored_differs k s : get e k = JStr s → differs stored k (JStr s) = false.
Proof using Hc Hnd. intros H. apply differs_plain; [done|]. by apply stored_text. Qed.

Lemma resolved_text : ∃ s, get e "resolved_at" = JStr s ∧ require_aware_time s "audit resolved_at" = Ok tt.
Proof using Hc.
  pose proof (cf_time _ _ _ Hc) as H. unfold require_time in H. destruct (get e "resolved_at"); try done. by eexists.
Qed.

Lemma stored_resolved : resolved_differs stored (dr_resolved_at dr) = false.
Proof using Hc Hnd Hdr.
  apply decision_row_fields in Hdr as (_&_&_&_&->). rewrite (resolved_kept _ (cf_resolved _ _ _ Hc)).
  pose proof (cf_resolved_member _ _ _ Hc) as H. destruct (rd_resolved_at _) as [t|]; [|done]. cbn in *.
  apply stored_differs. by apply differs_plain in H.
Qed.

Lemma stored_keys k : k ∈ dict_keys stored ↔ k ∈ dict_keys e ∨ k ∈ dict_keys added.
Proof using Type.
  unfold stored. rewrite (sorted_members_keys (e ++ added)). unfold dict_keys. rewrite fmap_app. apply elem_of_app.
Qed.

Lemma row_basic : assert_resolution_row_basic (result_row_json row) (decision_row_json dr) stored = Ok tt.
Proof using Hc Hnd Hdr Hid.
  pose proof stored_resolved as Hres. destruct resolved_text as (t&Ht&Htime).
  pose proof Hdr as (Hq&Ha&Hn&Hr&Hra)%decision_row_fields. unfold assert_resolution_row_basic.
  change (get (result_row_json row) "result_id") with (JStr (rr_result_id r)).
  change (get (result_row_json row) "decision_public_id") with (JStr (rd_decision_id (rr_decision r))).
  change (get (result_row_json row) "review_queue_public_id") with (JStr (qi_queue_item_id (rr_queue_item r))).
  change (get (decision_row_json dr) "reviewer") with (JStr (dr_reviewer dr)).
  change (get (decision_row_json dr) "decision_note") with (text_or_null (dr_decision_note dr)).
  change (get (decision_row_json dr) "resolved_at") with (text_or_null (dr_resolved_at dr)).
  change (get (decision_row_json dr) "decision_action") with (JStr (dr_decision_action dr)).
  cbn [require_text]. rewrite <- (cf_item _ _ _ Hc), Hr, (cf_result_id _ _ _ Hc), (cf_decision_id _ _ _ Hc), (cf_queue_id _ _ _ Hc),
    (cf_reviewer _ _ _ Hc), Hn, note_kept, (stored_text _ _ Ht), Ha.
  cbn [mbind result_bind refuse raise_when not_one require_note require_time].
  change (not_one (get (result_row_json row) "success")) with false.
  change (json_eqb (get (result_row_json row) "error_message") JNull) with true.
  cbn [mbind result_bind refuse raise_when negb]. rewrite Htime.
  assert (Hd1 : differs (decision_row_json dr) "public_id" (JStr (rd_decision_id (rr_decision r))) = false)
    by by apply differs_plain; [done|]; rewrite <- Hid.
  assert (Hd2 : differs (decision_row_json dr) "review_queue_public_id" (JStr (rd_queue_item_id (rr_decision r))) = false)
    by by apply differs_plain; [done|]; rewrite <- Hq.
  rewrite Hd1, Hd2, (stored_differs _ _ (cf_queue_member _ _ _ Hc)), (stored_differs _ _ (cf_action_member _ _ _ Hc)),
    (stored_differs _ _ (cf_reviewer_member _ _ _ Hc)), (stored_differs _ _ (cf_note_member _ _ _ Hc)).
  rewrite Hra, (resolved_kept _ (cf_resolved _ _ _ Hc)) in *. pose proof (cf_resolved _ _ _ Hc) as Hra'.
  destruct (rd_resolved_at (rr_decision r)) as [t'|]; cbn in *; [|done]. by rewrite Hra', Hres.
Qed.

Lemma schema_stored : assert_resolution_audit_schema stored b action true = Ok tt.
Proof using Hc Hnd Hdr Hid Hcan Hbound.
  unfold assert_resolution_audit_schema.
  assert (Hk : same_keys (dict_keys stored) (dict_keys (bound_source_audit_projection b) ++ RESOLUTION_ENVELOPE_KEYS ++
    RESOLUTION_PERSISTED_KEYS ++ (if bool_decide (action = ResolutionAction.MARK_DUPLICATE) then RESOLUTION_DUPLICATE_KEYS else [])) = true).
  { apply same_keys_iff. intros k. rewrite stored_keys, (cf_keys _ _ _ Hc). unfold added, added_members.
    destruct (bool_decide (action = _)); cbn [dict_keys duplicate_members fmap list_fmap app fst];
      rewrite !elem_of_app; unfold RESOLUTION_PERSISTED_KEYS, RESOLUTION_DUPLICATE_KEYS;
      rewrite !elem_of_cons, !elem_of_nil; tauto. }
  rewrite Hk. cbn [negb refuse raise_when mbind result_bind].
  assert (Hs : assert_source_audit stored b = Ok tt).
  { apply source_audit_stored; [apply stored_distinct| |exact (cf_source _ _ _ Hc)].
    intros k Hx Hy. apply added_keys in Hx. by apply Hx, elem_of_app; left. }
  rewrite Hs, Hbound. cbn [mbind result_bind text_or_null].
  assert (Hx : ∀ k v, plain v = true → dict_get k added = Some v → differs stored k v = false).
  { intros k v Hp Hg. apply differs_plain; [done|]. by rewrite (stored_added _ _ Hg), plain_sorted. }
  change (opt_json JStr (Some canonical)) with (JStr canonical).
  unfold added, added_members in Hx. rewrite (Hx "canonical_app_transaction_ref"), (Hx "payload_target_app_txn_id") by done.
  cbn [orb raise_when refuse mbind result_bind]. destruct (bool_decide (action = _)) eqn:Ea; [|done].
  rewrite (Hx "duplicate_app_txn_ids"), (Hx "kept_app_txn_id"); [|done|done|apply plain_strs|].
  2:{ cbn [dict_get app duplicate_members String.eqb]. rewrite <- list_fmap_compose. reflexivity. }
  cbn [orb].
  assert (Hau : get stored "audit_only" = JBool true).
  { rewrite (stored_added "audit_only" (JBool true)); [done|]. unfold added, added_members. by rewrite Ea. }
  by rewrite Hau.
Qed.

Lemma row_accepted : assert_resolution_row (result_row_json row) (decision_row_json dr) stored b = Ok tt.
Proof using Hc Hnd Hdr Hid Hcan Hbound.
  pose proof Hdr as (Hq&Ha&_)%decision_row_fields. unfold assert_resolution_row. rewrite row_basic. cbn [mbind result_bind].
  assert (Hd1 : differs (result_row_json row) "review_queue_public_id" (JStr (bq_queue_item_id b)) = false).
  { apply differs_plain; [done|]. rewrite <- (cf_bound _ _ _ Hc), (cf_item _ _ _ Hc). done. }
  assert (Hd2 : differs (decision_row_json dr) "review_queue_public_id" (JStr (bq_queue_item_id b)) = false).
  { apply differs_plain; [done|]. rewrite <- (cf_bound _ _ _ Hc), <- Hq. done. }
  rewrite Hd1, Hd2. cbn [orb refuse raise_when mbind result_bind].
  change (get (decision_row_json dr) "decision_action") with (JStr (dr_decision_action dr)). rewrite Ha.
  unfold stored_action. fold action. rewrite resolution_action_enum. cbn [mbind result_bind].
  pose proof (cf_class _ _ _ Hc) as Hcl. fold action in Hcl. rewrite Hcl. apply schema_stored.
Qed.
End Stored.

