(* ===== verification/ResolutionReplay.v ===== *)
(** * A stored success is accepted again

    Every stored success is in order, whatever calls were made: its decision
    is stored, its queue row is the frozen source, and its evidence passes the
    checks of a stored row.  So a replay changes nothing but the status of the
    queue item, or is refused once the transaction was corrected. *)

From Stdlib Require Import Ascii ZArith SpecFloat Lia.
From stdpp Require Import base sets strings sorting numbers list relations.
From S2P Require Import Prelude PyDecimal PyValue Hash Json JsonParse JsonRoundtrip PyDate PyDateTime PyFloat ReconModels ReconDecision ReconMatcher ReconBatch ReviewModels ReviewQueue ApplyRuntime BoundCodec Snapshot Resolution SourceBinding ReviewPersistence Integrity Sqlite ApplyProps CodecProps BindingProps IntegrityProps ResolutionStore ResolutionStoreProps ResolutionEvidence.

Open Scope Z_scope.

(** ** The frozen row of a classification *)

Lemma load_bound_frozen q id b : load_bound_queue true q id = Ok (Some b) ↔
  ∃ row, frozen_row q id = Some row ∧ load_bound_row row = Ok b.
Proof.
  unfold load_bound_queue, frozen_row. cbn [negb]. destruct (get_by_public_id q id) as [s|]; cbn.
  - destruct (load_bound_row (si_row s)) as [b'|ex] eqn:E; cbn; split.
    + intros [= ->]. by eexists.
    + intros (row&[= <-]&H). rewrite E in H. by injection H as ->.
    + done.
    + intros (row&[= <-]&H). congruence.
  - split; [done|by intros (?&?&_)].
Qed.

Lemma canonical_frozen t id :
  canonical_app_ref t id = frozen_row (qt_queue t) id ≫= λ row, row_app_transaction_ref row ≫= text_or_none.
Proof. unfold canonical_app_ref, frozen_row. by destruct (get_by_public_id _ _). Qed.

(** The row of the item loads as [b], and names the app transaction
    [canonical]. *)
Definition bound_at (t : ResolutionTables) (id : string) (b : BoundQueue) (canonical : string) : Prop :=
  ∃ row, frozen_row (qt_queue t) id = Some row ∧ load_bound_row row = Ok b ∧
    row_app_transaction_ref row = Some canonical ∧ str_empty canonical = false.

Lemma bound_at_stable t t' id b canonical : extends t t' → bound_at t id b canonical → bound_at t' id b canonical.
Proof. intros E (row&Hf&H). exists row. split; [by eapply frozen_row_stable|done]. Qed.

Lemma bound_at_intro t id b canonical : load_bound_queue true (qt_queue t) id = Ok (Some b) →
  canonical_app_ref t id = Some canonical → bound_at t id b canonical.
Proof.
  intros (row&Hf&Hl)%load_bound_frozen H. rewrite canonical_frozen, Hf in H. cbn in H. exists row.
  destruct (row_app_transaction_ref row) as [s|]; [|done]. cbn in H. unfold text_or_none in H.
  destruct (str_empty s) eqn:Es; [done|]. injection H as ->. by split_and!.
Qed.

Lemma bound_at_elim t id b canonical : bound_at t id b canonical →
  load_bound_queue true (qt_queue t) id = Ok (Some b) ∧ canonical_app_ref t id = Some canonical.
Proof.
  intros (row&Hf&Hl&Hr&He). split; [apply load_bound_frozen; by exists row|].
  rewrite canonical_frozen, Hf. cbn. rewrite Hr. cbn. unfold text_or_none. by rewrite He.
Qed.

Lemma frozen_row_id q id row : frozen_row q id = Some row → row_public_id row = id.
Proof.
  unfold frozen_row. destruct (get_by_public_id q id) as [s|] eqn:E; [|done]. intros [= <-].
  apply find_mem in E as [_ E]. by apply String.eqb_eq in E.
Qed.

(** Every app transaction a snapshot restores has an identity. *)
Lemma restored_nonempty a r : restore_app (app_snapshot_json a) = Ok r → str_empty (app_txn_id a) = false.
Proof.
  unfold restore_app. intros (d&Hd&H)%bind_Ok.
  assert (dict_get "app_txn_id" d = Some (JStr (app_txn_id a))) as Hid.
  { unfold app_snapshot_json, snapshot_members in Hd. apply bind_Ok in Hd as ([]&_&[= <-]). reflexivity. }
  apply bind_Ok in H as (id&Hi&_). unfold required_text in Hi. rewrite Hid in Hi. by destruct (str_empty _).
Qed.

Lemma material_ids item m : source_material item = Ok m →
  Forall (λ id, str_empty id = false) (app_txn_id <$> rc_all_app_transactions (qi_candidate item)).
Proof.
  unfold source_material. intros ([]&_&H)%bind_Ok. apply bind_Ok in H as ([]&_&H). apply bind_Ok in H as ([]&_&H).
  apply bind_Ok in H as ([]&Hset&_). unfold check_candidate_set in Hset. apply bind_Ok in Hset as ([]&_&H).
  apply bind_Ok in H as (rs&Hr&_). apply mapM_Ok in Hr. rewrite Forall_fmap.
  induction Hr as [|a r l k Ha _ IH]; constructor; [by eapply restored_nonempty|done].
Qed.

Lemma bound_facts t id b canonical : bound_at t id b canonical →
  bq_queue_item_id b = id ∧ app_ref (bq_item b) = Some canonical ∧ bq_app_transaction_ref b = Some canonical ∧
  Forall (λ x, str_empty x = false) (app_txn_id <$> bq_app_transactions b).
Proof.
  intros (row&Hf&Hl&Hr&_). destruct (loaded_row_facts _ _ Hl) as (_&Hrep&_&Hb&m&Hm).
  destruct Hrep as (Hq&_&_&_&_&_&Ha&_). rewrite Hr in Ha. rewrite Hb. cbn [bq_queue_item_id bound_of bq_app_transaction_ref bq_app_transactions bq_item].
  split_and!; [by rewrite <- Hq; apply frozen_row_id in Hf|done|done|]. by eapply material_ids.
Qed.

(** ** What a replay reads *)

Lemma schema_member stored b action k v : assert_resolution_audit_schema stored b action true = Ok tt →
  dict_get k (bound_source_audit_projection b) = Some v → get stored k = v.
Proof.
  unfold assert_resolution_audit_schema. intros H Hk. apply bind_Ok in H as ([]&Hkeys&H).
  apply bind_Ok in H as ([]&Hs&_). apply raise_when_Ok, negb_false_iff in Hkeys. rewrite same_keys_iff in Hkeys.
  assert (Hm : k ∈ dict_keys (bound_source_audit_projection b)).
  { apply dict_get_Some_mem in Hk. by apply (list_elem_of_fmap_2 fst) in Hk. }
  destruct (dict_get k stored) as [w|] eqn:E.
  - unfold get. rewrite E. cbn. eapply source_member in E; [|done|by eapply projection_keys]. congruence.
  - apply dict_get_None in E. exfalso. apply E, Hkeys, elem_of_app. by left.
Qed.

Lemma stored_texts_of ids : Forall (λ x, str_empty x = false) ids → stored_texts (JList (JStr <$> ids)) = Some ids.
Proof.
  intros H. unfold stored_texts. induction H as [|x l Hx _ IH]; [done|]. cbn. unfold text_or_none. rewrite Hx. cbn.
  by rewrite IH.
Qed.

(** A text that is the canonical one of an object with ASCII texts, and the
    members it is read as. *)
Definition text_of_members (raw : string) (members : list (string * json)) : Prop :=
  ∃ d, json_ok is_ascii (JDict d) = true ∧ raw = canonical (JDict d) ∧ members = sorted_members d.

Lemma text_stored raw members : text_of_members raw members → stored_evidence raw = Ok members.
Proof. intros (d&Hd&->&->). unfold stored_evidence. by rewrite json_loads_dumps. Qed.

(** A stored success in order: its decision is stored, its queue row is the
    frozen source, and its evidence passes the checks of a stored row. *)
Definition success_in_order (t : ResolutionTables) (row : ResultRow) : Prop :=
  ∃ dr, get_decision_by_public_id t (sr_decision_public_id row) = Some dr ∧
    (∃ d, decision_row_matches dr d = true) ∧
    ∀ action, dr_decision_action dr = ResolutionAction.value action → is_classification action = true →
    ∃ b canonical evidence, bound_at t (sr_review_queue_public_id row) b canonical ∧
      dr_review_queue_public_id dr = sr_review_queue_public_id row ∧
      text_of_members (sr_audit_evidence_json row) evidence ∧
      assert_resolution_row (result_row_json row) (decision_row_json dr) evidence b = Ok tt ∧
      (action = ResolutionAction.MARK_DUPLICATE → enough_duplicates (app_txn_id <$> bq_app_transactions b) canonical).

Lemma success_stable t t' row : extends t t' → success_in_order t row → success_in_order t' row.
Proof.
  intros E (dr&Hd&Hm&H). exists dr. split; [by eapply decision_stable|]. split; [done|]. intros a Ha Hc.
  destruct (H a Ha Hc) as (b&can&ev&Hb&H'). exists b, can, ev. split; [by eapply bound_at_stable|done].
Qed.

(** The app transactions a replay of [d] looks at. *)
Definition replay_ids (d : ResolutionDecision) (b : BoundQueue) (canonical : string) : list string :=
  canonical :: if bool_decide (rd_action d = ResolutionAction.MARK_DUPLICATE)
               then app_txn_id <$> bq_app_transactions b else [].

Lemma replay_reads t d row : success_in_order t row → is_classification (rd_action d) = true →
  sr_decision_public_id row = rd_decision_id d →
  (∀ dr, get_decision_by_public_id t (rd_decision_id d) = Some dr → decision_row_matches dr d = true) →
  ∃ b canonical, bound_at t (rd_queue_item_id d) b canonical ∧
    replayed_targets t d row (Some b) = Ok (replay_ids d b canonical).
Proof.
  intros (dr&Hd&_&H) Hc Hrow Hm. rewrite Hrow in Hd. specialize (Hm _ Hd).
  pose proof Hm as (Hq&Ha&Hn&Hrev&Hres)%decision_row_fields.
  destruct (H _ Ha Hc) as (b&can&ev&Hb&Hsame&Hev%text_stored&Hrowok&Hdup). exists b, can. rewrite <- Hq, Hsame. split; [done|].
  destruct (bound_at_elim _ _ _ _ Hb) as [_ Hcan]. destruct (bound_facts _ _ _ _ Hb) as (Hqid&Happ&Href&Hne).
  unfold replayed_targets. rewrite Hqid, String.eqb_refl, Hev, Hcan. cbn [negb refuse raise_when mbind result_bind].
  pose proof Hrowok as Hk. unfold assert_resolution_row in Hk. apply bind_Ok in Hk as ([]&Hbasic&Hk). next_check Hk.
  apply bind_Ok in Hk as (a&Hact&Hk). next_check Hk.
  assert (a = rd_action d) as ->.
  { change (get (decision_row_json dr) "decision_action") with (JStr (dr_decision_action dr)) in Hact. rewrite Ha in Hact.
    unfold stored_action in Hact. rewrite resolution_action_enum in Hact. by injection Hact. }
  unfold assert_resolution_row_basic in Hbasic. repeat next_check Hbasic. apply raise_when_Ok in Hbasic.
  rewrite !orb_false_iff in Hbasic. destruct Hbasic as ((((_&_)&Hrv)&Hnt)&Hrs).
  assert (Hst : check_stored_decision t d row ev b = Ok tt).
  { unfold check_stored_decision. rewrite Hd, Hm, Hrowok. cbn [negb orb].
    assert (Hi : differs ev "issue_type" (JStr (IssueType.value (bq_issue_type b))) = false).
    { apply differs_plain; [done|]. apply (schema_member _ _ _ _ _ Hk).
      destruct Hb as (r0&_&Hl&_). destruct (loaded_row_facts _ _ Hl) as (_&_&_&->&_). reflexivity. }
    change (get (decision_row_json dr) "reviewer") with (JStr (dr_reviewer dr)) in Hrv. rewrite Hi, Hrv. cbn [orb].
    change (get (decision_row_json dr) "decision_note") with (text_or_null (dr_decision_note dr)) in Hnt.
    rewrite Hn, note_kept in Hnt. apply differs_plain in Hnt; [|done].
    assert (Hno : note_differs ev (dr_decision_note dr) = false).
    { unfold note_differs, get_or_none. rewrite Hnt, Hn. cbn. unfold text_or_none. destruct (str_empty (rd_note d)); cbn; [done|].
      by rewrite String.eqb_refl. }
    rewrite Hno. cbn [orb].
    assert (Hre : resolved_differs ev (dr_resolved_at dr) = false).
    { change (get (decision_row_json dr) "resolved_at") with (text_or_null (dr_resolved_at dr)) in Hrs.
      by destruct (dr_resolved_at dr). }
    by rewrite Hre. }
  rewrite Hst. cbn [mbind result_bind].
  assert (Hap : differs ev "app_txn_id" (JStr can) = false).
  { apply differs_plain; [done|]. by apply (schema_member _ _ _ _ _ Hk), projection_app. }
  rewrite Hap, Href, (bool_decide_true (Some can = Some can)) by done. cbn [negb refuse raise_when mbind result_bind]. unfold replay_ids.
  destruct (bool_decide_reflect (rd_action d = ResolutionAction.MARK_DUPLICATE)) as [Hmd|]; [|done].
  destruct (Hdup Hmd) as (H2&H3&H4). unfold assert_resolution_audit_schema in Hk. next_check Hk. next_check Hk. next_check Hk.
  rewrite Hmd in Hk. change (bool_decide (ResolutionAction.MARK_DUPLICATE = _)) with true in Hk. cbn iota in Hk.
  apply raise_when_Ok in Hk. rewrite !orb_false_iff, negb_false_iff in Hk. destruct Hk as ((Hl1&Hl2)&Hl3).
  rewrite Href in Hl2. change (text_or_null (Some can)) with (JStr can) in Hl2.
  apply differs_plain in Hl1; [|apply plain_strs]. rewrite (list_fmap_compose app_txn_id JStr) in Hl1.
  unfold stored_duplicates. rewrite Hl1, (stored_texts_of _ Hne), Hl2, Hl3, H3, H4.
  rewrite (proj2 (Nat.ltb_ge _ _) H2), bool_decide_true by done. done.
Qed.

(** ** ASCII queues *)

(** The app transactions of the frozen items have ASCII identities. *)
Definition ascii_queue (q : list (string * QueueRow)) : Prop :=
  ∀ f b, f ∈ q → load_bound_row f.2 = Ok b → Forall (λ x, ascii_text x = true) (app_txn_id <$> bq_app_transactions b).

Lemma item_ids_ascii item : item_fits item = true →
  Forall (λ x, ascii_text x = true) (app_txn_id <$> rc_all_app_transactions (qi_candidate item)).
Proof.
  intros (_&_&_&_&_&_&H)%item_texts. rewrite Forall_fmap. apply Forall_forall. intros a Ha%list_elem_of_In.
  rewrite List.forallb_forall in H. apply H in Ha. unfold app_fits in Ha. rewrite !andb_true_iff in Ha.
  by destruct Ha as ((((((((((?&_)&_)&_)&_)&_)&_)&_)&_)&_)&_).
Qed.

Lemma register_ascii q items run q' n : Forall (λ i, storable i = true) items →
  persist_review_queue true q items run = Ok (q', n) → ascii_queue (frozen <$> q) → ascii_queue (frozen <$> q').
Proof.
  intros Hs H Ha. unfold persist_review_queue in H. apply bind_Ok in H as ([]&_&H). apply bind_Ok in H as (bs&Hb&H).
  apply bind_Ok in H as (rows&Hr&H). pose proof (persisted_rows _ _ _ Hs Hb Hr) as Hrows.
  apply (foldM_inv (λ st : list StoredItem * Z, ascii_queue (frozen <$> st.1))) in H; [done|done|].
  intros st row st' Hst Hin. unfold register_row. destruct (get_by_public_id st.1 _) as [s|]; cbn [negb].
  - intros (b&_&H1)%bind_Ok. apply bind_Ok in H1 as (p&_&H1). apply bind_Ok in H1 as ([]&_&[= <-]). done.
  - intros [= <-]. cbn [fst]. rewrite fmap_app. intros f b [Hf| ->%list_elem_of_singleton]%elem_of_app Hl; [by eapply Hst|].
    cbn in Hl. apply list_elem_of_lookup in Hin as [i Hi]. destruct (Forall2_lookup_r _ _ _ _ _ Hrows Hi) as (item&Hitem&bind&dg&_&_&_&Hload&_).
    rewrite Hload in Hl. injection Hl as <-. cbn. rewrite <- list_fmap_compose. apply item_ids_ascii.
    rewrite Forall_lookup in Hs. specialize (Hs _ _ Hitem). by apply andb_prop in Hs as [? _].
Qed.

Lemma bound_ids_ascii t id b canonical : ascii_queue (frozen <$> qt_queue t) → bound_at t id b canonical →
  Forall (λ x, ascii_text x = true) (app_txn_id <$> bq_app_transactions b).
Proof.
  intros Ha (row&Hf&Hl&_). unfold frozen_row in Hf. destruct (get_by_public_id (qt_queue t) id) as [s|] eqn:E; [|done].
  injection Hf as <-. apply find_mem in E as [E _]. apply (Ha (frozen s) b); [by apply list_elem_of_fmap_2|done].
Qed.

Lemma texts_ok ids : Forall (λ x, ascii_text x = true) ids → json_ok is_ascii (JList (JStr <$> ids)) = true.
Proof. intros H. cbn. induction H as [|x l Hx _ IH]; [done|]. cbn. unfold ascii_text in Hx. by rewrite Hx. Qed.

Lemma json_ok_dict d : json_ok is_ascii (JDict d) = true ↔
  NoDup (dict_keys d) ∧ Forall (λ kv, ascii_text kv.1 = true ∧ json_ok is_ascii kv.2 = true) d.
Proof.
  cbn [json_ok]. rewrite andb_true_iff, bool_decide_eq_true, List.forallb_forall, Forall_forall. apply and_iff_compat_l. split.
  - intros H [k v] Hx%list_elem_of_In. apply H in Hx. by apply andb_prop in Hx.
  - intros H [k v] Hx%list_elem_of_In. apply H in Hx. cbn in Hx. apply andb_true_intro. done.
Qed.

Lemma added_ok action b canonical : ascii_text canonical = true →
  Forall (λ x, ascii_text x = true) (app_txn_id <$> bq_app_transactions b) →
  Forall (λ kv, ascii_text kv.1 = true ∧ json_ok is_ascii kv.2 = true) (added_members action b canonical).
Proof.
  intros Hc Hids. unfold added_members. destruct (bool_decide _); cbn [app duplicate_members];
    repeat (first [apply List.Forall_nil|apply List.Forall_cons]); cbn [fst snd]; (split; [done|]); try done.
  by apply texts_ok.
Qed.

(** ** Storing a success *)

Lemma bound_classification cs t r x : cs_schema cs = Ok true → successful_classification r = true →
  bound_successful_classification cs t r = Ok x →
  ∃ b, x = Some b ∧ load_bound_queue true (qt_queue t) (qi_queue_item_id (rr_queue_item r)) = Ok (Some b) ∧
    assert_candidate_matches_bound b (rr_queue_item r) = Ok tt ∧ assert_resolution_envelope r b = Ok tt.
Proof.
  intros Hs Hc. unfold bound_successful_classification, bound_queue_of. rewrite Hc, Hs. cbn [negb mbind result_bind].
  intros (bo&Hb&H)%bind_Ok. next_check H. destruct bo as [b|].
  - exists b. next_check H. next_check H. next_check H. next_check H. apply bind_Ok in H as (ev&_&H). next_check H.
    injection H as <-. by split_and!.
  - exfalso. unfold load_bound_queue in Hb. cbn [negb] in Hb. destruct (get_by_public_id _ _) as [s|]; [|done].
    cbn in Hb. by destruct (load_bound_row (si_row s)).
Qed.

Lemma app_member r b e canonical : conforms r b e → app_ref (bq_item b) = Some canonical →
  dict_get "app_txn_id" e = Some (JStr canonical).
Proof.
  intros Hc Ha. pose proof (projection_app b canonical Ha) as Hp.
  assert (Hk : "app_txn_id" ∈ dict_keys e).
  { apply (cf_keys _ _ _ Hc), elem_of_app. left. apply dict_get_Some_mem in Hp. by apply (list_elem_of_fmap_2 fst) in Hp. }
  destruct (dict_get "app_txn_id" e) as [v|] eqn:E; [|by apply dict_get_None in E].
  eapply source_member in E; [|by apply (cf_source _ _ _ Hc)|by apply (bool_decide_eq_true_1 (_ ∈ _))]. congruence.
Qed.

Lemma enum_action a a' : ResolutionAction.value a = ResolutionAction.value a' → a = a'.
Proof. by destruct a, a'. Qed.

(** What is stored of a success is in order. *)
Lemma completed_in_order cs t r r' row dr :
  cs_schema cs = Ok true → ascii_queue (frozen <$> qt_queue t) → json_ok is_ascii (rr_audit_evidence r) = true →
  get_decision_by_public_id t (rd_decision_id (rr_decision r)) = Some dr → decision_row_matches dr (rr_decision r) = true →
  complete_success_evidence cs t r = Ok r' → result_values r' = Ok row → sr_success row = 1 → success_in_order t row.
Proof.
  intros Hs Hascii Hok Hd Hm Hcomp Hval Hone. pose proof Hm as (Hdq&Hda&_)%decision_row_fields.
  assert (Hsucc : rr_success r' = true ∧ rd_decision_id (rr_decision r') = sr_decision_public_id row ∧
                  sr_review_queue_public_id row = qi_queue_item_id (rr_queue_item r')).
  { unfold result_values in Hval. apply bind_Ok in Hval as (j&_&[= <-]). cbn in *. by destruct (rr_success r'). }
  destruct Hsucc as (Hsucc&Hdid&Hqid).
  destruct (successful_classification r) eqn:Hcl.
  - assert (Hb : ∃ x, bound_successful_classification cs t r = Ok x).
    { unfold complete_success_evidence in Hcomp. rewrite Hcl in Hcomp. cbn [negb] in Hcomp.
      apply bind_Ok in Hcomp as (x&Hx&_). by exists x. }
    destruct Hb as [x Hx]. destruct (bound_classification _ _ _ _ Hs Hcl Hx) as (b&->&Hload&_&Henv).
    destruct (envelope_conforms _ _ Henv) as [e Hc]. rewrite (cf_evidence _ _ _ Hc) in Hok.
    pose proof (proj1 (json_ok_dict e) Hok) as [Hnd Hee].
    assert (Happ : ∀ c, canonical_app_ref t (qi_queue_item_id (rr_queue_item r)) = Some c → dict_get "app_txn_id" e = Some (JStr c)).
    { intros c Hcan. destruct (bound_facts _ _ _ _ (bound_at_intro _ _ _ _ Hload Hcan)) as (_&Ha&_). by eapply app_member. }
    destruct (completed_evidence _ _ _ _ _ _ Hx Hcl Hc Happ Hcomp) as (can&Hcan&->&Hdup).
    pose proof (bound_at_intro _ _ _ _ Hload Hcan) as Hat. destruct (bound_facts _ _ _ _ Hat) as (_&Href&Hbref&_).
    cbn [rr_queue_item rr_decision with_evidence] in *. exists dr. rewrite <- Hdid. split; [done|]. split; [by eexists|]. intros a Ha Hca.
    assert (a = rd_action (rr_decision r)) as -> by (apply enum_action; congruence).
    exists b, can, (sorted_members (e ++ added_members (rd_action (rr_decision r)) b can)). rewrite Hqid. split; [done|].
    split; [by rewrite Hdq, (cf_item _ _ _ Hc)|].
    assert (Hcas : ascii_text can = true).
    { pose proof (Happ _ Hcan) as Hg. apply dict_get_Some_mem in Hg. rewrite Forall_forall in Hee. by apply Hee in Hg as [_ Hg]. }
    assert (Hj : json_ok is_ascii (JDict (e ++ added_members (rd_action (rr_decision r)) b can)) = true).
    { apply json_ok_dict. split; [by apply (completed_distinct r)|]. apply Forall_app. split; [done|].
      apply added_ok; [done|]. by eapply bound_ids_ascii. }
    unfold result_values in Hval. apply bind_Ok in Hval as (text&Ht&[= <-]). cbn [rr_audit_evidence with_evidence] in Ht.
    unfold json_dumps_ascii in Ht. destruct (printable _); [|done]. injection Ht as <-. cbn [sr_audit_evidence_json].
    split; [by eexists|]. split; [|exact Hdup].
    cbn [rr_result_id rr_queue_item rr_decision rr_success rr_error_message with_evidence].
    rewrite (cf_success _ _ _ Hc), (cf_error _ _ _ Hc). apply row_accepted; try done.
    apply find_mem in Hd as [_ Hd]. by apply String.eqb_eq in Hd.
  - assert (r' = r) as -> by (unfold complete_success_evidence in Hcomp; rewrite Hcl in Hcomp; by injection Hcomp).
    exists dr. rewrite <- Hdid. split; [done|]. split; [by eexists|]. intros a Ha Hca.
    assert (a = rd_action (rr_decision r)) as -> by (apply enum_action; congruence).
    unfold successful_classification in Hcl. by rewrite Hsucc, Hca in Hcl.
Qed.

(** ** What the writes leave *)

Lemma find_snoc_new {A} (p : A → bool) l x : List.find p l = None → p x = true → List.find p (l ++ [x]) = Some x.
Proof.
  intros Hl Hx. induction l as [|y l IH]; cbn in *; [by rewrite Hx|]. by destruct (p y); [|apply IH].
Qed.

Lemma decision_values_match d : decision_row_matches (decision_values d) d = true.
Proof. by apply decision_row_fields. Qed.

Definition same_queue (t t' : ResolutionTables) : Prop := qt_queue t' = qt_queue t.

Lemma insert_decision_spec d c x c' : insert_decision d c = (Ok x, c') →
  ∃ dr, get_decision_by_public_id (cn_tables c') (rd_decision_id d) = Some dr ∧ decision_row_matches dr d = true ∧
    qt_queue (cn_tables c') = qt_queue (cn_tables c) ∧ qt_results (cn_tables c') = qt_results (cn_tables c).
Proof.
  unfold insert_decision. intros H. apply db_bind_inv in H as (o&c1&[= <- <-]&H).
  destruct (get_decision_by_public_id (cn_tables c) (rd_decision_id d)) as [dr|] eqn:E.
  - destruct (decision_row_matches dr d) eqn:Em; [|done]. injection H as <- <-. by exists dr.
  - apply db_bind_inv in H as ([]&c1&H&[= <- <-]). unfold insert_decision_row, execute in H.
    destruct (_ ≫= _ : result ResolutionTables) as [t'|] eqn:Et in H; [|done]. injection H as <-.
    apply bind_Ok in Et as ([]&_&Et). apply bind_Ok in Et as ([]&_&[= <-]). exists (decision_values d).
    split; [|by split; [apply decision_values_match|]].
    apply find_snoc_new; [exact E|]. apply String.eqb_refl.
Qed.

(** A successful insertion of a known decision changes nothing. *)
Lemma insert_decision_known d dr c : get_decision_by_public_id (cn_tables c) (rd_decision_id d) = Some dr →
  decision_row_matches dr d = true → insert_decision d c = (Ok false, c).
Proof. intros Hd Hm. unfold insert_decision, mbind, db_bind, read. rewrite Hd, Hm. done. Qed.

Lemma result_values_match r row : result_values r = Ok row → result_row_matches row r = Ok true.
Proof.
  intros H. unfold result_row_matches. rewrite H. cbn. by rewrite !String.eqb_refl, Z.eqb_refl, bool_decide_true.
Qed.

Lemma result_values_id r row : result_values r = Ok row → sr_public_id row = rr_result_id r.
Proof. unfold result_values. by intros (j&_&[= <-])%bind_Ok. Qed.

Lemma insert_result_spec r c x c' : insert_result r c = (Ok x, c') →
  (∃ row, get_result_by_public_id (cn_tables c') (rr_result_id r) = Some row ∧ result_row_matches row r = Ok true) ∧
  (c' = c ∨ ∃ row, result_values r = Ok row ∧
    cn_tables c' = MkResTables (qt_queue (cn_tables c)) (qt_decisions (cn_tables c)) (qt_results (cn_tables c) ++ [row])).
Proof.
  unfold insert_result. intros H. apply db_bind_inv in H as (o&c1&[= <- <-]&H).
  destruct (get_result_by_public_id (cn_tables c) (rr_result_id r)) as [row|] eqn:E.
  - apply db_bind_inv in H as (m&c1&Hm&H). unfold lift in Hm. injection Hm as Hm <-. destruct m; [|done].
    injection H as <- <-. split; [by exists row|by left].
  - apply db_bind_inv in H as (row&c1&Hv&H). unfold lift in Hv. injection Hv as Hv <-.
    apply db_bind_inv in H as ([]&c1&H&[= <- <-]). unfold insert_result_row, execute in H.
    destruct (_ ≫= _ : result ResolutionTables) as [t'|] eqn:Et in H; [|done]. injection H as <-.
    apply bind_Ok in Et as ([]&_&Et). apply bind_Ok in Et as ([]&_&[= <-]). split; [|right; by exists row].
    exists row. split; [|by apply result_values_match]. apply find_snoc_new; [exact E|].
    rewrite (result_values_id _ _ Hv). apply String.eqb_refl.
Qed.

Lemma insert_result_known r row c : get_result_by_public_id (cn_tables c) (rr_result_id r) = Some row →
  result_row_matches row r = Ok true → insert_result r c = (Ok false, c).
Proof. intros Hr Hm. unfold insert_result, mbind, db_bind, read, lift. rewrite Hr, Hm. done. Qed.

(** ** Histories whose successes are in order *)

(** Migration 051 is applied, and outcomes have ASCII texts. *)
Definition bound_call (cs : CorrectionState) (o : option ResolutionResult) : Prop :=
  cs_schema cs = Ok true ∧ match o with Some r => json_ok is_ascii (rr_audit_evidence r) = true | None => True end.
Definition bound_item (item : ReviewQueueItem) : Prop := storable item = true.

Definition all_in_order (t : ResolutionTables) : Prop :=
  ascii_queue (frozen <$> qt_queue t) ∧ ∀ row, row ∈ qt_results t → sr_success row = 1 → success_in_order t row.

Lemma in_order_extends t t' : extends t t' → frozen <$> qt_queue t' = frozen <$> qt_queue t → qt_results t' = qt_results t →
  all_in_order t → all_in_order t'.
Proof.
  intros E Hq Hr [Ha H]. split; [by rewrite Hq|]. rewrite Hr. intros row Hrow H1. eapply success_stable; eauto.
Qed.

Lemma store_completed_in_order cs r c x c' dr :
  cs_schema cs = Ok true → json_ok is_ascii (rr_audit_evidence r) = true →
  get_decision_by_public_id (cn_tables c) (rd_decision_id (rr_decision r)) = Some dr →
  decision_row_matches dr (rr_decision r) = true → all_in_order (cn_tables c) →
  store_completed cs r c = (Ok x, c') → all_in_order (cn_tables c').
Proof.
  intros Hs Hok Hd Hm Ho H. pose proof (grows_completed cs r c) as [E _]. rewrite H in E. cbn [snd] in E.
  unfold store_completed in H. apply db_bind_inv in H as (r'&c1&Hc&H). unfold examine in Hc. injection Hc as Hc <-.
  destruct (insert_result_spec _ _ _ _ H) as [_ [->|(row&Hv&Ht)]]; [done|]. destruct Ho as [Ha Ho]. rewrite Ht in *. split; [done|].
  cbn [qt_results]. intros row' [Hrow| ->%list_elem_of_singleton]%elem_of_app H1; apply (success_stable (cn_tables c)); auto.
  by eapply completed_in_order.
Qed.

Lemma set_status_in_order id s c x c' : set_status id s c = (Ok x, c') → all_in_order (cn_tables c) → all_in_order (cn_tables c').
Proof.
  intros H. pose proof (grows_status id s c) as [E _]. rewrite H in E. cbn [snd] in E. unfold set_status, execute in H.
  destruct (_ ≫= _ : result ResolutionTables) as [t'|] eqn:Et in H; [|done]. injection H as <- <-.
  apply bind_Ok in Et as (q&Hq&[= <-]). apply in_order_extends; [done| |done]. by apply update_status_frozen in Hq.
Qed.

Lemma owned_write_Ok {A} tx (m : ResDB A) t x c : owned_write tx m (at_rest t) = (Ok x, c) →
  ∃ c1, m (at_rest t) = (Ok x, c1) ∧ c = at_rest (cn_tables c1).
Proof. unfold owned_write. destruct tx; [done|]. destruct (m _) as [[a|e] c1]; [|done]. intros [= -> <-]. by exists c1. Qed.

(** What a successful [apply_resolution] went through. *)
Lemma apply_steps cs tx item d given now t r c : apply_resolution cs tx item d given now (at_rest t) = (Ok r, c) →
  r = default (resolve item d now) given ∧ rr_decision r = d ∧ item_eqb (rr_queue_item r) item = true ∧
  check_bound_item cs t item r = Ok tt ∧ guard_successful_resolution cs t r = Ok tt ∧ check_basic cs r = Ok tt ∧
  ∃ b1 c1 b2 c2 c3, insert_decision d (at_rest t) = (Ok b1, c1) ∧ store_completed cs r c1 = (Ok b2, c2) ∧
    set_status (qi_queue_item_id item) (outcome_status r d) c2 = (Ok tt, c3) ∧ c = at_rest (cn_tables c3).
Proof.
  unfold apply_resolution. set (r0 := default _ _). intros H. apply db_bind_inv in H as (u&c0&H&[= <- <-]).
  apply owned_write_Ok in H as (c3&H&->). split; [done|].
  apply db_bind_inv in H as ([]&c1&H1&H). unfold lift in H1. injection H1 as H1 <-.
  apply raise_when_Ok, orb_false_iff in H1 as [Hd%negb_false_iff%bool_decide_eq_true Hi%negb_false_iff].
  apply db_bind_inv in H as ([]&c1&H2&H). unfold examine in H2. injection H2 as H2 <-.
  apply db_bind_inv in H as ([]&c1&H3&H). unfold examine in H3. injection H3 as H3 <-.
  apply db_bind_inv in H as ([]&c1&H4&H). unfold lift in H4. injection H4 as H4 <-.
  apply db_bind_inv in H as (b1&c1&H5&H). apply db_bind_inv in H as (b2&c2&H6&H). destruct u.
  split_and!; try done. exists b1, c1, b2, c2, c3. by split_and!.
Qed.

Lemma call_in_order cs tx k t x c : bound_call cs (outcome_of k) → all_in_order t →
  run_call cs tx k (at_rest t) = (x, c) → all_in_order (cn_tables c).
Proof.
  intros [Hs Hok] Ho H. destruct (call_spec _ _ _ _ _ _ H) as (_&_&Hfail). destruct x as [[]|ex]; [|by rewrite Hfail].
  clear Hfail. destruct k as [d|r|item d given now]; cbn [run_call outcome_of] in *; apply db_bind_inv in H as (y&c1&H&[= <-]).
  - apply owned_write_Ok in H as (c2&H&->). apply db_bind_inv in H as ([]&c3&H1&H). unfold examine in H1. injection H1 as _ <-.
    pose proof (grows_insert_decision d (at_rest t)) as [E _]. rewrite H in E.
    destruct (insert_decision_spec _ _ _ _ H) as (dr&_&_&Hq&Hr). cbn [cn_tables at_rest] in *.
    by apply (in_order_extends t); [|by rewrite Hq| |].
  - apply owned_write_Ok in H as (c2&H&->). apply db_bind_inv in H as ([]&c3&H1&H). unfold examine in H1. injection H1 as _ <-.
    apply db_bind_inv in H as ([]&c3&H1&H). unfold lift in H1. injection H1 as _ <-.
    apply db_bind_inv in H as (o&c3&H1&H). unfold read in H1. injection H1 as <- <-.
    apply db_bind_inv in H as ([]&c3&H1&H). unfold lift in H1. injection H1 as Hm <-. cbn [cn_tables at_rest] in *.
    destruct (get_decision_by_public_id t _) as [dr|] eqn:Ed; [|done]. apply raise_when_Ok, negb_false_iff in Hm.
    by eapply (store_completed_in_order cs r (at_rest t)).
  - destruct (apply_steps _ _ _ _ _ _ _ _ _ H) as (->&Hd&_&_&_&_&b1&c2&b2&c3&c4&H1&H2&H3&->). cbn [cn_tables at_rest].
    eapply set_status_in_order; [exact H3|]. pose proof (grows_insert_decision d (at_rest t)) as [E _]. rewrite H1 in E.
    destruct (insert_decision_spec _ _ _ _ H1) as (dr&Hdr&Hm&Hq&Hr). rewrite <- Hd in Hdr, Hm.
    eapply store_completed_in_order; [done..| |exact H2]. cbn [cn_tables at_rest snd] in *.
    by apply (in_order_extends t); [|by rewrite Hq| |].
Qed.

Lemma step_in_order t t' : res_step bound_call bound_item t t' → all_in_order t → all_in_order t'.
Proof.
  intros [cs tx k x c Hu H ->|cs present items run q n [Hs _] Hp Hf H ->|id status q H ->] Ho.
  - pose proof (call_in_order _ _ _ _ _ _ Hu Ho H) as Hc. destruct (call_spec _ _ _ _ _ _ H) as (Hset&_). by rewrite <- Hset.
  - rewrite Hs in Hp. injection Hp as <-. destruct Ho as [Ha Ho]. split; [by eapply register_ascii|].
    intros row Hrow H1. apply (success_stable t); [|by apply Ho].
    destruct (register_appends _ _ _ _ _ _ H) as [new ->]. constructor; cbn; [rewrite fmap_app; by eexists|done|done].
  - assert (E : frozen <$> q.1 = frozen <$> qt_queue t) by by apply update_status_frozen in H.
    eapply (in_order_extends t); try done. constructor; cbn; [by rewrite E|done|done].
Qed.

Lemma history_in_order t t' : rtc (res_step bound_call bound_item) t t' → all_in_order t → all_in_order t'.
Proof. induction 1 as [t|t t1 t' H _ IH]; [done|]. intros Ho. by eapply IH, step_in_order. Qed.

Lemma new_in_order : all_in_order new_tables.
Proof. split; [by intros f b ?%elem_of_nil|by intros row ?%elem_of_nil]. Qed.

(** ** Corrections of a list of transactions *)

Lemma sorted_set_mem l x : x ∈ sorted_set l ↔ x ∈ l.
Proof. unfold sorted_set. rewrite isort_perm. apply elem_of_remove_dups. Qed.

Lemma none_committed cs l : (∀ x, x ∈ l → has_committed_correction cs x = Ok false) → any_committed cs l = Ok false.
Proof.
  induction l as [|x l IH]; [done|]. intros H. cbn [any_committed]. rewrite (H x) by set_solver. cbn. apply IH. set_solver.
Qed.

Lemma one_committed cs l x : x ∈ l → has_committed_correction cs x = Ok true →
  (∀ y, y ∈ l → is_ok (has_committed_correction cs y) = true) → any_committed cs l = Ok true.
Proof.
  intros Hx Ht. induction l as [|y l IH]; [by apply elem_of_nil in Hx|]. intros H. cbn [any_committed].
  pose proof (H y ltac:(set_solver)) as Hy. destruct (has_committed_correction cs y) as [[]|] eqn:E; [done| |done].
  cbn. apply IH; [|set_solver]. apply elem_of_cons in Hx as [->|Hx]; [congruence|done].
Qed.

Definition corrected : exn := Exn ValueError "corrected_transaction_requires_versioned_reconciliation".

Lemma refuse_uncorrected cs l : (∀ x, x ∈ l → has_committed_correction cs x = Ok false) → refuse_corrected cs l = Ok tt.
Proof. intros H. unfold refuse_corrected. rewrite none_committed; [done|]. intros x. rewrite sorted_set_mem. apply H. Qed.

Lemma refuse_one cs l x : x ∈ l → has_committed_correction cs x = Ok true →
  (∀ y, y ∈ l → is_ok (has_committed_correction cs y) = true) → refuse_corrected cs l = Raise corrected.
Proof.
  intros Hx Ht H. unfold refuse_corrected. rewrite (one_committed cs _ x); [done|by apply sorted_set_mem|done|].
  intros y. rewrite sorted_set_mem. apply H.
Qed.

(** ** The guards only read the frozen row *)

Lemma load_frozen q id : load_bound_queue true q id =
  match frozen_row q id with Some row => Some <$> load_bound_row row | None => bad "bound queue row is missing" end.
Proof. unfold load_bound_queue, frozen_row. by destruct (get_by_public_id q id). Qed.

Section SameSource.
Context (cs cs' : CorrectionState) (t t' : ResolutionTables) (r : ResolutionResult).
Context (Hs : cs_schema cs = Ok true) (Hs' : cs_schema cs' = Ok true).
Context (Hf : frozen_row (qt_queue t) (qi_queue_item_id (rr_queue_item r)) = frozen_row (qt_queue t') (qi_queue_item_id (rr_queue_item r))).

Lemma same_bound_queue : bound_queue_of cs t (qi_queue_item_id (rr_queue_item r)) = bound_queue_of cs' t' (qi_queue_item_id (rr_queue_item r)).
Proof using Hs Hs' Hf. unfold bound_queue_of. rewrite Hs, Hs'. cbn [mbind result_bind]. by rewrite !load_frozen, Hf. Qed.

Lemma same_classification : bound_successful_classification cs t r = bound_successful_classification cs' t' r.
Proof using Hs Hs' Hf. unfold bound_successful_classification. by rewrite same_bound_queue. Qed.

Lemma same_completion : complete_success_evidence cs t r = complete_success_evidence cs' t' r.
Proof using Hs Hs' Hf. unfold complete_success_evidence. by rewrite same_classification, !canonical_frozen, Hf. Qed.

Lemma same_basic : check_basic cs r = check_basic cs' r.
Proof using Hs Hs'. unfold check_basic. by rewrite Hs, Hs'. Qed.

Lemma same_item_check item : qi_queue_item_id item = qi_queue_item_id (rr_queue_item r) →
  check_bound_item cs t item r = check_bound_item cs' t' item r.
Proof using Hs Hs' Hf. intros Hi. unfold check_bound_item. by rewrite Hi, same_bound_queue. Qed.
End SameSource.

Lemma item_eqb_id a b : item_eqb a b = true → qi_queue_item_id a = qi_queue_item_id b.
Proof.
  unfold item_eqb, item_fields_eqb. intros [->%bool_decide_eq_true|H]%orb_prop; [done|]. rewrite !andb_true_iff in H.
  destruct H as (((((_&H)&_)&_)&_)&_). by apply String.eqb_eq.
Qed.

(** The guard of a success whose frozen row is known, in any later state. *)
Lemma guard_reduces cs t r b e canonical : cs_schema cs = Ok true → successful_classification r = true →
  bound_successful_classification cs t r = Ok (Some b) → conforms r b e →
  canonical_app_ref t (qi_queue_item_id (rr_queue_item r)) = Some canonical →
  guard_successful_resolution cs t r =
    (refuse (bool_decide (classification_targets r (Some b) e = [])) "incomplete app target enumeration";;
     refuse_corrected cs (classification_targets r (Some b) e ++ [canonical])).
Proof.
  intros Hs Hc Hb He Hcan. unfold guard_successful_resolution. rewrite Hc, Hb. cbn [negb mbind result_bind].
  unfold evidence_members_of. rewrite (cf_evidence _ _ _ He), Hcan. done.
Qed.

Lemma targets_known r b e canonical : dict_get "app_txn_id" e = Some (JStr canonical) →
  (∀ best, rc_best_app_transaction (qi_candidate (rr_queue_item r)) = Some best → app_txn_id best = canonical) →
  ∀ x, x ∈ classification_targets r (Some b) e ++ [canonical] → x ∈ canonical :: (app_txn_id <$> bq_app_transactions b).
Proof.
  intros He Hbest x. unfold classification_targets, get. rewrite He. cbn [default nonempty_text].
  rewrite !elem_of_app, !elem_of_cons, elem_of_nil. unfold text_or_none.
  intros [[Hx|[Hx|Hx]]|[Hx|[]]]; [|by right| |by left]; left.
  - destruct (rc_best_app_transaction _) as [best|]; [|by apply elem_of_nil in Hx]. cbn in Hx.
    apply list_elem_of_singleton in Hx as ->. by apply Hbest.
  - change (x ∈ option_list (text_or_none canonical)) in Hx. unfold text_or_none in Hx.
    destruct (str_empty canonical); [by apply elem_of_nil in Hx|]. by apply list_elem_of_singleton in Hx.
Qed.

(** ** One row per identifier *)

(** Two results have the same row in the table, once their evidence is
    completed: all columns agree, the text of the evidence included. *)
Definition writes_same_row (cs : CorrectionState) (t : ResolutionTables) (r r' : ResolutionResult) : Prop :=
  ∃ s s' row, complete_success_evidence cs t r = Ok s ∧ complete_success_evidence cs t r' = Ok s' ∧
    result_values s = Ok row ∧ result_values s' = Ok row.

Lemma completed_id cs t r r' : complete_success_evidence cs t r = Ok r' → rr_result_id r' = rr_result_id r.
Proof.
  unfold complete_success_evidence. destruct (successful_classification r); cbn [negb]; [|by intros [= <-]].
  intros (bo&_&H)%bind_Ok. destruct (canonical_app_ref _ _) as [can|]; [|done]. destruct (rc_best_app_transaction _) as [best|]; [|done].
  next_check H. apply bind_Ok in H as (e&_&H). next_check H. next_check H. destruct (bool_decide _).
  - next_check H. by apply bind_Ok in H as (e'&_&[= <-]).
  - next_check H. by injection H as <-.
Qed.

Lemma match_values row r : result_row_matches row r = Ok true → sr_public_id row = rr_result_id r → result_values r = Ok row.
Proof.
  unfold result_row_matches. intros (v&Hv&[= H])%bind_Ok Hid. rewrite Hv. f_equal. pose proof (result_values_id _ _ Hv) as Hid'.
  rewrite !andb_true_iff, !String.eqb_eq, Z.eqb_eq, bool_decide_eq_true in H. destruct H as ((((H1&H2)&H3)&H4)&H5).
  destruct row, v; cbn in *. by subst.
Qed.

(** ** A stored success in a later state *)

(** What a successful classification leaves behind, in any state that extends
    the one it left. *)
Record remembered (t : ResolutionTables) (r : ResolutionResult) (b : BoundQueue) (canonical : string) : Prop := {
  rm_at : bound_at t (qi_queue_item_id (rr_queue_item r)) b canonical;
  rm_class cs : cs_schema cs = Ok true → bound_successful_classification cs t r = Ok (Some b);
  rm_decision : ∃ dr, get_decision_by_public_id t (rd_decision_id (rr_decision r)) = Some dr ∧
    decision_row_matches dr (rr_decision r) = true;
  rm_result : ∃ r' row, (∀ cs, cs_schema cs = Ok true → complete_success_evidence cs t r = Ok r') ∧
    get_result_by_public_id t (rr_result_id r') = Some row ∧ result_row_matches row r' = Ok true ∧
    sr_success row = 1 ∧ sr_decision_public_id row = rd_decision_id (rr_decision r) ∧
    sr_review_queue_public_id row = qi_queue_item_id (rr_queue_item r);
  rm_best best : rc_best_app_transaction (qi_candidate (rr_queue_item r)) = Some best → app_txn_id best = canonical;
}.

Lemma bound_at_row t id b canonical : bound_at t id b canonical → is_Some (frozen_row (qt_queue t) id).
Proof. intros (row&->&_). by eexists. Qed.

Lemma frozen_row_same t t' id : extends t t' → is_Some (frozen_row (qt_queue t) id) →
  frozen_row (qt_queue t) id = frozen_row (qt_queue t') id.
Proof. intros E [row Hr]. rewrite Hr. symmetry. by eapply frozen_row_stable. Qed.

Lemma remembered_later t t' r b canonical : extends t t' → remembered t r b canonical → remembered t' r b canonical.
Proof.
  intros E [Hat Hcl (dr&Hdr&Hm) (r'&row&Hcomp&Hrow&Hrest) Hbest].
  pose proof (frozen_row_same _ _ _ E (bound_at_row _ _ _ _ Hat)) as Hf. constructor.
  - by eapply bound_at_stable.
  - intros cs Hs. rewrite <- (same_classification cs cs t t' r Hs Hs Hf). by apply Hcl.
  - exists dr. split; [by eapply decision_stable|done].
  - exists r', row. split; [|split; [by eapply result_stable|done]]. intros cs Hs.
    rewrite <- (same_completion cs cs t t' r Hs Hs Hf). by apply Hcomp.
  - exact Hbest.
Qed.

Lemma matched_success row r' : result_row_matches row r' = Ok true → rr_success r' = true →
  sr_success row = 1 ∧ sr_decision_public_id row = rd_decision_id (rr_decision r') ∧
  sr_review_queue_public_id row = qi_queue_item_id (rr_queue_item r').
Proof.
  unfold result_row_matches, result_values. intros (v&Hv&[= H])%bind_Ok Hs. apply bind_Ok in Hv as (j&_&[= <-]).
  rewrite Hs in H. cbn in H. rewrite !andb_true_iff, !String.eqb_eq, Z.eqb_eq in H. tauto.
Qed.

Lemma completed_fields cs t r r' : complete_success_evidence cs t r = Ok r' → successful_classification r = true →
  rr_success r' = true ∧ rr_decision r' = rr_decision r ∧ rr_queue_item r' = rr_queue_item r ∧
  ∃ best canonical, rc_best_app_transaction (qi_candidate (rr_queue_item r)) = Some best ∧
    canonical_app_ref t (qi_queue_item_id (rr_queue_item r)) = Some canonical ∧ app_txn_id best = canonical.
Proof.
  unfold complete_success_evidence. intros H Hc. rewrite Hc in H. cbn [negb] in H.
  apply andb_prop in Hc as [Hs _]. apply bind_Ok in H as (bo&_&H).
  destruct (canonical_app_ref _ _) as [can|]; [|done]. destruct (rc_best_app_transaction _) as [best|]; [|done].
  next_check H. apply raise_when_Ok, negb_false_iff, String.eqb_eq in Hc.
  apply bind_Ok in H as (e&_&H). next_check H. next_check H.
  assert (Hr : ∃ e', r' = with_evidence r e').
  { destruct (bool_decide _).
    - next_check H. apply bind_Ok in H as (e'&_&[= <-]). by eexists.
    - next_check H. injection H as <-. by eexists. }
  destruct Hr as [e' ->]. split_and!; try done. by exists best, can.
Qed.

Lemma applied_remembered cs tx item d given now t r c : cs_schema cs = Ok true →
  apply_resolution cs tx item d given now (at_rest t) = (Ok r, c) → successful_classification r = true →
  rr_decision r = d ∧ qi_queue_item_id (rr_queue_item r) = qi_queue_item_id item ∧ item_eqb (rr_queue_item r) item = true ∧
  check_basic cs r = Ok tt ∧ check_bound_item cs (cn_tables c) item r = Ok tt ∧
  extends t (cn_tables c) ∧ ∃ b canonical, remembered (cn_tables c) r b canonical.
Proof.
  intros Hs H Hc. destruct (apply_steps _ _ _ _ _ _ _ _ _ H) as (_&Hd&Hi&Hbi&_&Hb&b1&c1&b2&c2&c3&H1&H2&H3&->).
  pose proof (item_eqb_id _ _ Hi) as Hid. cbn [cn_tables at_rest].
  pose proof (grows_insert_decision d (at_rest t)) as [E1 _]. rewrite H1 in E1.
  pose proof (grows_completed cs r c1) as [E2 _]. rewrite H2 in E2.
  pose proof (grows_status (qi_queue_item_id item) (outcome_status r d) c2) as [E3 _]. rewrite H3 in E3.
  cbn [cn_tables at_rest snd] in E1, E2, E3.
  destruct (insert_decision_spec _ _ _ _ H1) as (dr&Hdr&Hm&_&_).
  unfold store_completed in H2. apply db_bind_inv in H2 as (r'&c1'&Hr'&H2). unfold examine in Hr'. injection Hr' as Hr' <-.
  destruct (insert_result_spec _ _ _ _ H2) as [(row&Hrow&Hmatch) _].
  destruct (completed_fields _ _ _ _ Hr' Hc) as (Hs'&Hd'&Hi'&best&can&Hbest&Hcan&Hbc).
  assert (Hx : ∃ x, bound_successful_classification cs (cn_tables c1) r = Ok x).
  { unfold complete_success_evidence in Hr'. rewrite Hc in Hr'. cbn [negb] in Hr'. apply bind_Ok in Hr' as (x&Hx&_). by exists x. }
  destruct Hx as [x Hx]. destruct (bound_classification _ _ _ _ Hs Hc Hx) as (b&->&Hload&_&_).
  pose proof (bound_at_intro _ _ _ _ Hload Hcan) as Hat.
  assert (Hf : frozen_row (qt_queue t) (qi_queue_item_id (rr_queue_item r)) = frozen_row (qt_queue (cn_tables c3)) (qi_queue_item_id (rr_queue_item r))).
  { rewrite <- (frozen_row_same (cn_tables c1) (cn_tables c3)); [|by etrans|by eapply bound_at_row].
    destruct (insert_decision_spec _ _ _ _ H1) as (_&_&_&Hq&_). cbn in Hq. by rewrite Hq. }
  split_and!; try done.
  - rewrite <- (same_item_check cs cs t (cn_tables c3) r Hs Hs Hf); [done|]. by rewrite Hid.
  - etrans; [exact E1|]. by etrans.
  - exists b, can. apply (remembered_later (cn_tables c2)); [done|]. rewrite <- Hd in Hdr, Hm.
    assert (Hf2 : frozen_row (qt_queue (cn_tables c1)) (qi_queue_item_id (rr_queue_item r)) = frozen_row (qt_queue (cn_tables c2)) (qi_queue_item_id (rr_queue_item r)))
      by by apply frozen_row_same; [|eapply bound_at_row].
    destruct (matched_success _ _ Hmatch Hs') as (M1&M2&M3). rewrite Hd' in M2. rewrite Hi' in M3. constructor.
    + by eapply bound_at_stable.
    + intros cs' Hcs. by rewrite <- (same_classification cs cs' _ _ r Hs Hcs Hf2).
    + exists dr. split; [by eapply decision_stable|done].
    + exists r', row. split_and!; try done. intros cs' Hcs. by rewrite <- (same_completion cs cs' _ _ r Hs Hcs Hf2).
    + intros best'. rewrite Hbest. by intros [= <-].
Qed.

Lemma bound_at_unique t id b c b' c' : bound_at t id b c → bound_at t id b' c' → b = b' ∧ c = c'.
Proof. intros (row&Hf&Hl&Hr&_) (row'&Hf'&Hl'&Hr'&_). assert (row' = row) as -> by congruence. split; congruence. Qed.

Lemma status_resolved q id : ∃ q', update_status q id "resolved" = Ok q'.
Proof. unfold update_status. change (str_in "resolved" queue_statuses) with true. rewrite andb_false_r. by eexists. Qed.

Section Later.
Context (cs : CorrectionState) (t : ResolutionTables) (r : ResolutionResult) (b : BoundQueue) (canonical : string).
Context (Hs : cs_schema cs = Ok true) (Hc : successful_classification r = true) (Hrm : remembered t r b canonical).

Lemma later_conforms : ∃ e, conforms r b e ∧ dict_get "app_txn_id" e = Some (JStr canonical).
Proof using Hs Hc Hrm.
  destruct (bound_classification cs t r _ Hs Hc (rm_class _ _ _ _ Hrm cs Hs)) as (b0&[= <-]&_&_&Henv).
  destruct (envelope_conforms _ _ Henv) as [e He]. exists e. split; [done|].
  destruct (bound_facts _ _ _ _ (rm_at _ _ _ _ Hrm)) as (_&Ha&_). by eapply app_member.
Qed.

Lemma later_basic : check_basic cs r = Ok tt.
Proof using Hs Hc Hrm.
  destruct (bound_classification cs t r _ Hs Hc (rm_class _ _ _ _ Hrm cs Hs)) as (b0&[= <-]&_&_&Henv).
  unfold check_basic. rewrite Hs. apply andb_prop in Hc as [-> _]. cbn [mbind result_bind].
  unfold assert_resolution_envelope in Henv. apply bind_Ok in Henv as ([]&Hb&_). done.
Qed.

Lemma later_item item : item_eqb (rr_queue_item r) item = true → assert_candidate_matches_bound b item = Ok tt →
  check_bound_item cs t item r = Ok tt.
Proof using Hs Hc Hrm.
  intros Hi Hb. unfold check_bound_item, bound_queue_of. rewrite Hc, Hs. cbn [mbind result_bind].
  rewrite <- (item_eqb_id _ _ Hi). destruct (bound_at_elim _ _ _ _ (rm_at _ _ _ _ Hrm)) as [-> _]. exact Hb.
Qed.

Lemma later_insert c : cn_tables c = t → store_completed cs r c = (Ok false, c).
Proof using Hs Hc Hrm.
  intros <-. destruct (rm_result _ _ _ _ Hrm) as (r'&row&Hcomp&Hrow&Hm&_).
  unfold store_completed, mbind, db_bind, examine. rewrite (Hcomp cs Hs). by apply (insert_result_known r' row).
Qed.

(** Whatever is accepted under the identifier of the result is the row that is
    stored. *)
Lemma later_same r' x c c' : cn_tables c = t → rr_result_id r' = rr_result_id r → store_completed cs r' c = (Ok x, c') →
  x = false ∧ c' = c ∧ writes_same_row cs t r r'.
Proof using Hs Hrm.
  intros <- Hid H. destruct (rm_result _ _ _ _ Hrm) as (s&row&Hcomp&Hrow&Hm&_). specialize (Hcomp cs Hs).
  pose proof Hrow as Hfind. apply find_mem in Hrow as [_ Hrid%String.eqb_eq].
  unfold store_completed in H. apply db_bind_inv in H as (s'&c1&H1&H). unfold examine in H1. injection H1 as Hcomp' <-.
  unfold insert_result in H. apply db_bind_inv in H as (o&c1&[= <- <-]&H).
  assert (Hsame : rr_result_id s' = rr_result_id s) by by rewrite (completed_id _ _ _ _ Hcomp), (completed_id _ _ _ _ Hcomp').
  rewrite Hsame, Hfind in H. apply db_bind_inv in H as (m&c1&Hm'&H). unfold lift in Hm'. injection Hm' as Hm' <-.
  destruct m; [|done]. injection H as <- <-. split_and!; [done|done|]. exists s, s', row.
  split_and!; [done|done|by apply match_values|]. apply match_values; [done|]. by rewrite Hsame.
Qed.

Lemma later_decision c : cn_tables c = t → insert_decision (rr_decision r) c = (Ok false, c).
Proof using Hs Hc Hrm. intros <-. destruct (rm_decision _ _ _ _ Hrm) as (dr&Hdr&Hm). by eapply insert_decision_known. Qed.

Context (Ho : all_in_order t).

Let ids : list string := canonical :: (app_txn_id <$> bq_app_transactions b).
(** What the corrections say of the transactions of the item. *)
Context (verdict : result unit).
Context (Hverdict : ∀ l, (∀ x, x ∈ l → x ∈ ids) → canonical ∈ l → refuse_corrected cs l = verdict).

Lemma later_guard : guard_successful_resolution cs t r = verdict.
Proof using Hs Hc Hrm Hverdict.
  destruct later_conforms as (e&He&Happ). destruct (bound_at_elim _ _ _ _ (rm_at _ _ _ _ Hrm)) as [_ Hcan].
  rewrite (guard_reduces cs t r b e canonical Hs Hc (rm_class _ _ _ _ Hrm cs Hs) He Hcan).
  rewrite bool_decide_false.
  - cbn [refuse raise_when mbind result_bind]. apply Hverdict; [|apply elem_of_app; right; by apply list_elem_of_singleton].
    by apply targets_known, Hrm.
  - unfold classification_targets. intros Hn. apply app_eq_nil in Hn as [_ Hn]. apply app_eq_nil in Hn as [_ Hn].
    unfold get in Hn. rewrite Happ in Hn. change (option_list (text_or_none canonical) = []) in Hn. unfold text_or_none in Hn.
    destruct (rm_at _ _ _ _ Hrm) as (row&_&_&_&Hne). by rewrite Hne in Hn.
Qed.

Lemma later_replay_guard : guard_successful_decision_replay cs t (rr_decision r) = verdict.
Proof using Hs Hc Hrm Ho Hverdict.
  destruct later_conforms as (e&He&_). pose proof Hc as [_ Hcl]%andb_prop.
  destruct (rm_result _ _ _ _ Hrm) as (r'&row&_&Hrow&_&H1&H2&H3). apply find_mem in Hrow as [Hrow _].
  destruct (rm_decision _ _ _ _ Hrm) as (dr&Hdr&Hm). destruct (rm_at _ _ _ _ Hrm) as (qrow&Hq&_).
  unfold guard_successful_decision_replay. rewrite Hcl, Hs. cbn [negb mbind result_bind].
  destruct (prior_success t (rd_decision_id (rr_decision r))) as [prior|] eqn:Ep.
  2:{ exfalso. unfold prior_success in Ep. apply list_elem_of_In in Hrow. pose proof (List.find_none _ _ Ep row Hrow) as Hn. cbn in Hn.
      rewrite H1, H2, H3, String.eqb_refl in Hn. cbn in Hn. unfold frozen_row in Hq.
      destruct (get_by_public_id (qt_queue t) _); [|done]. by rewrite bool_decide_true in Hn. }
  apply find_mem in Ep as [Hin Hp]. rewrite !andb_true_iff, String.eqb_eq, Z.eqb_eq in Hp. destruct Hp as ((Hpd&Hp1)&_).
  destruct (replay_reads t (rr_decision r) prior) as (b'&can'&Hat&Ht); [by apply Ho|done|done| |].
  { intros dr' Hdr'. by rewrite Hdr in Hdr'; injection Hdr' as <-. }
  assert (Hat' : bound_at t (rd_queue_item_id (rr_decision r)) b canonical) by by rewrite (cf_item _ _ _ He); apply Hrm.
  destruct (bound_at_unique _ _ _ _ _ _ Hat Hat') as [-> ->]. destruct (bound_at_elim _ _ _ _ Hat') as [Hload _].
  unfold bound_queue_of. rewrite Hs. cbn [mbind result_bind]. rewrite Hload. cbn [mbind result_bind]. rewrite Ht.
  apply Hverdict; unfold replay_ids, ids; destruct (bool_decide _); set_solver.
Qed.

Lemma persist_decision_again : persist_decision cs false (rr_decision r) (at_rest t) =
  match verdict with Ok _ => (Ok false, at_rest t) | Raise ex => (Raise ex, at_rest t) end.
Proof using Hs Hc Hrm Ho Hverdict.
  unfold persist_decision, owned_write, mbind, db_bind, examine. cbn [cn_tables at_rest].
  rewrite later_replay_guard. destruct verdict as [u|ex]; [|done]. by rewrite later_decision.
Qed.

Lemma persist_result_again : persist_result cs false r (at_rest t) =
  match verdict with Ok _ => (Ok false, at_rest t) | Raise ex => (Raise ex, at_rest t) end.
Proof using Hs Hc Hrm Hverdict.
  unfold persist_result, owned_write, mbind, db_bind, examine, lift, read. cbn [cn_tables at_rest].
  rewrite later_guard. destruct verdict as [u|ex]; [|done]. rewrite later_basic.
  destruct (rm_decision _ _ _ _ Hrm) as (dr&Hdr&Hm). rewrite Hdr, Hm. cbn [negb refuse raise_when]. by rewrite later_insert.
Qed.

Lemma persist_result_same tx r' x c' : rr_result_id r' = rr_result_id r →
  persist_result cs tx r' (at_rest t) = (Ok x, c') → x = false ∧ c' = at_rest t ∧ writes_same_row cs t r r'.
Proof using Hs Hrm.
  intros Hid (c1&H&->)%owned_write_Ok. apply db_bind_inv in H as ([]&c2&[= _ <-]&H). apply db_bind_inv in H as ([]&c2&[= _ <-]&H).
  apply db_bind_inv in H as (o&c2&[= <- <-]&H). apply db_bind_inv in H as ([]&c2&[= _ <-]&H).
  by destruct (later_same r' x (at_rest t) c1 eq_refl Hid H) as (->&->&?).
Qed.

Lemma apply_resolution_same tx item given now r' c' : rr_result_id r' = rr_result_id r →
  apply_resolution cs tx item (rr_decision r) given now (at_rest t) = (Ok r', c') →
  qt_decisions (cn_tables c') = qt_decisions t ∧ qt_results (cn_tables c') = qt_results t ∧ writes_same_row cs t r r'.
Proof using Hs Hc Hrm.
  intros Hid H. destruct (apply_steps _ _ _ _ _ _ _ _ _ H) as (_&_&_&_&_&_&b1&c1&b2&c2&c3&H1&H2&H3&->).
  rewrite later_decision in H1 by done. injection H1 as <- <-. destruct (later_same r' b2 (at_rest t) c2 eq_refl Hid H2) as (->&->&Hsame).
  unfold set_status, execute in H3. destruct (_ ≫= _ : result ResolutionTables) as [t1|] eqn:Et in H3; [|done].
  injection H3 as <-. apply bind_Ok in Et as (q&_&[= <-]). by split_and!.
Qed.

Lemma apply_again item now : item_eqb (rr_queue_item r) item = true → assert_candidate_matches_bound b item = Ok tt →
  ∀ q, update_status (qt_queue t) (qi_queue_item_id item) "resolved" = Ok q →
  apply_resolution cs false item (rr_decision r) (Some r) now (at_rest t) =
  match verdict with
  | Ok _ => (Ok r, at_rest (MkResTables q.1 (qt_decisions t) (qt_results t)))
  | Raise ex => (Raise ex, at_rest t)
  end.
Proof using Hs Hc Hrm Hverdict.
  intros Hi Hb q Eq. unfold apply_resolution. change (default _ (Some r)) with r.
  unfold owned_write, mbind, db_bind, examine, lift. cbn [cn_tables at_rest].
  rewrite bool_decide_true, Hi, (later_item _ Hi Hb), later_guard by done. cbn [negb orb refuse raise_when id].
  destruct verdict as [u|ex]; [|done]. rewrite later_basic, later_decision, later_insert by done.
  unfold set_status, execute. cbn [cn_tables at_rest].
  assert (Hst : outcome_status r (rr_decision r) = "resolved").
  { unfold outcome_status. apply andb_prop in Hc as [-> Ha]. unfold is_classification in Ha. apply bool_decide_eq_true in Ha.
    unfold CLASSIFICATION in Ha. repeat (apply elem_of_cons in Ha as [->|Ha]; [done|]). by apply elem_of_nil in Ha. }
  rewrite Hst, Eq. done.
Qed.
End Later.

(** ** What is stored, and what a repetition does *)

(** C32: Every stored success is in order.  With migration 051 applied, after
    any registrations, decisions, outcomes and resolutions, every stored
    successful outcome has its decision stored next to it, and if that decision
    classifies (a confirmed match or a duplicate), then the row of its queue
    item loads as the frozen source and names an app transaction, the stored
    evidence is an object that passes every check of a stored row against that
    source, and a duplicate has at least two distinct transactions, the named
    one among them. *)
Theorem stored_success_in_order t row :
  res_reachable bound_call bound_item t → row ∈ qt_results t → sr_success row = 1 → success_in_order t row.
Proof. intros H. destruct (history_in_order _ _ H new_in_order) as [_ Ho]. apply Ho. Qed.

(** C33: A classification is stored once, and its repetition changes nothing
    but a status.  After [apply_resolution] stored a successful classification,
    and after any further calls: submitting the decision, or the very result
    again, alone or with [apply_resolution], writes nothing but the status of
    its queue item while no transaction of the item is corrected, and raises
    and writes nothing once its app transaction is (the corrections being
    readable).  The status is the result's own, also when a later decision had
    set another one.  Under the identifier of the result nothing else is
    accepted: whatever result is submitted under it, alone or resolved anew at
    another time, either raises or writes the very row that is stored, the text
    of its evidence included, so that no table but the queue's status changes.
    ([resolved_later_refused] shows a result resolved anew, whose evidence
    carries the new time.) *)
Theorem stored_success_replays t cs tx item d given now r c t' cs' now' :
  res_reachable bound_call bound_item t → bound_call cs (Some (default (resolve item d now) given)) →
  apply_resolution cs tx item d given now (at_rest t) = (Ok r, c) → successful_classification r = true →
  rtc (res_step bound_call bound_item) (cn_committed c) t' → cs_schema cs' = Ok true →
  ∃ b canonical q, bound_at t' (qi_queue_item_id item) b canonical ∧
    update_status (qt_queue t') (qi_queue_item_id item) "resolved" = Ok q ∧
    let ids := canonical :: (app_txn_id <$> bq_app_transactions b) in
    ((∀ x, x ∈ ids → has_committed_correction cs' x = Ok false) →
      persist_decision cs' false d (at_rest t') = (Ok false, at_rest t') ∧
      persist_result cs' false r (at_rest t') = (Ok false, at_rest t') ∧
      apply_resolution cs' false item d (Some r) now' (at_rest t') =
        (Ok r, at_rest (MkResTables q.1 (qt_decisions t') (qt_results t')))) ∧
    (has_committed_correction cs' canonical = Ok true → (∀ x, x ∈ ids → is_ok (has_committed_correction cs' x) = true) →
      persist_decision cs' false d (at_rest t') = (Raise corrected, at_rest t') ∧
      persist_result cs' false r (at_rest t') = (Raise corrected, at_rest t') ∧
      apply_resolution cs' false item d (Some r) now' (at_rest t') = (Raise corrected, at_rest t')) ∧
    (∀ tx' r' x c', rr_result_id r' = rr_result_id r → persist_result cs' tx' r' (at_rest t') = (Ok x, c') →
      x = false ∧ c' = at_rest t' ∧ writes_same_row cs' t' r r') ∧
    (∀ tx' item' given' r' c', rr_result_id r' = rr_result_id r →
      apply_resolution cs' tx' item' d given' now' (at_rest t') = (Ok r', c') →
      qt_decisions (cn_tables c') = qt_decisions t' ∧ qt_results (cn_tables c') = qt_results t' ∧ writes_same_row cs' t' r r').
Proof.
  intros Hr Hu Ha Hc Hsteps Hs'. destruct (applied_remembered _ _ _ _ _ _ _ _ _ (proj1 Hu) Ha Hc) as (Hd&Hid&Hi&_&Hbi&E&b&can&Hrm).
  assert (Hcom : cn_committed c = cn_tables c).
  { destruct (apply_steps _ _ _ _ _ _ _ _ _ Ha) as (_&_&_&_&_&_&?&?&?&?&?&_&_&_&->). done. }
  assert (Hstep : res_step bound_call bound_item t (cn_committed c)).
  { apply (step_call _ _ _ _ cs tx (ApplyResolution item d given now) (Ok tt) c Hu); [|done].
    cbn [run_call]. unfold mbind, db_bind. by rewrite Ha. }
  assert (Ho : all_in_order t').
  { eapply history_in_order; [|exact new_in_order]. etrans; [exact Hr|]. by eapply rtc_l. }
  rewrite Hcom in Hsteps. destruct (steps_grow _ _ _ _ Hsteps) as [E' _].
  pose proof (remembered_later _ _ _ _ _ E' Hrm) as Hrm'.
  assert (Hmatch : assert_candidate_matches_bound b item = Ok tt).
  { unfold check_bound_item, bound_queue_of in Hbi. rewrite Hc, (proj1 Hu) in Hbi. cbn [mbind result_bind] in Hbi.
    rewrite <- Hid in Hbi. destruct (bound_at_elim _ _ _ _ (rm_at _ _ _ _ Hrm)) as [Hl _]. by rewrite Hl in Hbi. }
  subst d. destruct (status_resolved (qt_queue t') (qi_queue_item_id item)) as [q Hq]. exists b, can, q.
  rewrite <- Hid. split; [apply Hrm'|]. split; [by rewrite Hid|]. rewrite <- (item_eqb_id _ _ Hi) in Hq. split_and!.
  - intros Hun. assert (Hv : ∀ l, (∀ x, x ∈ l → x ∈ can :: (app_txn_id <$> bq_app_transactions b)) → can ∈ l → refuse_corrected cs' l = Ok tt).
    { intros l Hl _. apply refuse_uncorrected. auto. }
    rewrite (persist_decision_again cs' t' r b can Hs' Hc Hrm' Ho (Ok tt) Hv), (persist_result_again cs' t' r b can Hs' Hc Hrm' (Ok tt) Hv).
    rewrite (apply_again cs' t' r b can Hs' Hc Hrm' (Ok tt) Hv item now' Hi Hmatch q) by by rewrite <- Hid. done.
  - intros Hcorr Hall. assert (Hv : ∀ l, (∀ x, x ∈ l → x ∈ can :: (app_txn_id <$> bq_app_transactions b)) → can ∈ l →
      refuse_corrected cs' l = Raise corrected).
    { intros l Hl Hin. apply (refuse_one _ _ can); auto. }
    rewrite (persist_decision_again cs' t' r b can Hs' Hc Hrm' Ho _ Hv), (persist_result_again cs' t' r b can Hs' Hc Hrm' _ Hv).
    rewrite (apply_again cs' t' r b can Hs' Hc Hrm' _ Hv item now' Hi Hmatch q) by by rewrite <- Hid. done.
  - intros tx' r' x c'. by apply (persist_result_same cs' t' r b can Hs' Hrm').
  - intros tx' item' given' r' c'. by apply (apply_resolution_same cs' t' r b can Hs' Hc Hrm').
Qed.

(** ** Examples *)

Definition evidence_ascii (items : list ReviewQueueItem) : bool :=
  match items with
  | item :: _ => json_ok is_ascii (rr_audit_evidence (resolve item (sample_decision item) "2026-07-03T10:00:00+00:00"))
  | [] => false
  end.

Lemma sample_ascii : evidence_ascii sample_items = true.
Proof. vm_compute. exact eq_refl. Qed.

Definition confirmed_once (x : result ResolutionResult * Connection ResolutionTables) : bool :=
  match x.1, qt_results (cn_tables x.2) with
  | Ok r, [row] => successful_classification r && (sr_success row =? 1)
  | _, _ => false
  end.

Lemma sample_confirmed : confirmed_once (confirm_first sample_items no_corrections sample_tables) = true.
Proof. vm_compute. exact eq_refl. Qed.

(** A confirmation that succeeds, with what the theorems ask of it. *)
Lemma confirmed_call items t : evidence_ascii items = true → confirmed_once (confirm_first items no_corrections t) = true →
  res_reachable bound_call bound_item t →
  ∃ item r c row,
  apply_resolution no_corrections false item (sample_decision item) None "2026-07-03T10:00:00+00:00" (at_rest t) = (Ok r, c) ∧
  bound_call no_corrections (Some (resolve item (sample_decision item) "2026-07-03T10:00:00+00:00")) ∧
  successful_classification r = true ∧ qt_results (cn_tables c) = [row] ∧ sr_success row = 1 ∧
  cn_committed c = cn_tables c ∧ res_reachable bound_call bound_item (cn_tables c).
Proof.
  intros Ha Hk Hr. destruct items as [|item l]; [discriminate Ha|]. exists item. cbn [evidence_ascii confirm_first] in *.
  destruct (apply_resolution no_corrections false item (sample_decision item) None "2026-07-03T10:00:00+00:00" (at_rest t))
    as [[r|e] c] eqn:E; unfold confirmed_once in Hk; cbn [fst snd] in Hk; [|discriminate Hk].
  destruct (qt_results (cn_tables c)) as [|row [|]] eqn:Er; try discriminate Hk. apply andb_prop in Hk as [H1 H2%Z.eqb_eq].
  assert (Hb : bound_call no_corrections (Some (resolve item (sample_decision item) "2026-07-03T10:00:00+00:00"))) by (split; [reflexivity|exact Ha]).
  assert (Hc : cn_committed c = cn_tables c).
  { destruct (apply_steps _ _ _ _ _ _ _ _ _ E) as (_&_&_&_&_&_&b1&c1&b2&c2&c3&_&_&_&->). reflexivity. }
  exists r, c, row. split_and!; try assumption; try reflexivity. eapply rtc_r; [exact Hr|].
  apply (step_call _ _ _ _ no_corrections false (ApplyResolution item (sample_decision item) None "2026-07-03T10:00:00+00:00") (Ok tt) c Hb).
  - cbn [run_call]. unfold mbind, db_bind. rewrite E. reflexivity.
  - symmetry. exact Hc.
Qed.

Lemma sample_bound : res_reachable bound_call bound_item sample_tables.
Proof. apply sample_reachable; [split; [reflexivity|exact I]|exact example_storable]. Qed.

Lemma stored_success_in_order_witness : ∃ t row, qt_results t = [row] ∧ sr_success row = 1 ∧ success_in_order t row.
Proof.
  destruct (confirmed_call sample_items sample_tables sample_ascii sample_confirmed sample_bound)
    as (item&r&c&row&_&_&_&Hrow&H1&_&Hreach). exists (cn_tables c), row.
  split; [exact Hrow|]. split; [exact H1|]. apply (stored_success_in_order (cn_tables c) row Hreach); [|exact H1].
  rewrite Hrow. apply list_elem_of_singleton. reflexivity.
Defined.

(** The same database after the first app transaction was corrected. *)
Definition after_correction (canonical : string) : CorrectionState :=
  MkCorrections (Ok true) (λ _, Ok false) (Some [canonical]) [canonical].

Lemma stored_success_replays_witness : ∃ item r t' canonical,
  persist_decision no_corrections false (sample_decision item) (at_rest t') = (Ok false, at_rest t') ∧
  persist_result no_corrections false r (at_rest t') = (Ok false, at_rest t') ∧
  persist_decision (after_correction canonical) false (sample_decision item) (at_rest t') = (Raise corrected, at_rest t').
Proof.
  destruct (confirmed_call sample_items sample_tables sample_ascii sample_confirmed sample_bound)
    as (item&r&c&row&Ha&Hb&Hs&_&_&Hcom&_). pose proof sample_bound as Hreach. exists item, r, (cn_tables c).
  assert (Hrep : ∀ cs', cs_schema cs' = Ok true → _) by
    exact (λ cs' Hs', stored_success_replays sample_tables no_corrections false item (sample_decision item) None
      "2026-07-03T10:00:00+00:00" r c (cn_tables c) cs' "later" Hreach Hb Ha Hs
      ltac:(rewrite Hcom; apply rtc_refl) Hs').
  destruct (Hrep no_corrections eq_refl) as (b&can&q&Hat&_&Hun&_). exists can.
  destruct Hun as (H1&H2&_); [intros x _; reflexivity|]. split; [exact H1|]. split; [exact H2|].
  destruct (Hrep (after_correction can) eq_refl) as (b'&can'&q'&Hat'&_&_&Hco).
  destruct (bound_at_unique _ _ _ _ _ _ Hat Hat') as [-> ->].
  apply Hco.
  - unfold has_committed_correction. cbn. unfold str_in. rewrite bool_decide_true; [reflexivity|]. apply list_elem_of_singleton. reflexivity.
  - intros x _. unfold has_committed_correction. cbn. destruct (str_in x [can']); reflexivity.
Defined.

(** A duplicate the batch flagged because two statement rows claim one app
    transaction has that one transaction only; marking it succeeds in the
    runtime and is refused by the store. *)
Definition mark_first (cs : CorrectionState) : result ResolutionResult * bool :=
  match example_queue with
  | item :: _ =>
      let d := MkResolution "dec-2" (qi_queue_item_id item) ResolutionAction.MARK_DUPLICATE "" "human" None in
      let now := "2026-07-03T10:00:00+00:00" in
      ((apply_resolution cs false item d None now (at_rest sample_tables)).1, rr_success (resolve item d now))
  | [] => (raise IndexError "sample", false)
  end.

Example flagged_duplicate_refused :
  mark_first no_corrections = (raise ValueError "duplicate classification has incomplete app targets", true).
Proof. vm_compute. exact eq_refl. Qed.

(** The first item is confirmed, and confirmed again a day later without the
    result: the new result has another time in its evidence and is refused. *)
Definition confirm_later (items : list ReviewQueueItem) (t : ResolutionTables) : result ResolutionResult :=
  match items with
  | item :: _ =>
      (apply_resolution no_corrections false item (sample_decision item) None "2026-07-04T10:00:00+00:00"
        (confirm_first items no_corrections t).2).1
  | [] => raise IndexError "sample"
  end.

Example resolved_later_refused : confirm_later sample_items sample_tables =
  raise DuplicateResolutionPersistenceError "Conflicting resolution result public_id".
Proof. vm_compute. exact eq_refl. Qed.
