(* ===== verification/ApplyResultProps.v ===== *)
(** * Stored results of the apply runtime are final

    The histories of the reconciliation's tables, in which resolutions and
    results of the apply runtime are stored in any order; the table of results
    only grows, with one result per decision, a batch is all or nothing, and
    what is stored can be submitted again. *)

From Stdlib Require Import Ascii ZArith SpecFloat Lia.
From stdpp Require Import base sets strings sorting numbers list relations.
From S2P Require Import Prelude PyDecimal PyValue Hash Json JsonParse JsonRoundtrip PyDate PyDateTime PyFloat ReconModels ReconDecision ReconMatcher ReconBatch ReviewModels ReviewQueue ApplyRuntime BoundCodec Snapshot Resolution SourceBinding ReviewPersistence Integrity Sqlite ApplyProps CodecProps BindingProps IntegrityProps ResolutionStore ResolutionStoreProps ResolutionEvidence ResolutionReplay ApplyResultStore.

Open Scope Z_scope.

(** ** Growth *)

Definition identities_unique (rows : list AppliedRow) : Prop :=
  NoDup (sa_apply_id <$> rows) ∧ NoDup (sa_decision_id <$> rows).

(** Results are only appended, and leave the other tables alone. *)
Definition appends (t t' : ReconTables) : Prop :=
  db_resolution t' = db_resolution t ∧ db_applied t `prefix_of` db_applied t' ∧
  (identities_unique (db_applied t) → identities_unique (db_applied t')).

#[export] Instance appends_po : PreOrder appends.
Proof.
  split; [done|]. intros t1 t2 t3 (E1&P1&U1) (E2&P2&U2). split_and!; [congruence|by etrans|auto].
Qed.

Lemma find_none_keys {A} (key : A → string) l k : List.find (λ r, String.eqb (key r) k) l = None → k ∉ key <$> l.
Proof.
  intros H (r&->&Hr)%list_elem_of_fmap. apply list_elem_of_In in Hr. pose proof (List.find_none _ _ H r Hr) as Hx. cbn in Hx.
  by rewrite String.eqb_refl in Hx.
Qed.

Lemma appends_row row : relates appends (insert_applied_row row).
Proof.
  apply relates_execute; [apply _..|]. intros t t' ([]&H&[= <-])%bind_Ok.
  apply raise_when_Ok, orb_false_iff in H as [Ha%not_found Hd%not_found]. split_and!; [done|by eexists|].
  intros [Ua Ud]. split; cbn [db_applied]; rewrite fmap_app; (apply nodup_snoc; [done|]); by apply find_none_keys.
Qed.
#[export] Hint Resolve appends_row : relates.

Lemma appends_insert r : relates appends (insert_applied r).
Proof.
  unfold insert_applied. relate. destruct a0 as [row|]; relate. destruct (String.eqb _ _ && _); relate.
Qed.
#[export] Hint Resolve appends_insert : relates.
Lemma appends_guarded cs r : relates appends (save_guarded cs r).
Proof. unfold save_guarded. relate. Qed.
#[export] Hint Resolve appends_guarded : relates.
Lemma appends_each cs rs : ∀ n, relates appends (persist_each cs rs n).
Proof. induction rs as [|r rs IH]; intros n; cbn [persist_each]; relate. Qed.
#[export] Hint Resolve appends_each : relates.

(** ** What one result leaves *)

(** An insertion adds the row of its result, or finds its claim stored. *)
Lemma insert_applied_spec r c x c' : insert_applied r c = (Ok x, c') →
  ∃ values, applied_values r = Ok values ∧
    if x then cn_tables c' = MkRecon (db_resolution (cn_tables c)) (db_applied (cn_tables c) ++ [values])
    else c' = c ∧ ∃ row, existing_row (db_applied (cn_tables c)) r = Some row ∧ same_claim row values = true.
Proof.
  unfold insert_applied. intros H. apply db_bind_inv in H as (values&c1&Hv&H). unfold lift in Hv. injection Hv as Hv <-.
  exists values. split; [done|]. apply db_bind_inv in H as (o&c1&[= <- <-]&H).
  destruct (existing_row _ r) as [row|] eqn:E.
  - destruct (String.eqb (sa_fingerprint row) (sa_fingerprint values) && same_claim row values) eqn:Es; [|done].
    injection H as <- <-. split; [done|]. exists row. by apply andb_prop in Es as [_ ?].
  - apply db_bind_inv in H as ([]&c1&H&[= <- <-]). unfold insert_applied_row, execute in H.
    destruct (_ ≫= _ : result ReconTables) as [t'|] eqn:Et in H; [|done]. injection H as <-.
    by apply bind_Ok in Et as ([]&_&[= <-]).
Qed.

Lemma save_guarded_spec cs r c x c' : save_guarded cs r c = (Ok x, c') →
  guard_successful_apply cs (cn_tables c) r = Ok tt ∧ insert_applied r c = (Ok x, c').
Proof.
  unfold save_guarded. intros H. apply db_bind_inv in H as ([]&c1&H1&H). unfold examine in H1. by injection H1 as H1 <-.
Qed.

(** The count of a batch is the number of rows it added. *)
Lemma persist_each_count cs rs : ∀ n c m c', persist_each cs rs n c = (Ok m, c') →
  m - n = Z.of_nat (length (db_applied (cn_tables c'))) - Z.of_nat (length (db_applied (cn_tables c))).
Proof.
  induction rs as [|r rs IH]; intros n c m c'; cbn [persist_each]; [intros [= <- <-]; lia|]. intros H.
  apply db_bind_inv in H as (x&c1&H1&H). apply save_guarded_spec in H1 as [_ H1].
  destruct (insert_applied_spec _ _ _ _ H1) as (v&_&Hx). apply IH in H. destruct x.
  - rewrite Hx in H. cbn [db_applied] in H. rewrite length_app in H. cbn [length] in H. lia.
  - destruct Hx as [-> _]. lia.
Qed.

(** ** Calls and histories *)

Inductive save_call := SaveResult (r : ResolutionApplyResult) | PersistResults (rs : list ResolutionApplyResult).
Definition results_of (k : save_call) : list ResolutionApplyResult :=
  match k with SaveResult r => [r] | PersistResults rs => rs end.

(** A call, and the number it reports. *)
Definition run_save (cs : CorrectionState) (tx : bool) (k : save_call) : ReconDB Z :=
  match k with
  | SaveResult r => inserted ← save_apply_result cs tx r; mret (if inserted : bool then 1 else 0)
  | PersistResults rs => persist_apply_results cs tx rs
  end.

(** Both calls are one guarded loop in a transaction of its own. *)
Lemma run_save_each cs tx k c : run_save cs tx k c = owned_write tx (persist_each cs (results_of k) 0) c.
Proof.
  destruct k as [r|rs]; [|done]. cbn [run_save results_of persist_each]. unfold save_apply_result, owned_write, mbind, db_bind.
  destruct tx; [done|]. destruct (save_guarded cs r c) as [[[]|e] c1]; done.
Qed.

Lemma saved_spec cs tx k t x c : run_save cs tx k (at_rest t) = (x, c) →
  settled_conn c ∧ appends t (cn_tables c) ∧ (is_ok x = false → cn_tables c = t) ∧
  (∀ n, x = Ok n → n = Z.of_nat (length (db_applied (cn_tables c))) - Z.of_nat (length (db_applied t))).
Proof.
  rewrite run_save_each. intros H. destruct (owned_write_spec appends tx _ t x c (appends_each cs (results_of k) 0) H) as (Hs&Ha&Hn).
  split_and!; try done. intros n ->. unfold owned_write in H. destruct tx; [done|].
  destruct (persist_each cs (results_of k) 0 (at_rest t)) as [[m|e] c1] eqn:E; [|done]. injection H as -> <-.
  apply persist_each_count in E. cbn [cn_tables at_rest] in *. lia.
Qed.

Section Histories.
(** Which corrections the calls see, what is resolved, registered and saved. *)
Context (usual : CorrectionState → option ResolutionResult → Prop) (fit : ReviewQueueItem → Prop).
Context (savable : CorrectionState → ResolutionApplyResult → Prop).

Inductive recon_step (t t' : ReconTables) : Prop :=
  | recon_resolution q : res_step usual fit (db_resolution t) q → t' = MkRecon q (db_applied t) → recon_step t t'
  | recon_save cs tx k x c : usual cs None → Forall (savable cs) (results_of k) → run_save cs tx k (at_rest t) = (x, c) →
      t' = cn_committed c → recon_step t t'.
End Histories.

Definition new_recon : ReconTables := MkRecon new_tables [].

Definition any_result (cs : CorrectionState) (r : ResolutionApplyResult) : Prop := True.

(** What every step keeps. *)
Definition recon_grows (t t' : ReconTables) : Prop :=
  grows (db_resolution t) (db_resolution t') ∧ db_applied t `prefix_of` db_applied t' ∧
  (identities_unique (db_applied t) → identities_unique (db_applied t')).

#[export] Instance recon_grows_po : PreOrder recon_grows.
Proof.
  split; [done|]. intros t1 t2 t3 (E1&P1&U1) (E2&P2&U2). split_and!; [by etrans|by etrans|auto].
Qed.

Lemma recon_step_grows usual fit savable t t' : recon_step usual fit savable t t' → recon_grows t t'.
Proof.
  intros [q Hq ->|cs tx k x c _ _ H ->].
  - split_and!; cbn; [by eapply step_grows|done|done].
  - destruct (saved_spec _ _ _ _ _ _ H) as (Hs&(E&P&U)&_&_). rewrite <- Hs. split_and!; [by rewrite E|done|done].
Qed.

Lemma recon_steps_grow usual fit savable t t' : rtc (recon_step usual fit savable) t t' → recon_grows t t'.
Proof. induction 1 as [t|t t1 t' H _ IH]; [done|]. etrans; [by eapply recon_step_grows|done]. Qed.

Lemma new_unique : identities_unique [].
Proof. split; apply NoDup_nil_2. Qed.

(** C36: Stored results of the apply runtime are final, one per decision, and
    a batch is all or nothing.  Whatever resolutions and results are submitted,
    in whatever order, one by one or in batches, under whatever corrections:
    no two stored results share an identity or a decision; a stored result
    never changes and none is lost; saving results touches no other table; a
    call that raises leaves the database as it found it; and a call that
    returns reports exactly the number of rows it added. *)
Theorem applied_results_final t t' :
  rtc (recon_step any_call any_item any_result) new_recon t → rtc (recon_step any_call any_item any_result) t t' →
  identities_unique (db_applied t') ∧ db_applied t `prefix_of` db_applied t' ∧
  ∀ cs tx k x c, run_save cs tx k (at_rest t') = (x, c) →
    settled_conn c ∧ db_resolution (cn_tables c) = db_resolution t' ∧
    match x with
    | Ok n => ∃ new, db_applied (cn_tables c) = db_applied t' ++ new ∧ n = len new ∧ identities_unique (db_applied t' ++ new)
    | Raise _ => cn_tables c = t'
    end.
Proof.
  intros Hr H. destruct (recon_steps_grow _ _ _ _ _ Hr) as (_&_&U). specialize (U new_unique).
  destruct (recon_steps_grow _ _ _ _ _ H) as (_&P&U'). specialize (U' U). split_and!; [done|done|].
  intros cs tx k x c Hk. destruct (saved_spec _ _ _ _ _ _ Hk) as (Hs&(E&[new Hnew]&Un)&Hf&Hn). split_and!; [done|done|].
  destruct x as [n|e]; [|by apply Hf]. exists new. split; [done|]. rewrite <- Hnew. split; [|by apply Un].
  rewrite (Hn n eq_refl), Hnew, length_app. unfold len. lia.
Qed.

(** ** An example *)

(** What the runtime reports of the first of some items, confirmed. *)
Definition report_first (items : list ReviewQueueItem) : option ResolutionApplyResult :=
  match items with
  | item :: _ =>
      match build_apply_instruction item (sample_decision item) ["ev-1"] true with
      | Ok i => Some (first_result i "2026-07-03T10:00:00+00:00")
      | Raise _ => None
      end
  | [] => None
  end.

(** It is saved as a row of its own. *)
Definition saves_report (o : option ResolutionApplyResult) (ts : ResolutionTables) : bool :=
  match o with
  | Some r => match run_save no_corrections false (SaveResult r) (at_rest (MkRecon ts [])) with (Ok 1, _) => true | _ => false end
  | None => false
  end.

Lemma sample_saves : saves_report (report_first sample_items) sample_tables = true.
Proof. vm_compute. exact eq_refl. Qed.

Lemma saved_history usual fit (savable : CorrectionState → ResolutionApplyResult → Prop) r ts :
  saves_report (Some r) ts = true → usual no_corrections None → savable no_corrections r →
  ∃ c row, run_save no_corrections false (SaveResult r) (at_rest (MkRecon ts [])) = (Ok 1, c) ∧ applied_values r = Ok row ∧
    cn_committed c = MkRecon ts [row] ∧ recon_step usual fit savable (MkRecon ts []) (MkRecon ts [row]).
Proof.
  intros H Hu Hs. unfold saves_report in H. destruct (run_save _ _ _ _) as [[n|e] c] eqn:E; [|done].
  assert (n = 1) as -> by (cbn in H; destruct n as [|[]|]; first [reflexivity|discriminate H]).
  assert (Hc : ∃ row, applied_values r = Ok row ∧ cn_committed c = MkRecon ts [row]).
  { destruct (saved_spec _ _ _ _ _ _ E) as (Hset&_). rewrite <- Hset. rewrite run_save_each in E. unfold owned_write in E. cbn [results_of] in E.
    destruct (persist_each no_corrections [r] 0 (at_rest (MkRecon ts []))) as [[m|ex] c1] eqn:E1; [|done]. injection E as -> <-.
    cbn [persist_each] in E1. apply db_bind_inv in E1 as (x&c2&H1&H2). injection H2 as H2 <-. destruct x; [|done].
    apply save_guarded_spec in H1 as [_ H1]. destruct (insert_applied_spec _ _ _ _ H1) as (row&Hrow&Hx). by exists row. }
  destruct Hc as (row&Hrow&Hc). exists c, row. split_and!; [done|done|done|].
  by apply (recon_save usual fit savable _ _ no_corrections false (SaveResult r) (Ok 1) c Hu); [constructor; [done|constructor]| |].
Qed.

(** The tables of a resolution history are those of a reconciliation. *)
Lemma resolved_history usual fit savable ts :
  res_reachable usual fit ts → rtc (recon_step usual fit savable) new_recon (MkRecon ts []).
Proof.
  unfold res_reachable, new_recon. generalize new_tables. induction 1 as [ts|ts t1 t2 H _ IH]; [constructor|].
  eapply rtc_l; [|exact IH]. by eapply recon_resolution.
Qed.

Lemma applied_results_final_witness : ∃ t t' row, t = MkRecon sample_tables [] ∧
  rtc (recon_step any_call any_item any_result) t t' ∧ db_applied t' = [row] ∧ identities_unique (db_applied t').
Proof.
  assert (Hr : rtc (recon_step any_call any_item any_result) new_recon (MkRecon sample_tables [])).
  { apply resolved_history, sample_reachable; [exact I|]. apply Forall_forall. intros i _. exact I. }
  pose proof sample_saves as Hs. revert Hr Hs. generalize sample_tables, (report_first sample_items). intros ts o Hr Hs.
  destruct o as [r|]; [|discriminate Hs].
  destruct (saved_history any_call any_item any_result r ts Hs I I) as (c&row&_&_&_&Hstep).
  destruct (applied_results_final _ _ Hr (rtc_once _ _ Hstep)) as (Hu&_&_).
  exists (MkRecon ts []), (MkRecon ts [row]), row. split; [reflexivity|]. split; [apply rtc_once; exact Hstep|].
  split; [reflexivity|exact Hu].
Defined.
