(* ===== verification/CorrectionProps.v ===== *)
(** * Corrections and classifications exclude each other

    The stores refuse to classify a transaction that was corrected, and the
    eligibility check refuses to correct one that a stored success classifies.
    Neither side knows the other's tables; together they keep the two sets of
    transactions disjoint, whatever the order of the calls. *)

From Stdlib Require Import Ascii ZArith SpecFloat Lia.
From stdpp Require Import base sets strings sorting numbers list relations.
From S2P Require Import Prelude PyDecimal PyValue Hash Json JsonParse JsonRoundtrip PyDate PyDateTime PyFloat ReconModels ReconDecision ReconMatcher ReconBatch ReviewModels ReviewQueue ApplyRuntime BoundCodec Snapshot Resolution SourceBinding ReviewPersistence Integrity Sqlite AuditChain ApplyProps CodecProps BindingProps IntegrityProps ExecStore ResolutionStore ResolutionStoreProps ResolutionEvidence ResolutionReplay ApplyResultStore ApplyResultProps Relationships Eligibility.

Open Scope Z_scope.

(** ** What a classification names *)

Definition named_ids (action : ResolutionAction.t) (b : BoundQueue) (canonical : string) : list string :=
  canonical :: if bool_decide (action = ResolutionAction.MARK_DUPLICATE) then app_txn_id <$> bq_app_transactions b else [].

(** A stored success classifies the app transactions of a queue item. *)
Definition resolved_as (t : ResolutionTables) (queue_id : string) (action : ResolutionAction.t) : Prop :=
  ∃ row dr, row ∈ qt_results t ∧ sr_success row = 1 ∧ sr_review_queue_public_id row = queue_id ∧
    get_decision_by_public_id t (sr_decision_public_id row) = Some dr ∧ dr_decision_action dr = ResolutionAction.value action.
Definition applied_as (t : ReconTables) (queue_id : string) (action : ResolutionAction.t) : Prop :=
  ∃ row, row ∈ db_applied t ∧ sa_success row = 1 ∧ sa_queue_item_id row = queue_id ∧
    sa_action row = ResolutionAction.value action.
Definition classified_as (t : ReconTables) (queue_id : string) (action : ResolutionAction.t) : Prop :=
  is_classification action = true ∧ (resolved_as (db_resolution t) queue_id action ∨ applied_as t queue_id action).

(** The transaction is one a stored success classifies. *)
Definition classified (t : ReconTables) (x : string) : Prop :=
  ∃ queue_id action b canonical, classified_as t queue_id action ∧ bound_at (db_resolution t) queue_id b canonical ∧
    x ∈ named_ids action b canonical.

Definition corrected_in (cs : CorrectionState) (x : string) : Prop := has_committed_correction cs x = Ok true.

(** A classification whose queue item is bound and whose transactions are all
    uncorrected. *)
Definition clean (cs : CorrectionState) (t : ResolutionTables) (queue_id : string) (action : ResolutionAction.t) : Prop :=
  ∃ b canonical, bound_at t queue_id b canonical ∧ ∀ x, x ∈ named_ids action b canonical → ¬ corrected_in cs x.

Lemma clean_stable cs t t' queue_id action : extends t t' → clean cs t queue_id action → clean cs t' queue_id action.
Proof. intros E (b&can&Hb&H). exists b, can. split; [by eapply bound_at_stable|done]. Qed.

Lemma classification_cases action : is_classification action = true →
  action = ResolutionAction.CONFIRM_MATCH ∨ action = ResolutionAction.MARK_DUPLICATE.
Proof. destruct action; cbn; auto; by vm_compute. Qed.

(** ** Writing *)

Lemma catch_Ok {A} (m : result A) d (h : exn → result A) a : (∀ e, h e = Ok a → m = Ok a) → catch m d h = Ok a → m = Ok a.
Proof. unfold catch. destruct m as [x|e]; [done|]. intros H. destruct (exn_isinstance _ _); [by intros Hh%H|done]. Qed.


Lemma any_none cs l : any_committed cs l = Ok false → ∀ x, x ∈ l → has_committed_correction cs x = Ok false.
Proof.
  induction l as [|y l IH]; cbn [any_committed]; [by intros _ x ?%elem_of_nil|]. intros (b&Hb&H)%bind_Ok x.
  destruct b; [done|]. intros [->|Hx]%elem_of_cons; [done|auto].
Qed.

Lemma refused_none cs l x : refuse_corrected cs l = Ok tt → x ∈ l → ¬ corrected_in cs x.
Proof.
  unfold refuse_corrected, corrected_in. intros (b&Hb&H)%bind_Ok Hx. apply raise_when_Ok in H as ->.
  rewrite (any_none _ _ Hb x); [done|]. by apply sorted_set_mem.
Qed.

(** A resolution the guard lets through. *)
Lemma guarded_resolution cs t r : cs_schema cs = Ok true → guard_successful_resolution cs t r = Ok tt →
  successful_classification r = true → clean cs t (qi_queue_item_id (rr_queue_item r)) (rd_action (rr_decision r)).
Proof.
  intros Hs H Hc. unfold guard_successful_resolution in H. rewrite Hc in H. cbn [negb] in H.
  apply bind_Ok in H as (x&Hx&H). destruct (bound_classification _ _ _ _ Hs Hc Hx) as (b&->&Hload&_&_).
  apply bind_Ok in H as (e&_&H). apply bind_Ok in H as ([]&_&H). destruct (canonical_app_ref _ _) as [can|] eqn:Ecan; [|done].
  exists b, can. split; [by apply bound_at_intro|]. intros x Hx'. apply (refused_none _ _ _ H).
  unfold named_ids in Hx'. apply elem_of_cons in Hx' as [->|Hx']; [set_solver|]. apply elem_of_app. left.
  unfold classification_targets. apply elem_of_app. right. apply elem_of_app. left.
  destruct (bool_decide _); [done|by apply elem_of_nil in Hx'].
Qed.

(** The transactions of a bound result. *)
Lemma bound_queue_at t id b : load_bound_queue true (qt_queue t) id = Ok (Some b) →
  ∀ canonical, bq_app_transaction_ref b = Some canonical → str_empty canonical = false → bound_at t id b canonical.
Proof.
  intros (row&Hf&Hl)%load_bound_frozen can Hcan Hne. exists row. split_and!; try done.
  destruct (loaded_row_facts _ _ Hl) as (_&Hrep&_&Hb&_). destruct Hrep as (_&_&_&_&_&_&Ha&_). rewrite Ha.
  rewrite Hb in Hcan. done.
Qed.

Lemma nonempty_text_Some v s : nonempty_text v = Some s → v = JStr s ∧ str_empty s = false.
Proof. unfold nonempty_text, text_or_none. destruct v; try done. destruct (str_empty _) eqn:E; [done|]. by intros [= ->]. Qed.

Lemma duplicate_ids_Some v ids : duplicate_ids v = Some ids →
  v = JList (JStr <$> ids) ∧ Forall (λ x, str_empty x = false) ids ∧ (2 <= length ids)%nat ∧ has_duplicates ids = false.
Proof.
  unfold duplicate_ids. destruct v as [| | | | |l|]; try done. destruct (mapM nonempty_text l) as [k|] eqn:E; [|done].
  destruct (_ || _) eqn:Ec; [done|]. intros [= ->]. apply orb_false_iff in Ec as [H2%Nat.ltb_ge H3].
  apply mapM_Some in E. assert (l = JStr <$> ids ∧ Forall (λ x, str_empty x = false) ids) as [-> Hf]; [|done].
  clear H2 H3. induction E as [|v s l k Hv _ [-> IH]]; [done|]. apply nonempty_text_Some in Hv as [-> Hs]. split; [done|by constructor].
Qed.

Lemma schema_bound cs t id x : cs_schema cs = Ok true → bound_queue_of cs t id = Ok x →
  ∃ b, x = Some b ∧ load_bound_queue true (qt_queue t) id = Ok (Some b).
Proof.
  unfold bound_queue_of. intros Hs H. rewrite Hs in H. cbn [mbind result_bind] in H.
  destruct x as [b|]; [by exists b|]. exfalso. unfold load_bound_queue in H. cbn [negb] in H.
  destruct (get_by_public_id _ _) as [s|]; [|done]. cbn in H. by destruct (load_bound_row (si_row s)).
Qed.

(** What the payload of a classification says. *)
Definition payload_says (action : ResolutionAction.t) (p : list (string * json)) (b : BoundQueue) (can : string) : Prop :=
  match action with
  | ResolutionAction.CONFIRM_MATCH => get p "app_txn_id" = JStr can ∧ get p "action_type" = JStr "confirm_match"
  | ResolutionAction.MARK_DUPLICATE =>
      get p "duplicate_app_txn_ids" = JList (JStr <$> (app_txn_id <$> bq_app_transactions b)) ∧
      get p "kept_app_txn_id" = JStr can ∧ get p "action_type" = JStr "mark_duplicate" ∧
      get p "audit_only" = JBool true ∧ enough_duplicates (app_txn_id <$> bq_app_transactions b) can
  | _ => False
  end.

Lemma or_conflict_Ok rows r m : or_conflict rows r m = Ok tt → m = Ok tt.
Proof.
  unfold or_conflict. apply catch_Ok. intros ex. destruct (identity_taken rows r); [|done]. unfold reject_source_identity.
  intros H. apply bind_Ok in H as ([]&_&H). by apply bind_Ok in H as ([]&_&H).
Qed.

Lemma string_list_inj (l k : list string) : JList (JStr <$> l) = JList (JStr <$> k) → l = k.
Proof. intros [= H]. by apply (list_fmap_eq_inj JStr) in H; [|intros x y [= ->]]. Qed.

(** The targets of a bound classification, and what its payload says. *)
Lemma targets_say r b p ts rows : is_classification (ar_action r) = true →
  (if bool_decide (ar_action r = ResolutionAction.CONFIRM_MATCH) then match_targets r p else duplicate_targets r p) = Ok ts →
  check_bound_result rows r b p = Ok tt →
  ∃ can, bq_app_transaction_ref b = Some can ∧ str_empty can = false ∧ can ∈ ts ∧ payload_says (ar_action r) p b can.
Proof.
  intros Hcl Ht Hb. unfold check_bound_result in Hb. apply bind_Ok in Hb as ([]&_&Hb).
  apply bind_Ok in Hb as (e&_&Hb). apply bind_Ok in Hb as ([]&_&Hb).
  destruct (classification_cases _ Hcl) as [Ha|Ha]; rewrite Ha in *.
  - change (bool_decide _) with true in Ht. change (bool_decide (ResolutionAction.CONFIRM_MATCH = ResolutionAction.MARK_DUPLICATE)) with false in Hb.
    cbn iota in Ht, Hb. unfold match_targets in Ht. destruct (nonempty_text (get p "app_txn_id")) as [can|] eqn:E; [|done].
    apply nonempty_text_Some in E as [E Hne]. apply bind_Ok in Ht as ([]&Hk&[= <-]).
    apply raise_when_Ok, orb_false_iff in Hk as [Hk _]. apply differs_plain in Hk; [|done]. apply raise_when_Ok in Hb.
    apply differs_plain in Hb; [|apply text_plain]. rewrite E in Hb. exists can.
    destruct (bq_app_transaction_ref b); [|done]. injection Hb as <-. split_and!; [done..|by left|by split].
  - change (bool_decide _) with false in Ht. change (bool_decide (ResolutionAction.MARK_DUPLICATE = ResolutionAction.MARK_DUPLICATE)) with true in Hb.
    cbn iota in Ht, Hb. unfold duplicate_targets in Ht. destruct (duplicate_ids _) as [ids|] eqn:E; [|done].
    apply duplicate_ids_Some in E as (Ei&Hne&H2&H3). destruct (get p "kept_app_txn_id") as [| | | |kept| |] eqn:Ek; try done.
    apply bind_Ok in Ht as ([]&Hk&[= <-]). apply raise_when_Ok in Hk. rewrite !orb_false_iff, !negb_false_iff in Hk.
    destruct Hk as (((Hk&Hty)&Haud)&_). apply differs_plain in Hty; [|done].
    apply raise_when_Ok, orb_false_iff in Hb as [Hids Hb]. apply differs_plain in Hb; [|apply text_plain]. rewrite Ek in Hb.
    apply differs_plain in Hids; [|rewrite <- list_fmap_compose; apply plain_strs]. rewrite Ei in Hids. apply string_list_inj in Hids as ->.
    exists kept. destruct (bq_app_transaction_ref b); [|done]. injection Hb as <-.
    pose proof Hk as Hin. unfold str_in in Hin. apply bool_decide_eq_true in Hin. rewrite Forall_forall in Hne.
    split_and!; [done|by apply Hne|set_solver|]. cbn [payload_says]. split_and!; try done.
    by destruct (get p "audit_only") as [|[]| | | | |].
Qed.

(** A result of the apply runtime the guard lets through. *)
Lemma guard_apply_facts cs t r : cs_schema cs = Ok true → guard_successful_apply cs t r = Ok tt →
  applied_classification r = true →
  ∃ b can p, bound_at (db_resolution t) (ar_queue_item_id r) b can ∧ assert_apply_envelope r b = Ok tt ∧
    ar_payload r = JDict p ∧ payload_says (ar_action r) p b can ∧
    ∀ x, x ∈ can :: (app_txn_id <$> bq_app_transactions b) → ¬ corrected_in cs x.
Proof.
  intros Hs H Hc. unfold guard_successful_apply in H. rewrite Hc in H. cbn [negb] in H.
  apply bind_Ok in H as ([]&_&H). apply bind_Ok in H as (x&Hx&H).
  destruct (schema_bound _ _ _ _ Hs Hx) as (b&->&Hload). apply bind_Ok in H as ([]&Henv&H). apply or_conflict_Ok in Henv.
  apply bind_Ok in H as (p&Hp&H). apply bind_Ok in H as (ts&Ht&H). apply bind_Ok in H as ([]&Hb&H).
  apply andb_prop in Hc as [_ Hcl]. destruct (targets_say _ _ _ _ _ Hcl Ht Hb) as (can&Href&Hne&Hin&Hsay).
  exists b, can, p. split_and!; [by apply bound_queue_at|done|by unfold payload_members in Hp; destruct (ar_payload r); try done; injection Hp as ->|done|].
  intros x0 Hx0. apply (refused_none _ _ _ H). apply elem_of_cons in Hx0 as [->|Hx0]; [set_solver|].
  apply elem_of_app. right. apply elem_of_app. by left.
Qed.

Lemma guarded_apply cs t r : cs_schema cs = Ok true → guard_successful_apply cs t r = Ok tt →
  applied_classification r = true → clean cs (db_resolution t) (ar_queue_item_id r) (ar_action r).
Proof.
  intros Hs H Hc. destruct (guard_apply_facts _ _ _ Hs H Hc) as (b&can&p&Hb&_&_&_&Hx). exists b, can. split; [done|].
  intros x Hn. apply Hx. unfold named_ids in Hn. destruct (bool_decide _); [done|set_solver].
Qed.

(** ** Reading *)

Lemma unknown_when_Ok c l u : unknown_when c l = Ok u ↔ c = false.
Proof. unfold unknown_when. destruct c, u; split; done. Qed.
Lemma active_when_Ok c l u : active_when c l = Ok u ↔ c = false.
Proof. unfold active_when. destruct c, u; split; done. Qed.

Lemma or_unknown_Ok {A} l (m : result A) a : or_unknown l m = Ok a ↔ m = Ok a.
Proof.
  split; [|by intros ->]. unfold or_unknown. intros H. apply catch_Ok in H; [|done]. by apply catch_Ok in H.
Qed.

Lemma schema_for_Ok cs l : cs_schema cs = Ok true → schema_for cs l = Ok true.
Proof. unfold schema_for. by intros ->. Qed.

(** Every stored success is looked at. *)
Lemma every_success {A} (key : A → string) (success : A → bool) (f : A → result unit) rows row u :
  forM_ (isort (λ a b, String.leb (key a) (key b)) (keep success rows)) f = Ok u → row ∈ rows → success row = true →
  f row = Ok tt.
Proof.
  intros H%forM_Ok Hrow Hs. rewrite Forall_forall in H. apply H. rewrite isort_perm.
  apply list_elem_of_In, List.filter_In. by rewrite <- list_elem_of_In.
Qed.

Lemma bound_at_queue cs t id b canonical : cs_schema cs = Ok true → bound_at t id b canonical →
  bound_queue_of cs t id = Ok (Some b) ∧ bq_app_transaction_ref b = Some canonical.
Proof.
  intros Hs Hb. destruct (bound_at_elim _ _ _ _ Hb) as [Hl _]. destruct (bound_facts _ _ _ _ Hb) as (_&_&Hr&_).
  unfold bound_queue_of. by rewrite Hs.
Qed.

Lemma queue_ref_at t id b canonical : bound_at t id b canonical →
  (get_by_public_id (qt_queue t) id ≫= λ s, row_app_transaction_ref (si_row s)) = Some canonical.
Proof.
  intros (row&Hf&_&Hr&_). unfold frozen_row in Hf. destruct (get_by_public_id _ _) as [s|]; [|done]. by injection Hf as <-.
Qed.

Lemma eligible_resolutions cs t x queue_id action b canonical : cs_schema cs = Ok true →
  resolution_relationships cs t x = Ok tt → is_classification action = true → resolved_as t queue_id action →
  bound_at t queue_id b canonical → x ∉ named_ids action b canonical.
Proof.
  intros Hs H Hc (row&dr&Hrow&Hone&<-&Hd&Ha) Hb. unfold resolution_relationships in H. rewrite schema_for_Ok in H by done.
  cbn [mbind result_bind] in H. apply (every_success _ _ _ _ row) in H; [|done|by apply Z.eqb_eq].
  destruct (bound_at_queue _ _ _ _ _ Hs Hb) as [Hq Href]. pose proof (queue_ref_at _ _ _ _ Hb) as Hr.
  unfold resolution_relationship in H. rewrite Hd, Hr in H. cbn [fmap option_fmap option_map] in H. rewrite Ha in H.
  apply bind_Ok in H as (ev&_&H). apply bind_Ok in H as ([]&_&H). apply bind_Ok in H as ([]&_&H).
  destruct (classification_cases _ Hc) as [->| ->]; cbn [ResolutionAction.value] in H.
  - change (String.eqb "confirm_match" "mark_duplicate") with false in H. rewrite String.eqb_refl in H. cbn iota in H.
    unfold resolved_match in H. apply bind_Ok in H as ([]&_&H). apply bind_Ok in H as (bo&Hbo&H). apply bind_Ok in H as ([]&_&H).
    apply active_when_Ok, String.eqb_neq in H. unfold named_ids. change (bool_decide _) with false. by rewrite list_elem_of_singleton.
  - rewrite String.eqb_refl in H. cbn iota in H. unfold resolved_duplicate in H.
    destruct (duplicate_ids _) as [ids|]; [|done]. destruct (get ev "kept_app_txn_id") as [| | | |kept| |]; try done.
    apply bind_Ok in H as ([]&Hk&H). apply bind_Ok in H as (bo&Hbo&H). apply or_unknown_Ok in Hbo. rewrite Hq in Hbo. injection Hbo as <-.
    apply bind_Ok in H as ([]&Hx&H). apply active_when_Ok in H. apply unknown_when_Ok, orb_false_iff in Hx as [_ Hx%negb_false_iff%bool_decide_eq_true].
    apply unknown_when_Ok in Hk. rewrite !orb_false_iff, !negb_false_iff in Hk. destruct Hk as (((((Hk&_)&_)&_)&_)&Hkc).
    apply bool_decide_eq_true in Hkc. injection Hkc as <-. unfold str_in in *. apply bool_decide_eq_true in Hk. apply bool_decide_eq_false in H.
    unfold named_ids. change (bool_decide _) with true. cbn iota. rewrite <- Hx. by intros [->|?]%elem_of_cons.
Qed.

Lemma claim_bound_Ok cs t c x b : bound_queue_of cs t (sa_queue_item_id (cl_row c)) = Ok (Some b) →
  claim_bound cs t true c = Ok x → x = Some b.
Proof.
  unfold claim_bound. intros Hb ([]&_&H)%bind_Ok. apply or_unknown_Ok in H. congruence.
Qed.

Lemma eligible_applied cs t x queue_id action b canonical : cs_schema cs = Ok true →
  apply_relationships cs t x = Ok tt → is_classification action = true → applied_as t queue_id action →
  bound_at (db_resolution t) queue_id b canonical → x ∉ named_ids action b canonical.
Proof.
  intros Hs H Hc (row&Hrow&Hone&<-&Ha) Hb. unfold apply_relationships in H. rewrite schema_for_Ok in H by done.
  cbn [mbind result_bind] in H. apply (every_success _ _ _ _ row) in H; [|done|by apply Z.eqb_eq].
  destruct (bound_at_queue _ _ _ _ _ Hs Hb) as [Hq Href]. unfold apply_relationship in H.
  apply bind_Ok in H as (c&Hread&H).
  assert (Hrowc : cl_row c = row).
  { unfold read_claim in Hread. repeat (apply bind_Ok in Hread as (?&_&Hread)). by injection Hread as <-. }
  rewrite <- Hrowc in Hq, Ha. destruct (duplicate_claim c) eqn:Ed.
  - unfold claimed_duplicate in H. destruct (duplicate_ids _) as [ids|]; [|done].
    destruct (get (cl_payload c) "kept_app_txn_id") as [| | | |kept| |]; try done.
    apply bind_Ok in H as ([]&_&H). apply bind_Ok in H as (bo&Hbo&H). apply (claim_bound_Ok _ _ _ _ _ Hq) in Hbo as ->.
    apply bind_Ok in H as ([]&Hx&H). apply unknown_when_Ok in Hx. rewrite !orb_false_iff, !negb_false_iff, !bool_decide_eq_true in Hx.
    destruct Hx as ((Hcl&Hids)&Hkept). unfold claim_differs_from in Hcl. rewrite !orb_false_iff, !negb_false_iff, String.eqb_eq in Hcl.
    destruct Hcl as ((((((((Hact&_)&_)&_)&_)&_)&_)&_)&_). assert (action = ResolutionAction.MARK_DUPLICATE) as -> by (apply enum_action; congruence).
    destruct (negb (str_in x _)) eqn:Ein; [|by apply bind_Ok in H as ([]&_&H)].
    apply negb_true_iff in Ein. unfold str_in in Ein. apply bool_decide_eq_false in Ein. unfold named_ids.
    change (bool_decide _) with true. cbn iota. rewrite <- Hids. rewrite Href in Hkept. injection Hkept as <-.
    intros [->|Hx]%elem_of_cons; apply Ein, elem_of_app; [right; by left|by left].
  - destruct (classification_cases _ Hc) as [->| ->]; [|by unfold duplicate_claim in Ed; rewrite Ha in Ed].
    assert (Em : match_claim c = true) by by unfold match_claim; rewrite Ha. rewrite Em in H. unfold claimed_match in H.
    destruct (nonempty_text _) as [can|]; [|done]. apply bind_Ok in H as (bo&Hbo&H). apply (claim_bound_Ok _ _ _ _ _ Hq) in Hbo as ->.
    apply bind_Ok in H as ([]&Hx&H). apply unknown_when_Ok, orb_false_iff in Hx as [_ Hx%negb_false_iff%bool_decide_eq_true].
    rewrite Href in Hx. injection Hx as ->. destruct (negb (_ || _)) eqn:Ein; [|by apply bind_Ok in H as ([]&_&H)].
    apply negb_true_iff in Ein. rewrite !orb_false_iff, String.eqb_neq in Ein. destruct Ein as ((Hne&_)&_).
    unfold named_ids. change (bool_decide _) with false. by rewrite list_elem_of_singleton.
Qed.

(** No transaction a stored success classifies is eligible. *)
Lemma eligible_unclassified nfc cs t source : cs_schema cs = Ok true →
  assert_correction_eligible nfc cs t source = Ok tt → ¬ classified (lt_recon t) (rs_target_id source).
Proof.
  intros Hs H (queue_id&action&b&can&[Hc Hcl]&Hb&Hx). unfold assert_correction_eligible in H.
  apply bind_Ok in H as (id&_&H). apply bind_Ok in H as ([]&_&H). apply bind_Ok in H as ([]&Hr&H). apply bind_Ok in H as ([]&Ha&_).
  revert Hx. destruct Hcl as [Hcl|Hcl]; [by eapply eligible_resolutions|by eapply eligible_applied].
Qed.

(** ** The invariant *)

Definition clean_resolved (cs : CorrectionState) (t : ResolutionTables) : Prop :=
  ∀ queue_id action, is_classification action = true → resolved_as t queue_id action → clean cs t queue_id action.
Definition clean_applied (cs : CorrectionState) (t : ReconTables) : Prop :=
  ∀ queue_id action, is_classification action = true → applied_as t queue_id action →
    clean cs (db_resolution t) queue_id action.

Lemma clean_queue cs t t' queue_id action : qt_queue t' = qt_queue t → clean cs t queue_id action → clean cs t' queue_id action.
Proof. intros E (b&can&(row&Hf&H)&Hx). exists b, can. split; [|done]. exists row. by rewrite E. Qed.

(** New rows are clean, and the old ones stay so. *)
Lemma clean_extends cs t t' : extends t t' → consistent t → clean_resolved cs t →
  (∀ row dr action, row ∈ qt_results t' → row ∉ qt_results t → sr_success row = 1 →
    get_decision_by_public_id t' (sr_decision_public_id row) = Some dr → dr_decision_action dr = ResolutionAction.value action →
    is_classification action = true → clean cs t' (sr_review_queue_public_id row) action) →
  clean_resolved cs t'.
Proof.
  intros E Hc Hold Hnew q a Ha (row&dr&Hrow&Hone&<-&Hd&Hact). destruct (decide (row ∈ qt_results t)) as [Hin|Hin]; [|by eapply Hnew].
  apply (clean_stable _ t); [done|]. apply Hold; [done|]. destruct (ok_result_decision _ Hc row Hin) as [dr' Hd'].
  pose proof (decision_stable _ _ _ _ E Hd') as Hs. rewrite Hd in Hs. injection Hs as <-. by exists row, dr.
Qed.

Lemma clean_unchanged cs t t' : extends t t' → consistent t → qt_results t' = qt_results t → clean_resolved cs t →
  clean_resolved cs t'.
Proof. intros E Hc Hr H. apply (clean_extends _ t); try done. rewrite Hr. by intros. Qed.

(** What is stored of a guarded resolution. *)
Lemma completed_row cs t r r' row : complete_success_evidence cs t r = Ok r' → result_values r' = Ok row →
  sr_success row = (if rr_success r then 1 else 0) ∧ sr_decision_public_id row = rd_decision_id (rr_decision r) ∧
  sr_review_queue_public_id row = qi_queue_item_id (rr_queue_item r).
Proof.
  intros Hc Hv. unfold result_values in Hv. apply bind_Ok in Hv as (j&_&[= <-]). cbn [sr_success sr_decision_public_id sr_review_queue_public_id].
  destruct (successful_classification r) eqn:E.
  - destruct (completed_fields _ _ _ _ Hc E) as (Hs&Hd&Hi&_). rewrite Hs, Hd, Hi. by apply andb_prop in E as [-> _].
  - unfold complete_success_evidence in Hc. rewrite E in Hc. by injection Hc as <-.
Qed.

Lemma store_completed_clean cs t r c x c' dr : cs_schema cs = Ok true → qt_queue (cn_tables c) = qt_queue t →
  guard_successful_resolution cs t r = Ok tt →
  get_decision_by_public_id (cn_tables c) (rd_decision_id (rr_decision r)) = Some dr →
  decision_row_matches dr (rr_decision r) = true → consistent (cn_tables c) → clean_resolved cs (cn_tables c) →
  store_completed cs r c = (Ok x, c') → clean_resolved cs (cn_tables c').
Proof.
  intros Hs Hq Hg Hd Hm Hc Hold H. pose proof (grows_completed cs r c) as [E _]. rewrite H in E. cbn [snd] in E.
  unfold store_completed in H. apply db_bind_inv in H as (r'&c1&Hr&H). unfold examine in Hr. injection Hr as Hr <-.
  destruct (insert_result_spec _ _ _ _ H) as [_ [->|(row&Hv&Ht)]]; [done|]. apply (clean_extends _ (cn_tables c)); try done.
  rewrite Ht. cbn [qt_results]. intros row' dr' a Hin Hnin Hone Hd' Ha Hcl.
  apply elem_of_app in Hin as [?| ->%list_elem_of_singleton]; [done|].
  destruct (completed_row _ _ _ _ _ Hr Hv) as (H1&H2&->). rewrite H2 in Hd'. change (get_decision_by_public_id (cn_tables c) (rd_decision_id (rr_decision r)) = Some dr') in Hd'.
  rewrite Hd in Hd'. injection Hd' as <-. apply decision_row_fields in Hm as (_&Hm&_).
  assert (a = rd_action (rr_decision r)) as -> by (apply enum_action; congruence).
  apply (clean_queue _ t); [done|]. apply guarded_resolution; [done..|]. unfold successful_classification.
  rewrite Hcl. rewrite H1 in Hone. by destruct (rr_success r).
Qed.

Lemma extends_of {A} (m : ResDB A) c x c' : relates grows m → m c = (x, c') → consistent (cn_tables c) →
  extends (cn_tables c) (cn_tables c') ∧ consistent (cn_tables c').
Proof. intros Hm H Hc. specialize (Hm c). rewrite H in Hm. destruct Hm as [E G]. auto. Qed.

Lemma call_clean cs tx k t x c : cs_schema cs = Ok true → consistent t → clean_resolved cs t →
  run_call cs tx k (at_rest t) = (x, c) → clean_resolved cs (cn_tables c).
Proof.
  intros Hs Hc Ho H. destruct (call_spec _ _ _ _ _ _ H) as (_&_&Hfail). destruct x as [[]|ex]; [|by rewrite Hfail].
  clear Hfail. destruct k as [d|r|item d given now]; cbn [run_call] in *; apply db_bind_inv in H as (y&c1&H&[= <-]).
  - apply owned_write_Ok in H as (c2&H&->). apply db_bind_inv in H as ([]&c3&H1&H). unfold examine in H1. injection H1 as _ <-.
    destruct (extends_of _ _ _ _ (grows_insert_decision d) H Hc) as [E _].
    destruct (insert_decision_spec _ _ _ _ H) as (dr&_&_&_&Hr). cbn [cn_tables at_rest] in *. by apply (clean_unchanged cs t).
  - apply owned_write_Ok in H as (c2&H&->). apply db_bind_inv in H as ([]&c3&H1&H). unfold examine in H1. injection H1 as Hg <-.
    apply db_bind_inv in H as ([]&c3&H1&H). unfold lift in H1. injection H1 as _ <-.
    apply db_bind_inv in H as (o&c3&H1&H). unfold read in H1. injection H1 as <- <-.
    apply db_bind_inv in H as ([]&c3&H1&H). unfold lift in H1. injection H1 as Hm <-. cbn [cn_tables at_rest] in *.
    destruct (get_decision_by_public_id t _) as [dr|] eqn:Ed; [|done]. apply raise_when_Ok, negb_false_iff in Hm.
    by eapply (store_completed_clean cs t r (at_rest t)).
  - destruct (apply_steps _ _ _ _ _ _ _ _ _ H) as (->&Hd&_&_&Hg&_&b1&c2&b2&c3&c4&H1&H2&H3&->). cbn [cn_tables at_rest].
    destruct (extends_of _ _ _ _ (grows_insert_decision d) H1 Hc) as [E1 C1].
    destruct (extends_of _ _ _ _ (grows_completed cs _) H2 C1) as [_ C2].
    destruct (extends_of _ _ _ _ (grows_status _ _) H3 C2) as [E3 _].
    destruct (insert_decision_spec _ _ _ _ H1) as (dr&Hdr&Hm&Hq&Hr). cbn [cn_tables at_rest] in *. rewrite <- Hd in Hdr, Hm.
    assert (Hres : qt_results (cn_tables c4) = qt_results (cn_tables c3)).
    { unfold set_status, execute in H3. destruct (_ ≫= _ : result ResolutionTables) as [t'|] eqn:Et in H3; [|done].
      injection H3 as <-. by apply bind_Ok in Et as (q&_&[= <-]). }
    apply (clean_unchanged cs (cn_tables c3)); try done.
    eapply (store_completed_clean cs t); [done|exact Hq|exact Hg|exact Hdr|exact Hm|done| |exact H2].
    by apply (clean_unchanged cs t).
Qed.

(** Saving results of the apply runtime. *)
Lemma save_guarded_clean cs r c x c' : cs_schema cs = Ok true → clean_applied cs (cn_tables c) →
  save_guarded cs r c = (Ok x, c') → clean_applied cs (cn_tables c').
Proof.
  intros Hs Ho H. destruct (save_guarded_spec _ _ _ _ _ H) as [Hg Hi].
  destruct (insert_applied_spec _ _ _ _ Hi) as (v&Hv&Hx). destruct x; [|by destruct Hx as [-> _]]. rewrite Hx.
  intros q a Ha (row&Hrow&Hone&<-&Hact). cbn [db_applied db_resolution] in *.
  apply elem_of_app in Hrow as [Hrow| ->%list_elem_of_singleton]; [apply Ho; [done|by exists row]|].
  unfold applied_values in Hv. apply bind_Ok in Hv as (f&_&Hv). apply bind_Ok in Hv as (p&_&Hv). apply bind_Ok in Hv as (e&_&[= <-]).
  cbn [sa_success sa_action sa_queue_item_id] in *. apply enum_action in Hact as <-. apply guarded_apply; [done..|].
  unfold applied_classification. rewrite Ha. by destruct (ar_success r).
Qed.

Lemma persist_each_clean cs rs : cs_schema cs = Ok true → ∀ n c m c', clean_applied cs (cn_tables c) →
  persist_each cs rs n c = (Ok m, c') → clean_applied cs (cn_tables c').
Proof.
  intros Hs. induction rs as [|r rs IH]; intros n c m c' Ho; cbn [persist_each]; [by intros [= _ <-]|]. intros H.
  apply db_bind_inv in H as (x&c1&H1&H). eapply IH; [|exact H]. by eapply save_guarded_clean.
Qed.

Lemma save_clean cs tx k t x c : cs_schema cs = Ok true → clean_applied cs t → run_save cs tx k (at_rest t) = (x, c) →
  clean_applied cs (cn_tables c).
Proof.
  intros Hs Ho H. destruct (saved_spec _ _ _ _ _ _ H) as (_&_&Hf&_). destruct x as [n|e]; [|by rewrite Hf].
  rewrite run_save_each in H. unfold owned_write in H. destruct tx; [done|].
  destruct (persist_each cs (results_of k) 0 (at_rest t)) as [[m|e] c1] eqn:E; [|done]. injection H as _ <-.
  by eapply persist_each_clean in E.
Qed.

(** ** Histories with corrections *)

(** At most [x] is corrected anew. *)
Definition corrects (cs cs' : CorrectionState) (x : string) : Prop :=
  cs_schema cs' = Ok true ∧ ∀ y, corrected_in cs' y → corrected_in cs y ∨ y = x.

(** A version of a correction and its audit event. *)
Definition record_correction (cs : CorrectionState) (x : string) : CorrectionState :=
  MkCorrections (cs_schema cs) (cs_independent cs) ((λ l, l ++ [x]) <$> cs_audit cs) (cs_versions cs ++ [x]).

Lemma record_corrects cs x : cs_schema cs = Ok true → corrects cs (record_correction cs x) x.
Proof.
  intros Hs. split; [done|]. intros y. unfold corrected_in, has_committed_correction, record_correction.
  cbn [cs_schema cs_independent cs_audit cs_versions]. rewrite Hs. destruct (cs_independent cs y) as [i|e]; [|done].
  cbn [mbind result_bind negb]. destruct (cs_audit cs) as [l|]; cbn [fmap option_fmap option_map];
    rewrite ?bool_decide_false, ?bool_decide_true by done; cbn [raise_when mbind result_bind]; [|done].
  assert (Ha : ∀ k, str_in y (k ++ [x]) = str_in y k || String.eqb y x).
  { intros k. unfold str_in. destruct (String.eqb_spec y x) as [->|Hn]; [rewrite orb_true_r; by apply bool_decide_eq_true; set_solver|].
    rewrite orb_false_r. apply bool_decide_ext. set_solver. }
  rewrite !Ha. destruct (String.eqb_spec y x) as [->|_]; [by right|]. rewrite !orb_false_r. by left.
Qed.

Section Ledger.
Context (nfc : string → string).

(** The reconciliation works under the corrections committed so far; the
    books and the executions change at will; a correction is committed only
    when its target is eligible. *)
Inductive ledger_step (s s' : CorrectionState * LedgerTables) : Prop :=
  | ledger_recon r : recon_step (λ cs _, cs = s.1) any_item any_result (lt_recon s.2) r →
      s' = (s.1, MkLedger (lt_books s.2) r (lt_executions s.2)) → ledger_step s s'
  | ledger_books bk ex : s' = (s.1, MkLedger bk (lt_recon s.2) ex) → ledger_step s s'
  | ledger_correct source cs' : assert_correction_eligible nfc s.1 s.2 source = Ok tt →
      corrects s.1 cs' (rs_target_id source) → s' = (cs', s.2) → ledger_step s s'.

Definition fresh_ledger (s : CorrectionState * LedgerTables) : Prop :=
  cs_schema s.1 = Ok true ∧ lt_recon s.2 = new_recon.
Definition ledger_reachable (s : CorrectionState * LedgerTables) : Prop := ∃ s0, fresh_ledger s0 ∧ rtc ledger_step s0 s.

Record disjoint_ledger (s : CorrectionState * LedgerTables) : Prop := {
  dl_schema : cs_schema s.1 = Ok true;
  dl_consistent : consistent (db_resolution (lt_recon s.2));
  dl_resolved : clean_resolved s.1 (db_resolution (lt_recon s.2));
  dl_applied : clean_applied s.1 (lt_recon s.2);
}.

Lemma fresh_disjoint s : fresh_ledger s → disjoint_ledger s.
Proof.
  intros [Hs Hr]. constructor; rewrite ?Hr; [done|apply new_consistent|..].
  - intros q a _ (row&_&Hrow&_). by apply elem_of_nil in Hrow.
  - intros q a _ (row&Hrow&_). by apply elem_of_nil in Hrow.
Qed.

Lemma classified_later cs cs' t x : corrects cs cs' x → ¬ classified t x →
  (∀ q a, classified_as t q a → clean cs (db_resolution t) q a) → ∀ q a, classified_as t q a → clean cs' (db_resolution t) q a.
Proof.
  intros [_ Hc] Hx H q a Ha. destruct (H q a Ha) as (b&can&Hb&Hn). exists b, can. split; [done|].
  intros y Hy [Hcorr| ->]%Hc; [by apply (Hn y)|]. apply Hx. by exists q, a, b, can.
Qed.

Lemma res_step_clean cs fit t t' : cs_schema cs = Ok true → consistent t → clean_resolved cs t →
  res_step (λ cs' _, cs' = cs) fit t t' → clean_resolved cs t'.
Proof.
  intros Hs Hc Ho Hstep. pose proof (step_grows _ _ _ _ Hstep) as [E _].
  destruct Hstep as [cs' tx k x c -> H ->|cs' present items run q n _ _ _ _ ->|id status q _ ->].
  - destruct (call_spec _ _ _ _ _ _ H) as (Hset&_). rewrite <- Hset. by eapply call_clean.
  - by apply (clean_unchanged cs t).
  - by apply (clean_unchanged cs t).
Qed.

Lemma step_disjoint s s' : ledger_step s s' → disjoint_ledger s → disjoint_ledger s'.
Proof.
  intros [r Hr ->|bk ex ->|source cs' He Hc ->] [Hs Hcons Hres Happ]; [|by constructor|].
  - pose proof (recon_step_grows _ _ _ _ _ Hr) as ([E Hcons']&_). destruct Hr as [q Hq ->|cs tx k x c -> _ H ->].
    + constructor; cbn; [done|by apply Hcons'|by eapply res_step_clean|].
      intros q0 a Ha (row&Hrow). apply (clean_stable _ (db_resolution (lt_recon s.2))); [done|]. by apply Happ; [|exists row].
    + destruct (saved_spec _ _ _ _ _ _ H) as (Hset&(Eq&_)&_). rewrite <- Hset in *.
      constructor; cbn; [done|by apply Hcons'|by rewrite Eq|by eapply save_clean].
  - pose proof (eligible_unclassified _ _ _ _ Hs He) as Hn.
    assert (H : ∀ q a, classified_as (lt_recon s.2) q a → clean cs' (db_resolution (lt_recon s.2)) q a).
    { apply (classified_later s.1 cs' _ (rs_target_id source) Hc Hn). intros q a [Ha [Hr|Hr]]; auto. }
    constructor; cbn; [apply Hc|done|..]; intros q a Ha Hr; apply H; (split; [done|]); auto.
Qed.

Lemma reachable_disjoint s : ledger_reachable s → disjoint_ledger s.
Proof.
  intros (s0&H0&H). apply fresh_disjoint in H0. induction H as [s|s s1 s2 H _ IH]; [done|]. by eapply IH, step_disjoint.
Qed.

(** C5: Corrections and classifications exclude each other.  With migration
    051 applied, whatever resolutions, results and queues are stored, whatever
    happens to the books, and whichever transactions are corrected once
    [assert_correction_eligible] accepted them, in any order: every stored
    success that classifies (confirms a match or marks a duplicate) names the
    transactions of a queue item that loads as its frozen source; none of these
    transactions is corrected; and none of them is eligible for a correction. *)
Theorem classified_never_corrected s : ledger_reachable s →
  (∀ queue_id action, classified_as (lt_recon s.2) queue_id action →
    ∃ b canonical, bound_at (db_resolution (lt_recon s.2)) queue_id b canonical) ∧
  ∀ x, classified (lt_recon s.2) x →
    ¬ corrected_in s.1 x ∧
    ∀ source, rs_target_id source = x → is_ok (assert_correction_eligible nfc s.1 s.2 source) = false.
Proof.
  intros H. apply reachable_disjoint in H as [Hs Hcons Hres Happ].
  assert (Hcl : ∀ q a, classified_as (lt_recon s.2) q a → clean s.1 (db_resolution (lt_recon s.2)) q a).
  { intros q a [Ha [Hr|Hr]]; auto. }
  split; [intros q a (b&can&Hb&_)%Hcl; by exists b, can|]. intros x Hx. split.
  - destruct Hx as (q&a&b&can&Ha&Hb&Hx). destruct (Hcl q a Ha) as (b'&can'&Hb'&Hn).
    destruct (bound_at_unique _ _ _ _ _ _ Hb Hb') as [-> ->]. by apply Hn.
  - intros source <-. destruct (assert_correction_eligible nfc s.1 s.2 source) as [[]|e] eqn:E; [|done].
    by destruct (eligible_unclassified _ _ _ _ Hs E).
Qed.
End Ledger.

(** ** An example *)

(** One transaction of the books, in no relation to anything. *)
Definition sample_books : BookTables :=
  MkBooks [MkTransaction 1 "txn-other" "active" []] [] [] [] [] [] [] [] [] [].
Definition sample_source : RelationshipSource := MkSource "txn-other" "manual" None.
Definition first_ledger : LedgerTables := MkLedger sample_books new_recon (MkExecTables [] []).
Definition once_corrected : CorrectionState := record_correction no_corrections "txn-other".

Lemma sample_eligible : assert_correction_eligible id no_corrections first_ledger sample_source = Ok tt.
Proof. vm_compute. exact eq_refl. Qed.

(** The queue of the example batch is registered and its first item
    confirmed, after the correction. *)
Definition confirmed_tables (items : list ReviewQueueItem) (cs : CorrectionState) (t : ResolutionTables) : ResolutionTables :=
  cn_tables (confirm_first items cs t).2.

(** Some stored success confirms a match. *)
Definition some_confirmed (t : ResolutionTables) : bool :=
  existsb (λ row, (sr_success row =? 1) &&
    match get_decision_by_public_id t (sr_decision_public_id row) with
    | Some dr => String.eqb (dr_decision_action dr) "confirm_match" | None => false end) (qt_results t).

Lemma some_confirmed_resolved t : some_confirmed t = true →
  ∃ queue_id, resolved_as t queue_id ResolutionAction.CONFIRM_MATCH.
Proof.
  intros (row&Hrow&H)%List.existsb_exists. apply andb_prop in H as [H1%Z.eqb_eq H2].
  destruct (get_decision_by_public_id t _) as [dr|] eqn:E; [|done]. apply String.eqb_eq in H2.
  exists (sr_review_queue_public_id row), row, dr. by apply list_elem_of_In in Hrow.
Qed.

Lemma sample_confirmed_after : some_confirmed (confirmed_tables sample_items once_corrected sample_tables) = true.
Proof. vm_compute. exact eq_refl. Qed.

Lemma confirm_step items cs t : items ≠ [] →
  res_step (λ cs' _, cs' = cs) any_item t (cn_committed (confirm_first items cs t).2).
Proof.
  destruct items as [|item items]; [done|]. intros _. destruct (confirm_runs item items cs t) as (x&Hrun&_).
  by apply (step_call (λ cs' _, cs' = cs) any_item t (cn_committed (confirm_first (item :: items) cs t).2) cs false
    (ApplyResolution item (sample_decision item) None "2026-07-03T10:00:00+00:00") x (confirm_first (item :: items) cs t).2 eq_refl Hrun).
Qed.

Lemma confirmed_committed items cs t : cn_committed (confirm_first items cs t).2 = confirmed_tables items cs t.
Proof.
  unfold confirmed_tables. destruct items as [|item items]; [done|]. destruct (confirm_runs item items cs t) as (x&Hrun&_).
  symmetry. by destruct (call_spec _ _ _ _ _ _ Hrun).
Qed.

Lemma register_resolves cs items run x : cs_schema cs = Ok true → persist_review_queue true [] items run = x → is_ok x = true →
  res_step (λ cs' _, cs' = cs) any_item new_tables (match x with Ok (q, _) => MkResTables q [] [] | Raise _ => new_tables end).
Proof.
  intros Hs Hx Hok. destruct x as [[q n]|]; [|done].
  apply (step_register (λ cs' _, cs' = cs) any_item new_tables (MkResTables q [] []) cs true items run q n eq_refl Hs); try done.
  apply Forall_forall. intros i _. exact I.
Qed.

(** The history of the example, for any items and tables of its shape. *)
Lemma corrected_history items cs t : items ≠ [] → cs_schema cs = Ok true → corrects no_corrections cs "txn-other" →
  res_step (λ cs' _, cs' = cs) any_item new_tables t →
  ledger_reachable id (cs, MkLedger sample_books (MkRecon (confirmed_tables items cs t) []) (MkExecTables [] [])).
Proof.
  intros Hi Hs Hc Ht. exists (no_corrections, first_ledger). split; [done|].
  eapply rtc_l; [by apply (ledger_correct id (no_corrections, first_ledger) _ sample_source cs sample_eligible Hc eq_refl)|].
  eapply rtc_l; [apply (ledger_recon id (cs, first_ledger) _ (MkRecon t [])); [exact (recon_resolution _ _ _ new_recon (MkRecon t []) t Ht eq_refl)|reflexivity]|].
  apply rtc_once. apply (ledger_recon id (cs, MkLedger sample_books (MkRecon t []) (MkExecTables [] [])) _ (MkRecon (confirmed_tables items cs t) [])); [|reflexivity].
  apply (recon_resolution _ _ _ (MkRecon t []) _ (confirmed_tables items cs t)); [|reflexivity].
  rewrite <- confirmed_committed. by apply confirm_step.
Qed.

Lemma sample_items_some : sample_items ≠ [].
Proof. discriminate. Qed.

Lemma sample_resolves : res_step (λ cs' _, cs' = once_corrected) any_item new_tables sample_tables.
Proof.
  rewrite sample_tables_eq.
  exact (register_resolves once_corrected example_queue "run-1" sample_registered eq_refl eq_refl sample_is_registered).
Qed.

Lemma classified_never_corrected_witness : ∃ s x,
  corrected_in s.1 "txn-other" ∧ classified (lt_recon s.2) x ∧ ¬ corrected_in s.1 x ∧
  is_ok (assert_correction_eligible id s.1 s.2 (MkSource x "manual" None)) = false.
Proof.
  assert (Hcor : corrected_in once_corrected "txn-other") by reflexivity.
  pose proof (corrected_history sample_items once_corrected sample_tables sample_items_some eq_refl
    (record_corrects no_corrections "txn-other" eq_refl)
    sample_resolves) as Hr.
  pose proof sample_confirmed_after as Hc. revert Hr Hc.
  generalize (confirmed_tables sample_items once_corrected sample_tables). intros t Hr Hc.
  destruct (some_confirmed_resolved t Hc) as [q Hq].
  destruct (classified_never_corrected id _ Hr) as [Hb Hx].
  destruct (Hb q ResolutionAction.CONFIRM_MATCH) as (b&can&Hat); [split; [reflexivity|left; exact Hq]|].
  assert (Hcl : classified (MkRecon t []) can).
  { exists q, ResolutionAction.CONFIRM_MATCH, b, can. split; [split; [reflexivity|left; exact Hq]|].
    split; [exact Hat|apply elem_of_cons; left; reflexivity]. }
  destruct (Hx can Hcl) as [H1 H2]. match type of Hr with ledger_reachable _ ?s => exists s, can end.
  split; [exact Hcor|]. split; [exact Hcl|]. split; [exact H1|]. apply H2. reflexivity.
Defined.
