(* ===== verification/RelationshipProps.v ===== *)
(** * The stores and the eligibility check understand each other

    What the two stores write of a classification, the eligibility check reads
    without a doubt: it refuses exactly the transactions the classification
    names, as actively related, and lets the others pass. *)

From Stdlib Require Import Ascii ZArith SpecFloat Lia.
From stdpp Require Import base sets strings sorting numbers list relations.
From S2P Require Import Prelude PyDecimal PyValue Hash Json JsonParse JsonRoundtrip PyDate PyDateTime PyFloat ReconModels ReconDecision ReconMatcher ReconBatch ReviewModels ReviewQueue ApplyRuntime BoundCodec Snapshot Resolution SourceBinding ReviewPersistence Integrity Sqlite AuditChain ApplyProps CodecProps BindingProps IntegrityProps ExecStore ResolutionStore ResolutionStoreProps ResolutionEvidence ResolutionReplay ApplyResultStore ApplyResultProps Relationships Eligibility CorrectionProps.

Open Scope Z_scope.

(** ** Texts that are read back *)

Lemma strict_distinct v : strict_value v = true → distinct_members v = true.
Proof.
  induction v as [|b|n|t|s|l IH|d IH] using json_nested_ind; cbn [strict_value distinct_members]; try done.
  - rewrite !List.forallb_forall. rewrite Forall_forall in IH. intros H x Hx. apply IH; [by apply list_elem_of_In|auto].
  - intros [-> H]%andb_prop. cbn. revert H. rewrite !List.forallb_forall. rewrite Forall_forall in IH.
    intros H x Hx. apply (IH x); [by apply list_elem_of_In|auto].
Qed.

Lemma strict_object raw d label : strict_json raw = Ok (JDict d) → object_of raw label = Ok d.
Proof.
  unfold strict_json, object_of. destruct (parse_value _ _) as [v r| | |]; try done.
  destruct (skip_space r) as [|a l] eqn:E; [|done]. destruct (strict_value v) eqn:Es; [|done]. intros [= ->].
  rewrite (strict_distinct _ Es). by rewrite bool_decide_true.
Qed.

Lemma text_object raw members label : text_of_members raw members → object_of raw label = Ok members.
Proof. intros (d&Hd&->&->). apply strict_object. by rewrite strict_canonical. Qed.

Lemma ref_text s label : ascii_text s = true → str_empty s = false →
  optional_ref (serialize_ref (Some s)) label = Ok (Some s).
Proof.
  intros Ha Hs. cbn [serialize_ref fmap option_fmap option_map optional_ref]. 
  assert (H : json_loads (canonical (JStr s)) = Ok (JStr s)) by exact (json_loads_dumps (JStr s) Ha).
  rewrite H. cbn [unknown_when]. by rewrite Hs.
Qed.

Lemma json_eqb_sorted v : ∀ w, json_eqb v w = true → json_eqb (sort_json v) w = true.
Proof.
  induction v as [|b|n|t|s|l IH|d IH] using json_nested_ind; intros w; cbn [sort_json]; try done.
  - destruct w as [| | | | |k|]; try done. rewrite !json_eqb_list. intros H. revert IH. induction H as [|x y l k Hxy _ IHl]; [constructor|].
    intros [Hx Hl]%Forall_cons. cbn [map]. constructor; auto.
  - destruct w as [| | | | | |e]; try done. rewrite !json_eqb_dict. intros [Hlen H]. split.
    { rewrite <- Hlen. unfold sort_dict. by rewrite isort_perm, length_map. }
    assert (Hp : sort_dict (map (λ '(k, v), (k, sort_json v)) d) ≡ₚ map (λ '(k, v), (k, sort_json v)) d) by apply isort_perm.
    rewrite Hp. rewrite Forall_forall in *. intros kv Hkv. apply list_elem_of_fmap in Hkv as ([k v]&->&Hkv).
    destruct (H _ Hkv) as (w&Hw&Hvw). exists w. split; [done|]. by apply (IH _ Hkv).
Qed.

(** A check that passes. *)
Lemma refuse_then {A} c s (m : result A) x : c = false → m = x → (refuse c s;; m) = x.
Proof. by intros -> ->. Qed.

Lemma str_in_iff (x : string) l : str_in x l = true ↔ x ∈ l.
Proof. unfold str_in. apply bool_decide_eq_true. Qed.

Lemma nonblank_text s label : require_nonempty s label = Ok tt → str_empty s = false.
Proof. unfold require_nonempty, str_empty at 2. destruct (String.eqb_spec s "") as [->|]; [done|by intros _]. Qed.

Lemma nonblank_kept s label : require_nonempty s label = Ok tt → text_or_none s = Some s.
Proof. intros H%nonblank_text. unfold text_or_none. by rewrite H. Qed.

(** ** Members that agree with the frozen source *)

(** A member of the source is in the evidence, with its value. *)
Lemma source_present evidence b k v extra :
  same_keys (dict_keys evidence) (dict_keys (bound_source_audit_projection b) ++ extra) = true →
  assert_source_audit evidence b = Ok tt → dict_get k (bound_source_audit_projection b) = Some v → get evidence k = v.
Proof.
  intros Hk Hs Hv. rewrite same_keys_iff in Hk.
  assert (Hm : k ∈ dict_keys (bound_source_audit_projection b)) by (apply dict_get_Some_mem in Hv; by apply (list_elem_of_fmap_2 fst) in Hv).
  destruct (dict_get k evidence) as [w|] eqn:E.
  - unfold get. rewrite E. cbn. eapply source_member in E; [|done|by eapply projection_keys]. congruence.
  - apply dict_get_None in E. exfalso. apply E, Hk, elem_of_app. by left.
Qed.

(** The members that name the item. *)
Lemma projection_named b : b = bound_of (bq_item b) (bq_sha256 b) →
  dict_get "queue_item_id" (bound_source_audit_projection b) = Some (JStr (bq_queue_item_id b)) ∧
  dict_get "candidate_id" (bound_source_audit_projection b) = Some (JStr (bq_candidate_id b)) ∧
  dict_get "issue_type" (bound_source_audit_projection b) = Some (JStr (IssueType.value (bq_issue_type b))).
Proof. intros ->. by split_and!. Qed.

(** ** A stored result of the apply runtime *)

Definition ascii_ref (o : option string) : bool := match o with Some s => ascii_text s | None => true end.
(** The texts of a result are ASCII. *)
Definition ascii_result (r : ResolutionApplyResult) : bool :=
  json_ok is_ascii (ar_payload r) && json_ok is_ascii (ar_audit_evidence r) &&
  ascii_ref (ar_statement_reference r) && ascii_ref (ar_app_transaction_reference r).

(** The row is a result that conforms to the frozen source. *)
Record encodes (row : AppliedRow) (r : ResolutionApplyResult) (b : BoundQueue) (can : string)
    (e p : list (string * json)) : Prop := {
  en_values : applied_values r = Ok row;
  en_evidence : ar_audit_evidence r = JDict e;
  en_payload : ar_payload r = JDict p;
  en_ascii : ascii_result r = true;
  en_envelope : assert_apply_envelope r b = Ok tt;
  en_says : payload_says (ar_action r) p b can;
}.

Definition applied_in_order (t : ResolutionTables) (row : AppliedRow) : Prop :=
  ∀ action, sa_action row = ResolutionAction.value action → is_classification action = true →
  ∃ r b can e p, bound_at t (sa_queue_item_id row) b can ∧ encodes row r b can e p.

(** The members of the payloads. *)
Lemma payload_members_only p action b x : assert_apply_payload (JDict p) action b = Ok tt →
  match action with
  | ResolutionAction.CONFIRM_MATCH => x ∈ DUPLICATE_FIELDS
  | ResolutionAction.MARK_DUPLICATE => x = "app_txn_id"
  | _ => False
  end → dict_mem x p = false.
Proof.
  intros H Hx. unfold assert_apply_payload in H. apply bind_Ok in H as (v&Hv&H). apply raise_when_Ok, negb_false_iff in H.
  unfold dict_mem. destruct (dict_get x p) as [w|] eqn:Hw; [exfalso|done]. destruct action; try done.
  - injection Hv as <-. unfold payload_confirm_match in H. apply json_eqb_dict in H as [_ H]. rewrite Forall_forall in H.
    apply dict_get_Some_mem in Hw. destruct (H _ Hw) as (w'&Hg&_). cbn [fst] in Hg. revert Hg.
    unfold DUPLICATE_FIELDS in Hx. rewrite !elem_of_cons, elem_of_nil in Hx.
    destruct Hx as [->|[->|[->|[]]]]; by destruct (st_transaction_date _), (rc_best_app_transaction _).
  - injection Hv as <-. unfold payload_mark_duplicate in H. apply json_eqb_dict in H as [_ H]. rewrite Forall_forall in H.
    apply dict_get_Some_mem in Hw. destruct (H _ Hw) as (w'&Hg&_). subst x. by cbn in Hg.
Qed.

(** What the envelope's checks established. *)
Record facts (r : ResolutionApplyResult) (b : BoundQueue) (e p : list (string * json)) : Prop := {
  fa_success : ar_success r = true;
  fa_apply_id : require_nonempty (ar_apply_id r) "apply_id" = Ok tt;
  fa_decision_id : require_nonempty (ar_decision_id r) "decision_id" = Ok tt;
  fa_queue_id : require_nonempty (ar_queue_item_id r) "queue_item_id" = Ok tt;
  fa_candidate_id : require_nonempty (ar_candidate_id r) "candidate_id" = Ok tt;
  fa_reviewer : require_nonempty (ar_reviewer r) "reviewer" = Ok tt;
  fa_applied_at : require_aware_time (ar_applied_at r) "applied_at" = Ok tt;
  fa_time : require_time (get e "applied_timestamp") "audit applied_timestamp" = Ok tt;
  fa_queue_member : get e "queue_item_id" = JStr (ar_queue_item_id r);
  fa_candidate_member : get e "candidate_id" = JStr (ar_candidate_id r);
  fa_decision_member : get e "decision_id" = JStr (ar_decision_id r);
  fa_action_member : get e "resolution_action" = JStr (ResolutionAction.value (ar_action r));
  fa_reviewer_member : get e "reviewer" = JStr (ar_reviewer r);
  fa_note_member : get e "note" = JStr (ar_note r);
  fa_class : classifies (ar_action r) (bq_issue_type b) = true;
  fa_queue : ar_queue_item_id r = bq_queue_item_id b;
  fa_candidate : ar_candidate_id r = bq_candidate_id b;
  fa_statement_ref : ar_statement_reference r = bq_statement_transaction_ref b;
  fa_app_ref : ar_app_transaction_reference r = bq_app_transaction_ref b;
  fa_schema : assert_apply_audit_schema e b (ar_decision_id r) = Ok tt;
  fa_payload : assert_apply_payload (JDict p) (ar_action r) b = Ok tt;
}.

Arguments fa_success {r b e p} _.
Arguments fa_apply_id {r b e p} _.
Arguments fa_decision_id {r b e p} _.
Arguments fa_queue_id {r b e p} _.
Arguments fa_candidate_id {r b e p} _.
Arguments fa_reviewer {r b e p} _.
Arguments fa_applied_at {r b e p} _.
Arguments fa_time {r b e p} _.
Arguments fa_queue_member {r b e p} _.
Arguments fa_candidate_member {r b e p} _.
Arguments fa_decision_member {r b e p} _.
Arguments fa_action_member {r b e p} _.
Arguments fa_reviewer_member {r b e p} _.
Arguments fa_note_member {r b e p} _.
Arguments fa_class {r b e p} _.
Arguments fa_queue {r b e p} _.
Arguments fa_candidate {r b e p} _.
Arguments fa_statement_ref {r b e p} _.
Arguments fa_app_ref {r b e p} _.
Arguments fa_schema {r b e p} _.
Arguments fa_payload {r b e p} _.

Lemma envelope_establishes r b e p : ar_audit_evidence r = JDict e → ar_payload r = JDict p →
  assert_apply_envelope r b = Ok tt → facts r b e p.
Proof.
  intros Ee Ep H. unfold assert_apply_envelope in H.
  apply bind_Ok in H as ([]&Hbasic&H). apply bind_Ok in H as ([]&Hcl&H). apply bind_Ok in H as (e1&He&H).
  rewrite Ee in He. injection He as <-. apply bind_Ok in H as ([]&Hid&H). apply bind_Ok in H as ([]&Hsch&Hpay).
  rewrite Ep in Hpay. apply raise_when_Ok, orb_false_iff in Hcl as [Hs%negb_false_iff Hcl%negb_false_iff].
  apply raise_when_Ok in Hid. rewrite !orb_false_iff, !negb_false_iff, !String.eqb_eq, !bool_decide_eq_true in Hid.
  destruct Hid as (((((((Hq&Hc)&_)&_)&_)&_)&Hst)&Har).
  unfold assert_apply_basic in Hbasic. rewrite Ee in Hbasic. apply bind_Ok in Hbasic as ([]&_&Hbasic).
  apply bind_Ok in Hbasic as (e1&[= <-]&Hbasic). apply bind_Ok in Hbasic as (p1&_&Hbasic).
  repeat (apply bind_Ok in Hbasic as ([]&?&Hbasic)). apply raise_when_Ok in Hbasic. rewrite !orb_false_iff in Hbasic.
  destruct Hbasic as (((((M1&M2)&M3)&M4)&M5)&M6). rewrite differs_plain in M1, M2, M3, M4, M5, M6 by reflexivity.
  by constructor.
Qed.

Section Encoded.
Context (row : AppliedRow) (r : ResolutionApplyResult) (b : BoundQueue) (can : string).
Context (e p : list (string * json)).
Context (Hen : encodes row r b can e p).
Context (Hb : b = bound_of (bq_item b) (bq_sha256 b)) (Hwf : item_well_formed (bq_item b)).
Context (Happ : app_ref (bq_item b) = Some can) (Hne : str_empty can = false).

Lemma envelope_facts : facts r b e p.
Proof using Hen. apply (envelope_establishes r b e p); apply Hen. Qed.

Lemma ascii_members : json_ok is_ascii (JDict p) = true ∧ json_ok is_ascii (JDict e) = true ∧
  ascii_ref (ar_statement_reference r) = true ∧ ascii_ref (ar_app_transaction_reference r) = true.
Proof using Hen.
  pose proof (en_ascii _ _ _ _ _ _ Hen) as H. unfold ascii_result in H. rewrite (en_evidence _ _ _ _ _ _ Hen), (en_payload _ _ _ _ _ _ Hen) in H.
  rewrite !andb_true_iff in H. tauto.
Qed.

Lemma distinct_evidence : NoDup (dict_keys e).
Proof using Hen. destruct ascii_members as (_&H&_). by apply json_ok_dict in H as [? _]. Qed.
Lemma distinct_payload : NoDup (dict_keys p).
Proof using Hen. destruct ascii_members as (H&_). by apply json_ok_dict in H as [? _]. Qed.

Lemma stored_plain d k v : NoDup (dict_keys d) → plain v = true → get d k = v → get (sorted_members d) k = v.
Proof using Type. intros Hd Hp <-. rewrite get_sorted by done. by apply plain_sorted. Qed.

(** The columns of the row. *)
Lemma encoded_row : ∃ fingerprint, row =
  MkApplied (ar_apply_id r) (ar_decision_id r) (ar_queue_item_id r) (Some (ar_candidate_id r))
    (ResolutionAction.value (ar_action r)) 1 (if ar_idempotent r then 1 else 0) (canonical (JDict p)) (canonical (JDict e))
    (serialize_ref (ar_statement_reference r)) (serialize_ref (ar_app_transaction_reference r))
    (Some (ar_reviewer r)) (text_or_none (ar_note r)) fingerprint (ar_applied_at r).
Proof using Hen.
  pose proof envelope_facts as F. pose proof (en_values _ _ _ _ _ _ Hen) as H. unfold applied_values in H.
  apply bind_Ok in H as (f&_&H). apply bind_Ok in H as (pt&Hp&H). apply bind_Ok in H as (et&He&[= <-]). exists f.
  assert (Hm : ∀ d t, serialize_mapping (JDict d) = Ok t → t = canonical (JDict d)).
  { intros d t. unfold serialize_mapping, json_dumps_ascii. destruct d as [|kv d]; cbn [json_truth]; destruct (printable _); try done; by intros [= <-]. }
  rewrite (en_payload _ _ _ _ _ _ Hen) in Hp. rewrite (en_evidence _ _ _ _ _ _ Hen) in He. rewrite (Hm _ _ Hp), (Hm _ _ He).
  rewrite (fa_success F), (nonblank_kept _ _ (fa_candidate_id F)), (nonblank_kept _ _ (fa_reviewer F)). done.
Qed.

Lemma encoded_texts : text_of_members (sa_payload_json row) (sorted_members p) ∧ text_of_members (sa_audit_evidence_json row) (sorted_members e).
Proof using Hen. destruct ascii_members as (Hp&He&_). destruct encoded_row as [f Erow]; rewrite Erow. split; [by exists p|by exists e]. Qed.

Lemma bound_refs : bq_app_transaction_ref b = Some can ∧ bq_statement_transaction_ref b = Some (statement_ref (bq_item b)) ∧
  str_empty (statement_ref (bq_item b)) = false.
Proof using Hb Hwf Happ.
  rewrite Hb. cbn [bq_app_transaction_ref bq_statement_transaction_ref bound_of bq_item]. split_and!; [done|done|].
  destruct (wf_identity _ Hwf) as (_&_&H). unfold str_empty. destruct (String.eqb_spec (statement_ref (bq_item b)) "") as [Hx|]; [|done].
  by rewrite Hx in H.
Qed.

Lemma encoded_refs l : optional_ref (sa_app_transaction_reference_json row) l = Ok (Some can) ∧
  optional_ref (sa_statement_reference_json row) l = Ok (Some (statement_ref (bq_item b))).
Proof using Hen Hb Hwf Happ Hne.
  destruct ascii_members as (_&_&Hs&Ha). destruct encoded_row as [f Erow]; rewrite Erow. pose proof envelope_facts as F.
  destruct bound_refs as (R1&R2&R3). cbn [sa_app_transaction_reference_json sa_statement_reference_json].
  rewrite (fa_statement_ref F), R2 in Hs. rewrite (fa_app_ref F), R1 in Ha. rewrite (fa_statement_ref F), (fa_app_ref F), R1, R2.
  by rewrite !ref_text.
Qed.

Lemma note_member : differs (sorted_members e) "note" (note_or_empty (text_or_null (text_or_none (ar_note r)))) = false ∧
  note_differs (sorted_members e) (text_or_none (ar_note r)) = false.
Proof using Hen.
  pose proof (stored_plain e "note" (JStr (ar_note r)) distinct_evidence eq_refl (fa_note_member envelope_facts)) as H. rewrite note_kept. split.
  - by apply differs_plain.
  - unfold note_differs, get_or_none. rewrite H. cbn. unfold text_or_none. destruct (str_empty (ar_note r)); cbn; [done|].
    by rewrite String.eqb_refl.
Qed.

Ltac stored_member H := apply differs_plain; [reflexivity|]; apply stored_plain; [apply distinct_evidence|reflexivity|exact H].

Lemma encoded_basic : assert_apply_row_basic (applied_row_json row) (sorted_members e) = Ok tt.
Proof using Hen.
  pose proof envelope_facts as F. destruct encoded_row as [f Erow]; rewrite Erow. destruct note_member as [Hn _]. unfold assert_apply_row_basic.
  assert (Hl : ∀ m, m = forM_ ["apply_id"; "decision_id"; "queue_item_id"; "candidate_id"; "reviewer"]
    (λ k, require_text (get (applied_row_json (MkApplied (ar_apply_id r) (ar_decision_id r) (ar_queue_item_id r) (Some (ar_candidate_id r))
    (ResolutionAction.value (ar_action r)) 1 (if ar_idempotent r then 1 else 0) (canonical (JDict p)) (canonical (JDict e))
    (serialize_ref (ar_statement_reference r)) (serialize_ref (ar_app_transaction_reference r))
    (Some (ar_reviewer r)) (text_or_none (ar_note r)) f (ar_applied_at r))) k) k) → m = Ok tt).
  { intros m ->. apply forM_Ok. repeat apply List.Forall_cons; try apply List.Forall_nil; apply F. }
  rewrite (Hl _ eq_refl). cbn [mbind result_bind].
  change (get (applied_row_json _) "note") with (text_or_null (text_or_none (ar_note r))).
  assert (Hreq : require_note (note_or_empty (text_or_null (text_or_none (ar_note r)))) = Ok tt) by by rewrite note_kept.
  rewrite Hreq. cbn [mbind result_bind]. change (require_time (get (applied_row_json _) "applied_at") "applied_at") with (require_aware_time (ar_applied_at r) "applied_at").
  rewrite (fa_applied_at F). cbn [mbind result_bind].
  assert (Ht : require_time (get (sorted_members e) "applied_timestamp") "audit applied_timestamp" = Ok tt).
  { rewrite get_sorted by apply distinct_evidence. pose proof (fa_time F) as H. by destruct (get e "applied_timestamp"). }
  rewrite Ht. cbn [mbind result_bind]. apply refuse_then; [reflexivity|]. apply refuse_then; [reflexivity|].
  apply refuse_then; [by destruct (ar_idempotent r)|].
  change (get (applied_row_json _) "queue_item_id") with (JStr (ar_queue_item_id r)).
  change (get (applied_row_json _) "candidate_id") with (JStr (ar_candidate_id r)).
  change (get (applied_row_json _) "decision_id") with (JStr (ar_decision_id r)).
  change (get (applied_row_json _) "action") with (JStr (ResolutionAction.value (ar_action r))).
  change (get (applied_row_json _) "reviewer") with (JStr (ar_reviewer r)).
  apply raise_when_Ok. rewrite Hn, orb_false_r. rewrite !orb_false_iff. split_and!.
  - stored_member (fa_queue_member F).
  - stored_member (fa_candidate_member F).
  - stored_member (fa_decision_member F).
  - stored_member (fa_action_member F).
  - stored_member (fa_reviewer_member F).
Qed.

Lemma encoded_schema : same_keys (dict_keys (sorted_members e)) (dict_keys (bound_source_audit_projection b) ++ APPLY_ENVELOPE_KEYS) = true ∧
  assert_source_audit (sorted_members e) b = Ok tt ∧
  assert_apply_audit_schema (sorted_members e) b (ar_decision_id r) = Ok tt.
Proof using Hen.
  pose proof (fa_schema envelope_facts) as H. unfold assert_apply_audit_schema in *.
  apply bind_Ok in H as ([]&Hk&H). apply bind_Ok in H as ([]&Hs&H). apply raise_when_Ok, negb_false_iff in Hk.
  apply raise_when_Ok in H. rewrite !orb_false_iff, negb_false_iff in H. destruct H as ((H1&H2)&H3).
  assert (Hk' : same_keys (dict_keys (sorted_members e)) (dict_keys (bound_source_audit_projection b) ++ APPLY_ENVELOPE_KEYS) = true).
  { rewrite same_keys_iff in *. intros x. by rewrite sorted_members_keys. }
  assert (Hs' : assert_source_audit (sorted_members e) b = Ok tt).
  { pose proof (source_audit_stored e [] b) as Hx. rewrite app_nil_r in Hx. apply Hx; [apply distinct_evidence|by intros k ?%elem_of_nil|done]. }
  split_and!; [done|done|]. rewrite Hk', Hs'. cbn [negb refuse raise_when mbind result_bind]. apply raise_when_Ok.
  rewrite differs_plain in H1, H2 by reflexivity. rewrite !orb_false_iff, negb_false_iff. split_and!.
  - stored_member H1.
  - stored_member H2.
  - rewrite get_sorted by apply distinct_evidence. destruct (get e "evidence_refs") as [| | | | |l|]; try done. cbn in *.
    induction l as [|x l IH]; [done|]. cbn in *. apply andb_prop in H3 as [Hx Hl]. rewrite (IH Hl). rewrite andb_true_r. by destruct x.
Qed.

Lemma encoded_accepted : assert_apply_row (applied_row_json row) (JDict (sorted_members p)) (sorted_members e)
  (Some (statement_ref (bq_item b))) (Some can) b = Ok tt.
Proof using Hen Hb Happ Hwf.
  pose proof envelope_facts as F. unfold assert_apply_row. rewrite encoded_basic. destruct encoded_row as [f Erow]; rewrite Erow.
  destruct bound_refs as (R1&R2&_). cbn [mbind result_bind].
  change (differs (applied_row_json _) "queue_item_id" _) with (negb (String.eqb (ar_queue_item_id r) (bq_queue_item_id b))).
  change (differs (applied_row_json _) "candidate_id" _) with (negb (String.eqb (ar_candidate_id r) (bq_candidate_id b))).
  rewrite (fa_queue F), (fa_candidate F), R1, R2, !String.eqb_refl, !bool_decide_true by done. cbn [negb orb refuse raise_when mbind result_bind].
  change (get (applied_row_json _) "action") with (JStr (ResolutionAction.value (ar_action r))). unfold stored_action.
  rewrite resolution_action_enum. cbn [mbind result_bind]. rewrite (fa_class F). cbn [negb refuse raise_when mbind result_bind].
  change (get (applied_row_json _) "decision_id") with (JStr (ar_decision_id r)). cbn [mbind result_bind].
  destruct encoded_schema as (_&_&Hsch). rewrite Hsch. cbn [mbind result_bind]. pose proof (fa_payload F) as Hp. unfold assert_apply_payload in *.
  apply bind_Ok in Hp as (v&Hv&Hp). rewrite Hv. cbn [mbind result_bind]. apply raise_when_Ok, negb_false_iff in Hp.
  apply raise_when_Ok, negb_false_iff. by apply (json_eqb_sorted (JDict p)).
Qed.

(** What the payload says, as it is read. *)
Lemma encoded_says : payload_says (ar_action r) (sorted_members p) b can.
Proof using Hen.
  pose proof (en_says _ _ _ _ _ _ Hen) as H. pose proof distinct_payload as Hd.
  unfold payload_says in *. destruct (ar_action r); try done.
  - destruct H as (A1&A2). split; by apply stored_plain.
  - destruct H as (A1&A2&A3&A4&A5). split_and!; [|by apply stored_plain|by apply stored_plain| |done].
    + apply stored_plain; [done|rewrite <- list_fmap_compose; apply plain_strs|done].
    + rewrite get_sorted by done. by rewrite A4.
Qed.

Lemma encoded_without x : match ar_action r with
  | ResolutionAction.CONFIRM_MATCH => x ∈ DUPLICATE_FIELDS
  | ResolutionAction.MARK_DUPLICATE => x = "app_txn_id"
  | _ => False
  end → dict_mem x (sorted_members p) = false.
Proof using Hen.
  intros Hx. pose proof (payload_members_only _ _ _ _ (fa_payload envelope_facts) Hx) as H. unfold dict_mem in *.
  rewrite sorted_members_get by apply distinct_payload. by destruct (dict_get x p).
Qed.

Section Read.
Context (cs : CorrectionState) (t : ResolutionTables).
Context (Hs : cs_schema cs = Ok true) (Hat : bound_at t (sa_queue_item_id row) b can).

Let c : AppliedClaim :=
  MkClaim row (sorted_members p) (sorted_members e) (Some (statement_ref (bq_item b))) (Some can)
    ("reconciliation-apply:" +:+ sa_apply_id row).

Lemma encoded_claim : read_claim cs t true row = Ok c.
Proof using Hen Hb Hwf Happ Hne Hs Hat.
  destruct encoded_texts as [Hp He]. unfold read_claim. rewrite (text_object _ _ _ Hp). cbn [mbind result_bind].
  rewrite (text_object _ _ _ He). cbn [mbind result_bind]. rewrite encoded_basic. cbn [catch mbind result_bind].
  destruct (encoded_refs ("reconciliation-apply:" +:+ sa_apply_id row)) as [Ra Rs]. rewrite Ra. cbn [mbind result_bind].
  rewrite Rs. cbn [mbind result_bind]. destruct (bound_at_queue _ _ _ _ _ Hs Hat) as [Hq _]. rewrite Hq. cbn [mbind result_bind].
  rewrite encoded_accepted. by destruct (true && _).
Qed.

Lemma claim_bound_at : claim_bound cs t true c = Ok (Some b).
Proof using Hen Hs Hat.
  unfold claim_bound. destruct (bound_at_queue _ _ _ _ _ Hs Hat) as [Hq _]. cbn [cl_row c].
  rewrite Hq. destruct encoded_row as [f Erow]; rewrite Erow. cbn [sa_queue_item_id]. rewrite (nonblank_text _ _ (fa_queue_id envelope_facts)). done.
Qed.

Lemma evidence_ref : get (sorted_members e) "app_txn_id" = JStr can.
Proof using Hen Happ.
  destruct encoded_schema as (Hk&Hsrc&_). apply (source_present _ _ _ _ _ Hk Hsrc). by apply projection_app.
Qed.

Lemma claim_agrees : claim_differs_from b (ar_action r) c = false.
Proof using Hen Hb Hwf Happ.
  pose proof envelope_facts as F. destruct bound_refs as (R1&R2&_). destruct note_member as [_ Hn].
  destruct encoded_schema as (Hk&Hsrc&_). destruct (projection_named b Hb) as (_&_&Hi).
  pose proof (source_present _ _ _ _ _ Hk Hsrc Hi) as Hissue.
  assert (M : ∀ k s, get e k = JStr s → differs (sorted_members e) k (JStr s) = false) by (intros k s H; stored_member H).
  unfold claim_differs_from, apply_evidence_matches. cbn [cl_row cl_evidence cl_statement_ref cl_app_ref c].
  destruct encoded_row as [f Erow]; rewrite Erow. cbn [sa_action sa_candidate_id sa_decision_id sa_reviewer sa_note].
  rewrite String.eqb_refl, R1, R2, <- (fa_candidate F), <- (fa_queue F), !bool_decide_true by done.
  change (text_or_null (Some (ar_reviewer r))) with (JStr (ar_reviewer r)).
  rewrite (M _ _ (fa_queue_member F)), (M _ _ (fa_candidate_member F)), (M _ _ (fa_action_member F)),
    (M _ _ (fa_decision_member F)), (M _ _ (fa_reviewer_member F)), Hn.
  assert (Hd : differs (sorted_members e) "issue_type" (JStr (IssueType.value (bq_issue_type b))) = false) by by apply differs_plain.
  rewrite Hd. unfold action_fits. destruct (classifies_compatible _ _ (fa_class F)) as [_ ->]. done.
Qed.

Lemma json_str_eqb (x y : string) : json_eqb (JStr x) (JStr y) = String.eqb x y.
Proof using Type. done. Qed.

Lemma other_text k d s s' : get d k = JStr s → String.eqb s s' = false → differs d k (JStr s') = true.
Proof using Type. intros H Hs'. unfold differs. by rewrite H, json_str_eqb, Hs'. Qed.

(** The reader of a classification. *)
Lemma encoded_relationship x : is_classification (ar_action r) = true →
  apply_relationship cs t true x row =
    if str_in x (named_ids (ar_action r) b can) then active ("reconciliation-apply:" +:+ sa_apply_id row) else Ok tt.
Proof using Hen Hb Hwf Happ Hne Hs Hat.
  intros Hcl. unfold apply_relationship. rewrite encoded_claim. cbn [mbind result_bind].
  pose proof claim_agrees as Hag. pose proof claim_bound_at as Hcb. pose proof encoded_says as Hsay. pose proof encoded_without as Hno.
  pose proof (stored_plain e _ (JStr (ResolutionAction.value (ar_action r))) distinct_evidence eq_refl (fa_action_member envelope_facts)) as Hact.
  destruct bound_refs as (R1&_&_).
  assert (Hrow : sa_action row = ResolutionAction.value (ar_action r)) by by destruct encoded_row as [f Erow]; rewrite Erow.
  destruct (classification_cases _ Hcl) as [Ha|Ha]; rewrite Ha in *; cbn [payload_says ResolutionAction.value] in *.
  - destruct Hsay as [Hid Hty].
    assert (Hdup : duplicate_claim c = false).
    { unfold duplicate_claim. cbn [cl_row cl_payload cl_evidence c]. rewrite Hrow.
      rewrite (other_text _ _ _ "mark_duplicate" Hty eq_refl), (other_text _ _ _ "mark_duplicate" Hact eq_refl).
      change (claims_any DUPLICATE_FIELDS (sorted_members p) = false). unfold claims_any.
      apply not_true_iff_false. intros (k&Hk&Hm)%List.existsb_exists. rewrite Hno in Hm; [done|by apply list_elem_of_In]. }
    assert (Hmatch : match_claim c = true) by by unfold match_claim; cbn [cl_row c]; rewrite Hrow.
    rewrite Hdup, Hmatch. unfold claimed_match. rewrite Hcb. cbn [cl_payload cl_evidence cl_app_ref cl_label cl_row c].
    rewrite Hid, evidence_ref. cbn [nonempty_text]. unfold text_or_none. rewrite Hne. cbn [mbind result_bind].
    rewrite Hag, R1, (bool_decide_true (Some can = Some can)) by done. cbn [negb orb unknown_when mbind result_bind].
    unfold named_ids. change (bool_decide (ResolutionAction.CONFIRM_MATCH = _)) with false. cbn iota.
    rewrite json_str_eqb, Hrow.
    assert (Hx : String.eqb x can || bool_decide (Some can = Some x) || String.eqb can x = str_in x [can]).
    { destruct (String.eqb_spec x can) as [->|Hn]; cbn [orb].
      - symmetry. apply str_in_iff. by left.
      - rewrite bool_decide_false by congruence. destruct (String.eqb_spec can x) as [->|_]; [done|]. symmetry.
        apply not_true_iff_false. rewrite str_in_iff, list_elem_of_singleton. congruence. }
    rewrite Hx. destruct (str_in x [can]); [|done]. cbn [negb]. rewrite Hact.
    unfold present_and_differs. rewrite !json_str_eqb, !String.eqb_refl.
    assert (Hty' : differs (sorted_members p) "action_type" (JStr "confirm_match") = false) by by apply differs_plain.
    rewrite Hty'. done.
  - destruct Hsay as (Hids&Hkept&Hty&Haud&H2&H3&H4). set (ids := app_txn_id <$> bq_app_transactions b) in *.
    assert (Hdup : duplicate_claim c = true) by by unfold duplicate_claim; cbn [cl_row c]; rewrite Hrow.
    rewrite Hdup. unfold claimed_duplicate. rewrite Hcb. cbn [cl_payload cl_evidence cl_app_ref cl_label cl_row c].
    rewrite Hids, Hkept, evidence_ref, Haud.
    destruct (bound_facts _ _ _ _ Hat) as (_&_&_&Hnem).
    assert (Hd : duplicate_ids (JList (JStr <$> ids)) = Some ids).
    { unfold duplicate_ids. assert (Hm : mapM nonempty_text (JStr <$> ids) = Some ids).
      { pose proof (stored_texts_of _ Hnem) as Hx. exact Hx. }
      rewrite Hm, H3. by rewrite (proj2 (Nat.ltb_ge _ _) H2). }
    rewrite Hd. cbn iota. rewrite H4. cbn [is_true negb orb unknown_when mbind result_bind].
    rewrite Hag, R1, !bool_decide_true by done. cbn [negb orb unknown_when mbind result_bind].
    assert (Hnp : get (sorted_members p) "app_txn_id" = JNull).
    { pose proof (Hno "app_txn_id" eq_refl) as Hm. unfold dict_mem in Hm. unfold get.
      by destruct (dict_get "app_txn_id" _). }
    rewrite Hnp, (Hno "app_txn_id" eq_refl). cbn [nonempty_text option_list app].
    change (option_bind string string text_or_none (Some can)) with (text_or_none can). unfold text_or_none. rewrite Hne.
    cbn [option_list app].
    unfold named_ids. rewrite bool_decide_true by done.
    assert (Hx : str_in x (ids ++ [can; can; can]) = str_in x (can :: ids)).
    { unfold str_in. apply bool_decide_ext. rewrite elem_of_app, !elem_of_cons, elem_of_nil. tauto. }
    fold ids. rewrite Hx. destruct (str_in x (can :: ids)); [|done]. cbn [negb]. rewrite Hrow, Hact.
    unfold present_and_differs. rewrite !json_str_eqb, !String.eqb_refl.
    assert (Hty' : differs (sorted_members p) "action_type" (JStr "mark_duplicate") = false) by by apply differs_plain.
    assert (Hin : json_in (JStr can) ids = true).
    { unfold json_in. apply List.existsb_exists. exists can. split; [|by rewrite json_str_eqb, String.eqb_refl].
      apply list_elem_of_In. by apply str_in_iff. }
    rewrite Hty', Hin. done.
Qed.
End Read.
End Encoded.

(** ** Every stored classification conforms *)

(** Migration 051 is applied, and results have ASCII texts. *)
Definition bound_save (cs : CorrectionState) (r : ResolutionApplyResult) : Prop :=
  cs_schema cs = Ok true ∧ ascii_result r = true.

Definition applied_all_in_order (t : ReconTables) : Prop :=
  ∀ row, row ∈ db_applied t → sa_success row = 1 → applied_in_order (db_resolution t) row.

Lemma applied_stable t t' row : extends t t' → applied_in_order t row → applied_in_order t' row.
Proof.
  intros E H a Ha Hc. destruct (H a Ha Hc) as (r&b&can&e&p&Hb&Hen). exists r, b, can, e, p. split; [by eapply bound_at_stable|done].
Qed.

Lemma saved_in_order cs r c x c' : bound_save cs r → applied_all_in_order (cn_tables c) →
  save_guarded cs r c = (Ok x, c') → applied_all_in_order (cn_tables c').
Proof.
  intros [Hs Hascii] Ho H. destruct (save_guarded_spec _ _ _ _ _ H) as [Hg Hi].
  destruct (insert_applied_spec _ _ _ _ Hi) as (v&Hv&Hx). destruct x; [|by destruct Hx as [-> _]]. rewrite Hx.
  intros row Hrow Hone. cbn [db_applied db_resolution] in *.
  apply elem_of_app in Hrow as [Hrow| ->%list_elem_of_singleton]; [by apply Ho|]. intros a Ha Hc.
  assert (Hcols : sa_success v = (if ar_success r then 1 else 0) ∧ sa_action v = ResolutionAction.value (ar_action r) ∧
                  sa_queue_item_id v = ar_queue_item_id r).
  { unfold applied_values in Hv. apply bind_Ok in Hv as (f&_&Hv). apply bind_Ok in Hv as (pt&_&Hv). by apply bind_Ok in Hv as (et&_&[= <-]). }
  destruct Hcols as (C1&C2&C3). rewrite C2 in Ha. apply enum_action in Ha as <-.
  assert (Hcl : applied_classification r = true) by (unfold applied_classification; rewrite Hc; rewrite C1 in Hone; by destruct (ar_success r)).
  destruct (guard_apply_facts _ _ _ Hs Hg Hcl) as (b&can&p&Hb&Henv&Hp&Hsay&_).
  destruct (ar_audit_evidence r) as [| | | | | |e] eqn:Ee;
    try by (unfold assert_apply_envelope, assert_apply_basic in Henv; rewrite Ee in Henv; apply bind_Ok in Henv as ([]&Hx'&_);
      apply bind_Ok in Hx' as ([]&_&Hx'); apply bind_Ok in Hx' as (?&?&_)).
  exists r, b, can, e, p. rewrite C3. split; [done|]. by constructor.
Qed.

Lemma each_in_order cs rs : Forall (bound_save cs) rs → ∀ n c m c', applied_all_in_order (cn_tables c) →
  persist_each cs rs n c = (Ok m, c') → applied_all_in_order (cn_tables c').
Proof.
  induction 1 as [|r rs Hr _ IH]; intros n c m c' Ho; cbn [persist_each]; [by intros [= _ <-]|]. intros H.
  apply db_bind_inv in H as (x&c1&H1&H). eapply IH; [|exact H]. by eapply saved_in_order.
Qed.

Abbreviation bound_history := (rtc (recon_step bound_call bound_item bound_save)).

Lemma bound_step t t' : recon_step bound_call bound_item bound_save t t' →
  applied_all_in_order t → applied_all_in_order t'.
Proof.
  intros [q Hq ->|cs tx k x c _ Hk H ->] Ho.
  - intros row Hrow Hone. cbn in *. destruct (step_grows _ _ _ _ Hq) as [E _]. apply (applied_stable (db_resolution t)); auto.
  - destruct (saved_spec _ _ _ _ _ _ H) as (Hset&_&Hf&_). rewrite <- Hset. destruct x as [n|ex]; [|by rewrite Hf].
    rewrite run_save_each in H. unfold owned_write in H. destruct tx; [done|].
    destruct (persist_each cs (results_of k) 0 (at_rest t)) as [[m|ex] c1] eqn:E; [|done]. injection H as _ <-.
    by eapply each_in_order in E.
Qed.

Lemma bound_resolution_step t t' : recon_step bound_call bound_item bound_save t t' →
  all_in_order (db_resolution t) → all_in_order (db_resolution t').
Proof.
  intros [q Hq ->|cs tx k x c _ Hk H ->] Ho; cbn; [by eapply step_in_order|].
  destruct (saved_spec _ _ _ _ _ _ H) as (Hset&(Eq&_)&_). by rewrite <- Hset, Eq.
Qed.

Lemma history_ok t t' : bound_history t t' →
  all_in_order (db_resolution t) ∧ applied_all_in_order t ∧ consistent (db_resolution t) →
  all_in_order (db_resolution t') ∧ applied_all_in_order t' ∧ consistent (db_resolution t').
Proof.
  induction 1 as [t|t t1 t' Hst _ IH]; [done|]. intros (H1&H2&H3). apply IH. split_and!.
  - by eapply bound_resolution_step.
  - by eapply bound_step.
  - destruct (recon_step_grows _ _ _ _ _ Hst) as ((_&Hg)&_). by apply Hg.
Qed.

Lemma bound_history_ok t : bound_history new_recon t →
  all_in_order (db_resolution t) ∧ applied_all_in_order t ∧ consistent (db_resolution t).
Proof.
  intros H. apply (history_ok _ _ H). split_and!; [exact new_in_order|by intros row ?%elem_of_nil|exact new_consistent].
Qed.

(** ** A stored resolution *)

Lemma bound_at_source t id b can : bound_at t id b can →
  b = bound_of (bq_item b) (bq_sha256 b) ∧ item_well_formed (bq_item b).
Proof. intros (row&_&Hl&_). by destruct (loaded_row_facts _ _ Hl) as (?&_&_&?&_). Qed.

Section Resolved.
Context (cs : CorrectionState) (t : ResolutionTables) (row : ResultRow) (dr : DecisionRow) (action : ResolutionAction.t).
Context (b : BoundQueue) (can : string) (e : list (string * json)).
Context (Hs : cs_schema cs = Ok true) (Hdr : get_decision_by_public_id t (sr_decision_public_id row) = Some dr).
Context (Hm : ∃ d, decision_row_matches dr d = true) (Ha : dr_decision_action dr = ResolutionAction.value action).
Context (Hcl : is_classification action = true) (Hat : bound_at t (sr_review_queue_public_id row) b can).
Context (Hq : dr_review_queue_public_id dr = sr_review_queue_public_id row).
Context (He : text_of_members (sr_audit_evidence_json row) e).
Context (Hrow : assert_resolution_row (result_row_json row) (decision_row_json dr) e b = Ok tt).
Context (Hdup : action = ResolutionAction.MARK_DUPLICATE → enough_duplicates (app_txn_id <$> bq_app_transactions b) can).

Let label : string := "resolution:" +:+ sr_public_id row.

Lemma row_checks : assert_resolution_row_basic (result_row_json row) (decision_row_json dr) e = Ok tt ∧
  classifies action (bq_issue_type b) = true ∧ assert_resolution_audit_schema e b action true = Ok tt.
Proof using Hrow Ha.
  pose proof Hrow as H. unfold assert_resolution_row in H. apply bind_Ok in H as ([]&Hbasic&H). apply bind_Ok in H as ([]&_&H).
  apply bind_Ok in H as (a&Hact&H). apply bind_Ok in H as ([]&Hcls&Hsch). apply raise_when_Ok, negb_false_iff in Hcls.
  change (get (decision_row_json dr) "decision_action") with (JStr (dr_decision_action dr)) in Hact. rewrite Ha in Hact.
  unfold stored_action in Hact. rewrite resolution_action_enum in Hact. by injection Hact as <-.
Qed.

(** The texts and members the basic checks establish. *)
Lemma row_texts : str_empty (sr_decision_public_id row) = false ∧ str_empty (sr_review_queue_public_id row) = false ∧
  get e "queue_item_id" = JStr (sr_review_queue_public_id row) ∧ get e "resolution_action" = JStr (ResolutionAction.value action) ∧
  get e "reviewer" = JStr (dr_reviewer dr) ∧ note_differs e (dr_decision_note dr) = false ∧
  resolved_differs e (dr_resolved_at dr) = false.
Proof using Hrow Ha Hm.
  destruct row_checks as (H&_&_). unfold assert_resolution_row_basic in H.
  apply bind_Ok in H as ([]&_&H). apply bind_Ok in H as ([]&Hd%nonblank_text&H). apply bind_Ok in H as ([]&Hqi%nonblank_text&H).
  repeat (apply bind_Ok in H as ([]&_&H)). apply raise_when_Ok in H. rewrite !orb_false_iff in H.
  destruct H as ((((((_&_)&H3)&H4)&H5)&H6)&H7).
  change (get (decision_row_json dr) "decision_action") with (JStr (dr_decision_action dr)) in H4. rewrite Ha in H4.
  change (get (result_row_json row) "review_queue_public_id") with (JStr (sr_review_queue_public_id row)) in H3.
  change (get (decision_row_json dr) "reviewer") with (JStr (dr_reviewer dr)) in H5.
  change (get (decision_row_json dr) "decision_note") with (text_or_null (dr_decision_note dr)) in H6.
  change (get (decision_row_json dr) "resolved_at") with (text_or_null (dr_resolved_at dr)) in H7.
  destruct Hm as (d&Hmd). apply decision_row_fields in Hmd as (_&_&Hn&_&_). rewrite Hn, note_kept in H6.
  rewrite differs_plain in H3, H4, H5, H6 by reflexivity. split_and!; try done.
  - rewrite Hn. unfold note_differs, get_or_none. rewrite H6. cbn. unfold text_or_none. destruct (str_empty (rd_note d)); cbn; [done|].
    by rewrite String.eqb_refl.
  - by destruct (dr_resolved_at dr).
Qed.

Lemma row_members : get e "app_txn_id" = JStr can ∧ get e "canonical_app_transaction_ref" = JStr can ∧
  get e "payload_target_app_txn_id" = JStr can ∧
  resolution_differs_from b action (Some dr) e can = false.
Proof using Hrow Ha Hm Hat Hq.
  destruct row_checks as (_&Hcls&Hsch). destruct (bound_facts _ _ _ _ Hat) as (Hid&Happ&Href&_).
  destruct (bound_at_source _ _ _ _ Hat) as [Hb _]. destruct (projection_named b Hb) as (P1&P2&P3).
  destruct row_texts as (_&_&T1&_&T3&T4&T5).
  assert (Hap : get e "app_txn_id" = JStr can) by by apply (schema_member _ _ _ _ _ Hsch), projection_app.
  pose proof (schema_member _ _ _ _ _ Hsch P2) as M2. pose proof (schema_member _ _ _ _ _ Hsch P3) as M3.
  pose proof Hsch as Hx. unfold assert_resolution_audit_schema in Hx. apply bind_Ok in Hx as ([]&_&Hx).
  apply bind_Ok in Hx as ([]&_&Hx). apply bind_Ok in Hx as ([]&Hx&_). apply raise_when_Ok, orb_false_iff in Hx as [X1 X2].
  rewrite Href in X1, X2. change (text_or_null (Some can)) with (JStr can) in X1, X2. rewrite differs_plain in X1, X2 by reflexivity.
  split_and!; [done..|]. unfold resolution_differs_from, resolution_decision_evidence_matches, action_fits.
  destruct (classifies_compatible _ _ Hcls) as [_ ->]. rewrite Href, bool_decide_true, T4, T5 by done.
  assert (D : ∀ k s, get e k = JStr s → differs e k (JStr s) = false) by (intros k s Hk; by apply differs_plain).
  rewrite Hid, (D _ _ T1), (D _ _ M2), (D _ _ M3), (D _ _ T3). done.
Qed.

Lemma row_reads : object_of (sr_audit_evidence_json row) label = Ok e ∧
  resolution_row_intact cs t true row (Some dr) e label = Ok tt.
Proof using Hs Hat He Hrow Ha.
  split; [by apply text_object|]. destruct row_checks as (Hbasic&_). destruct (bound_at_queue _ _ _ _ _ Hs Hat) as [Hbq _].
  unfold resolution_row_intact. cbn [joined_decision]. rewrite Hbasic. cbn [catch mbind result_bind].
  rewrite Hbq. cbn [mbind result_bind]. rewrite Hrow. by destruct (classifying _).
Qed.

Lemma row_coherent x :
  resolution_relationship cs t true x row =
    if bool_decide (action = ResolutionAction.MARK_DUPLICATE)
    then resolved_duplicate cs t x row (Some dr) (Some can) e label
    else resolved_match cs t x row (Some dr) (Some can) e label.
Proof using Hs Hdr Hm Ha Hcl Hat Hq He Hrow.
  clear Hdup. destruct row_reads as [Ho Hi]. destruct row_texts as (T1&T2&T3&_). destruct row_members as (M1&_).
  unfold resolution_relationship. rewrite Hdr. fold label. rewrite Ho, (queue_ref_at _ _ _ _ Hat). cbn [mbind result_bind].
  rewrite Hi. cbn [mbind result_bind fmap option_fmap option_map]. rewrite T1, T2, Hq, M1, bool_decide_true by done.
  assert (Hqueue : bool_decide (get_by_public_id (qt_queue t) (sr_review_queue_public_id row) = None) = false).
  { apply bool_decide_eq_false. pose proof (queue_ref_at _ _ _ _ Hat) as H. by destruct (get_by_public_id _ _). }
  assert (D : ∀ k s, get e k = JStr s → differs e k (JStr s) = false) by (intros k s Hk; by apply differs_plain).
  rewrite Hqueue, (D _ _ T3), andb_false_r. change (text_or_null (Some can)) with (JStr can). rewrite (D _ _ M1).
  destruct Hat as (qr&_&_&_&Hne). cbn [ref_or_null]. rewrite Hne. cbn [negb orb unknown_when mbind result_bind]. rewrite Ha.
  destruct (classification_cases _ Hcl) as [->| ->]; reflexivity.
Qed.

Lemma resolved_reads x :
  resolution_relationship cs t true x row = if str_in x (named_ids action b can) then active label else Ok tt.
Proof using Hs Hdr Hm Ha Hcl Hat Hq He Hrow Hdup.
  rewrite row_coherent. destruct row_texts as (_&_&_&T4&_). destruct row_members as (_&M2&M3&M4).
  destruct row_checks as (_&_&Hsch). destruct (bound_at_queue _ _ _ _ _ Hs Hat) as [Hbq Href].
  assert (D : ∀ k s, get e k = JStr s → differs e k (JStr s) = false) by (intros k s Hk; by apply differs_plain).
  destruct (classification_cases _ Hcl) as [Hact|Hact]; subst action; unfold named_ids.
  - change (bool_decide _) with false. cbn iota. unfold resolved_match. cbn [ResolutionAction.value] in T4.
    rewrite (D _ _ T4), (D _ _ M2), (D _ _ M3), Hbq.
    assert (Hno : claims_any DUPLICATE_FIELDS e = false).
    { apply not_true_iff_false. intros (k&Hk%list_elem_of_In&Hmem)%List.existsb_exists. unfold assert_resolution_audit_schema in Hsch.
      apply bind_Ok in Hsch as ([]&Hkeys&_). apply raise_when_Ok, negb_false_iff in Hkeys. rewrite same_keys_iff in Hkeys.
      unfold dict_mem in Hmem. destruct (dict_get k e) as [w|] eqn:Hw; [|done]. apply dict_get_Some_mem, (list_elem_of_fmap_2 fst), Hkeys in Hw.
      cbn [fst] in Hw. apply elem_of_app in Hw as [Hw|Hw].
      - apply projection_keys in Hw. revert Hk Hw. unfold DUPLICATE_FIELDS. rewrite !elem_of_cons, elem_of_nil.
        intros [->|[->|[->|[]]]] Hw; revert Hw; by apply (bool_decide_eq_true_1 (_ ∉ _)).
      - revert Hk Hw. unfold DUPLICATE_FIELDS. rewrite !elem_of_cons, elem_of_nil.
        intros [->|[->|[->|[]]]] Hw; revert Hw; by apply (bool_decide_eq_true_1 (_ ∉ _)). }
    rewrite Hno. cbn [orb unknown_when mbind result_bind or_unknown catch]. rewrite M4. cbn [unknown_when mbind result_bind].
    unfold active_when. assert (Hx : String.eqb x can = str_in x [can]).
    { destruct (String.eqb_spec x can) as [->|Hn]; symmetry; [by apply str_in_iff; left|].
      apply not_true_iff_false. by rewrite str_in_iff, list_elem_of_singleton. }
    by rewrite Hx.
  - change (bool_decide _) with true. cbn iota. destruct (Hdup eq_refl) as (H2&H3&H4). set (ids := app_txn_id <$> bq_app_transactions b) in *.
    unfold assert_resolution_audit_schema in Hsch. change (bool_decide _) with true in Hsch. cbn iota in Hsch.
    apply bind_Ok in Hsch as ([]&_&Hsch). apply bind_Ok in Hsch as ([]&_&Hsch). apply bind_Ok in Hsch as ([]&_&Hsch).
    apply raise_when_Ok in Hsch. rewrite !orb_false_iff, negb_false_iff in Hsch. destruct Hsch as ((X1&X2)&X3).
    rewrite Href in X2. change (text_or_null (Some can)) with (JStr can) in X2.
    apply differs_plain in X1; [|apply plain_strs]. rewrite (list_fmap_compose app_txn_id JStr) in X1. fold ids in X1.
    apply differs_plain in X2; [|done]. destruct (bound_facts _ _ _ _ Hat) as (_&_&_&Hnem).
    assert (Hd : duplicate_ids (JList (JStr <$> ids)) = Some ids).
    { unfold duplicate_ids. pose proof (stored_texts_of _ Hnem) as Hx. unfold stored_texts in Hx. fold ids in Hx.
      rewrite Hx, H3. by rewrite (proj2 (Nat.ltb_ge _ _) H2). }
    unfold resolved_duplicate. rewrite X1, X2, Hd, H4, Hbq. cbn [ResolutionAction.value] in T4.
    rewrite (D _ _ T4), (D _ _ M2), (D _ _ M3), bool_decide_true by done.
    assert (Haud : is_true (get e "audit_only") = true) by by destruct (get e "audit_only") as [|[]| | | | |].
    rewrite Haud. cbn [negb orb unknown_when mbind result_bind or_unknown catch]. rewrite M4, bool_decide_true by done.
    cbn [negb orb unknown_when mbind result_bind]. unfold active_when.
    assert (Hx : str_in x ids = str_in x (can :: ids)).
    { unfold str_in. apply bool_decide_ext. rewrite elem_of_cons. apply str_in_iff in H4. split; [by right|]. by intros [->|]. }
    by rewrite Hx.
Qed.
End Resolved.

(** C35: The eligibility check understands what the stores wrote.  With
    migration 051 applied, after any history of registrations, resolutions and
    saved results with ASCII texts, whoever made them: for every stored
    success that classifies, in either table, the check reads the row without
    a doubt; it refuses exactly the transactions of the row's queue item that
    the classification names, as actively related and with the row's label, and
    accepts every other transaction. *)
Theorem classifications_understood t cs x : bound_history new_recon t → cs_schema cs = Ok true →
  (∀ row dr action, row ∈ qt_results (db_resolution t) → sr_success row = 1 →
    get_decision_by_public_id (db_resolution t) (sr_decision_public_id row) = Some dr →
    dr_decision_action dr = ResolutionAction.value action → is_classification action = true →
    ∃ b canonical, bound_at (db_resolution t) (sr_review_queue_public_id row) b canonical ∧
      resolution_relationship cs (db_resolution t) true x row =
        if str_in x (named_ids action b canonical) then active ("resolution:" +:+ sr_public_id row) else Ok tt) ∧
  (∀ row action, row ∈ db_applied t → sa_success row = 1 → sa_action row = ResolutionAction.value action →
    is_classification action = true →
    ∃ b canonical, bound_at (db_resolution t) (sa_queue_item_id row) b canonical ∧
      apply_relationship cs (db_resolution t) true x row =
        if str_in x (named_ids action b canonical) then active ("reconciliation-apply:" +:+ sa_apply_id row) else Ok tt).
Proof.
  intros H Hs. destruct (bound_history_ok _ H) as ([_ Hres]&Happ&_). split.
  - intros row dr action Hrow Hone Hd Ha Hc. destruct (Hres row Hrow Hone) as (dr'&Hd'&Hm&Hin). rewrite Hd in Hd'. injection Hd' as <-.
    destruct (Hin action Ha Hc) as (b&can&e&Hat&Hq&He&Hok&Hdup). exists b, can. split; [done|].
    by apply (resolved_reads cs (db_resolution t) row dr action b can e).
  - intros row action Hrow Hone Ha Hc. destruct (Happ row Hrow Hone action Ha Hc) as (r&b&can&e&p&Hat&Hen).
    exists b, can. split; [done|]. destruct (bound_at_source _ _ _ _ Hat) as [Hb Hwf].
    destruct (bound_facts _ _ _ _ Hat) as (_&Hap&_&_). pose proof Hat as (qr&_&_&_&Hne).
    assert (action = ar_action r) as ->.
    { apply enum_action. rewrite <- Ha. by destruct (encoded_row row r b can e p Hen) as [f ->]. }
    by apply (encoded_relationship row r b can e p Hen Hb Hwf Hap Hne).
Qed.

(** ** An example *)

(** The check reads every stored success of these tables; one of them, in the
    table of results, confirms a match. *)
Definition confirms_match (t : ResolutionTables) (row : ResultRow) : bool :=
  (sr_success row =? 1) &&
  match get_decision_by_public_id t (sr_decision_public_id row) with
  | Some dr => String.eqb (dr_decision_action dr) (ResolutionAction.value ResolutionAction.CONFIRM_MATCH) | None => false end.

Lemma some_confirmed_row t : some_confirmed t = true → ∃ row, row ∈ qt_results t ∧ confirms_match t row = true.
Proof. intros (row&Hrow%list_elem_of_In&H)%List.existsb_exists. by exists row. Qed.

(** What the runtime reports of the same item, in another process, is saved
    beside the resolution. *)
Definition confirms_again (o : option ResolutionApplyResult) (ts : ResolutionTables) : bool :=
  match o with
  | Some r => ascii_result r && ar_success r && bool_decide (ar_action r = ResolutionAction.CONFIRM_MATCH) && saves_report o ts
  | None => false
  end.

Definition confirmed_once_tables : ResolutionTables := confirmed_tables sample_items no_corrections sample_tables.

Lemma confirmed_reachable items t : evidence_ascii items = true → res_reachable bound_call bound_item t →
  res_reachable bound_call bound_item (confirmed_tables items no_corrections t).
Proof.
  destruct items as [|item l]; [done|]. intros Ha Hr. rewrite <- confirmed_committed. eapply rtc_r; [exact Hr|].
  destruct (confirm_runs item l no_corrections t) as (x&Hrun&_).
  by apply (step_call bound_call bound_item t _ no_corrections false
    (ApplyResolution item (sample_decision item) None "2026-07-03T10:00:00+00:00") x _ (conj eq_refl Ha) Hrun).
Qed.

Definition confirmed_twice (o : option ResolutionApplyResult) (ts : ResolutionTables) : bool :=
  some_confirmed ts && confirms_again o ts.
Lemma confirmed_twice_parts o ts : confirmed_twice o ts = true → some_confirmed ts = true ∧ confirms_again o ts = true.
Proof. apply andb_prop. Qed.
Lemma sample_confirmed_twice : confirmed_twice (report_first sample_items) confirmed_once_tables = true.
Proof. vm_compute. exact eq_refl. Qed.
Lemma sample_confirmed_tables : some_confirmed confirmed_once_tables = true.
Proof. exact (proj1 (confirmed_twice_parts _ _ sample_confirmed_twice)). Qed.
Lemma sample_confirms_again : confirms_again (report_first sample_items) confirmed_once_tables = true.
Proof. exact (proj2 (confirmed_twice_parts _ _ sample_confirmed_twice)). Qed.
Lemma sample_confirmed_reachable : res_reachable bound_call bound_item confirmed_once_tables.
Proof. exact (confirmed_reachable sample_items sample_tables sample_ascii sample_bound). Qed.

(** The history of the example, for any result and tables of its shape. *)
Lemma confirmed_history o ts : confirms_again o ts = true → res_reachable bound_call bound_item ts →
  ∃ row, bound_history new_recon (MkRecon ts [row]) ∧ sa_success row = 1 ∧
    sa_action row = ResolutionAction.value ResolutionAction.CONFIRM_MATCH.
Proof.
  intros H Hr. unfold confirms_again in H. destruct o as [r|]; [|done].
  apply andb_prop in H as [[[H1 H2]%andb_prop H3%bool_decide_eq_true]%andb_prop Hs].
  destruct (saved_history bound_call bound_item bound_save r ts Hs (conj eq_refl I) (conj eq_refl H1)) as (c&row&_&Hrow&_&Hstep).
  exists row. split; [eapply rtc_r; [by apply resolved_history|exact Hstep]|].
  unfold applied_values in Hrow. apply bind_Ok in Hrow as (f&_&Hrow). apply bind_Ok in Hrow as (p&_&Hrow).
  apply bind_Ok in Hrow as (e&_&[= <-]). cbn. by rewrite H2, H3.
Qed.

Lemma named_canonical action b can : str_in can (named_ids action b can) = true.
Proof. apply str_in_iff. by left. Qed.

Lemma classifications_understood_witness : ∃ t resolved applied x y, bound_history new_recon t ∧
  resolved ∈ qt_results (db_resolution t) ∧ applied ∈ db_applied t ∧
  resolution_relationship no_corrections (db_resolution t) true x resolved = active ("resolution:" +:+ sr_public_id resolved) ∧
  apply_relationship no_corrections (db_resolution t) true y applied = active ("reconciliation-apply:" +:+ sa_apply_id applied).
Proof.
  pose proof sample_confirmed_reachable as Hr. pose proof sample_confirmed_tables as Hc. pose proof sample_confirms_again as Ha.
  revert Hr Hc Ha. generalize confirmed_once_tables, (report_first sample_items).
  intros ts o Hr Hc Ha. destruct (some_confirmed_row ts Hc) as (row&Hrow&Hm). destruct (confirmed_history o ts Ha Hr) as (arow&Hh&Hone&Hact).
  apply andb_prop in Hm as [H1%Z.eqb_eq Hm]. destruct (get_decision_by_public_id ts (sr_decision_public_id row)) as [dr|] eqn:Ed; [|discriminate Hm].
  apply String.eqb_eq in Hm.
  destruct (proj1 (classifications_understood _ no_corrections "" Hh eq_refl) row dr _ Hrow H1 Ed Hm eq_refl) as (b&x&Hb&_).
  destruct (proj2 (classifications_understood _ no_corrections "" Hh eq_refl) arow _ ltac:(left) Hone Hact eq_refl) as (b'&y&Hb'&_).
  exists (MkRecon ts [arow]), row, arow, x, y. split; [exact Hh|]. split; [exact Hrow|]. split; [left|]. split.
  - destruct (proj1 (classifications_understood _ no_corrections x Hh eq_refl) row dr _ Hrow H1 Ed Hm eq_refl) as (b1&x1&Hb1&Hx).
    destruct (bound_at_unique _ _ _ _ _ _ Hb Hb1) as [-> ->]. rewrite Hx, named_canonical. reflexivity.
  - destruct (proj2 (classifications_understood _ no_corrections y Hh eq_refl) arow _ ltac:(left) Hone Hact eq_refl) as (b1&x1&Hb1&Hx).
    destruct (bound_at_unique _ _ _ _ _ _ Hb' Hb1) as [-> ->]. rewrite Hx, named_canonical. reflexivity.
Defined.
