(* ===== verification/ApplyResultReplay.v ===== *)
(** * What the apply runtime reports can be saved

    Every classification the apply runtime reports for a registered queue item
    is accepted by the store, once; and the runtime's answers to repetitions
    are recognised as the stored result, in every later state. *)

From Stdlib Require Import Ascii ZArith SpecFloat Lia.
From stdpp Require Import base sets strings sorting numbers list relations.
From S2P Require Import Prelude PyDecimal PyValue Hash Json JsonParse JsonRoundtrip PyDate PyDateTime PyFloat ReconModels ReconDecision ReconMatcher ReconBatch ReviewModels ReviewQueue ApplyRuntime BoundCodec Snapshot Resolution SourceBinding ReviewPersistence Integrity Sqlite AuditChain ApplyProps CodecProps BindingProps IntegrityProps ExecStore ResolutionStore ResolutionStoreProps ResolutionEvidence ResolutionReplay ApplyResultStore ApplyResultProps Relationships Eligibility CorrectionProps RelationshipProps.

Open Scope Z_scope.

(** ** The values of a result can be written *)

Lemma strings_printable {A} (f : A → string) l : printable (JList ((λ x, JStr (f x)) <$> l)) = true.
Proof. cbn. by induction l. Qed.
Lemma text_printable o : printable (opt_json JStr o) = true.
Proof. by destruct o. Qed.
Lemma amount_printable o : printable (amount_or_none o) = true.
Proof. destruct o as [d|]; [|done]. cbn. by destruct (is_zero d). Qed.

Ltac printable_members :=
  cbn [printable]; apply List.forallb_forall; apply List.Forall_forall;
  repeat first [apply List.Forall_nil
    |apply List.Forall_cons; [cbn [snd]; first [reflexivity|apply text_printable|apply amount_printable|apply strings_printable
      |exact (strings_printable id _)|by destruct (st_amount _)]|]].

Lemma classification_printable i : is_classification (ai_action i) = true → printable (build_payload_instruction i) = true.
Proof.
  intros Hc. unfold build_payload_instruction. destruct (ai_item i) as [item|]; [|done].
  destruct (classification_cases _ Hc) as [->| ->].
  - unfold payload_confirm_match. destruct (st_transaction_date _), (rc_best_app_transaction _);
      cbn [member app_members app fmap option_fmap option_map]; printable_members.
  - unfold payload_mark_duplicate. printable_members.
Qed.

Lemma evidence_printable i now : printable (build_audit_evidence_instruction i now) = true.
Proof.
  unfold build_audit_evidence_instruction. destruct (ai_item i) as [item|]; [|done].
  destruct (st_transaction_date _), (st_posted_date _), (rc_best_app_transaction _);
    cbn [member app_members app fmap option_fmap option_map]; printable_members.
Qed.

Lemma classification_written i now : is_classification (ai_action i) = true →
  ∃ row, applied_values (first_result i now) = Ok row.
Proof.
  intros Hc. unfold applied_values, build_fingerprint, serialize_mapping. cbn [first_result apply_result ar_payload ar_audit_evidence].
  pose proof (classification_printable i Hc) as Hp. pose proof (evidence_printable i now) as He.
  assert (Hd : ∀ v, printable v = true → is_ok (json_dumps_ascii v) = true) by by (intros v Hv; unfold json_dumps_ascii; rewrite Hv).
  assert (Hf : ∀ v, printable v = true → ∃ x, (if json_truth v then json_dumps_ascii v else json_dumps_ascii (JDict [])) = Ok x).
  { intros v Hv. specialize (Hd v Hv). destruct (json_truth v); [|by eexists]. destruct (json_dumps_ascii v); [by eexists|done]. }
  set (m := JDict (("apply_id", _) :: _)). assert (Hm : printable m = true).
  { subst m. cbn [printable forallb snd first_result apply_result ar_payload]. by rewrite Hp. }
  specialize (Hd m Hm). destruct (json_dumps_ascii m) as [raw|]; [|done]. cbn [mbind result_bind].
  destruct (Hf _ Hp) as [x ->]. destruct (Hf _ He) as [y ->]. cbn [mbind result_bind]. by eexists.
Qed.

(** ** Conforming results pass the guard *)

Lemma same_member d k v : get d k = v → plain v = true → differs d k v = false.
Proof. intros H Hp. by apply differs_plain. Qed.

Lemma strings_plain (l : list string) : plain (JList (JStr <$> l)) = true.
Proof. exact (plain_strs id l). Qed.

Section Conforming.
Context (cs : CorrectionState) (t : ReconTables) (r : ResolutionApplyResult) (b : BoundQueue) (can : string).
Context (e p : list (string * json)).
Context (Hs : cs_schema cs = Ok true) (Hat : bound_at (db_resolution t) (ar_queue_item_id r) b can).
Context (He : ar_audit_evidence r = JDict e) (Hp : ar_payload r = JDict p).
Context (Henv : assert_apply_envelope r b = Ok tt) (Hsay : payload_says (ar_action r) p b can).

Lemma conforming_class : is_classification (ar_action r) = true.
Proof using Hsay. destruct (ar_action r); first [by destruct Hsay|by vm_compute]. Qed.

Lemma conforming_targets : ∃ ts,
  (if bool_decide (ar_action r = ResolutionAction.CONFIRM_MATCH) then match_targets r p else duplicate_targets r p) = Ok ts ∧
  ∀ x, x ∈ ts → x ∈ can :: (app_txn_id <$> bq_app_transactions b).
Proof using Hat He Hp Henv Hsay.
  pose proof (envelope_establishes _ _ _ _ He Hp Henv) as F. destruct (bound_facts _ _ _ _ Hat) as (_&_&Href&Hnem).
  pose proof Hat as (qr&_&_&_&Hne). pose proof (fa_app_ref F) as Happ. rewrite Href in Happ.
  destruct (classification_cases _ conforming_class) as [Ha|Ha]; rewrite Ha in *; cbn [payload_says] in Hsay.
  - change (bool_decide _) with true. cbn iota. destruct Hsay as [H1 H2]. unfold match_targets. rewrite H1. cbn [nonempty_text].
    unfold text_or_none. rewrite Hne, Happ, bool_decide_true by done. exists [can]. split; [|by intros x ->%list_elem_of_singleton; left].
    by apply refuse_then; [rewrite (same_member _ _ _ H2 eq_refl)|].
  - change (bool_decide _) with false. cbn iota. destruct Hsay as (H1&H2&H3&H4&D2&D3&D4). unfold duplicate_targets. rewrite H1, H2.
    set (ids := app_txn_id <$> bq_app_transactions b) in *.
    assert (Hids : duplicate_ids (JList (JStr <$> ids)) = Some ids).
    { unfold duplicate_ids. pose proof (stored_texts_of _ Hnem) as Hx. unfold stored_texts in Hx. fold ids in Hx. rewrite Hx, D3.
      by rewrite (proj2 (Nat.ltb_ge _ _) D2). }
    rewrite Hids, D4, H4, Happ, D4. exists (ids ++ [can]). split; [|intros x [?| ->%list_elem_of_singleton]%elem_of_app; [by right|by left]].
    by apply refuse_then; [rewrite (same_member _ _ _ H3 eq_refl)|].
Qed.

Lemma conforming_bound rows : check_bound_result rows r b p = Ok tt.
Proof using Hat He Hp Henv Hsay.
  pose proof (envelope_establishes _ _ _ _ He Hp Henv) as F. destruct (bound_facts _ _ _ _ Hat) as (Hid&_&Href&_).
  destruct (bound_at_source _ _ _ _ Hat) as [Hb _]. destruct (projection_named b Hb) as (_&_&Hi).
  pose proof (fa_schema F) as Hsch. unfold assert_apply_audit_schema in Hsch. apply bind_Ok in Hsch as ([]&Hk&Hsch).
  apply bind_Ok in Hsch as ([]&Hsrc&_). apply raise_when_Ok, negb_false_iff in Hk. pose proof (source_present _ _ _ _ _ Hk Hsrc Hi) as Hissue.
  destruct (classifies_compatible _ _ (fa_class F)) as [_ Hfit].
  assert (D : ∀ k s, get e k = JStr s → differs e k (JStr s) = false) by (intros k s Hx; by apply differs_plain).
  assert (Hn : note_differs e (text_or_none (ar_note r)) = false).
  { unfold note_differs, get_or_none. rewrite (fa_note_member F). cbn. unfold text_or_none. destruct (str_empty (ar_note r)); cbn; [done|].
    by rewrite String.eqb_refl. }
  unfold check_bound_result, action_fits. rewrite Hfit, He. cbn [negb refuse raise_when mbind result_bind payload_members].
  rewrite (fa_candidate F), (fa_statement_ref F), (fa_app_ref F), String.eqb_refl,
    (bool_decide_true (bq_statement_transaction_ref b = bq_statement_transaction_ref b)),
    (bool_decide_true (bq_app_transaction_ref b = bq_app_transaction_ref b)) by done.
  rewrite <- (fa_candidate F), <- (fa_queue F), (D _ _ (fa_queue_member F)), (D _ _ (fa_candidate_member F)), (D _ _ (fa_action_member F)),
    (D _ _ Hissue), (D _ _ (fa_decision_member F)), (D _ _ (fa_reviewer_member F)), Hn. cbn [negb orb mbind result_bind].
  destruct (classification_cases _ conforming_class) as [Ha|Ha]; rewrite Ha in *; cbn [payload_says] in Hsay; rewrite Href.
  - change (bool_decide _) with false. cbn iota. destruct Hsay as [H1 _]. apply raise_when_Ok. by apply differs_plain.
  - change (bool_decide _) with true. cbn iota. destruct Hsay as (H1&H2&_). apply raise_when_Ok.
    rewrite (same_member _ _ _ H1 (strings_plain _)). by apply differs_plain.
Qed.

(** The verdict is that of the check for corrections, on the transactions of
    the frozen source. *)
Lemma conforming_guarded verdict :
  (∀ l, (∀ x, x ∈ l ↔ x ∈ can :: (app_txn_id <$> bq_app_transactions b)) → refuse_corrected cs l = verdict) →
  guard_successful_apply cs t r = verdict.
Proof using Hs Hat He Hp Henv Hsay.
  intros Hv. pose proof (envelope_establishes _ _ _ _ He Hp Henv) as F. destruct (bound_at_queue _ _ _ _ _ Hs Hat) as [Hq Href].
  assert (Hbasic : assert_apply_basic r = Ok tt) by (pose proof Henv as H; unfold assert_apply_envelope in H; by apply bind_Ok in H as ([]&?&_)).
  destruct conforming_targets as (ts&Hts&Hsub). unfold guard_successful_apply, check_apply_basic, applied_classification, or_conflict.
  rewrite (fa_success F), Hs, conforming_class. cbn [mbind result_bind]. rewrite Hbasic. cbn [catch mbind result_bind andb negb].
  rewrite Hq. cbn [mbind result_bind]. rewrite Henv, Hp. cbn [catch mbind result_bind payload_members]. rewrite Hts. cbn [mbind result_bind].
  rewrite conforming_bound. cbn [mbind result_bind]. apply Hv. intros x.
  rewrite (fa_app_ref F), Href. cbn [option_list]. rewrite !elem_of_app, list_elem_of_singleton, elem_of_cons.
  split; [|tauto]. intros [Hx|[Hx| ->]]; [apply elem_of_cons; by apply Hsub|by right|by left].
Qed.
End Conforming.

(** ** A registered item *)

Lemma build_references item decision refs req i : build_apply_instruction item decision refs req = Ok i →
  check_instruction_references item decision = None.
Proof.
  unfold build_apply_instruction. intros H. apply bind_Ok in H as ([]&_&H). apply bind_Ok in H as ([]&_&H).
  apply bind_Ok in H as ([]&_&H). destruct (validate_resolution_decision _ _) as [compat err].
  apply bind_Ok in H as ([]&_&H). apply bind_Ok in H as ([]&H&_). by destruct (check_instruction_references item decision).
Qed.

(** The item is registered: its row loads as the item itself, but for the
    spelling of its transaction types. *)
Definition registered (t : ResolutionTables) (item : ReviewQueueItem) : Prop :=
  ∃ digest, load_bound_queue true (qt_queue t) (qi_queue_item_id item) = Ok (Some (bound_of (canon_item item) digest)).

Definition candidate_ids (item : ReviewQueueItem) : list string :=
  app_txn_id <$> rc_all_app_transactions (qi_candidate item).

Section Saved.
Context (item : ReviewQueueItem) (decision : ResolutionDecision) (refs : list string) (req : bool).
Context (i : ApplyInstruction) (now : string) (t : ReconTables) (digest : string).
Context (Hnow : require_aware_time now "clock" = Ok tt).
Context (Hbuild : build_apply_instruction item decision refs req = Ok i).
Context (Hpass : passes_validation refs item = true).
Context (Hclass : classifies (rd_action decision) (qi_issue_type item) = true).
Context (Hload : load_bound_queue true (qt_queue (db_resolution t)) (qi_queue_item_id item) =
                 Ok (Some (bound_of (canon_item item) digest))).

Let b : BoundQueue := bound_of (canon_item item) digest.

Lemma item_facts : item_well_formed (canon_item item) ∧ Forall (λ x, str_empty x = false) (candidate_ids item) ∧
  bq_app_transactions b = (canon_app <$> rc_all_app_transactions (qi_candidate item)).
Proof using Hload.
  pose proof Hload as H. apply load_bound_frozen in H as (row&_&Hl). destruct (loaded_row_facts _ _ Hl) as (Hwf&_&_&_&m&Hm).
  cbn [bq_item bound_of] in *. split_and!; [done| |done]. rewrite material_canon in Hm. by eapply material_ids.
Qed.

Lemma same_ids : app_txn_id <$> bq_app_transactions b = candidate_ids item.
Proof using Hload. destruct item_facts as (_&_&->). unfold candidate_ids. rewrite <- list_fmap_compose. by apply list_fmap_ext. Qed.

Lemma best_exists : ∃ best, rc_best_app_transaction (qi_candidate item) = Some best ∧ app_txn_id best ∈ candidate_ids item.
Proof using Hload Hbuild Hclass.
  destruct item_facts as (Hwf&_&_). pose proof (wf_best _ Hwf) as Hbest. cbn [qi_candidate canon_item canon_candidate rc_best_app_transaction rc_all_app_transactions] in Hbest.
  destruct (rc_best_app_transaction (qi_candidate item)) as [best|] eqn:E; cbn in Hbest.
  - exists best. split; [done|]. rewrite <- list_fmap_compose in Hbest. exact Hbest.
  - exfalso. apply fmap_nil_inv in Hbest. pose proof (build_references _ _ _ _ _ Hbuild) as Hr.
    destruct (classifies_compatible _ _ Hclass) as [Hc _]. unfold check_instruction_references in Hr.
    destruct (classification_cases _ Hc) as [Ha|Ha]; rewrite Ha in Hr; cbn in Hr; [by rewrite E in Hr|by rewrite Hbest in Hr].
Qed.

Lemma registered_at : ∃ can, app_ref item = Some can ∧ can ∈ candidate_ids item ∧
  bound_at (db_resolution t) (qi_queue_item_id item) b can.
Proof using Hload Hbuild Hclass.
  destruct best_exists as (best&Hbest&Hin). destruct item_facts as (_&Hne&_). exists (app_txn_id best).
  assert (Happ : app_ref item = Some (app_txn_id best)) by (unfold app_ref; by rewrite Hbest). split_and!; [done|done|].
  apply bound_queue_at; [done| |]; [cbn [b bq_app_transaction_ref bound_of]; by rewrite app_ref_canon|].
  rewrite Forall_forall in Hne. by apply Hne.
Qed.

(** What the payload of the result says. *)
Lemma result_says can : app_ref item = Some can → can ∈ candidate_ids item →
  ∃ p, build_payload_instruction i = JDict p ∧ payload_says (ai_action i) p b can.
Proof using Hload Hbuild Hclass.
  intros Happ Hin. destruct (built_item item decision refs req i Hbuild) as [Hi Ha]. destruct (classifies_compatible _ _ Hclass) as [Hc _].
  unfold build_payload_instruction. rewrite Hi, Ha. unfold app_ref in Happ. destruct (rc_best_app_transaction (qi_candidate item)) as [best|] eqn:Eb; [|done].
  injection Happ as <-. destruct (classification_cases _ Hc) as [Hact|Hact]; rewrite Hact; unfold payload_confirm_match, payload_mark_duplicate; rewrite Eb.
  - eexists. split; [reflexivity|]. cbn [payload_says]. by destruct (st_transaction_date _).
  - eexists. split; [reflexivity|]. cbn [payload_says]. rewrite same_ids. unfold candidate_ids.
    split_and!; try reflexivity; [by cbn; rewrite <- list_fmap_compose|].
    destruct item_facts as (Hwf&_&_). pose proof (wf_candidate_set _ Hwf) as Hnd.
    cbn [qi_candidate canon_item canon_candidate rc_all_app_transactions] in Hnd. rewrite <- list_fmap_compose in Hnd.
    pose proof (build_references _ _ _ _ _ Hbuild) as Hr. unfold check_instruction_references in Hr. rewrite Hact in Hr. cbn in Hr.
    destruct (Z.of_nat (length (rc_all_app_transactions (qi_candidate item))) <? 2) eqn:E2; [done|]. apply Z.ltb_ge in E2.
    split_and!; [rewrite length_fmap; lia|by apply has_duplicates_false|by apply str_in_iff].
Qed.

(** The guard's verdict on the result, first reported or replayed, is that of
    the check for corrections on the item's transactions. *)
Lemma result_guarded cs idempotent verdict : cs_schema cs = Ok true →
  (∀ l, (∀ x, x ∈ l ↔ x ∈ candidate_ids item) → refuse_corrected cs l = verdict) →
  guard_successful_apply cs t
    (apply_result i (build_payload_instruction i) (build_audit_evidence_instruction i now) now idempotent) = verdict.
Proof using Hnow Hload Hbuild Hclass Hpass.
  intros Hs Hv. destruct registered_at as (can&Happ&Hin&Hat). destruct item_facts as (Hwf&_&_).
  destruct (result_says can Happ Hin) as (p&Hp&Hsay).
  destruct (built_ids item decision refs req i Hbuild) as (I1&_).
  assert (Hreasons : rc_reason_codes (qi_candidate item) = qi_reason_codes item) by (symmetry; exact (wf_reasons _ Hwf)).
  pose proof (apply_conforms item decision now refs req i Hnow Hbuild Hpass Hclass Hreasons digest) as Hconf. fold b in Hconf.
  pose proof (first_evidence item decision now refs req i Hbuild) as Hev. cbn [first_result apply_result ar_audit_evidence] in Hev.
  apply (conforming_guarded cs t _ b can (apply_evidence item i now) p Hs); cbn [apply_result ar_queue_item_id ar_audit_evidence ar_payload ar_action]; try done.
  - by rewrite I1.
  - intros l Hl. apply Hv. intros x. rewrite Hl, elem_of_cons, same_ids. split; [|by right]. by intros [->|].
Qed.
End Saved.

(** ** Saving *)

Definition uncorrected (cs : CorrectionState) (item : ReviewQueueItem) : Prop :=
  ∀ x, x ∈ candidate_ids item → has_committed_correction cs x = Ok false.

(** Some transaction of the item is corrected, and the corrections can be
    read. *)
Definition some_corrected (cs : CorrectionState) (item : ReviewQueueItem) : Prop :=
  (∃ x, x ∈ candidate_ids item ∧ has_committed_correction cs x = Ok true) ∧
  ∀ x, x ∈ candidate_ids item → is_ok (has_committed_correction cs x) = true.

Lemma uncorrected_verdict cs item l : uncorrected cs item → (∀ x, x ∈ l ↔ x ∈ candidate_ids item) → refuse_corrected cs l = Ok tt.
Proof. intros Hu Hl. apply refuse_uncorrected. intros x Hx%Hl. by apply Hu. Qed.

Lemma corrected_verdict cs item l : some_corrected cs item → (∀ x, x ∈ l ↔ x ∈ candidate_ids item) → refuse_corrected cs l = Raise corrected.
Proof. intros [(x&Hx&Ht) Hall] Hl. apply (refuse_one _ _ x); [by apply Hl|done|]. intros y Hy%Hl. by apply Hall. Qed.

(** The row of the result, which is also that of its replay but for the mark
    of repetition. *)
Definition marked (row : AppliedRow) : AppliedRow :=
  MkApplied (sa_apply_id row) (sa_decision_id row) (sa_queue_item_id row) (sa_candidate_id row) (sa_action row) (sa_success row) 1
    (sa_payload_json row) (sa_audit_evidence_json row) (sa_statement_reference_json row) (sa_app_transaction_reference_json row)
    (sa_reviewer row) (sa_note row) (sa_fingerprint row) (sa_applied_at row).

Lemma replay_values i now row : applied_values (first_result i now) = Ok row →
  applied_values (replayed_result i (entry_of i now)) = Ok (marked row) ∧ sa_apply_id row = ar_apply_id (first_result i now) ∧
  sa_decision_id row = ar_decision_id (first_result i now) ∧
  ar_apply_id (replayed_result i (entry_of i now)) = ar_apply_id (first_result i now) ∧ same_claim row (marked row) = true.
Proof.
  unfold applied_values, same_claim. intros H. apply bind_Ok in H as (f&Hf&H). apply bind_Ok in H as (p&Hp&H). apply bind_Ok in H as (e&He&[= <-]).
  assert (Hf' : build_fingerprint (replayed_result i (entry_of i now)) = Ok f) by exact Hf.
  rewrite Hf'. cbn [mbind result_bind]. change (ar_payload (replayed_result i (entry_of i now))) with (ar_payload (first_result i now)).
  change (ar_audit_evidence (replayed_result i (entry_of i now))) with (ar_audit_evidence (first_result i now)).
  rewrite Hp. cbn [mbind result_bind]. rewrite He. split_and!; try reflexivity. by apply bool_decide_true.
Qed.

Lemma save_guarded_run cs t r verdict : guard_successful_apply cs t r = verdict →
  save_apply_result cs false r (at_rest t) = match verdict with
    | Ok _ => owned_write false (insert_applied r) (at_rest t) | Raise e => (Raise e, at_rest t) end.
Proof.
  intros H. unfold save_apply_result, owned_write, save_guarded, mbind, db_bind, examine. cbn [cn_tables at_rest]. rewrite H.
  by destruct verdict as [[]|e].
Qed.

Lemma insert_fresh t r row : applied_values r = Ok row → sa_apply_id row = ar_apply_id r → sa_decision_id row = ar_decision_id r →
  existing_row (db_applied t) r = None →
  owned_write false (insert_applied r) (at_rest t) = (Ok true, at_rest (MkRecon (db_resolution t) (db_applied t ++ [row]))).
Proof.
  intros Hv Ha Hd Hnew. unfold existing_row in Hnew. destruct (get_by_apply_id _ _) eqn:E1; [done|].
  unfold owned_write, insert_applied, mbind, db_bind, lift, read. rewrite Hv. cbn [cn_tables at_rest]. unfold existing_row. rewrite E1, Hnew.
  unfold insert_applied_row, execute. rewrite Ha, Hd. cbn [cn_tables at_rest]. by rewrite E1, Hnew.
Qed.

Lemma insert_repeated t r row values : applied_values r = Ok values → get_by_apply_id (db_applied t) (ar_apply_id r) = Some row →
  sa_fingerprint row = sa_fingerprint values → same_claim row values = true →
  owned_write false (insert_applied r) (at_rest t) = (Ok false, at_rest t).
Proof.
  intros Hv Hr Hf Hc. unfold owned_write, insert_applied, mbind, db_bind, lift, read. rewrite Hv. cbn [cn_tables at_rest].
  unfold existing_row. by rewrite Hr, Hf, Hc, String.eqb_refl.
Qed.

Lemma find_appended {A} (f : A → bool) l x : List.find f l = None → f x = true → List.find f (l ++ [x]) = Some x.
Proof. induction l as [|y l IH]; cbn; [by intros _ ->|]. by destruct (f y); [|apply IH]. Qed.

Lemma load_stable t t' id b : extends t t' → load_bound_queue true (qt_queue t) id = Ok (Some b) →
  load_bound_queue true (qt_queue t') id = Ok (Some b).
Proof. intros E (row&Hf&Hl)%load_bound_frozen. apply load_bound_frozen. exists row. split; [by eapply frozen_row_stable|done]. Qed.

(** C34: What the apply runtime reports for a registered item is saved, once,
    and its repetition is recognised for ever.  With migration 051 applied: let
    an item be registered (its row loads as the item itself, in the spelling of
    the enumeration's values), and let the runtime report a classification of
    it.  If its identity is free, saving the result succeeds and appends one
    row.  In every later state, after whatever other resolutions and results,
    the answer of the runtime to a repetition is found stored and changes
    nothing, while no transaction of the item is corrected; and once one is,
    the repetition is refused and nothing changes. *)
Theorem applied_classification_saved item decision refs req i now t digest cs :
  require_aware_time now "clock" = Ok tt → build_apply_instruction item decision refs req = Ok i →
  passes_validation refs item = true → classifies (rd_action decision) (qi_issue_type item) = true →
  load_bound_queue true (qt_queue (db_resolution t)) (qi_queue_item_id item) = Ok (Some (bound_of (canon_item item) digest)) →
  cs_schema cs = Ok true → uncorrected cs item → existing_row (db_applied t) (first_result i now) = None →
  ∃ row, applied_values (first_result i now) = Ok row ∧
    let saved := MkRecon (db_resolution t) (db_applied t ++ [row]) in
    save_apply_result cs false (first_result i now) (at_rest t) = (Ok true, at_rest saved) ∧
    ∀ t' cs', rtc (recon_step any_call any_item any_result) saved t' → cs_schema cs' = Ok true →
      (uncorrected cs' item →
        save_apply_result cs' false (replayed_result i (entry_of i now)) (at_rest t') = (Ok false, at_rest t')) ∧
      (some_corrected cs' item →
        save_apply_result cs' false (replayed_result i (entry_of i now)) (at_rest t') = (Raise corrected, at_rest t')).
Proof.
  intros Hnow Hb Hp Hc Hl Hs Hu Hnew. destruct (built_item _ _ _ _ _ Hb) as [_ Ha].
  destruct (classification_written i now) as [row Hrow]; [rewrite Ha; by destruct (classifies_compatible _ _ Hc)|].
  destruct (replay_values _ _ _ Hrow) as (Hrow'&Ra&Rd&Raa&Hsame). exists row. split; [done|]. split.
  - rewrite (save_guarded_run _ _ _ (Ok tt)); [by apply insert_fresh|].
    apply (result_guarded item decision refs req i now t digest); try done. intros l. by apply uncorrected_verdict.
  - intros t' cs' Hst Hs'. destruct (recon_steps_grow _ _ _ _ _ Hst) as ([E _]&Hpre&_). cbn [db_resolution db_applied] in *.
    assert (Hg : ∀ verdict, (∀ l, (∀ x, x ∈ l ↔ x ∈ candidate_ids item) → refuse_corrected cs' l = verdict) →
      guard_successful_apply cs' t' (replayed_result i (entry_of i now)) = verdict).
    { intros verdict. apply (result_guarded item decision refs req i now t' digest); try done. by eapply load_stable. }
    split; intros Hx.
    + rewrite (save_guarded_run _ _ _ (Ok tt)) by (apply Hg; intros l; by apply uncorrected_verdict).
      apply (insert_repeated _ _ row (marked row)); [done| |done|done]. rewrite Raa. eapply find_prefix; [exact Hpre|].
      apply find_appended; [|by rewrite <- Ra, String.eqb_refl]. unfold existing_row in Hnew. by destruct (get_by_apply_id _ _) eqn:?.
    + by rewrite (save_guarded_run _ _ _ (Raise corrected)) by (apply Hg; intros l; by apply corrected_verdict).
Qed.

(** ** An example *)

(** The first of some items can be confirmed, with a transaction of its own. *)
Definition confirmable (items : list ReviewQueueItem) : bool :=
  match items with
  | item :: _ =>
      is_ok (build_apply_instruction item (sample_decision item) ["ev-1"] true) && passes_validation ["ev-1"] item &&
      classifies ResolutionAction.CONFIRM_MATCH (qi_issue_type item) && negb (bool_decide (candidate_ids item = []))
  | [] => false
  end.

Lemma sample_confirmable : confirmable sample_items = true.
Proof. vm_compute. exact eq_refl. Qed.

(** The tables after a registration load every item of it. *)
Lemma registered_tables items k x item : Forall (λ i, storable i = true) items → persist_review_queue true [] items "run-1" = x →
  is_ok x = true → item ∈ drop k items →
  ∃ digest, load_bound_queue true (qt_queue (match x with Ok (q, _) => MkResTables q [] [] | Raise _ => new_tables end))
    (qi_queue_item_id item) = Ok (Some (bound_of (canon_item item) digest)).
Proof.
  intros Hs Hx Hok Hin. destruct x as [[q n]|]; [|done].
  destruct (registered_loads [] items "run-1" q n item Hs Hx) as (d&Hd&_); [|by exists d].
  rewrite <- (take_drop k items). apply elem_of_app. by right.
Qed.

Lemma applied_classification_saved_witness : ∃ item i row canonical,
  let first := first_result i "2026-07-03T10:00:00+00:00" in
  let again := replayed_result i (entry_of i "2026-07-03T10:00:00+00:00") in
  let saved := MkRecon sample_tables [row] in
  qi_queue_item_id item = ai_queue_item_id i ∧
  save_apply_result no_corrections false first (at_rest (MkRecon sample_tables [])) = (Ok true, at_rest saved) ∧
  save_apply_result no_corrections false again (at_rest saved) = (Ok false, at_rest saved) ∧
  save_apply_result (after_correction canonical) false again (at_rest saved) = (Raise corrected, at_rest saved).
Proof.
  assert (Hnow : require_aware_time "2026-07-03T10:00:00+00:00" "clock" = Ok tt) by (vm_compute; reflexivity).
  pose proof (registered_tables example_queue 3 sample_registered) as Hl.
  rewrite <- sample_items_eq, <- sample_tables_eq in Hl.
  pose proof (λ item, Hl item example_storable eq_refl sample_is_registered) as Hl'. clear Hl. rename Hl' into Hl.
  pose proof sample_confirmable as Hc. revert Hl Hc.
  generalize sample_items, sample_tables. intros items ts Hl Hc. destruct items as [|item items]; [discriminate Hc|].
  unfold confirmable in Hc. apply andb_prop in Hc as [[[Hb Hp]%andb_prop Hcl]%andb_prop Hids%negb_true_iff%bool_decide_eq_false].
  destruct (build_apply_instruction item (sample_decision item) ["ev-1"] true) as [i|e] eqn:Eb; [|discriminate Hb].
  destruct (Hl item) as (digest&Hload); [left|]. clear Hl.
  destruct (applied_classification_saved item (sample_decision item) ["ev-1"] true i "2026-07-03T10:00:00+00:00" (MkRecon ts []) digest
    no_corrections Hnow Eb Hp Hcl Hload eq_refl (λ _ _, eq_refl) eq_refl) as (row&_&Hsave&Hlater).
  destruct (candidate_ids item) as [|can ids] eqn:Ei; [destruct (Hids eq_refl)|]. exists item, i, row, can.
  split; [symmetry; exact (proj1 (built_ids _ _ _ _ _ Eb))|]. split; [exact Hsave|].
  split; [apply (Hlater _ no_corrections (rtc_refl _ _) eq_refl); intros x _; reflexivity|].
  apply (Hlater _ (after_correction can) (rtc_refl _ _) eq_refl). unfold some_corrected. rewrite Ei. split.
  - exists can. split; [left|]. unfold has_committed_correction. cbn. unfold str_in. rewrite bool_decide_true; [reflexivity|].
    apply list_elem_of_singleton. reflexivity.
  - intros x _. unfold has_committed_correction. cbn. destruct (str_in x [can]); reflexivity.
Defined.
