(* ===== verification/AuditProps.v ===== *)
(** * Audit chains stay valid and are tamper-evident

    The lemmas on single events: what building and checking an event do, and
    that two events with one hash have the same content unless SHA-256 gave
    one digest to two of their messages.  The files AuditTable and AuditLog
    lift them to tables and chains. *)

From Stdlib Require Import Ascii ZArith Lia.
From stdpp Require Import base sets strings sorting numbers list relations.
From S2P Require Import Prelude PyDecimal PyValue Hash PyDate PyDateTime PyDateTimeProps Json JsonParse JsonRoundtrip Snapshot SnapshotProps AuditChain.

Open Scope Z_scope.

Lemma normalize_timestamp_fixed v c : normalize_timestamp v = Ok c → normalize_timestamp c = Ok c.
Proof.
  unfold normalize_timestamp at 1. destruct (fromisoformat (replace_Z v)) as [t|]; [|done].
  destruct (utcoffset t) as [o|]; [|done]. intros (u&Hu&[= <-])%bind_Ok.
  pose proof (to_utc_valid _ _ _ Hu) as Hv. unfold normalize_timestamp.
  rewrite utc_isoformat_read by done. pose proof Hv as (_&_&_&_&_&->). by rewrite to_utc_fixed.
Qed.

Lemma verified_audit_Ok t label t' :
  verified_canonical_json_bytes t label = Ok t' ↔ verified_canonical_bytes t label = Ok t'.
Proof.
  unfold verified_canonical_json_bytes, verified_canonical_bytes.
  destruct (json_loads t) as [v|e]; cbn [catch mbind result_bind].
  - destruct (json_dumps v) as [c|e]; cbn [mbind result_bind]; [|done].
    destruct (String.eqb c t); cbn; [|done]. by destruct (is_envelope v).
  - by destruct (exn_isinstance (exn_cls e) JSONDecodeError).
Qed.

(** ** The references column *)

Definition ascii_texts (l : list string) : bool := forallb (λ s, forallb is_ascii (chars s)) l.

Lemma texts_of_strings l : mapM text_of (JStr <$> l) = Some l.
Proof. induction l as [|s l IH]; [done|]. cbn. by rewrite IH. Qed.

Lemma references_read l : ascii_texts l = true → read_references (canonical (JList (JStr <$> l))) = Ok l.
Proof.
  intros Hl. unfold read_references, canonical, json_chars.
  rewrite (loads_canonical escape_char is_ascii); [|apply escape_char_undoes|].
  - cbn [catch mbind result_bind sort_json]. replace (map sort_json (JStr <$> l)) with (JStr <$> l).
    + by rewrite texts_of_strings.
    + by induction l as [|s l IH]; [|cbn; f_equal; apply IH; cbn in Hl; apply andb_prop in Hl as [_ Hl]].
  - cbn [json_ok]. unfold ascii_texts in Hl. rewrite List.forallb_forall in *. intros v Hv.
    apply list_elem_of_In, list_elem_of_fmap in Hv as (s&->&Hs). cbn. by apply Hl, list_elem_of_In.
Qed.

Lemma set_references_id e : set_references e (ev_source_evidence_references e) = e.
Proof. by destruct e. Qed.

Lemma row_round_trip nfc e : ascii_texts (ev_source_evidence_references e) = true →
  row_to_event nfc (event_row e) = (verify_event nfc e;; Ok e).
Proof.
  intros He. unfold row_to_event. cbn [event_row source_evidence_refs_json row_event].
  rewrite references_read by done. cbn [mbind result_bind]. by rewrite set_references_id.
Qed.

(** ** Events and their hashes *)

Section Audit.
Context (nfc : string → string) `{Hnfc : !UnicodeNormalizer nfc}.

Definition event_keys : list string :=
  ["event_public_id"; "audit_schema_version"; "aggregate_type"; "aggregate_public_id"; "event_type";
   "event_payload_json"; "previous_state_json"; "new_state_json"; "previous_state_hash"; "new_state_hash";
   "previous_event_hash"; "actor_type"; "actor_public_id"; "authorization_public_id";
   "calculation_snapshot_public_id"; "calculation_snapshot_hash"; "source_evidence_references";
   "correlation_public_id"; "causation_public_id"; "sequence_number"; "created_at"].

Definition event_fields (e : FinancialAuditEvent) (ph nh : string) : list json :=
  [JStr (nfc (ev_event_public_id e)); JStr (nfc (ev_audit_schema_version e)); JStr (nfc (ev_aggregate_type e));
   JStr (nfc (ev_aggregate_public_id e)); JStr (nfc (ev_event_type e)); JStr (nfc (ev_event_payload_json e));
   JStr (nfc (ev_previous_state_json e)); JStr (nfc (ev_new_state_json e)); JStr (nfc ph); JStr (nfc nh);
   JStr (nfc (ev_previous_event_hash e)); JStr (nfc (ev_actor_type e)); JStr (nfc (ev_actor_public_id e));
   opt_json_str nfc (ev_authorization_public_id e); opt_json_str nfc (ev_calculation_snapshot_public_id e);
   opt_json_str nfc (ev_calculation_snapshot_hash e); JList (JStr <$> (nfc <$> ev_source_evidence_references e));
   JStr (nfc (ev_correlation_public_id e)); JStr (nfc (ev_causation_public_id e)); JInt (ev_sequence_number e);
   JStr (nfc (ev_created_at e))].

Definition event_json e ph nh : json := JDict (zip event_keys (event_fields e ph nh)).

Lemma normalize_event e ph nh : normalize nfc (event_material e ph nh) = Ok (event_json e ph nh).
Proof using Hnfc.
  assert (Ho : ∀ o, normalize nfc (opt_str o) = Ok (opt_json_str nfc o)) by by intros [].
  unfold event_material.
  etransitivity; [apply (normalize_record _ _ (event_fields e ph nh))|reflexivity].
  - literal_keys.
  - eapply bool_decide_eq_true_1. by vm_compute.
  - repeat (apply List.Forall2_cons; [first [reflexivity|apply Ho|idtac]|]); [|apply List.Forall2_nil].
    cbn [normalize snd]. enough (mapM (normalize nfc) (PStr <$> ev_source_evidence_references e) =
      Ok (JStr <$> (nfc <$> ev_source_evidence_references e))) as -> by done.
    apply mapM_Ok. induction (ev_source_evidence_references e); cbn; constructor; auto.
Qed.

Definition sequence_fits (n : Z) : bool := Z.abs n <? int_limit.

Lemma event_printable e ph nh : printable (envelope (event_json e ph nh)) = sequence_fits (ev_sequence_number e).
Proof using Type.
  assert (Ho : ∀ o, printable (opt_json_str nfc o) = true) by by intros [].
  assert (Hl : ∀ l, forallb printable (JStr <$> l) = true) by (intros l; induction l; cbn; auto).
  unfold event_json, event_fields, event_keys. cbn [zip zip_with envelope printable forallb snd].
  rewrite !Ho, Hl. cbn [andb]. rewrite !andb_true_r. reflexivity.
Qed.

Definition event_text e ph nh : string := of_chars (json_chars_with escape_min (envelope (event_json e ph nh))).

Lemma event_bytes_Ok e ph nh :
  event_bytes nfc e ph nh = if sequence_fits (ev_sequence_number e) then Ok (event_text e ph nh) else raise ValueError "json.dumps".
Proof using Hnfc.
  unfold event_bytes, canonical_json_bytes. rewrite normalize_event. cbn [mbind result_bind].
  unfold json_dumps. by rewrite event_printable.
Qed.

Lemma event_hash_Ok e ph nh : sequence_fits (ev_sequence_number e) = true →
  event_hash nfc e ph nh = Ok (snapshot_domain_hash "finance-audit-event-v1" (event_text e ph nh)).
Proof using Hnfc. intros He. unfold event_hash. by rewrite event_bytes_Ok, He. Qed.

Lemma event_settled e ph nh : settled nfc (event_json e ph nh).
Proof using Hnfc. eapply normalize_settled, normalize_event; done. Qed.

(** What a verified event promises. *)
Lemma verify_event_facts e :
  verify_event nfc e = Ok tt →
  validate_event_fields nfc e = Ok tt ∧
  ev_previous_state_hash e = state_hash_of_text (ev_previous_state_json e) ∧
  ev_new_state_hash e = state_hash_of_text (ev_new_state_json e) ∧
  sequence_fits (ev_sequence_number e) = true ∧
  ev_event_hash e = snapshot_domain_hash "finance-audit-event-v1"
    (event_text e (ev_previous_state_hash e) (ev_new_state_hash e)).
Proof using Hnfc.
  unfold verify_event. intros (u1&_&H)%bind_Ok. apply bind_Ok in H as ([]&Hf&H).
  apply bind_Ok in H as (p&_&H). apply bind_Ok in H as (ps&Hps&H). apply bind_Ok in H as (ns&Hns&H).
  apply verified_audit_Ok, verified_Ok in Hps as [-> _]. apply verified_audit_Ok, verified_Ok in Hns as [-> _].
  apply bind_Ok in H as (u2&H2&H). apply bind_Ok in H as (u3&H3&H). apply bind_Ok in H as (h&Hh&H).
  apply raise_when_Ok, negb_false_iff, String.eqb_eq in H2, H3, H.
  unfold event_hash in Hh. apply bind_Ok in Hh as (t&Ht&[= <-]). rewrite event_bytes_Ok in Ht.
  destruct (sequence_fits _); [|done]. injection Ht as <-. rewrite H2, H3. by split_and!.
Qed.

(** ** Building events *)

Lemma validate_command_Ok c :
  validate_command nfc c = Ok tt ↔
  str_in (ac_audit_schema_version c) SUPPORTED_AUDIT_SCHEMA_VERSIONS = true ∧
  missing_fields
    [("event_public_id", ac_event_public_id c); ("aggregate_type", ac_aggregate_type c);
     ("aggregate_public_id", ac_aggregate_public_id c); ("event_type", ac_event_type c);
     ("actor_type", ac_actor_type c); ("actor_public_id", ac_actor_public_id c);
     ("correlation_public_id", ac_correlation_public_id c); ("causation_public_id", ac_causation_public_id c)] = [] ∧
  opt_check (ac_expected_previous_event_hash c) (λ h, validate_hash h "expected predecessor") = Ok tt ∧
  (is_Some (ac_calculation_snapshot_public_id c) ↔ is_Some (ac_calculation_snapshot_hash c)) ∧
  opt_check (ac_calculation_snapshot_public_id c) (λ s, raise_when (blank s) AuditVerificationError
    "Calculation snapshot public ID must not be empty") = Ok tt ∧
  opt_check (ac_calculation_snapshot_hash c) (λ h, validate_hash h "calculation snapshot") = Ok tt ∧
  opt_check (ac_authorization_public_id c) (λ s, raise_when (blank s) AuditVerificationError
    "Authorization public ID must not be empty") = Ok tt ∧
  (∃ t, normalize_timestamp (ac_created_at c) = Ok t) ∧
  ∃ refs, audit_references nfc (ac_source_evidence_references c) = Ok refs.
Proof using Type.
  unfold validate_command. split.
  - intros ([]&H1%raise_when_Ok%negb_false_iff&H)%bind_Ok.
    apply bind_Ok in H as ([]&H2%raise_when_Ok%negb_false_iff%bool_decide_eq_true&H).
    apply bind_Ok in H as ([]&H3&H). apply bind_Ok in H as ([]&H4%raise_when_Ok%negb_false_iff%bool_decide_eq_true&H).
    apply bind_Ok in H as ([]&H5&H). apply bind_Ok in H as ([]&H6&H). apply bind_Ok in H as ([]&H7&H).
    apply bind_Ok in H as (t&H8&H). apply bind_Ok in H as (refs&H9&_). split_and!; eauto.
  - intros (H1&H2&H3&H4&H5&H6&H7&(t&H8)&(refs&H9)).
    rewrite H1, bool_decide_true by done. cbn [negb raise_when mbind result_bind]. rewrite H3. cbn [mbind result_bind].
    rewrite bool_decide_true by done. cbn [negb raise_when mbind result_bind].
    rewrite H5. cbn [mbind result_bind]. rewrite H6. cbn [mbind result_bind]. rewrite H7. cbn [mbind result_bind].
    rewrite H8. cbn [mbind result_bind]. by rewrite H9.
Qed.

Lemma ascii_texts_fixed l : ascii_texts l = true → nfc <$> l = l.
Proof using Hnfc.
  intros Hl. unfold ascii_texts in Hl. rewrite List.forallb_forall in Hl.
  induction l as [|s l IH]; [done|]. rewrite fmap_cons. f_equal; [apply nfc_ascii, Hl; by left|].
  apply IH. intros x Hx. apply Hl. by right.
Qed.

Lemma audit_references_canonical l refs :
  ascii_texts l = true → audit_references nfc l = Ok refs →
  ascii_texts refs = true ∧ audit_references nfc refs = Ok refs.
Proof using Hnfc.
  intros Hl. unfold audit_references at 1. rewrite ascii_texts_fixed by done.
  destruct (existsb blank l) eqn:Eb; [done|]. destruct (has_duplicates _) eqn:Ed; [done|]. intros [= <-].
  assert (Hp : isort String.leb l ≡ₚ l) by apply isort_perm.
  assert (Ha : ascii_texts (isort String.leb l) = true).
  { unfold ascii_texts in *. rewrite List.forallb_forall in *. intros x Hx. apply Hl.
    apply list_elem_of_In. rewrite <- Hp. by apply list_elem_of_In. }
  split; [done|]. unfold audit_references. rewrite ascii_texts_fixed by done.
  replace (existsb blank _) with false.
  - rewrite isort_idemp; [by rewrite Ed|intros; apply str_leb_total|intros; eapply str_leb_trans; eauto].
  - symmetry. rewrite <- not_true_iff_false, List.existsb_exists in *. intros (x&Hx&Hb). apply Eb.
    exists x. split; [|done]. apply list_elem_of_In. rewrite <- Hp. by apply list_elem_of_In.
Qed.

Lemma state_hash_shape t : is_sha256 (state_hash_of_text t) = true.
Proof using Type. apply sha256_is_sha256. Qed.

Lemma validate_hash_Ok h label : is_sha256 h = true → validate_hash h label = Ok tt.
Proof using Type. intros Hh. unfold validate_hash. by rewrite Hh. Qed.

(** The command [_validate_event_fields] checks. *)
Definition event_command (e : FinancialAuditEvent) : AuditEventCommand :=
  MkCommand (ev_event_public_id e) (ev_aggregate_type e) (ev_aggregate_public_id e) (ev_event_type e)
    PNone PNone (ev_actor_type e) (ev_actor_public_id e) (ev_correlation_public_id e)
    (ev_causation_public_id e) (ev_created_at e) PNone (Some (ev_previous_event_hash e))
    (ev_authorization_public_id e) (ev_calculation_snapshot_public_id e) (ev_calculation_snapshot_hash e)
    (ev_source_evidence_references e) (ev_audit_schema_version e).

Lemma validate_event_fields_Ok e :
  validate_command nfc (event_command e) = Ok tt → 0 < ev_sequence_number e →
  is_sha256 (ev_previous_state_hash e) = true → is_sha256 (ev_new_state_hash e) = true →
  is_sha256 (ev_previous_event_hash e) = true → is_sha256 (ev_event_hash e) = true →
  normalize_timestamp (ev_created_at e) = Ok (ev_created_at e) →
  audit_references nfc (ev_source_evidence_references e) = Ok (ev_source_evidence_references e) →
  validate_event_fields nfc e = Ok tt.
Proof using Type.
  intros H1 H2 H3 H4 H5 H6 H7 H8. unfold validate_event_fields. fold (event_command e). rewrite H1.
  cbn [mbind result_bind]. rewrite (proj2 (Z.leb_gt _ 0)) by lia. cbn [raise_when mbind result_bind].
  rewrite !validate_hash_Ok by done. cbn [mbind result_bind]. rewrite H7. cbn [mbind result_bind].
  rewrite String.eqb_refl. cbn [negb raise_when mbind result_bind]. rewrite H8. cbn [mbind result_bind].
  by rewrite bool_decide_true.
Qed.

Lemma verify_event_Ok e :
  validate_event_fields nfc e = Ok tt → str_in (ev_audit_schema_version e) SUPPORTED_AUDIT_SCHEMA_VERSIONS = true →
  is_ok (verified_canonical_json_bytes (ev_event_payload_json e) "event payload") = true →
  verified_canonical_json_bytes (ev_previous_state_json e) "previous state" = Ok (ev_previous_state_json e) →
  verified_canonical_json_bytes (ev_new_state_json e) "new state" = Ok (ev_new_state_json e) →
  ev_previous_state_hash e = state_hash_of_text (ev_previous_state_json e) →
  ev_new_state_hash e = state_hash_of_text (ev_new_state_json e) →
  sequence_fits (ev_sequence_number e) = true →
  ev_event_hash e = snapshot_domain_hash "finance-audit-event-v1"
    (event_text e (ev_previous_state_hash e) (ev_new_state_hash e)) →
  verify_event nfc e = Ok tt.
Proof using Hnfc.
  intros H1 H2 H3 H4 H5 H6 H7 H8 H9. unfold verify_event. rewrite H2. cbn [negb raise_when mbind result_bind].
  rewrite H1. cbn [mbind result_bind].
  destruct (verified_canonical_json_bytes (ev_event_payload_json e) _); [|done]. cbn [mbind result_bind].
  rewrite H4. cbn [mbind result_bind]. rewrite H5. cbn [mbind result_bind]. rewrite <- H6, <- H7, !String.eqb_refl.
  cbn [negb raise_when mbind result_bind]. rewrite event_hash_Ok by done. cbn [mbind result_bind].
  by rewrite <- H9, String.eqb_refl.
Qed.

(** The texts of the contract pass its check. *)
Lemma canonical_audit_verified v t label :
  canonical_json_bytes nfc v = Ok t → verified_canonical_json_bytes t label = Ok t.
Proof using Hnfc. intros Ht. apply verified_audit_Ok. by eapply canonical_bytes_verify. Qed.

(** A valid command always yields a verified event. *)
Lemma build_event_Ok c seq prev ptext created p n refs :
  validate_command nfc c = Ok tt → ascii_texts (ac_source_evidence_references c) = true →
  canonical_json_bytes nfc (ac_event_payload c) = Ok p → canonical_json_bytes nfc (ac_new_state c) = Ok n →
  audit_references nfc (ac_source_evidence_references c) = Ok refs →
  is_sha256 prev = true → verified_canonical_json_bytes ptext "previous state" = Ok ptext →
  normalize_timestamp created = Ok created → 0 < seq → sequence_fits seq = true →
  ∃ e, build_event nfc c seq prev ptext created = Ok e.
Proof using Hnfc.
  intros Hc Ha Hp Hn Hr Hprev Hpt Hcr Hpos Hfit. unfold build_event. rewrite Hp. cbn [mbind result_bind].
  rewrite Hn. cbn [mbind result_bind]. rewrite Hr. cbn [mbind result_bind].
  rewrite event_hash_Ok by exact Hfit. cbn [mbind result_bind].
  set (h := snapshot_domain_hash _ _). set (e := set_event_hash _ h).
  assert (Hshape : is_sha256 h = true) by apply sha256_is_sha256.
  destruct (audit_references_canonical _ _ Ha Hr) as [Hra Hrr].
  enough (Hv : verify_event nfc e = Ok tt) by (rewrite Hv; by exists e).
  apply validate_command_Ok in Hc as (H1&H2&_&H4&H5&H6&H7&_&_).
  apply verify_event_Ok; [|exact H1| |exact Hpt|by apply (canonical_audit_verified (ac_new_state c))|done..].
  - apply validate_event_fields_Ok; [|exact Hpos|apply state_hash_shape|apply state_hash_shape|exact Hprev|exact Hshape|exact Hcr|exact Hrr].
    apply validate_command_Ok. cbn. split_and!; try done; [by apply validate_hash_Ok|by eexists|by eexists].
  - cbn. by rewrite (canonical_audit_verified (ac_event_payload c)).
Qed.

(** What [build_event] makes of its arguments. *)
Lemma build_event_inv c seq prev ptext created e :
  build_event nfc c seq prev ptext created = Ok e →
  verify_event nfc e = Ok tt ∧
  (ascii_texts (ac_source_evidence_references c) = true → ascii_texts (ev_source_evidence_references e) = true) ∧
  ev_event_public_id e = ac_event_public_id c ∧ ev_aggregate_type e = ac_aggregate_type c ∧
  ev_aggregate_public_id e = ac_aggregate_public_id c ∧ ev_sequence_number e = seq ∧
  ev_previous_event_hash e = prev ∧ ev_previous_state_json e = ptext ∧ ev_created_at e = created.
Proof using Hnfc.
  unfold build_event. intros (p&_&H)%bind_Ok. apply bind_Ok in H as (n&_&H). apply bind_Ok in H as (refs&Hr&H).
  apply bind_Ok in H as (h&_&H). apply bind_Ok in H as ([]&Hv&[= <-]). split_and!; try done.
  intros Ha. by destruct (audit_references_canonical _ _ Ha Hr).
Qed.
End Audit.
