(* ===== verification/AuditTable.v ===== *)
(** * The table of audit events

    The invariant of the tables that appending reaches, the effect of one
    append, and the theorems on whole chains. *)

From Stdlib Require Import Ascii ZArith Lia.
From stdpp Require Import base sets strings sorting numbers list relations.
From S2P Require Import Prelude PyDecimal PyValue Hash PyDate PyDateTime PyDateTimeProps Json JsonParse JsonRoundtrip Snapshot SnapshotProps AuditChain AuditProps.

Open Scope Z_scope.

Definition in_aggregate (ty id : string) (e : FinancialAuditEvent) : bool :=
  String.eqb (ev_aggregate_type e) ty && String.eqb (ev_aggregate_public_id e) id.

(** The events of an aggregate, in the order they were recorded. *)
Definition chain_of (events : list FinancialAuditEvent) (ty id : string) : list FinancialAuditEvent :=
  filter (λ e, in_aggregate ty id e = true) events.

Definition head_hash (previous : option FinancialAuditEvent) : string :=
  match previous with None => ZERO_AUDIT_HASH | Some p => ev_event_hash p end.

(** Consecutive events: numbered from [index] on, each with the hash of its
    predecessor and starting from its predecessor's state. *)
Fixpoint linked (previous : option FinancialAuditEvent) (index : Z) (l : list FinancialAuditEvent) : Prop :=
  match l with
  | [] => True
  | e :: l =>
      ev_sequence_number e = index ∧ ev_previous_event_hash e = head_hash previous ∧
      match previous with None => True | Some p => ev_previous_state_hash e = ev_new_state_hash p end ∧
      linked (Some e) (index + 1) l
  end.

Lemma linked_lookup l : ∀ p i k e, linked p i l → l !! k = Some e → ev_sequence_number e = i + Z.of_nat k.
Proof.
  induction l as [|x l IH]; intros p i [|k] e; cbn; try done.
  - intros (H&_) [= <-]. lia.
  - intros (_&_&_&H) Hk. rewrite (IH _ _ _ _ H Hk). lia.
Qed.

Lemma linked_snoc l : ∀ p i e, linked p i l →
  ev_sequence_number e = i + Z.of_nat (length l) →
  ev_previous_event_hash e = head_hash (from_option Some p (last l)) →
  match from_option Some p (last l) with None => True | Some h => ev_previous_state_hash e = ev_new_state_hash h end →
  linked p i (l ++ [e]).
Proof.
  induction l as [|x l IH]; intros p i e; cbn [app linked length last from_option].
  - intros _ Hs Hh Hst. rewrite Z.add_0_r in Hs. by split_and!.
  - intros (H1&H2&H3&Hl) Hs Hh Hst. split_and!; try done. apply IH; [done|lia|..].
    all: assert (E : from_option Some (Some x) (last l) = from_option Some p (last (x :: l)))
           by (rewrite last_cons; by destruct (last l)).
    all: by rewrite E.
Qed.

Lemma linked_app l k : ∀ p i, linked p i (l ++ k) → linked p i l.
Proof. induction l as [|x l IH]; intros p i; cbn; [done|]. intros (H1&H2&H3&Hl). split_and!; eauto. Qed.

Lemma filter_map {A B} (f : A → B) (p : B → bool) (l : list A) :
  filter (λ b, p b = true) (f <$> l) = f <$> filter (λ a, p (f a) = true) l.
Proof.
  induction l as [|a l IH]; [done|]. rewrite fmap_cons, !filter_cons. destruct (decide (p (f a) = true)); [|done].
  rewrite fmap_cons. by f_equal.
Qed.

Lemma linked_sorted l p i : linked p i l → StronglySorted (λ a b, ev_sequence_number a <=? ev_sequence_number b) l.
Proof.
  revert p i. induction l as [|x l IH]; intros p i H; [constructor|]. pose proof H as Hx. cbn in H. destruct H as (H1&_&_&Hl).
  constructor; [by eapply IH|]. apply Forall_forall. intros y Hy. apply list_elem_of_lookup in Hy as [k Hk].
  rewrite (linked_lookup _ _ _ _ _ Hl Hk). apply Is_true_true, Z.leb_le. lia.
Qed.

(** The last event has the largest number. *)
Lemma linked_max l p i x : linked p i l → x ∈ l →
  (∀ y, y ∈ l → ev_sequence_number y <= ev_sequence_number x) → last l = Some x.
Proof.
  intros Hl Hx Hmax. apply list_elem_of_lookup in Hx as [k Hk]. pose proof (lookup_lt_Some _ _ _ Hk).
  destruct (last l) as [z|] eqn:E; [|apply last_None in E; by subst]. rewrite last_lookup in E.
  pose proof (linked_lookup _ _ _ _ _ Hl Hk). pose proof (linked_lookup _ _ _ _ _ Hl E).
  specialize (Hmax z (list_elem_of_lookup_2 _ _ _ E)).
  assert (k = Nat.pred (length l)) as -> by lia. congruence.
Qed.

Section Table.
Context (nfc : string → string) `{Hnfc : !UnicodeNormalizer nfc}.

(** ** Verification of chains *)

Lemma check_link_Ok p i row e :
  check_link nfc p i row = Ok e ↔
  row_to_event nfc row = Ok e ∧ ev_sequence_number e = i ∧ ev_previous_event_hash e = head_hash p ∧
  match p with None => True | Some h => ev_previous_state_hash e = ev_new_state_hash h end.
Proof using Type.
  unfold check_link. split.
  - intros (e'&He&H)%bind_Ok. apply bind_Ok in H as (u1&H1%raise_when_Ok%negb_false_iff%Z.eqb_eq&H).
    apply bind_Ok in H as (u2&H2%raise_when_Ok%negb_false_iff%String.eqb_eq&H).
    apply bind_Ok in H as (u3&H3&[= <-]). split_and!; try done.
    destruct p; [|done]. by apply raise_when_Ok, negb_false_iff, String.eqb_eq in H3.
  - intros (->&H1&H2&H3). cbn [mbind result_bind]. rewrite H1, Z.eqb_refl. cbn [negb raise_when mbind result_bind].
    change (match p with None => ZERO_AUDIT_HASH | Some p => ev_event_hash p end) with (head_hash p).
    rewrite H2, String.eqb_refl. cbn [negb raise_when mbind result_bind].
    destruct p as [h|]; [|done]. by rewrite H3, String.eqb_refl.
Qed.

Lemma verify_rows_linked ty id n rows : ∀ p i events,
  mapM (row_to_event nfc) rows = Ok events → linked p i events →
  verify_rows nfc ty id n p i rows = Ok (MkVerification true ty id n None None None false).
Proof using Type.
  induction rows as [|row rows IH]; intros p i events Hm Hl; [done|].
  cbn [mapM] in Hm. apply bind_Ok in Hm as (e&He&Hm). apply bind_Ok in Hm as (es&Hes&[= <-]).
  cbn in Hl. destruct Hl as (H1&H2&H3&Hl). cbn [verify_rows].
  rewrite (proj2 (check_link_Ok p i row e)) by done. by eapply IH.
Qed.

Lemma verify_rows_valid ty id n rows : ∀ p i v,
  verify_rows nfc ty id n p i rows = Ok v → cv_valid v = true →
  ∃ events, mapM (row_to_event nfc) rows = Ok events ∧ linked p i events.
Proof using Type.
  induction rows as [|row rows IH]; intros p i v; cbn [verify_rows]; [by exists []|].
  destruct (check_link nfc p i row) as [e|x] eqn:E.
  - apply check_link_Ok in E as (He&H1&H2&H3). intros Hv Hvalid. destruct (IH _ _ _ Hv Hvalid) as (es&Hes&Hl).
    exists (e :: es). split; [|by split_and!]. cbn [mapM]. rewrite He. cbn [mbind result_bind]. by rewrite Hes.
  - destruct (malformed _); [|done]. by intros [= <-].
Qed.

Lemma valid_chain_links table ty id v :
  verify_financial_audit_chain nfc table ty id = Ok v → cv_valid v = true →
  ∃ events, list_chain nfc table ty id = Ok events ∧ linked None 1 events.
Proof using Type.
  unfold verify_financial_audit_chain, list_chain.
  destruct (select_chain table ty id) as [|row rows] eqn:E; [by exists []|]. apply verify_rows_valid.
Qed.

(** ** Tables of recorded events *)

Definition recorded_event (e : FinancialAuditEvent) : Prop :=
  verify_event nfc e = Ok tt ∧ ascii_texts (ev_source_evidence_references e) = true.

Record events_ok (events : list FinancialAuditEvent) : Prop := {
  events_recorded : Forall recorded_event events;
  events_distinct : NoDup (ev_event_public_id <$> events);
  events_linked : ∀ ty id, linked None 1 (chain_of events ty id);
}.

Definition table_of (events : list FinancialAuditEvent) : list AuditRow := event_row <$> events.

Lemma recorded_row e : recorded_event e → row_to_event nfc (event_row e) = Ok e.
Proof using Type. intros [Hv Ha]. rewrite row_round_trip by done. by rewrite Hv. Qed.

Lemma recorded_rows l : Forall recorded_event l → mapM (row_to_event nfc) (event_row <$> l) = Ok l.
Proof using Type. intros Hl. apply mapM_Ok. induction Hl; constructor; auto using recorded_row. Qed.

Lemma chain_recorded events ty id : events_ok events → Forall recorded_event (chain_of events ty id).
Proof using Type. intros [H _ _]. apply Forall_forall. intros e [_ He]%list_elem_of_filter. by eapply Forall_forall in H. Qed.

Lemma select_table events ty id : events_ok events →
  select_chain (table_of events) ty id = event_row <$> chain_of events ty id.
Proof using Type.
  intros [_ _ Hl]. unfold select_chain, table_of. rewrite filter_map.
  rewrite (isort_fmap _ (λ a b, ev_sequence_number a <=? ev_sequence_number b)) by done. f_equal.
  eapply isort_sorted_id, linked_sorted, (Hl ty id).
Qed.

Lemma list_table events ty id : events_ok events → list_chain nfc (table_of events) ty id = Ok (chain_of events ty id).
Proof using Type. intros H. unfold list_chain. rewrite select_table by done. by apply recorded_rows, chain_recorded. Qed.

Lemma verify_table events ty id : events_ok events →
  verify_financial_audit_chain nfc (table_of events) ty id =
    Ok (MkVerification true ty id (Z.of_nat (length (chain_of events ty id))) None None None
          (bool_decide (chain_of events ty id = []))).
Proof using Type.
  intros H. unfold verify_financial_audit_chain. rewrite select_table by done.
  destruct (chain_of events ty id) as [|e l] eqn:E; [done|]. rewrite fmap_cons, <- fmap_cons.
  rewrite bool_decide_false by done. cbn [fmap list_fmap length].
  erewrite verify_rows_linked; [by rewrite length_fmap|..].
  - rewrite <- fmap_cons. apply recorded_rows. rewrite <- E. by apply chain_recorded.
  - rewrite <- E. apply H.
Qed.

Lemma head_table events ty id : events_ok events →
  head nfc (table_of events) ty id = Ok (last (chain_of events ty id)).
Proof using Type.
  intros H. unfold head, table_of. rewrite filter_map.
  change (filter (λ a, same_aggregate ty id (event_row a) = true) events) with (chain_of events ty id).
  rewrite (isort_fmap _ (λ a b, ev_sequence_number b <=? ev_sequence_number a)) by done.
  pose proof (isort_ssorted (λ a b, ev_sequence_number b <=? ev_sequence_number a)
    ltac:(intros; rewrite !Z.leb_le; lia) ltac:(intros ???; rewrite !Z.leb_le; lia) (chain_of events ty id)) as Hs.
  pose proof (isort_perm (λ a b, ev_sequence_number b <=? ev_sequence_number a) (chain_of events ty id)) as Hp.
  destruct (isort _ (chain_of events ty id)) as [|x l].
  - symmetry in Hp. apply Permutation_nil_r in Hp. by rewrite Hp.
  - assert (Hx : x ∈ chain_of events ty id) by (rewrite <- Hp; left). cbn [fmap list_fmap hd_error opt_row].
    rewrite recorded_row by (by eapply Forall_forall in Hx; [|apply chain_recorded]). cbn. f_equal. symmetry.
    eapply linked_max; [apply H|done|]. intros y. rewrite <- Hp, elem_of_cons. intros [->|Hy]; [lia|].
    apply StronglySorted_inv in Hs as [_ Hs]. rewrite Forall_forall in Hs. by apply Hs, Is_true_true, Z.leb_le in Hy.
Qed.

Lemma fetch_table events pid : events_ok events →
  fetch nfc (table_of events) pid = Ok (List.find (λ e, String.eqb (ev_event_public_id e) pid) events).
Proof using Type.
  intros [H _ _]. unfold fetch, table_of. induction H as [|e l He _ IH]; [done|]. rewrite fmap_cons. cbn [List.find row_event event_row].
  destruct (String.eqb _ pid); [|done]. cbn [opt_row]. by rewrite recorded_row.
Qed.

(** ** One append *)

(** What the caller's transaction and admission let through. *)
Definition appended := append_financial_audit_event nfc (Ok tt) true.

Lemma append_table events c : events_ok events →
  appended (table_of events) c =
  (validate_command nfc c;;
   match List.find (λ e, String.eqb (ev_event_public_id e) (ac_event_public_id c)) events with
   | Some existing => event ← replay_event nfc c existing; Ok (event, true, table_of events)
   | None =>
       event ← next_event nfc c (last (chain_of events (ac_aggregate_type c) (ac_aggregate_public_id c)));
       rows' ← catch (insert_event nfc (table_of events) event) IntegrityError
                 (λ _, raise AuditChainConflictError "Audit chain append conflicted in SQLite");
       Ok (event, false, rows')
   end).
Proof using Type.
  intros H. unfold appended, append_financial_audit_event. cbn [negb raise_when mbind result_bind].
  destruct (validate_command nfc c) as [[]|]; [|done]. cbn [mbind result_bind].
  rewrite verify_table by done. cbn [mbind result_bind cv_valid negb raise_when].
  rewrite fetch_table by done. cbn [mbind result_bind]. destruct (List.find _ events); [done|].
  by rewrite head_table.
Qed.

Lemma append_allowed allowed tx rows c out :
  append_financial_audit_event nfc allowed tx rows c = Ok out → appended rows c = Ok out.
Proof using Type. unfold append_financial_audit_event. by destruct allowed as [[]|], tx. Qed.

(** The outcome of inserting an event that verifies. *)
Lemma insert_outcome events e : verify_event nfc e = Ok tt →
  catch (insert_event nfc (table_of events) e) IntegrityError
    (λ _, raise AuditChainConflictError "Audit chain append conflicted in SQLite") =
  if existsb (collides e) (table_of events)
  then raise AuditChainConflictError "Audit chain append conflicted in SQLite"
  else Ok (table_of (events ++ [e])).
Proof using Type.
  intros Hv. unfold insert_event. rewrite Hv. cbn [mbind result_bind]. destruct (existsb _ _); [done|].
  cbn. unfold table_of. by rewrite fmap_app.
Qed.

Lemma next_event_inv c h e : next_event nfc c h = Ok e →
  ∃ ptext created, previous_state_text nfc c h = Ok ptext ∧ normalize_timestamp (ac_created_at c) = Ok created ∧
    build_event nfc c (match h with None => 1 | Some h => ev_sequence_number h + 1 end) (head_hash h) ptext created = Ok e.
Proof using Type.
  unfold next_event. intros (u&_&H)%bind_Ok. apply bind_Ok in H as (ptext&Hp&H). apply bind_Ok in H as (t&Ht&H).
  by exists ptext, t.
Qed.

(** The previous state of the next event is the last one recorded. *)
Lemma previous_state_continues c h ptext : verify_event nfc h = Ok tt →
  previous_state_text nfc c (Some h) = Ok ptext → state_hash_of_text ptext = ev_new_state_hash h.
Proof using Hnfc.
  intros (_&_&Hn&_)%(verify_event_facts nfc). unfold previous_state_text.
  destruct (is_none (ac_previous_state c)); [by intros [= <-]|].
  intros (t&Ht&H)%bind_Ok. unfold financial_state_hash in H. rewrite Ht in H. cbn [mbind result_bind] in H.
  apply bind_Ok in H as (u&Hu%raise_when_Ok%negb_false_iff%String.eqb_eq&[= <-]). done.
Qed.

Lemma chain_of_snoc events e ty id :
  chain_of (events ++ [e]) ty id = chain_of events ty id ++ (if in_aggregate ty id e then [e] else []).
Proof using Type. unfold chain_of. rewrite filter_app, filter_cons, filter_nil. by destruct (in_aggregate ty id e). Qed.

Lemma collides_id e events : existsb (collides e) (table_of events) = false →
  ev_event_public_id e ∉ ev_event_public_id <$> events.
Proof using Type.
  intros Hc (x&Hid&Hx)%list_elem_of_fmap. apply not_true_iff_false in Hc. apply Hc, List.existsb_exists.
  exists (event_row x). split; [apply list_elem_of_In, list_elem_of_fmap; eauto|]. unfold collides. cbn.
  by rewrite Hid, String.eqb_refl.
Qed.

Lemma next_event_extends events c e :
  events_ok events → ascii_texts (ac_source_evidence_references c) = true →
  next_event nfc c (last (chain_of events (ac_aggregate_type c) (ac_aggregate_public_id c))) = Ok e →
  existsb (collides e) (table_of events) = false →
  events_ok (events ++ [e]).
Proof using Hnfc.
  intros H Ha (ptext&created&Hp&_&Hb)%next_event_inv Hc.
  destruct (build_event_inv nfc _ _ _ _ _ _ Hb) as (Hv&Hae&Hid&Hty&Hagg&Hseq&Hprev&Htext&_).
  split.
  - apply Forall_app. split; [apply H|]. apply Forall_cons. split; [|done]. split; auto.
  - rewrite fmap_app. apply NoDup_app. split_and!; [apply H| |apply NoDup_singleton].
    intros x Hx ->%list_elem_of_singleton. by eapply collides_id.
  - intros ty id. rewrite chain_of_snoc. destruct (in_aggregate ty id e) eqn:Ein; [|by rewrite app_nil_r; apply H].
    apply andb_prop in Ein as [Et%String.eqb_eq Ei%String.eqb_eq].
    rewrite Hty in Et. rewrite Hagg in Ei. subst ty id.
    set (l := chain_of events _ _) in *. pose proof (events_linked _ H _ _ : linked None 1 l) as Hl.
    assert (Hlast : match last l with
      | None => l = []
      | Some h => recorded_event h ∧ ev_sequence_number h = Z.of_nat (length l) end).
    { destruct (last l) as [h|] eqn:E; [|by apply last_None]. rewrite last_lookup in E. split.
      - eapply Forall_forall; [by apply chain_recorded|by eapply list_elem_of_lookup_2].
      - rewrite (linked_lookup _ _ _ _ _ Hl E). destruct l; [done|cbn; lia]. }
    destruct (verify_event_facts nfc e Hv) as (_&Hps&_).
    apply linked_snoc; [done|..]; destruct (last l) as [h|]; cbn [from_option]; try done.
    + destruct Hlast as [_ Hlast]. lia.
    + by rewrite Hlast, Hseq.
    + rewrite Hps, Htext. destruct Hlast as [[Hvh _] _]. by eapply previous_state_continues.
Qed.

(** Every successful append keeps the table, or adds the next event of one
    chain; either way the command's identifier now names the event it
    returns, and repeating the command would return it again. *)
Lemma append_cases events c e b rows' :
  events_ok events → ascii_texts (ac_source_evidence_references c) = true →
  appended (table_of events) c = Ok (e, b, rows') →
  ∃ added, rows' = table_of (events ++ added) ∧ added = (if b then [] else [e]) ∧ events_ok (events ++ added) ∧
    validate_command nfc c = Ok tt ∧
    ev_event_public_id e = ac_event_public_id c ∧ e ∈ events ++ added ∧ replay_event nfc c e = Ok e.
Proof using Hnfc.
  intros H Ha. rewrite append_table by done. intros ([]&Hval&Hr)%bind_Ok.
  destruct (List.find _ events) as [x|] eqn:Ef.
  - apply bind_Ok in Hr as (y&Hy&[= <- <- <-]). apply List.find_some in Ef as [Hx Hid%String.eqb_eq].
    assert (y = x) as ->.
    { unfold replay_event in Hy. apply bind_Ok in Hy as (p&_&Hy). apply bind_Ok in Hy as (z&_&Hy).
      destruct (bool_decide _); by inv_ok. }
    exists []. rewrite app_nil_r. split_and!; try done. by apply list_elem_of_In.
  - apply bind_Ok in Hr as (y&Hy&Hr). pose proof Hy as (ptext&created&Hp&Ht&Hb)%next_event_inv.
    destruct (build_event_inv nfc _ _ _ _ _ _ Hb) as (Hv&_&Hid&_&_&Hseq&Hprev&Htext&Hcr).
    rewrite insert_outcome in Hr by done. destruct (existsb _ _) eqn:Ec; [done|]. injection Hr as <- <- <-.
    exists [y]. split_and!; [done|done|by eapply next_event_extends|done|done|by apply elem_of_app; right; left|].
    unfold replay_event. rewrite Hseq, Hprev, Htext, Hcr.
    replace (if is_none (ac_previous_state c) then Ok ptext else canonical_json_bytes nfc (ac_previous_state c)) with (Ok ptext).
    + cbn [mbind result_bind]. rewrite Hb. cbn [mbind result_bind]. by rewrite bool_decide_true.
    + unfold previous_state_text in Hp. destruct (is_none _); [done|]. apply bind_Ok in Hp as (t&->&Hp).
      by apply bind_Ok in Hp as (u&_&[= ->]).
Qed.
End Table.
