(* ===== verification/AuditLog.v ===== *)
(** * What the audit chains guarantee

    The theorems on the tables that appending reaches, and the tamper
    evidence of any two tables. *)

From Stdlib Require Import Ascii ZArith Lia.
From stdpp Require Import base sets strings sorting numbers list relations.
From S2P Require Import Prelude PyDecimal PyValue Hash PyDate PyDateTime Json JsonParse JsonRoundtrip Snapshot SnapshotProps AuditChain AuditProps AuditTable.

Open Scope Z_scope.

Section Log.
Variable nfc : string → string.

(** One successful append of a command with ASCII references. *)
Inductive table_step (rows rows' : list AuditRow) : Prop :=
  | appends allowed in_transaction c e idempotent :
      ascii_texts (ac_source_evidence_references c) = true →
      append_financial_audit_event nfc allowed in_transaction rows c = Ok (e, idempotent, rows') →
      table_step rows rows'.

Definition reachable_table (rows : list AuditRow) : Prop := rtc table_step [] rows.

(** What the hash of an event binds, up to Unicode normalisation. *)
Definition event_content (e : FinancialAuditEvent) :
    list string * list (option string) * list string * Z :=
  (map nfc [ev_event_public_id e; ev_audit_schema_version e; ev_aggregate_type e; ev_aggregate_public_id e;
            ev_event_type e; ev_event_payload_json e; ev_previous_state_json e; ev_new_state_json e;
            ev_previous_event_hash e; ev_actor_type e; ev_actor_public_id e; ev_correlation_public_id e;
            ev_causation_public_id e; ev_created_at e],
   map (fmap nfc) [ev_authorization_public_id e; ev_calculation_snapshot_public_id e; ev_calculation_snapshot_hash e],
   map nfc (ev_source_evidence_references e), ev_sequence_number e).

(** The message an event's hash is the digest of. *)
Definition event_message (e : FinancialAuditEvent) : list Z :=
  match event_bytes nfc e (ev_previous_state_hash e) (ev_new_state_hash e) with
  | Ok t => hashed_bytes "finance-audit-event-v1" t
  | Raise _ => []
  end.

(** SHA-256 tells the messages of two chains apart. *)
Definition no_collision (l l' : list FinancialAuditEvent) : Prop :=
  Forall (λ e, Forall (λ e', sha256 (event_message e) = sha256 (event_message e') →
    event_message e = event_message e') l') l.

Context `{Hnfc : !UnicodeNormalizer nfc}.

Lemma empty_table_ok : events_ok nfc [].
Proof using Type. split; [constructor|constructor|done]. Qed.

Lemma steps_ok rows rows' events : rtc table_step rows rows' → rows = table_of events → events_ok nfc events →
  ∃ added, rows' = table_of (events ++ added) ∧ events_ok nfc (events ++ added).
Proof using Hnfc.
  intros Hs. revert events. induction Hs as [rows|rows rows1 rows' [allowed tx c e b Ha Hc] _ IH]; intros events -> Hok.
  - exists []. by rewrite app_nil_r.
  - apply append_allowed in Hc. apply append_cases in Hc as (a&->&_&Hok1&_); [|done..].
    destruct (IH (events ++ a) eq_refl Hok1) as (k&->&Hk). exists (a ++ k). by rewrite app_assoc.
Qed.

Lemma reachable_events rows : reachable_table rows → ∃ events, rows = table_of events ∧ events_ok nfc events.
Proof using Hnfc.
  intros H. destruct (steps_ok _ _ [] H eq_refl empty_table_ok) as (l&->&Hl). by exists l.
Qed.

(** ** Two chains with one head *)

Lemma sha256_fixed h : is_sha256 h = true → nfc h = h.
Proof using Hnfc.
  intros [_ H]%andb_prop. apply nfc_ascii. apply List.forallb_forall. rewrite List.forallb_forall in H.
  intros c Hc%H. by destruct c as [[] [] [] [] [] [] [] []].
Qed.

Lemma event_json_inj e e' ph nh ph' nh' :
  sort_json (event_json nfc e ph nh) = sort_json (event_json nfc e' ph' nh') → event_content e = event_content e'.
Proof using Type.
  assert (Ho : ∀ o, sort_json (opt_json_str nfc o) = opt_json_str nfc o) by by intros [].
  unfold event_json, event_fields, event_keys. cbn [zip zip_with sort_json map]. rewrite !Ho. intros H. cbn in H.
  injection H as H1 H2 H3 H4 H5 H6 H7 H8 H9 H10 H11 H12 H13 H14 H15 H16 H17 H18 H19 H20 H21.
  apply opt_json_inj in H6, H7, H8. apply strs_inj in H21.
  change (map nfc (ev_source_evidence_references e) = map nfc (ev_source_evidence_references e')) in H21.
  unfold event_content. cbn [map]. by rewrite H1, H2, H3, H4, H5, H6, H7, H8, H9, H10, H11, H12, H13, H14, H16, H17, H19, H20, H21.
Qed.

Lemma event_message_eq e : verify_event nfc e = Ok tt →
  event_message e = hashed_bytes "finance-audit-event-v1"
    (event_text nfc e (ev_previous_state_hash e) (ev_new_state_hash e)) ∧
  is_sha256 (ev_previous_event_hash e) = true.
Proof using Hnfc.
  intros (Hf&_&_&Hfit&_)%(verify_event_facts nfc). unfold event_message.
  rewrite event_bytes_Ok by done. rewrite Hfit. split; [done|].
  unfold validate_event_fields in Hf. apply bind_Ok in Hf as ([]&Hc&_). apply validate_command_Ok in Hc as (_&_&Hh&_).
  cbn in Hh. unfold validate_hash in Hh. by apply raise_when_Ok, negb_false_iff in Hh.
Qed.

(** Verified events with one hash have one content. *)
Lemma same_hash_same_event e e' :
  verify_event nfc e = Ok tt → verify_event nfc e' = Ok tt →
  (sha256 (event_message e) = sha256 (event_message e') → event_message e = event_message e') →
  ev_event_hash e = ev_event_hash e' →
  event_content e = event_content e' ∧ ev_previous_event_hash e = ev_previous_event_hash e'.
Proof using Hnfc.
  intros Hv Hv' Hcf Heq. destruct (event_message_eq e Hv) as [Hm Hp]. destruct (event_message_eq e' Hv') as [Hm' Hp'].
  destruct (verify_event_facts nfc e Hv) as (_&_&_&Hf&Hh).
  destruct (verify_event_facts nfc e' Hv') as (_&_&_&Hf'&Hh').
  rewrite Hm, Hm' in Hcf. rewrite Hh, Hh' in Heq. apply (same_digest _ _ _ Hcf) in Heq.
  assert (Hc : event_content e = event_content e').
  { eapply event_json_inj, sort_envelope_inj, dumps_inj; [apply envelope_plain, (settled_plain nfc), event_settled; done..| |].
    - apply json_dumps_Ok. split; [|reflexivity]. rewrite event_printable. exact Hf.
    - apply json_dumps_Ok. split; [|exact Heq]. rewrite event_printable. exact Hf'. }
  split; [done|]. unfold event_content in Hc. injection Hc. intros. rewrite <- (sha256_fixed _ Hp), <- (sha256_fixed _ Hp'). done.
Qed.

Lemma linked_last l p i e : linked p i (l ++ [e]) →
  ev_sequence_number e = i + Z.of_nat (length l) ∧ ev_previous_event_hash e = head_hash (from_option Some p (last l)).
Proof using Type.
  revert p i. induction l as [|x l IH]; intros p i; cbn [app linked length]; [intros (?&?&_); split; [lia|done]|].
  intros (_&_&_&H). destruct (IH _ _ H) as [H1 H2]. split; [lia|]. rewrite H2, last_cons. by destruct (last l).
Qed.

(** Two linked chains that end in one hash agree event by event. *)
Lemma linked_agree l : ∀ l', Forall (λ e, verify_event nfc e = Ok tt) l → Forall (λ e, verify_event nfc e = Ok tt) l' →
  linked None 1 l → linked None 1 l' → no_collision l l' → (l = [] ↔ l' = []) →
  head_hash (last l) = head_hash (last l') → event_content <$> l = event_content <$> l'.
Proof using Hnfc.
  induction l as [|e l IH] using rev_ind; intros l' Hv Hv' Hl Hl' Hcf Hnil Hh.
  - by rewrite (proj1 Hnil eq_refl).
  - destruct l' as [|e' l' _] using rev_ind; [by pose proof (proj2 Hnil eq_refl) as Hx; destruct l|].
    rewrite !last_snoc in Hh. cbn [head_hash] in Hh.
    apply Forall_app in Hv as [Hv He]. apply Forall_app in Hv' as [Hv' He'].
    apply Forall_app in Hcf as [Hcf Hce]. rewrite Forall_singleton in Hce, He, He'.
    apply Forall_app in Hce as [_ Hce]. rewrite Forall_singleton in Hce.
    destruct (same_hash_same_event e e' He He' Hce Hh) as [Hc Hprev].
    destruct (linked_last _ _ _ _ Hl) as [Hs Hp], (linked_last _ _ _ _ Hl') as [Hs' Hp'].
    assert (Hlen : length l = length l') by (unfold event_content in Hc; injection Hc; lia).
    rewrite !fmap_app. f_equal; [|by rewrite !list_fmap_singleton, Hc].
    apply IH; try done.
    + by eapply linked_app.
    + by eapply linked_app.
    + eapply Forall_impl; [exact Hcf|]. intros x Hx. by apply Forall_app in Hx as [Hx _].
    + destruct l, l'; done.
    + rewrite Hp, Hp' in Hprev. by destruct (last l), (last l').
Qed.
End Log.

(** The head of a chain is what the command expects it to be. *)
Definition fits_head (nfc : string → string) (c : AuditEventCommand) (head : option FinancialAuditEvent) : Prop :=
  match ac_expected_previous_event_hash c with Some h => h = head_hash head | None => True end ∧
  (is_none (ac_previous_state c) = false →
   ∃ digest, financial_state_hash nfc (ac_previous_state c) = Ok digest ∧
     match head with Some h => digest = ev_new_state_hash h | None => True end).

Section Accept.
Context (nfc : string → string) `{Hnfc : !UnicodeNormalizer nfc}.

Lemma row_event_verified row e : row_to_event nfc row = Ok e → verify_event nfc e = Ok tt.
Proof using Type. intros (refs&_&H)%bind_Ok. by apply bind_Ok in H as ([]&Hv&[= <-]). Qed.

Lemma new_state_verified h : verify_event nfc h = Ok tt →
  verified_canonical_json_bytes (ev_new_state_json h) "previous state" = Ok (ev_new_state_json h).
Proof using Type.
  unfold verify_event. intros (u1&_&H)%bind_Ok. apply bind_Ok in H as (u2&_&H). apply bind_Ok in H as (u3&_&H).
  apply bind_Ok in H as (u4&_&H). apply bind_Ok in H as (t&Ht&_). apply verified_audit_Ok. apply verified_audit_Ok in Ht.
  by pose proof Ht as [-> _]%verified_Ok.
Qed.

Lemma previous_state_accepted c head :
  (∀ h, head = Some h → verify_event nfc h = Ok tt) → fits_head nfc c head →
  ∃ ptext, previous_state_text nfc c head = Ok ptext ∧
    verified_canonical_json_bytes ptext "previous state" = Ok ptext.
Proof using Hnfc.
  intros Hh [_ Hp]. unfold previous_state_text. destruct (is_none (ac_previous_state c)) eqn:E.
  - destruct head as [h|]; [exists (ev_new_state_json h); split; [done|by apply new_state_verified, Hh]|].
    assert (∃ t, canonical_json_bytes nfc PNone = Ok t) as [t Ht] by by eexists.
    exists t. split; [done|]. by eapply canonical_audit_verified.
  - destruct (Hp eq_refl) as (d&Hd&Hm). pose proof Hd as (t&Ht&_)%bind_Ok. exists t. rewrite Ht. cbn [mbind result_bind].
    split; [|by eapply canonical_audit_verified]. destruct head as [h|]; [|done]. rewrite Hd. cbn [mbind result_bind].
    by rewrite Hm, String.eqb_refl.
Qed.

Lemma next_event_accepted c head seq p n :
  (∀ h, head = Some h → verify_event nfc h = Ok tt) → fits_head nfc c head →
  validate_command nfc c = Ok tt → ascii_texts (ac_source_evidence_references c) = true →
  canonical_json_bytes nfc (ac_event_payload c) = Ok p → canonical_json_bytes nfc (ac_new_state c) = Ok n →
  match head with None => 1 | Some h => ev_sequence_number h + 1 end = seq →
  0 < seq → sequence_fits seq = true →
  ∃ e, next_event nfc c head = Ok e.
Proof using Hnfc.
  intros Hh Hfit Hval Ha Hp Hn Hseq Hpos Hsf.
  destruct (previous_state_accepted c head Hh Hfit) as (ptext&Hpt&Hver).
  pose proof Hval as (_&_&_&_&_&_&_&(t&Ht)&refs&Hr)%validate_command_Ok.
  assert (Hshape : is_sha256 (head_hash head) = true).
  { destruct head as [h|]; [|done]. destruct (verify_event_facts nfc h (Hh h eq_refl)) as (_&_&_&_&E).
    cbn. rewrite E. apply sha256_is_sha256. }
  destruct (build_event_Ok nfc c seq (head_hash head) ptext t p n refs) as (e&He);
    try done; [by eapply normalize_timestamp_fixed|].
  exists e. unfold next_event. destruct Hfit as [Hexp _].
  change (match head with None => ZERO_AUDIT_HASH | Some h => ev_event_hash h end) with (head_hash head).
  replace (opt_check _ _) with (Ok tt : result unit).
  - cbn [mbind result_bind]. rewrite Hpt. cbn [mbind result_bind]. rewrite Ht. cbn [mbind result_bind]. by rewrite Hseq.
  - destruct (ac_expected_previous_event_hash c); [|done]. cbn. by rewrite Hexp, String.eqb_refl.
Qed.

Lemma chain_length events ty id : (length (chain_of events ty id) <= length events)%nat.
Proof using Type. apply length_filter. Qed.
End Accept.

(** ** The properties *)

(** C12: In every table that appending reaches, every chain verifies: whatever
    is appended next, the rows already there stay as they are, the chain of
    the event's aggregate gains exactly that event at its end (or nothing,
    for a replay), every other chain stays the same, and
    [verify_financial_audit_chain] reports every chain valid and complete. *)
Theorem reachable_chains_verify (nfc : string → string) allowed in_transaction rows c e idempotent rows'
    `{!UnicodeNormalizer nfc}
    (Hreach : reachable_table nfc rows)
    (Hascii : ascii_texts (ac_source_evidence_references c) = true)
    (Happend : append_financial_audit_event nfc allowed in_transaction rows c = Ok (e, idempotent, rows')) :
  (∃ added, rows' = rows ++ added) ∧
  ∀ ty id, ∃ l l', list_chain nfc rows ty id = Ok l ∧ list_chain nfc rows' ty id = Ok l' ∧
    l' = l ++ (if negb idempotent && in_aggregate ty id e then [e] else []) ∧
    verify_financial_audit_chain nfc rows' ty id =
      Ok (MkVerification true ty id (Z.of_nat (length l')) None None None (bool_decide (l' = []))).
Proof.
  destruct (reachable_events nfc rows Hreach) as (events&->&Hok).
  apply append_allowed, append_cases in Happend as (added&->&Hadded&Hok'&_); [|done..]. split.
  - exists (event_row <$> added). unfold table_of. by rewrite fmap_app.
  - intros ty id. exists (chain_of events ty id), (chain_of (events ++ added) ty id).
    split_and!; [by apply list_table|by apply list_table| |by apply verify_table].
    rewrite Hadded. destruct idempotent; cbn [negb andb]; [by rewrite !app_nil_r|apply chain_of_snoc].
Qed.

(** A command that opens a receipt's chain. *)
Definition first_command : AuditEventCommand :=
  MkCommand "event-1" "receipt" "receipt-1" "finalized" (record [("total", PInt 1050)]) (PStr "open")
    "user" "user-1" "corr-1" "cause-1" "2024-05-01T10:00:00+08:00" PNone None (Some "auth-1") None None
    ["ref-b"; "ref-a"] "v1".

Definition no_event : FinancialAuditEvent :=
  MkEvent "" "" "" "" "" "" "" "" "" "" "" "" "" "" None None None [] "" "" 0 "".
Definition table_after (rows : list AuditRow) (c : AuditEventCommand) : FinancialAuditEvent * bool * list AuditRow :=
  match append_financial_audit_event id (Ok tt) true rows c with Ok out => out | Raise _ => (no_event, true, rows) end.
Definition first_append : FinancialAuditEvent * bool * list AuditRow := Eval vm_compute in table_after [] first_command.

Lemma first_append_Ok : append_financial_audit_event id (Ok tt) true [] first_command = Ok first_append.
Proof. vm_cast_no_check (eq_refl (Ok first_append : result (FinancialAuditEvent * bool * list AuditRow))). Qed.

Lemma reachable_chains_verify_witness :
  (∃ added, first_append.2 = [] ++ added) ∧
  ∀ ty id', ∃ l l', list_chain id [] ty id' = Ok l ∧ list_chain id first_append.2 ty id' = Ok l' ∧
    l' = l ++ (if negb first_append.1.2 && in_aggregate ty id' first_append.1.1 then [first_append.1.1] else []) ∧
    verify_financial_audit_chain id first_append.2 ty id' =
      Ok (MkVerification true ty id' (Z.of_nat (length l')) None None None (bool_decide (l' = []))).
Proof.
  exact (reachable_chains_verify id (Ok tt) true [] first_command first_append.1.1 first_append.1.2 first_append.2 (rtc_refl _ _) eq_refl first_append_Ok).
Defined.

(** C17: The log accepts every command that continues its chain: on a reachable
    table, a valid command with a new identifier whose values serialise and
    which expects the current head and state of its chain is recorded as the
    next event of that chain, linked to the head by its hash; the one way to
    fail is a collision with an event already recorded, which raises
    [AuditChainConflictError]. *)
Theorem append_accepts (nfc : string → string) rows c l
    `{!UnicodeNormalizer nfc}
    (Hreach : reachable_table nfc rows)
    (Hlist : list_chain nfc rows (ac_aggregate_type c) (ac_aggregate_public_id c) = Ok l)
    (Hvalid : validate_command nfc c = Ok tt)
    (Hascii : ascii_texts (ac_source_evidence_references c) = true)
    (Hfresh : Forall (λ r, ev_event_public_id (row_event r) ≠ ac_event_public_id c) rows)
    (Hpayload : is_ok (canonical_json_bytes nfc (ac_event_payload c)) = true)
    (Hstate : is_ok (canonical_json_bytes nfc (ac_new_state c)) = true)
    (Hfits : fits_head nfc c (last l))
    (Hsize : sequence_fits (Z.of_nat (length rows) + 1) = true) :
  ∃ e, ev_sequence_number e = Z.of_nat (length l) + 1 ∧ ev_previous_event_hash e = head_hash (last l) ∧
    append_financial_audit_event nfc (Ok tt) true rows c =
      if existsb (collides e) rows then raise AuditChainConflictError "Audit chain append conflicted in SQLite"
      else Ok (e, false, rows ++ [event_row e]).
Proof.
  destruct (reachable_events nfc rows Hreach) as (events&->&Hok).
  rewrite list_table in Hlist by done. injection Hlist as <-.
  set (l := chain_of _ _ _) in *. pose proof (events_linked _ _ Hok _ _ : linked None 1 l) as Hl.
  destruct (canonical_json_bytes nfc (ac_event_payload c)) as [p|] eqn:Hp; [|done].
  destruct (canonical_json_bytes nfc (ac_new_state c)) as [n|] eqn:Hn; [|done].
  assert (Hseq : match last l with None => 1 | Some h => ev_sequence_number h + 1 end = Z.of_nat (length l) + 1).
  { destruct (last l) as [h|] eqn:E; [|by apply last_None in E as ->]. rewrite last_lookup in E.
    rewrite (linked_lookup _ _ _ _ _ Hl E). destruct l; [done|cbn; lia]. }
  assert (Hh : ∀ h, last l = Some h → verify_event nfc h = Ok tt).
  { intros h Hh. rewrite last_lookup in Hh. eapply (Forall_forall (recorded_event nfc)); [by apply chain_recorded|].
    by eapply list_elem_of_lookup_2. }
  destruct (next_event_accepted nfc c (last l) (Z.of_nat (length l) + 1) p n) as (e&He); try done.
  - lia.
  - pose proof (chain_length events (ac_aggregate_type c) (ac_aggregate_public_id c)).
    unfold sequence_fits in *. unfold table_of in Hsize. rewrite length_fmap in Hsize.
    rewrite Z.ltb_lt in *. fold l in H. lia.
  - exists e. pose proof He as (ptext&created&_&_&Hb)%next_event_inv.
    destruct (build_event_inv nfc _ _ _ _ _ _ Hb) as (Hv&_&_&_&_&Hs&Hprev&_).
    split_and!; [by rewrite Hs, Hseq|done|].
    change (append_financial_audit_event nfc (Ok tt) true) with (appended nfc). rewrite append_table by done.
    rewrite Hvalid. cbn [mbind result_bind].
    replace (List.find _ events) with (@None FinancialAuditEvent).
    + fold l. rewrite He. cbn [mbind result_bind]. rewrite insert_outcome by done.
      destruct (existsb _ _); [done|]. cbn. unfold table_of. by rewrite fmap_app.
    + symmetry. destruct (List.find _ events) as [x|] eqn:Ef; [|done]. exfalso.
      apply List.find_some in Ef as [Hx Hid%String.eqb_eq]. rewrite Forall_forall in Hfresh.
      apply (Hfresh (event_row x)); [|done]. by apply list_elem_of_fmap_2, list_elem_of_In.
Qed.

Lemma append_accepts_witness :
  ∃ e, ev_sequence_number e = 1 ∧ ev_previous_event_hash e = ZERO_AUDIT_HASH ∧
    append_financial_audit_event id (Ok tt) true [] first_command = Ok (e, false, [event_row e]).
Proof.
  exact (append_accepts id [] first_command [] (rtc_refl _ _) eq_refl
    ltac:(by vm_compute) eq_refl (List.Forall_nil _) eq_refl eq_refl ltac:(by split) eq_refl).
Defined.

(** Appending is idempotent for ever: once a command has been recorded,
    then after any further appends, repeating it returns the event recorded
    the first time, marked as a replay, and leaves the table as it is. *)
Theorem append_replays (nfc : string → string) allowed in_transaction rows c e idempotent rows1 rows2
    `{!UnicodeNormalizer nfc}
    (Hreach : reachable_table nfc rows)
    (Hascii : ascii_texts (ac_source_evidence_references c) = true)
    (Happend : append_financial_audit_event nfc allowed in_transaction rows c = Ok (e, idempotent, rows1))
    (Hlater : rtc (table_step nfc) rows1 rows2) :
  append_financial_audit_event nfc (Ok tt) true rows2 c = Ok (e, true, rows2).
Proof.
  destruct (reachable_events nfc rows Hreach) as (events&->&Hok).
  apply append_allowed, append_cases in Happend as (added&->&_&Hok'&Hval&Hid&He&Hreplay); [|done..].
  destruct (steps_ok nfc _ _ _ Hlater eq_refl Hok') as (later&->&Hok2).
  change (append_financial_audit_event nfc (Ok tt) true) with (appended nfc). rewrite append_table by done.
  rewrite Hval. cbn [mbind result_bind]. set (all := (events ++ added) ++ later) in *.
  assert (Hin : e ∈ all) by by apply elem_of_app; left.
  destruct (List.find _ all) as [x|] eqn:Ef.
  - apply List.find_some in Ef as [Hx Hxid%String.eqb_eq].
    assert (x = e) as ->.
    { eapply (same_id_eq ev_event_public_id all); [apply Hok2|by apply list_elem_of_In|done|congruence]. }
    by rewrite Hreplay.
  - exfalso. apply list_elem_of_In in Hin. pose proof (List.find_none _ _ Ef e Hin) as Hf. cbn in Hf.
    by rewrite Hid, String.eqb_refl in Hf.
Qed.

Lemma append_replays_witness :
  append_financial_audit_event id (Ok tt) true first_append.2 first_command = Ok (first_append.1.1, true, first_append.2).
Proof.
  exact (append_replays id (Ok tt) true [] first_command first_append.1.1 first_append.1.2 first_append.2 first_append.2 (rtc_refl _ _) eq_refl first_append_Ok (rtc_refl _ _)).
Defined.

(** C3: A chain is tamper-evident: when verification reports two chains valid
    — in any two tables, whoever wrote them — and their last events carry the
    same hash, the chains have the same length and event by event the same
    content (up to Unicode normalisation), unless SHA-256 gave one digest to
    two different messages of theirs.  So no event can be changed, dropped,
    inserted or reordered behind a known head. *)
Theorem chain_tamper_evident (nfc : string → string) table table' ty id ty' id' v v' l l'
    `{!UnicodeNormalizer nfc}
    (Hverify : verify_financial_audit_chain nfc table ty id = Ok v) (Hvalid : cv_valid v = true)
    (Hverify' : verify_financial_audit_chain nfc table' ty' id' = Ok v') (Hvalid' : cv_valid v' = true)
    (Hlist : list_chain nfc table ty id = Ok l) (Hlist' : list_chain nfc table' ty' id' = Ok l')
    (Hcollision : no_collision nfc l l')
    (Hhead : ev_event_hash <$> last l = ev_event_hash <$> last l') :
  event_content nfc <$> l = event_content nfc <$> l'.
Proof.
  assert (Hall : ∀ t ty id l, list_chain nfc t ty id = Ok l → Forall (λ e, verify_event nfc e = Ok tt) l).
  { intros t a b k Hk%mapM_Ok. apply Forall_forall. intros e [i Hi]%list_elem_of_lookup.
    destruct (Forall2_lookup_r _ _ _ _ _ Hk Hi) as (row&_&Hr). by eapply row_event_verified. }
  destruct (valid_chain_links nfc _ _ _ _ Hverify Hvalid) as (k&Hk&Hl).
  destruct (valid_chain_links nfc _ _ _ _ Hverify' Hvalid') as (k'&Hk'&Hl').
  rewrite Hlist in Hk. rewrite Hlist' in Hk'. injection Hk as <-. injection Hk' as <-.
  apply linked_agree; eauto.
  - split; intros ->; apply last_None; [by destruct (last l')|by destruct (last l)].
  - by destruct (last l), (last l'); [injection Hhead|..].
Qed.

(** The same event, in a table whose references column is spaced
    differently. *)
Definition spaced_row : AuditRow :=
  MkRow first_append.1.1 (of_chars (chars "[ " ++ dquote :: chars "ref-a" ++ dquote :: chars " , " ++
    dquote :: chars "ref-b" ++ dquote :: chars " ]")).

Lemma first_event_recorded : events_ok id [first_append.1.1].
Proof.
  destruct (append_cases id [] first_command first_append.1.1 first_append.1.2
    first_append.2 (empty_table_ok id) eq_refl first_append_Ok) as (added&_&->&Hok&_). exact Hok.
Qed.

Lemma spaced_row_read : row_to_event id spaced_row = Ok first_append.1.1.
Proof.
  unfold row_to_event. change (read_references (source_evidence_refs_json spaced_row)) with (Ok ["ref-a"; "ref-b"]).
  cbn [mbind result_bind]. change (set_references _ _) with first_append.1.1.
  destruct first_event_recorded as [[[Hv _] _]%Forall_cons _ _]. by rewrite Hv.
Qed.

Lemma spaced_chain :
  list_chain id [spaced_row] "receipt" "receipt-1" = Ok [first_append.1.1] ∧
  verify_financial_audit_chain id [spaced_row] "receipt" "receipt-1" =
    Ok (MkVerification true "receipt" "receipt-1" 1 None None None false).
Proof.
  assert (Hm : mapM (row_to_event id) [spaced_row] = Ok [first_append.1.1])
    by (cbn [mapM]; rewrite spaced_row_read; reflexivity).
  unfold list_chain, verify_financial_audit_chain.
  replace (select_chain [spaced_row] "receipt" "receipt-1") with [spaced_row] by by vm_compute.
  split; [exact Hm|]. apply (verify_rows_linked _ _ _ _ _ _ _ _ Hm).
  split; [reflexivity|]. split; [reflexivity|]. by split.
Qed.

Lemma chain_tamper_evident_witness :
  event_content id <$> [first_append.1.1] = event_content id <$> [first_append.1.1].
Proof.
  exact (chain_tamper_evident id first_append.2 [spaced_row] "receipt" "receipt-1" "receipt" "receipt-1" _ _ _ _ (verify_table id [first_append.1.1] "receipt" "receipt-1" first_event_recorded) eq_refl
    (proj2 spaced_chain) eq_refl (list_table id [first_append.1.1] "receipt" "receipt-1" first_event_recorded)
    (proj1 spaced_chain)
    (List.Forall_cons _ _ _ (List.Forall_cons _ _ _ (λ H, eq_refl) (List.Forall_nil _)) (List.Forall_nil _)) eq_refl).
Defined.
