(* ===== verification/Lifecycle.v ===== *)
(** * The life of a parser proposal

    parser_proposals/lifecycle.py: the statuses a proposal passes through from
    parsing to a human decision, the transitions the code allows, and the
    coarse status of the raw intake record behind it. *)

From Stdlib Require Import ZArith Lia Wellfounded.
From stdpp Require Import base sets strings sorting numbers list relations.
From S2P Require Import Prelude.

Definition PARSED_PENDING_CONFIRMATION : string := "parsed_pending_confirmation".
Definition CONFIRMED : string := "confirmed".
Definition REJECTED : string := "rejected".
Definition EDITED_PENDING_CONFIRMATION : string := "edited_pending_confirmation".
Definition SUPERSEDED : string := "superseded".
Definition EXPIRED : string := "expired".

Definition INITIAL_STATUS : string := PARSED_PENDING_CONFIRMATION.
Definition RAW_INTAKE_PENDING_PARSE : string := "pending_parse".
Definition RAW_INTAKE_PARSED_PENDING_CONFIRMATION : string := PARSED_PENDING_CONFIRMATION.
Definition RAW_INTAKE_CONFIRMED : string := CONFIRMED.
Definition RAW_INTAKE_REJECTED : string := REJECTED.

Definition ALLOWED_STATUSES : list string :=
  [PARSED_PENDING_CONFIRMATION; CONFIRMED; REJECTED; EDITED_PENDING_CONFIRMATION; SUPERSEDED; EXPIRED].
Definition RAW_INTAKE_STATUSES : list string :=
  [RAW_INTAKE_PENDING_PARSE; RAW_INTAKE_PARSED_PENDING_CONFIRMATION; RAW_INTAKE_CONFIRMED; RAW_INTAKE_REJECTED].
Definition TERMINAL_STATUSES : list string := [CONFIRMED; REJECTED; SUPERSEDED; EXPIRED].

Definition ALLOWED_TRANSITIONS : pydict (list string) :=
  [(PARSED_PENDING_CONFIRMATION, [CONFIRMED; REJECTED; EDITED_PENDING_CONFIRMATION; SUPERSEDED; EXPIRED]);
   (EDITED_PENDING_CONFIRMATION, [CONFIRMED; REJECTED; SUPERSEDED; EXPIRED]);
   (CONFIRMED, []); (REJECTED, []); (SUPERSEDED, []); (EXPIRED, [])].

Definition new_proposal_status : string := INITIAL_STATUS.

Definition validate_known_status (status : string) : result unit :=
  raise_when (negb (str_in status ALLOWED_STATUSES)) ValueError ("Unknown parser proposal status: " +:+ status).

Definition is_terminal_status (status : string) : result bool :=
  validate_known_status status;; Ok (str_in status TERMINAL_STATUSES).

Definition validate_transition (from_status to_status : string) : result bool :=
  validate_known_status from_status;;
  validate_known_status to_status;;
  terminal ← is_terminal_status from_status;
  raise_when terminal ValueError ("Terminal parser proposal status cannot transition: " +:+ from_status);;
  allowed ← dict_index from_status ALLOWED_TRANSITIONS;
  raise_when (negb (str_in to_status allowed)) ValueError
    ("Invalid parser proposal status transition: " +:+ from_status +:+ " -> " +:+ to_status);;
  Ok true.

Definition status_implies_final_transaction_created (status : string) : result bool :=
  validate_known_status status;; Ok false.

Definition raw_intake_status_for_proposal_status (status : string) : result string :=
  validate_known_status status;;
  if String.eqb status CONFIRMED then Ok RAW_INTAKE_CONFIRMED
  else if str_in status [REJECTED; SUPERSEDED; EXPIRED] then Ok RAW_INTAKE_REJECTED
  else Ok RAW_INTAKE_PARSED_PENDING_CONFIRMATION.

(** ** Runs of the life cycle *)

(** A transition the code allows. *)
Definition status_step (a b : string) : Prop := validate_transition a b = Ok true.

(** The steps a status is at most away from a terminal one. *)
Definition steps_left (status : string) : nat :=
  if String.eqb status PARSED_PENDING_CONFIRMATION then 2
  else if String.eqb status EDITED_PENDING_CONFIRMATION then 1 else 0.

Lemma known_status s : validate_known_status s = Ok tt ↔ s ∈ ALLOWED_STATUSES.
Proof. unfold validate_known_status. rewrite raise_when_Ok, negb_false_iff. apply bool_decide_eq_true. Qed.

(** One proof by cases over the known statuses. *)
Ltac each_status H :=
  unfold ALLOWED_STATUSES in H;
  repeat (apply elem_of_cons in H as [->|H]); [..|by apply elem_of_nil in H].

Lemma step_known a b : status_step a b → a ∈ ALLOWED_STATUSES ∧ b ∈ ALLOWED_STATUSES.
Proof.
  unfold status_step, validate_transition. intros ([]&Ha&H)%bind_Ok. apply bind_Ok in H as ([]&Hb&_).
  by apply known_status in Ha, Hb.
Qed.

Lemma step_decreases a b : status_step a b → (steps_left b < steps_left a)%nat.
Proof.
  intros H. destruct (step_known a b H) as [Ha Hb]. revert H.
  each_status Ha; each_status Hb; vm_compute; try discriminate; lia.
Qed.

Lemma nonterminal_moves a : a ∈ ALLOWED_STATUSES →
  is_terminal_status a = Ok true ∧ (∀ b, ¬ status_step a b) ∧ raw_intake_status_for_proposal_status a ≠ Ok RAW_INTAKE_PARSED_PENDING_CONFIRMATION ∨
  is_terminal_status a = Ok false ∧ (∃ b, status_step a b) ∧ raw_intake_status_for_proposal_status a = Ok RAW_INTAKE_PARSED_PENDING_CONFIRMATION.
Proof.
  intros Ha. each_status Ha.
  1,4: by right; split_and!; [by vm_compute|exists CONFIRMED; by vm_compute|by vm_compute].
  all: left; split_and!; [by vm_compute| |by vm_compute]; intros b Hs; apply step_decreases in Hs; cbn in Hs; lia.
Qed.

(** C38: The life cycle of a proposal terminates: no infinite sequence of
    allowed transitions exists, a run of [n] transitions from the initial
    status has at most two of them, and where it ends it can go on exactly
    when its status is not terminal, which is also exactly when the raw
    intake record is still pending confirmation. *)
Theorem lifecycle_terminates n s :
  nsteps status_step n new_proposal_status s →
  (n <= 2)%nat ∧ well_founded (flip status_step) ∧
  (is_terminal_status s = Ok false ↔ ∃ s', status_step s s') ∧
  (is_terminal_status s = Ok true ↔ ¬ ∃ s', status_step s s') ∧
  (raw_intake_status_for_proposal_status s = Ok RAW_INTAKE_PARSED_PENDING_CONFIRMATION ↔ ∃ s', status_step s s').
Proof.
  intros Hn.
  assert (Hs : s ∈ ALLOWED_STATUSES ∧ (n + steps_left s <= 2)%nat).
  { assert (Hgen : ∀ a, a ∈ ALLOWED_STATUSES → nsteps status_step n a s →
      s ∈ ALLOWED_STATUSES ∧ (n + steps_left s <= steps_left a)%nat).
    { clear Hn. intros a Ha Hn. induction Hn as [a|n a b s Hab _ IH]; [done|].
      destruct (IH (proj2 (step_known a b Hab))) as [Hk Hle]. split; [done|]. apply step_decreases in Hab. lia. }
    by apply (Hgen new_proposal_status); [left|]. }
  destruct Hs as [Hs Hle]. split; [lia|]. split.
  - eapply (wf_incl _ _ (ltof _ steps_left)); [|apply well_founded_ltof].
    intros b a Hab. unfold ltof. by apply step_decreases.
  - destruct (nonterminal_moves s Hs) as [(->&Hno&Hraw)|(->&Hyes&Hraw)].
    + assert (Hn' : ¬ ∃ s', status_step s s') by (intros [b Hb]; by apply (Hno b)). by split_and!; split.
    + rewrite Hraw. by split_and!; split.
Qed.

Lemma lifecycle_terminates_witness :
  (2 <= 2)%nat ∧ well_founded (flip status_step) ∧
  (is_terminal_status CONFIRMED = Ok false ↔ ∃ s', status_step CONFIRMED s') ∧
  (is_terminal_status CONFIRMED = Ok true ↔ ¬ ∃ s', status_step CONFIRMED s') ∧
  (raw_intake_status_for_proposal_status CONFIRMED = Ok RAW_INTAKE_PARSED_PENDING_CONFIRMATION ↔
   ∃ s', status_step CONFIRMED s').
Proof.
  exact (lifecycle_terminates 2 CONFIRMED
    (nsteps_l status_step 1 new_proposal_status EDITED_PENDING_CONFIRMATION CONFIRMED eq_refl
       (nsteps_l status_step 0 EDITED_PENDING_CONFIRMATION CONFIRMED CONFIRMED eq_refl (nsteps_O status_step CONFIRMED)))).
Defined.
